(* ===== verification/_CoqProject ===== *)
-Q . S2P
Prelude.v
GoStrings.v
TaskModel.v
StateMachine.v
TaskRepo.v
TaskRepoFacts.v
TaskRepoSafety.v
TaskRepoTypes.v
Store.v
Queue.v
Scheduler.v
SchedulerFacts.v
ExternalWait.v
LeaderElection.v
LeaderElectionFacts.v
Workflow.v
WorkflowFacts.v
Gates.v
Engine.v
GatesFacts.v
Delegation.v
DelegationFacts.v
FamilyFacts.v
FamilyLimits.v
EngineFacts.v
EngineRuns.v
EngineScenarios.v
Firewall.v
FirewallRecall.v
FirewallAudit.v
FirewallFacts.v
FirewallScenarios.v
StepRetry.v
StepRetryFacts.v
StepRetryPlans.v
FailureClass.v
ExecRepo.v
Lifecycle.v
LifecycleOps.v
LifecycleFacts.v
LifecycleRuns.v
LifecycleEnds.v
LifecycleAttempts.v
LifecyclePause.v
LifecycleScenarios.v
CallRepo.v
CallGates.v
CallGlobs.v
Interpolate.v
CallProject.v
CallFacts.v
CallRuns.v
CallScan.v
CallResolve.v
CallScenarios.v
Registry.v
AutonomyBacklog.v
RateLimit.v
RateLimitFacts.v
Reminder.v
ReminderFacts.v
ReminderSweep.v
ReminderScenarios.v
ReminderTools.v
CircuitBreaker.v
Budget.v
Watchdog.v
WatchdogScan.v
WatchdogRuns.v
WatchdogScenarios.v
TaskCreate.v
TaskCreateFacts.v
TaskCreateRuns.v
TaskCreateRate.v
TaskCreateScenarios.v
AutonomyGates.v
Autonomy.v
AutonomyFacts.v
AutonomyRuns.v
AutonomyScenarios.v
