(* ===== verification/Prelude.v ===== *)
(** * Vornik orchestration core: a verification library

    Vornik is a daemon that runs tasks for projects: tasks are rows of a database
    table, a scheduler leases them, an executor runs each through the workflow
    graph of its project, and children delegated by a task wake their parent when
    they are done.  This library models that core of [src/internal] and the
    components it leans on, and proves what they promise each other.

    ** How the program fits together

    A task is admitted against the rate limits and spending caps of its project
    (task creation), stored in the table (repository), leased by a scheduling pass
    (scheduler), taken over by one goroutine with an execution row of its own
    (execution lifecycle, execution repository) that attempts its workflow step by
    step (engine, gates, workflow definitions), classifies a failure, may
    delegate children and wait for them (delegation), may call a workflow of another
    project and wait for its answer until a deadline (calls between projects), may
    wait for an external answer (external-wait monitor), and ends in a terminal
    status (state machine).
    Several daemons share the database: singleton workers are elected, and their
    writes are fenced by an epoch (leader election).  Agents read project memory
    through a policy check that leaves an audit trail (memory firewall), and a
    failing step is retried in layers before it fails the task (step retries).
    Projects may also schedule work for themselves, from a goal, a backlog file or a
    language model's answer (autonomy).
    A project that fails too often has its autonomy switched off (circuit breaker),
    and executions without progress are failed by a periodic scan (watchdog).
    Beside the tasks, a heartbeat delivers the reminders that chats have set
    (reminders).

    ** Files

    Shared.  [Prelude]: results, time, machine integers, ordering by keys, list
    lemmas, automation.  [GoStrings]: Go's [strings] functions on byte strings.

    Tasks.  [TaskModel]: the row and its enumerations (persistence/models.go).
    [StateMachine]: [ValidateTransition] (scheduler/state_machine.go) against a
    declarative diagram, and runs of accepted transitions.

    Repository.  [TaskRepo]: every method of
    persistence/postgres/task_repository.go on a list of rows with the constraints
    of persistence/migrations.go.  [TaskRepoFacts]: what each method does.
    [TaskRepoSafety]: interleavings of calls by many clients.  [TaskRepoTypes]: they
    keep the table well typed.

    Scheduling.  [Store]: the repository interface of the scheduler as a type class
    with laws, and the PostgreSQL instance.  [Queue]: queue/queue.go.  [Scheduler]:
    scheduler/scheduler.go over any lawful store.  [SchedulerFacts]: its properties.
    [ExternalWait]: scheduler/external_wait.go.

    Leader election.  [LeaderElection]: leaderelection/elector.go and fence.go with
    both lock repositories; the calls of several daemons, their replies and their
    faults interleave.  [LeaderElectionFacts]: at most one daemon passes the fence;
    a leader with few failures keeps its lease.

    Workflows.  [Workflow]: registry/workflow.go and its validator.
    [WorkflowFacts]: the validator accepts exactly the well-formed workflows.
    [Gates]: executor/gates.go and the payload normalisation of output_schema.go.
    [Engine]: [executeWorkflowAttempt] of executor/workflow.go with the checkpoints
    of state.go.  [GatesFacts], [EngineFacts], [EngineRuns], [EngineScenarios]: the
    first matching gate wins; an attempt terminates, is a walk of the workflow
    graph, and passes an approval only if it was granted.

    Delegation.  [Delegation]: the creation of children in executor/plan.go and the
    parking and waking of parents in executor/workflow.go, one program counter per
    goroutine.  [DelegationFacts], [FamilyFacts], [FamilyLimits]: creation is all or
    nothing; over every interleaving a parent is woken exactly once; two ways in
    which it never is.

    Memory firewall.  [Firewall]: memoryfirewall/evaluator.go, defaults.go and
    digest.go.  [FirewallRecall]: the policy columns, the administrator's edit and
    both recall passes (memory/repository.go, memory/firewall_recall.go,
    api/memory_firewall_handlers.go).  [FirewallAudit]: the audit writer
    (memoryfirewall/audit.go).  [FirewallFacts],
    [FirewallScenarios]: a decision is the conjunction of its tests, protected
    chunks do not surface, edits round-trip, rows reach the sink in order.

    Step retries.  [StepRetry]: the three layers of executor/retry.go around an
    agent run.  [StepRetryFacts]: what each layer adds to the trace of a step.
    [StepRetryPlans]: how often and how long a step may run, what it returns, when
    the fallback model is used.

    Executions.  [FailureClass]: executor/failure_classifier.go.  [ExecRepo]:
    persistence/postgres/execution_repository.go.  [Lifecycle]: [runExecution] of
    executor/executor.go with the final handlers of workflow.go and the follow-up of
    checkpoint.go, as a program counter per goroutine.  [LifecycleOps]: starting,
    resuming, pausing, cancelling and recovering (executor.go, state.go), and the
    events that interleave.  [LifecycleFacts]: one goroutine per task.
    [LifecycleRuns]: nothing is written once the context is done.  [LifecycleEnds]:
    what the final handlers and the release of a recovered task write.
    [LifecycleAttempts]: the retry budget, and that an execution ends.
    [LifecyclePause]: a pause and the restart after it.  [LifecycleScenarios]:
    concrete runs.

    Calls between projects.  [CallRepo]: the ledger of calls
    (persistence/postgres/cross_project_call_repository.go).  [CallGates]: the
    allowlists of registry/project.go with Go's glob matcher, and the depth and cycle
    guards of executor/call_project_lineage.go.  [Interpolate]:
    executor/outputs_interpolate.go, whose scanner of references round-trips.  [CallProject]: the step, the resolve hook, the
    timeout scanner (executor/call_project.go, cpc_timeout_scanner.go,
    inter_project_audit.go) and the administrator's cancellation, one program counter
    per goroutine.  [CallGlobs]: the greedy matcher admits what a pattern describes.
    [CallFacts]: a
    resolution is final.  [CallRuns]: a call respects its lineage, chains are bounded,
    no callee resolves its call.  [CallScan]: a tick, and that every overdue call is
    reached.  [CallResolve]: the verdict on an envelope.  [CallScenarios]: concrete
    runs, six of which go wrong.

    Admission.  [Registry]: the project configuration that admission reads and the
    lookups (registry/project.go, swarm.go, registry.go).  [RateLimit]: the three
    limiters of ratelimit/ and the interface to them, a type class.
    [RateLimitFacts]: the laws of that interface, both instances, the window the
    PostgreSQL limiter counts, the exact retry hint.  [Budget]: budget/budget.go and
    the reservation ledger (budget_reservation_repository.go), and the
    envelope a decision names.  [TaskCreate]: [Create] of taskcreate/creator.go as a
    program counter per call.  [TaskCreateFacts]: a call ends, and what it has
    written.  [TaskCreateRuns]: an idempotency key names one task.
    [TaskCreateRate]: the rate limit holds up to the calls in flight.
    [TaskCreateScenarios]: concrete runs, among them a leaked reservation and a late
    admission.

    Autonomy.  [AutonomyBacklog]: the checklist of autonomy/manager.go and that
    draining it dispatches every item once.  [AutonomyGates]: durations as text, the gates on a project's newest tasks (duplicates, failures,
    circuit) and the idempotency key.  [Autonomy]: [evaluate], [tickCron],
    [tickBacklog] and [createAutonomousTask], a program counter per goroutine, with the
    manager's mutex and counts.  [AutonomyFacts]: what a turn does.  [AutonomyRuns]: a
    request has one active task, and the hourly cap holds up to the tool calls of one
    answer.  [AutonomyScenarios]: concrete runs, six of which are surprising.

    Reminders.  [Reminder]: persistence/reminder.go, reminder_repository.go,
    reminders/cron.go and the heartbeat of reminders/runner.go, a program counter per
    daemon.  [ReminderFacts]: what a run may send, as an account of the slots sent and
    the slots in flight.  No reminder is sent twice for one slot, and
    a claimed one that is not finalized is lost.  [ReminderSweep]: an undisturbed
    sweep.  [ReminderScenarios]: concrete runs.  [ReminderTools]: the answer of the
    parser (reminders/parser.go) and the tools of a chat
    (dispatcher/tool_set_reminder.go, tool_reminder_change.go).

    Circuit breaker.  [CircuitBreaker]: executor/circuit_breaker.go and the switch of
    registry/patch.go: alerts are a window apart, what one call does, and what its
    tally counts.

    Watchdog.  [Watchdog]: the scan of watchdog/watchdog.go over the execution, task
    and reservation repositories, a program counter per daemon.  [WatchdogScan]: what
    an undisturbed scan does to every row of the three tables.  [WatchdogRuns]: an
    execution that checkpoints in time is never failed, and a stuck one is reported
    once.  [WatchdogScenarios]: concrete runs, six of which do harm.

    ** Conventions

    A Go [(value, error)] pair is a [result]; a pointer is an [option]; a string
    enumeration is an inductive type with an [Other] constructor or, where the
    code treats it as text, a string.  A [time.Time] is a number of nanoseconds.
    A SQL statement is one function on the table; several statements of one call
    are separate steps wherever other goroutines can act in between.  Answers of
    the outside (agents, clocks, the database's choices and faults) are arguments.
    Code outside [src/] is a parameter of a type class: the server's JSON parser and
    timestamp rounding ([Postgres]), the text of arrays ([ArrayText]), the encoding of
    an execution's state ([StateCodec]), the JSON decoder ([JsonUnmarshal], [ResultCodec]), the digest ([PolicyHash]), the zones of the
    time-zone database ([TzDatabase]), the JSON encoder ([JsonMarshal]), the JSON of
    payloads and envelopes of calls ([CallPayload], [JsonAny], [EnvelopeCodec]), the cron
    library ([Cron]), the parser's answers and RFC 3339 ([ReminderText]), the JSON and
    the digest of autonomous tasks ([AutonomyJson], [AutonomyDigest]).  Amounts of
    money are binary64 numbers, computed with [SpecFloat].  The laws a
    theorem relies on are classes of their own with a concrete instance.

    ** Bounds and fuel

    The engine's loop runs on [maxIterations], which the code computes from the
    workflow; that many iterations always suffice because the code stops there
    itself.  [search_fuel] of the reachability search is two more than the number
    of steps, and every recursive call visits a new step.  [split_fuel] and
    [drop_reasoning] get the length of the text plus one, and each round shortens
    it.  [walk_guard] is the code's own bound of 2L+2 ancestors.  The
    fuel of [infra_attempts] is the number of attempts left of the code's six.
    [match_missing_keys] gets the length of the text plus one.  [checkpoint_walk] gets
    the code's own bound of seven ancestors; an execution's remaining turns are
    [run_rank], four for each attempt it has left and a constant.  A call of [Create] takes thirteen turns at
    most.  The lineage walk stops at the code's own 256 ancestors and a claim at its
    hundred rows, so a tick of the timeout scanner takes 502 turns at most;
    [parse_glob] and [find_refs] get the length of the text, and each round shortens
    it.  A sweep of the heartbeat takes three turns for a row and one for the claim, a
    scan of the watchdog 2505 turns at most, since its two listings hold 500 rows each.
    [parse_terms] gets the length of the text, and every term shortens it.
    The parent-waking
    argument ranks a goroutine by its remaining statements, five at most.  Stale
    fuel is never an answer: the theorems state that the result is reached.

    ** What is not modelled

    Goroutine scheduling beyond interleaving, containers, git worktrees, prompts
    and language-model clients; of autonomy, the prompt of the language model, the cost
    forecast, the market-hours check and the starting and stopping of loops; HTTP handlers, user interfaces, messaging channels
    and the command line; metrics, logs and traces; migrations other than the
    constraints named above; repositories that the modelled components do not read
    and, apart from the leader lock, the SQLite backend; classifiers whose value is
    empirical (hallucination, output guard, intent judge); the per-key token
    bucket and the profit accounting, whose floating-point results nothing else
    modelled here reads.  They are I/O, remote protocols or text, or they call the modelled
    components without deciding what these do. *)
From Stdlib Require Export ZArith Lia.
From stdpp Require Export sorting.
From stdpp Require Export prelude strings gmap numbers list.
From coqutil Require Export (notations) Datatypes.RecordSetters.
Export coqutil.Datatypes.RecordSetters.TriangleBracketNotations.

(** Let [simpl] compute the fields of an updated record. *)
#[global] Arguments coqutil.Datatypes.RecordSetters.constant {E} newValue _ /.

Declare Scope vornik_scope.
Delimit Scope vornik_scope with vornik.
#[export] Set Default Goal Selector "!".
Open Scope Z_scope.

Create HintDb vornik discriminated.
Create Rewrite HintDb vornik.

(** ** Results: Go's [(value, error)] pairs *)

(** A call that succeeds returns [Ok v]; a non-nil Go error is [Err e]. *)
Inductive result (E A : Type) : Type :=
| Ok (v : A)
| Err (e : E).
Arguments Ok {E A} v.
Arguments Err {E A} e.

#[export] Instance result_eq_dec {E A} `{EqDecision E, EqDecision A} :
  EqDecision (result E A).
Proof.
  intros [a|e] [b|f]; try (by right).
  - destruct (decide (a = b)); [left; by subst | right; by intros [=]].
  - destruct (decide (e = f)); [left; by subst | right; by intros [=]].
Defined.

Definition res_bind {E A B} (m : result E A) (k : A -> result E B) : result E B :=
  match m with Ok v => k v | Err e => Err e end.

Notation "'let!' x := m 'in' k" := (res_bind m (fun x => k))
  (at level 10, x pattern, m at level 100, k at level 200,
   format "'let!'  x  :=  m  'in' '//' k") : vornik_scope.
#[global] Open Scope vornik_scope.

Definition is_ok {E A} (m : result E A) : bool :=
  match m with Ok _ => true | Err _ => false end.

Lemma res_bind_ok {E A B} (m : result E A) (k : A -> result E B) v :
  res_bind m k = Ok v <-> exists x, m = Ok x /\ k x = Ok v.
Proof.
  destruct m; simpl; split; [eauto | intros (? & [= ->] & ?); done | done |].
  by intros (? & [=] & _).
Qed.

(** What the outside does to a statement: nothing, a refusal before it ran, or the
    loss of its reply. *)
Inductive Fault : Type := NoFault | Refused | ReplyLost.

Definition failed (f : Fault) : bool := match f with NoFault => false | _ => true end.
Definition refused (f : Fault) : bool := match f with Refused => true | _ => false end.

(** ** Time

    A [time.Time] is the number of nanoseconds since some fixed instant and a
    [time.Duration] a number of nanoseconds.  [zeroTime] is Go's [time.Time{}],
    the value [IsZero] recognises: an instant no wall clock returns. *)
Abbreviation time := Z (only parsing).
Abbreviation duration := Z (only parsing).
Definition Nanosecond : duration := 1.
Definition Microsecond : duration := 1000.
Definition Millisecond : duration := 1000 * Microsecond.
Definition Second : duration := 1000 * Millisecond.
Definition Minute : duration := 60 * Second.
Definition Hour : duration := 60 * Minute.

(** Go's zero time, 0001-01-01T00:00:00Z, relative to the Unix epoch. *)
Definition zeroTime : time := -62135596800 * Second.

(** ** Machine integers *)

Definition maxInt64 : Z := 2 ^ 63 - 1.
Definition minInt64 : Z := - 2 ^ 63.
Definition maxInt32 : Z := 2 ^ 31 - 1.
Definition minInt32 : Z := - 2 ^ 31.

(** Two's-complement wrap-around of Go's [int] and [int64] arithmetic. *)
Definition wrap64 (z : Z) : Z := (z + 2 ^ 63) `mod` 2 ^ 64 - 2 ^ 63.

Definition int64_range (z : Z) : Prop := minInt64 <= z <= maxInt64.
Definition int32_fits (z : Z) : bool := (minInt32 <=? z) && (z <=? maxInt32).

Lemma wrap64_id z : int64_range z -> wrap64 z = z.
Proof.
  unfold int64_range, minInt64, maxInt64, wrap64. intros H.
  rewrite Z.mod_small; lia.
Qed.

Lemma wrap64_range z : int64_range (wrap64 z).
Proof.
  unfold int64_range, minInt64, maxInt64, wrap64.
  pose proof (Z.mod_pos_bound (z + 2 ^ 63) (2 ^ 64)). lia.
Qed.

Lemma int32_fits_pos z : 0 <= z <= maxInt32 -> int32_fits z = true.
Proof.
  unfold int32_fits, minInt32. intros H. rewrite andb_true_iff, !Z.leb_le. lia.
Qed.

(** ** Optional columns *)

Notation "x =?? y" := (bool_decide (x = y)) (at level 70, no associativity)
  : vornik_scope.

Definition is_none {A} (o : option A) : bool :=
  match o with None => true | Some _ => false end.

Definition is_some {A} (o : option A) : bool := negb (is_none o).

(** [opt_filter o f]: a condition that is only added when [o] is set. *)
Definition opt_filter {A} (o : option A) (f : A -> bool) : bool :=
  match o with None => true | Some x => f x end.

(** ** Ordering by a key

    [ORDER BY k1, k2, ...] compares the keys lexicographically; ties are left
    in the physical order of the table, and since the theorems hold for any
    physical order they hold for any way the database breaks ties. *)
Fixpoint lex_le (a b : list Z) : Prop :=
  match a, b with
  | [], _ => True
  | _ :: _, [] => False
  | x :: a', y :: b' => x < y \/ (x = y /\ lex_le a' b')
  end.

#[export] Instance lex_le_dec : RelDecision lex_le.
Proof.
  intros a. induction a as [|x a IH]; intros [|y b]; simpl.
  - left. exact I.
  - left. exact I.
  - right. tauto.
  - destruct (decide (x < y)); [left; tauto|].
    destruct (decide (x = y)); [|right; lia].
    destruct (IH b); [left; tauto | right; tauto].
Defined.

#[export] Instance lex_le_trans : Transitive lex_le.
Proof.
  intros a. induction a as [|x a IH]; intros [|y b] [|z c]; simpl; try tauto.
  intros [?|[-> ?]] [?|[-> ?]]; [left; lia | tauto | tauto |].
  right. split; [done|]. eapply IH; eauto.
Qed.

#[export] Instance lex_le_total : Total lex_le.
Proof.
  intros a. induction a as [|x a IH]; intros [|y b]; simpl; try tauto.
  destruct (Z.lt_trichotomy x y) as [?|[->|?]]; [tauto | | tauto].
  destruct (IH b); tauto.
Qed.

Lemma lex_le_refl a : lex_le a a.
Proof. destruct (lex_le_total a a); done. Qed.

(** Rows ordered by the key [k]. *)
Definition key_le {A} (k : A -> list Z) (a b : A) : Prop := lex_le (k a) (k b).

#[export] Instance key_le_dec {A} (k : A -> list Z) : RelDecision (key_le k).
Proof. intros a b. unfold key_le. apply _. Defined.
#[export] Instance key_le_trans {A} (k : A -> list Z) : Transitive (key_le k).
Proof. intros a b c. unfold key_le. apply lex_le_trans. Qed.
#[export] Instance key_le_total {A} (k : A -> list Z) : Total (key_le k).
Proof. intros a b. unfold key_le. apply lex_le_total. Qed.

Definition order_by {A} (k : A -> list Z) (l : list A) : list A :=
  merge_sort (key_le k) l.

Lemma order_by_perm {A} (k : A -> list Z) l : order_by k l ≡ₚ l.
Proof. apply merge_sort_Permutation. Qed.

Lemma order_by_sorted {A} (k : A -> list Z) l :
  StronglySorted (key_le k) (order_by k l).
Proof. apply StronglySorted_merge_sort; apply _. Qed.

Lemma elem_of_order_by {A} (k : A -> list Z) l x : x ∈ order_by k l <-> x ∈ l.
Proof. by rewrite order_by_perm. Qed.

Lemma order_by_head_min {A} (k : A -> list Z) l x :
  head (order_by k l) = Some x ->
  x ∈ l /\ forall y, y ∈ l -> lex_le (k x) (k y).
Proof.
  intros Hx. pose proof (order_by_sorted k l) as Hs.
  destruct (order_by k l) as [|z zs] eqn:E; simplify_eq/=.
  assert (Hin : forall y, y ∈ l <-> y ∈ x :: zs)
    by (intros y; rewrite <- E; symmetry; apply elem_of_order_by).
  apply StronglySorted_cons in Hs as [Hall _]. rewrite Forall_forall in Hall.
  split; [apply Hin; left|].
  intros y Hy. apply Hin in Hy. apply elem_of_cons in Hy as [->|Hy].
  - apply lex_le_refl.
  - exact (Hall y Hy).
Qed.

(** The first [n] elements: one that is not among them comes after [n] others. *)
Lemma order_by_take {A} (k : A -> list Z) n l x :
  x ∈ l -> x ∈ take n (order_by k l) \/
  (length (take n (order_by k l)) = n /\ forall y, y ∈ take n (order_by k l) -> key_le k y x).
Proof.
  intros Hx%(elem_of_order_by k). rewrite <- (take_drop n (order_by k l)) in Hx.
  apply elem_of_app in Hx as [Hx|Hx]; [by left|right]. split.
  - apply length_take_le. destruct (Nat.le_gt_cases n (length (order_by k l))); [done|].
    rewrite drop_ge in Hx by lia. by apply not_elem_of_nil in Hx.
  - intros y Hy. pose proof (order_by_sorted k l) as Hs.
    rewrite <- (take_drop n (order_by k l)) in Hs. apply StronglySorted_app in Hs as (Hs & _).
    by apply Hs.
Qed.

Lemma order_by_head_None {A} (k : A -> list Z) l :
  head (order_by k l) = None <-> l = [].
Proof.
  pose proof (order_by_perm k l) as Hp. split.
  - destruct (order_by k l) eqn:E; [|done].
    intros _. by apply Permutation_nil in Hp.
  - intros ->. done.
Qed.

(** ** Lists *)

(** Go's [LIMIT]/[OFFSET] clauses are appended only when positive. *)
Definition limit_offset {A} (limit offset : Z) (l : list A) : list A :=
  let l' := if 0 <? offset then drop (Z.to_nat offset) l else l in
  if 0 <? limit then take (Z.to_nat limit) l' else l'.

Lemma limit_offset_sublist {A} (limit offset : Z) (l : list A) :
  limit_offset limit offset l `sublist_of` l.
Proof.
  unfold limit_offset. repeat case_match; auto using sublist_take, sublist_drop.
  etrans; eauto using sublist_take, sublist_drop.
Qed.

Lemma sublist_elem_of' {A} (l k : list A) x : l `sublist_of` k -> x ∈ l -> x ∈ k.
Proof. intros Hs Hx. eapply sublist_subseteq; eauto. Qed.

Lemma StronglySorted_sublist {A} (R : relation A) l k :
  l `sublist_of` k -> StronglySorted R k -> StronglySorted R l.
Proof.
  induction 1 as [|x l k Hs IH|x l k Hs IH]; intros HS; auto.
  - apply StronglySorted_cons in HS as [Hall HS].
    constructor; [by apply IH|].
    rewrite Forall_forall in Hall |- *. intros y Hy.
    apply Hall. eapply sublist_elem_of'; eauto.
  - apply StronglySorted_cons in HS as [_ HS]. auto.
Qed.

(** What the elements of a list contribute, with one element apart. *)
Lemma concat_map_split {A B} (f : A -> list B) (l : list A) i x :
  l !! i = Some x ->
  exists others, concat (map f l) ≡ₚ f x ++ others /\
    forall y, concat (map f (<[i := y]> l)) ≡ₚ f y ++ others.
Proof.
  intros Hi. pose proof (lookup_lt_Some _ _ _ Hi) as Hlt.
  exists (concat (map f (take i l)) ++ concat (map f (drop (S i) l))). split.
  - rewrite <- (take_drop_middle l i x Hi) at 1. rewrite map_app, concat_app. simpl.
    rewrite !app_assoc. apply Permutation_app_tail, Permutation_app_comm.
  - intros y. rewrite insert_take_drop by done. rewrite map_app, concat_app. simpl.
    rewrite !app_assoc. apply Permutation_app_tail, Permutation_app_comm.
Qed.

(** Number of elements satisfying a boolean predicate. *)
Definition count_if {A} (p : A -> bool) (l : list A) : nat :=
  length (filter (fun x => p x = true) l).

Lemma count_if_nil {A} (p : A -> bool) : count_if p [] = 0%nat.
Proof. done. Qed.

Lemma count_if_cons {A} (p : A -> bool) x l :
  count_if p (x :: l) = ((if p x then 1 else 0) + count_if p l)%nat.
Proof.
  unfold count_if. destruct (p x) eqn:E.
  - by rewrite filter_cons_True.
  - rewrite filter_cons_False; [done|]. congruence.
Qed.

Lemma count_if_app {A} (p : A -> bool) l k :
  count_if p (l ++ k) = (count_if p l + count_if p k)%nat.
Proof. unfold count_if. by rewrite filter_app, length_app. Qed.

Lemma count_if_le_length {A} (p : A -> bool) l : (count_if p l <= length l)%nat.
Proof. apply length_filter. Qed.

Lemma count_if_zero {A} (p : A -> bool) l :
  count_if p l = 0%nat <-> forall x, x ∈ l -> p x = false.
Proof.
  induction l as [|x l IH]; [split; [set_solver|done]|].
  rewrite count_if_cons. destruct (p x) eqn:E; split.
  - lia.
  - intros H. specialize (H x). rewrite H in E; [done|left].
  - intros H y [->|Hy]%elem_of_cons; [done|]. by apply IH.
  - intros H. apply IH. intros y Hy. apply H. by right.
Qed.

Lemma count_if_ext {A} (p q : A -> bool) l :
  (forall x, x ∈ l -> p x = q x) -> count_if p l = count_if q l.
Proof.
  induction l as [|x l IH]; [done|]. intros H.
  rewrite !count_if_cons, H by left. rewrite IH; [done|].
  intros y Hy. apply H. by right.
Qed.

Lemma count_if_map {A B} (f : A -> B) (p : B -> bool) l :
  count_if p (map f l) = count_if (fun x => p (f x)) l.
Proof. induction l as [|x l IH]; [done|]. simpl. by rewrite !count_if_cons, IH. Qed.

Lemma count_if_mono {A} (p q : A -> bool) l :
  (forall x, x ∈ l -> p x = true -> q x = true) -> (count_if p l <= count_if q l)%nat.
Proof.
  induction l as [|x l IH]; [done|]. intros H. rewrite !count_if_cons.
  assert (IH' : (count_if p l <= count_if q l)%nat).
  { apply IH. intros y Hy. apply H. by right. }
  specialize (H x ltac:(left)). destruct (p x); [rewrite H by done; lia|].
  destruct (q x); lia.
Qed.

Lemma count_if_filter {A} (p q : A -> bool) l :
  count_if p (filter (fun x => q x = true) l) = count_if (fun x => q x && p x) l.
Proof.
  induction l as [|x l IH]; [done|]. rewrite count_if_cons, filter_cons.
  case_decide as Hq; [by rewrite count_if_cons, IH, Hq|].
  apply not_true_iff_false in Hq. by rewrite IH, Hq.
Qed.

#[export] Instance count_if_Permutation {A} (p : A -> bool) :
  Proper ((≡ₚ) ==> (=)) (count_if p).
Proof. intros l l' H. unfold count_if. by rewrite H. Qed.

(** Boolean quantifiers over lists. *)
Lemma forallb_elem {A} (p : A -> bool) l :
  forallb p l = true <-> forall x, x ∈ l -> p x = true.
Proof. rewrite forallb_forall. by setoid_rewrite list_elem_of_In. Qed.

Lemma forallb_elem_false {A} (p : A -> bool) l :
  forallb p l = false <-> exists x, x ∈ l /\ p x = false.
Proof.
  induction l as [|x l IH]; simpl; [split; [done|set_solver]|].
  rewrite andb_false_iff, IH. setoid_rewrite elem_of_cons. naive_solver.
Qed.

Lemma existsb_elem {A} (p : A -> bool) l :
  existsb p l = true <-> exists x, x ∈ l /\ p x = true.
Proof. rewrite existsb_exists. by setoid_rewrite list_elem_of_In. Qed.

Lemma count_if_pos {A} (p : A -> bool) l :
  (0 < count_if p l)%nat <-> exists x, x ∈ l /\ p x = true.
Proof.
  rewrite <- existsb_elem. induction l as [|x l IH]; simpl.
  { rewrite count_if_nil. by split; [lia|]. }
  rewrite count_if_cons, orb_true_iff, <- IH.
  destruct (p x); split; intros; try lia; auto.
Qed.

(** ** Automation *)

(** [split_and] on booleans: turn conjunctions of tests into propositions. *)
Ltac btauto_hyps :=
  repeat match goal with
  | H : context [bool_decide _ = true] |- _ => rewrite bool_decide_eq_true in H
  | H : context [bool_decide _ = false] |- _ => rewrite bool_decide_eq_false in H
  | H : (_ && _) = true |- _ => apply andb_true_iff in H; destruct H
  | H : (_ || _) = false |- _ => apply orb_false_iff in H; destruct H
  | H : negb _ = true |- _ => apply negb_true_iff in H
  | H : negb _ = false |- _ => apply negb_false_iff in H
  | H : (_ <? _) = true |- _ => apply Z.ltb_lt in H
  | H : (_ <? _) = false |- _ => apply Z.ltb_ge in H
  | H : (_ <=? _) = true |- _ => apply Z.leb_le in H
  | H : (_ <=? _) = false |- _ => apply Z.leb_gt in H
  | H : (_ =? _) = true |- _ => apply Z.eqb_eq in H
  | H : (_ =? _) = false |- _ => apply Z.eqb_neq in H
  end.

(** Split every conditional of the goal, simplifying as it goes. *)
Ltac cases_goal :=
  repeat (case_match; simplify_eq/=; try done).

#[export] Hint Resolve lex_le_refl wrap64_id wrap64_range : vornik.
#[export] Hint Rewrite @count_if_nil @count_if_cons @count_if_app : vornik.
