(* ===== verification/GoStrings.v ===== *)
(** * Strings as the Go code uses them

    The functions of Go's [strings] package that the modelled code calls, on byte
    strings: case mapping and white space are those of ASCII text. *)
From Stdlib Require Import Ascii.
From S2P Require Import Prelude.
Open Scope string_scope.

(** [strings.Cut]: around the first occurrence of [sep]. *)
Fixpoint cut (sep s : string) : option (string * string) :=
  if String.prefix sep s then Some ("", String.substring (String.length sep) (String.length s) s)
  else match s with
       | "" => None
       | String c s' => match cut sep s' with
                        | Some (a, b) => Some (String c a, b)
                        | None => None
                        end
       end.

Definition contains (s sub : string) : bool := is_some (cut sub s).

(** [s[:max]] for a string of at least [max] bytes. *)
Definition take_bytes (max : nat) (s : string) : string := String.substring 0 max s.

(** The [%q] verb for printable ASCII text. *)
Fixpoint quote_body (s : string) : string :=
  match s with
  | "" => ""
  | String c s' =>
      let n := nat_of_ascii c in
      if Nat.eqb n 34 || Nat.eqb n 92 then String (ascii_of_nat 92) (String c (quote_body s'))
      else String c (quote_body s')
  end.
Definition quote_go (s : string) : string :=
  String (ascii_of_nat 34) (quote_body s ++ String (ascii_of_nat 34) "").

(** [strings.Split] for a non-empty separator; each cut shortens the rest. *)
Fixpoint split_fuel (fuel : nat) (sep s : string) : list string :=
  match fuel with
  | O => [s]
  | S fuel => match cut sep s with
              | Some (a, b) => a :: split_fuel fuel sep b
              | None => [s]
              end
  end.

Definition split (sep s : string) : list string := split_fuel (S (String.length s)) sep s.

Definition is_space (c : ascii) : bool :=
  let n := nat_of_ascii c in Nat.eqb n 32 || (Nat.leb 9 n && Nat.leb n 13).

Fixpoint trim_left (s : string) : string :=
  match s with
  | String c s' => if is_space c then trim_left s' else s
  | "" => ""
  end.

Fixpoint string_rev_app (s acc : string) : string :=
  match s with "" => acc | String c s' => string_rev_app s' (String c acc) end.
Definition string_rev (s : string) : string := string_rev_app s "".

Definition TrimSpace (s : string) : string :=
  string_rev (trim_left (string_rev (trim_left s))).

(** [strings.ToUpper] on ASCII text. *)
Definition upper_byte (c : ascii) : ascii :=
  let n := nat_of_ascii c in
  if Nat.leb 97 n && Nat.leb n 122 then ascii_of_nat (n - 32) else c.

Fixpoint ToUpper (s : string) : string :=
  match s with
  | EmptyString => EmptyString
  | String c s => String (upper_byte c) (ToUpper s)
  end.

(** [strings.ToLower] on ASCII text. *)
Definition lower_byte (c : ascii) : ascii :=
  let n := nat_of_ascii c in
  if Nat.leb 65 n && Nat.leb n 90 then ascii_of_nat (n + 32) else c.

Fixpoint ToLower (s : string) : string :=
  match s with
  | EmptyString => EmptyString
  | String c s => String (lower_byte c) (ToLower s)
  end.

(** ** Substrings *)

Lemma prefix_app a b : String.prefix a (a ++ b) = true.
Proof.
  induction a as [|c a IH]; [by destruct b|]. simpl. destruct (ascii_dec c c); [done|congruence].
Qed.

Lemma contains_here a s : contains (a ++ s) a = true.
Proof.
  pose proof (prefix_app a s) as Hp. unfold contains. by destruct (a ++ s); cbn [cut]; rewrite Hp.
Qed.

Lemma contains_cons c s sub : contains s sub = true -> contains (String c s) sub = true.
Proof.
  unfold contains. intros H. cbn [cut]. destruct (String.prefix sub (String c s)); [done|].
  by destruct (cut sub s) as [[]|].
Qed.

Lemma contains_app a s sub : contains s sub = true -> contains (a ++ s) sub = true.
Proof. intros H. induction a; [done|]. by apply contains_cons. Qed.

Lemma prefix_app_r a s t : String.prefix a s = true -> String.prefix a (s ++ t) = true.
Proof.
  revert s. induction a as [|c a IH]; intros s; [by destruct (s ++ t)|].
  destruct s as [|d s]; [done|]. simpl. destruct (ascii_dec c d); [apply IH|done].
Qed.

Lemma contains_app_r s t sub : contains s sub = true -> contains (s ++ t) sub = true.
Proof.
  intros H. induction s as [|c s IH].
  - unfold contains in *. cbn [cut] in H. destruct (String.prefix sub "") eqn:E; [|done].
    destruct sub; [|done]. by destruct t.
  - unfold contains in H. cbn [cut] in H. destruct (String.prefix sub (String c s)) eqn:E.
    + unfold contains. apply (prefix_app_r _ _ t) in E. change (String c s ++ t) with (String c (s ++ t)) in *. cbn [cut]. by rewrite E.
    + apply contains_cons, IH. unfold contains. by destruct (cut sub s) as [[]|].
Qed.

(** ** Reversal and trimming *)

Lemma string_app_cons c s t : String c s ++ t = String c (s ++ t).
Proof. done. Qed.

Lemma string_app_nil s : s ++ "" = s.
Proof. induction s as [|c s IH]; [done|]. by rewrite string_app_cons, IH. Qed.

Lemma string_app_assoc s t u : (s ++ t) ++ u = s ++ t ++ u.
Proof. induction s as [|c s IH]; [done|]. by rewrite !string_app_cons, IH. Qed.

Lemma string_rev_app_spec s acc : string_rev_app s acc = string_rev s ++ acc.
Proof.
  unfold string_rev. revert acc. induction s as [|c s IH]; intros acc; [done|].
  simpl. by rewrite (IH (String c acc)), (IH (String c "")), string_app_assoc.
Qed.

Lemma string_rev_cons c s : string_rev (String c s) = string_rev s ++ String c "".
Proof. unfold string_rev at 1. simpl. apply string_rev_app_spec. Qed.

Lemma string_rev_app_distr s t : string_rev (s ++ t) = string_rev t ++ string_rev s.
Proof.
  induction s as [|c s IH]; [by rewrite string_app_nil|].
  by rewrite string_app_cons, !string_rev_cons, IH, string_app_assoc.
Qed.

Lemma string_rev_involutive s : string_rev (string_rev s) = s.
Proof.
  induction s as [|c s IH]; [done|]. by rewrite string_rev_cons, string_rev_app_distr, IH.
Qed.

Lemma contains_unfold s sub :
  contains s sub =
    String.prefix sub s || match s with "" => false | String _ s' => contains s' sub end.
Proof.
  unfold contains. destruct s as [|c s]; cbn [cut].
  - by destruct (String.prefix sub "").
  - destruct (String.prefix sub (String c s)); [done|]. by destruct (cut sub s) as [[]|].
Qed.

Lemma ToLower_app s t : ToLower (s ++ t) = ToLower s ++ ToLower t.
Proof.
  induction s as [|c s IH]; [done|]. rewrite string_app_cons. cbn [ToLower]. by rewrite IH.
Qed.

(** Every byte satisfies [p]. *)
Fixpoint all_bytes (p : ascii -> bool) (s : string) : bool :=
  match s with "" => true | String c s => p c && all_bytes p s end.

(** A separator that does not occur in the text keeps both sides apart. *)
Lemma prefix_separated d sub s t :
  all_bytes (fun c => negb (bool_decide (c = d))) sub = true ->
  String.prefix sub (s ++ String d t) = String.prefix sub s.
Proof.
  revert s. induction sub as [|c sub IH]; intros s Hs; [by destruct s|].
  cbn [all_bytes] in Hs. apply andb_true_iff in Hs as [Hc Hs].
  apply negb_true_iff, bool_decide_eq_false in Hc.
  destruct s as [|c' s]; simpl.
  - by destruct (ascii_dec c d).
  - destruct (ascii_dec c c'); [by apply IH|done].
Qed.

Lemma contains_separated d s t sub :
  all_bytes (fun c => negb (bool_decide (c = d))) sub = true -> sub <> "" ->
  contains (s ++ String d t) sub = contains s sub || contains t sub.
Proof.
  intros Hs Hne. induction s as [|c s IH].
  - change ("" ++ String d t) with (String d t). rewrite contains_unfold.
    rewrite (prefix_separated d sub "" t Hs : String.prefix sub (String d t) = _).
    rewrite (contains_unfold ""). by rewrite orb_false_r.
  - rewrite string_app_cons, contains_unfold, IH, (contains_unfold (String c s)).
    change (String c (s ++ String d t)) with (String c s ++ String d t).
    by rewrite prefix_separated, orb_assoc.
Qed.

Lemma all_bytes_app p s t : all_bytes p (s ++ t) = all_bytes p s && all_bytes p t.
Proof.
  induction s as [|c s IH]; [done|]. rewrite string_app_cons. cbn [all_bytes].
  by rewrite IH, andb_assoc.
Qed.

Lemma all_bytes_rev p s : all_bytes p (string_rev s) = all_bytes p s.
Proof.
  induction s as [|c s IH]; [done|]. rewrite string_rev_cons, all_bytes_app, IH. simpl.
  by rewrite andb_true_r, andb_comm.
Qed.

Lemma all_bytes_impl p q s :
  (forall c, p c = true -> q c = true) -> all_bytes p s = true -> all_bytes q s = true.
Proof.
  intros Hpq. induction s as [|c s IH]; simpl; [done|].
  rewrite !andb_true_iff. naive_solver.
Qed.

Lemma trim_left_id s : all_bytes (fun c => negb (is_space c)) s = true -> trim_left s = s.
Proof. destruct s as [|c s]; simpl; [done|]. by destruct (is_space c). Qed.

Lemma TrimSpace_id s : all_bytes (fun c => negb (is_space c)) s = true -> TrimSpace s = s.
Proof.
  intros H. unfold TrimSpace. rewrite (trim_left_id s) by done.
  rewrite trim_left_id by (by rewrite all_bytes_rev). apply string_rev_involutive.
Qed.

(** ** Splitting at a byte *)

Lemma substring_all n s : (String.length s <= n)%nat -> String.substring 0 n s = s.
Proof.
  revert n. induction s as [|c s IH]; intros n H; [by destruct n|].
  destruct n as [|n]; simpl in *; [lia|]. by rewrite IH by lia.
Qed.

Lemma prefix_byte c d s : String.prefix (String c "") (String d s) = bool_decide (c = d).
Proof.
  cbn [String.prefix]. destruct (ascii_dec c d).
  - rewrite bool_decide_eq_true_2 by done. by destruct s.
  - by rewrite bool_decide_eq_false_2 by done.
Qed.

Lemma cut_byte_none c s :
  all_bytes (fun d => negb (d =?? c)) s = true -> cut (String c "") s = None.
Proof.
  induction s as [|d s IH]; [done|]. cbn [all_bytes cut]. rewrite prefix_byte, andb_true_iff.
  intros [Hd Hs]. btauto_hyps. rewrite bool_decide_eq_false_2 by done. by rewrite IH.
Qed.

Lemma cut_byte_app c s t :
  all_bytes (fun d => negb (d =?? c)) s = true ->
  cut (String c "") (s ++ String c t) = Some (s, t).
Proof.
  induction s as [|d s IH]; rewrite ?string_app_cons; cbn [all_bytes].
  - change ("" ++ String c t) with (String c t). cbn [cut]. rewrite prefix_byte. intros _. rewrite bool_decide_eq_true_2 by done. cbn [String.length String.substring].
    by rewrite substring_all by lia.
  - cbn [cut]. rewrite prefix_byte, andb_true_iff. intros [Hd Hs]. btauto_hyps.
    rewrite bool_decide_eq_false_2 by done. by rewrite IH.
Qed.

Lemma split_fuel_concat c l fuel :
  l <> [] -> (length l <= fuel)%nat ->
  (forall s, s ∈ l -> all_bytes (fun d => negb (d =?? c)) s = true) ->
  split_fuel fuel (String c "") (String.concat (String c "") l) = l.
Proof.
  revert fuel. induction l as [|s l IH]; intros fuel Hne Hf Hl; [done|].
  destruct fuel as [|fuel]; [simpl in Hf; lia|].
  destruct l as [|s' l].
  - cbn [String.concat split_fuel]. by rewrite cut_byte_none by (apply Hl; left).
  - change (String.concat (String c "") (s :: s' :: l))
      with (s ++ String c (String.concat (String c "") (s' :: l))).
    cbn [split_fuel]. rewrite cut_byte_app by (apply Hl; left).
    rewrite IH; [done|done|simpl in *; lia|]. intros x Hx. apply Hl. by right.
Qed.

Lemma string_length_app a b :
  String.length (a ++ b) = (String.length a + String.length b)%nat.
Proof.
  induction a as [|c a IH]; [done|]. rewrite string_app_cons. cbn [String.length]. by rewrite IH.
Qed.

Lemma length_concat_ge c l :
  (length l <= S (String.length (String.concat (String c "") l)))%nat.
Proof.
  induction l as [|s [|s' l] IH]; [simpl; lia|simpl; lia|].
  change (String.concat (String c "") (s :: s' :: l))
    with (s ++ String c (String.concat (String c "") (s' :: l))).
  rewrite string_length_app. cbn [String.length length] in *. lia.
Qed.

(** [strings.Split] undoes [strings.Join] when no part has the separator. *)
Lemma split_concat c l :
  l <> [] -> (forall s, s ∈ l -> all_bytes (fun d => negb (d =?? c)) s = true) ->
  split (String c "") (String.concat (String c "") l) = l.
Proof. intros Hne Hl. apply split_fuel_concat; [done|apply length_concat_ge|done]. Qed.
