(* ===== verification/TaskModel.v ===== *)
(** * Tasks: the persistence data model

    The task row and its enumerations ([src/internal/persistence/models.go]),
    the options records of the repository calls
    ([src/internal/persistence/interfaces_task.go]) and the repository's error
    values ([src/internal/persistence/interfaces.go]).  A Go string enumeration
    is an inductive type with the source's constructors and one [Other] for any
    other string; a Go pointer is an [option]. *)
From S2P Require Import Prelude.

(** ** Enumerations *)

Inductive TaskStatus : Type :=
| TaskStatusPending
| TaskStatusQueued
| TaskStatusLeased
| TaskStatusRunning
| TaskStatusWaitingForChildren
| TaskStatusCompleted
| TaskStatusFailed
| TaskStatusCancelled
| TaskStatusAwaitingInput
| TaskStatusAwaitingExternal
| TaskStatusPaused
| TaskStatusClosed
| TaskStatusAwaitingApproval
| TaskStatusOther (s : string).

#[export] Instance TaskStatus_eq_dec : EqDecision TaskStatus.
Proof. solve_decision. Defined.

(** The empty string, the zero value of [TaskStatus]. *)
Definition TaskStatusEmpty : TaskStatus := TaskStatusOther "".

Definition TaskStatus_string (s : TaskStatus) : string :=
  match s with
  | TaskStatusPending => "PENDING"
  | TaskStatusQueued => "QUEUED"
  | TaskStatusLeased => "LEASED"
  | TaskStatusRunning => "RUNNING"
  | TaskStatusWaitingForChildren => "WAITING_FOR_CHILDREN"
  | TaskStatusCompleted => "COMPLETED"
  | TaskStatusFailed => "FAILED"
  | TaskStatusCancelled => "CANCELLED"
  | TaskStatusAwaitingInput => "AWAITING_INPUT"
  | TaskStatusAwaitingExternal => "AWAITING_EXTERNAL"
  | TaskStatusPaused => "PAUSED"
  | TaskStatusClosed => "CLOSED"
  | TaskStatusAwaitingApproval => "AWAITING_APPROVAL"
  | TaskStatusOther s => s
  end.

(** Statuses are map keys in [CountByStatus]. *)
#[export] Instance TaskStatus_countable : Countable TaskStatus.
Proof.
  refine (inj_countable'
    (fun s => match s with
              | TaskStatusPending => inl 0%N | TaskStatusQueued => inl 1%N
              | TaskStatusLeased => inl 2%N | TaskStatusRunning => inl 3%N
              | TaskStatusWaitingForChildren => inl 4%N
              | TaskStatusCompleted => inl 5%N | TaskStatusFailed => inl 6%N
              | TaskStatusCancelled => inl 7%N | TaskStatusAwaitingInput => inl 8%N
              | TaskStatusAwaitingExternal => inl 9%N | TaskStatusPaused => inl 10%N
              | TaskStatusClosed => inl 11%N | TaskStatusAwaitingApproval => inl 12%N
              | TaskStatusOther s => inr s
              end)
    (fun x => match x with
              | inl 0%N => TaskStatusPending | inl 1%N => TaskStatusQueued
              | inl 2%N => TaskStatusLeased | inl 3%N => TaskStatusRunning
              | inl 4%N => TaskStatusWaitingForChildren
              | inl 5%N => TaskStatusCompleted | inl 6%N => TaskStatusFailed
              | inl 7%N => TaskStatusCancelled | inl 8%N => TaskStatusAwaitingInput
              | inl 9%N => TaskStatusAwaitingExternal | inl 10%N => TaskStatusPaused
              | inl 11%N => TaskStatusClosed | inl _ => TaskStatusAwaitingApproval
              | inr s => TaskStatusOther s
              end) _).
  by intros [].
Defined.

Inductive ExecutionStatus : Type :=
| ExecutionStatusPending
| ExecutionStatusRunning
| ExecutionStatusPaused
| ExecutionStatusCompleted
| ExecutionStatusFailed
| ExecutionStatusCancelled
| ExecutionStatusOther (s : string).

#[export] Instance ExecutionStatus_eq_dec : EqDecision ExecutionStatus.
Proof. solve_decision. Defined.

(** [ExecutionStatus.IsLive]. *)
Definition IsLive (s : ExecutionStatus) : bool :=
  match s with
  | ExecutionStatusPending | ExecutionStatusRunning | ExecutionStatusPaused => true
  | _ => false
  end.

Inductive TaskCreationSource : Type :=
| TaskCreationSourceUser
| TaskCreationSourceDelegation
| TaskCreationSourceAutonomous
| TaskCreationSourceCheckpoint
| TaskCreationSourceRoute
| TaskCreationSourceFork
| TaskCreationSourceA2A
| TaskCreationSourceCompanion
| TaskCreationSourceOther (s : string).

#[export] Instance TaskCreationSource_eq_dec : EqDecision TaskCreationSource.
Proof. solve_decision. Defined.

Inductive DelegationMode : Type :=
| DelegationModeSequential
| DelegationModeParallel
| DelegationModeFanOut
| DelegationModeOther (s : string).

#[export] Instance DelegationMode_eq_dec : EqDecision DelegationMode.
Proof. solve_decision. Defined.

(** ** The task *)

(** [persistence.Task]; a nil [Dependencies] slice is the empty list, and
    [Payload] and [ResultEnvelope] are raw bytes, [None] for a nil slice. *)
Record Task : Type := mkTask {
  ID : string;
  ProjectID : string;
  WorkflowID : option string;
  IdempotencyKey : option string;
  ParentTaskID : option string;
  CreationSource : TaskCreationSource;
  DelegationModeOf : option DelegationMode;
  Status : TaskStatus;
  Priority : Z;
  Payload : option string;
  Dependencies : list string;
  LeaseID : option string;
  LeasedAt : option time;
  LeasedBy : option string;
  LeaseExpiresAt : option time;
  Attempt : Z;
  MaxAttempts : Z;
  LastError : option string;
  LastErrorClass : option string;
  CreatedAt : time;
  UpdatedAt : time;
  BriefAmendedAt : option time;
  CurrentPhase : option string;
  ExpectedBy : option time;
  ClosedAt : option time;
  ClosedBy : option string;
  MessageCount : Z;
  OpenCheckpointID : option string;
  ChatTurnID : option string;
  CrossProjectCallID : option string;
  ResultEnvelope : option string
}.

#[export] Instance Task_eq_dec : EqDecision Task.
Proof. solve_decision. Defined.

(** A task with every field but its id at Go's zero value. *)
Definition zeroTask (id : string) : Task := {|
  ID := id; ProjectID := ""; WorkflowID := None; IdempotencyKey := None;
  ParentTaskID := None; CreationSource := TaskCreationSourceOther "";
  DelegationModeOf := None; Status := TaskStatusEmpty; Priority := 0;
  Payload := None; Dependencies := []; LeaseID := None; LeasedAt := None;
  LeasedBy := None; LeaseExpiresAt := None; Attempt := 0; MaxAttempts := 0;
  LastError := None; LastErrorClass := None; CreatedAt := zeroTime;
  UpdatedAt := zeroTime; BriefAmendedAt := None; CurrentPhase := None;
  ExpectedBy := None; ClosedAt := None; ClosedBy := None; MessageCount := 0;
  OpenCheckpointID := None; ChatTurnID := None; CrossProjectCallID := None;
  ResultEnvelope := None |}.

(** ** Call options *)

(** [persistence.TransitionOpts]: a nil pointer leaves the column alone. *)
Record TransitionOpts : Type := mkTransitionOpts {
  opt_ClosedBy : option string;
  opt_ExpectedBy : option time;
  opt_CurrentPhase : option string;
  opt_BriefAmendedAt : option time;
  opt_LastError : option string;
  opt_LastErrorClass : option string;
  opt_SetClosedAtNow : bool;
  opt_ClearLease : bool;
  opt_Attempt : Z;
  opt_MaxAttempts : Z
}.

Definition noTransitionOpts : TransitionOpts :=
  mkTransitionOpts None None None None None None false false 0 0.

(** [persistence.TaskFilter]. *)
Record TaskFilter : Type := mkTaskFilter {
  flt_ProjectID : option string;
  flt_Status : option TaskStatus;
  flt_UpdatedBefore : option time;
  flt_PageSize : Z;
  flt_Offset : Z
}.

(** [persistence.LeaseOptions].  The two Go maps are association lists in the
    order in which one [range] over the map happens to visit them; a map has
    no duplicate keys, and the theorems that need it say so. *)
Record LeaseOptions : Type := mkLeaseOptions {
  lo_ProjectID : string;
  lo_LeaseHolder : string;
  lo_LeaseDurationSeconds : Z;
  lo_PriorityFloor : Z;
  lo_ProjectConcurrencyLimits : list (string * Z);
  lo_ProjectPriorities : list (string * Z);
  lo_ProjectPriorityDefault : Z;
  lo_ExcludedProjects : list string
}.

(** [persistence.ReleaseOptions]; the zero value of a field means "absent". *)
Record ReleaseOptions : Type := mkReleaseOptions {
  ro_Attempt : Z;
  ro_MaxAttempts : Z;
  ro_Error : string;
  ro_ErrorClass : string
}.

(** ** Errors *)

(** The [RepositoryError] sentinels, the argument checks the repositories make
    themselves, and the driver's errors that pass through unmapped, which carry
    their SQLSTATE. *)
Inductive RepoError : Type :=
| ErrNotFound
| ErrDuplicateKey
| ErrNoTasksAvailable
| ErrLeaseNotFound
| ErrTaskIsNil
| ErrArgument (what : string)
| ErrRandUnavailable
| ErrSQL (code : string).

#[export] Instance RepoError_eq_dec : EqDecision RepoError.
Proof. solve_decision. Defined.

(** ** Failure classes *)

(** The [TaskFailureClass*] string constants. *)
Definition TaskFailureClassLLMError := "LLM_ERROR"%string.
Definition TaskFailureClassTimeout := "TIMEOUT"%string.
Definition TaskFailureClassToolError := "TOOL_ERROR"%string.
Definition TaskFailureClassInvalidOutput := "INVALID_OUTPUT"%string.
Definition TaskFailureClassMergeFailed := "MERGE_FAILED"%string.
Definition TaskFailureClassGateFailed := "GATE_FAILED"%string.
Definition TaskFailureClassBudgetBlocked := "BUDGET_BLOCKED"%string.
Definition TaskFailureClassRateLimited := "RATE_LIMITED"%string.
Definition TaskFailureClassWorkflowRole := "WORKFLOW_ROLE_MISSING"%string.
Definition TaskFailureClassWorkflowCfg := "WORKFLOW_CONFIG_ERROR"%string.
Definition TaskFailureClassOrphaned := "ORPHANED"%string.
Definition TaskFailureClassCancelled := "CANCELLED"%string.
Definition TaskFailureClassRuntimeError := "RUNTIME_ERROR"%string.
Definition TaskFailureClassUnknown := "UNKNOWN"%string.
Definition TaskFailureClassLeaseExpired := "LEASE_EXPIRED"%string.
Definition TaskFailureClassWorkflowDrift := "WORKFLOW_DRIFT"%string.
Definition TaskFailureClassStuckExecution := "STUCK_EXECUTION"%string.
Definition TaskFailureClassToolIterationLimit := "TOOL_ITERATION_LIMIT"%string.
Definition TaskFailureClassSecretLeak := "SECRET_LEAK"%string.
Definition TaskFailureClassChildFailed := "CHILD_FAILED"%string.
Definition TaskFailureClassInvalidOutputLoop := "INVALID_OUTPUT_LOOP"%string.
Definition TaskFailureClassHallucinatedPlacement := "HALLUCINATED_PLACEMENT"%string.
Definition TaskFailureClassDelegationGuard := "DELEGATION_GUARD"%string.
