(* ===== verification/StateMachine.v ===== *)
(** * The task state machine

    [src/internal/scheduler/state_machine.go]: the status classes and
    [ValidateTransition], the pure verdict every caller asks for before it
    writes a task's status.  The declarative relation [Permitted] is the
    transition diagram of the file's comments; the traces of accepted
    transitions are the runs of a step relation. *)
From S2P Require Import Prelude TaskModel.

Inductive TransitionTrigger : Type :=
| TriggerEnqueue
| TriggerLease
| TriggerStart
| TriggerExecutionDone
| TriggerExecutionFailed
| TriggerCheckpointEmit
| TriggerExternalWait
| TriggerLeaseExpired
| TriggerWaitChildren
| TriggerChildrenDone
| TriggerOperatorAnswer
| TriggerOperatorDirective
| TriggerOperatorAmend
| TriggerOperatorPause
| TriggerOperatorResume
| TriggerOperatorCancel
| TriggerOperatorClose
| TriggerOperatorApprove
| TriggerOperatorReject
| TriggerExternalEvent
| TriggerExternalDeadline
| TriggerOther (s : string).

#[export] Instance TransitionTrigger_eq_dec : EqDecision TransitionTrigger.
Proof. solve_decision. Defined.

(** ** Status classes *)

Definition IsTerminalTaskStatus (status : TaskStatus) : bool :=
  match status with
  | TaskStatusFailed | TaskStatusCancelled | TaskStatusClosed => true
  | _ => false
  end.

Definition IsActiveTaskStatus (status : TaskStatus) : bool :=
  match status with
  | TaskStatusPending | TaskStatusQueued | TaskStatusLeased
  | TaskStatusRunning | TaskStatusWaitingForChildren => true
  | _ => false
  end.

Definition IsAwaitingInput (status : TaskStatus) : bool :=
  (status =?? TaskStatusAwaitingInput) ||
  (status =?? TaskStatusAwaitingExternal) ||
  (status =?? TaskStatusAwaitingApproval).

(** ** The validator *)

(** The four error values [ValidateTransition] formats. *)
Inductive TransitionError : Type :=
| ErrSelfLoop (from to : TaskStatus) (trigger : TransitionTrigger)
| ErrTerminal (from to : TaskStatus)
| ErrTrigger (trigger : TransitionTrigger) (from to : TaskStatus) (why : string)
| ErrUnknownTrigger (trigger : TransitionTrigger).

Definition triggerErr (trigger : TransitionTrigger) (from to : TaskStatus)
    (why : string) : result TransitionError unit :=
  Err (ErrTrigger trigger from to why).

Definition ValidateTransition (from to : TaskStatus)
    (trigger : TransitionTrigger) : result TransitionError unit :=
  if from =?? to then
    match trigger with
    | TriggerOperatorPause | TriggerOperatorResume
    | TriggerOperatorClose | TriggerOperatorCancel => Ok ()
    | _ => Err (ErrSelfLoop from to trigger)
    end
  else if IsTerminalTaskStatus from &&
          negb ((trigger =?? TriggerOperatorClose) &&
                (from =?? TaskStatusFailed) && (to =?? TaskStatusClosed))
  then Err (ErrTerminal from to)
  else
    match trigger with
    | TriggerEnqueue =>
        if negb (to =?? TaskStatusQueued)
        then triggerErr trigger from to "expected → QUEUED"
        else match from with
             | TaskStatusPending | TaskStatusAwaitingInput
             | TaskStatusAwaitingExternal | TaskStatusPaused
             | TaskStatusCompleted | TaskStatusLeased | TaskStatusRunning => Ok ()
             | _ => triggerErr trigger from to "origin not enqueueable"
             end
    | TriggerLease =>
        if negb (from =?? TaskStatusQueued) || negb (to =?? TaskStatusLeased)
        then triggerErr trigger from to "expected QUEUED → LEASED" else Ok ()
    | TriggerStart =>
        if negb (from =?? TaskStatusLeased) || negb (to =?? TaskStatusRunning)
        then triggerErr trigger from to "expected LEASED → RUNNING" else Ok ()
    | TriggerExecutionDone =>
        if negb (from =?? TaskStatusRunning) || negb (to =?? TaskStatusCompleted)
        then triggerErr trigger from to "expected RUNNING → COMPLETED" else Ok ()
    | TriggerExecutionFailed =>
        if negb (from =?? TaskStatusRunning) || negb (to =?? TaskStatusFailed)
        then triggerErr trigger from to "expected RUNNING → FAILED" else Ok ()
    | TriggerCheckpointEmit =>
        if negb (from =?? TaskStatusRunning) || negb (to =?? TaskStatusAwaitingInput)
        then triggerErr trigger from to "expected RUNNING → AWAITING_INPUT" else Ok ()
    | TriggerExternalWait =>
        if negb (from =?? TaskStatusRunning) || negb (to =?? TaskStatusAwaitingExternal)
        then triggerErr trigger from to "expected RUNNING → AWAITING_EXTERNAL" else Ok ()
    | TriggerLeaseExpired =>
        if negb (to =?? TaskStatusQueued)
        then triggerErr trigger from to "expected → QUEUED"
        else if negb (from =?? TaskStatusLeased) && negb (from =?? TaskStatusRunning)
        then triggerErr trigger from to "lease can expire only from LEASED/RUNNING"
        else Ok ()
    | TriggerWaitChildren =>
        if negb (from =?? TaskStatusRunning) || negb (to =?? TaskStatusWaitingForChildren)
        then triggerErr trigger from to "expected RUNNING → WAITING_FOR_CHILDREN" else Ok ()
    | TriggerChildrenDone =>
        if negb (from =?? TaskStatusWaitingForChildren)
        then triggerErr trigger from to "expected from WAITING_FOR_CHILDREN"
        else if negb (to =?? TaskStatusCompleted) && negb (to =?? TaskStatusFailed)
        then triggerErr trigger from to "must land COMPLETED or FAILED"
        else Ok ()
    | TriggerOperatorAnswer =>
        if negb (from =?? TaskStatusAwaitingInput) || negb (to =?? TaskStatusQueued)
        then triggerErr trigger from to "expected AWAITING_INPUT → QUEUED" else Ok ()
    | TriggerOperatorDirective | TriggerOperatorAmend =>
        if negb (to =?? TaskStatusQueued)
        then triggerErr trigger from to "expected → QUEUED"
        else if IsTerminalTaskStatus from
        then triggerErr trigger from to "task is terminal"
        else if (from =?? TaskStatusRunning) || (from =?? TaskStatusLeased)
        then triggerErr trigger from to
               "directive during running execution must queue, not transition"
        else Ok ()
    | TriggerOperatorPause =>
        if negb (to =?? TaskStatusPaused)
        then triggerErr trigger from to "expected → PAUSED"
        else if negb (IsActiveTaskStatus from) && negb (IsAwaitingInput from)
        then triggerErr trigger from to "can only pause an active or awaiting task"
        else Ok ()
    | TriggerOperatorResume =>
        if negb (from =?? TaskStatusPaused) || negb (to =?? TaskStatusQueued)
        then triggerErr trigger from to "expected PAUSED → QUEUED" else Ok ()
    | TriggerOperatorCancel =>
        if negb (to =?? TaskStatusCancelled)
        then triggerErr trigger from to "expected → CANCELLED"
        else if IsTerminalTaskStatus from
        then triggerErr trigger from to "task already terminal"
        else Ok ()
    | TriggerOperatorClose =>
        if negb (to =?? TaskStatusClosed)
        then triggerErr trigger from to "expected → CLOSED"
        else match from with
             | TaskStatusCompleted | TaskStatusAwaitingInput
             | TaskStatusAwaitingExternal | TaskStatusFailed => Ok ()
             | _ => triggerErr trigger from to
                      "task must be COMPLETED, FAILED, or AWAITING_* to close"
             end
    | TriggerOperatorApprove =>
        if negb (from =?? TaskStatusAwaitingApproval) || negb (to =?? TaskStatusQueued)
        then triggerErr trigger from to "expected AWAITING_APPROVAL → QUEUED" else Ok ()
    | TriggerOperatorReject =>
        if negb (from =?? TaskStatusAwaitingApproval) || negb (to =?? TaskStatusCancelled)
        then triggerErr trigger from to "expected AWAITING_APPROVAL → CANCELLED" else Ok ()
    | TriggerExternalEvent | TriggerExternalDeadline =>
        if negb (from =?? TaskStatusAwaitingExternal) || negb (to =?? TaskStatusQueued)
        then triggerErr trigger from to "expected AWAITING_EXTERNAL → QUEUED" else Ok ()
    | TriggerOther _ => Err (ErrUnknownTrigger trigger)
    end.

(** ** The transition diagram, declaratively *)

(** The triggers the scheduler and executor fire, the ones a human fires, and
    the external signals. *)
Definition daemon_trigger (t : TransitionTrigger) : Prop :=
  t ∈ [TriggerEnqueue; TriggerLease; TriggerStart; TriggerExecutionDone;
       TriggerExecutionFailed; TriggerCheckpointEmit; TriggerExternalWait;
       TriggerLeaseExpired; TriggerWaitChildren; TriggerChildrenDone].

Definition external_trigger (t : TransitionTrigger) : Prop :=
  t ∈ [TriggerExternalEvent; TriggerExternalDeadline].

Definition operator_trigger (t : TransitionTrigger) : Prop :=
  t ∈ [TriggerOperatorAnswer; TriggerOperatorDirective; TriggerOperatorAmend;
       TriggerOperatorPause; TriggerOperatorResume; TriggerOperatorCancel;
       TriggerOperatorClose; TriggerOperatorApprove; TriggerOperatorReject].

(** Triggers with exactly one edge. *)
Definition single_edge (t : TransitionTrigger) : option (TaskStatus * TaskStatus) :=
  match t with
  | TriggerLease => Some (TaskStatusQueued, TaskStatusLeased)
  | TriggerStart => Some (TaskStatusLeased, TaskStatusRunning)
  | TriggerExecutionDone => Some (TaskStatusRunning, TaskStatusCompleted)
  | TriggerExecutionFailed => Some (TaskStatusRunning, TaskStatusFailed)
  | TriggerCheckpointEmit => Some (TaskStatusRunning, TaskStatusAwaitingInput)
  | TriggerExternalWait => Some (TaskStatusRunning, TaskStatusAwaitingExternal)
  | TriggerWaitChildren => Some (TaskStatusRunning, TaskStatusWaitingForChildren)
  | TriggerOperatorAnswer => Some (TaskStatusAwaitingInput, TaskStatusQueued)
  | TriggerOperatorResume => Some (TaskStatusPaused, TaskStatusQueued)
  | TriggerOperatorApprove => Some (TaskStatusAwaitingApproval, TaskStatusQueued)
  | TriggerOperatorReject => Some (TaskStatusAwaitingApproval, TaskStatusCancelled)
  | TriggerExternalEvent | TriggerExternalDeadline =>
      Some (TaskStatusAwaitingExternal, TaskStatusQueued)
  | _ => None
  end.

(** [Permitted s t s']: the diagram has an edge from [s] to [s'] labelled [t]. *)
Inductive Permitted : TaskStatus -> TransitionTrigger -> TaskStatus -> Prop :=
| perm_noop s t :
    t ∈ [TriggerOperatorPause; TriggerOperatorResume;
         TriggerOperatorClose; TriggerOperatorCancel] ->
    Permitted s t s
| perm_single s t s' :
    single_edge t = Some (s, s') -> Permitted s t s'
| perm_enqueue s :
    s ∈ [TaskStatusPending; TaskStatusAwaitingInput; TaskStatusAwaitingExternal;
         TaskStatusPaused; TaskStatusCompleted; TaskStatusLeased; TaskStatusRunning] ->
    Permitted s TriggerEnqueue TaskStatusQueued
| perm_lease_expired s :
    s ∈ [TaskStatusLeased; TaskStatusRunning] ->
    Permitted s TriggerLeaseExpired TaskStatusQueued
| perm_children_done s' :
    s' ∈ [TaskStatusCompleted; TaskStatusFailed] ->
    Permitted TaskStatusWaitingForChildren TriggerChildrenDone s'
| perm_rebrief s t :
    t ∈ [TriggerOperatorDirective; TriggerOperatorAmend] ->
    s ∉ [TaskStatusQueued; TaskStatusLeased; TaskStatusRunning; TaskStatusFailed;
         TaskStatusCancelled; TaskStatusClosed] ->
    Permitted s t TaskStatusQueued
| perm_pause s :
    s ∈ [TaskStatusPending; TaskStatusQueued; TaskStatusLeased; TaskStatusRunning;
         TaskStatusWaitingForChildren; TaskStatusAwaitingInput;
         TaskStatusAwaitingExternal; TaskStatusAwaitingApproval] ->
    Permitted s TriggerOperatorPause TaskStatusPaused
| perm_cancel s :
    s ∉ [TaskStatusFailed; TaskStatusCancelled; TaskStatusClosed] ->
    Permitted s TriggerOperatorCancel TaskStatusCancelled
| perm_close s :
    s ∈ [TaskStatusCompleted; TaskStatusAwaitingInput; TaskStatusAwaitingExternal;
         TaskStatusFailed] ->
    Permitted s TriggerOperatorClose TaskStatusClosed.

(** A run: the accepted transitions of one task, oldest first. *)
Inductive run (s : TaskStatus) :
    list (TransitionTrigger * TaskStatus) -> TaskStatus -> Prop :=
| run_nil : run s [] s
| run_snoc tr s1 t s2 :
    run s tr s1 -> ValidateTransition s1 s2 t = Ok () ->
    run s (tr ++ [(t, s2)]) s2.

(** ** Lemmas *)

Lemma terminal_iff s :
  IsTerminalTaskStatus s = true <->
  s ∈ [TaskStatusFailed; TaskStatusCancelled; TaskStatusClosed].
Proof. rewrite !elem_of_cons, elem_of_nil. destruct s; naive_solver. Qed.

Lemma pausable_iff s :
  IsActiveTaskStatus s = true \/ IsAwaitingInput s = true <->
  s ∈ [TaskStatusPending; TaskStatusQueued; TaskStatusLeased; TaskStatusRunning;
       TaskStatusWaitingForChildren; TaskStatusAwaitingInput;
       TaskStatusAwaitingExternal; TaskStatusAwaitingApproval].
Proof. rewrite !elem_of_cons, elem_of_nil. destruct s; naive_solver. Qed.

(** The verdict on a self-loop, and on a proper edge: everything below is
    decided by these two equations. *)
Lemma ValidateTransition_self s t :
  ValidateTransition s s t = Ok () <->
  t ∈ [TriggerOperatorPause; TriggerOperatorResume;
       TriggerOperatorClose; TriggerOperatorCancel].
Proof.
  unfold ValidateTransition. rewrite bool_decide_true by done.
  rewrite !elem_of_cons, elem_of_nil. destruct t; naive_solver.
Qed.

(** Membership in a literal list, by evaluation. *)
Ltac in_list := apply (bool_decide_unpack _); vm_compute; exact I.

(** A membership hypothesis on a literal list, as a disjunction of equations. *)
Ltac unlist H := rewrite !elem_of_cons, elem_of_nil in H; destruct_or! H.

(** The converse: a hypothesis [x ∈ l] that evaluates to false. *)
Ltac not_in :=
  repeat match goal with
  | H : _ \/ _ |- _ => destruct H
  end;
  exfalso;
  match goal with
  | H : ?x ∈ ?l |- _ =>
      refine (bool_decide_eq_false_1 (x ∈ l) _ H); vm_compute; reflexivity
  end.

Ltac status_tests :=
  repeat match goal with
  | H : context [bool_decide (?a = ?b)] |- _ =>
      destruct (bool_decide_reflect (a = b)); simplify_eq/=
  end.

Lemma ValidateTransition_sound s s' t :
  s <> s' -> ValidateTransition s s' t = Ok () -> Permitted s t s'.
Proof.
  intros Hne H. unfold ValidateTransition in H.
  rewrite bool_decide_false in H by done.
  destruct t; simpl in H; repeat case_bool_decide; simpl in H; subst;
    try discriminate H;
    try (is_var s; destruct s; try discriminate H; try done);
    first [ by apply perm_single
          | by apply perm_enqueue; in_list
          | by apply perm_lease_expired; in_list
          | by apply perm_children_done; in_list
          | by apply perm_rebrief; in_list
          | by apply perm_pause; in_list
          | by apply perm_cancel; in_list
          | by apply perm_close; in_list ].
Qed.

Lemma ValidateTransition_complete s s' t :
  Permitted s t s' -> ValidateTransition s s' t = Ok ().
Proof.
  destruct 1 as [s t Ht|s t s' He|s Hs|s Hs|s' Hs|s t Ht Hs|s Hs|s Hs|s Hs].
  - by apply ValidateTransition_self.
  - by destruct t; simplify_eq/=.
  - by unlist Hs; subst.
  - by unlist Hs; subst.
  - by unlist Hs; subst.
  - by unlist Ht; subst; destruct s; try (exfalso; apply Hs; in_list).
  - by unlist Hs; subst.
  - by destruct s; try (exfalso; apply Hs; in_list).
  - by unlist Hs; subst.
Qed.

Lemma ValidateTransition_Permitted s s' t :
  ValidateTransition s s' t = Ok () <-> Permitted s t s'.
Proof.
  split; [|apply ValidateTransition_complete]. intros H.
  destruct (decide (s = s')) as [->|Hne]; [|by apply ValidateTransition_sound].
  by eapply perm_noop, ValidateTransition_self.
Qed.

(** Edges out of a set of statuses that is closed under some triggers: the
    runs that use only those triggers stay inside. *)
Lemma run_closed (P : TransitionTrigger -> Prop) (S : TaskStatus -> Prop) :
  (forall s t s', S s -> P t -> Permitted s t s' -> S s') ->
  forall s tr s', S s -> Forall (fun e => P (fst e)) tr -> run s tr s' -> S s'.
Proof.
  intros Hstep s tr s' Hs HP Hrun. induction Hrun as [|tr s1 t s2 Hr IH Hv]; [done|].
  apply Forall_app in HP as [HP Ht]. rewrite Forall_singleton in Ht.
  eapply Hstep; [by apply IH | exact Ht | by apply ValidateTransition_Permitted].
Qed.

Lemma run_app s tr s1 tr' s2 : run s tr s1 -> run s1 tr' s2 -> run s (tr ++ tr') s2.
Proof.
  intros H1 H2. induction H2 as [|tr' s2 t s3 H2 IH Hv]; [by rewrite app_nil_r|].
  rewrite app_assoc. by eapply run_snoc.
Qed.

Lemma run_cons s t s1 tr s2 :
  ValidateTransition s s1 t = Ok () -> run s1 tr s2 -> run s ((t, s1) :: tr) s2.
Proof.
  intros H1 H2. change ((t, s1) :: tr) with ([(t, s1)] ++ tr).
  eapply run_app; [|exact H2]. exact (run_snoc s [] s t s1 (run_nil s) H1).
Qed.

(** Where a permitted edge can end. *)
Lemma Permitted_into s t s' :
  Permitted s t s' -> s <> s' ->
  (daemon_trigger t \/ external_trigger t ->
     s' ∈ [TaskStatusQueued; TaskStatusLeased; TaskStatusRunning;
           TaskStatusWaitingForChildren; TaskStatusCompleted; TaskStatusFailed;
           TaskStatusAwaitingInput; TaskStatusAwaitingExternal]) /\
  (operator_trigger t ->
     s' ∈ [TaskStatusQueued; TaskStatusPaused; TaskStatusCancelled; TaskStatusClosed]).
Proof.
  unfold daemon_trigger, external_trigger, operator_trigger.
  intros Hp Hne.
  destruct Hp as [s t Ht|s t s' He|s Hs|s Hs|s' Hs|s t Ht Hs|s Hs|s Hs|s Hs];
    try solve [split; intros Ht'; first [in_list | not_in]].
  - done.
  - destruct t; simplify_eq/=; split; intros Ht; first [in_list | not_in].
  - unlist Hs; subst; split; intros Ht; first [in_list | not_in].
Qed.

(** LEASED and RUNNING have one way in each. *)
Lemma Permitted_LEASED s t :
  Permitted s t TaskStatusLeased -> s <> TaskStatusLeased ->
  t = TriggerLease /\ s = TaskStatusQueued.
Proof.
  inversion 1; subst; intros Hne; try done.
  - by destruct t; simplify_eq/=.
  - by not_in.
Qed.

Lemma Permitted_RUNNING s t :
  Permitted s t TaskStatusRunning -> s <> TaskStatusRunning ->
  t = TriggerStart /\ s = TaskStatusLeased.
Proof.
  inversion 1; subst; intros Hne; try done.
  - by destruct t; simplify_eq/=.
  - by not_in.
Qed.

Lemma run_into_LEASED s tr :
  run s tr TaskStatusLeased -> s <> TaskStatusLeased ->
  exists tr1 tr2, tr = tr1 ++ (TriggerLease, TaskStatusLeased) :: tr2 /\
    run s tr1 TaskStatusQueued.
Proof.
  intros Hrun Hne. remember TaskStatusLeased as l eqn:El.
  induction Hrun as [|tr s1 t s2 Hr IH Hv]; [done|]. subst s2.
  destruct (decide (s1 = TaskStatusLeased)) as [->|Hs1].
  - destruct (IH eq_refl Hne) as (tr1 & tr2 & -> & Hq).
    exists tr1, (tr2 ++ [(t, TaskStatusLeased)]). by rewrite <- app_assoc.
  - apply ValidateTransition_Permitted, Permitted_LEASED in Hv as [-> ->]; [|done].
    by exists tr, [].
Qed.

(** The tactic for concrete runs: evaluate the validator at every step. *)
Ltac run_by_eval := repeat (eapply run_cons; [reflexivity|]); apply run_nil.

(** The three equivalences about an error value, once it is known. *)
Ltac solve_verdict :=
  split_and!; split; intros; destruct_and?;
  repeat match goal with H : exists _, _ |- _ => destruct H end;
  try discriminate; try congruence; eauto.

(** ** Properties *)

(** C35: [ValidateTransition] accepts exactly the edges of the transition
    diagram, and a rejection says why: a self-loop is reported as a self-loop,
    an edge out of FAILED, CANCELLED or CLOSED as "terminal", an unknown
    trigger as unknown, and every other rejection names the trigger. *)
Theorem ValidateTransition_spec from to trigger :
  match ValidateTransition from to trigger with
  | Ok _ => Permitted from trigger to
  | Err e =>
      ~ Permitted from trigger to /\
      (e = ErrSelfLoop from to trigger <-> from = to) /\
      (e = ErrTerminal from to <-> from <> to /\ IsTerminalTaskStatus from = true) /\
      (e = ErrUnknownTrigger trigger <->
         from <> to /\ IsTerminalTaskStatus from = false /\
         exists name, trigger = TriggerOther name)
  end.
Proof.
  destruct (ValidateTransition from to trigger) as [[]|e] eqn:E.
  { by apply ValidateTransition_Permitted. }
  split; [intros H%ValidateTransition_Permitted; congruence|].
  unfold ValidateTransition, triggerErr in E.
  case_bool_decide as Hft.
  { subst. destruct trigger; simplify_eq; solve_verdict. }
  destruct (IsTerminalTaskStatus from) eqn:Ht; simpl in E.
  - destruct (_ && _) eqn:Hclose in E; simpl in E.
    { btauto_hyps. subst. done. }
    injection E as <-. solve_verdict.
  - destruct trigger; simpl in E; repeat case_bool_decide; simpl in E;
      try discriminate E; try (destruct from; discriminate E);
      repeat match type of E with
      | match from with _ => _ end = _ => destruct from; try discriminate E
      | (if ?b then _ else _) = _ => destruct b; try discriminate E
      end; injection E as <-; solve_verdict.
Qed.

(** CANCELLED and CLOSED are absorbing over every run of accepted
    transitions, and the only way out of FAILED is the operator's close. *)
Theorem terminal_statuses_absorbing s tr s' :
  run s tr s' ->
  (s = TaskStatusCancelled \/ s = TaskStatusClosed -> s' = s) /\
  (s = TaskStatusFailed -> s' = TaskStatusFailed \/ s' = TaskStatusClosed).
Proof.
  intros Hrun. assert (Htrue : Forall (fun _ => True) tr) by by apply Forall_true.
  split.
  - intros Hs. refine (run_closed (fun _ => True) (fun x => x = s) _ s tr s' eq_refl Htrue Hrun).
    intros x t y -> _ Hp. destruct Hs as [-> | ->]; inversion Hp; subst; try done;
      try not_in; try (by destruct t); exfalso; naive_solver in_list.
  - intros ->.
    refine (run_closed (fun _ => True)
              (fun x => x = TaskStatusFailed \/ x = TaskStatusClosed) _ _ tr s'
              (or_introl eq_refl) Htrue Hrun).
    intros x t y [-> | ->] _ Hp; inversion Hp; subst; auto;
      try not_in; try (by destruct t); exfalso; naive_solver in_list.
Qed.

Example terminal_statuses_absorbing_witness :
  TaskStatusClosed = TaskStatusFailed \/ TaskStatusClosed = TaskStatusClosed.
Proof.
  apply (terminal_statuses_absorbing TaskStatusFailed
           [(TriggerOperatorClose, TaskStatusClosed);
            (TriggerOperatorCancel, TaskStatusClosed)] TaskStatusClosed);
    [run_by_eval | reflexivity].
Defined.

(** The manual-approval gate.  However many daemon and external triggers
    are accepted, a task in AWAITING_APPROVAL stays there: it takes an
    operator's trigger to let it run. *)
Theorem approval_needs_operator tr s' :
  run TaskStatusAwaitingApproval tr s' ->
  Forall (fun e => daemon_trigger (fst e) \/ external_trigger (fst e)) tr ->
  s' = TaskStatusAwaitingApproval.
Proof.
  intros Hrun Htr.
  refine (run_closed (fun t => daemon_trigger t \/ external_trigger t)
            (fun x => x = TaskStatusAwaitingApproval) _ _ tr s' eq_refl Htr Hrun).
  unfold daemon_trigger, external_trigger. intros s t s2 -> Ht Hp.
  inversion Hp; subst; try done; try not_in; destruct t; simplify_eq/=; not_in.
Qed.

Example approval_needs_operator_witness :
  TaskStatusAwaitingApproval = TaskStatusAwaitingApproval.
Proof. apply (approval_needs_operator []); [apply run_nil | apply Forall_nil_2]. Defined.

(** A task gets to RUNNING only through a lease.  Every run that ends in
    RUNNING, from any status but LEASED and RUNNING, first visits QUEUED, then
    takes the lease edge, and later the start edge. *)
Theorem running_goes_through_lease s tr :
  run s tr TaskStatusRunning ->
  s <> TaskStatusLeased -> s <> TaskStatusRunning ->
  exists tr1 tr2 tr3,
    tr = tr1 ++ (TriggerLease, TaskStatusLeased) ::
         tr2 ++ (TriggerStart, TaskStatusRunning) :: tr3 /\
    run s tr1 TaskStatusQueued.
Proof.
  intros Hrun Hl Hr. remember TaskStatusRunning as r eqn:Er.
  induction Hrun as [|tr s1 t s2 Hrun IH Hv]; [done|]. subst s2.
  destruct (decide (s1 = TaskStatusRunning)) as [->|Hs1].
  - destruct (IH eq_refl Hr) as (tr1 & tr2 & tr3 & -> & Hq).
    exists tr1, tr2, (tr3 ++ [(t, TaskStatusRunning)]).
    split; [|done]. by rewrite <- !app_assoc, <- !app_comm_cons, <- app_assoc.
  - apply ValidateTransition_Permitted, Permitted_RUNNING in Hv as [-> ->]; [|done].
    destruct (run_into_LEASED _ _ Hrun Hl) as (tr1 & tr2 & -> & Hq).
    exists tr1, tr2, []. split; [|done].
    by rewrite <- app_assoc, <- app_comm_cons.
Qed.

Example running_goes_through_lease_witness :
  let tr := [(TriggerOperatorApprove, TaskStatusQueued);
             (TriggerLease, TaskStatusLeased); (TriggerStart, TaskStatusRunning)] in
  exists tr1 tr2 tr3,
    tr = tr1 ++ (TriggerLease, TaskStatusLeased) ::
         tr2 ++ (TriggerStart, TaskStatusRunning) :: tr3 /\
    run TaskStatusAwaitingApproval tr1 TaskStatusQueued.
Proof. apply running_goes_through_lease; [run_by_eval | discriminate | discriminate]. Defined.

(** Who may put a task where.  A transition that changes the status lands,
    under a daemon or external trigger, never in PAUSED, CLOSED, CANCELLED,
    PENDING or AWAITING_APPROVAL; under an operator trigger, only in QUEUED,
    PAUSED, CANCELLED or CLOSED, never in a status only the daemon may set. *)
Theorem trigger_destinations from to trigger :
  ValidateTransition from to trigger = Ok () -> from <> to ->
  (daemon_trigger trigger \/ external_trigger trigger ->
     to ∈ [TaskStatusQueued; TaskStatusLeased; TaskStatusRunning;
           TaskStatusWaitingForChildren; TaskStatusCompleted; TaskStatusFailed;
           TaskStatusAwaitingInput; TaskStatusAwaitingExternal]) /\
  (operator_trigger trigger ->
     to ∈ [TaskStatusQueued; TaskStatusPaused; TaskStatusCancelled; TaskStatusClosed]).
Proof. intros H. by apply Permitted_into, ValidateTransition_Permitted. Qed.

Example trigger_destinations_witness :
  TaskStatusCancelled ∈
    [TaskStatusQueued; TaskStatusPaused; TaskStatusCancelled; TaskStatusClosed].
Proof.
  apply (trigger_destinations TaskStatusAwaitingApproval TaskStatusCancelled
           TriggerOperatorReject); [reflexivity | discriminate | in_list].
Defined.

(** No dead ends.  From every status the program names that is not FAILED,
    CANCELLED or CLOSED, some run of accepted transitions completes the task
    and some run closes it; a FAILED task can still be closed. *)
Theorem no_dead_ends s :
  (forall name, s <> TaskStatusOther name) ->
  (IsTerminalTaskStatus s = false -> exists tr, run s tr TaskStatusCompleted) /\
  (s <> TaskStatusCancelled -> exists tr, run s tr TaskStatusClosed).
Proof.
  intros Hs.
  assert (Hq : forall tr, run s tr TaskStatusQueued ->
    (exists tr, run s tr TaskStatusCompleted) /\ exists tr, run s tr TaskStatusClosed).
  { intros tr Htr. split; eexists; (eapply run_app; [exact Htr|]).
    - apply (run_cons _ TriggerLease TaskStatusLeased); [done|].
      apply (run_cons _ TriggerStart TaskStatusRunning); [done|].
      apply (run_cons _ TriggerExecutionDone TaskStatusCompleted); [done|]. apply run_nil.
    - apply (run_cons _ TriggerLease TaskStatusLeased); [done|].
      apply (run_cons _ TriggerStart TaskStatusRunning); [done|].
      apply (run_cons _ TriggerExecutionDone TaskStatusCompleted); [done|].
      apply (run_cons _ TriggerOperatorClose TaskStatusClosed); [done|]. apply run_nil. }
  assert (H1 : forall t, ValidateTransition s TaskStatusQueued t = Ok () ->
    (exists tr, run s tr TaskStatusCompleted) /\ exists tr, run s tr TaskStatusClosed).
  { intros t Ht. apply (Hq [(t, TaskStatusQueued)]), run_cons; [done|apply run_nil]. }
  destruct s; try (exfalso; by eapply Hs); split; intros Hns; try done;
    try first
      [ by apply (H1 TriggerEnqueue) | by apply (Hq [] (run_nil _))
      | by apply (H1 TriggerOperatorApprove) | by apply (H1 TriggerOperatorDirective) ];
    exists [(TriggerOperatorClose, TaskStatusClosed)]; run_by_eval.
Qed.

Example no_dead_ends_witness : exists tr, run TaskStatusPaused tr TaskStatusClosed.
Proof. apply no_dead_ends; [intros name; discriminate | discriminate]. Defined.
