(* ===== verification/TaskRepo.v ===== *)
(** * The task repository (PostgreSQL)

    [src/internal/persistence/postgres/task_repository.go]: every method, as a
    function from the table and the call's arguments to the Go result and the
    new table.  The table is the list of the rows in their physical order;
    [UPDATE ... WHERE] rewrites the matching rows, [ORDER BY] sorts, and the
    constraints of the schema ([src/internal/persistence/migrations.go]) are
    checked the way the server checks them.  What the server itself computes is
    a parameter: the timestamp rounding and the JSON parser of [Postgres]; the
    value of [NOW()], the fresh lease id and the set of rows that other
    transactions have locked are arguments of the calls that use them. *)
From S2P Require Import Prelude TaskModel.

(** The two server functions the stored values go through: [jsonb_in] parses
    and normalises a JSONB literal ([None]: invalid input), [ts_in] rounds a
    timestamp to the precision of the column. *)
Class Postgres : Type := {
  jsonb_in : string -> option string;
  ts_in : time -> time
}.

(** Round trips need that storing a stored value again changes nothing. *)
Class PostgresStable `(pg : Postgres) : Prop := {
  jsonb_in_stable s v : jsonb_in s = Some v -> jsonb_in v = Some v;
  ts_in_stable t : ts_in (ts_in t) = ts_in t
}.

(** Rounding a timestamp to the column's precision keeps the order. *)
Class PostgresMonotone (pg : Postgres) : Prop :=
  ts_in_mono : forall t u, t <= u -> ts_in t <= ts_in u.

Abbreviation Table := (list Task).

(** ** Errors of the driver *)

Inductive DBError : Type :=
| SqlErrNoRows
| PqError (code : string).

Definition mapDBError (err : DBError) : RepoError :=
  match err with
  | SqlErrNoRows => ErrNotFound
  | PqError code =>
      if (code =?? "23505"%string) then ErrDuplicateKey
      else if (code =?? "23503"%string) then ErrNotFound
      else ErrSQL code
  end.

(** A statement's outcome as the caller sees it. *)
Definition mapDB {A} (r : result DBError A) : result RepoError A :=
  match r with Ok v => Ok v | Err e => Err (mapDBError e) end.

(** ** The schema *)

(** The labels of the enum types [task_status], [task_creation_source] and
    [delegation_mode], after every migration. *)
Definition enum_task_status (s : TaskStatus) : bool :=
  match s with TaskStatusOther _ => false | _ => true end.

Definition enum_task_creation_source (s : TaskCreationSource) : bool :=
  match s with
  | TaskCreationSourceUser | TaskCreationSourceDelegation
  | TaskCreationSourceAutonomous | TaskCreationSourceRoute
  | TaskCreationSourceA2A | TaskCreationSourceCompanion => true
  | TaskCreationSourceCheckpoint | TaskCreationSourceFork
  | TaskCreationSourceOther _ => false
  end.

Definition enum_delegation_mode (m : DelegationMode) : bool :=
  match m with DelegationModeOther _ => false | _ => true end.

(** [valid_priority] and [valid_attempt]. *)
Definition row_checks (t : Task) : bool :=
  (0 <=? Priority t) && (Priority t <=? 100) &&
  (1 <=? Attempt t) && (Attempt t <=? MaxAttempts t).

(** The key of the partial unique index [idx_tasks_project_idempotency_key]. *)
Definition idem_key (t : Task) : option (string * string) :=
  k ← IdempotencyKey t; Some (ProjectID t, k).

Definition parent_exists (tbl : Table) (t : Task) : bool :=
  match ParentTaskID t with
  | None => true
  | Some p => bool_decide (p ∈ map ID tbl)
  end.

(** What the constraints of the table guarantee. *)
Record table_ok (tbl : Table) : Prop := {
  ok_ids : NoDup (map ID tbl);
  ok_idem : NoDup (omap idem_key tbl);
  ok_checks : forall t, t ∈ tbl -> row_checks t = true;
  ok_parents : forall t, t ∈ tbl -> parent_exists tbl t = true
}.

(** Errors found while the parameters of a statement are bound, in order: the
    first test that fails is reported. *)
Fixpoint bind_errors (tests : list (bool * string)) : option DBError :=
  match tests with
  | [] => None
  | (true, _) :: rest => bind_errors rest
  | (false, code) :: _ => Some (PqError code)
  end.

Definition sql_enum (b : bool) : bool * string := (b, "22P02"%string).
Definition sql_int4 (z : Z) : bool * string := (int32_fits z, "22003"%string).

Definition with_binds {A} (tests : list (bool * string))
    (k : result DBError A) : result DBError A :=
  match bind_errors tests with Some e => Err e | None => k end.

(** ** Statements *)

(** The error of the first constraint that the table [new] breaks, where
    [touched] are the rows the statement wrote. *)
Definition constraint_error (touched : list Task) (new : Table) : option DBError :=
  if negb (forallb row_checks touched) then Some (PqError "23514")
  else if negb (bool_decide (NoDup (map ID new)) &&
                bool_decide (NoDup (omap idem_key new)))
  then Some (PqError "23505")
  else if negb (forallb (parent_exists new) touched) then Some (PqError "23503")
  else None.

Definition exec_insert (t : Task) (tbl : Table) : result DBError Table :=
  let new := tbl ++ [t] in
  match constraint_error [t] new with
  | Some e => Err e
  | None => Ok new
  end.

(** [UPDATE tasks SET f WHERE p]: the new table and the rows affected. *)
Definition update_rows (p : Task -> bool) (f : Task -> Task) (tbl : Table) : Table :=
  map (fun t => if p t then f t else t) tbl.

Definition exec_update (p : Task -> bool) (f : Task -> Task) (tbl : Table) :
    result DBError (Table * nat) :=
  let new := update_rows p f tbl in
  match constraint_error (map f (filter (fun t => p t = true) tbl)) new with
  | Some e => Err e
  | None => Ok (new, count_if p tbl)
  end.

(** [SELECT ... WHERE p], and the first row of it. *)
Definition select_rows (p : Task -> bool) (tbl : Table) : list Task :=
  filter (fun t => p t = true) tbl.

(** [scanTask]: the columns the queries select, which do not include
    [cross_project_call_id] nor a result envelope. *)
Definition scanTask (row : Task) : Task :=
  row <| CrossProjectCallID := None |> <| ResultEnvelope := None |>.

(** [QueryRow(...).Scan]: the first row, or [sql.ErrNoRows]. *)
Definition scanRow (rows : list Task) : result RepoError Task :=
  match rows with
  | [] => Err (mapDBError SqlErrNoRows)
  | row :: _ => Ok (scanTask row)
  end.

Section WithServer.
Context `{pg : Postgres}.

Definition json_ok (p : option string) : bool :=
  match p with None => true | Some s => is_some (jsonb_in s) end.

Definition jsonb_col (p : option string) : option string := p ≫= jsonb_in.

(** The parameters an INSERT or UPDATE of a whole task binds, in order. *)
Definition task_binds (t : Task) : list (bool * string) :=
  [ sql_enum (enum_task_creation_source (CreationSource t));
    sql_enum (opt_filter (DelegationModeOf t) enum_delegation_mode);
    sql_enum (enum_task_status (Status t));
    sql_int4 (Priority t);
    sql_enum (json_ok (Payload t));
    sql_int4 (Attempt t);
    sql_int4 (MaxAttempts t) ].

(** ** Create, Get, Update, Delete *)

(** The defaults [Create] fills in, in the caller's struct. *)
Definition create_defaults (now : time) (t : Task) : Task :=
  let createdAt := if CreatedAt t =? zeroTime then now else CreatedAt t in
  t <| CreatedAt := createdAt |>
    <| UpdatedAt := if UpdatedAt t =? zeroTime then createdAt else UpdatedAt t |>
    <| Attempt := if Attempt t =? 0 then 1 else Attempt t |>
    <| MaxAttempts := if MaxAttempts t =? 0 then 3 else MaxAttempts t |>
    <| Status := if Status t =?? TaskStatusEmpty then TaskStatusQueued else Status t |>
    <| CreationSource := if CreationSource t =?? TaskCreationSourceOther ""
                         then TaskCreationSourceUser else CreationSource t |>.

(** The row the INSERT writes: the 22 listed columns, the others at their
    column defaults. *)
Definition inserted_row (t : Task) : Task := {|
  ID := ID t; ProjectID := ProjectID t; WorkflowID := WorkflowID t;
  IdempotencyKey := IdempotencyKey t; ParentTaskID := ParentTaskID t;
  CreationSource := CreationSource t; DelegationModeOf := DelegationModeOf t;
  Status := Status t; Priority := Priority t; Payload := jsonb_col (Payload t);
  Dependencies := Dependencies t; LeaseID := LeaseID t;
  LeasedAt := ts_in <$> LeasedAt t; LeasedBy := LeasedBy t;
  LeaseExpiresAt := ts_in <$> LeaseExpiresAt t;
  Attempt := Attempt t; MaxAttempts := MaxAttempts t;
  LastError := LastError t; LastErrorClass := LastErrorClass t;
  CreatedAt := ts_in (CreatedAt t); UpdatedAt := ts_in (UpdatedAt t);
  BriefAmendedAt := None; CurrentPhase := None; ExpectedBy := None;
  ClosedAt := None; ClosedBy := None; MessageCount := 0;
  OpenCheckpointID := None; ChatTurnID := ChatTurnID t;
  CrossProjectCallID := None; ResultEnvelope := None |}.

(** [Create]: the caller's struct with its defaults, and the new table. *)
Definition Create (now : time) (task : option Task) (tbl : Table) :
    result RepoError (Task * Table) :=
  match task with
  | None => Err ErrTaskIsNil
  | Some t =>
      let t := create_defaults now t in
      let! tbl' := mapDB (with_binds (task_binds t) (exec_insert (inserted_row t) tbl)) in
      Ok (t, tbl')
  end.

Definition Get (id : string) (tbl : Table) : result RepoError Task :=
  scanRow (select_rows (fun t => ID t =?? id) tbl).

Definition GetByIdempotencyKey (projectID idempotencyKey : string) (tbl : Table) :
    result RepoError Task :=
  scanRow (select_rows (fun t => (ProjectID t =?? projectID) &&
                                 (IdempotencyKey t =?? Some idempotencyKey)) tbl).

(** The 19 columns [Update] assigns. *)
Definition updated_row (task row : Task) : Task := {|
  ID := ID row; ProjectID := ProjectID task; WorkflowID := WorkflowID task;
  IdempotencyKey := IdempotencyKey task; ParentTaskID := ParentTaskID task;
  CreationSource := CreationSource task; DelegationModeOf := DelegationModeOf task;
  Status := Status task; Priority := Priority task; Payload := jsonb_col (Payload task);
  Dependencies := Dependencies task; LeaseID := LeaseID task;
  LeasedAt := ts_in <$> LeasedAt task; LeasedBy := LeasedBy task;
  LeaseExpiresAt := ts_in <$> LeaseExpiresAt task;
  Attempt := Attempt task; MaxAttempts := MaxAttempts task;
  LastError := LastError task; LastErrorClass := LastErrorClass task;
  CreatedAt := CreatedAt row; UpdatedAt := ts_in (UpdatedAt task);
  BriefAmendedAt := BriefAmendedAt row; CurrentPhase := CurrentPhase row;
  ExpectedBy := ExpectedBy row; ClosedAt := ClosedAt row; ClosedBy := ClosedBy row;
  MessageCount := MessageCount row; OpenCheckpointID := OpenCheckpointID row;
  ChatTurnID := ChatTurnID row; CrossProjectCallID := CrossProjectCallID row;
  ResultEnvelope := ResultEnvelope row |}.

(** [Update]: the caller's struct is stamped, and no row matching is not an
    error. *)
Definition Update (now : time) (task : option Task) (tbl : Table) :
    result RepoError (Task * Table) :=
  match task with
  | None => Err ErrTaskIsNil
  | Some t =>
      let t := t <| UpdatedAt := now |> in
      let! r := mapDB (with_binds (task_binds t)
                  (exec_update (fun row => ID row =?? ID t) (updated_row t) tbl)) in
      Ok (t, fst r)
  end.

(** [Delete]; the foreign key of the children is [ON DELETE SET NULL]. *)
Definition Delete (id : string) (tbl : Table) : result RepoError Table :=
  Ok (update_rows (fun t => ParentTaskID t =?? Some id)
                  (fun t => t <| ParentTaskID := None |>)
       (filter (fun t => negb (ID t =?? id) = true) tbl)).

(** ** List, Count *)

Definition filter_where (flt : TaskFilter) (t : Task) : bool :=
  opt_filter (flt_ProjectID flt) (fun p => ProjectID t =?? p) &&
  opt_filter (flt_Status flt) (fun s => Status t =?? s).

Definition filter_binds (flt : TaskFilter) : list (bool * string) :=
  [ sql_enum (opt_filter (flt_Status flt) enum_task_status) ].

Definition List (flt : TaskFilter) (tbl : Table) : result RepoError (list Task) :=
  mapDB (with_binds (filter_binds flt)
    (Ok (map scanTask (limit_offset (flt_PageSize flt) (flt_Offset flt)
      (order_by (fun t => [- CreatedAt t])
        (select_rows (fun t => filter_where flt t &&
           opt_filter (flt_UpdatedBefore flt) (fun u => UpdatedAt t <? ts_in u)) tbl)))))).

(** [Count] reads the project and the status of the filter, not
    [UpdatedBefore]. *)
Definition Count (flt : TaskFilter) (tbl : Table) : result RepoError Z :=
  mapDB (with_binds (filter_binds flt)
    (Ok (Z.of_nat (count_if (filter_where flt) tbl)))).

(** ** Status transitions *)

(** [RowsAffected() > 0]. *)
Definition affected (r : Table * nat) : bool := (0 <? Z.of_nat (snd r)).

Definition status_in (l : list TaskStatus) (t : Task) : bool :=
  bool_decide (Status t ∈ l).

Definition UpdateStatus (now : time) (id : string) (status : TaskStatus)
    (tbl : Table) : result RepoError Table :=
  let! r := mapDB (with_binds [sql_enum (enum_task_status status)]
     (exec_update (fun t => ID t =?? id)
        (fun t => t <| Status := status |> <| UpdatedAt := now |>) tbl)) in
  Ok (fst r).

Definition cancellable : list TaskStatus :=
  [TaskStatusQueued; TaskStatusLeased; TaskStatusRunning; TaskStatusPending].

Definition TransitionToCancelled (now : time) (id : string) (tbl : Table) :
    result RepoError (bool * Table) :=
  let! r := mapDB (exec_update
     (fun t => (ID t =?? id) && status_in cancellable t)
     (fun t => t <| Status := TaskStatusCancelled |> <| UpdatedAt := now |>) tbl) in
  Ok (affected r, fst r).

Definition clear_lease (t : Task) : Task :=
  t <| LeaseID := None |> <| LeasedAt := None |> <| LeasedBy := None |>
    <| LeaseExpiresAt := None |>.

(** A column whose [SET] clause is only present when the pointer is not nil. *)
Definition set_col {A} (new old : option A) : option A :=
  match new with Some v => Some v | None => old end.

(** A column whose [SET] clause is only present when the integer is positive. *)
Definition set_pos (new old : Z) : Z := if 0 <? new then new else old.

(** The row under the [SET] list that [TransitionConditional] builds. *)
Definition transition_set (now : time) (to : TaskStatus) (opts : TransitionOpts)
    (t : Task) : Task :=
  let cleared {A} (col : option A) := if opt_ClearLease opts then None else col in
  t <| Status := to |> <| UpdatedAt := now |>
    <| ClosedAt := if opt_SetClosedAtNow opts then Some now else ClosedAt t |>
    <| ClosedBy := set_col (opt_ClosedBy opts) (ClosedBy t) |>
    <| ExpectedBy := set_col (ts_in <$> opt_ExpectedBy opts) (ExpectedBy t) |>
    <| CurrentPhase := set_col (opt_CurrentPhase opts) (CurrentPhase t) |>
    <| BriefAmendedAt := set_col (ts_in <$> opt_BriefAmendedAt opts) (BriefAmendedAt t) |>
    <| LastError := set_col (opt_LastError opts) (LastError t) |>
    <| LastErrorClass := set_col (opt_LastErrorClass opts) (LastErrorClass t) |>
    <| LeaseID := cleared (LeaseID t) |> <| LeasedAt := cleared (LeasedAt t) |>
    <| LeasedBy := cleared (LeasedBy t) |>
    <| LeaseExpiresAt := cleared (LeaseExpiresAt t) |>
    <| Attempt := set_pos (opt_Attempt opts) (Attempt t) |>
    <| MaxAttempts := set_pos (opt_MaxAttempts opts) (MaxAttempts t) |>.

Definition TransitionConditional (now : time) (id : string) (from : list TaskStatus)
    (to : TaskStatus) (opts : TransitionOpts) (tbl : Table) :
    result RepoError (bool * Table) :=
  if (id =?? ""%string) || (to =?? TaskStatusEmpty) || (from =?? []) then
    Err (ErrArgument "TransitionConditional: id, from, to required")
  else
    let! r := mapDB (with_binds
        [ sql_enum (enum_task_status to);
          sql_int4 (set_pos (opt_Attempt opts) 0);
          sql_int4 (set_pos (opt_MaxAttempts opts) 0);
          sql_enum (forallb enum_task_status from) ]
        (exec_update (fun t => (ID t =?? id) && status_in from t)
                     (transition_set now to opts) tbl)) in
    Ok (affected r, fst r).

Definition requeueable : list TaskStatus :=
  [TaskStatusFailed; TaskStatusCancelled; TaskStatusCompleted; TaskStatusPending].

Definition requeue_set (now : time) (attempt maxAttempts : Z) (t : Task) : Task :=
  (clear_lease t) <| Status := TaskStatusQueued |> <| Attempt := attempt |>
    <| MaxAttempts := maxAttempts |> <| LastError := None |> <| LastErrorClass := None |> <| UpdatedAt := now |>.

Definition RequeueTerminalTask (now : time) (id : string) (attempt maxAttempts : Z)
    (tbl : Table) : result RepoError (bool * Table) :=
  let! r := mapDB (with_binds [sql_int4 attempt; sql_int4 maxAttempts]
      (exec_update (fun t => (ID t =?? id) && status_in requeueable t)
                   (requeue_set now attempt maxAttempts) tbl)) in
  Ok (affected r, fst r).

(** ** Leasing *)

Definition maxConcurrencyProjects : nat := 100.

(** The rows [active_counts] counts: a task that occupies a slot. *)
Definition active_slot (t : Task) : bool :=
  status_in [TaskStatusLeased; TaskStatusRunning] t ||
  ((Status t =?? TaskStatusQueued) && is_some (LeaseID t)).

Definition active_count (tbl : Table) (pid : string) : Z :=
  Z.of_nat (count_if (fun t => (ProjectID t =?? pid) && active_slot t) tbl).

(** The [limits] and [project_priorities] CTEs: the first hundred entries of
    the map, in the order in which the loop meets them. *)
Definition limits_cte (opts : LeaseOptions) : list (string * Z) :=
  take maxConcurrencyProjects (lo_ProjectConcurrencyLimits opts).
Definition priorities_cte (opts : LeaseOptions) : list (string * Z) :=
  take maxConcurrencyProjects (lo_ProjectPriorities opts).

(** [project_id IN (SELECT project_id FROM over_cap)].  [active_counts] only
    has rows for projects with a positive count, so the JOIN drops the others
    whatever their cap. *)
Definition over_cap (tbl : Table) (opts : LeaseOptions) (pid : string) : bool :=
  existsb (fun l => (fst l =?? pid) && (0 <? active_count tbl pid) &&
                    (snd l <=? active_count tbl pid)) (limits_cte opts).

(** The dependency gate: no dependency is missing or not COMPLETED. *)
Definition deps_completed (tbl : Table) (t : Task) : bool :=
  forallb (fun dep => existsb (fun d => (ID d =?? dep) &&
                                        (Status d =?? TaskStatusCompleted)) tbl)
          (Dependencies t).

(** The candidate's WHERE clause. *)
Definition eligible (tbl : Table) (opts : LeaseOptions) (t : Task) : bool :=
  ((lo_ProjectID opts =?? ""%string) || (ProjectID t =?? lo_ProjectID opts)) &&
  (Status t =?? TaskStatusQueued) && is_none (LeaseID t) &&
  (if 0 <? lo_PriorityFloor opts then lo_PriorityFloor opts <=? Priority t else true) &&
  negb (bool_decide (ProjectID t ∈ lo_ExcludedProjects opts)) &&
  deps_completed tbl t && negb (over_cap tbl opts (ProjectID t)).

Definition project_priority_default (opts : LeaseOptions) : Z :=
  if lo_ProjectPriorityDefault opts =? 0 then 50 else lo_ProjectPriorityDefault opts.

Definition project_priority (opts : LeaseOptions) (pid : string) : Z :=
  match find (fun l => fst l =?? pid) (priorities_cte opts) with
  | Some l => snd l
  | None => project_priority_default opts
  end.

(** The ORDER BY key; without priorities the first component is absent. *)
Definition lease_key (opts : LeaseOptions) (t : Task) : list Z :=
  match lo_ProjectPriorities opts with
  | [] => [Priority t; CreatedAt t]
  | _ => [project_priority opts (ProjectID t); Priority t; CreatedAt t]
  end.

(** [FOR UPDATE OF tasks SKIP LOCKED LIMIT 1]. *)
Definition candidate (locked : gset string) (opts : LeaseOptions) (tbl : Table) :
    option Task :=
  head (order_by (lease_key opts)
    (select_rows (fun t => eligible tbl opts t && bool_decide (ID t ∉ locked)) tbl)).

Definition lease_set (now : time) (leaseID : string) (opts : LeaseOptions)
    (t : Task) : Task :=
  t <| Status := TaskStatusLeased |> <| LeaseID := Some leaseID |>
    <| LeasedAt := Some now |> <| LeasedBy := Some (lo_LeaseHolder opts) |>
    <| LeaseExpiresAt := Some (now + lo_LeaseDurationSeconds opts * Second) |>
    <| UpdatedAt := now |>.

Definition lease_binds (opts : LeaseOptions) : list (bool * string) :=
  map (fun l => sql_int4 (snd l)) (limits_cte opts) ++
  map (fun l => sql_int4 (snd l)) (priorities_cte opts) ++
  [ sql_int4 (if 0 <? lo_PriorityFloor opts then lo_PriorityFloor opts else 0) ].

(** [LeaseTask]: [newLeaseID] is the fresh random id, [None] when the system's
    random generator fails. *)
Definition LeaseTask (now : time) (newLeaseID : option string) (locked : gset string)
    (opts : LeaseOptions) (tbl : Table) : result RepoError (Task * Table) :=
  match newLeaseID with
  | None => Err ErrRandUnavailable
  | Some leaseID =>
      let! r := mapDB (with_binds (lease_binds opts)
        (match candidate locked opts tbl with
         | None => Ok (tbl, None)
         | Some c =>
             match exec_update (fun t => ID t =?? ID c) (lease_set now leaseID opts) tbl with
             | Err e => Err e
             | Ok r => Ok (fst r, head (select_rows (fun t => ID t =?? ID c) (fst r)))
             end
         end)) in
      match snd r with
      | None => Err ErrNoTasksAvailable
      | Some row => Ok (scanTask row, fst r)
      end
  end.

Definition renewable : list TaskStatus :=
  [TaskStatusLeased; TaskStatusRunning; TaskStatusWaitingForChildren].

Definition RenewLease (now : time) (taskID leaseID : string) (extendBySeconds : Z)
    (tbl : Table) : result RepoError Table :=
  let! r := mapDB (exec_update
      (fun t => (ID t =?? taskID) &&
                ((LeaseID t =?? Some leaseID) && status_in renewable t))
      (fun t => t <| LeaseExpiresAt := Some (now + extendBySeconds * Second) |>
                  <| UpdatedAt := now |>) tbl) in
  if affected r then Ok (fst r) else Err ErrLeaseNotFound.

(** [NULLIF(s, '')]. *)
Definition nullif_empty (s : string) : option string :=
  if s =?? ""%string then None else Some s.

Definition release_set (now : time) (newStatus : TaskStatus) (opts : ReleaseOptions)
    (t : Task) : Task :=
  (clear_lease t) <| Status := newStatus |>
    <| Attempt := if ro_Attempt opts =? 0 then Attempt t else ro_Attempt opts |>
    <| MaxAttempts := if ro_MaxAttempts opts =? 0 then MaxAttempts t
                      else ro_MaxAttempts opts |>
    <| LastError := nullif_empty (ro_Error opts) |>
    <| LastErrorClass := nullif_empty (ro_ErrorClass opts) |>
    <| UpdatedAt := now |>.

Definition ReleaseLease (now : time) (taskID leaseID : string) (newStatus : TaskStatus)
    (opts : ReleaseOptions) (tbl : Table) : result RepoError Table :=
  if leaseID =?? ""%string then Err (ErrArgument "ReleaseLease: leaseID required")
  else
    let! r := mapDB (with_binds
        [ sql_enum (enum_task_status newStatus); sql_int4 (ro_Attempt opts);
          sql_int4 (ro_MaxAttempts opts) ]
        (exec_update (fun t => (ID t =?? taskID) && (LeaseID t =?? Some leaseID))
                     (release_set now newStatus opts) tbl)) in
    Ok (fst r).

(** ** Queries *)

Definition lease_expired (now : time) (t : Task) : bool :=
  match LeaseExpiresAt t with None => false | Some e => e <? now end.

Definition recoverable : list TaskStatus :=
  [TaskStatusQueued; TaskStatusLeased; TaskStatusRunning].

Definition lease_expiry_key (t : Task) : list Z :=
  match LeaseExpiresAt t with None => [] | Some e => [e] end.

(** [FindExpiredLeases]; [LIMIT] rejects a negative count. *)
Definition FindExpiredLeases (now : time) (limit : Z) (tbl : Table) :
    result RepoError (list Task) :=
  if limit <? 0 then Err (ErrSQL "2201W")
  else Ok (map scanTask (take (Z.to_nat limit)
         (order_by lease_expiry_key
            (select_rows (fun t => status_in recoverable t && lease_expired now t) tbl)))).

Definition in_project (projectID : string) (t : Task) : bool :=
  (projectID =?? ""%string) || (ProjectID t =?? projectID).

(** [GROUP BY status]: one row per status that occurs. *)
Definition status_groups (rows : list Task) : list (TaskStatus * Z) :=
  map (fun s => (s, Z.of_nat (count_if (fun t => Status t =?? s) rows)))
      (remove_dups (map Status rows)).

(** [CountByStatus]: the rows of the query, as Go collects them in a map. *)
Definition CountByStatus (projectID : string) (tbl : Table) : gmap TaskStatus Z :=
  foldl (fun counts row => <[fst row := snd row]> counts) ∅
        (status_groups (select_rows (in_project projectID) tbl)).

Definition CountRecentFailures (projectID : string) (errorClasses : list string)
    (since : time) (tbl : Table) : result RepoError Z :=
  if projectID =?? ""%string
  then Err (ErrArgument "CountRecentFailures: projectID is required")
  else Ok (Z.of_nat (count_if (fun t =>
         (ProjectID t =?? projectID) && (Status t =?? TaskStatusFailed) &&
         (ts_in since <=? UpdatedAt t) &&
         match errorClasses with
         | [] => true
         | _ => match LastErrorClass t with
                | None => false
                | Some c => bool_decide (c ∈ errorClasses)
                end
         end) tbl)).

Definition by_creation (l : list Task) : list Task :=
  map scanTask (order_by (fun t => [CreatedAt t]) l).

Definition GetChildren (parentTaskID : string) (tbl : Table) : list Task :=
  by_creation (select_rows (fun t => ParentTaskID t =?? Some parentTaskID) tbl).

Definition parent_groups (parentTaskIDs : list string) (tbl : Table) :
    list (string * Z) :=
  map (fun p => (p, Z.of_nat (count_if (fun t => ParentTaskID t =?? Some p) tbl)))
      (filter (fun p => p ∈ parentTaskIDs) (remove_dups (omap ParentTaskID tbl))).

Definition CountChildrenForParents (parentTaskIDs : list string) (tbl : Table) :
    gmap string Z :=
  match parentTaskIDs with
  | [] => ∅
  | _ => foldl (fun out row => <[fst row := snd row]> out) ∅
               (parent_groups parentTaskIDs tbl)
  end.

Definition GetDependencies (taskID : string) (tbl : Table) : list Task :=
  by_creation (concat (map
    (fun task => select_rows (fun dep => bool_decide (ID dep ∈ Dependencies task)) tbl)
    (select_rows (fun task => ID task =?? taskID) tbl))).

Definition GetDependents (taskID : string) (tbl : Table) : list Task :=
  by_creation (select_rows (fun t => bool_decide (taskID ∈ Dependencies t)) tbl).

End WithServer.
