(* ===== verification/TaskRepoFacts.v ===== *)
(** * Lemmas and properties of the task repository

    The rows a statement touches, the schema constraints it keeps, and what
    each method of [TaskRepo] promises. *)
From S2P Require Import Prelude TaskModel TaskRepo.

(** ** Lookup by id *)

(** The row with a given id; ids are unique in a table that is [table_ok]. *)
Definition row (tbl : Table) (id : string) : option Task :=
  head (select_rows (fun t => ID t =?? id) tbl).

Lemma elem_of_select_rows p tbl t : t ∈ select_rows p tbl <-> p t = true /\ t ∈ tbl.
Proof. unfold select_rows. by rewrite list_elem_of_filter. Qed.

Lemma select_rows_none p tbl :
  (forall t, t ∈ tbl -> p t = false) -> select_rows p tbl = [].
Proof.
  intros H. destruct (select_rows p tbl) as [|x l] eqn:E; [done|].
  assert (Hx : x ∈ select_rows p tbl) by (rewrite E; left).
  apply elem_of_select_rows in Hx as [Hp Hx]. by rewrite H in Hp.
Qed.

Lemma row_Some_1 tbl id t : row tbl id = Some t -> t ∈ tbl /\ ID t = id.
Proof.
  unfold row. intros H. destruct (select_rows _ tbl) as [|x l] eqn:E; simplify_eq/=.
  assert (Hx : t ∈ select_rows (fun t => ID t =?? id) tbl) by (rewrite E; left).
  apply elem_of_select_rows in Hx as [Hx ?]. by btauto_hyps.
Qed.

Lemma row_nil id : row [] id = None.
Proof. done. Qed.

Lemma row_cons t tbl id : row (t :: tbl) id = if ID t =?? id then Some t else row tbl id.
Proof.
  unfold row, select_rows. rewrite filter_cons.
  case_bool_decide; case_decide; try done; congruence.
Qed.

Lemma row_app tbl t id :
  row (tbl ++ [t]) id =
  match row tbl id with Some r => Some r | None => if ID t =?? id then Some t else None end.
Proof.
  induction tbl as [|x tbl IH]; simpl; [by rewrite row_cons|].
  rewrite !row_cons, IH. by destruct (ID x =?? id).
Qed.

Lemma row_Some tbl id t :
  NoDup (map ID tbl) -> row tbl id = Some t <-> t ∈ tbl /\ ID t = id.
Proof.
  intros Hnd. split; [apply row_Some_1|]. intros [Hin <-].
  induction tbl as [|x tbl IH]; [by apply elem_of_nil in Hin|].
  simpl in Hnd. apply NoDup_cons in Hnd as [Hx Hnd]. rewrite row_cons.
  apply elem_of_cons in Hin as [->|Hin]; [by rewrite bool_decide_true|].
  rewrite bool_decide_false; [by apply IH|]. intros E. apply Hx. rewrite E.
  apply list_elem_of_fmap. by exists t.
Qed.

Lemma row_None tbl id : row tbl id = None <-> id ∉ map ID tbl.
Proof.
  induction tbl as [|x tbl IH]; [by split; intros; [apply not_elem_of_nil|]|].
  rewrite row_cons. simpl. rewrite not_elem_of_cons.
  case_bool_decide; naive_solver.
Qed.

(** ** Updates *)

(** An update that leaves the keys of the schema alone. *)
Record same_keys (f : Task -> Task) : Prop := {
  sk_id t : ID (f t) = ID t;
  sk_project t : ProjectID (f t) = ProjectID t;
  sk_idem t : IdempotencyKey (f t) = IdempotencyKey t;
  sk_parent t : ParentTaskID (f t) = ParentTaskID t
}.

Lemma update_rows_cons p f t tbl :
  update_rows p f (t :: tbl) = (if p t then f t else t) :: update_rows p f tbl.
Proof. done. Qed.

Section Update.
Context (p : Task -> bool) (f : Task -> Task).

Lemma elem_of_update_rows tbl t :
  t ∈ update_rows p f tbl <-> exists x, x ∈ tbl /\ t = (if p x then f x else x).
Proof. unfold update_rows. rewrite list_elem_of_fmap. naive_solver. Qed.

Lemma row_update_rows tbl id :
  (forall t, ID (f t) = ID t) ->
  row (update_rows p f tbl) id = (fun t => if p t then f t else t) <$> row tbl id.
Proof.
  intros Hid. induction tbl as [|x tbl IH]; [done|]. simpl.
  rewrite !row_cons, IH.
  assert (E : ID (if p x then f x else x) = ID x) by (by destruct (p x)).
  rewrite E. by case_bool_decide.
Qed.

Context (Hf : same_keys f).

Lemma update_rows_ids tbl : map ID (update_rows p f tbl) = map ID tbl.
Proof.
  unfold update_rows. rewrite map_map. apply map_ext. intros t.
  destruct (p t); [apply (sk_id _ Hf)|done].
Qed.

Lemma update_rows_idem tbl : omap idem_key (update_rows p f tbl) = omap idem_key tbl.
Proof.
  induction tbl as [|t tbl IH]; [done|]. simpl.
  assert (E : idem_key (if p t then f t else t) = idem_key t).
  { destruct (p t); [|done]. unfold idem_key.
    by rewrite (sk_idem _ Hf), (sk_project _ Hf). }
  rewrite E. destruct (idem_key t); [f_equal|]; exact IH.
Qed.

Lemma update_rows_parents tbl t :
  parent_exists (update_rows p f tbl) t = parent_exists tbl t.
Proof. unfold parent_exists. by rewrite update_rows_ids. Qed.

(** The statement succeeds, and keeps the constraints, as soon as the written
    rows pass the CHECK constraints. *)
Lemma exec_update_same_keys tbl :
  table_ok tbl ->
  (forall t, t ∈ tbl -> p t = true -> row_checks (f t) = true) ->
  exec_update p f tbl = Ok (update_rows p f tbl, count_if p tbl) /\
  table_ok (update_rows p f tbl).
Proof.
  intros [Hids Hidem Hchk Hpar] Hrow.
  assert (Hfp : forall t, parent_exists tbl (if p t then f t else t) = parent_exists tbl t).
  { intros t. destruct (p t); [|done]. unfold parent_exists. by rewrite (sk_parent _ Hf). }
  split.
  - unfold exec_update, constraint_error.
    assert (H1 : forallb row_checks (map f (filter (fun t => p t = true) tbl)) = true).
    { apply forallb_elem. intros t (x & -> & Hx)%list_elem_of_fmap.
      apply list_elem_of_filter in Hx as [Hp Hx]. by apply Hrow. }
    assert (H2 : forallb (parent_exists (update_rows p f tbl))
                   (map f (filter (fun t => p t = true) tbl)) = true).
    { apply forallb_elem. intros t (x & -> & Hx)%list_elem_of_fmap.
      apply list_elem_of_filter in Hx as [Hp Hx].
      rewrite update_rows_parents. specialize (Hfp x). rewrite Hp in Hfp.
      rewrite Hfp. by apply Hpar. }
    rewrite H1, H2. simpl.
    by rewrite update_rows_ids, update_rows_idem, !bool_decide_true by done.
  - split.
    + by rewrite update_rows_ids.
    + by rewrite update_rows_idem.
    + intros t (x & Hx & ->)%elem_of_update_rows. destruct (p x) eqn:E; auto.
    + intros t (x & Hx & ->)%elem_of_update_rows.
      rewrite update_rows_parents, Hfp. auto.
Qed.

(** Whatever the update, a successful statement is the rewrite of the rows. *)
Lemma exec_update_Ok tbl r :
  exec_update p f tbl = Ok r -> r = (update_rows p f tbl, count_if p tbl).
Proof. unfold exec_update. case_match; naive_solver. Qed.

End Update.

Lemma update_rows_none p f tbl :
  (forall t, t ∈ tbl -> p t = false) -> update_rows p f tbl = tbl.
Proof.
  unfold update_rows. intros H. induction tbl as [|t tbl IH]; [done|]. simpl.
  rewrite H by left. f_equal. apply IH. intros x Hx. apply H. by right.
Qed.

(** [RowsAffected() > 0] for a statement keyed by id. *)
Lemma affected_spec tbl new id (q : Task -> bool) :
  NoDup (map ID tbl) ->
  affected (new, count_if (fun t => (ID t =?? id) && q t) tbl) = true <->
  exists t, row tbl id = Some t /\ q t = true.
Proof.
  intros Hnd. unfold affected. simpl. rewrite Z.ltb_lt.
  rewrite <- (Nat2Z.inj_lt 0), count_if_pos. split.
  - intros (t & Ht & Hq). btauto_hyps. exists t. by rewrite row_Some.
  - intros (t & [Ht Hid]%row_Some_1 & Hq). exists t.
    by rewrite bool_decide_true, Hq.
Qed.

(** ** Leasing *)

(** What makes a row leasable, declaratively. *)
Record Eligible (tbl : Table) (opts : LeaseOptions) (t : Task) : Prop := {
  el_project : lo_ProjectID opts = ""%string \/ ProjectID t = lo_ProjectID opts;
  el_queued : Status t = TaskStatusQueued;
  el_unleased : LeaseID t = None;
  el_floor : 0 < lo_PriorityFloor opts -> lo_PriorityFloor opts <= Priority t;
  el_not_excluded : ProjectID t ∉ lo_ExcludedProjects opts;
  el_deps dep : dep ∈ Dependencies t ->
    exists d, d ∈ tbl /\ ID d = dep /\ Status d = TaskStatusCompleted;
  el_cap cap : (ProjectID t, cap) ∈ limits_cte opts ->
    active_count tbl (ProjectID t) = 0 \/ active_count tbl (ProjectID t) < cap
}.

Lemma active_count_nonneg tbl pid : 0 <= active_count tbl pid.
Proof. unfold active_count. lia. Qed.

Lemma over_cap_false tbl opts pid :
  over_cap tbl opts pid = false <->
  forall cap, (pid, cap) ∈ limits_cte opts ->
    active_count tbl pid = 0 \/ active_count tbl pid < cap.
Proof.
  unfold over_cap. rewrite <- not_true_iff_false, existsb_elem.
  pose proof (active_count_nonneg tbl pid). split.
  - intros Hn cap Hin. destruct (decide (active_count tbl pid = 0)); [by left|].
    right. apply Z.nle_gt. intros Hle. apply Hn. exists (pid, cap). split; [done|]. simpl.
    rewrite bool_decide_true by done. simpl. apply andb_true_iff. lia.
  - intros Hcap ([p cap] & Hin & Hb). simpl in Hb. btauto_hyps. subst.
    destruct (Hcap cap Hin); lia.
Qed.

Lemma deps_completed_spec tbl t :
  deps_completed tbl t = true <->
  forall dep, dep ∈ Dependencies t ->
    exists d, d ∈ tbl /\ ID d = dep /\ Status d = TaskStatusCompleted.
Proof.
  unfold deps_completed. rewrite forallb_elem.
  split; intros H dep Hin; specialize (H dep Hin).
  - apply existsb_elem in H as (d & Hd & Hb). btauto_hyps. eauto.
  - apply existsb_elem. destruct H as (d & Hd & <- & Hs). exists d.
    by rewrite Hs, !bool_decide_true.
Qed.

Lemma is_none_spec {A} (o : option A) : is_none o = true <-> o = None.
Proof. by destruct o. Qed.

Lemma eligible_spec tbl opts t : eligible tbl opts t = true <-> Eligible tbl opts t.
Proof.
  unfold eligible.
  rewrite !andb_true_iff, orb_true_iff, !negb_true_iff, is_none_spec,
    deps_completed_spec, over_cap_false, !bool_decide_eq_true, bool_decide_eq_false.
  split.
  - intros ((((((H1 & H2) & H3) & H4) & H5) & H6) & H7). split; auto.
    intros Hf. apply Z.ltb_lt in Hf. rewrite Hf in H4. by apply Z.leb_le.
  - intros [H1 H2 H3 H4 H5 H6 H7]. split_and!; auto.
    case_match; [|done]. btauto_hyps. apply Z.leb_le. auto.
Qed.

Lemma lease_set_same_keys now l opts : same_keys (lease_set now l opts).
Proof. split; intros t; reflexivity. Qed.

Lemma candidate_Some locked opts tbl c :
  candidate locked opts tbl = Some c ->
  c ∈ tbl /\ eligible tbl opts c = true /\ (ID c ∉ locked) /\
  forall y, y ∈ tbl -> eligible tbl opts y = true -> ID y ∉ locked ->
    lex_le (lease_key opts c) (lease_key opts y).
Proof.
  unfold candidate. intros [Hin Hmin]%order_by_head_min.
  apply elem_of_select_rows in Hin as [Hb Hin]. btauto_hyps.
  split_and!; try done. intros y Hy Hel Hl. apply Hmin, elem_of_select_rows.
  by rewrite Hel, bool_decide_true.
Qed.

Lemma candidate_None locked opts tbl :
  candidate locked opts tbl = None ->
  forall y, y ∈ tbl -> eligible tbl opts y = true -> ID y ∈ locked.
Proof.
  unfold candidate. intros Hn%order_by_head_None y Hy Hel.
  apply dec_stable. intros Hl.
  assert (Hin : y ∈ select_rows (fun t => eligible tbl opts t &&
                                    bool_decide (ID t ∉ locked)) tbl).
  { apply elem_of_select_rows. by rewrite Hel, bool_decide_true. }
  rewrite Hn in Hin. by apply elem_of_nil in Hin.
Qed.

(** The call, with its bind errors out of the way. *)
Lemma LeaseTask_candidate now l locked opts tbl :
  table_ok tbl -> bind_errors (lease_binds opts) = None ->
  LeaseTask now (Some l) locked opts tbl =
  match candidate locked opts tbl with
  | None => Err ErrNoTasksAvailable
  | Some c => Ok (scanTask (lease_set now l opts c),
                  update_rows (fun t => ID t =?? ID c) (lease_set now l opts) tbl)
  end.
Proof.
  intros Hok Hb. unfold LeaseTask, with_binds. rewrite Hb.
  destruct (candidate locked opts tbl) as [c|] eqn:Ec; [|done].
  apply candidate_Some in Ec as (Hc & Hel & _).
  destruct (exec_update_same_keys (fun t => ID t =?? ID c) (lease_set now l opts)
              (lease_set_same_keys _ _ _) tbl Hok) as [-> _].
  { intros t Ht _. exact (ok_checks _ Hok t Ht). }
  simpl. fold (row (update_rows (fun t => ID t =?? ID c) (lease_set now l opts) tbl) (ID c)).
  rewrite row_update_rows by (intros; reflexivity).
  assert (E : row tbl (ID c) = Some c) by (apply row_Some; [apply Hok|done]).
  rewrite E. simpl. by rewrite bool_decide_true.
Qed.

(** What a successful call did, whatever the table. *)
Lemma LeaseTask_Ok now l locked opts tbl t tbl1 :
  LeaseTask now (Some l) locked opts tbl = Ok (t, tbl1) ->
  exists c r, candidate locked opts tbl = Some c /\
    tbl1 = update_rows (fun t => ID t =?? ID c) (lease_set now l opts) tbl /\
    row tbl1 (ID c) = Some r /\ t = scanTask r.
Proof.
  unfold LeaseTask. intros E.
  apply res_bind_ok in E as ([tbl2 o] & E & E'). simpl in E'.
  destruct o as [r|]; [|done]. injection E' as <- <-.
  unfold with_binds in E. destruct (bind_errors _); [done|].
  destruct (candidate locked opts tbl) as [c|] eqn:Ec; [|done].
  destruct (exec_update _ _ tbl) as [u|] eqn:Eu; [|done].
  apply exec_update_Ok in Eu as ->. injection E as <- Er. by exists c, r.
Qed.

(** Counting after a single row has changed. *)
Lemma count_if_update_row q f tbl c :
  NoDup (map ID tbl) -> c ∈ tbl ->
  (count_if q (update_rows (fun t => ID t =?? ID c) f tbl) + (if q c then 1 else 0) =
   count_if q tbl + (if q (f c) then 1 else 0))%nat.
Proof.
  intros Hnd Hc. induction tbl as [|x tbl IH]; [by apply elem_of_nil in Hc|].
  simpl in Hnd. apply NoDup_cons in Hnd as [Hx Hnd].
  rewrite update_rows_cons, !count_if_cons. apply elem_of_cons in Hc as [<-|Hc].
  - rewrite bool_decide_true by done.
    rewrite update_rows_none; [lia|].
    intros t Ht. apply bool_decide_eq_false. intros E. apply Hx. rewrite <- E.
    apply list_elem_of_fmap. eauto.
  - rewrite bool_decide_false; [specialize (IH Hnd Hc); lia|].
    intros E. apply Hx. rewrite E. apply list_elem_of_fmap. eauto.
Qed.

(** Rows other than the one written are the ones that were there. *)
Lemma row_update_other f tbl id id' :
  (forall t, ID (f t) = ID t) -> id' <> id ->
  row (update_rows (fun t => ID t =?? id) f tbl) id' = row tbl id'.
Proof.
  intros Hf Hne. rewrite row_update_rows by done.
  destruct (row tbl id') as [r|] eqn:E; [|done]. simpl.
  apply row_Some_1 in E as [_ <-]. by rewrite bool_decide_false.
Qed.

(** ** A concrete server and table for the examples *)

(** Microsecond timestamps; every string is taken for a JSON document. *)
Definition pg_example : Postgres :=
  {| jsonb_in := Some; ts_in t := t / Microsecond * Microsecond |}.

#[export] Instance pg_example_stable : PostgresStable pg_example.
Proof.
  split; [done|]. intros t. simpl. by rewrite Z.div_mul by done.
Qed.

#[export] Instance pg_example_monotone : PostgresMonotone pg_example.
Proof.
  intros t u H. simpl. apply Z.mul_le_mono_nonneg_r; [by vm_compute|].
  by apply Z.div_le_mono.
Qed.

Definition task_example (id project : string) (st : TaskStatus) (prio at_ : Z)
    (deps : list string) (lease : option string) : Task :=
  (zeroTask id) <| ProjectID := project |> <| Status := st |> <| Priority := prio |>
    <| CreatedAt := at_ |> <| Dependencies := deps |> <| LeaseID := lease |>
    <| CreationSource := TaskCreationSourceUser |> <| Attempt := 1 |>
    <| MaxAttempts := 3 |>.

(** [a] waits for [d], which is done; [b] is more urgent but waits for [c],
    which is running under the lease [l1]. *)
Definition table_example : Table :=
  [ task_example "a" "p1" TaskStatusQueued 50 10 ["d"%string] None;
    task_example "b" "p1" TaskStatusQueued 10 11 ["c"%string] None;
    task_example "c" "p1" TaskStatusRunning 50 5 [] (Some "l1"%string);
    task_example "d" "p2" TaskStatusCompleted 50 1 [] None;
    task_example "e" "p2" TaskStatusQueued 60 2 [] None ].

Definition lease_opts_example : LeaseOptions := {|
  lo_ProjectID := ""; lo_LeaseHolder := "scheduler-1"; lo_LeaseDurationSeconds := 300;
  lo_PriorityFloor := 0; lo_ProjectConcurrencyLimits := [("p1"%string, 2)];
  lo_ProjectPriorities := []; lo_ProjectPriorityDefault := 0;
  lo_ExcludedProjects := [] |}.

Lemma table_example_ok : table_ok table_example.
Proof.
  split.
  - apply (bool_decide_unpack _). vm_compute. exact I.
  - apply (bool_decide_unpack _). vm_compute. exact I.
  - intros t Ht. unfold table_example in Ht.
    rewrite !elem_of_cons, elem_of_nil in Ht. by destruct_or! Ht; subst.
  - intros t Ht. unfold table_example in Ht.
    rewrite !elem_of_cons, elem_of_nil in Ht. by destruct_or! Ht; subst.
Qed.

(** ** Properties *)

(** C1: [LeaseTask] hands out the right task.  When it succeeds, the row it
    leased was leasable (queued, not leased, its project allowed and below its
    cap, every dependency COMPLETED) and not locked by another transaction, no
    other leasable unlocked row comes before it in (project priority, task
    priority, creation time); that row and no other has changed, it is LEASED
    under the new lease until [now + duration], and the schema's constraints
    hold again.  When it fails, it is because no leasable row is unlocked. *)
Theorem LeaseTask_spec now leaseID locked opts tbl :
  table_ok tbl -> bind_errors (lease_binds opts) = None ->
  match LeaseTask now (Some leaseID) locked opts tbl with
  | Ok (t, tbl') =>
      exists c, c ∈ tbl /\ Eligible tbl opts c /\ (ID c ∉ locked) /\
        (forall y, y ∈ tbl -> Eligible tbl opts y -> (ID y ∉ locked) ->
           lex_le (lease_key opts c) (lease_key opts y)) /\
        t = scanTask (lease_set now leaseID opts c) /\
        row tbl' (ID c) = Some (lease_set now leaseID opts c) /\
        (forall id, id <> ID c -> row tbl' id = row tbl id) /\
        map ID tbl' = map ID tbl /\ table_ok tbl'
  | Err e =>
      e = ErrNoTasksAvailable /\
      forall y, y ∈ tbl -> Eligible tbl opts y -> ID y ∈ locked
  end.
Proof.
  intros Hok Hb. rewrite LeaseTask_candidate by done.
  destruct (candidate locked opts tbl) as [c|] eqn:Ec.
  - apply candidate_Some in Ec as (Hc & Hel & Hl & Hmin). exists c.
    assert (E : row tbl (ID c) = Some c) by (apply row_Some; [apply Hok|done]).
    split_and!; try done.
    + by apply eligible_spec.
    + intros y Hy Hy'%eligible_spec. by apply Hmin.
    + rewrite row_update_rows by (intros; reflexivity).
      rewrite E. simpl. by rewrite bool_decide_true.
    + intros id Hid. by apply row_update_other.
    + apply update_rows_ids, lease_set_same_keys.
    + apply exec_update_same_keys; [apply lease_set_same_keys | done |].
      intros t Ht _. exact (ok_checks _ Hok t Ht).
  - split; [done|]. intros y Hy Hy'%eligible_spec.
    by eapply candidate_None.
Qed.

(** In the example the task leased is [a], not the more urgent [b]. *)
Example LeaseTask_spec_witness :
  exists c, c ∈ table_example /\ Eligible table_example lease_opts_example c /\ ID c = "a"%string.
Proof.
  pose proof (LeaseTask_spec 100 "l2" ∅ lease_opts_example table_example
                table_example_ok eq_refl) as H.
  assert (E : exists t tbl', LeaseTask 100 (Some "l2"%string) ∅
             lease_opts_example table_example = Ok (t, tbl') /\ ID t = "a"%string).
  { eexists _, _. split; [vm_compute; reflexivity | reflexivity]. }
  destruct E as (t & tbl' & E & Hid). rewrite E in H.
  destruct H as (c & Hc & Hel & _ & _ & -> & _). exists c. split_and!; done.
Defined.

(** The row a statement keyed by [id] leaves behind. *)
Lemma row_keyed_update f tbl id (q : Task -> bool) id' :
  (forall t, ID (f t) = ID t) ->
  row (update_rows (fun t => (ID t =?? id) && q t) f tbl) id' =
  (fun t => if (id' =?? id) && q t then f t else t) <$> row tbl id'.
Proof.
  intros Hf. rewrite row_update_rows by done.
  destruct (row tbl id') as [r|] eqn:E; [|done]. simpl.
  apply row_Some_1 in E as [_ <-]. done.
Qed.

Lemma transition_set_same_keys `{pg : Postgres} now to opts :
  same_keys (transition_set now to opts).
Proof.
  split; intros t; reflexivity.
Qed.

Lemma status_in_spec l t : status_in l t = true <-> Status t ∈ l.
Proof. unfold status_in. by rewrite bool_decide_eq_true. Qed.

(** Every statement of the form [UPDATE tasks SET f WHERE id = $1 AND q] that
    leaves the keys alone: it rewrites the one row it names, or fails a CHECK. *)
Lemma keyed_update f tbl id (q : Task -> bool) :
  table_ok tbl -> same_keys f ->
  match exec_update (fun t => (ID t =?? id) && q t) f tbl with
  | Ok r =>
      (affected r = true <-> exists t, row tbl id = Some t /\ q t = true) /\
      (forall id', row (fst r) id' =
         (fun t => if (id' =?? id) && q t then f t else t) <$> row tbl id') /\
      map ID (fst r) = map ID tbl /\ table_ok (fst r)
  | Err e =>
      e = PqError "23514" /\
      exists t, row tbl id = Some t /\ q t = true /\ row_checks (f t) = false
  end.
Proof.
  intros Hok Hf.
  destruct (forallb (fun t => negb ((ID t =?? id) && q t) || row_checks (f t)) tbl) eqn:E.
  - rewrite forallb_elem in E.
    destruct (exec_update_same_keys (fun t => (ID t =?? id) && q t) f Hf tbl Hok) as [-> Hok'].
    { intros t Ht Hp. specialize (E t Ht). rewrite Hp in E. done. }
    split_and!; simpl.
    + apply affected_spec, Hok.
    + intros id'. apply row_keyed_update, Hf.
    + by apply update_rows_ids.
    + done.
  - assert (Hbad : exists t, t ∈ tbl /\ (ID t =?? id) && q t = true /\ row_checks (f t) = false).
    { apply forallb_elem_false in E as (t & Ht & Hb).
      apply orb_false_iff in Hb as [Hb Hr]. apply negb_false_iff in Hb. eauto. }
    destruct Hbad as (t & Ht & Hp & Hr).
    unfold exec_update, constraint_error.
    assert (forallb row_checks
              (map f (filter (fun t => (ID t =?? id) && q t = true) tbl)) = false) as ->.
    { apply not_true_iff_false. rewrite forallb_elem. intros Hall.
      rewrite Hall in Hr; [done|]. apply list_elem_of_fmap. exists t.
      by rewrite list_elem_of_filter. }
    simpl. split; [done|]. btauto_hyps. subst. exists t.
    by rewrite row_Some by apply Hok.
Qed.

(** The rows after a successful [TransitionConditional]. *)
Lemma TransitionConditional_rows `{pg : Postgres} now id from to opts tbl b tbl' :
  table_ok tbl -> TransitionConditional now id from to opts tbl = Ok (b, tbl') ->
  table_ok tbl' /\
  forall id', row tbl' id' =
    (fun t => if (id' =?? id) && status_in from t then transition_set now to opts t else t)
      <$> row tbl id'.
Proof.
  intros Hok. unfold TransitionConditional. destruct (_ || _ || _); [done|].
  unfold with_binds. destruct (bind_errors _); [done|].
  pose proof (keyed_update (transition_set now to opts) tbl id (status_in from) Hok
                (transition_set_same_keys now to opts)) as H.
  destruct (exec_update _ _ tbl) as [r|e]; [|done]. simpl. intros [= _ <-].
  by destruct H as (_ & Hrow & _ & Hok').
Qed.

(** [TransitionConditional] is a compare-and-set.  It reports [true] exactly
    when the task exists in one of the [from] statuses; then that row, and no
    other, has the new status, the companion columns of [opts], and its lease
    cleared when asked; otherwise the table is as it was.  It errs only on
    missing arguments or when the requested attempt counters break the CHECK. *)
Theorem TransitionConditional_spec `{pg : Postgres} now id from to opts tbl :
  table_ok tbl ->
  enum_task_status to = true -> forallb enum_task_status from = true ->
  opt_Attempt opts <= maxInt32 -> opt_MaxAttempts opts <= maxInt32 ->
  match TransitionConditional now id from to opts tbl with
  | Ok (b, tbl') =>
      table_ok tbl' /\ (forall id', id' <> id -> row tbl' id' = row tbl id') /\
      (b = true <-> exists t, row tbl id = Some t /\ Status t ∈ from) /\
      (b = false -> row tbl' id = row tbl id) /\
      (forall t, row tbl id = Some t -> Status t ∈ from ->
         exists t', row tbl' id = Some t' /\ Status t' = to /\ UpdatedAt t' = now /\
           LeaseID t' = (if opt_ClearLease opts then None else LeaseID t) /\
           ClosedAt t' = (if opt_SetClosedAtNow opts then Some now else ClosedAt t) /\
           ClosedBy t' = set_col (opt_ClosedBy opts) (ClosedBy t) /\
           Attempt t' = set_pos (opt_Attempt opts) (Attempt t) /\
           MaxAttempts t' = set_pos (opt_MaxAttempts opts) (MaxAttempts t) /\
           CreatedAt t' = CreatedAt t /\ Payload t' = Payload t)
  | Err e =>
      id = ""%string \/ to = TaskStatusEmpty \/ from = [] \/
      (e = ErrSQL "23514" /\ exists t, row tbl id = Some t /\ Status t ∈ from /\
         ~ (1 <= set_pos (opt_Attempt opts) (Attempt t) <=
            set_pos (opt_MaxAttempts opts) (MaxAttempts t)))
  end.
Proof.
  intros Hok Hto Hfrom Ha Hm. unfold TransitionConditional.
  destruct ((id =?? ""%string) || (to =?? TaskStatusEmpty) || (from =?? [])) eqn:Eg.
  { rewrite !orb_true_iff, !bool_decide_eq_true in Eg. tauto. }
  assert (Hb : forall z, z <= maxInt32 -> int32_fits (set_pos z 0) = true).
  { intros z Hz. apply int32_fits_pos. unfold set_pos, maxInt32 in *.
    destruct (Z.ltb_spec 0 z); lia. }
  unfold with_binds, sql_enum, sql_int4. simpl. rewrite Hto, !Hb, Hfrom by done. simpl.
  pose proof (keyed_update (transition_set now to opts) tbl id (status_in from) Hok
                (transition_set_same_keys now to opts)) as H.
  destruct (exec_update _ _ tbl) as [r|e]; simpl.
  - destruct H as (Haff & Hrow & _ & Hok'). setoid_rewrite status_in_spec in Haff.
    split_and!; try done.
    + intros id' Hne. rewrite Hrow, bool_decide_false by done. simpl. by destruct (row tbl id').
    + intros Hf. rewrite Hrow, bool_decide_true by done. simpl.
      destruct (row tbl id) as [t|] eqn:Et; [|done]. simpl.
      destruct (status_in from t) eqn:Es; [|done]. exfalso.
      rewrite <- not_true_iff_false in Hf. apply Hf, Haff. exists t.
      by rewrite <- status_in_spec.
    + intros t Et Hs. rewrite Hrow, Et, bool_decide_true by done. simpl.
      unfold status_in. rewrite bool_decide_true by done.
      eexists. split; [done|]. split_and!; reflexivity.
  - destruct H as [-> (t & Et & Hs & Hr)]. do 3 right. split; [done|]. exists t.
    rewrite status_in_spec in Hs. split_and!; try done.
    apply row_Some_1 in Et as [Ht _]. pose proof (ok_checks _ Hok t Ht) as Hc.
    intros Hle. apply not_true_iff_false in Hr. apply Hr.
    destruct t. unfold row_checks in *. simpl in *.
    btauto_hyps. rewrite !andb_true_iff, !Z.leb_le. lia.
Qed.

Definition close_opts_example : TransitionOpts :=
  noTransitionOpts <| opt_ClosedBy := Some "alice"%string |>
    <| opt_SetClosedAtNow := true |>.

(** Close the completed task [d]. *)
Example TransitionConditional_spec_witness :
  exists b tbl' t', TransitionConditional (pg := pg_example) 100 "d" [TaskStatusCompleted]
      TaskStatusClosed close_opts_example table_example = Ok (b, tbl') /\
    b = true /\ row tbl' "d" = Some t' /\ ClosedAt t' = Some 100.
Proof.
  assert (Hz : 0 <= maxInt32) by by vm_compute.
  pose proof (TransitionConditional_spec (pg := pg_example) 100 "d" [TaskStatusCompleted]
    TaskStatusClosed close_opts_example table_example table_example_ok eq_refl eq_refl
    Hz Hz) as H.
  destruct (TransitionConditional _ _ _ _ _ _) as [[b tbl']|e] eqn:E; [|vm_compute in E; done].
  destruct H as (_ & _ & Hb & _ & Ht).
  destruct (Ht (task_example "d" "p2" TaskStatusCompleted 50 1 [] None)) as (t' & Ht' & _ & _ & _ & Hc & _);
    [reflexivity | by apply list_elem_of_singleton |].
  exists b, tbl', t'. split_and!; [done | | done | exact Hc].
  apply Hb. eexists. split; [reflexivity | by apply list_elem_of_singleton].
Defined.

Lemma TransitionToCancelled_row now id tbl :
  table_ok tbl ->
  exists b tbl', TransitionToCancelled now id tbl = Ok (b, tbl') /\ table_ok tbl' /\
    (b = true <-> exists t, row tbl id = Some t /\ Status t ∈ cancellable) /\
    forall id', row tbl' id' =
      (fun t => if (id' =?? id) && status_in cancellable t
                then t <| Status := TaskStatusCancelled |> <| UpdatedAt := now |>
                else t) <$> row tbl id'.
Proof.
  intros Hok. unfold TransitionToCancelled.
  pose proof (keyed_update (fun t => t <| Status := TaskStatusCancelled |> <| UpdatedAt := now |>)
                tbl id (status_in cancellable) Hok ltac:(by split)) as H.
  destruct (exec_update _ _ tbl) as [r|e]; simpl.
  - destruct H as (Haff & Hrow & _ & Hok'). setoid_rewrite status_in_spec in Haff.
    eexists _, _. split; [done|]. split_and!; try done.
  - destruct H as [_ (t & [Ht _]%row_Some_1 & _ & Hr)].
    change (row_checks t = false) in Hr. by rewrite (ok_checks _ Hok t Ht) in Hr.
Qed.

Lemma cancel_row now id tbl t :
  table_ok tbl -> row tbl id = Some t -> Status t ∈ cancellable ->
  exists tbl', TransitionToCancelled now id tbl = Ok (true, tbl') /\ table_ok tbl' /\
    row tbl' id = Some (t <| Status := TaskStatusCancelled |> <| UpdatedAt := now |>) /\
    forall id', id' <> id -> row tbl' id' = row tbl id'.
Proof.
  intros Hok Et Hs.
  destruct (TransitionToCancelled_row now id tbl Hok) as (b & tbl' & E & Hok' & Hb & Hrow).
  exists tbl'. split_and!; [|done| |].
  - rewrite E. do 2 f_equal. apply Hb. eauto.
  - rewrite Hrow, Et, bool_decide_true by done. simpl.
    by rewrite (proj2 (status_in_spec _ _) Hs).
  - intros id' Hne. rewrite Hrow, bool_decide_false by done. by destruct (row tbl id').
Qed.

(** Cancelling never overwrites a task that is not in flight.
    [TransitionToCancelled] succeeds on every id; it reports [true] exactly when
    the task was PENDING, QUEUED, LEASED or RUNNING, and then the row is
    CANCELLED and otherwise unchanged, its lease included; any other task,
    terminal ones first, keeps its row. *)
Theorem TransitionToCancelled_spec now id tbl :
  table_ok tbl ->
  exists b tbl', TransitionToCancelled now id tbl = Ok (b, tbl') /\ table_ok tbl' /\
    (b = true <-> exists t, row tbl id = Some t /\ Status t ∈ cancellable) /\
    forall id', row tbl' id' =
      (fun t => if (id' =?? id) && status_in cancellable t
                then t <| Status := TaskStatusCancelled |> <| UpdatedAt := now |>
                else t) <$> row tbl id'.
Proof.
  apply TransitionToCancelled_row.
Qed.

Example TransitionToCancelled_spec_witness :
  exists tbl', TransitionToCancelled 100 "d" table_example = Ok (false, tbl').
Proof.
  destruct (TransitionToCancelled_spec 100 "d" table_example table_example_ok)
    as (b & tbl' & E & _ & Hb & _).
  exists tbl'. destruct b; [|done]. exfalso. destruct (proj1 Hb eq_refl) as (t & Et & Hs).
  vm_compute in Et. injection Et as <-. revert Hs. apply (bool_decide_eq_false_1 _).
  vm_compute. reflexivity.
Defined.

(** The WHERE clause of the lease calls. *)
Definition holds_lease (leaseID : string) (t : Task) : bool :=
  LeaseID t =?? Some leaseID.

Lemma RenewLease_cases now taskID leaseID extend tbl :
  table_ok tbl ->
  let f t := t <| LeaseExpiresAt := Some (now + extend * Second) |> <| UpdatedAt := now |> in
  (exists t tbl', row tbl taskID = Some t /\ LeaseID t = Some leaseID /\
     Status t ∈ renewable /\ RenewLease now taskID leaseID extend tbl = Ok tbl' /\
     table_ok tbl' /\ row tbl' taskID = Some (f t) /\
     forall id, id <> taskID -> row tbl' id = row tbl id) \/
  ((forall t, row tbl taskID = Some t -> LeaseID t = Some leaseID -> Status t ∉ renewable) /\
   RenewLease now taskID leaseID extend tbl = Err ErrLeaseNotFound).
Proof.
  intros Hok f. unfold RenewLease. fold f.
  set (q := fun t => (LeaseID t =?? Some leaseID) && status_in renewable t).
  assert (Hq : forall t, q t = true <-> LeaseID t = Some leaseID /\ Status t ∈ renewable).
  { intros t. unfold q. by rewrite andb_true_iff, bool_decide_eq_true, status_in_spec. }
  pose proof (keyed_update f tbl taskID q Hok ltac:(by split)) as H. unfold q at 1 in H.
  destruct (exec_update _ f tbl) as [r|e]; simpl.
  - destruct H as (Haff & Hrow & _ & Hok'). destruct (affected r).
    + left. destruct (proj1 Haff eq_refl) as (t & Et & Ht). exists t, r.1.
      pose proof (proj1 (Hq t) Ht) as [? ?]. split_and!; try done.
      * rewrite Hrow, Et, bool_decide_true by done. cbn [fmap option_fmap option_map].
        by rewrite Ht.
      * intros id Hid. rewrite Hrow, bool_decide_false by done. by destruct (row tbl id).
    + right. split; [|done]. intros t Et Hl Hs.
      assert (true = false); [|done]. symmetry. apply Haff. exists t. by rewrite Hq.
  - destruct H as [_ (t & [Ht _]%row_Some_1 & _ & Hr)].
    change (row_checks t = false) in Hr. by rewrite (ok_checks _ Hok t Ht) in Hr.
Qed.

Lemma ReleaseLease_ok now taskID leaseID newStatus opts tbl tbl' :
  table_ok tbl -> ReleaseLease now taskID leaseID newStatus opts tbl = Ok tbl' ->
  table_ok tbl'.
Proof.
  intros Hok. unfold ReleaseLease. case_bool_decide; [done|].
  unfold with_binds. destruct (bind_errors _); [done|].
  pose proof (keyed_update (release_set now newStatus opts) tbl taskID
                (fun t => LeaseID t =?? Some leaseID) Hok ltac:(by split)) as Hk.
  destruct (exec_update _ _ tbl) as [r|e]; [|done]. simpl. intros [= <-]. by destruct Hk as (_ & _ & _ & ?).
Qed.

Lemma ReleaseLease_cases now taskID leaseID newStatus opts tbl :
  table_ok tbl ->
  forall tbl', ReleaseLease now taskID leaseID newStatus opts tbl = Ok tbl' ->
     leaseID <> ""%string /\
     (forall id, id <> taskID -> row tbl' id = row tbl id) /\
     (forall t, row tbl taskID = Some t /\ LeaseID t = Some leaseID ->
        row tbl' taskID = Some (release_set now newStatus opts t)) /\
     ((forall t, ~ (row tbl taskID = Some t /\ LeaseID t = Some leaseID)) -> tbl' = tbl).
Proof.
  intros Hok tbl'. unfold ReleaseLease. case_bool_decide as Hl; [done|].
  unfold with_binds. destruct (bind_errors _); [done|].
  destruct (exec_update _ _ tbl) as [r|e] eqn:E; [|done]. simpl. intros [= <-].
  apply exec_update_Ok in E. subst r. simpl. split_and!; [done | | |].
  - intros id Hid. rewrite row_keyed_update, bool_decide_false by done.
    by destruct (row tbl id).
  - intros t [Et Hlt]. rewrite row_keyed_update, Et by done. simpl.
    by rewrite !bool_decide_true by done.
  - intros Hno. apply update_rows_none. intros t Ht.
    apply andb_false_iff. destruct (decide (ID t = taskID)) as [<-|]; [right|left].
    + apply bool_decide_eq_false. intros ?. apply (Hno t). split; [|done].
      by rewrite row_Some by apply Hok.
    + by apply bool_decide_eq_false.
Qed.

(** Leases fence their holders.  [RenewLease] answers [ErrLeaseNotFound]
    exactly when no task has this id, this lease and a leased status, and
    otherwise moves the expiry of that row to [now + extension].
    [ReleaseLease] rewrites a row only when the caller presents its lease: with
    any other lease id no row changes, and the empty one is an error. *)
Theorem lease_calls_fenced now taskID leaseID extend newStatus opts tbl :
  table_ok tbl ->
  let mine t := row tbl taskID = Some t /\ LeaseID t = Some leaseID in
  (RenewLease now taskID leaseID extend tbl = Err ErrLeaseNotFound <->
     ~ exists t, mine t /\ Status t ∈ renewable) /\
  (forall t, mine t -> Status t ∈ renewable ->
     exists tbl', RenewLease now taskID leaseID extend tbl = Ok tbl' /\ table_ok tbl' /\
       row tbl' taskID = Some (t <| LeaseExpiresAt := Some (now + extend * Second) |>
                                 <| UpdatedAt := now |>) /\
       forall id, id <> taskID -> row tbl' id = row tbl id) /\
  (forall tbl', ReleaseLease now taskID leaseID newStatus opts tbl = Ok tbl' ->
     leaseID <> ""%string /\
     (forall id, id <> taskID -> row tbl' id = row tbl id) /\
     (forall t, mine t -> row tbl' taskID = Some (release_set now newStatus opts t)) /\
     ((forall t, ~ mine t) -> tbl' = tbl)).
Proof.
  intros Hok mine. unfold mine. clear mine.
  destruct (RenewLease_cases now taskID leaseID extend tbl Hok) as
    [(t & tbl' & Et & Hl & Hs & Hr & Hrest) | [Hno Hr]]; rewrite Hr; split_and!.
  - split; [done|]. intros Hn. destruct Hn. eauto.
  - intros t' [Et' _] _. simplify_eq. eauto.
  - apply ReleaseLease_cases, Hok.
  - split; [|done]. intros _ (t & [Et Hl] & Hs). by apply (Hno t).
  - intros t [Et Hl] Hs. by destruct (Hno t).
  - apply ReleaseLease_cases, Hok.
Qed.

Example lease_calls_fenced_witness :
  RenewLease 100 "c" "stale" 300 table_example = Err ErrLeaseNotFound.
Proof.
  apply (lease_calls_fenced 100 "c" "stale" 300 TaskStatusQueued
           (mkReleaseOptions 0 0 "" "") table_example table_example_ok).
  intros (t & [Et Hl] & _). vm_compute in Et. injection Et as <-. discriminate Hl.
Defined.

(** ** Creation *)

(** What an INSERT does to a table that satisfies the constraints. *)
Lemma exec_insert_cases t tbl :
  table_ok tbl ->
  match exec_insert t tbl with
  | Ok tbl' =>
      tbl' = tbl ++ [t] /\ table_ok tbl' /\ row tbl (ID t) = None /\
      (forall u, u ∈ tbl -> is_some (IdempotencyKey t) = true ->
         ProjectID u = ProjectID t -> IdempotencyKey u <> IdempotencyKey t)
  | Err e =>
      (e = PqError "23514" /\ row_checks t = false) \/
      (e = PqError "23505" /\
         (row tbl (ID t) <> None \/
          exists u, u ∈ tbl /\ is_some (IdempotencyKey t) = true /\
            ProjectID u = ProjectID t /\ IdempotencyKey u = IdempotencyKey t)) \/
      (e = PqError "23503" /\ exists p, ParentTaskID t = Some p /\ p <> ID t /\ row tbl p = None)
  end.
Proof.
  intros [Hids Hidem Hchk Hpar]. unfold exec_insert, constraint_error. simpl.
  rewrite !andb_true_r. destruct (row_checks t) eqn:Hr; simpl; [|by left].
  assert (Hid : NoDup (map ID (tbl ++ [t])) <-> row tbl (ID t) = None).
  { rewrite map_app, NoDup_app, row_None. simpl.
    setoid_rewrite list_elem_of_singleton. split.
    - intros (_ & Hn & _) Hin. by apply (Hn _ Hin).
    - intros Hn. split_and!; [done| |apply NoDup_singleton]. intros x Hx ->. done. }
  assert (Hkey : NoDup (omap idem_key (tbl ++ [t])) <->
    forall u, u ∈ tbl -> is_some (IdempotencyKey t) = true ->
      ProjectID u = ProjectID t -> IdempotencyKey u <> IdempotencyKey t).
  { rewrite omap_app, NoDup_app. simpl. unfold idem_key at 3 4.
    destruct (IdempotencyKey t) as [k|] eqn:Ek; simpl.
    - setoid_rewrite list_elem_of_singleton. setoid_rewrite list_elem_of_omap. split.
      + intros (_ & Hn & _) u Hu _ Hp Hk. eapply Hn; [|reflexivity].
        exists u. split; [done|]. unfold idem_key. by rewrite Hk, Hp.
      + intros Hn. split_and!; [done| |apply NoDup_singleton].
        intros x (u & Hu & Hx) ->. unfold idem_key in Hx.
        destruct (IdempotencyKey u) as [k'|] eqn:Ek'; [|done]. simpl in Hx.
        injection Hx as Hp ->. by apply (Hn u Hu eq_refl Hp).
    - split; [by intros|]. intros _. split_and!; [done| |by apply NoDup_nil_2].
      intros x _ Hx. by apply elem_of_nil in Hx. }
  case_bool_decide as E1; simpl.
  2: { right; left. split; [done|]. left. rewrite <- Hid. done. }
  case_bool_decide as E2; simpl.
  2: { right; left. split; [done|]. right.
       destruct (decide (Exists (fun u => is_some (IdempotencyKey t) = true /\
         ProjectID u = ProjectID t /\ IdempotencyKey u = IdempotencyKey t) tbl)) as [He|He].
       - apply Exists_exists in He. naive_solver.
       - exfalso. apply E2, Hkey. intros u Hu Hs Hp Hk. apply He, Exists_exists. eauto. }
  apply Hid in E1. destruct (parent_exists (tbl ++ [t]) t) eqn:Ep; simpl.
  - split_and!; try done; [|by apply Hkey]. split.
    + by apply Hid.
    + done.
    + intros u [Hu| ->%list_elem_of_singleton]%elem_of_app; auto.
    + intros u [Hu| ->%list_elem_of_singleton]%elem_of_app; [|done].
      specialize (Hpar u Hu). unfold parent_exists in *.
      destruct (ParentTaskID u) as [p|]; [|done]. rewrite bool_decide_eq_true in *.
      rewrite map_app. apply elem_of_app. by left.
  - do 2 right. split; [done|]. unfold parent_exists in Ep.
    destruct (ParentTaskID t) as [p|]; [|done]. exists p. split; [done|].
    rewrite bool_decide_eq_false, map_app, elem_of_app in Ep. simpl in Ep.
    rewrite list_elem_of_singleton in Ep. split; [|apply row_None]; naive_solver.
Qed.

(** Storing a stored row again stores the same row. *)
Lemma inserted_row_stable `{pg : Postgres, !PostgresStable pg} t :
  inserted_row (inserted_row t) = inserted_row t.
Proof.
  unfold inserted_row. f_equal; simpl; rewrite ?ts_in_stable; try done.
  - destruct (Payload t) as [s|]; [|done]. simpl.
    destruct (jsonb_in s) as [v|] eqn:E; [|done]. simpl. by eapply jsonb_in_stable.
  - destruct (LeasedAt t); simpl; by rewrite ?ts_in_stable.
  - destruct (LeaseExpiresAt t); simpl; by rewrite ?ts_in_stable.
Qed.

Lemma scanTask_inserted `{pg : Postgres} t : scanTask (inserted_row t) = inserted_row t.
Proof. done. Qed.

Lemma Get_row id tbl :
  Get id tbl = match row tbl id with
               | Some r => Ok (scanTask r)
               | None => Err ErrNotFound
               end.
Proof. unfold Get, row. by destruct (select_rows _ tbl). Qed.

(** Creation.  [Create] fills in the defaults (QUEUED, source USER, attempt
    1 of 3, now) and, when it succeeds, the id was new, the task can be read
    back by id and by idempotency key exactly as stored, no other row changed
    and the constraints hold.  It answers [ErrDuplicateKey] only for a used id
    or idempotency key, [ErrNotFound] only for a missing parent, and passes
    every other refusal of the server through. *)
Theorem Create_spec `{pg : Postgres} now t tbl :
  table_ok tbl ->
  let t1 := create_defaults now t in
  match Create now (Some t) tbl with
  | Ok (t', tbl') =>
      t' = t1 /\ table_ok tbl' /\ row tbl (ID t) = None /\
      Get (ID t) tbl' = Ok (inserted_row t1) /\
      (forall id, id <> ID t -> Get id tbl' = Get id tbl) /\
      (forall k, IdempotencyKey t = Some k ->
         GetByIdempotencyKey (ProjectID t) k tbl' = Ok (inserted_row t1)) /\
      (Attempt t1 = if Attempt t =? 0 then 1 else Attempt t) /\
      (Status t1 = if Status t =?? TaskStatusEmpty then TaskStatusQueued else Status t)
  | Err e =>
      (exists err, bind_errors (task_binds t1) = Some err /\ e = mapDBError err) \/
      (e = ErrSQL "23514" /\ row_checks t1 = false) \/
      (e = ErrDuplicateKey /\
         (row tbl (ID t) <> None \/
          exists u, u ∈ tbl /\ is_some (IdempotencyKey t) = true /\
            ProjectID u = ProjectID t /\ IdempotencyKey u = IdempotencyKey t)) \/
      (e = ErrNotFound /\ exists p, ParentTaskID t = Some p /\ p <> ID t /\ row tbl p = None)
  end.
Proof.
  intros Hok t1. unfold Create. fold t1. unfold with_binds.
  destruct (bind_errors (task_binds t1)) as [err|] eqn:Eb; simpl; [left; eauto|].
  pose proof (exec_insert_cases (inserted_row t1) tbl Hok) as H.
  destruct (exec_insert _ tbl) as [tbl'|e]; cbn [mapDB res_bind].
  2: { right. destruct H as [(-> & H)|[(-> & H)|(-> & H)]]; auto. }
  destruct H as (-> & Hok' & Hid & Hidem). change (row tbl (ID t) = None) in Hid.
  change (forall u, u ∈ tbl -> is_some (IdempotencyKey t) = true ->
    ProjectID u = ProjectID t -> IdempotencyKey u <> IdempotencyKey t) in Hidem.
  assert (Hrow : forall id, row (tbl ++ [inserted_row t1]) id =
    match row tbl id with
    | Some r => Some r
    | None => if ID t =?? id then Some (inserted_row t1) else None
    end) by (intros id; exact (row_app tbl (inserted_row t1) id)).
  split_and!; try done.
  - by rewrite Get_row, Hrow, Hid, bool_decide_true.
  - intros id Hne. rewrite !Get_row, Hrow.
    destruct (row tbl id); [done|]. by rewrite bool_decide_false.
  - intros k Hk. unfold GetByIdempotencyKey, select_rows.
    rewrite filter_app. fold (select_rows (fun t0 => (ProjectID t0 =?? ProjectID t) &&
      (IdempotencyKey t0 =?? Some k)) tbl).
    rewrite select_rows_none, app_nil_l, filter_cons_True; [done| |].
    + apply andb_true_iff. by rewrite !bool_decide_eq_true.
    + intros u Hu. apply not_true_iff_false. intros Hb. btauto_hyps.
      apply (Hidem u Hu); [|done|]; by rewrite Hk.
Qed.

Definition new_task_example : Task :=
  (zeroTask "f") <| ProjectID := "p2"%string |> <| IdempotencyKey := Some "k1"%string |>
    <| ParentTaskID := Some "d"%string |>.

Example Create_spec_witness :
  exists t' tbl', Create (pg := pg_example) 777000 (Some new_task_example) table_example
    = Ok (t', tbl') /\ table_ok tbl' /\ Status t' = TaskStatusQueued.
Proof.
  pose proof (Create_spec (pg := pg_example) 777000 new_task_example table_example
                table_example_ok) as H.
  destruct (Create 777000 (Some new_task_example) table_example) as [[t' tbl']|e] eqn:E;
    [|vm_compute in E; done].
  destruct H as (-> & Hok & _). exists (create_defaults 777000 new_task_example), tbl'.
  split_and!; [reflexivity | exact Hok | reflexivity].
Defined.

(** The daemon's own continuations cannot be stored.  The enum type
    [task_creation_source] never received the labels CHECKPOINT and FORK, so
    [Create] refuses every checkpoint continuation and every fork, whatever the
    rest of the task and whatever the table. *)
Theorem Create_rejects_checkpoint_and_fork `{pg : Postgres} now t tbl :
  CreationSource t = TaskCreationSourceCheckpoint \/
  CreationSource t = TaskCreationSourceFork ->
  Create now (Some t) tbl = Err (ErrSQL "22P02").
Proof.
  intros Hs. unfold Create, with_binds.
  assert (E : enum_task_creation_source (CreationSource (create_defaults now t)) = false).
  { change (enum_task_creation_source (if CreationSource t =?? TaskCreationSourceOther ""
      then TaskCreationSourceUser else CreationSource t) = false).
    by destruct Hs as [-> | ->]. }
  unfold task_binds, sql_enum at 1. by rewrite E.
Qed.

Example Create_rejects_checkpoint_and_fork_witness :
  Create (pg := pg_example) 777000
    (Some (new_task_example <| CreationSource := TaskCreationSourceCheckpoint |>))
    table_example = Err (ErrSQL "22P02").
Proof. apply Create_rejects_checkpoint_and_fork. left. reflexivity. Defined.

(** Cancelling does not revoke the lease.  A leased task that is cancelled
    keeps its lease, and the holder's later [ReleaseLease] overwrites CANCELLED
    with whatever status it reports: a cancelled task can be queued again. *)
Theorem cancelled_task_can_be_released now now' id l newStatus opts tbl t :
  table_ok tbl -> row tbl id = Some t -> LeaseID t = Some l -> l <> ""%string ->
  Status t ∈ cancellable -> enum_task_status newStatus = true ->
  ro_Attempt opts = 0 -> ro_MaxAttempts opts = 0 ->
  exists tbl1 tbl2 t1,
    TransitionToCancelled now id tbl = Ok (true, tbl1) /\
    Status <$> row tbl1 id = Some TaskStatusCancelled /\
    ReleaseLease now' id l newStatus opts tbl1 = Ok tbl2 /\
    row tbl2 id = Some t1 /\ Status t1 = newStatus /\ LeaseID t1 = None.
Proof.
  intros Hok Et Hl Hne Hs Hst Ha Hm.
  destruct (cancel_row now id tbl t Hok Et Hs) as (tbl1 & E1 & Hok1 & Hrow1 & _).
  pose proof (keyed_update (release_set now' newStatus opts) tbl1 id (holds_lease l) Hok1
                ltac:(by split)) as H.
  destruct (exec_update _ _ tbl1) as [r|e] eqn:E2.
  - destruct H as (_ & Hrow & _). eexists tbl1, r.1, _.
    split; [exact E1|]. split; [by rewrite Hrow1|]. split; [|split].
    + unfold ReleaseLease, with_binds. rewrite bool_decide_false by done.
      cbn [bind_errors sql_enum sql_int4]. rewrite Hst, Ha, Hm. simpl.
      change (fun t => (ID t =?? id) && (LeaseID t =?? Some l)) with
        (fun t => (ID t =?? id) && holds_lease l t). by rewrite E2.
    + rewrite Hrow, Hrow1, bool_decide_true by done. cbn [fmap option_fmap option_map].
      change (holds_lease l (t <| Status := TaskStatusCancelled |> <| UpdatedAt := now |>))
        with (holds_lease l t). unfold holds_lease. by rewrite Hl, bool_decide_true.
    + split; reflexivity.
  - exfalso. destruct H as [_ (t' & Et' & _ & Hr)]. rewrite Hrow1 in Et'.
    injection Et' as <-. apply row_Some_1 in Et as [Ht _].
    pose proof (ok_checks _ Hok t Ht) as Hc. revert Hr.
    destruct t. unfold row_checks, release_set in *. simpl in *. rewrite Ha, Hm. simpl.
    by rewrite Hc.
Qed.

Example cancelled_task_can_be_released_witness :
  exists tbl1 tbl2 t1,
    TransitionToCancelled 100 "c" table_example = Ok (true, tbl1) /\
    Status <$> row tbl1 "c" = Some TaskStatusCancelled /\
    ReleaseLease 101 "c" "l1" TaskStatusQueued (mkReleaseOptions 0 0 "" "") tbl1 = Ok tbl2 /\
    row tbl2 "c" = Some t1 /\ Status t1 = TaskStatusQueued /\ LeaseID t1 = None.
Proof.
  apply (cancelled_task_can_be_released 100 101 "c" "l1" TaskStatusQueued
    (mkReleaseOptions 0 0 "" "") table_example
    (task_example "c" "p1" TaskStatusRunning 50 5 [] (Some "l1"%string)));
    [exact table_example_ok | reflexivity | reflexivity | discriminate | |
     reflexivity | reflexivity | reflexivity].
  apply (bool_decide_unpack _). vm_compute. exact I.
Defined.

(** ** Queries *)

(** [FindExpiredLeases] finds expired leases and only those, oldest first.
    Every task it returns is a QUEUED, LEASED or RUNNING row whose lease expired
    strictly before now; they come in order of expiry, at most [limit] of them;
    and an expired row it leaves out expired no earlier than any row it returns,
    in particular none is left out while there is room. *)
Theorem FindExpiredLeases_spec now limit tbl :
  0 <= limit -> NoDup (map ID tbl) ->
  exists l, FindExpiredLeases now limit tbl = Ok (map scanTask l) /\
    Z.of_nat (length l) <= limit /\
    StronglySorted (fun a b => lex_le (lease_expiry_key a) (lease_expiry_key b)) l /\
    (forall t, t ∈ l -> t ∈ tbl /\ Status t ∈ recoverable /\
       exists e, LeaseExpiresAt t = Some e /\ e < now) /\
    (forall t e, t ∈ tbl -> Status t ∈ recoverable -> LeaseExpiresAt t = Some e ->
       e < now -> t ∉ l ->
       Z.of_nat (length l) = limit /\
       forall u, u ∈ l -> lex_le (lease_expiry_key u) (lease_expiry_key t)).
Proof.
  intros Hlim Hnd. unfold FindExpiredLeases. destruct (Z.ltb_spec limit 0); [lia|].
  set (expired := select_rows (fun t => status_in recoverable t && lease_expired now t) tbl).
  set (sorted := order_by lease_expiry_key expired).
  assert (Hel : forall t, t ∈ sorted <-> t ∈ tbl /\ Status t ∈ recoverable /\
            exists e, LeaseExpiresAt t = Some e /\ e < now).
  { intros t. unfold sorted, expired. rewrite elem_of_order_by, elem_of_select_rows,
      andb_true_iff, status_in_spec. unfold lease_expired.
    destruct (LeaseExpiresAt t) as [e|]; [rewrite Z.ltb_lt|]; naive_solver. }
  pose proof (order_by_sorted lease_expiry_key expired) as Hs. fold sorted in Hs.
  exists (take (Z.to_nat limit) sorted). split_and!; [done | | | |].
  - rewrite length_take. lia.
  - by eapply StronglySorted_sublist; [apply sublist_take|].
  - intros t Ht. apply Hel. eapply sublist_elem_of'; [apply sublist_take|done].
  - intros t e Ht Hst He Hlt Hn.
    assert (Hin : t ∈ sorted) by (apply Hel; eauto).
    rewrite <- (take_drop (Z.to_nat limit) sorted) in Hin, Hs.
    apply elem_of_app in Hin as [Hin|Hin]; [done|]. split.
    + rewrite length_take. destruct (decide (Z.to_nat limit <= length sorted)%nat); [lia|].
      rewrite drop_ge in Hin by lia. by apply elem_of_nil in Hin.
    + intros u Hu. by eapply StronglySorted_app_1_elem_of in Hs.
Qed.

Definition expired_example : Task :=
  (task_example "c" "p1" TaskStatusRunning 50 5 [] (Some "l1"%string))
    <| LeaseExpiresAt := Some 40 |>.

Example FindExpiredLeases_spec_witness :
  exists l, FindExpiredLeases 100 10
    [expired_example] = Ok (map scanTask l) /\ Z.of_nat (length l) <= 10.
Proof.
  destruct (FindExpiredLeases_spec 100 10
    [expired_example]) as (l & E & Hl & _);
    [by vm_compute | apply NoDup_singleton |].
  exists l. split; [exact E | exact Hl].
Defined.

(** Collecting the rows of a GROUP BY in a map. *)
Lemma group_lookup {K} `{Countable K} (ks : list K) (n : K -> Z) (m : gmap K Z) k :
  foldl (fun counts row => <[fst row := snd row]> counts) m (map (fun k => (k, n k)) ks) !! k =
  if decide (k ∈ ks) then Some (n k) else m !! k.
Proof.
  revert m. induction ks as [|x ks IH]; intros m; cbn [map foldl].
  { rewrite decide_False; [done|apply not_elem_of_nil]. }
  rewrite IH. destruct (decide (k ∈ ks)) as [Hk|Hk].
  - rewrite decide_True; [done|by right].
  - destruct (decide (k = x)) as [->|Hne].
    + rewrite decide_True by left. by rewrite lookup_insert_eq.
    + rewrite lookup_insert_ne by done. rewrite decide_False; [done|].
      by rewrite not_elem_of_cons.
Qed.

Lemma CountByStatus_lookup projectID tbl s :
  let n := count_if (fun t => in_project projectID t && (Status t =?? s)) tbl in
  CountByStatus projectID tbl !! s = if (n =? 0)%nat then None else Some (Z.of_nat n).
Proof.
  intros n. unfold CountByStatus, status_groups. rewrite group_lookup.
  set (rows := select_rows (in_project projectID) tbl).
  assert (E : count_if (fun t => Status t =?? s) rows = n).
  { apply count_if_filter. }
  rewrite E. destruct (decide (s ∈ remove_dups (map Status rows))) as [Hin|Hin];
    rewrite elem_of_remove_dups in Hin.
  - destruct (Nat.eqb_spec n 0) as [Hn|]; [|done]. exfalso.
    apply list_elem_of_fmap in Hin as (t & -> & Ht). rewrite <- E, count_if_zero in Hn.
    specialize (Hn t Ht). by btauto_hyps.
  - destruct (Nat.eqb_spec n 0) as [Hn|Hn]; [by rewrite lookup_empty|]. exfalso.
    rewrite <- E in Hn. assert (Hp : (0 < count_if (fun t => Status t =?? s) rows)%nat) by lia.
    apply count_if_pos in Hp as (t & Ht & Hs). btauto_hyps. subst.
    apply Hin, list_elem_of_fmap. eauto.
Qed.

(** [CountByStatus] is exact.  A status maps to the number of tasks of the
    project (of every project, for the empty id) that have it, and a status no
    task has is absent from the map. *)
Theorem CountByStatus_spec projectID tbl s :
  let n := count_if (fun t => in_project projectID t && (Status t =?? s)) tbl in
  CountByStatus projectID tbl !! s = if (n =? 0)%nat then None else Some (Z.of_nat n).
Proof. apply CountByStatus_lookup. Qed.
