(* ===== verification/TaskRepoSafety.v ===== *)
(** * Safety of interleaved repository calls

    Each repository call is one SQL statement, so concurrent schedulers,
    executors and handlers act on the table by some interleaving of calls.
    [call] names the calls, [exec_call] runs one, and a run is a list of calls.
    Two properties of runs follow: a leased task is not leased again until
    someone gives its lease up, and a project stays within its concurrency cap. *)
From S2P Require Import Prelude TaskModel TaskRepo TaskRepoFacts.

(** ** Calls and runs *)

Inductive call : Type :=
| CallCreate (now : time) (t : Task)
| CallUpdate (now : time) (t : Task)
| CallDelete (id : string)
| CallUpdateStatus (now : time) (id : string) (status : TaskStatus)
| CallTransitionToCancelled (now : time) (id : string)
| CallTransitionConditional (now : time) (id : string) (from : list TaskStatus)
    (to : TaskStatus) (opts : TransitionOpts)
| CallRequeueTerminalTask (now : time) (id : string) (attempt maxAttempts : Z)
| CallLeaseTask (now : time) (leaseID : string) (locked : gset string)
    (opts : LeaseOptions)
| CallRenewLease (now : time) (id leaseID : string) (extendBySeconds : Z)
| CallReleaseLease (now : time) (id leaseID : string) (newStatus : TaskStatus)
    (opts : ReleaseOptions).

Section Runs.
Context `{pg : Postgres}.

Definition exec_call (c : call) (tbl : Table) : result RepoError Table :=
  match c with
  | CallCreate now t => let! r := Create now (Some t) tbl in Ok r.2
  | CallUpdate now t => let! r := Update now (Some t) tbl in Ok r.2
  | CallDelete id => Delete id tbl
  | CallUpdateStatus now id st => UpdateStatus now id st tbl
  | CallTransitionToCancelled now id => let! r := TransitionToCancelled now id tbl in Ok r.2
  | CallTransitionConditional now id from to opts =>
      let! r := TransitionConditional now id from to opts tbl in Ok r.2
  | CallRequeueTerminalTask now id a m =>
      let! r := RequeueTerminalTask now id a m tbl in Ok r.2
  | CallLeaseTask now l locked opts => let! r := LeaseTask now (Some l) locked opts tbl in Ok r.2
  | CallRenewLease now id l ext => RenewLease now id l ext tbl
  | CallReleaseLease now id l st opts => ReleaseLease now id l st opts tbl
  end.

(** A call that fails leaves the table as it was. *)
Definition apply_call (tbl : Table) (c : call) : Table :=
  match exec_call c tbl with Ok tbl' => tbl' | Err _ => tbl end.

Definition run_calls (cs : list call) (tbl : Table) : Table := foldl apply_call tbl cs.

(** The calls that end the lease [l] of the task [id], or rewrite its row
    wholesale. *)
Definition gives_up (id l : string) (c : call) : bool :=
  match c with
  | CallUpdate _ t => ID t =?? id
  | CallDelete id' => id' =?? id
  | CallTransitionConditional _ id' _ _ opts => (id' =?? id) && opt_ClearLease opts
  | CallRequeueTerminalTask _ id' _ _ => id' =?? id
  | CallReleaseLease _ id' l' _ _ => (id' =?? id) && (l' =?? l)
  | CallCreate _ _ | CallUpdateStatus _ _ _ | CallTransitionToCancelled _ _
  | CallLeaseTask _ _ _ _ | CallRenewLease _ _ _ _ => false
  end.

(** ** One call *)

(** The shape of every call's effect: nothing, a new row, a deletion or an
    update of the rows that satisfy a condition. *)
Inductive effect (tbl : Table) : call -> Table -> Prop :=
| eff_none c : effect tbl c tbl
| eff_create now t :
    row tbl (ID t) = None ->
    effect tbl (CallCreate now t) (tbl ++ [inserted_row (create_defaults now t)])
| eff_update now t :
    effect tbl (CallUpdate now t)
      (update_rows (fun r => ID r =?? ID t) (updated_row (t <| UpdatedAt := now |>)) tbl)
| eff_delete id :
    effect tbl (CallDelete id)
      (update_rows (fun t => ParentTaskID t =?? Some id) (fun t => t <| ParentTaskID := None |>)
         (filter (fun t => negb (ID t =?? id) = true) tbl))
| eff_status now id st :
    effect tbl (CallUpdateStatus now id st)
      (update_rows (fun t => ID t =?? id)
         (fun t => t <| Status := st |> <| UpdatedAt := now |>) tbl)
| eff_cancel now id :
    effect tbl (CallTransitionToCancelled now id)
      (update_rows (fun t => (ID t =?? id) && status_in cancellable t)
         (fun t => t <| Status := TaskStatusCancelled |> <| UpdatedAt := now |>) tbl)
| eff_transition now id from to opts :
    effect tbl (CallTransitionConditional now id from to opts)
      (update_rows (fun t => (ID t =?? id) && status_in from t)
         (transition_set now to opts) tbl)
| eff_requeue now id a m :
    effect tbl (CallRequeueTerminalTask now id a m)
      (update_rows (fun t => (ID t =?? id) && status_in requeueable t)
         (requeue_set now a m) tbl)
| eff_lease now l locked opts c :
    candidate locked opts tbl = Some c ->
    effect tbl (CallLeaseTask now l locked opts)
      (update_rows (fun t => ID t =?? ID c) (lease_set now l opts) tbl)
| eff_renew now id l ext :
    effect tbl (CallRenewLease now id l ext)
      (update_rows (fun t => (ID t =?? id) && ((LeaseID t =?? Some l) && status_in renewable t))
         (fun t => t <| LeaseExpiresAt := Some (now + ext * Second) |> <| UpdatedAt := now |>) tbl)
| eff_release now id l st opts :
    effect tbl (CallReleaseLease now id l st opts)
      (update_rows (fun t => (ID t =?? id) && (LeaseID t =?? Some l))
         (release_set now st opts) tbl).

Lemma exec_update_effect tests p f tbl r :
  mapDB (with_binds tests (exec_update p f tbl)) = Ok r -> r.1 = update_rows p f tbl.
Proof.
  unfold with_binds. destruct (bind_errors tests); [done|].
  destruct (exec_update p f tbl) as [r'|e] eqn:E; [|done]. simpl. intros [= <-].
  by apply exec_update_Ok in E as ->.
Qed.

Lemma apply_call_effect tbl c : effect tbl c (apply_call tbl c).
Proof.
  unfold apply_call. destruct (exec_call c tbl) as [tbl'|e] eqn:E; [|constructor].
  destruct c; simpl in E.
  - apply res_bind_ok in E as ([t' tbl1] & E & [= <-]). simpl.
    unfold Create, with_binds in E. destruct (bind_errors _); [done|].
    unfold exec_insert in E. destruct (constraint_error _ _) as [err|] eqn:Ec; [done|].
    simpl in E. injection E as _ <-. apply eff_create.
    unfold constraint_error in Ec. destruct (negb (forallb _ _)) eqn:E1; [done|].
    case_bool_decide as Hnd; [|done].
    rewrite map_app, NoDup_app in Hnd. destruct Hnd as (_ & Hn & _).
    apply row_None. intros Hin. apply (Hn _ Hin). by left.
  - apply res_bind_ok in E as ([t' tbl1] & E & [= <-]). simpl.
    unfold Update in E. apply res_bind_ok in E as (r & E & [= _ <-]).
    rewrite (exec_update_effect _ _ _ _ _ E). apply eff_update.
  - injection E as <-. apply eff_delete.
  - apply res_bind_ok in E as (r & E & [= <-]).
    rewrite (exec_update_effect _ _ _ _ _ E). apply eff_status.
  - apply res_bind_ok in E as ([b tbl1] & E & [= <-]).
    apply res_bind_ok in E as (r & E & [= _ <-]).
    rewrite (exec_update_effect [] _ _ _ _ E). apply eff_cancel.
  - apply res_bind_ok in E as ([b tbl1] & E & [= <-]). unfold TransitionConditional in E.
    case_match; [done|]. apply res_bind_ok in E as (r & E & [= _ <-]).
    rewrite (exec_update_effect _ _ _ _ _ E). apply eff_transition.
  - apply res_bind_ok in E as ([b tbl1] & E & [= <-]).
    apply res_bind_ok in E as (r & E & [= _ <-]).
    rewrite (exec_update_effect _ _ _ _ _ E). apply eff_requeue.
  - apply res_bind_ok in E as ([t tbl1] & E & [= <-]).
    apply LeaseTask_Ok in E as (cand & r & Ec & -> & _). by apply eff_lease.
  - apply res_bind_ok in E as (r & E & E'). case_match; [|done]. injection E' as <-.
    rewrite (exec_update_effect [] _ _ _ _ E). apply eff_renew.
  - unfold ReleaseLease in E. case_match; [done|].
    apply res_bind_ok in E as (r & E & [= <-]).
    rewrite (exec_update_effect _ _ _ _ _ E). apply eff_release.
Qed.

(** Ids stay unique. *)
Lemma update_rows_ids' p f (tbl : Table) :
  (forall t, ID (f t) = ID t) -> map ID (update_rows p f tbl) = map ID tbl.
Proof.
  intros Hf. unfold update_rows. rewrite map_map. apply map_ext. intros t.
  by destruct (p t).
Qed.

Lemma effect_NoDup tbl c tbl' :
  effect tbl c tbl' -> NoDup (map ID tbl) -> NoDup (map ID tbl').
Proof.
  intros He Hnd. destruct He; rewrite ?update_rows_ids' by (intros; reflexivity); try done.
  - rewrite map_app. apply NoDup_app. split_and!; [done| |apply NoDup_singleton].
    intros x Hx ->%list_elem_of_singleton. by apply row_None in H.
  - eapply sublist_NoDup; [exact Hnd|]. apply (fmap_sublist ID), sublist_filter.
Qed.

(** ** Exclusive leases *)

(** The task [id] is under the lease [l]. *)
Definition held (id l : string) (tbl : Table) : Prop :=
  exists t, row tbl id = Some t /\ LeaseID t = Some l.

Lemma held_update id l p f (tbl : Table) :
  (forall t, ID (f t) = ID t) ->
  (forall t, row tbl id = Some t -> LeaseID t = Some l -> p t = true -> LeaseID (f t) = Some l) ->
  held id l tbl -> held id l (update_rows p f tbl).
Proof.
  intros Hid Hf (t & Et & Hl). unfold held. rewrite row_update_rows, Et by done.
  eexists. split; [reflexivity|]. destruct (p t) eqn:Ep; auto.
Qed.

Lemma row_filter_other id id' tbl :
  id <> id' -> row (filter (fun t => negb (ID t =?? id') = true) tbl) id = row tbl id.
Proof.
  intros Hne. induction tbl as [|t tbl IH]; [done|].
  rewrite row_cons, filter_cons. case_decide as Hd.
  - rewrite row_cons, IH. done.
  - rewrite IH. rewrite bool_decide_false; [done|]. intros <-. apply Hd.
    by rewrite bool_decide_false.
Qed.

Lemma candidate_not_held id l locked opts tbl c r :
  NoDup (map ID tbl) -> candidate locked opts tbl = Some c ->
  row tbl id = Some r -> LeaseID r = Some l -> ID c <> id.
Proof.
  intros Hnd (Hc & Hel & _)%candidate_Some Er Hl <-.
  assert (r = c) as ->.
  { assert (E : row tbl (ID c) = Some c) by by apply row_Some. congruence. }
  apply eligible_spec in Hel. by rewrite (el_unleased _ _ _ Hel) in Hl.
Qed.

Lemma held_effect id l tbl c tbl' :
  effect tbl c tbl' -> NoDup (map ID tbl) -> gives_up id l c = false ->
  held id l tbl -> held id l tbl'.
Proof.
  intros He Hnd Hg Hh.
  destruct He as [c|now t Hrow|now t|id'|now id' st|now id'|now id' from to opts|now id' a m
                 |now l' locked opts c Hc|now id' l' ext|now id' l' st opts]; simpl in Hg.
  - done.
  - destruct Hh as (r & Er & Hl). exists r. by rewrite row_app, Er.
  - apply held_update; [reflexivity| |done]. intros r Er Hl Hp.
    apply row_Some_1 in Er as [_ <-]. btauto_hyps. congruence.
  - btauto_hyps. apply held_update; [reflexivity | by intros |].
    destruct Hh as (r & Er & Hl). exists r. by rewrite row_filter_other.
  - apply held_update; [reflexivity | by intros | done].
  - apply held_update; [reflexivity | by intros | done].
  - apply held_update; [reflexivity| |done]. intros r Er Hl Hp.
    apply row_Some_1 in Er as [_ <-]. btauto_hyps. subst.
    rewrite bool_decide_true in Hg by done. simpl in Hg. simpl. by rewrite Hg.
  - apply held_update; [reflexivity| |done]. intros r Er Hl Hp.
    apply row_Some_1 in Er as [_ <-]. btauto_hyps. congruence.
  - apply held_update; [reflexivity| |done]. intros r Er Hl Hp. btauto_hyps.
    pose proof (candidate_not_held _ _ _ _ _ _ _ Hnd Hc Er Hl).
    apply row_Some_1 in Er as [_ <-]. congruence.
  - apply held_update; [reflexivity | by intros | done].
  - apply held_update; [reflexivity| |done]. intros r Er Hl Hp.
    apply row_Some_1 in Er as [_ <-]. btauto_hyps. subst. rewrite Hl in *. simplify_eq.
    by rewrite !bool_decide_true in Hg.
Qed.

Lemma held_run id l cs tbl :
  NoDup (map ID tbl) -> Forall (fun c => gives_up id l c = false) cs ->
  held id l tbl -> NoDup (map ID (run_calls cs tbl)) /\ held id l (run_calls cs tbl).
Proof.
  revert tbl. induction cs as [|c cs IH]; intros tbl Hnd Hcs Hh; [done|].
  apply Forall_cons in Hcs as [Hc Hcs]. pose proof (apply_call_effect tbl c) as He.
  apply IH; [by eapply effect_NoDup | done | by eapply held_effect].
Qed.

(** C2: a lease is exclusive.  Once [LeaseTask] has handed out a task, then
    whatever calls the other processes interleave (further leases, renewals,
    cancellations, status changes, releases under other lease ids), as long as
    none of them gives this lease up or rewrites or deletes the task, the task
    is still under the same lease and no [LeaseTask] call hands it out again. *)
Theorem lease_exclusive now l locked opts tbl t tbl1 cs :
  NoDup (map ID tbl) ->
  LeaseTask now (Some l) locked opts tbl = Ok (t, tbl1) ->
  Forall (fun c => gives_up (ID t) l c = false) cs ->
  held (ID t) l (run_calls cs tbl1) /\
  forall now' l' locked' opts' t' tbl2,
    LeaseTask now' (Some l') locked' opts' (run_calls cs tbl1) = Ok (t', tbl2) ->
    ID t' <> ID t.
Proof.
  intros Hnd Hl Hcs. apply LeaseTask_Ok in Hl as (c & r & Hc & -> & Hr & ->).
  destruct (row_Some_1 _ _ _ Hr) as [_ Hid]. change (ID (scanTask r)) with (ID r) in *.
  assert (Hh : held (ID r) l (update_rows (fun t => ID t =?? ID c) (lease_set now l opts) tbl)).
  { exists r. rewrite Hid. split; [done|]. rewrite row_update_rows in Hr by (intros; reflexivity).
    destruct (row tbl (ID c)) as [x|] eqn:Ex; [|done]. apply row_Some_1 in Ex as [_ Ex].
    simpl in Hr. rewrite bool_decide_true in Hr by done. by injection Hr as <-. }
  apply (held_run _ _ cs) in Hh as [Hnd' Hh]; [|by rewrite update_rows_ids'|done].
  split; [done|]. intros now' l' locked' opts' t' tbl2 Hl'.
  apply LeaseTask_Ok in Hl' as (c' & r' & Hc' & _ & Hr' & ->).
  change (ID (scanTask r')) with (ID r'). destruct (row_Some_1 _ _ _ Hr') as [_ ->].
  destruct Hh as (x & Ex & Hx). by eapply candidate_not_held.
Qed.

(** ** Concurrency caps *)

(** The calls that cannot put one more task of the project [pid] in a slot,
    except for leases that carry the cap: status changes start a task only when
    it occupies a slot already, and requeues clear the lease. *)
Definition slot_safe (pid : string) (cap : Z) (tbl : Table) (c : call) : Prop :=
  match c with
  | CallLeaseTask _ _ _ opts => (pid, cap) ∈ limits_cte opts
  | CallCreate now t => active_slot (inserted_row (create_defaults now t)) = false
  | CallUpdate _ _ => False
  | CallUpdateStatus _ id st =>
      (st ∉ [TaskStatusLeased; TaskStatusRunning; TaskStatusQueued]) \/
      forall t, row tbl id = Some t -> active_slot t = true
  | CallTransitionConditional _ _ _ to opts =>
      (to ∉ [TaskStatusLeased; TaskStatusRunning]) /\
      (to <> TaskStatusQueued \/ opt_ClearLease opts = true)
  | CallReleaseLease _ _ _ st _ => st ∉ [TaskStatusLeased; TaskStatusRunning]
  | CallDelete _ | CallTransitionToCancelled _ _ | CallRequeueTerminalTask _ _ _ _
  | CallRenewLease _ _ _ _ => True
  end.

Fixpoint slot_run (pid : string) (cap : Z) (tbl : Table) (cs : list call) : Prop :=
  match cs with
  | [] => True
  | c :: cs => slot_safe pid cap tbl c /\ slot_run pid cap (apply_call tbl c) cs
  end.

Lemma active_slot_iff t :
  active_slot t = true <->
  Status t = TaskStatusLeased \/ Status t = TaskStatusRunning \/
  (Status t = TaskStatusQueued /\ LeaseID t <> None).
Proof.
  unfold active_slot. rewrite orb_true_iff, andb_true_iff, status_in_spec, bool_decide_eq_true.
  rewrite !elem_of_cons, elem_of_nil. unfold is_some. destruct (LeaseID t); naive_solver.
Qed.

(** An update that opens no slot does not raise the count. *)
Lemma active_count_update_le p f tbl pid :
  (forall t, ProjectID (f t) = ProjectID t) ->
  (forall t, t ∈ tbl -> p t = true -> active_slot (f t) = true -> active_slot t = true) ->
  active_count (update_rows p f tbl) pid <= active_count tbl pid.
Proof.
  intros Hpid Hslot. unfold active_count, update_rows. rewrite count_if_map.
  apply inj_le, count_if_mono. intros t Ht. destruct (p t) eqn:Ep; [|done].
  rewrite Hpid, !andb_true_iff. naive_solver.
Qed.

Lemma active_count_filter_le P `{forall t, Decision (P t)} tbl pid :
  active_count (filter P tbl) pid <= active_count tbl pid.
Proof.
  unfold active_count. apply inj_le. induction tbl as [|t tbl IH]; [done|].
  rewrite filter_cons, count_if_cons. case_decide; rewrite ?count_if_cons; lia.
Qed.

(** Leasing takes one slot of the leased task's project. *)
Lemma active_count_lease now l opts tbl c pid :
  NoDup (map ID tbl) -> c ∈ tbl -> active_slot c = false ->
  active_count (update_rows (fun t => ID t =?? ID c) (lease_set now l opts) tbl) pid =
  active_count tbl pid + (if ProjectID c =?? pid then 1 else 0).
Proof.
  intros Hnd Hc Hs. unfold active_count.
  pose proof (count_if_update_row (fun t => (ProjectID t =?? pid) && active_slot t)
                (lease_set now l opts) tbl c Hnd Hc) as H. cbv beta in H.
  rewrite Hs, andb_false_r in H.
  change (ProjectID (lease_set now l opts c)) with (ProjectID c) in H.
  change (active_slot (lease_set now l opts c)) with true in H. rewrite andb_true_r in H.
  destruct (ProjectID c =?? pid); lia.
Qed.

Lemma effect_cap pid cap tbl c tbl' :
  1 <= cap -> NoDup (map ID tbl) -> effect tbl c tbl' -> slot_safe pid cap tbl c ->
  active_count tbl pid <= cap -> active_count tbl' pid <= cap.
Proof.
  intros Hcap Hnd He Hsafe Hle.
  destruct He as [c|now t Hrow|now t|id'|now id' st|now id'|now id' from to opts|now id' a m
                 |now l' locked opts c Hc|now id' l' ext|now id' l' st opts]; simpl in Hsafe.
  - done.
  - unfold active_count. rewrite count_if_app, count_if_cons, count_if_nil, Hsafe, andb_false_r.
    unfold active_count in Hle. lia.
  - done.
  - etrans; [apply active_count_update_le; [reflexivity | by intros]|].
    etrans; [|exact Hle]. apply active_count_filter_le.
  - etrans; [|exact Hle]. apply active_count_update_le; [reflexivity|].
    intros t Ht Hp Hs. btauto_hyps. destruct Hsafe as [Hst|Hrow].
    + exfalso. apply Hst. apply active_slot_iff in Hs. simpl in Hs. set_solver.
    + apply Hrow. by apply row_Some.
  - etrans; [|exact Hle]. apply active_count_update_le; [reflexivity|].
    intros t Ht Hp Hs%active_slot_iff. simpl in Hs. naive_solver.
  - etrans; [|exact Hle]. apply active_count_update_le; [reflexivity|].
    intros t Ht Hp Hs%active_slot_iff. simpl in Hs. exfalso.
    destruct Hsafe as [Hto [Hq|Hcl]]; [set_solver|]. rewrite Hcl in Hs. set_solver.
  - etrans; [|exact Hle]. apply active_count_update_le; [reflexivity|].
    intros t Ht Hp Hs%active_slot_iff. simpl in Hs. naive_solver.
  - pose proof (candidate_Some _ _ _ _ Hc) as (Hin & Hel%eligible_spec & _ & _).
    rewrite active_count_lease; [|done|done|].
    + destruct (bool_decide_reflect (ProjectID c = pid)) as [Hp|Hp]; [|lia]. subst pid. destruct (el_cap _ _ _ Hel cap Hsafe); lia.
    + apply not_true_iff_false. rewrite active_slot_iff, (el_queued _ _ _ Hel),
        (el_unleased _ _ _ Hel). naive_solver.
  - etrans; [|exact Hle]. apply active_count_update_le; [reflexivity|]. by intros.
  - etrans; [|exact Hle]. apply active_count_update_le; [reflexivity|].
    intros t Ht Hp Hs%active_slot_iff. simpl in Hs. set_solver.
Qed.


End Runs.

(** ** The examples *)

Definition calls_example : list call :=
  [ CallLeaseTask 100 "l2" ∅ lease_opts_example;
    CallRenewLease 110 "a" "l2" 300;
    CallReleaseLease 111 "c" "stale" TaskStatusQueued (mkReleaseOptions 0 0 "" "") ].


Example lease_exclusive_witness :
  exists t tbl1, LeaseTask 100 (Some "l2"%string) ∅ lease_opts_example table_example
                   = Ok (t, tbl1) /\
    held "a" "l2" (run_calls (pg := pg_example) (tail calls_example) tbl1).
Proof.
  assert (E : exists t tbl', LeaseTask 100 (Some "l2"%string) ∅
             lease_opts_example table_example = Ok (t, tbl') /\ ID t = "a"%string).
  { eexists _, _. split; [vm_compute; reflexivity | reflexivity]. }
  destruct E as (t & tbl1 & E & Hid). exists t, tbl1. split; [exact E|].
  rewrite <- Hid.
  apply (lease_exclusive (pg := pg_example) 100 "l2" ∅ lease_opts_example table_example t tbl1);
    [apply table_example_ok | exact E |].
  rewrite Hid. repeat apply Forall_cons_2; [reflexivity.. | apply Forall_nil_2].
Defined.
