(* ===== verification/TaskRepoTypes.v ===== *)
(** * The stored tasks stay well typed

    The columns of [tasks] have types (enums, 32-bit integers, JSONB) and the table
    has constraints; every repository call, whoever makes it and in whatever
    order, keeps both. *)
From S2P Require Import Prelude TaskModel TaskRepo TaskRepoFacts TaskRepoSafety.

Section Types.
Context `{pg : Postgres}.

(** The enum and integer columns of a row. *)
Definition columns_ok (t : Task) : bool :=
  enum_task_creation_source (CreationSource t) &&
  opt_filter (DelegationModeOf t) enum_delegation_mode &&
  enum_task_status (Status t) && int32_fits (Priority t) &&
  int32_fits (Attempt t) && int32_fits (MaxAttempts t).

(** The payload column holds a document the server has parsed. *)
Definition payload_stored (t : Task) : Prop :=
  forall v, Payload t = Some v -> exists s, jsonb_in s = Some v.

Record well_typed (tbl : Table) : Prop := {
  wt_table : table_ok tbl;
  wt_columns t : t ∈ tbl -> columns_ok t = true;
  wt_payload t : t ∈ tbl -> payload_stored t
}.

Lemma bind_errors_None tests :
  bind_errors tests = None <-> Forall (fun x => x.1 = true) tests.
Proof.
  induction tests as [|[[] code] tests IH]; simpl; rewrite ?Forall_cons, ?Forall_nil; naive_solver.
Qed.

Lemma with_binds_Ok {A} tests (k : result DBError A) r :
  mapDB (with_binds tests k) = Ok r -> Forall (fun x => x.1 = true) tests /\ k = Ok r.
Proof.
  unfold with_binds. destruct (bind_errors tests) eqn:E; [done|]. apply bind_errors_None in E.
  destruct k; [|done]. by intros [= ->].
Qed.

Lemma jsonb_col_stored p v : jsonb_col p = Some v -> exists s, jsonb_in s = Some v.
Proof. unfold jsonb_col. destruct p; simpl; [eauto|done]. Qed.

(** ** Statements *)

Lemma constraint_error_None touched new :
  constraint_error touched new = None ->
  (forall t, t ∈ touched -> row_checks t = true /\ parent_exists new t = true) /\
  NoDup (map ID new) /\ NoDup (omap idem_key new).
Proof.
  unfold constraint_error. destruct (forallb row_checks touched) eqn:E1; [|done].
  destruct (bool_decide (NoDup (map ID new)) && bool_decide (NoDup (omap idem_key new))) eqn:E2; [|done].
  destruct (forallb (parent_exists new) touched) eqn:E3; [|done]. intros _.
  rewrite forallb_elem in E1, E3. btauto_hyps. auto.
Qed.

Lemma exec_insert_typed t tbl tbl' :
  columns_ok t = true -> payload_stored t -> well_typed tbl ->
  exec_insert t tbl = Ok tbl' -> well_typed tbl'.
Proof.
  intros Hc Hp [[Hids Hidem Hchk Hpar] Hcol Hpay]. unfold exec_insert.
  destruct (constraint_error _ _) eqn:E; [done|]. intros [= <-].
  apply constraint_error_None in E as (Ht & Hids' & Hidem').
  destruct (Ht t ltac:(left)) as [Hct Hpt].
  split; [split; [done|done| |]| |]; intros x [Hx| ->%list_elem_of_singleton]%elem_of_app; auto.
  specialize (Hpar x Hx). unfold parent_exists in *. destruct (ParentTaskID x); [|done].
  rewrite bool_decide_eq_true in Hpar |- *. rewrite map_app. set_solver.
Qed.

(** An update that keeps the ids and writes columns of their types. *)
Definition typed_update (p : Task -> bool) (f : Task -> Task) : Prop :=
  forall t, ID (f t) = ID t /\
    (p t = true -> columns_ok t = true -> columns_ok (f t) = true) /\
    (p t = true -> payload_stored t -> payload_stored (f t)).

Lemma exec_update_typed p f tbl r :
  typed_update p f -> well_typed tbl -> exec_update p f tbl = Ok r -> well_typed r.1.
Proof.
  intros Hf [[Hids Hidem Hchk Hpar] Hcol Hpay]. unfold exec_update.
  destruct (constraint_error _ _) eqn:E; [done|]. intros [= <-]. cbn [fst].
  apply constraint_error_None in E as (Ht & Hids' & Hidem').
  assert (Htouch : forall x, x ∈ tbl -> p x = true ->
            row_checks (f x) = true /\ parent_exists (update_rows p f tbl) (f x) = true).
  { intros x Hx Hpx. apply Ht, list_elem_of_fmap. exists x. split; [done|].
    by apply list_elem_of_filter. }
  split; [split; [done|done| |]| |]; intros t (x & Hx & ->)%elem_of_update_rows;
    destruct (p x) eqn:Hpx; auto; try by (apply Htouch || apply (Hf x); auto).
  specialize (Hpar x Hx). unfold parent_exists in *. destruct (ParentTaskID x); [|done].
  rewrite update_rows_ids'; [done|]. intros y. apply (Hf y).
Qed.

Lemma bound_update_typed tests p f tbl r :
  (Forall (fun x => x.1 = true) tests -> typed_update p f) -> well_typed tbl ->
  mapDB (with_binds tests (exec_update p f tbl)) = Ok r -> well_typed r.1.
Proof. intros Hf Ht [H E]%with_binds_Ok. by apply (exec_update_typed p f tbl r (Hf H)). Qed.

(** An update of the status and the attempt counters only, as far as the typed
    columns go. *)
Lemma counters_update p f st att max :
  (forall t, ID (f t) = ID t /\ CreationSource (f t) = CreationSource t /\
     DelegationModeOf (f t) = DelegationModeOf t /\ Priority (f t) = Priority t /\
     Payload (f t) = Payload t /\ Status (f t) = st t /\ Attempt (f t) = att t /\
     MaxAttempts (f t) = max t) ->
  (forall t, columns_ok t = true ->
     enum_task_status (st t) && int32_fits (att t) && int32_fits (max t) = true) ->
  typed_update p f.
Proof.
  intros Hf Hok t. destruct (Hf t) as (H1 & H2 & H3 & H4 & H5 & H6 & H7 & H8).
  split_and!; [done| |].
  - intros _ Hc. specialize (Hok t Hc). unfold columns_ok in *.
    rewrite H2, H3, H4, H6, H7, H8. btauto_hyps. by rewrite !andb_true_iff.
  - intros _. unfold payload_stored. by rewrite H5.
Qed.

(** What [columns_ok] says of one column. *)
Lemma columns_ok_counters t :
  columns_ok t = true -> enum_task_status (Status t) = true /\
    int32_fits (Attempt t) = true /\ int32_fits (MaxAttempts t) = true.
Proof. unfold columns_ok. intros H. by btauto_hyps. Qed.

Ltac solve_counters :=
  let x := fresh "t" in let Hc := fresh "Hc" in
  intros x Hc; apply columns_ok_counters in Hc as (? & ? & ?);
  rewrite !andb_true_iff; split_and!; repeat case_match; done.

Lemma set_pos_fits v old :
  int32_fits (set_pos v 0) = true -> int32_fits old = true -> int32_fits (set_pos v old) = true.
Proof. unfold set_pos. by destruct (0 <? v). Qed.

Ltac split_binds H :=
  repeat (apply Forall_cons in H as [?Hb H]); cbn [fst sql_enum sql_int4] in *.

Lemma create_typed now t tbl t' tbl' :
  well_typed tbl -> Create now (Some t) tbl = Ok (t', tbl') -> well_typed tbl'.
Proof.
  intros Ht E. cbn [Create] in E. apply res_bind_ok in E as (tbl1 & E & [= _ <-]).
  apply with_binds_Ok in E as [Hb E]. unfold task_binds in Hb. split_binds Hb.
  apply (exec_insert_typed (inserted_row (create_defaults now t)) tbl tbl1); [|..|done|done].
  - unfold columns_ok. by rewrite !andb_true_iff.
  - intros v Hv. by apply (jsonb_col_stored (Payload (create_defaults now t))).
Qed.

Lemma update_typed now t tbl t' tbl' :
  well_typed tbl -> Update now (Some t) tbl = Ok (t', tbl') -> well_typed tbl'.
Proof.
  intros Ht E. cbn [Update] in E. apply res_bind_ok in E as (r & E & [= _ <-]).
  eapply (bound_update_typed _ _ _ _ r); [|exact Ht|exact E].
  intros Hb x. unfold task_binds in Hb. split_binds Hb. split_and!; [done| |].
  - intros _ _. unfold columns_ok. by rewrite !andb_true_iff.
  - intros _ _ v Hv. by apply (jsonb_col_stored (Payload (t <| UpdatedAt := now |>))).
Qed.

Lemma clear_parent_idem p (tbl : Table) :
  omap idem_key (update_rows p (fun t => t <| ParentTaskID := None |>) tbl) = omap idem_key tbl.
Proof.
  induction tbl as [|t l IH]; [done|]. rewrite update_rows_cons. cbn [omap list_omap].
  assert (idem_key (if p t then t <| ParentTaskID := None |> else t) = idem_key t) as ->
    by by case_match.
  by destruct (idem_key t); [f_equal|].
Qed.

Lemma delete_typed id tbl tbl' : well_typed tbl -> Delete id tbl = Ok tbl' -> well_typed tbl'.
Proof.
  intros [[Hids Hidem Hchk Hpar] Hcol Hpay]. unfold Delete. intros [= <-].
  set (rest := filter _ tbl).
  set (f := fun t => t <| ParentTaskID := None |>).
  assert (Hin : forall t, t ∈ update_rows (fun t => ParentTaskID t =?? Some id) f rest ->
    exists x, x ∈ tbl /\ ID x <> id /\ t = if ParentTaskID x =?? Some id then f x else x).
  { intros t (x & Hx & ->)%elem_of_update_rows. apply list_elem_of_filter in Hx as [Hne Hx].
    btauto_hyps. eauto. }
  assert (Hsub : rest `sublist_of` tbl) by apply sublist_filter.
  split; [split|..].
  - rewrite update_rows_ids' by done. eapply sublist_NoDup; [exact Hids|].
    by apply (fmap_sublist ID).
  - eapply sublist_NoDup; [exact Hidem|]. unfold f. rewrite clear_parent_idem.
    clear -Hsub. induction Hsub as [|t l k _ IH|t l k _ IH]; [done| |]; cbn [omap list_omap];
      destruct (idem_key t); auto; by constructor.
  - intros t (x & Hx & _ & ->)%Hin. specialize (Hchk x Hx). by case_match.
  - intros t (x & Hx & Hne & ->)%Hin. specialize (Hpar x Hx). unfold parent_exists in *.
    case_bool_decide as E; [done|]. destruct (ParentTaskID x) as [p|]; [|done].
    rewrite bool_decide_eq_true in Hpar |- *. rewrite update_rows_ids' by done.
    apply list_elem_of_fmap in Hpar as (y & -> & Hy). apply list_elem_of_fmap. exists y.
    split; [done|]. apply list_elem_of_filter. split; [|done].
    rewrite negb_true_iff, bool_decide_eq_false. congruence.
  - intros t (x & Hx & _ & ->)%Hin. specialize (Hcol x Hx). by case_match.
  - intros t (x & Hx & _ & ->)%Hin. specialize (Hpay x Hx). by case_match.
Qed.

Lemma call_typed cl tbl tbl' : well_typed tbl -> exec_call cl tbl = Ok tbl' -> well_typed tbl'.
Proof.
  intros Ht E. destruct cl; cbn [exec_call] in E.
  - apply res_bind_ok in E as ([t' tbl1] & E & [= <-]). by eapply create_typed.
  - apply res_bind_ok in E as ([t' tbl1] & E & [= <-]). by eapply update_typed.
  - by eapply delete_typed.
  - apply res_bind_ok in E as (r & E & [= <-]).
    eapply (bound_update_typed _ _ _ _ r); [|exact Ht|exact E]. intros Hb. split_binds Hb.
    eapply (counters_update _ _ (fun _ => status) Attempt MaxAttempts); [done|]. solve_counters.
  - apply res_bind_ok in E as ([b tbl1] & E & [= <-]).
    apply res_bind_ok in E as (r & E & [= _ <-]).
    eapply (bound_update_typed [] _ _ _ r); [|exact Ht|exact E]. intros _.
    eapply (counters_update _ _ (fun _ => TaskStatusCancelled) Attempt MaxAttempts); [done|].
    solve_counters.
  - apply res_bind_ok in E as ([b tbl1] & E & [= <-]). unfold TransitionConditional in E.
    case_match; [done|]. apply res_bind_ok in E as (r & E & [= _ <-]).
    eapply (bound_update_typed _ _ _ _ r); [|exact Ht|exact E]. intros Hb. split_binds Hb.
    eapply (counters_update _ _ (fun _ => to) (fun t => set_pos (opt_Attempt opts) (Attempt t))
      (fun t => set_pos (opt_MaxAttempts opts) (MaxAttempts t))); [done|].
    intros t (_ & ? & ?)%columns_ok_counters. rewrite !andb_true_iff. split_and!; [done|..];
      by apply set_pos_fits.
  - apply res_bind_ok in E as ([b tbl1] & E & [= <-]).
    apply res_bind_ok in E as (r & E & [= _ <-]).
    eapply (bound_update_typed _ _ _ _ r); [|exact Ht|exact E]. intros Hb. split_binds Hb.
    eapply (counters_update _ _ (fun _ => TaskStatusQueued) (fun _ => attempt)
      (fun _ => maxAttempts)); [done|]. solve_counters.
  - apply res_bind_ok in E as ([t' tbl1] & E & [= <-]). cbn [LeaseTask] in E.
    apply res_bind_ok in E as ([tbl2 o] & E & E'). apply with_binds_Ok in E as [_ E].
    cbn [fst snd] in E'. destruct o; [|done]. injection E' as _ <-.
    destruct (candidate _ _ _) as [cand|]; [|done].
    destruct (exec_update _ _ _) as [r|] eqn:Eu; [|done]. injection E as <- _.
    eapply (exec_update_typed _ _ _ r); [|exact Ht|exact Eu].
    eapply (counters_update _ _ (fun _ => TaskStatusLeased) Attempt MaxAttempts); [done|].
    solve_counters.
  - apply res_bind_ok in E as (r & E & E'). case_match; [|done]. injection E' as <-.
    eapply (bound_update_typed [] _ _ _ r); [|exact Ht|exact E]. intros _.
    eapply (counters_update _ _ Status Attempt MaxAttempts); [done|]. solve_counters.
  - unfold ReleaseLease in E. case_match; [done|].
    apply res_bind_ok in E as (r & E & [= <-]).
    eapply (bound_update_typed _ _ _ _ r); [|exact Ht|exact E]. intros Hb. split_binds Hb.
    eapply (counters_update _ _ (fun _ => newStatus)
      (fun t => if ro_Attempt opts =? 0 then Attempt t else ro_Attempt opts)
      (fun t => if ro_MaxAttempts opts =? 0 then MaxAttempts t else ro_MaxAttempts opts)); [done|].
    solve_counters.
Qed.

Lemma apply_call_typed cl tbl : well_typed tbl -> well_typed (apply_call tbl cl).
Proof.
  intros Ht. unfold apply_call. destruct (exec_call cl tbl) eqn:E; [|done]. by eapply call_typed.
Qed.
End Types.


