(* ===== verification/Store.v ===== *)
(** * The scheduler's view of a task store

    The scheduler talks to the repository through a narrow interface
    ([TaskRepository] in [src/internal/scheduler/scheduler.go]).  [TaskStore] is
    that interface with an abstraction function [st_row], the task stored under
    an id; [TaskStoreLaws] is the contract the scheduler's theorems rely on.
    The PostgreSQL repository implements it. *)
From S2P Require Import Prelude TaskModel TaskRepo TaskRepoFacts.

(** ** The interface *)

Class TaskStore : Type := {
  store : Type;
  (** what the database decides in a lease call *)
  db_choice : Type;
  choice_lease_id : db_choice -> string;
  (** the store's own invariant *)
  st_ok : store -> Prop;
  st_row : store -> string -> option Task;
  st_Get : string -> store -> result RepoError Task;
  st_LeaseTask : time -> db_choice -> LeaseOptions -> store ->
    result RepoError (Task * store);
  st_RenewLease : time -> string -> string -> Z -> store -> result RepoError store;
  st_ReleaseLease : time -> string -> string -> TaskStatus -> ReleaseOptions -> store ->
    result RepoError store;
  st_FindExpiredLeases : time -> Z -> store -> result RepoError (list Task);
  st_CountByStatus : string -> store -> result RepoError (gmap TaskStatus Z)
}.

(** The task [t] under [id] holds the lease [l]. *)
Definition st_holds `{TaskStore} (s : store) (id l : string) (t : Task) : Prop :=
  st_row s id = Some t /\ LeaseID t = Some l.

(** Only the row of [id] may differ. *)
Definition st_frame `{TaskStore} (s s' : store) (id : string) : Prop :=
  forall id', id' <> id -> st_row s' id' = st_row s id'.

Class TaskStoreLaws (T : TaskStore) : Prop := {
  law_row s id t : st_ok s -> st_row s id = Some t ->
    ID t = id /\ 1 <= Attempt t <= MaxAttempts t;
  law_get s id : st_ok s ->
    st_Get id s = match st_row s id with Some t => Ok t | None => Err ErrNotFound end;
  law_lease now c opts s t s' : st_ok s ->
    st_LeaseTask now c opts s = Ok (t, s') ->
    st_ok s' /\ st_frame s s' (ID t) /\ st_row s' (ID t) = Some t /\
    Status t = TaskStatusLeased /\ LeaseID t = Some (choice_lease_id c) /\
    exists t0, st_row s (ID t) = Some t0 /\ Status t0 = TaskStatusQueued /\
      LeaseID t0 = None /\ Attempt t0 = Attempt t /\ MaxAttempts t0 = MaxAttempts t;
  law_renew now id l ext s s' : st_ok s ->
    st_RenewLease now id l ext s = Ok s' ->
    st_ok s' /\ st_frame s s' id /\
    exists t, st_holds s id l t /\ Status t ∈ renewable /\
      st_row s' id = Some (t <| LeaseExpiresAt := Some (now + ext * Second) |>
                             <| UpdatedAt := now |>);
  law_renew_total now id l ext s t : st_ok s ->
    st_holds s id l t -> Status t ∈ renewable ->
    exists s', st_RenewLease now id l ext s = Ok s';
  law_renew_err now id l ext s e : st_ok s ->
    st_RenewLease now id l ext s = Err e -> e = ErrLeaseNotFound;
  law_release now id l st opts s s' : st_ok s ->
    st_ReleaseLease now id l st opts s = Ok s' ->
    st_ok s' /\ l <> ""%string /\ st_frame s s' id /\
    (forall t, st_holds s id l t -> st_row s' id = Some (release_set now st opts t)) /\
    ((forall t, ~ st_holds s id l t) -> st_row s' id = st_row s id);
  law_release_total now id l st opts s : st_ok s -> l <> ""%string ->
    enum_task_status st = true ->
    0 <= ro_Attempt opts <= maxInt32 -> 0 <= ro_MaxAttempts opts <= maxInt32 ->
    (forall t, st_holds s id l t ->
       set_pos (ro_Attempt opts) (Attempt t) <= set_pos (ro_MaxAttempts opts) (MaxAttempts t)) ->
    exists s', st_ReleaseLease now id l st opts s = Ok s';
  law_expired now limit s l t : st_ok s ->
    st_FindExpiredLeases now limit s = Ok l -> t ∈ l ->
    st_row s (ID t) = Some t /\ Status t ∈ recoverable /\
    exists e, LeaseExpiresAt t = Some e /\ e < now
}.

(** ** The PostgreSQL store *)

#[export] Instance PostgresStore : TaskStore := {
  store := Table;
  db_choice := string * gset string;
  choice_lease_id := fst;
  st_ok := table_ok;
  st_row s id := scanTask <$> row s id;
  st_Get := Get;
  st_LeaseTask now c := LeaseTask now (Some (fst c)) (snd c);
  st_RenewLease := RenewLease;
  st_ReleaseLease := ReleaseLease;
  st_FindExpiredLeases := FindExpiredLeases;
  st_CountByStatus p s := Ok (CountByStatus p s)
}.

Lemma pg_row (s : Table) id :
  st_row (TaskStore := PostgresStore) s id = scanTask <$> row s id.
Proof. done. Qed.

Lemma pg_row_Some (s : Table) id t :
  st_row (TaskStore := PostgresStore) s id = Some t <->
  exists r, row s id = Some r /\ t = scanTask r.
Proof. simpl. destruct (row s id); naive_solver. Qed.

Lemma pg_holds (s : Table) id l t :
  st_holds (H := PostgresStore) s id l t <->
  exists r, row s id = Some r /\ LeaseID r = Some l /\ t = scanTask r.
Proof.
  unfold st_holds. rewrite pg_row_Some. split.
  - intros [(r & Er & ->) Hl]. by exists r.
  - intros (r & Er & Hl & ->). split; [eauto|exact Hl].
Qed.

Lemma set_pos_nullif n old : 0 <= n -> (if n =? 0 then old else n) = set_pos n old.
Proof. unfold set_pos. intros. destruct (Z.eqb_spec n 0), (Z.ltb_spec 0 n); lia. Qed.

(** A release succeeds when its counters fit. *)
Lemma ReleaseLease_total now id l st opts s :
  table_ok s -> l <> ""%string -> enum_task_status st = true ->
  0 <= ro_Attempt opts <= maxInt32 -> 0 <= ro_MaxAttempts opts <= maxInt32 ->
  (forall t, row s id = Some t -> LeaseID t = Some l ->
     set_pos (ro_Attempt opts) (Attempt t) <= set_pos (ro_MaxAttempts opts) (MaxAttempts t)) ->
  exists s', ReleaseLease now id l st opts s = Ok s'.
Proof.
  intros Hok Hl Hst Ha Hm Hle. unfold ReleaseLease, with_binds.
  rewrite bool_decide_false by done. cbn [bind_errors sql_enum sql_int4].
  rewrite Hst, !int32_fits_pos by done.
  pose proof (keyed_update (release_set now st opts) s id (fun t => LeaseID t =?? Some l) Hok
                ltac:(by split)) as H.
  destruct (exec_update _ _ s) as [r|e]; [by exists r.1|]. exfalso.
  destruct H as [_ (t & Et & Hlt & Hr)]. apply bool_decide_eq_true in Hlt.
  specialize (Hle t Et Hlt). apply row_Some_1 in Et as [Ht _].
  pose proof (ok_checks _ Hok t Ht) as Hc.
  apply not_true_iff_false in Hr. apply Hr. clear Hr.
  destruct t. unfold row_checks in *. simpl in *. rewrite !set_pos_nullif by lia.
  btauto_hyps. rewrite !andb_true_iff, !Z.leb_le. unfold set_pos in *.
  repeat split; try lia. destruct (Z.ltb_spec 0 (ro_Attempt opts)); lia.
Qed.

#[export] Instance PostgresStoreLaws : TaskStoreLaws PostgresStore.
Proof.
  split; unfold st_frame.
  - intros s id t Hok (r & Er & ->)%pg_row_Some. apply row_Some_1 in Er as [Hr Hid].
    split; [exact Hid|]. pose proof (ok_checks _ Hok r Hr) as Hc.
    unfold row_checks in Hc. btauto_hyps. destruct r. simpl in *. lia.
  - intros s id _. rewrite pg_row. etrans; [apply Get_row|]. by destruct (row s id).
  - intros now [l locked] opts s t s' Hok Hl.
    change (LeaseTask now (Some l) locked opts s = Ok (t, s')) in Hl.
    apply LeaseTask_Ok in Hl as (c & r & Hc & -> & Hr & ->).
    apply candidate_Some in Hc as (Hin & Hel%eligible_spec & _).
    destruct (exec_update_same_keys (fun t => ID t =?? ID c) (lease_set now l opts)
                (lease_set_same_keys _ _ _) s Hok) as [_ Hok'].
    { intros t Ht _. exact (ok_checks _ Hok t Ht). }
    assert (Ec : row s (ID c) = Some c) by (apply row_Some; [apply Hok|done]).
    pose proof Hr as Hr'. rewrite row_update_rows in Hr' by (intros; reflexivity).
    rewrite Ec in Hr'. simpl in Hr'. rewrite bool_decide_true in Hr' by done.
    injection Hr' as <-. split_and!; try done.
    + intros id' Hne. by rewrite !pg_row, row_update_other.
    + change (ID (scanTask (lease_set now l opts c))) with (ID c).
      by rewrite pg_row, Hr.
    + exists (scanTask c). change (ID (scanTask (lease_set now l opts c))) with (ID c).
      rewrite pg_row, Ec. split_and!; try done; [apply (el_queued _ _ _ Hel)|apply (el_unleased _ _ _ Hel)].
  - intros now id l ext s s' Hok Hr. change (RenewLease now id l ext s = Ok s') in Hr.
    destruct (RenewLease_cases now id l ext s Hok) as
      [(t & tbl' & Et & Hl & Hs & E & Hok' & Er & Hoth) | [_ E]]; [|congruence].
    assert (tbl' = s') as -> by congruence. split_and!; [done| |].
    + intros id' Hne. by rewrite !pg_row, Hoth.
    + exists (scanTask t). rewrite pg_holds. split; [by exists t|]. split; [exact Hs|].
      by rewrite pg_row, Er.
  - intros now id l ext s t Hok (r & Er & Hl & ->)%pg_holds Hs.
    destruct (RenewLease_cases now id l ext s Hok) as
      [(t & tbl' & _ & _ & _ & E & _) | [Hno _]]; [by exists tbl'|].
    by destruct (Hno r Er Hl).
  - intros now id l ext s e Hok Hr. change (RenewLease now id l ext s = Err e) in Hr.
    destruct (RenewLease_cases now id l ext s Hok) as
      [(t & tbl' & _ & _ & _ & E & _) | [_ E]]; congruence.
  - intros now id l st opts s s' Hok Hr.
    pose proof (ReleaseLease_ok now id l st opts s s' Hok Hr) as Hok'.
    destruct (ReleaseLease_cases now id l st opts s Hok s' Hr) as (Hl & Hoth & Hmine & Hno).
    split_and!; [done|done| | |].
    + intros id' Hne. by rewrite !pg_row, Hoth.
    + intros t (r & Er & Hlr & ->)%pg_holds. by rewrite pg_row, (Hmine r).
    + intros Hn. rewrite Hno; [done|]. intros t [Et Hlt]. apply (Hn (scanTask t)).
      apply pg_holds. by exists t.
  - intros now id l st opts s Hok Hl Hst Ha Hm Hle.
    apply ReleaseLease_total; try done. intros t Et Hlt.
    apply (Hle (scanTask t)), pg_holds. by exists t.
  - intros now limit s l t Hok Hf Ht. change (FindExpiredLeases now limit s = Ok l) in Hf.
    unfold FindExpiredLeases in Hf.
    case_match; [done|]. injection Hf as <-. apply list_elem_of_fmap in Ht as (r & -> & Hr).
    apply (sublist_elem_of' _ _ _ (sublist_take _ _)) in Hr.
    rewrite elem_of_order_by, elem_of_select_rows, andb_true_iff, status_in_spec in Hr.
    destruct Hr as ((Hs & He) & Hr). change (ID (scanTask r)) with (ID r).
    assert (E : row s (ID r) = Some r) by (apply row_Some; [apply Hok|done]).
    rewrite pg_row, E. split_and!; [done|exact Hs|]. unfold lease_expired in He.
    change (LeaseExpiresAt (scanTask r)) with (LeaseExpiresAt r).
    destruct (LeaseExpiresAt r) as [e|]; [|done]. exists e. by btauto_hyps.
Qed.
