(* ===== verification/Queue.v ===== *)
(** * The queue facade

    [src/internal/queue/queue.go]: enqueue accounting and the release path on
    top of a task store.  The two Prometheus instruments are maps from project
    ids to values; the store is [None] when no repository is configured. *)
From S2P Require Import Prelude TaskModel TaskRepo TaskRepoFacts Store.

Record QueueMetrics : Type := mkQueueMetrics {
  EnqueuedTotal : gmap string Z;
  Depth : gmap string Z
}.

Inductive QueueError : Type :=
| ErrNoRepository
| ErrDLQNotImplemented (taskID : string)
| ErrRepo (e : RepoError).

Record QueueStats : Type := mkQueueStats {
  qs_Queued : Z;
  qs_Running : Z;
  qs_Leased : Z;
  qs_Completed : Z;
  qs_Failed : Z
}.

Section Queue.
Context `{T : TaskStore}.

Record Queue : Type := mkQueue {
  q_taskRepo : option store;
  q_metrics : option QueueMetrics
}.

(** [counts[k]]: a missing key reads as zero. *)
Definition map_get (m : gmap TaskStatus Z) (k : TaskStatus) : Z := default 0 (m !! k).

Definition updateQueueDepth (projectID : string) (q : Queue) : Queue :=
  match q_taskRepo q, q_metrics q with
  | Some repo, Some m =>
      match st_CountByStatus projectID repo with
      | Err _ => q
      | Ok counts =>
          mkQueue (Some repo) (Some (mkQueueMetrics (EnqueuedTotal m)
            (<[projectID := map_get counts TaskStatusQueued]> (Depth m))))
      end
  | _, _ => q
  end.

(** [Enqueue]: the task is already stored; only the metrics move. *)
Definition Enqueue (taskID projectID : string) (priority : Z) (q : Queue) : Queue :=
  match q_metrics q with
  | None => q
  | Some m =>
      updateQueueDepth projectID (mkQueue (q_taskRepo q) (Some (mkQueueMetrics
        (<[projectID := default 0 (EnqueuedTotal m !! projectID) + 1]> (EnqueuedTotal m))
        (Depth m))))
  end.

Definition EnqueueWithTimestamp (taskID projectID : string) (priority : Z)
    (createdAt : time) (q : Queue) : Queue :=
  match q_metrics q with
  | None => q
  | Some m =>
      updateQueueDepth projectID (mkQueue (q_taskRepo q) (Some (mkQueueMetrics
        (<[projectID := default 0 (EnqueuedTotal m !! projectID) + 1]> (EnqueuedTotal m))
        (Depth m))))
  end.

Definition liftRepo {A} (r : result RepoError A) : result QueueError A :=
  match r with Ok v => Ok v | Err e => Err (ErrRepo e) end.

Definition Release (now : time) (taskID leaseID : string) (newStatus : TaskStatus)
    (opts : ReleaseOptions) (q : Queue) : result QueueError Queue :=
  match q_taskRepo q with
  | None => Err ErrNoRepository
  | Some repo =>
      let! repo' := liftRepo (st_ReleaseLease now taskID leaseID newStatus opts repo) in
      Ok (mkQueue (Some repo') (q_metrics q))
  end.

Definition FindExpiredLeases (now : time) (limit : Z) (q : Queue) :
    result QueueError (list Task) :=
  match q_taskRepo q with
  | None => Err ErrNoRepository
  | Some repo => liftRepo (st_FindExpiredLeases now limit repo)
  end.

(** [MoveToDLQ] has no implementation behind it: both branches fail. *)
Definition MoveToDLQ (taskID projectID : string) (q : Queue) : result QueueError Queue :=
  match q_taskRepo q with
  | None => Err ErrNoRepository
  | Some _ => Err (ErrDLQNotImplemented taskID)
  end.

Definition Stats (projectID : string) (q : Queue) : result QueueError (QueueStats * Queue) :=
  match q_taskRepo q with
  | None => Err ErrNoRepository
  | Some repo =>
      let! counts := liftRepo (st_CountByStatus projectID repo) in
      let stats := mkQueueStats (map_get counts TaskStatusQueued)
        (map_get counts TaskStatusRunning) (map_get counts TaskStatusLeased)
        (map_get counts TaskStatusCompleted) (map_get counts TaskStatusFailed) in
      Ok (stats, mkQueue (Some repo)
        (m ← q_metrics q; Some (mkQueueMetrics (EnqueuedTotal m)
           (<[projectID := qs_Queued stats]> (Depth m)))))
  end.

End Queue.

(** ** Properties *)

Lemma map_get_CountByStatus projectID (tbl : Table) s :
  map_get (CountByStatus projectID tbl) s =
  Z.of_nat (count_if (fun t => in_project projectID t && (Status t =?? s)) tbl).
Proof.
  unfold map_get. rewrite CountByStatus_lookup.
  by destruct (Nat.eqb_spec (count_if (fun t => in_project projectID t && (Status t =?? s)) tbl) 0)
    as [->|].
Qed.

(** Queue accounting over the PostgreSQL store.  [Enqueue] never fails,
    adds one to the project's enqueue counter, touches no other project's
    counter or depth, and leaves the depth gauge at the exact number of QUEUED
    tasks of the project, the number [Stats] reports; without metrics it does
    nothing. *)
Theorem Enqueue_accounting taskID projectID priority (tbl : Table) m :
  let n := Z.of_nat (count_if (fun t => in_project projectID t &&
                                        (Status t =?? TaskStatusQueued)) tbl) in
  let q := mkQueue (Some (tbl : store)) (Some m) in
  exists m', Enqueue taskID projectID priority q = mkQueue (Some (tbl : store)) (Some m') /\
    EnqueuedTotal m' !! projectID = Some (default 0 (EnqueuedTotal m !! projectID) + 1) /\
    Depth m' !! projectID = Some n /\
    (forall p, p <> projectID -> EnqueuedTotal m' !! p = EnqueuedTotal m !! p /\
                                 Depth m' !! p = Depth m !! p) /\
    (exists st q', Stats projectID q = Ok (st, q') /\ qs_Queued st = n) /\
    Enqueue taskID projectID priority (mkQueue (Some (tbl : store)) None) =
      mkQueue (Some (tbl : store)) None.
Proof.
  intros n q. unfold n, q. rewrite <- map_get_CountByStatus. eexists. split; [reflexivity|].
  split_and!; simpl; try by rewrite lookup_insert_eq.
  - intros p Hp. by rewrite !lookup_insert_ne.
  - by eexists _, _.
  - reflexivity.
Qed.
