(* ===== verification/Scheduler.v ===== *)
(** * The scheduler

    [src/internal/scheduler/scheduler.go].  A scheduler is a record with the
    mutable fields of the Go struct; a method is a function on that record and
    on the store of the [TaskStore] interface.  The executor is seen through the
    answers it gives ([IsExecuting]) and the calls it receives ([Cancel]); the
    clock, the database's clock and the faults of the repository calls are
    arguments.  Logging, metrics and tracing are left out. *)
From S2P Require Import Prelude TaskModel TaskRepo TaskRepoFacts Store.

(** ** Configuration *)

Record Config : Type := mkConfig {
  MaxConcurrency : Z;
  LeaseDurationSeconds : Z;
  PollInterval : duration;
  RecoveryInterval : duration;
  RecoveryBatchSize : Z;
  RecoveryIdleGrace : duration;
  PriorityFloor : Z;
  RuntimeImage : string;
  ArtifactStoragePath : string;
  ExecutionTimeout : duration
}.

Definition DefaultConfig : Config := {|
  MaxConcurrency := 10;
  LeaseDurationSeconds := 300;
  PollInterval := 1 * Second;
  RecoveryInterval := 30 * Second;
  RecoveryBatchSize := 100;
  RecoveryIdleGrace := 90 * Second;
  PriorityFloor := 0;
  RuntimeImage := "fake-agent:latest";
  ArtifactStoragePath := "/var/lib/vornik/artifacts";
  ExecutionTimeout := 30 * Minute |}.

(** The defaults [NewWithOptions] puts in the caller's config. *)
Definition fill_config (config : option Config) : Config :=
  let c := default DefaultConfig config in
  let pos (z d : Z) := if z <=? 0 then d else z in
  let str (s d : string) := if s =?? ""%string then d else s in
  {| MaxConcurrency := MaxConcurrency c;
     LeaseDurationSeconds := pos (LeaseDurationSeconds c) 300;
     PollInterval := pos (PollInterval c) Second;
     RecoveryInterval := pos (RecoveryInterval c) (30 * Second);
     RecoveryBatchSize := pos (RecoveryBatchSize c) 100;
     RecoveryIdleGrace := pos (RecoveryIdleGrace c) (90 * Second);
     PriorityFloor := PriorityFloor c;
     RuntimeImage := str (RuntimeImage c) "fake-agent:latest";
     ArtifactStoragePath := str (ArtifactStoragePath c) "/var/lib/vornik/artifacts";
     ExecutionTimeout := pos (ExecutionTimeout c) (30 * Minute) |}.

(** What one call of each of the registry's three methods answers. *)
Record ProjectRegistry : Type := mkProjectRegistry {
  ProjectConcurrencyLimits : list (string * Z);
  ProjectPriorities : list (string * Z);
  ArchivedProjectIDs : list string
}.

(** ** State *)

Record Scheduler : Type := mkScheduler {
  s_config : Config;
  s_projectRegistry : option ProjectRegistry;
  s_leaseHolder : string;
  s_runningCount : Z;
  s_recoveryIdleSince : gmap string time;
  s_started : bool;
  s_wake : bool
}.

Definition NewWithOptions (config : option Config) (registry : option ProjectRegistry)
    (holder : string) : Scheduler :=
  mkScheduler (fill_config config) registry holder 0 ∅ false false.

Inductive SchedulerError : Type := ErrAlreadyStarted.

Definition Start (s : Scheduler) : result SchedulerError Scheduler :=
  if s_started s then Err ErrAlreadyStarted else Ok (s <| s_started := true |>).

Definition Stop (s : Scheduler) : Scheduler := s <| s_started := false |>.

(** [Wake]: the channel holds one pending wake; a second one is dropped. *)
Definition Wake (s : Scheduler) : Scheduler := s <| s_wake := true |>.

Definition decrementRunning (s : Scheduler) : Scheduler :=
  if 0 <? s_runningCount s then s <| s_runningCount := s_runningCount s - 1 |> else s.

Definition recordRecoveryIdleSince (taskID : string) (now : time) (s : Scheduler) :
    time * Scheduler :=
  match s_recoveryIdleSince s !! taskID with
  | Some existing => (existing, s)
  | None => (now, s <| s_recoveryIdleSince := <[taskID := now]> (s_recoveryIdleSince s) |>)
  end.

Definition clearRecoveryIdleSince (taskID : string) (s : Scheduler) : Scheduler :=
  s <| s_recoveryIdleSince := delete taskID (s_recoveryIdleSince s) |>.

(** ** Small helpers *)

Definition taskLeaseID (task : Task) : string := default ""%string (LeaseID task).

Definition isTerminalTaskStatus (status : TaskStatus) : bool :=
  match status with
  | TaskStatusCompleted | TaskStatusFailed | TaskStatusCancelled => true
  | _ => false
  end.

Definition errorMsgOrStatus (errorMsg : string) (status : TaskStatus) : string :=
  if negb (errorMsg =?? ""%string) then errorMsg
  else if status =?? TaskStatusFailed then "executor reported task failure"
  else "".

(** [dynamicRecoveryGrace], with the 64-bit products of the Go code. *)
Definition dynamicRecoveryGrace (s : Scheduler) : duration :=
  let base := if RecoveryIdleGrace (s_config s) <=? 0 then 90 * Second
              else RecoveryIdleGrace (s_config s) in
  if 16 <=? s_runningCount s then wrap64 (base * 2)
  else if 6 <=? s_runningCount s then Z.quot (wrap64 (base * 3)) 2
  else base.

(** [computeJitteredRenewInterval]; [jitter] is the random term, the rounding of
    [(r - 0.5) * base / 2] for a random [r] in [[0, 1)]. *)
Definition computeJitteredRenewInterval (leaseDurationSeconds : Z) (jitter : duration) :
    duration :=
  let base := Z.quot (wrap64 (leaseDurationSeconds * Second)) 2 in
  if base <=? 0 then 100 * Millisecond
  else Z.max (base + jitter) (100 * Millisecond).

Section WithStore.
Context `{T : TaskStore}.

(** ** Leasing *)

(** The options [leaseTaskWithContext] passes to the repository. *)
Definition lease_options (s : Scheduler) : LeaseOptions :=
  let r := s_projectRegistry s in
  {| lo_ProjectID := "";
     lo_LeaseHolder := s_leaseHolder s;
     lo_LeaseDurationSeconds := LeaseDurationSeconds (s_config s);
     lo_PriorityFloor := PriorityFloor (s_config s);
     lo_ProjectConcurrencyLimits := default [] (ProjectConcurrencyLimits <$> r);
     lo_ProjectPriorities := default [] (ProjectPriorities <$> r);
     lo_ProjectPriorityDefault := match r with Some _ => 50 | None => 0 end;
     lo_ExcludedProjects := default [] (ArchivedProjectIDs <$> r) |}.

Definition leaseTask (now : time) (c : db_choice) (s : Scheduler) (st : store) :
    result RepoError (Task * store) :=
  st_LeaseTask now c (lease_options s) st.

(** The first critical section of [schedule]: take a slot, if there is one. *)
Definition reserve_slot (s : Scheduler) : option Scheduler :=
  if (0 <? MaxConcurrency (s_config s)) &&
     (MaxConcurrency (s_config s) <=? s_runningCount s)
  then None
  else Some (s <| s_runningCount := s_runningCount s + 1 |>).

(** Its last: give the slot of a failed lease back. *)
Definition rollback_slot (s : Scheduler) : Scheduler :=
  s <| s_runningCount := s_runningCount s - 1 |>.

(** One pass of [schedule], with the database's choice for each lease call in
    turn: the scheduler, the store and the tasks dispatched, in order.  The pass
    is still running when it needs more choices than the list has. *)
Fixpoint schedule (now : time) (choices : list db_choice) (s : Scheduler) (st : store) :
    option (Scheduler * store * list Task) :=
  match reserve_slot s with
  | None => Some (s, st, [])
  | Some s1 =>
      match choices with
      | [] => None
      | c :: rest =>
          match leaseTask now c s1 st with
          | Err _ => Some (rollback_slot s1, st, [])
          | Ok (task, st1) =>
              if MaxConcurrency (s_config s) =? 0 then Some (s1, st1, [task])
              else match schedule now rest s1 st1 with
                   | None => None
                   | Some (s2, st2, tasks) => Some (s2, st2, task :: tasks)
                   end
          end
      end
  end.

(** ** Completion *)

Definition noRelease : ReleaseOptions := mkReleaseOptions 0 0 "" "".

Definition at_least_1 (n : Z) : Z := if n <=? 0 then 1 else n.

(** [TaskCompleted]: [get_fault] is the error of the reload, if it fails. *)
Definition TaskCompleted (now : time) (get_fault : option RepoError)
    (taskID leaseID : string) (success : bool) (errorMsg : string)
    (s : Scheduler) (st : store) : Scheduler * result RepoError store :=
  let s := decrementRunning s in
  if success then
    (s, st_ReleaseLease now taskID leaseID TaskStatusCompleted noRelease st)
  else
    match (match get_fault with Some e => Err e | None => st_Get taskID st end) with
    | Err _ =>
        (s, st_ReleaseLease now taskID leaseID TaskStatusFailed
              (mkReleaseOptions 0 0 errorMsg "") st)
    | Ok task =>
        let maxAttempts := at_least_1 (MaxAttempts task) in
        let attempt := at_least_1 (Attempt task) in
        if attempt <? maxAttempts then
          (s, st_ReleaseLease now taskID leaseID TaskStatusQueued
                (mkReleaseOptions (attempt + 1) maxAttempts errorMsg "") st)
        else
          (s, st_ReleaseLease now taskID leaseID TaskStatusFailed
                (mkReleaseOptions 0 0 errorMsg "") st)
    end.

(** [completeTask]: the path without an executor, on the leased copy of the
    task. *)
Definition completeTask (now : time) (task : Task) (success : bool) (errorMsg : string)
    (s : Scheduler) (st : store) : Scheduler * result RepoError store :=
  let maxAttempts := at_least_1 (MaxAttempts task) in
  let attempt := at_least_1 (Attempt task) in
  let '(status, opts) :=
    if success then (TaskStatusCompleted, noRelease)
    else if attempt <? maxAttempts
    then (TaskStatusQueued, mkReleaseOptions (attempt + 1) maxAttempts errorMsg "")
    else (TaskStatusFailed, mkReleaseOptions attempt maxAttempts errorMsg "") in
  let s := decrementRunning s in
  (s, st_ReleaseLease now (ID task) (taskLeaseID task) status opts st).

(** ** Dispatch *)

Inductive dispatchOutcome : Type :=
| dispatchSucceeded
| dispatchFailed
| dispatchPaused
| dispatchTerminated
| dispatchInterrupted.

(** [releaseExecutorLease]; [paused]: there is an execution repository and it
    reports the task's execution as PAUSED. *)
Definition releaseExecutorLease (now : time) (get_fault : option RepoError)
    (paused : bool) (task : Task) (outcome : dispatchOutcome) (errorMsg : string)
    (s : Scheduler) (st : store) : Scheduler * result RepoError store :=
  let reload := match get_fault with Some e => Err e | None => st_Get (ID task) st end in
  match outcome with
  | dispatchSucceeded =>
      TaskCompleted now get_fault (ID task) (taskLeaseID task) true "" s st
  | dispatchPaused =>
      (decrementRunning s,
       let! current := reload in
       let releaseStatus :=
         if (Status current =?? TaskStatusLeased) || (Status current =?? TaskStatusRunning)
         then TaskStatusPending else Status current in
       st_ReleaseLease now (ID task) (taskLeaseID task) releaseStatus noRelease st)
  | dispatchTerminated => (decrementRunning s, Ok st)
  | dispatchInterrupted =>
      (decrementRunning s,
       if paused then Ok st
       else
         let! current := reload in
         if isTerminalTaskStatus (Status current) then Ok st
         else st_ReleaseLease now (ID task) (taskLeaseID task) TaskStatusQueued
                (mkReleaseOptions 0 0 (errorMsgOrStatus errorMsg TaskStatusQueued) "") st)
  | dispatchFailed =>
      TaskCompleted now get_fault (ID task) (taskLeaseID task) false
        (errorMsgOrStatus errorMsg TaskStatusFailed) s st
  end.

(** *** The dispatch watch loop *)

(** One iteration of the loop as the outside world plays it: whether the
    executor still runs the task, the clock, the context, the faults of the
    repository calls, and what the other processes did to the store since the
    last iteration. *)
Record Tick : Type := mkTick {
  tk_env : store -> store;
  tk_executing : bool;
  tk_now : time;
  tk_dbnow : time;
  tk_renew_fault : option RepoError;
  tk_get_fault : option RepoError;
  tk_ctx_done : option string
}.

Record Watch : Type := mkWatch {
  w_lastRenewal : time;
  w_renewFailures : Z;
  w_leaseReleased : bool
}.

(** What one iteration did about the lease. *)
Inductive renewal : Type :=
| RenewNotDue
| RenewDone
| RenewReleased
| RenewFailed (e : RepoError).

Definition maxRenewFailures : Z := 3.

(** [leaseClearedByTransition]. *)
Definition leaseClearedByTransition (get_fault : option RepoError) (taskID : string)
    (st : store) : bool :=
  match (match get_fault with Some e => Err e | None => st_Get taskID st end) with
  | Err _ => false
  | Ok cur => negb (Status cur =?? TaskStatusRunning) && negb (Status cur =?? TaskStatusLeased)
  end.

(** The renewal part of one iteration: its verdict and the store. *)
Definition renew_step (renewInterval : duration) (leaseSeconds : Z) (task : Task)
    (w : Watch) (tk : Tick) (st : store) : renewal * store :=
  if negb (w_leaseReleased w) && negb (taskLeaseID task =?? ""%string) &&
     (renewInterval <=? tk_now tk - w_lastRenewal w)
  then
    match (match tk_renew_fault tk with
           | Some e => Err e
           | None => st_RenewLease (tk_dbnow tk) (ID task) (taskLeaseID task) leaseSeconds st
           end) with
    | Ok st' => (RenewDone, st')
    | Err e =>
        if (e =?? ErrLeaseNotFound) &&
           leaseClearedByTransition (tk_get_fault tk) (ID task) st
        then (RenewReleased, st)
        else (RenewFailed e, st)
    end
  else (RenewNotDue, st).

(** The loop's variables after the verdict. *)
Definition watch_after (renewInterval : duration) (tk : Tick) (w : Watch) (r : renewal) :
    Watch :=
  match r with
  | RenewNotDue => w
  | RenewDone => w <| w_renewFailures := 0 |> <| w_lastRenewal := tk_now tk |>
  | RenewReleased => w <| w_leaseReleased := true |>
  | RenewFailed _ =>
      w <| w_renewFailures := w_renewFailures w + 1 |>
        <| w_lastRenewal := tk_now tk + (- renewInterval + Second) |>
  end.

(** A failed renewal escalates when it is the third in a row. *)
Definition escalates (r : renewal) (w : Watch) : bool :=
  match r with RenewFailed _ => maxRenewFailures <=? w_renewFailures w | _ => false end.

(** How the loop ended. *)
Inductive watch_result : Type :=
| WatchCancelled (failures : Z)
| WatchInterrupted (msg : string)
| WatchIdle.

(** The loop: the sequence of renewal verdicts, how it ended ([None]: it needs
    more iterations) and the store.  [WatchCancelled] is the only end that has
    called [executor.Cancel]. *)
Fixpoint watch_loop (renewInterval : duration) (leaseSeconds : Z) (task : Task)
    (ticks : list Tick) (w : Watch) (st : store) :
    list renewal * option watch_result * store :=
  match ticks with
  | [] => ([], None, st)
  | tk :: rest =>
      let st := tk_env tk st in
      if negb (tk_executing tk) then ([], Some WatchIdle, st)
      else
        let '(r, st) := renew_step renewInterval leaseSeconds task w tk st in
        let w := watch_after renewInterval tk w r in
        if escalates r w then ([r], Some (WatchCancelled (w_renewFailures w)), st)
        else
          match tk_ctx_done tk with
          | Some msg => ([r], Some (WatchInterrupted msg), st)
          | None =>
              let '(rs, res, st) := watch_loop renewInterval leaseSeconds task rest w st in
              (r :: rs, res, st)
          end
  end.

(** The message of a failure: a fixed text, or one that quotes an error. *)
Inductive dispatch_msg : Type :=
| MsgNone
| MsgText (s : string)
| MsgRenewFailed (failures : Z)
| MsgReloadFailed (e : RepoError)
| MsgFinishedWith (status : TaskStatus)
| MsgLeftIn (status : TaskStatus).

(** The classification after the loop, from the reloaded task. *)
Definition dispatch_reload (get_fault : option RepoError) (paused : bool) (task : Task)
    (st : store) : dispatchOutcome * dispatch_msg :=
  match (match get_fault with Some e => Err e | None => st_Get (ID task) st end) with
  | Err e => (dispatchFailed, MsgReloadFailed e)
  | Ok current =>
      match Status current with
      | TaskStatusCompleted => (dispatchSucceeded, MsgNone)
      | TaskStatusCancelled => (dispatchTerminated, MsgNone)
      | TaskStatusFailed =>
          match LastError current with
          | Some e => if e =?? ""%string then (dispatchFailed, MsgFinishedWith TaskStatusFailed)
                      else (dispatchFailed, MsgText e)
          | None => (dispatchFailed, MsgFinishedWith TaskStatusFailed)
          end
      | status => if paused then (dispatchPaused, MsgNone)
                  else (dispatchFailed, MsgLeftIn status)
      end
  end.

(** [dispatchViaExecutor]: [start_error] is what [ExecuteWithContext] returned,
    [start] the clock when the watch begins.  [None]: still watching. *)
Definition dispatchViaExecutor (start_error : option string) (start : time)
    (renewInterval : duration) (task : Task) (ticks : list Tick)
    (reload_fault : option RepoError) (paused : bool) (s : Scheduler) (st : store) :
    option (dispatchOutcome * dispatch_msg * store) :=
  match start_error with
  | Some e => Some (dispatchFailed, MsgText e, st)
  | None =>
      let '(_, res, st) := watch_loop renewInterval (LeaseDurationSeconds (s_config s)) task
                             ticks (mkWatch start 0 false) st in
      match res with
      | None => None
      | Some (WatchCancelled n) => Some (dispatchFailed, MsgRenewFailed n, st)
      | Some (WatchInterrupted msg) => Some (dispatchInterrupted, MsgText msg, st)
      | Some WatchIdle =>
          let '(o, m) := dispatch_reload reload_fault paused task st in Some (o, m, st)
      end
  end.

(** ** Recovery of expired leases *)

(** The executor, if there is one, as the sweep sees it. *)
Definition executing (exec : option (string -> bool)) (taskID : string) : bool :=
  match exec with Some f => f taskID | None => false end.

(** What the sweep writes for an orphaned task. *)
Definition recovery_release (task : Task) : TaskStatus * ReleaseOptions :=
  let maxAttempts := at_least_1 (MaxAttempts task) in
  let nextAttempt := Attempt task + 1 in
  if maxAttempts <? nextAttempt
  then (TaskStatusFailed,
        mkReleaseOptions maxAttempts maxAttempts "task lease expired during execution"
          TaskFailureClassLeaseExpired)
  else (TaskStatusQueued,
        mkReleaseOptions nextAttempt maxAttempts "task lease expired during execution"
          TaskFailureClassLeaseExpired).

(** Release an orphaned task and forget its idle observation. *)
Definition recover_task (dbnow : time) (task : Task) (s : Scheduler) (st : store) :
    Scheduler * store :=
  let '(newStatus, opts) := recovery_release task in
  match st_ReleaseLease dbnow (ID task) (taskLeaseID task) newStatus opts st with
  | Err _ => (s, st)
  | Ok st' => (clearRecoveryIdleSince (ID task) s, st')
  end.

(** One iteration of the sweep. *)
Definition recover_one (now dbnow : time) (exec : option (string -> bool))
    (grace : duration) (task : Task) (s : Scheduler) (st : store) : Scheduler * store :=
  if executing exec (ID task) then
    let s := clearRecoveryIdleSince (ID task) s in
    if taskLeaseID task =?? ""%string then recover_task dbnow task s st
    else match st_RenewLease dbnow (ID task) (taskLeaseID task)
                 (LeaseDurationSeconds (s_config s)) st with
         | Ok st' => (s, st')
         | Err _ => recover_task dbnow task s st
         end
  else
    match exec with
    | None => recover_task dbnow task s st
    | Some _ =>
        let '(firstSeen, s) := recordRecoveryIdleSince (ID task) now s in
        if now - firstSeen <? grace then (s, st) else recover_task dbnow task s st
    end.

(** [recoverExpiredLeases]: the grace is computed once for the whole batch. *)
Definition recoverExpiredLeases (now dbnow : time) (exec : option (string -> bool))
    (s : Scheduler) (st : store) : Scheduler * store :=
  match st_FindExpiredLeases dbnow (RecoveryBatchSize (s_config s)) st with
  | Err _ => (s, st)
  | Ok tasks =>
      let grace := dynamicRecoveryGrace s in
      foldl (fun acc task => recover_one now dbnow exec grace task acc.1 acc.2) (s, st) tasks
  end.

End WithStore.
