(* ===== verification/SchedulerFacts.v ===== *)
(** * Properties of the scheduler

    The slot counter over every interleaving of schedule passes, completions and
    recovery sweeps; what each completion and each sweep writes; when the watch
    loop gives a task up.  The theorems use the store only through the laws of
    [TaskStoreLaws]; the examples run on the PostgreSQL store. *)
From S2P Require Import Prelude TaskModel TaskRepo TaskRepoFacts Store Scheduler.

Section Facts.
Context `{T : TaskStore}.

(** ** The slot counter *)

(** A scheduler at work: the calls of [schedule] that hold a slot and wait for
    the lease call, and the tasks dispatched and not yet released. *)
Record World : Type := mkWorld {
  w_sched : Scheduler;
  w_store : store;
  w_reserved : nat;
  w_inflight : list Task
}.

Definition keep_store (st : store) (r : result RepoError store) : store :=
  match r with Ok st' => st' | Err _ => st end.

Inductive wstep (w : World) : World -> Prop :=
| ws_reserve s :
    reserve_slot (w_sched w) = Some s ->
    wstep w (mkWorld s (w_store w) (S (w_reserved w)) (w_inflight w))
| ws_leased n now c t st :
    w_reserved w = S n -> leaseTask now c (w_sched w) (w_store w) = Ok (t, st) ->
    wstep w (mkWorld (w_sched w) st n (t :: w_inflight w))
| ws_lease_failed n now c e :
    w_reserved w = S n -> leaseTask now c (w_sched w) (w_store w) = Err e ->
    wstep w (mkWorld (rollback_slot (w_sched w)) (w_store w) n (w_inflight w))
| ws_released l1 t l2 now fault paused outcome msg s r :
    w_inflight w = l1 ++ t :: l2 ->
    releaseExecutorLease now fault paused t outcome msg (w_sched w) (w_store w) = (s, r) ->
    wstep w (mkWorld s (keep_store (w_store w) r) (w_reserved w) (l1 ++ l2))
| ws_completed l1 t l2 now success msg s r :
    w_inflight w = l1 ++ t :: l2 ->
    completeTask now t success msg (w_sched w) (w_store w) = (s, r) ->
    wstep w (mkWorld s (keep_store (w_store w) r) (w_reserved w) (l1 ++ l2))
| ws_recovered now dbnow exec s st :
    recoverExpiredLeases now dbnow exec (w_sched w) (w_store w) = (s, st) ->
    wstep w (mkWorld s st (w_reserved w) (w_inflight w))
| ws_environment st :
    wstep w (mkWorld (w_sched w) st (w_reserved w) (w_inflight w)).

Definition initial_world (config : option Config) (reg : option ProjectRegistry)
    (holder : string) (st : store) : World :=
  mkWorld (NewWithOptions config reg holder) st 0 [].

(** What the counter should be. *)
Definition slots_held (w : World) : Z := Z.of_nat (w_reserved w + length (w_inflight w)).

Lemma decrementRunning_config s : s_config (decrementRunning s) = s_config s.
Proof. unfold decrementRunning. by destruct (0 <? s_runningCount s). Qed.

Lemma decrementRunning_pos s :
  0 < s_runningCount s -> s_runningCount (decrementRunning s) = s_runningCount s - 1.
Proof. intros H. unfold decrementRunning. by rewrite (proj2 (Z.ltb_lt _ _) H). Qed.

(** Every way to finish a dispatched task decrements exactly once. *)
Lemma TaskCompleted_sched now fault id l ok msg s st :
  (TaskCompleted now fault id l ok msg s st).1 = decrementRunning s.
Proof. unfold TaskCompleted. by repeat case_match. Qed.

Lemma releaseExecutorLease_sched now fault paused t outcome msg s st :
  (releaseExecutorLease now fault paused t outcome msg s st).1 = decrementRunning s.
Proof.
  unfold releaseExecutorLease. destruct outcome; try done; apply TaskCompleted_sched.
Qed.

Lemma completeTask_sched now t ok msg s st :
  (completeTask now t ok msg s st).1 = decrementRunning s.
Proof. unfold completeTask. by repeat case_match. Qed.

(** The recovery sweep leaves the counter and the configuration alone. *)
Definition same_slots (s s' : Scheduler) : Prop :=
  s_runningCount s' = s_runningCount s /\ s_config s' = s_config s.

#[export] Instance same_slots_preorder : PreOrder same_slots.
Proof. split; [by split|]. intros a b c [] []. split; congruence. Qed.

Lemma idle_slots s idle : same_slots s (s <| s_recoveryIdleSince := idle |>).
Proof. split; reflexivity. Qed.

Lemma recover_task_slots dbnow t s st : same_slots s (recover_task dbnow t s st).1.
Proof.
  unfold recover_task. destruct (recovery_release t) as [ns o].
  destruct (st_ReleaseLease _ _ _ _ _ st); [apply idle_slots|done].
Qed.

Lemma recover_one_slots now dbnow exec grace t s st :
  same_slots s (recover_one now dbnow exec grace t s st).1.
Proof.
  unfold recover_one. destruct (executing exec (ID t)).
  - etrans; [apply (idle_slots s (delete (ID t) (s_recoveryIdleSince s)))|].
    destruct (_ =?? _); [apply recover_task_slots|].
    destruct (st_RenewLease _ _ _ _ st); [done|apply recover_task_slots].
  - destruct exec; [|apply recover_task_slots]. unfold recordRecoveryIdleSince.
    destruct (s_recoveryIdleSince s !! ID t).
    + destruct (_ <? _); [done|apply recover_task_slots].
    + etrans; [apply (idle_slots s (<[ID t := now]> (s_recoveryIdleSince s)))|].
      destruct (_ <? _); [done|apply recover_task_slots].
Qed.

Lemma sweep_slots now dbnow exec grace tasks s st :
  same_slots s (foldl (fun acc task => recover_one now dbnow exec grace task acc.1 acc.2)
                  (s, st) tasks).1.
Proof.
  revert s st. induction tasks as [|t tasks IH]; intros s st; simpl; [by split|].
  destruct (recover_one now dbnow exec grace t s st) as [s' st'] eqn:E.
  pose proof (recover_one_slots now dbnow exec grace t s st) as [H1 H2]. rewrite E in *.
  destruct (IH s' st') as [H3 H4]. simpl in *. split; congruence.
Qed.

Lemma recoverExpiredLeases_slots now dbnow exec s st :
  same_slots s (recoverExpiredLeases now dbnow exec s st).1.
Proof.
  unfold recoverExpiredLeases. destruct (st_FindExpiredLeases _ _ st); [|by split].
  apply sweep_slots.
Qed.

(** The invariant. *)
Definition slots_ok (cfg : Config) (w : World) : Prop :=
  s_config (w_sched w) = cfg /\ s_runningCount (w_sched w) = slots_held w /\
  (0 < MaxConcurrency cfg -> slots_held w <= MaxConcurrency cfg).

Lemma slots_ok_step cfg w w' : slots_ok cfg w -> wstep w w' -> slots_ok cfg w'.
Proof.
  intros (Hc & Hr & Hm) Hstep. unfold slots_ok, slots_held in *.
  destruct Hstep as [s Hs|n now c t st Hn Hl|n now c e Hn Hl
    |l1 t l2 now fault paused outcome msg s r Hi Hrel
    |l1 t l2 now ok msg s r Hi Hrel|now dbnow exec s st Hrec|st]; simpl in *.
  - unfold reserve_slot in Hs. destruct (_ && _) eqn:E; [done|]. injection Hs as <-. simpl.
    split_and!; [done|lia|]. intros Hpos. rewrite Hc in E.
    apply andb_false_iff in E. rewrite Z.ltb_ge, Z.leb_gt in E. lia.
  - rewrite Hn in *. split_and!; [done|lia|lia].
  - rewrite Hn in *. split_and!; [done|lia|lia].
  - pose proof (releaseExecutorLease_sched now fault paused t outcome msg (w_sched w)
                  (w_store w)) as Hd. rewrite Hrel in Hd. simpl in Hd. subst s.
    rewrite Hi, length_app in *. simpl in *.
    rewrite decrementRunning_config, decrementRunning_pos by lia.
    split_and!; [done|lia|lia].
  - pose proof (completeTask_sched now t ok msg (w_sched w) (w_store w)) as Hd.
    rewrite Hrel in Hd. simpl in Hd. subst s. rewrite Hi, length_app in *. simpl in *.
    rewrite decrementRunning_config, decrementRunning_pos by lia.
    split_and!; [done|lia|lia].
  - pose proof (recoverExpiredLeases_slots now dbnow exec (w_sched w) (w_store w)) as [H1 H2].
    rewrite Hrec in H1, H2. simpl in *. split_and!; [congruence|lia|done].
  - done.
Qed.

Lemma slots_ok_reachable config reg holder st w :
  rtc wstep (initial_world config reg holder st) w -> slots_ok (fill_config config) w.
Proof.
  intros Hr. remember (initial_world config reg holder st) as w0 eqn:E.
  assert (H0 : slots_ok (fill_config config) w0).
  { subst. unfold slots_ok, slots_held, initial_world. simpl. split_and!; [done|done|lia]. }
  clear E. induction Hr as [w|w w1 w2 Hs Hr IH]; [done|].
  by eapply IH, slots_ok_step.
Qed.

(** C9: the slot counter is exact.  In every reachable state of a scheduler,
    however schedule passes, lease failures, completions with any outcome,
    recovery sweeps and other processes interleave, [runningCount] is the number
    of slots reserved or dispatched; so it is never negative, and never above
    [MaxConcurrency] when that is set. *)
Theorem running_count_exact config reg holder st w :
  rtc wstep (initial_world config reg holder st) w ->
  s_runningCount (w_sched w) = slots_held w /\ 0 <= s_runningCount (w_sched w) /\
  (0 < MaxConcurrency (fill_config config) ->
     s_runningCount (w_sched w) <= MaxConcurrency (fill_config config)).
Proof.
  intros (Hc & Hr & Hm)%slots_ok_reachable. unfold slots_held in *.
  split_and!; [done|lia|lia].
Qed.

(** ** One scheduling pass *)

Lemma reserve_slot_Some s s' :
  reserve_slot s = Some s' ->
  s' = s <| s_runningCount := s_runningCount s + 1 |> /\
  (0 < MaxConcurrency (s_config s) -> s_runningCount s < MaxConcurrency (s_config s)).
Proof.
  unfold reserve_slot. destruct (_ && _) eqn:E; [done|]. intros [= <-].
  apply andb_false_iff in E. rewrite Z.ltb_ge, Z.leb_gt in E. split; [done|lia].
Qed.

Lemma reserve_slot_None s :
  reserve_slot s = None ->
  0 < MaxConcurrency (s_config s) /\ MaxConcurrency (s_config s) <= s_runningCount s.
Proof.
  unfold reserve_slot. destruct (_ && _) eqn:E; [|done]. intros _. btauto_hyps. done.
Qed.

(** The pass ends: it needs at most one lease call per free slot. *)
Lemma schedule_ends now choices s st :
  0 < MaxConcurrency (s_config s) ->
  MaxConcurrency (s_config s) - s_runningCount s <= Z.of_nat (length choices) ->
  is_Some (schedule now choices s st).
Proof.
  revert s st. induction choices as [|c cs IH]; intros s st Hpos Hlen; simpl in *.
  - destruct (reserve_slot s) as [s1|] eqn:E; [|by eexists].
    apply reserve_slot_Some in E as [_ E]. specialize (E Hpos). lia.
  - destruct (reserve_slot s) as [s1|] eqn:E; [|by eexists].
    apply reserve_slot_Some in E as [-> _].
    destruct (leaseTask now c _ st) as [[t st1]|e]; [|by eexists].
    rewrite (proj2 (Z.eqb_neq _ 0)) by lia.
    destruct (IH (s <| s_runningCount := s_runningCount s + 1 |>) st1) as [[[s2 st2] ts] ->];
      [exact Hpos | destruct s; simpl in *; lia | by eexists].
Qed.

Context {L : TaskStoreLaws T}.

(** What a finished pass has done. *)
Record pass_ok (now : time) (s s' : Scheduler) (st st' : store) (tasks : list Task) : Prop := {
  pass_config : s_config s' = s_config s;
  pass_count : s_runningCount s' = s_runningCount s + Z.of_nat (length tasks);
  pass_store : st_ok st';
  pass_leased t : t ∈ tasks -> st_row st' (ID t) = Some t /\ Status t = TaskStatusLeased;
  pass_was_queued t : t ∈ tasks ->
    exists t0, st_row st (ID t) = Some t0 /\ Status t0 = TaskStatusQueued /\ LeaseID t0 = None;
  pass_distinct : NoDup (map ID tasks);
  pass_others id : id ∉ map ID tasks -> st_row st' id = st_row st id;
  pass_full :
    (0 < MaxConcurrency (s_config s) /\ MaxConcurrency (s_config s) <= s_runningCount s') \/
    (MaxConcurrency (s_config s) = 0 /\ length tasks = 1%nat) \/
    exists c e, leaseTask now c (s' <| s_runningCount := s_runningCount s' + 1 |>) st' = Err e
}.

Lemma pass_ok_full now s st :
  st_ok st -> reserve_slot s = None -> pass_ok now s s st st [].
Proof.
  intros Hok [H1 H2]%reserve_slot_None.
  split; simpl; try done; [lia | by intros ? ?%elem_of_nil | by intros ? ?%elem_of_nil
    | apply NoDup_nil_2 | by left].
Qed.

Lemma schedule_pass now choices s st s' st' tasks :
  st_ok st -> schedule now choices s st = Some (s', st', tasks) ->
  pass_ok now s s' st st' tasks.
Proof.
  revert s st s' st' tasks. induction choices as [|c cs IH]; intros s st s' st' tasks Hok Hs;
    simpl in Hs; destruct (reserve_slot s) as [s1|] eqn:E; try done.
  - simplify_eq. by apply pass_ok_full.
  - apply reserve_slot_Some in E as [-> E].
    destruct (leaseTask now c _ st) as [[t st1]|e] eqn:El.
    + apply law_lease in El as (Hok1 & Hfr & Hrow & Hst & Hl & t0 & Ht0 & Hq & Hn & _); [|done].
      destruct (Z.eqb_spec (MaxConcurrency (s_config s)) 0) as [Hz|Hz].
      * simplify_eq. split; simpl; try done; try lia.
        -- intros x ->%list_elem_of_singleton. done.
        -- intros x ->%list_elem_of_singleton. eauto.
        -- apply NoDup_singleton.
        -- intros id Hid. apply Hfr. by rewrite list_elem_of_singleton in Hid.
      * destruct (schedule now cs _ st1) as [[[s2 st2] ts]|] eqn:Es; [|done]. simplify_eq.
        apply IH in Es as [P1 P2 P3 P4 P5 P6 P7 P8]; [|done]. simpl in *.
        assert (Hnotin : ID t ∉ map ID ts).
        { intros (x & Ex & Hx)%list_elem_of_fmap. destruct (P5 x Hx) as (x0 & Hx0 & Hxq & _).
          rewrite <- Ex, Hrow in Hx0. simplify_eq. congruence. }
        split; simpl; try done; try lia.
        -- intros x [->|Hx]%elem_of_cons; [|by apply P4]. by rewrite P7.
        -- intros x [->|Hx]%elem_of_cons; [eauto|]. destruct (P5 x Hx) as (x0 & Hx0 & Hrest).
           exists x0. split; [|done]. rewrite <- Hx0. symmetry. apply Hfr. intros Heq.
           apply Hnotin. rewrite <- Heq. apply list_elem_of_fmap. eauto.
        -- by apply NoDup_cons.
        -- intros id [Hne Hid]%not_elem_of_cons. rewrite P7 by done. by apply Hfr.
        -- destruct P8 as [?|[[? _]|?]]; [by left | done | by right; right].
    + simplify_eq. split; simpl; try done; [lia | by intros ? ?%elem_of_nil
        | by intros ? ?%elem_of_nil | apply NoDup_nil_2 |].
      right. right. exists c, e. by rewrite <- El.
  - simplify_eq. by apply pass_ok_full.
Qed.

(** C16: a scheduling pass fills the free slots.  With a concurrency limit it
    makes at most one lease call per free slot and ends.  The tasks it
    dispatches are distinct, were QUEUED and unleased, and are LEASED in the
    store; no other task has changed; the counter grew by their number; and the
    pass stopped because the limit is reached or because a lease call failed. *)
Theorem schedule_spec now choices s st :
  st_ok st -> 0 < MaxConcurrency (s_config s) ->
  MaxConcurrency (s_config s) - s_runningCount s <= Z.of_nat (length choices) ->
  exists s' st' tasks, schedule now choices s st = Some (s', st', tasks) /\
    s_runningCount s' = s_runningCount s + Z.of_nat (length tasks) /\
    NoDup (map ID tasks) /\
    (forall t, t ∈ tasks -> st_row st' (ID t) = Some t /\ Status t = TaskStatusLeased /\
       exists t0, st_row st (ID t) = Some t0 /\ Status t0 = TaskStatusQueued /\
         LeaseID t0 = None) /\
    (forall id, id ∉ map ID tasks -> st_row st' id = st_row st id) /\
    (MaxConcurrency (s_config s) <= s_runningCount s' \/
     exists c e, leaseTask now c (s' <| s_runningCount := s_runningCount s' + 1 |>) st' = Err e).
Proof.
  intros Hok Hpos Hlen.
  destruct (schedule_ends now choices s st Hpos Hlen) as [[[s' st'] tasks] E].
  pose proof (schedule_pass _ _ _ _ _ _ _ Hok E) as [P1 P2 P3 P4 P5 P6 P7 P8].
  exists s', st', tasks. split_and!; try done.
  - intros t Ht. destruct (P4 t Ht). split_and!; auto.
  - destruct P8 as [[_ ?]|[[? _]|?]]; [by left | lia | by right].
Qed.

(** ** Completions *)

(** A release by the holder of the lease, with counters that fit. *)
Lemma release_by_holder now id l ns opts st t :
  st_ok st -> st_holds st id l t -> l <> ""%string -> enum_task_status ns = true ->
  0 <= ro_Attempt opts <= maxInt32 -> 0 <= ro_MaxAttempts opts <= maxInt32 ->
  set_pos (ro_Attempt opts) (Attempt t) <= set_pos (ro_MaxAttempts opts) (MaxAttempts t) ->
  exists st', st_ReleaseLease now id l ns opts st = Ok st' /\ st_ok st' /\
    st_frame st st' id /\ st_row st' id = Some (release_set now ns opts t).
Proof.
  intros Hok Hh Hl Hns Ha Hm Hle.
  destruct (law_release_total now id l ns opts st Hok Hl Hns Ha Hm) as [st' E].
  { intros t' [Et' _]. destruct Hh as [Et _]. by simplify_eq. }
  pose proof (law_release _ _ _ _ _ _ _ Hok E) as (Hok' & _ & Hfr & Hrow & _).
  exists st'. split_and!; auto.
Qed.

Lemma at_least_1_id n : 1 <= n -> at_least_1 n = n.
Proof. unfold at_least_1. intros. destruct (Z.leb_spec n 0); lia. Qed.

(** What the two completion paths leave behind: [msg] is the error recorded. *)
Definition completed_row (now : time) (success : bool) (msg : string) (t t' : Task) : Prop :=
  LeaseID t' = None /\ LeaseExpiresAt t' = None /\ MaxAttempts t' = MaxAttempts t /\
  UpdatedAt t' = now /\
  if success then
    Status t' = TaskStatusCompleted /\ Attempt t' = Attempt t /\ LastError t' = None
  else LastError t' = nullif_empty msg /\
    if Attempt t <? MaxAttempts t
    then Status t' = TaskStatusQueued /\ Attempt t' = Attempt t + 1
    else Status t' = TaskStatusFailed /\ Attempt t' = Attempt t.

Lemma TaskCompleted_row now id l success msg s st t :
  st_ok st -> st_holds st id l t -> l <> ""%string -> MaxAttempts t <= maxInt32 ->
  exists st' t', TaskCompleted now None id l success msg s st = (decrementRunning s, Ok st') /\
    st_ok st' /\ st_frame st st' id /\ st_row st' id = Some t' /\
    completed_row now success msg t t'.
Proof.
  intros Hok Hh Hl Hmax. pose proof Hh as [Et Hlt].
  destruct (law_row st id t Hok Et) as [Hid [Ha Ham]]. unfold TaskCompleted, completed_row.
  assert (H0 : 0 <= 0 <= maxInt32) by by vm_compute.
  destruct success.
  { destruct (release_by_holder now id l TaskStatusCompleted noRelease st t)
      as (st' & -> & Hok' & Hfr & Hrow); try done.
    eexists st', _. split_and!; [done|done|done|exact Hrow|reflexivity..]. }
  rewrite law_get, Et by done. rewrite !at_least_1_id by lia.
  destruct (Z.ltb_spec (Attempt t) (MaxAttempts t)) as [Hlt'|Hge].
  - destruct (release_by_holder now id l TaskStatusQueued
      (mkReleaseOptions (Attempt t + 1) (MaxAttempts t) msg "") st t)
      as (st' & -> & Hok' & Hfr & Hrow); try done; cbn [ro_Attempt ro_MaxAttempts];
      [lia|lia| |].
    { rewrite <- !set_pos_nullif, !(proj2 (Z.eqb_neq _ 0)) by lia. lia. }
    eexists st', _. split; [done|]. split; [done|]. split; [done|]. split; [exact Hrow|].
    unfold release_set. cbn [ro_Attempt ro_MaxAttempts ro_Error ro_ErrorClass].
    rewrite !(proj2 (Z.eqb_neq _ 0)) by lia. split_and!; reflexivity.
  - destruct (release_by_holder now id l TaskStatusFailed (mkReleaseOptions 0 0 msg "") st t)
      as (st' & -> & Hok' & Hfr & Hrow); try done.
    eexists st', _. split_and!; [done|done|done|exact Hrow|reflexivity..].
Qed.

(** Completion and retry.  When the holder of a lease reports a task done,
    the slot is freed, the lease is cleared and no other task changes.  On
    success the task is COMPLETED with its counters unchanged and its error
    cleared; on failure it is QUEUED again with one more attempt while
    [Attempt < MaxAttempts], and FAILED with its attempt unchanged when none
    remain: so each retry uses up one of the [MaxAttempts - Attempt] left. *)
Theorem TaskCompleted_spec now id l success msg s st t :
  st_ok st -> st_holds st id l t -> l <> ""%string -> MaxAttempts t <= maxInt32 ->
  exists st' t', TaskCompleted now None id l success msg s st = (decrementRunning s, Ok st') /\
    st_ok st' /\ st_frame st st' id /\ st_row st' id = Some t' /\ LeaseID t' = None /\
    MaxAttempts t' = MaxAttempts t /\
    (success = true -> Status t' = TaskStatusCompleted /\ Attempt t' = Attempt t /\
       LastError t' = None) /\
    (success = false -> LastError t' = nullif_empty msg /\
       ((Status t' = TaskStatusQueued /\ Attempt t' = Attempt t + 1 /\ Attempt t' <= MaxAttempts t) \/
        (Status t' = TaskStatusFailed /\ Attempt t' = Attempt t /\ Attempt t = MaxAttempts t))).
Proof.
  intros Hok Hh Hl Hmax. pose proof Hh as [Et _].
  destruct (law_row st id t Hok Et) as [_ [Ha Ham]].
  destruct (TaskCompleted_row now id l success msg s st t Hok Hh Hl Hmax)
    as (st' & t' & E & Hok' & Hfr & Hrow & H1 & _ & H2 & _ & H3).
  exists st', t'. split_and!; try done.
  - intros ->. done.
  - intros ->. destruct H3 as [He H3]. split; [done|].
    destruct (Z.ltb_spec (Attempt t) (MaxAttempts t)); [left|right]; destruct H3; split_and!; lia || done.
Qed.

(** What each dispatch outcome does to the task.  For the holder of the
    lease: a success completes the task; a failure retries or fails it; a paused
    execution releases the task in its current status, a leased or running one
    to PENDING; an interrupted one goes back to QUEUED without using up an
    attempt, unless it is paused or terminal by now; a task terminated by
    someone else is left alone.  The slot is freed in every case. *)
Theorem releaseExecutorLease_spec now paused task outcome msg s st t :
  st_ok st -> st_holds st (ID task) (taskLeaseID task) t ->
  taskLeaseID task <> ""%string -> MaxAttempts t <= maxInt32 ->
  enum_task_status (Status t) = true ->
  exists st', releaseExecutorLease now None paused task outcome msg s st =
      (decrementRunning s, Ok st') /\
    st_ok st' /\ st_frame st st' (ID task) /\
    exists t', st_row st' (ID task) = Some t' /\
    match outcome with
    | dispatchSucceeded => completed_row now true "" t t'
    | dispatchFailed =>
        completed_row now false (errorMsgOrStatus msg TaskStatusFailed) t t'
    | dispatchPaused =>
        LeaseID t' = None /\ Attempt t' = Attempt t /\
        Status t' = (if (Status t =?? TaskStatusLeased) || (Status t =?? TaskStatusRunning)
                     then TaskStatusPending else Status t)
    | dispatchTerminated => t' = t
    | dispatchInterrupted =>
        if paused || isTerminalTaskStatus (Status t) then t' = t
        else Status t' = TaskStatusQueued /\ LeaseID t' = None /\ Attempt t' = Attempt t /\
             MaxAttempts t' = MaxAttempts t
    end.
Proof.
  intros Hok Hh Hl Hmax Henum. pose proof Hh as [Et _].
  destruct (law_row st (ID task) t Hok Et) as [_ [Ha Ham]].
  assert (H0 : 0 <= 0 <= maxInt32) by by vm_compute.
  unfold releaseExecutorLease. rewrite law_get, Et by done. destruct outcome.
  - destruct (TaskCompleted_row now (ID task) (taskLeaseID task) true "" s st t Hok Hh Hl Hmax)
      as (st' & t' & -> & Hok' & Hfr & Hrow & Hc). exists st'. split_and!; eauto.
  - destruct (TaskCompleted_row now (ID task) (taskLeaseID task) false
      (errorMsgOrStatus msg TaskStatusFailed) s st t Hok Hh Hl Hmax)
      as (st' & t' & -> & Hok' & Hfr & Hrow & Hc). exists st'. split_and!; eauto.
  - cbn [res_bind].
    destruct (release_by_holder now (ID task) (taskLeaseID task)
      (if (Status t =?? TaskStatusLeased) || (Status t =?? TaskStatusRunning)
       then TaskStatusPending else Status t) noRelease st t) as (st' & -> & Hok' & Hfr & Hrow); try done.
    { by destruct (_ || _). }
    exists st'. split_and!; try done. eexists. split; [exact Hrow|]. by split_and!.
  - exists st. split_and!; try done. eauto.
  - cbn [res_bind]. destruct paused; simpl; [exists st; split_and!; try done; eauto|].
    destruct (isTerminalTaskStatus (Status t)); simpl; [exists st; split_and!; try done; eauto|].
    destruct (release_by_holder now (ID task) (taskLeaseID task) TaskStatusQueued
      (mkReleaseOptions 0 0 (errorMsgOrStatus msg TaskStatusQueued) "") st t)
      as (st' & -> & Hok' & Hfr & Hrow); try done.
    exists st'. split_and!; try done. eexists. split; [exact Hrow|]. by split_and!.
Qed.

(** ** Recovery *)

(** The sweep left the task's state alone (at most renewed its lease). *)
Definition kept (t0 t' : Task) : Prop :=
  Status t' = Status t0 /\ LeaseID t' = LeaseID t0 /\ Attempt t' = Attempt t0 /\
  MaxAttempts t' = MaxAttempts t0.

(** The sweep recovered the task. *)
Definition recovered (t0 t' : Task) : Prop :=
  LeaseID t' = None /\ LastErrorClass t' = Some TaskFailureClassLeaseExpired /\
  MaxAttempts t' = MaxAttempts t0 /\
  ((Status t' = TaskStatusQueued /\ Attempt t' = Attempt t0 + 1 /\ Attempt t' <= MaxAttempts t0) \/
   (Status t' = TaskStatusFailed /\ Attempt t' = Attempt t0 /\ Attempt t0 = MaxAttempts t0)).

(** When the sweep may recover a task: nobody runs it under a renewable lease,
    and an executor that denies running it has done so for the whole grace. *)
Definition may_recover (exec : option (string -> bool)) (idle : gmap string time)
    (now : time) (grace : duration) (t0 : Task) : Prop :=
  if executing exec (ID t0)
  then ~ (taskLeaseID t0 <> ""%string /\ Status t0 ∈ renewable)
  else match exec with
       | None => True
       | Some _ => grace <= now - default now (idle !! ID t0)
       end.

Lemma recovery_release_spec now t :
  1 <= Attempt t <= MaxAttempts t ->
  enum_task_status (recovery_release t).1 = true /\
  1 <= ro_Attempt (recovery_release t).2 <= MaxAttempts t /\
  ro_MaxAttempts (recovery_release t).2 = MaxAttempts t /\
  forall t', kept t t' ->
    recovered t (release_set now (recovery_release t).1 (recovery_release t).2 t').
Proof.
  intros H. unfold recovery_release. rewrite at_least_1_id by lia.
  unfold recovered, release_set, kept.
  destruct (Z.ltb_spec (MaxAttempts t) (Attempt t + 1)); cbn [fst snd ro_Attempt ro_MaxAttempts];
    rewrite ?(proj2 (Z.eqb_neq _ 0)) by lia; (split_and!; [done|lia|lia|done|]);
    intros t' (_ & _ & _ & _); destruct t'; simpl; split_and!; try done; [right|left]; split_and!; lia || done.
Qed.

Lemma recover_task_other dbnow t s st id :
  st_ok st -> id <> ID t ->
  st_ok (recover_task dbnow t s st).2 /\
  st_row (recover_task dbnow t s st).2 id = st_row st id /\
  s_recoveryIdleSince (recover_task dbnow t s st).1 !! id = s_recoveryIdleSince s !! id.
Proof.
  intros Hok Hne. unfold recover_task. destruct (recovery_release t) as [ns o].
  destruct (st_ReleaseLease _ _ _ _ _ st) as [st'|e] eqn:E; [|done].
  apply law_release in E as (Hok' & _ & Hfr & _); [|done]. simpl.
  split_and!; [done|by apply Hfr|by rewrite lookup_delete_ne].
Qed.

(** Recovering the task [t0] when its row is [t']. *)
Lemma recover_task_self dbnow t0 s st t' :
  st_ok st -> st_row st (ID t0) = Some t' -> 1 <= Attempt t0 <= MaxAttempts t0 ->
  kept t0 t' \/ recovered t0 t' ->
  exists s' st' t'', recover_task dbnow t0 s st = (s', st') /\ st_ok st' /\
    st_row st' (ID t0) = Some t'' /\ (recovered t0 t'' \/ (t'' = t' /\ s' = s /\ kept t0 t')).
Proof.
  intros Hok Et Ha Hk. unfold recover_task.
  destruct (recovery_release_spec dbnow t0 Ha) as (_ & _ & _ & Hrec).
  destruct (recovery_release t0) as [ns o]. simpl in Hrec.
  destruct (st_ReleaseLease _ _ _ _ _ st) as [st'|e] eqn:E.
  2: { exists s, st, t'. split_and!; try done. destruct Hk; auto. }
  apply law_release in E as (Hok' & Hl & _ & Hmine & Hno); [|done].
  destruct Hk as [Hk|Hk].
  - assert (Hh : st_holds st (ID t0) (taskLeaseID t0) t').
    { split; [done|]. destruct Hk as (_ & Hk & _). rewrite Hk. unfold taskLeaseID in *.
      by destruct (LeaseID t0). }
    eexists _, st', _. split; [done|]. split; [done|]. split; [by apply Hmine|]. left. auto.
  - eexists _, st', t'. split; [done|]. split; [done|]. split; [|auto].
    rewrite Hno; [done|]. intros x [Ex Hx]. simplify_eq. destruct Hk as (Hk & _). congruence.
Qed.

(** The sweep's invariant for the task [t0], with the observations [idle] the
    sweep started from. *)
Definition sweep_inv (exec : option (string -> bool)) (idle : gmap string time)
    (now : time) (grace : duration) (t0 : Task) (s : Scheduler) (st : store) : Prop :=
  st_ok st /\ exists t', st_row st (ID t0) = Some t' /\
    ((kept t0 t' /\ (executing exec (ID t0) = false ->
        default now (s_recoveryIdleSince s !! ID t0) = default now (idle !! ID t0))) \/
     (recovered t0 t' /\ may_recover exec idle now grace t0)).

Lemma sweep_inv_recover exec idle now grace t0 dbnow s st :
  1 <= Attempt t0 <= MaxAttempts t0 -> may_recover exec idle now grace t0 ->
  sweep_inv exec idle now grace t0 s st ->
  sweep_inv exec idle now grace t0 (recover_task dbnow t0 s st).1 (recover_task dbnow t0 s st).2.
Proof.
  intros Ha Hmay (Hok & t' & Et & Hk).
  destruct (recover_task_self dbnow t0 s st t' Hok Et Ha) as (s' & st' & t'' & -> & Hok' & Et' & Hk').
  { destruct Hk as [[? _]|[? _]]; auto. }
  split; [done|]. exists t''. split; [done|]. simpl.
  destruct Hk' as [?|(-> & -> & Hkept)]; [by right|].
  destruct Hk as [[_ ?]|[Hrec _]]; [by left | by right].
Qed.

Lemma recover_one_other now dbnow exec grace t s st id :
  st_ok st -> id <> ID t ->
  st_ok (recover_one now dbnow exec grace t s st).2 /\
  st_row (recover_one now dbnow exec grace t s st).2 id = st_row st id /\
  s_recoveryIdleSince (recover_one now dbnow exec grace t s st).1 !! id =
    s_recoveryIdleSince s !! id.
Proof.
  intros Hok Hne. unfold recover_one. destruct (executing exec (ID t)).
  - assert (Hclear : s_recoveryIdleSince (clearRecoveryIdleSince (ID t) s) !! id =
                     s_recoveryIdleSince s !! id) by by apply lookup_delete_ne.
    destruct (_ =?? _); [rewrite <- Hclear; by apply recover_task_other|].
    destruct (st_RenewLease _ _ _ _ st) as [st'|e] eqn:E.
    + apply law_renew in E as (Hok' & Hfr & _); [|done].
      split_and!; [done|by apply Hfr|done].
    + rewrite <- Hclear. by apply recover_task_other.
  - destruct exec; [|by apply recover_task_other]. unfold recordRecoveryIdleSince.
    destruct (s_recoveryIdleSince s !! ID t) eqn:Ei.
    + destruct (_ <? _); [done|by apply recover_task_other].
    + assert (Hins : s_recoveryIdleSince (s <| s_recoveryIdleSince :=
                <[ID t := now]> (s_recoveryIdleSince s) |>) !! id =
                s_recoveryIdleSince s !! id) by by apply lookup_insert_ne.
      destruct (_ <? _); [done|]. rewrite <- Hins. by apply recover_task_other.
Qed.

(** An idle observation about the task itself. *)
Lemma sweep_inv_idle exec idle now grace t0 s s' st :
  sweep_inv exec idle now grace t0 s st ->
  (executing exec (ID t0) = false ->
     default now (s_recoveryIdleSince s' !! ID t0) = default now (s_recoveryIdleSince s !! ID t0)) ->
  sweep_inv exec idle now grace t0 s' st.
Proof.
  intros (Hok & t' & Et & Hk) Hidle. split; [done|]. exists t'. split; [done|].
  destruct Hk as [[Hk Hi]|?]; [left|by right]. split; [done|].
  intros Hex. rewrite Hidle, Hi; done.
Qed.

(** Whether the sweep may recover [t0] can be read off the current state. *)
Lemma sweep_inv_may exec idle now grace t0 s st :
  sweep_inv exec idle now grace t0 s st ->
  (forall t', st_row st (ID t0) = Some t' -> kept t0 t' ->
     (executing exec (ID t0) = false -> default now (s_recoveryIdleSince s !! ID t0) =
        default now (idle !! ID t0)) -> may_recover exec idle now grace t0) ->
  may_recover exec idle now grace t0.
Proof. intros (Hok & t' & Et & [[Hk Hi]|[_ Hmay]]) Hcase; [by eapply Hcase | done]. Qed.

Lemma sweep_inv_self exec idle now grace t0 dbnow s st :
  1 <= Attempt t0 <= MaxAttempts t0 ->
  sweep_inv exec idle now grace t0 s st ->
  sweep_inv exec idle now grace t0 (recover_one now dbnow exec grace t0 s st).1
    (recover_one now dbnow exec grace t0 s st).2.
Proof.
  intros Ha Hinv. unfold recover_one. destruct (executing exec (ID t0)) eqn:Eex.
  - assert (Hinv' : sweep_inv exec idle now grace t0 (clearRecoveryIdleSince (ID t0) s) st).
    { eapply sweep_inv_idle; [exact Hinv|]. congruence. }
    case_bool_decide as Hl.
    { apply sweep_inv_recover; [done| |done]. unfold may_recover. rewrite Eex. by intros [? _]. }
    destruct (st_RenewLease _ _ _ _ st) as [st'|e] eqn:E.
    + destruct Hinv as (Hok & t' & Et & Hk).
      apply law_renew in E as (Hok' & _ & x & [Ex Hx] & _ & Erow); [|done].
      assert (x = t') as -> by congruence. split; [done|]. eexists. split; [exact Erow|].
      destruct Hk as [[Hk _]|[(Hn & _) _]]; [|congruence]. left. split; [exact Hk|]. congruence.
    + apply sweep_inv_recover; [done| |done].
      eapply sweep_inv_may; [exact Hinv|]. intros t' Et (Hs & Hlt & _) _.
      unfold may_recover. rewrite Eex. intros [_ Hr].
      destruct (law_renew_total dbnow (ID t0) (taskLeaseID t0)
        (LeaseDurationSeconds (s_config (clearRecoveryIdleSince (ID t0) s))) st t')
        as [st' E']; [apply Hinv | | by rewrite Hs | congruence].
      split; [done|]. rewrite Hlt. unfold taskLeaseID in *. by destruct (LeaseID t0).
  - destruct exec as [f|].
    2: { by apply sweep_inv_recover; [| |done]; unfold may_recover; rewrite ?Eex. }
    destruct (recordRecoveryIdleSince (ID t0) now s) as [firstSeen s1] eqn:Er.
    assert (Hs1 : s_recoveryIdleSince s1 !! ID t0 = Some firstSeen /\
                  default now (s_recoveryIdleSince s !! ID t0) = firstSeen).
    { unfold recordRecoveryIdleSince in Er.
      destruct (s_recoveryIdleSince s !! ID t0) eqn:Ei; simplify_eq; [by rewrite Ei|].
      split; [|done]. by apply lookup_insert_eq. }
    destruct Hs1 as [Hs1 Hs]. assert (Hinv' : sweep_inv (Some f) idle now grace t0 s1 st).
    { eapply sweep_inv_idle; [exact Hinv|]. by rewrite Hs1, Hs. }
    destruct (Z.ltb_spec (now - firstSeen) grace) as [Hlt|Hge]; [done|].
    apply sweep_inv_recover; [done| |done]. eapply sweep_inv_may; [exact Hinv|].
    intros t' _ _ Hi. unfold may_recover. rewrite Eex, <- Hi, Hs; done.
Qed.

Lemma sweep_inv_fold exec idle now grace t0 dbnow tasks s st :
  1 <= Attempt t0 <= MaxAttempts t0 ->
  (forall t, t ∈ tasks -> ID t = ID t0 -> t = t0) ->
  sweep_inv exec idle now grace t0 s st ->
  let r := foldl (fun acc task => recover_one now dbnow exec grace task acc.1 acc.2)
             (s, st) tasks in
  sweep_inv exec idle now grace t0 r.1 r.2.
Proof.
  intros Ha. revert s st. induction tasks as [|t tasks IH]; intros s st Huniq Hinv; [done|].
  simpl. rewrite (surjective_pairing (recover_one now dbnow exec grace t s st)).
  apply IH; [intros x Hx; apply Huniq; by right|].
  destruct (decide (ID t0 = ID t)) as [Heq|Hne].
  - rewrite (Huniq t) by (done || left). by apply sweep_inv_self.
  - destruct Hinv as (Hok & t' & Et & Hk).
    destruct (recover_one_other now dbnow exec grace t s st (ID t0) Hok Hne) as (Hok' & Er & Ei).
    split; [done|]. exists t'. rewrite Er, Ei. done.
Qed.

Lemma sweep_row_notin now dbnow exec grace tasks s st id r :
  st_ok st -> (forall t, t ∈ tasks -> ID t <> id) ->
  foldl (fun acc task => recover_one now dbnow exec grace task acc.1 acc.2) (s, st) tasks = r ->
  st_row r.2 id = st_row st id.
Proof.
  intros Hok Hn <-. revert s st Hok. induction tasks as [|t tasks IH]; intros s st Hok; [done|].
  simpl. destruct (recover_one_other now dbnow exec grace t s st id Hok) as (Hok' & Er & _).
  { apply not_eq_sym, Hn. left. }
  rewrite (surjective_pairing (recover_one now dbnow exec grace t s st)).
  rewrite IH; [done| |done]. intros x Hx. apply Hn. by right.
Qed.

Lemma kept_refl t : kept t t.
Proof. by split_and!. Qed.


(** ** The dispatch watch loop *)

(** The renewals that were attempted. *)
Definition due (r : renewal) : Prop := r <> RenewNotDue.
#[local] Instance due_dec r : Decision (due r).
Proof. unfold due. destruct r; [right; tauto | left; discriminate..]. Defined.

Definition failed (r : renewal) : Prop := exists e, r = RenewFailed e.

Lemma watch_released_not_cancelled ri ls task ticks w st rs res st' :
  w_leaseReleased w = true -> watch_loop ri ls task ticks w st = (rs, res, st') ->
  forall n, res <> Some (WatchCancelled n).
Proof.
  intros Hrel. revert st rs st'. induction ticks as [|tk ticks IH]; intros st rs st' Hw n.
  { by simplify_eq/=. }
  simpl in Hw. destruct (tk_executing tk); simpl in Hw; [|by simplify_eq].
  unfold renew_step in Hw. rewrite Hrel in Hw. simpl in Hw.
  destruct (tk_ctx_done tk); [by simplify_eq|].
  destruct (watch_loop ri ls task ticks w (tk_env tk st)) as [[rs' res'] st''] eqn:E.
  simplify_eq. by eapply IH.
Qed.

Lemma watch_cancelled ri ls task ticks w st rs n st' :
  0 <= w_renewFailures w < maxRenewFailures ->
  watch_loop ri ls task ticks w st = (rs, Some (WatchCancelled n), st') ->
  n = maxRenewFailures /\
  exists pre fs, filter due rs = pre ++ fs /\ Forall failed fs /\
    (Z.of_nat (length fs) = maxRenewFailures \/
     (pre = [] /\ Z.of_nat (length fs) = maxRenewFailures - w_renewFailures w)).
Proof.
  unfold maxRenewFailures. revert w st rs st'.
  induction ticks as [|tk ticks IH]; intros w st rs st' Hk Hw; [by simplify_eq/=|].
  simpl in Hw. destruct (tk_executing tk); simpl in Hw; [|by simplify_eq].
  destruct w as [lr k rel]. cbn [w_renewFailures] in *. set (w := mkWatch lr k rel) in *.
  destruct (renew_step ri ls task w tk (tk_env tk st)) as [r st1] eqn:Er.
  destruct (escalates r (watch_after ri tk w r)) eqn:Eesc.
  { simplify_eq. destruct r as [| | |e]; simpl in Eesc; try done. unfold maxRenewFailures in Eesc.
    simpl in Eesc. btauto_hyps. simpl. split; [lia|].
    exists [], [RenewFailed e]. split_and!; [done|by repeat constructor; exists e|].
    right. split; [done|]. simpl. lia. }
  destruct (tk_ctx_done tk); [by simplify_eq|].
  destruct (watch_loop ri ls task ticks (watch_after ri tk w r) st1) as [[rs' res'] st''] eqn:E.
  simplify_eq. destruct r as [| | |e]; simpl in *.
  - destruct (IH w _ _ _ Hk E) as (-> & pre & fs & Hd & Hf & Hlen). split; [done|].
    exists pre, fs. rewrite filter_cons_False by by intros ?. done.
  - apply IH in E as (-> & pre & fs & Hd & Hf & Hlen); [|simpl; lia].
    split; [done|]. exists (RenewDone :: pre), fs. rewrite filter_cons_True, Hd by done.
    split_and!; [done|done|]. left. simpl in Hlen. lia.
  - exfalso. by eapply watch_released_not_cancelled in E.
  - unfold maxRenewFailures in Eesc. btauto_hyps.
    apply IH in E as (-> & pre & fs & Hd & Hf & Hlen); [|simpl in *; lia].
    split; [done|]. simpl in Hlen. destruct Hlen as [Hlen|[-> Hlen]].
    + exists (RenewFailed e :: pre), fs. rewrite filter_cons_True, Hd by done. auto.
    + exists [], (RenewFailed e :: fs). rewrite filter_cons_True, Hd by done.
      split_and!; [done|constructor; [by exists e|done]|]. right. split; [done|]. simpl. lia.
Qed.

(** The task either holds its lease in a status a renewal accepts, or has left
    RUNNING and LEASED on purpose. *)
Definition watch_healthy (task : Task) (st : store) : Prop :=
  st_ok st /\ exists t, st_row st (ID task) = Some t /\
    ((LeaseID t = LeaseID task /\ Status t ∈ renewable) \/
     Status t ∉ [TaskStatusRunning; TaskStatusLeased]).

(** A tick without faults that keeps the task healthy. *)
Definition tick_healthy (task : Task) (tk : Tick) : Prop :=
  tk_renew_fault tk = None /\ tk_get_fault tk = None /\
  forall st, watch_healthy task st -> watch_healthy task (tk_env tk st).

Lemma renew_step_healthy ri ls task w tk st r st' :
  watch_healthy task st -> tk_renew_fault tk = None -> tk_get_fault tk = None ->
  renew_step ri ls task w tk st = (r, st') ->
  watch_healthy task st' /\ forall e, r <> RenewFailed e.
Proof.
  intros Hh Hf Hg. pose proof Hh as (Hok & t & Et & Hcase). unfold renew_step.
  destruct (negb _ && _ && _) eqn:Edue; [|by intros [= <- <-]]. rewrite Hf.
  destruct (st_RenewLease _ _ _ _ st) as [st1|e] eqn:Er.
  - intros [= <- <-]. split; [|done].
    apply law_renew in Er as (Hok1 & _ & x & [Ex Hx] & Hs & Erow); [|done].
    assert (x = t) as -> by congruence. split; [done|]. eexists. split; [exact Erow|]. exact Hcase.
  - pose proof (law_renew_err _ _ _ _ _ _ Hok Er) as ->.
    destruct Hcase as [[Hl Hs]|Hs].
    + exfalso. destruct (law_renew_total (tk_dbnow tk) (ID task) (taskLeaseID task) ls st t)
        as [st1 E]; [done| |done|congruence].
      split; [done|]. rewrite Hl. unfold taskLeaseID in *. btauto_hyps.
      by destruct (LeaseID task).
    + unfold leaseClearedByTransition. rewrite Hg, law_get, Et by done.
      rewrite !elem_of_cons, elem_of_nil in Hs.
      rewrite bool_decide_true by done. rewrite !bool_decide_false by tauto.
      simpl. by intros [= <- <-].
Qed.

Lemma watch_healthy_never_cancelled ri ls task ticks w st rs res st' :
  watch_healthy task st -> Forall (tick_healthy task) ticks ->
  watch_loop ri ls task ticks w st = (rs, res, st') ->
  (forall n, res <> Some (WatchCancelled n)) /\ forall e, RenewFailed e ∉ rs.
Proof.
  revert w st rs st'. induction ticks as [|tk ticks IH]; intros w st rs st' Hh Hall Hw.
  { simplify_eq/=. split; [done|]. intros e. apply not_elem_of_nil. }
  apply Forall_cons in Hall as [(Hf & Hg & Henv) Hall]. apply Henv in Hh. simpl in Hw.
  destruct (tk_executing tk); simpl in Hw;
    [|simplify_eq; split; [done|]; intros e; apply not_elem_of_nil].
  destruct (renew_step ri ls task w tk (tk_env tk st)) as [r st1] eqn:Er.
  destruct (renew_step_healthy _ _ _ _ _ _ _ _ Hh Hf Hg Er) as [Hh1 Hr].
  assert (escalates r (watch_after ri tk w r) = false) as Ee.
  { destruct r as [| | |e]; try done. by destruct (Hr e). }
  rewrite Ee in Hw. destruct (tk_ctx_done tk).
  { simplify_eq. split; [done|]. intros e He. apply list_elem_of_singleton in He.
    by apply (Hr e). }
  destruct (watch_loop ri ls task ticks _ st1) as [[rs' res'] st2] eqn:E. simplify_eq.
  destruct (IH _ _ _ _ Hh1 Hall E) as [H1 H2]. split; [done|].
  intros e [He|He]%elem_of_cons; [by apply (Hr e)|by apply (H2 e)].
Qed.

(** A dispatched task is only given up after three lost renewals in a row.
    If the watch loop ends by cancelling the executor, then exactly three
    renewals had failed, they were the last three that were attempted, and
    nothing succeeded between them; a single database blip is tolerated. *)
Theorem dispatch_cancels_after_three_failures ri ls task ticks start st rs n st' :
  watch_loop ri ls task ticks (mkWatch start 0 false) st = (rs, Some (WatchCancelled n), st') ->
  n = 3 /\ exists pre e1 e2 e3,
    filter due rs = pre ++ [RenewFailed e1; RenewFailed e2; RenewFailed e3].
Proof.
  intros Hw. apply watch_cancelled in Hw as (-> & pre & fs & Hd & Hf & Hlen).
  2: { unfold maxRenewFailures. simpl. lia. }
  split; [done|]. unfold maxRenewFailures in Hlen. simpl in Hlen.
  assert (length fs = 3%nat) as H3 by lia.
  destruct fs as [|a [|b [|c [|]]]]; try done.
  rewrite !Forall_cons in Hf. destruct Hf as ([e1 ->] & [e2 ->] & [e3 ->] & _). eauto.
Qed.

(** A task that keeps its lease, or that left RUNNING and LEASED on purpose
    (a checkpoint, an external wait, a pause, a completion or an operator's
    cancel clears the lease), is never cancelled by the watch loop, whatever the
    other processes do to the store in between, as long as the repository
    answers. *)
Theorem dispatch_never_cancels_healthy_task ri ls task ticks start st rs res st' :
  watch_healthy task st -> Forall (tick_healthy task) ticks ->
  watch_loop ri ls task ticks (mkWatch start 0 false) st = (rs, res, st') ->
  (forall n, res <> Some (WatchCancelled n)) /\ forall e, RenewFailed e ∉ rs.
Proof. apply watch_healthy_never_cancelled. Qed.

End Facts.

(** ** Grace and renewal intervals *)

(** A scheduler with the default configuration and some tasks running. *)
Definition default_scheduler (running : Z) : Scheduler :=
  (NewWithOptions None None "s") <| s_runningCount := running |>.

(** With the default configuration the recovery grace never covers a renewal
    cycle.  Whatever the load, the grace period is at most 180 s, while a
    renewal may be due only every 187.5 s. *)
Theorem default_grace_below_peak_renewal running :
  dynamicRecoveryGrace (default_scheduler running) <= 180 * Second /\
  180 * Second <
    computeJitteredRenewInterval (LeaseDurationSeconds DefaultConfig) (37500 * Millisecond).
Proof.
  unfold dynamicRecoveryGrace, default_scheduler. simpl.
  destruct (16 <=? running); [by vm_compute|].
  destruct (6 <=? running); by vm_compute.
Qed.

(** The grace period and the renewal interval stay in their ranges.  For a
    configured grace below 2^61 ns the dynamic grace lies between the base and
    twice the base and does not shrink as the load grows; for a lease below
    2^61 ns and a jitter of at most a quarter of the half lease, the renewal
    interval is at least 3/8 of the lease and 100 ms, and at most 5/8 of the
    lease unless it is the 100 ms floor. *)
Theorem intervals_in_range s s' lease jitter :
  0 < RecoveryIdleGrace (s_config s) < 2 ^ 61 ->
  s_config s' = s_config s -> s_runningCount s <= s_runningCount s' ->
  0 < lease * Second < 2 ^ 61 -> Z.abs jitter * 8 <= lease * Second ->
  RecoveryIdleGrace (s_config s) <= dynamicRecoveryGrace s <= dynamicRecoveryGrace s' /\
  dynamicRecoveryGrace s' <= 2 * RecoveryIdleGrace (s_config s) /\
  100 * Millisecond <= computeJitteredRenewInterval lease jitter /\
  lease * Second * 3 - 4 <= 8 * computeJitteredRenewInterval lease jitter /\
  (computeJitteredRenewInterval lease jitter = 100 * Millisecond \/
   8 * computeJitteredRenewInterval lease jitter <= lease * Second * 5).
Proof.
  intros Hg Hc Hr Hl Hj. unfold dynamicRecoveryGrace. rewrite Hc.
  set (g := RecoveryIdleGrace (s_config s)) in *.
  assert (Hw2 : wrap64 (g * 2) = g * 2).
  { apply wrap64_id. unfold int64_range, minInt64, maxInt64. lia. }
  assert (Hw3 : wrap64 (g * 3) = g * 3).
  { apply wrap64_id. unfold int64_range, minInt64, maxInt64. lia. }
  assert (Hwl : wrap64 (lease * Second) = lease * Second).
  { apply wrap64_id. unfold int64_range, minInt64, maxInt64. lia. }
  rewrite (proj2 (Z.leb_gt g 0)) by lia. rewrite Hw2, Hw3.
  unfold computeJitteredRenewInterval. rewrite Hwl.
  pose proof (Z.quot_rem' (g * 3) 2). pose proof (Z.rem_bound_pos (g * 3) 2).
  pose proof (Z.quot_rem' (lease * Second) 2). pose proof (Z.rem_bound_pos (lease * Second) 2).
  assert (Hs : 1000000000 <= lease * Second) by (unfold Second, Millisecond, Microsecond in *; lia).
  split_and!.
  - destruct (Z.leb_spec 16 (s_runningCount s)), (Z.leb_spec 6 (s_runningCount s)); lia.
  - destruct (Z.leb_spec 16 (s_runningCount s)), (Z.leb_spec 6 (s_runningCount s)),
      (Z.leb_spec 16 (s_runningCount s')), (Z.leb_spec 6 (s_runningCount s')); lia.
  - destruct (Z.leb_spec 16 (s_runningCount s')), (Z.leb_spec 6 (s_runningCount s')); lia.
  - destruct (Z.leb_spec (lease * Second ÷ 2) 0); lia.
  - destruct (Z.leb_spec (lease * Second ÷ 2) 0); lia.
  - destruct (Z.leb_spec (lease * Second ÷ 2) 0); lia.
Qed.

(** ** Examples, on the PostgreSQL store *)

Example intervals_in_range_witness :
  dynamicRecoveryGrace (default_scheduler 0) <= dynamicRecoveryGrace (default_scheduler 20).
Proof.
  apply (intervals_in_range (default_scheduler 0) (default_scheduler 20) 300 0);
    [by vm_compute | reflexivity | by vm_compute | by vm_compute | by vm_compute].
Defined.

Example running_count_exact_witness :
  exists w, rtc wstep (initial_world (T := PostgresStore) None None "s" table_example) w /\
    s_runningCount (w_sched w) = slots_held w /\ slots_held w = 1.
Proof.
  set (w := mkWorld (T := PostgresStore) (default_scheduler 1) table_example 1 []).
  exists w.
  assert (Hr : rtc wstep (initial_world (T := PostgresStore) None None "s" table_example) w).
  { apply rtc_once. exact (ws_reserve (initial_world (T := PostgresStore) None None "s"
      table_example) (default_scheduler 1) eq_refl). }
  split; [exact Hr|]. split; [|reflexivity].
  apply (running_count_exact (T := PostgresStore) None None "s" table_example w Hr).
Defined.

Definition choices_example : list (string * gset string) :=
  (fun n : nat => (String (Ascii.ascii_of_nat (65 + n)) "", ∅)) <$> seq 0 10.

Example schedule_spec_witness :
  exists s' st' tasks,
    schedule (T := PostgresStore) 100 choices_example (default_scheduler 0) table_example
      = Some (s', st', tasks) /\ NoDup (map ID tasks).
Proof.
  destruct (schedule_spec (T := PostgresStore) 100 choices_example (default_scheduler 0)
    table_example table_example_ok) as (s' & st' & tasks & E & _ & Hnd & _);
    [by vm_compute | by vm_compute |].
  by exists s', st', tasks.
Defined.

(** The task [c] of the example table, running under the lease [l1]. *)
Definition running_example : Task :=
  task_example "c" "p1" TaskStatusRunning 50 5 [] (Some "l1"%string).

Lemma running_example_holds :
  st_holds (H := PostgresStore) table_example "c" "l1" running_example.
Proof. split; reflexivity. Qed.

Example TaskCompleted_spec_witness :
  exists st' t', TaskCompleted (T := PostgresStore) 100 None "c" "l1" false "boom"
      (default_scheduler 1) table_example = (default_scheduler 0, Ok st') /\
    LeaseID t' = None.
Proof.
  destruct (TaskCompleted_spec (T := PostgresStore) 100 "c" "l1" false "boom"
    (default_scheduler 1) table_example running_example table_example_ok
    running_example_holds) as (st' & t' & E & _ & _ & _ & Hl & _);
    [discriminate | by vm_compute |].
  by exists st', t'.
Defined.

Example releaseExecutorLease_spec_witness :
  exists st', releaseExecutorLease (T := PostgresStore) 100 None false running_example
      dispatchInterrupted "shutdown" (default_scheduler 1) table_example =
      (default_scheduler 0, Ok st') /\ st_ok (TaskStore := PostgresStore) st'.
Proof.
  destruct (releaseExecutorLease_spec (T := PostgresStore) 100 false running_example
    dispatchInterrupted "shutdown" (default_scheduler 1) table_example running_example
    table_example_ok running_example_holds) as (st' & E & Hok & _);
    [discriminate | by vm_compute | reflexivity |].
  by exists st'.
Defined.


(** Three faults, ten seconds apart. *)
Definition fault_tick_example (at_ : time) : Tick (T := PostgresStore) :=
  mkTick (T := PostgresStore) (fun st => st) true at_ at_ (Some (ErrSQL "57P01")) None None.

Example dispatch_cancels_after_three_failures_witness :
  exists rs n st', watch_loop (T := PostgresStore) (5 * Second) 300 running_example
      (fault_tick_example <$> [10 * Second; 20 * Second; 30 * Second])
      (mkWatch 0 0 false) table_example = (rs, Some (WatchCancelled n), st') /\ n = 3.
Proof.
  eexists _, _, _. split; [vm_compute; reflexivity|].
  refine (proj1 (dispatch_cancels_after_three_failures (T := PostgresStore) (5 * Second) 300
    running_example (fault_tick_example <$> [10 * Second; 20 * Second; 30 * Second]) 0
    table_example _ _ _ _)). vm_compute. reflexivity.
Defined.

Example dispatch_never_cancels_healthy_task_witness :
  exists res, (watch_loop (T := PostgresStore) (5 * Second) 300 running_example
      [mkTick (T := PostgresStore) (fun st => st) true (10 * Second) (10 * Second) None None None]
      (mkWatch 0 0 false) table_example).1.2 = res /\ res <> Some (WatchCancelled 3).
Proof.
  eexists. split; [reflexivity|]. generalize 3.
  refine (proj1 (dispatch_never_cancels_healthy_task (T := PostgresStore) (5 * Second) 300
    running_example
    [mkTick (T := PostgresStore) (fun st => st) true (10 * Second) (10 * Second) None None None]
    0 table_example _ _ _ _ _ _)).
  - split; [exact table_example_ok|]. exists running_example. split; [reflexivity|].
    left. split; [reflexivity|]. apply (bool_decide_unpack _). vm_compute. exact I.
  - apply Forall_singleton. by split_and!.
  - vm_compute. reflexivity.
Defined.
