(* ===== verification/ExternalWait.v ===== *)
(** * The external-wait monitor

    [src/internal/scheduler/external_wait.go]: the periodic scan that requeues
    AWAITING_EXTERNAL tasks whose deadline has passed and closes COMPLETED tasks
    whose closure request was never answered.  The monitor works on the table of
    the PostgreSQL repository; the message thread is the list of the system
    messages it inserted, newest last, and [closureRequests] gives the creation
    times of the closure requests stored for a task. *)
From S2P Require Import Prelude TaskModel StateMachine TaskRepo TaskRepoFacts.

Section Monitor.
Context `{pg : Postgres}.

Inductive MonitorMsg : Type :=
| MsgDeadlineReached (taskID : string) (expectedBy : option time) (at_ : time)
| MsgTaskClosed (taskID : string) (at_ : time).

Record Monitor : Type := mkMonitor {
  m_tasks : Table;
  m_messages : list MonitorMsg;
  m_wakes : nat
}.

Definition awaiting_filter (limit : Z) : TaskFilter :=
  mkTaskFilter None (Some TaskStatusAwaitingExternal) None limit 0.

(** [!t.ExpectedBy.After(now)]. *)
Definition deadline_passed (now : time) (t : Task) : bool :=
  match ExpectedBy t with Some e => e <=? now | None => false end.

(** [findExpired]: one page of waiting tasks, then the deadline test. *)
Definition findExpired (now : time) (limit : Z) (tbl : Table) : result RepoError (list Task) :=
  let! tasks := List (awaiting_filter limit) tbl in
  Ok (filter (fun t => deadline_passed now t = true) tasks).

(** [requeue]: the message is written before the conditional transition. *)
Definition requeue (now : time) (t : Task) (m : Monitor) : Monitor :=
  match ValidateTransition (Status t) TaskStatusQueued TriggerExternalDeadline with
  | Err _ => m
  | Ok _ =>
      let m := m <| m_messages := m_messages m ++ [MsgDeadlineReached (ID t) (ExpectedBy t) now] |> in
      match TransitionConditional now (ID t) [TaskStatusAwaitingExternal] TaskStatusQueued
              (noTransitionOpts <| opt_ClearLease := true |>) (m_tasks m) with
      | Ok (true, tbl) => mkMonitor tbl (m_messages m) (S (m_wakes m))
      | Ok (false, _) | Err _ => m
      end
  end.

Definition closureGracePeriod : duration := 14 * 24 * Hour.

Definition close_opts : TransitionOpts :=
  noTransitionOpts <| opt_ClosedBy := Some "system_after_grace_period"%string |>
    <| opt_SetClosedAtNow := true |>.

(** The page of closure requests the scan reads: the message repository lists
    oldest first ([task_message_repository.go], [List]) and the limit is 5. *)
Definition closure_page (requests : list time) : list time :=
  take 5 (order_by (fun c => [c]) requests).

(** One iteration of [scanClosureGrace]; a failed message query is [None]. *)
Definition close_stale (now cutoff : time) (closureRequests : string -> option (list time))
    (t : Task) (m : Monitor) : Monitor :=
  match closureRequests (ID t) ≫= (fun l => last (closure_page l)) with
  | None => m
  | Some latest =>
      if cutoff <? latest then m
      else match TransitionConditional now (ID t) [TaskStatusCompleted] TaskStatusClosed
                   close_opts (m_tasks m) with
           | Ok (true, tbl) =>
               mkMonitor tbl (m_messages m ++ [MsgTaskClosed (ID t) now]) (m_wakes m)
           | Ok (false, _) | Err _ => m
           end
  end.

Definition scanClosureGrace (now : time) (closureRequests : string -> option (list time))
    (m : Monitor) : Monitor :=
  let cutoff := now - closureGracePeriod in
  match List (mkTaskFilter None (Some TaskStatusCompleted) (Some cutoff) 500 0) (m_tasks m) with
  | Err _ => m
  | Ok tasks => foldl (fun m t => close_stale now cutoff closureRequests t m) m tasks
  end.

Definition scanOnce (now : time) (closureRequests : string -> option (list time))
    (m : Monitor) : Monitor :=
  let m := match findExpired now 100 (m_tasks m) with
           | Err _ => m
           | Ok tasks => foldl (fun m t => requeue now t m) m tasks
           end in
  scanClosureGrace now closureRequests m.

(** [tick]: the leader gate, then a scan. *)
Definition monitor_tick (leader : option bool) (now : time)
    (closureRequests : string -> option (list time)) (m : Monitor) : Monitor :=
  match leader with
  | Some false => m
  | _ => scanOnce now closureRequests m
  end.

(** ** Lemmas *)

Lemma List_elem flt tbl l t :
  List flt tbl = Ok l -> t ∈ l ->
  exists r, r ∈ tbl /\ t = scanTask r /\ filter_where flt r = true /\
    opt_filter (flt_UpdatedBefore flt) (fun u => UpdatedAt r <? ts_in u) = true.
Proof.
  unfold List, with_binds. destruct (bind_errors _); [done|]. simpl. intros [= <-] Ht.
  apply list_elem_of_fmap in Ht as (r & -> & Hr). exists r.
  apply (sublist_elem_of' _ _ _ (limit_offset_sublist _ _ _)) in Hr.
  rewrite elem_of_order_by, elem_of_select_rows, andb_true_iff in Hr. naive_solver.
Qed.

(** What a scan may do to one task. *)
Inductive scan_effect (now : time) (closureRequests : string -> option (list time))
    (t : Task) : Task -> Prop :=
| se_same : scan_effect now closureRequests t t
| se_requeued :
    Status t = TaskStatusAwaitingExternal -> deadline_passed now t = true ->
    scan_effect now closureRequests t (transition_set now TaskStatusQueued
      (noTransitionOpts <| opt_ClearLease := true |>) t)
| se_closed l latest :
    Status t = TaskStatusCompleted -> UpdatedAt t < ts_in (now - closureGracePeriod) ->
    closureRequests (ID t) = Some l -> last (closure_page l) = Some latest ->
    latest <= now - closureGracePeriod ->
    scan_effect now closureRequests t (transition_set now TaskStatusClosed close_opts t).

(** The invariant of both folds, relative to the table the scan started from. *)
Definition scan_inv (now : time) (cr : string -> option (list time)) (tbl0 : Table)
    (m : Monitor) : Prop :=
  table_ok (m_tasks m) /\
  forall id, match row tbl0 id with
             | None => row (m_tasks m) id = None
             | Some t => exists t', row (m_tasks m) id = Some t' /\ scan_effect now cr t t'
             end.

(** A conditional transition of one task keeps the invariant if the task's own
    transition is one the scan may make. *)
Lemma scan_inv_transition now cr tbl0 m id from to opts b tbl' msgs wakes :
  scan_inv now cr tbl0 m ->
  TransitionConditional now id from to opts (m_tasks m) = Ok (b, tbl') ->
  (forall t t', row tbl0 id = Some t -> row (m_tasks m) id = Some t' -> scan_effect now cr t t' ->
     status_in from t' = true -> scan_effect now cr t (transition_set now to opts t')) ->
  scan_inv now cr tbl0 (mkMonitor tbl' msgs wakes).
Proof.
  intros [Hok Hrows] Htc Heff.
  destruct (TransitionConditional_rows now id from to opts _ b tbl' Hok Htc) as [Hok' Hr].
  split; [done|]. intros id'. specialize (Hrows id'). simpl. rewrite Hr.
  destruct (row tbl0 id') as [t|] eqn:Et; [|by rewrite Hrows].
  destruct Hrows as (t' & Et' & Hse). rewrite Et'. simpl. eexists. split; [done|].
  destruct (bool_decide_reflect (id' = id)) as [->|]; [|done]. simpl.
  destruct (status_in from t') eqn:Es; [|done]. by eapply Heff.
Qed.

Lemma requeue_inv now cr tbl0 m x :
  scan_inv now cr tbl0 m ->
  (exists r, row tbl0 (ID x) = Some r /\ deadline_passed now r = true) ->
  scan_inv now cr tbl0 (requeue now x m).
Proof.
  intros Hinv (r & Er & Hd). unfold requeue. destruct (ValidateTransition _ _ _); [|done].
  cbv zeta. destruct (TransitionConditional _ _ _ _ _ _) as [[[] tbl']|e] eqn:Etc; [|exact Hinv..].
  eapply (scan_inv_transition _ _ _ m); [done|exact Etc|].
  intros t t' Et Et' Hse Hs. apply status_in_spec, list_elem_of_singleton in Hs.
  assert (t = r) as -> by congruence. destruct Hse; [by apply se_requeued | done | done].
Qed.

Lemma close_inv now cr tbl0 m x :
  scan_inv now cr tbl0 m ->
  (forall t, row tbl0 (ID x) = Some t -> Status t = TaskStatusCompleted ->
     UpdatedAt t < ts_in (now - closureGracePeriod)) ->
  scan_inv now cr tbl0 (close_stale now (now - closureGracePeriod) cr x m).
Proof.
  intros Hinv Hupd. unfold close_stale. destruct (cr (ID x)) as [l|] eqn:Ec; [|done]. simpl.
  destruct (last (closure_page l)) as [latest|] eqn:El; [|done].
  destruct (Z.ltb_spec (now - closureGracePeriod) latest) as [|Hle]; [done|].
  destruct (TransitionConditional _ _ _ _ _ _) as [[[] tbl']|e] eqn:Etc; [|exact Hinv..].
  eapply (scan_inv_transition _ _ _ m); [done|exact Etc|].
  intros t t' Et Et' Hse Hs. apply status_in_spec, list_elem_of_singleton in Hs.
  destruct Hse; [|done|done]. destruct (row_Some_1 _ _ _ Et) as [_ Hid].
  eapply se_closed; try done; [by apply Hupd | by rewrite Hid].
Qed.

Lemma scan_inv_fold now cr tbl0 (f : Task -> Monitor -> Monitor) tasks m :
  (forall x m, x ∈ tasks -> scan_inv now cr tbl0 m -> scan_inv now cr tbl0 (f x m)) ->
  scan_inv now cr tbl0 m -> scan_inv now cr tbl0 (foldl (fun m t => f t m) m tasks).
Proof.
  revert m. induction tasks as [|x tasks IH]; intros m Hf Hinv; [done|]. simpl.
  apply IH; [intros y m' Hy; apply Hf; by right|]. apply Hf; [left|done].
Qed.

Lemma scanOnce_inv now cr m :
  table_ok (m_tasks m) -> scan_inv now cr (m_tasks m) (scanOnce now cr m).
Proof.
  intros Hok. set (tbl0 := m_tasks m).
  assert (H0 : scan_inv now cr tbl0 m).
  { split; [done|]. intros id. destruct (row tbl0 id) as [t|] eqn:Et; [|done].
    exists t. split; [done|constructor]. }
  unfold scanOnce. fold tbl0.
  set (m1 := match findExpired now 100 tbl0 with Err _ => m | Ok tasks => _ end).
  assert (H1 : scan_inv now cr tbl0 m1).
  { unfold m1. destruct (findExpired now 100 tbl0) as [tasks|e] eqn:Ef; [|done].
    unfold findExpired in Ef. apply res_bind_ok in Ef as (l & El & [= <-]).
    apply scan_inv_fold; [|done]. intros x m' Hx Hinv. apply requeue_inv; [done|].
    apply list_elem_of_filter in Hx as [Hd Hx].
    destruct (List_elem _ _ _ _ El Hx) as (r & Hr & -> & _).
    exists r. split; [|exact Hd]. apply row_Some; [apply Hok|by split]. }
  clearbody m1. unfold scanClosureGrace. cbv zeta.
  destruct (List _ (m_tasks m1)) as [tasks|e] eqn:El; [|done].
  apply scan_inv_fold; [|done]. intros x m' Hx Hinv. apply close_inv; [done|].
  intros t Et Hs. destruct (List_elem _ _ _ _ El Hx) as (r & Hr & -> & Hw & Hu).
  simpl in Hu. apply Z.ltb_lt in Hu. change (ID (scanTask r)) with (ID r) in Et.
  destruct H1 as [Hok1 Hrows]. specialize (Hrows (ID r)). rewrite Et in Hrows.
  destruct Hrows as (t' & Et' & Hse).
  assert (Er : row (m_tasks m1) (ID r) = Some r) by (apply row_Some; [apply Hok1|done]).
  assert (t' = r) as -> by congruence.
  destruct Hse as [|Hs' _|l latest Hs' Hupd]; [done|congruence|done].
Qed.

(** A scan only does what it is for.  After [scanOnce] every task is as it
    was, or it was AWAITING_EXTERNAL with a deadline that has passed and is
    QUEUED without a lease, or it was COMPLETED, untouched for 14 days, the last
    of its five oldest closure requests is that old too, and it is CLOSED by the
    system. *)
Theorem scanOnce_spec now closureRequests m :
  table_ok (m_tasks m) ->
  table_ok (m_tasks (scanOnce now closureRequests m)) /\
  forall id,
    match row (m_tasks m) id with
    | None => row (m_tasks (scanOnce now closureRequests m)) id = None
    | Some t => exists t', row (m_tasks (scanOnce now closureRequests m)) id = Some t' /\
                           scan_effect now closureRequests t t'
    end.
Proof. apply scanOnce_inv. Qed.

(** In a list sorted by key, everything strictly before [t] comes first. *)
Lemma sorted_before {A} (k : A -> Z) (l : list A) (n : nat) (t : A) :
  StronglySorted (key_le (fun t => [k t])) l -> t ∈ take n l ->
  (count_if (fun u => (k u <? k t)%Z) l < n)%nat.
Proof.
  intros Hs Ht. apply list_elem_of_split in Ht as (l1 & l2 & Hl).
  assert (El : l = l1 ++ t :: (l2 ++ drop n l)).
  { rewrite <- (take_drop n l) at 1. by rewrite Hl, <- app_assoc. }
  assert (Hn : (length l1 < n)%nat).
  { pose proof (length_take l n) as Hlen. rewrite Hl, length_app in Hlen. simpl in Hlen. lia. }
  rewrite El in Hs |- *. apply StronglySorted_app in Hs as (_ & _ & Hs).
  apply StronglySorted_cons in Hs as [Hall _]. rewrite Forall_forall in Hall.
  rewrite count_if_app, count_if_cons, Z.ltb_irrefl.
  assert (E0 : count_if (fun u => (k u <? k t)%Z) (l2 ++ drop n l) = 0%nat).
  { apply count_if_zero. intros u Hu. apply Z.ltb_ge. specialize (Hall u Hu).
    unfold key_le in Hall. simpl in Hall. lia. }
  rewrite E0. pose proof (count_if_le_length (fun u => (k u <? k t)%Z) l1). lia.
Qed.

(** Old deadlines starve.  The scan reads one page, the newest [limit]
    waiting tasks, before it looks at deadlines: a waiting task that at least
    [limit] newer ones are waiting with is not found, however long its deadline
    has passed. *)
Theorem findExpired_starves_old_tasks now limit tbl l t :
  0 < limit -> findExpired now limit tbl = Ok l ->
  t ∈ tbl -> Status t = TaskStatusAwaitingExternal ->
  limit <= Z.of_nat (count_if (fun u => (Status u =?? TaskStatusAwaitingExternal) &&
                                        (CreatedAt t <? CreatedAt u)) tbl) ->
  scanTask t ∉ l.
Proof.
  intros Hlim Hf Ht Hst Hcount Hin. unfold findExpired in Hf.
  apply res_bind_ok in Hf as (page & Hp & [= <-]).
  apply list_elem_of_filter in Hin as [_ Hin]. unfold List, with_binds in Hp. simpl in Hp.
  injection Hp as <-. apply list_elem_of_fmap in Hin as (r & Er & Hr).
  unfold limit_offset in Hr. simpl in Hr. rewrite (proj2 (Z.ltb_lt 0 limit)) in Hr by done.
  apply (sorted_before (fun t => - CreatedAt t)) in Hr; [|apply order_by_sorted].
  rewrite order_by_perm in Hr.
  assert (Hc : CreatedAt r = CreatedAt t) by (apply (f_equal CreatedAt) in Er; exact (eq_sym Er)).
  unfold select_rows in Hr. rewrite count_if_filter in Hr.
  rewrite (count_if_ext _ (fun u => (Status u =?? TaskStatusAwaitingExternal) &&
    (CreatedAt t <? CreatedAt u))) in Hr; [lia|].
  intros u _. unfold filter_where. simpl. rewrite Hc, andb_true_r. f_equal.
  destruct (Z.ltb_spec (- CreatedAt u) (- CreatedAt t)), (Z.ltb_spec (CreatedAt t) (CreatedAt u)); lia.
Qed.

(** A transition that leaves the counters alone succeeds on a row it matches. *)
Lemma TransitionConditional_total now id from to opts tbl t :
  table_ok tbl -> row tbl id = Some t -> status_in from t = true ->
  id <> ""%string -> to <> TaskStatusEmpty ->
  enum_task_status to = true -> forallb enum_task_status from = true ->
  opt_Attempt opts = 0 -> opt_MaxAttempts opts = 0 ->
  exists tbl', TransitionConditional now id from to opts tbl = Ok (true, tbl') /\
    row tbl' id = Some (transition_set now to opts t).
Proof.
  intros Hok Et Hs Hid Hto Hto' Hfrom Ha Hm.
  assert (Hnil : from <> []).
  { intros ->. unfold status_in in Hs. by apply bool_decide_eq_true, elem_of_nil in Hs. }
  unfold TransitionConditional. rewrite !bool_decide_false by done. simpl.
  unfold with_binds, sql_enum, sql_int4. rewrite Hto', Hfrom, Ha, Hm. simpl.
  pose proof (keyed_update (transition_set now to opts) tbl id (status_in from) Hok
                (transition_set_same_keys now to opts)) as H.
  destruct (exec_update _ _ tbl) as [r|e]; simpl.
  - destruct H as (Haff & Hrow & _). exists (fst r). rewrite (proj2 Haff) by eauto.
    split; [done|]. by rewrite Hrow, Et, bool_decide_true by done; simpl; rewrite Hs.
  - exfalso. destruct H as [_ (u & Eu & _ & Hr)]. assert (u = t) as -> by congruence.
    apply row_Some_1 in Et as [Ht _]. pose proof (ok_checks _ Hok t Ht) as Hc.
    unfold row_checks, transition_set in *. rewrite Ha, Hm in Hr.
    destruct t. cbn in *. congruence.
Qed.

(** The last of the five oldest requests is old as soon as five requests are. *)
Lemma closure_page_old cutoff l :
  (5 <= count_if (fun c => (c <=? cutoff)%Z) l)%nat ->
  exists latest, last (closure_page l) = Some latest /\ latest <= cutoff.
Proof.
  intros Hc. unfold closure_page. set (s := order_by (fun c : Z => [c]) l).
  assert (Hp : s ≡ₚ l) by apply order_by_perm. rewrite <- Hp in Hc.
  assert (Hlen : (5 <= length s)%nat).
  { etrans; [exact Hc|]. apply count_if_le_length. }
  destruct (last (take 5 s)) as [latest|] eqn:E.
  - exists latest. split; [done|]. apply Z.le_ngt. intros Hlt.
    apply last_Some_elem_of in E.
    apply (sorted_before (fun c : Z => c)) in E; [|apply order_by_sorted].
    assert (count_if (fun c => (c <=? cutoff)%Z) s <= count_if (fun c => (c <? latest)%Z) s)%nat.
    { apply count_if_mono. intros c _. rewrite Z.leb_le, Z.ltb_lt. lia. }
    lia.
  - apply last_None in E. apply (f_equal length) in E. by rewrite length_take, Nat.min_l in E by done.
Qed.

(** A fresh closure request does not keep a task open.  The scan takes the
    last message of a page that lists the five oldest closure requests: once five
    requests are older than 14 days, a COMPLETED task is closed whatever requests
    were made since. *)
Theorem close_ignores_newer_requests (now : time) (requests : string -> option (list time))
    (l : list time) (t : Task) (m : Monitor) :
  table_ok (m_tasks m) -> row (m_tasks m) (ID t) = Some t ->
  Status t = TaskStatusCompleted -> ID t <> ""%string ->
  requests (ID t) = Some l ->
  (5 <= count_if (fun c => (c <=? now - closureGracePeriod)%Z) l)%nat ->
  row (m_tasks (close_stale now (now - closureGracePeriod) requests t m)) (ID t) =
    Some (transition_set now TaskStatusClosed close_opts t).
Proof.
  intros Hok Et Hs Hid Hl Hc. unfold close_stale. rewrite Hl. simpl.
  destruct (closure_page_old _ _ Hc) as (latest & -> & Hle).
  rewrite (proj2 (Z.ltb_ge _ _) Hle).
  destruct (TransitionConditional_total now (ID t) [TaskStatusCompleted] TaskStatusClosed
    close_opts (m_tasks m) t) as (tbl' & -> & Er); try done.
  apply status_in_spec. rewrite Hs. left.
Qed.

End Monitor.

(** ** Examples *)

(** Two waiting tasks: the older one's deadline passed at 50. *)
Definition waiting_example : Table :=
  [ (task_example "old" "p1" TaskStatusAwaitingExternal 50 10 [] None) <| ExpectedBy := Some 50 |>;
    task_example "new" "p1" TaskStatusAwaitingExternal 50 20 [] None ].

Lemma waiting_example_ok : table_ok waiting_example.
Proof.
  split.
  - apply (bool_decide_unpack _). vm_compute. exact I.
  - apply (bool_decide_unpack _). vm_compute. exact I.
  - intros t Ht. unfold waiting_example in Ht.
    rewrite !elem_of_cons, elem_of_nil in Ht. by destruct_or! Ht; subst.
  - intros t Ht. unfold waiting_example in Ht.
    rewrite !elem_of_cons, elem_of_nil in Ht. by destruct_or! Ht; subst.
Qed.

Lemma waiting_example_requeued :
  Status <$> row (m_tasks (scanOnce (pg := pg_example) 100 (fun _ => None)
      (mkMonitor waiting_example [] 0))) "old" = Some TaskStatusQueued.
Proof. vm_compute. reflexivity. Qed.

Example scanOnce_spec_witness :
  exists t, head waiting_example = Some t /\
  exists t', row (m_tasks (scanOnce (pg := pg_example) 100 (fun _ => None)
      (mkMonitor waiting_example [] 0))) "old" = Some t' /\
    scan_effect (pg := pg_example) 100 (fun _ => None) t t' /\ Status t' = TaskStatusQueued.
Proof.
  eexists. split; [reflexivity|].
  destruct (proj2 (scanOnce_spec (pg := pg_example) 100 (fun _ => None)
    (mkMonitor waiting_example [] 0) waiting_example_ok) "old"%string) as (t' & Et & He).
  exists t'. split_and!; [exact Et | exact He |].
  pose proof waiting_example_requeued as H. rewrite Et in H. by injection H.
Defined.

Lemma waiting_example_found : findExpired (pg := pg_example) 100 1 waiting_example = Ok [].
Proof. vm_compute. reflexivity. Qed.

Lemma waiting_example_newer t :
  head waiting_example = Some t ->
  1 <= Z.of_nat (count_if (fun u => (Status u =?? TaskStatusAwaitingExternal) &&
                                    (CreatedAt t <? CreatedAt u)) waiting_example).
Proof. intros [= <-]. apply Z.leb_le. vm_compute. reflexivity. Qed.

Example findExpired_starves_old_tasks_witness :
  exists t l, head waiting_example = Some t /\ deadline_passed 100 t = true /\
    findExpired (pg := pg_example) 100 1 waiting_example = Ok l /\ scanTask t ∉ l.
Proof.
  eexists _, []. split_and!; [reflexivity | reflexivity | exact waiting_example_found |].
  apply (findExpired_starves_old_tasks (pg := pg_example) 100 1 waiting_example [] _).
  - lia.
  - exact waiting_example_found.
  - left.
  - reflexivity.
  - apply waiting_example_newer. reflexivity.
Defined.

Definition month_example : time := 30 * 24 * Hour.

(** Five requests of the first instants and a sixth a month later. *)
Definition requests_example : list time := [0; 1; 2; 3; 4; month_example].

Lemma requests_example_old :
  (5 <= count_if (fun c => (c <=? month_example - closureGracePeriod)%Z) requests_example)%nat.
Proof. apply Nat.leb_le. vm_compute. reflexivity. Qed.

Definition closable_example : Task := task_example "d" "p2" TaskStatusCompleted 50 1 [] None.

Lemma closable_example_row : row (m_tasks (mkMonitor table_example [] 0)) (ID closable_example) = Some closable_example.
Proof. reflexivity. Qed.

Example close_ignores_newer_requests_witness :
  row (m_tasks (close_stale (pg := pg_example) month_example
         (month_example - closureGracePeriod) (fun _ => Some requests_example)
         closable_example (mkMonitor table_example [] 0))) (ID closable_example) =
    Some (transition_set (pg := pg_example) month_example TaskStatusClosed close_opts
            closable_example).
Proof.
  apply (close_ignores_newer_requests month_example (fun _ => Some requests_example)
    requests_example closable_example (mkMonitor table_example [] 0)).
  - exact table_example_ok.
  - exact closable_example_row.
  - reflexivity.
  - discriminate.
  - reflexivity.
  - exact requests_example_old.
Defined.
