(* ===== verification/LeaderElection.v ===== *)
(** * Leader election and the epoch fence

    [src/internal/leaderelection/elector.go] and [fence.go] over the lock table
    of [src/internal/persistence/postgres/leader_lock_repository.go], and the
    SQLite lock repository.  The table is a map from worker ids to rows; every
    daemon reads its own clock, and a repository call can fail before or after
    its statement took effect.  An elector's goroutines (the renew loop and the
    drain's [Release]) interleave between the database call and the update of
    the cached leader bit: a [Daemon] keeps the replies that are on their way. *)
From S2P Require Import Prelude TaskModel TaskRepo.

(** ** The lock table *)

Record DaemonLeaderLock : Type := mkLock {
  HolderID : string;
  AcquiredAt : time;
  RenewedAt : time;
  ExpiresAt : time;
  Epoch : Z
}.

Definition IsHeldBy (l : DaemonLeaderLock) (holderID : string) (now : time) : bool :=
  (HolderID l =?? holderID) && negb (ExpiresAt l <? now).

Abbreviation LockTable := (gmap string DaemonLeaderLock).

Inductive LockError : Type :=
| ErrIDsRequired
| ErrTTLNotPositive
| ErrLockNotFound
| ErrLockDB (msg : string).

#[export] Instance LockError_eq_dec : EqDecision LockError.
Proof. solve_decision. Defined.

(** ** The PostgreSQL repository *)

Section Postgres.
Context `{pg : Postgres}.

(** The row of [ON CONFLICT DO UPDATE SET]. *)
Definition acquire_conflict (holderID : string) (now : time) (expires : time)
    (l : DaemonLeaderLock) : DaemonLeaderLock := {|
  HolderID := holderID;
  AcquiredAt := if HolderID l =?? holderID then AcquiredAt l else now;
  RenewedAt := now;
  ExpiresAt := expires;
  Epoch := if HolderID l =?? holderID then Epoch l else Epoch l + 1 |}.

(** [Acquire]: [(acquired, epoch)] and the table.  A bigint overflow is error
    22003. *)
Definition Acquire (workerID holderID : string) (now : time) (ttl : duration)
    (tbl : LockTable) : result LockError (bool * Z * LockTable) :=
  if (workerID =?? ""%string) || (holderID =?? ""%string) then Err ErrIDsRequired
  else if ttl <=? 0 then Err ErrTTLNotPositive
  else
    let renewed := ts_in now in
    let expires := ts_in (now + ttl) in
    match tbl !! workerID with
    | None =>
        Ok (true, 1, <[workerID := mkLock holderID renewed renewed expires 1]> tbl)
    | Some l =>
        if (ExpiresAt l <? renewed) || (HolderID l =?? holderID) then
          let l' := acquire_conflict holderID renewed expires l in
          if maxInt64 <? Epoch l' then Err (ErrLockDB "22003")
          else Ok (HolderID l' =?? holderID, Epoch l', <[workerID := l']> tbl)
        else Ok (false, 0, tbl)
    end.

Definition Renew (workerID holderID : string) (now : time) (ttl : duration)
    (tbl : LockTable) : result LockError (bool * LockTable) :=
  if (workerID =?? ""%string) || (holderID =?? ""%string) then Err ErrIDsRequired
  else if ttl <=? 0 then Err ErrTTLNotPositive
  else
    match tbl !! workerID with
    | Some l =>
        if HolderID l =?? holderID then
          Ok (true, <[workerID := mkLock (HolderID l) (AcquiredAt l) (ts_in now)
                                    (ts_in (now + ttl)) (Epoch l)]> tbl)
        else Ok (false, tbl)
    | None => Ok (false, tbl)
    end.

(** [Release]: [dbnow] is the database's clock. *)
Definition Release (dbnow : time) (workerID holderID : string) (tbl : LockTable) : LockTable :=
  match tbl !! workerID with
  | Some l =>
      if HolderID l =?? holderID then
        <[workerID := mkLock (HolderID l) (AcquiredAt l) (RenewedAt l) dbnow (Epoch l)]> tbl
      else tbl
  | None => tbl
  end.

End Postgres.

Definition Get (workerID : string) (tbl : LockTable) : result LockError DaemonLeaderLock :=
  match tbl !! workerID with Some l => Ok l | None => Err ErrLockNotFound end.

(** ** The SQLite repository

    A read followed by an upsert; [Renew] and [Release] do nothing. *)
Module Sqlite.

Definition Acquire (workerID holderID : string) (now : time) (ttl : duration)
    (tbl : LockTable) : result LockError (bool * Z * LockTable) :=
  let declined :=
    match tbl !! workerID with
    | Some cur => negb (HolderID cur =?? holderID) && negb (ExpiresAt cur <? now)
    | None => false
    end in
  if declined then Ok (false, 0, tbl)
  else
    let newEpoch :=
      match tbl !! workerID with
      | None => 1
      | Some cur => if HolderID cur =?? holderID then Epoch cur else wrap64 (Epoch cur + 1)
      end in
    let acquiredAt :=
      match tbl !! workerID with
      | Some cur => if HolderID cur =?? holderID then AcquiredAt cur else now
      | None => now
      end in
    Ok (true, newEpoch,
        <[workerID := mkLock holderID acquiredAt now (now + ttl) newEpoch]> tbl).

Definition Renew (workerID holderID : string) (now : time) (ttl : duration)
    (tbl : LockTable) : result LockError (bool * LockTable) := Ok (true, tbl).

Definition Release (dbnow : time) (workerID holderID : string) (tbl : LockTable) : LockTable :=
  tbl.

End Sqlite.

(** ** The elector *)

Definition DefaultTTL : duration := 60 * Second.
Definition MinTTL : duration := 5 * Second.

Record Elector : Type := mkElector {
  e_workerID : string;
  e_holderID : string;
  e_ttl : duration;
  e_leader : bool;
  e_lastErr : option LockError;
  e_epoch : Z
}.

Definition New (workerID holderID : string) (ttl : duration) : Elector :=
  mkElector workerID holderID (if ttl <? MinTTL then DefaultTTL else ttl) false None 0.

(** The period of the renew loop in [Run]. *)
Definition renew_tick (e : Elector) : duration :=
  let tick := Z.quot (e_ttl e) 3 in if tick <? Second then Second else tick.

(** What can go wrong with one repository call: an error before the statement
    took effect, or the loss of its reply after it did. *)
Inductive Fault : Type :=
| NoFault
| FaultBefore (msg : string)
| FaultAfter (msg : string).

(** The reply [tryAcquireOrRenew] works on; the epoch comes from [Acquire]. *)
Record Reply : Type := mkReply {
  r_ok : bool;
  r_epoch : option Z;
  r_err : option LockError
}.

Definition faulty_reply (msg : string) : Reply := mkReply false None (Some (ErrLockDB msg)).

Section Elector.
Context `{pg : Postgres}.

(** The repository call: leaders renew, the others acquire. *)
Definition repo_call (now : time) (e : Elector) (tbl : LockTable) : Reply * LockTable :=
  if e_leader e then
    match Renew (e_workerID e) (e_holderID e) now (e_ttl e) tbl with
    | Ok (ok, tbl') => (mkReply ok None None, tbl')
    | Err err => (mkReply false None (Some err), tbl)
    end
  else
    match Acquire (e_workerID e) (e_holderID e) now (e_ttl e) tbl with
    | Ok (ok, epoch, tbl') => (mkReply ok (Some epoch) None, tbl')
    | Err err => (mkReply false None (Some err), tbl)
    end.

Definition try_call (now : time) (fault : Fault) (e : Elector) (tbl : LockTable) :
    Reply * LockTable :=
  match fault with
  | NoFault => repo_call now e tbl
  | FaultBefore msg => (faulty_reply msg, tbl)
  | FaultAfter msg => (faulty_reply msg, (repo_call now e tbl).2)
  end.

(** What the elector does with the reply. *)
Definition try_return (r : Reply) (e : Elector) : Elector :=
  let good := r_ok r && is_none (r_err r) in
  e <| e_epoch := if good then default (e_epoch e) (r_epoch r) else e_epoch e |>
    <| e_leader := good |> <| e_lastErr := r_err r |>.

Definition tryAcquireOrRenew (now : time) (fault : Fault) (e : Elector) (tbl : LockTable) :
    Elector * LockTable :=
  let '(r, tbl) := try_call now fault e tbl in (try_return r e, tbl).

(** [releaseWithContext]: the repository call, then the cached bit. *)
Definition release_call (dbnow : time) (fault : Fault) (e : Elector) (tbl : LockTable) :
    LockTable :=
  match fault with
  | FaultBefore _ => tbl
  | _ => Release dbnow (e_workerID e) (e_holderID e) tbl
  end.

Definition release_return (e : Elector) : Elector := e <| e_leader := false |>.

(** [Release] of the elector: a call by a non-leader does nothing. *)
Definition ReleaseElector (dbnow : time) (fault : Fault) (e : Elector) (tbl : LockTable) :
    Elector * LockTable :=
  if e_leader e then (release_return e, release_call dbnow fault e tbl) else (e, tbl).

End Elector.

(** ** The fence *)

(** [VerifyEpoch]; a failed read is an argument. *)
Definition VerifyEpoch (read_fault : option LockError) (e : Elector) (tbl : LockTable) :
    result LockError (bool * Z) :=
  match (match read_fault with Some err => Err err | None => Get (e_workerID e) tbl end) with
  | Err err => if err =?? ErrLockNotFound then Ok (false, 0) else Err err
  | Ok row =>
      if negb (HolderID row =?? e_holderID e) then Ok (false, Epoch row)
      else if e_epoch e <? Epoch row then Ok (false, Epoch row)
      else Ok (true, Epoch row)
  end.

(** A leader gate: absent or without epochs, or an elector. *)
Inductive Gate : Type :=
| GatePlain
| GateElector (e : Elector).

Definition DangerousWriteAllowed (read_fault : option LockError) (gate : Gate)
    (tbl : LockTable) : bool * string :=
  match gate with
  | GatePlain => (true, ""%string)
  | GateElector e =>
      match VerifyEpoch read_fault e tbl with
      | Err _ => (false, "leader epoch read failed (fencing closed)"%string)
      | Ok (false, _) => (false, "superseded by a newer leader epoch"%string)
      | Ok (true, _) => (true, ""%string)
      end
  end.

(** ** A cluster of daemons *)

(** An elector, the reply its renew loop waits for and whether a release is
    between its database call and the update of the leader bit. *)
Record Daemon : Type := mkDaemon {
  d_elector : Elector;
  d_reply : option Reply;
  d_releasing : bool
}.

Record Cluster : Type := mkCluster {
  c_daemons : list Daemon;
  c_locks : LockTable
}.

Inductive Event : Type :=
| EvCall (i : nat) (now : time) (fault : Fault)
| EvReturn (i : nat)
| EvReleaseCall (i : nat) (dbnow : time) (fault : Fault)
| EvReleaseReturn (i : nat).

Section Cluster.
Context `{pg : Postgres}.

(** One event; an event its daemon is not ready for does nothing. *)
Definition cluster_step (ev : Event) (c : Cluster) : Cluster :=
  match ev with
  | EvCall i now fault =>
      match c_daemons c !! i with
      | Some d =>
          match d_reply d with
          | Some _ => c
          | None =>
              let '(r, tbl) := try_call now fault (d_elector d) (c_locks c) in
              mkCluster (<[i := d <| d_reply := Some r |>]> (c_daemons c)) tbl
          end
      | None => c
      end
  | EvReturn i =>
      match c_daemons c !! i with
      | Some d =>
          match d_reply d with
          | Some r =>
              mkCluster (<[i := d <| d_elector := try_return r (d_elector d) |>
                                  <| d_reply := None |>]> (c_daemons c)) (c_locks c)
          | None => c
          end
      | None => c
      end
  | EvReleaseCall i dbnow fault =>
      match c_daemons c !! i with
      | Some d =>
          if e_leader (d_elector d) && negb (d_releasing d) then
            mkCluster (<[i := d <| d_releasing := true |>]> (c_daemons c))
                      (release_call dbnow fault (d_elector d) (c_locks c))
          else c
      | None => c
      end
  | EvReleaseReturn i =>
      match c_daemons c !! i with
      | Some d =>
          if d_releasing d then
            mkCluster (<[i := d <| d_elector := release_return (d_elector d) |>
                                <| d_releasing := false |>]> (c_daemons c)) (c_locks c)
          else c
      | None => c
      end
  end.

Definition run_cluster (evs : list Event) (c : Cluster) : Cluster :=
  foldl (fun c ev => cluster_step ev c) c evs.

End Cluster.
