(* ===== verification/LeaderElectionFacts.v ===== *)
(** * Leader election: the fence and the lease

    Properties of [LeaderElection] over every interleaving of the daemons'
    calls, replies and releases, with faults and clock skew. *)
From S2P Require Import Prelude TaskModel TaskRepo TaskRepoFacts LeaderElection.

(** What identifies a daemon in the lock table. *)
Definition dkey (d : Daemon) : string * string :=
  (e_workerID (d_elector d), e_holderID (d_elector d)).

(** The part of a row that calls by others must not lose. *)
Definition lock_key (l : DaemonLeaderLock) : string * Z := (HolderID l, Epoch l).

(** The epoch a reply carries, if it grants the lock. *)
Definition reply_claim (r : Reply) : option Z :=
  if r_ok r && is_none (r_err r) then r_epoch r else None.

(** The epochs a daemon holds or is about to hold. *)
Definition claims (d : Daemon) : list Z :=
  e_epoch (d_elector d) :: match d_reply d ≫= reply_claim with Some k => [k] | None => [] end.

(** How one event may change the row of a worker. *)
Definition row_evolves (o o' : option DaemonLeaderLock) : Prop :=
  lock_key <$> o' = lock_key <$> o \/
  (o = None /\ exists h, lock_key <$> o' = Some (h, 1)) \/
  (exists l h, o = Some l /\ HolderID l <> h /\ lock_key <$> o' = Some (h, Epoch l + 1)).

Section Facts.
Context `{pg : Postgres}.

(** ** One repository call *)

(** The effect of a granted [Acquire]. *)
Lemma Acquire_effect w h now ttl tbl ok k tbl' :
  Acquire w h now ttl tbl = Ok (ok, k, tbl') ->
  (forall w', w' <> w -> tbl' !! w' = tbl !! w') /\ row_evolves (tbl !! w) (tbl' !! w) /\
  (ok = true -> lock_key <$> tbl' !! w = Some (h, k)).
Proof.
  unfold Acquire, row_evolves. intros H.
  destruct (_ || _); [done|]. destruct (ttl <=? 0); [done|]. cbv zeta in H.
  destruct (tbl !! w) as [l|] eqn:El.
  - destruct (_ || _) eqn:Ec; [|injection H as <- <- <-; rewrite El; split_and!; [done|by left|done]].
    destruct (maxInt64 <? _); [done|]. injection H as <- <- <-.
    split; [by intros; rewrite lookup_insert_ne|]. rewrite lookup_insert_eq. split; [|done].
    unfold acquire_conflict. simpl.
    destruct (bool_decide_reflect (HolderID l = h)) as [<-|Hne]; [by left|].
    right. right. by exists l, h.
  - injection H as <- <- <-. split; [by intros; rewrite lookup_insert_ne|].
    rewrite lookup_insert_eq. split; [|done]. right. left. eauto.
Qed.

Lemma Renew_effect w h now ttl tbl ok tbl' :
  Renew w h now ttl tbl = Ok (ok, tbl') ->
  (forall w', w' <> w -> tbl' !! w' = tbl !! w') /\ row_evolves (tbl !! w) (tbl' !! w).
Proof.
  unfold Renew, row_evolves. intros H.
  destruct (_ || _); [done|]. destruct (ttl <=? 0); [done|].
  destruct (tbl !! w) as [l|] eqn:El; [|injection H as <- <-; rewrite El; split; [done|by left]].
  destruct (bool_decide_reflect (HolderID l = h)) as [<-|];
    injection H as <- <-; [|rewrite El; split; [done|by left]].
  split; [by intros; rewrite lookup_insert_ne|]. rewrite lookup_insert_eq. by left.
Qed.

Lemma Release_effect dbnow w h tbl w' :
  lock_key <$> Release dbnow w h tbl !! w' = lock_key <$> tbl !! w'.
Proof.
  unfold Release. destruct (tbl !! w) as [l|] eqn:El; [|done].
  destruct (bool_decide_reflect (HolderID l = h)); [|done].
  destruct (decide (w' = w)) as [->|]; [|by rewrite lookup_insert_ne].
  by rewrite lookup_insert_eq, El.
Qed.

Lemma row_evolves_refl o : row_evolves o o.
Proof. by left. Qed.

(** What a call sees and does. *)
Lemma repo_call_effect now e tbl :
  let '(r, tbl') := repo_call now e tbl in
  (forall w', w' <> e_workerID e -> tbl' !! w' = tbl !! w') /\
  row_evolves (tbl !! e_workerID e) (tbl' !! e_workerID e) /\
  forall k, reply_claim r = Some k -> lock_key <$> tbl' !! e_workerID e = Some (e_holderID e, k).
Proof.
  unfold repo_call. destruct (e_leader e).
  - destruct (Renew _ _ _ _ _) as [[ok t]|err] eqn:E.
    + destruct (Renew_effect _ _ _ _ _ _ _ E). split_and!; [done..|]. intros k.
      unfold reply_claim. simpl. by destruct (ok && true).
    + split_and!; [done|apply row_evolves_refl|done].
  - destruct (Acquire _ _ _ _ _) as [[[ok k] t]|err] eqn:E.
    + destruct (Acquire_effect _ _ _ _ _ _ _ _ E) as (? & ? & Hk). split_and!; [done..|].
      intros k'. unfold reply_claim. simpl. rewrite andb_true_r.
      destruct ok; [intros [= <-]; by apply Hk|done].
    + split_and!; [done|apply row_evolves_refl|done].
Qed.

(** The same with faults. *)
Lemma try_call_effect now fault e tbl r tbl' :
  try_call now fault e tbl = (r, tbl') ->
  (forall w', w' <> e_workerID e -> tbl' !! w' = tbl !! w') /\
  row_evolves (tbl !! e_workerID e) (tbl' !! e_workerID e) /\
  forall k, reply_claim r = Some k -> lock_key <$> tbl' !! e_workerID e = Some (e_holderID e, k).
Proof.
  unfold try_call. pose proof (repo_call_effect now e tbl) as H.
  destruct (repo_call now e tbl) as [r0 t0], fault as [|m|m]; intros [= <- <-].
  - exact H.
  - split_and!; [done|apply row_evolves_refl|done].
  - destruct H as (? & ? & _). by split_and!.
Qed.

(** ** The invariant of the fence *)

(** What every event guarantees. *)
Record event_ok (c c' : Cluster) : Prop := {
  ev_keys : (dkey <$> (c_daemons c')) = (dkey <$> (c_daemons c));
  ev_claims : forall i d', c_daemons c' !! i = Some d' ->
    exists d, c_daemons c !! i = Some d /\ dkey d' = dkey d /\
      forall k, k ∈ claims d' -> k ∈ claims d \/
        lock_key <$> c_locks c' !! (dkey d').1 = Some ((dkey d').2, k);
  ev_rows : forall w, row_evolves (c_locks c !! w) (c_locks c' !! w)
}.

(** Replacing one daemon by one with the same key. *)
Lemma event_ok_update c i d d' tbl' :
  c_daemons c !! i = Some d -> dkey d' = dkey d ->
  (forall k, k ∈ claims d' -> k ∈ claims d \/
     lock_key <$> tbl' !! (dkey d').1 = Some ((dkey d').2, k)) ->
  (forall w, row_evolves (c_locks c !! w) (tbl' !! w)) ->
  event_ok c (mkCluster (<[i := d']> (c_daemons c)) tbl').
Proof.
  intros Hd Hk Hcl Hrows. split; simpl; [| |done].
  - rewrite list_fmap_insert. apply list_insert_id. by rewrite list_lookup_fmap, Hd, Hk.
  - intros j dj Hj. destruct (decide (i = j)) as [<-|Hne].
    + rewrite list_lookup_insert_eq in Hj by (by apply lookup_lt_Some in Hd).
      injection Hj as <-. eauto.
    + rewrite list_lookup_insert_ne in Hj by done. exists dj. auto.
Qed.

Lemma event_ok_refl c : event_ok c c.
Proof. split; [done| |intros; apply row_evolves_refl]. intros i d Hd. exists d. auto. Qed.

Lemma cluster_step_ok ev c : event_ok c (cluster_step ev c).
Proof.
  destruct ev as [i now fault|i|i dbnow fault|i]; simpl;
    (destruct (c_daemons c !! i) as [d|] eqn:Hd; [|apply event_ok_refl]).
  - destruct (d_reply d) as [r0|] eqn:Er; [apply event_ok_refl|].
    destruct (try_call _ _ _ _) as [r tbl'] eqn:Ec.
    destruct (try_call_effect _ _ _ _ _ _ Ec) as (Hoth & Hrow & Hk).
    apply (event_ok_update c i d); [done|done| |].
    + intros k. unfold claims. simpl. rewrite Er. simpl.
      destruct (reply_claim r) as [k'|] eqn:Ek; [|auto].
      rewrite !elem_of_cons. intros [->|[->|?]]; [auto|right; by apply Hk|auto].
    + intros w. destruct (decide (w = e_workerID (d_elector d))) as [->|Hne]; [done|].
      rewrite Hoth by done. apply row_evolves_refl.
  - destruct (d_reply d) as [r|] eqn:Er; [|apply event_ok_refl].
    apply (event_ok_update c i d); [done|done| |intros; apply row_evolves_refl].
    intros k Hk. left. revert Hk. unfold claims, try_return. simpl. rewrite Er. simpl.
    unfold reply_claim. destruct (r_ok r && _); [|set_solver].
    destruct (r_epoch r); simpl; set_solver.
  - destruct (_ && _); [|apply event_ok_refl].
    apply (event_ok_update c i d); [done|done|auto|]. intros w. left.
    unfold release_call. destruct fault; [apply Release_effect|done|apply Release_effect].
  - destruct (d_releasing d); [|apply event_ok_refl].
    apply (event_ok_update c i d); [done|done|auto|intros; apply row_evolves_refl].
Qed.

Record fence_inv (c : Cluster) : Prop := {
  fi_keys : NoDup (dkey <$> c_daemons c);
  fi_epochs : forall w l, c_locks c !! w = Some l -> 0 <= Epoch l;
  fi_mine : forall i d l, c_daemons c !! i = Some d -> c_locks c !! (dkey d).1 = Some l ->
    HolderID l = (dkey d).2 -> 1 <= Epoch l;
  fi_claims : forall i d k, c_daemons c !! i = Some d -> k ∈ claims d ->
    k = 0 \/ exists l, c_locks c !! (dkey d).1 = Some l /\ 1 <= k <= Epoch l /\
                       (k = Epoch l -> HolderID l = (dkey d).2);
  fi_unique : forall i j d d' k, c_daemons c !! i = Some d -> c_daemons c !! j = Some d' ->
    (dkey d).1 = (dkey d').1 -> k <> 0 -> k ∈ claims d -> k ∈ claims d' ->
    (dkey d).2 = (dkey d').2
}.

(** Rows after an event, from rows before it. *)
Lemma evolved_row o o' l' :
  row_evolves o o' -> o' = Some l' ->
  (exists l, o = Some l /\ lock_key l' = lock_key l) \/
  (o = None /\ Epoch l' = 1) \/
  (exists l, o = Some l /\ HolderID l <> HolderID l' /\ Epoch l' = Epoch l + 1).
Proof.
  unfold row_evolves, lock_key. intros [H|[[-> (h & H)]|(l & h & -> & Hne & H)]] ->; simpl in H.
  - destruct o as [l|]; [|done]. injection H as ??. left. exists l. split; [done|]. congruence.
  - injection H as ??. auto.
  - injection H as ??. right. right. exists l. by subst.
Qed.

Lemma evolved_kept o o' l :
  row_evolves o o' -> o = Some l ->
  exists l', o' = Some l' /\ Epoch l <= Epoch l' /\ (Epoch l = Epoch l' -> HolderID l = HolderID l').
Proof.
  unfold row_evolves, lock_key. intros [H|[[-> _]|(l0 & h & -> & Hne & H)]] Ho; [|done|].
  - subst o. destruct o' as [l'|]; [|done]. simpl in H. injection H as ??.
    exists l'. split_and!; [done|lia|done].
  - injection Ho as ->. destruct o' as [l'|]; [|done]. simpl in H. injection H as ??.
    exists l'. split_and!; [done|lia|lia].
Qed.

Lemma fence_inv_step c c' : event_ok c c' -> fence_inv c -> fence_inv c'.
Proof.
  intros [Hkeys Hclaims Hrows] [I1 I2 I3 I4 I5].
  assert (E1 : NoDup ((dkey <$> (c_daemons c')))) by (by rewrite Hkeys).
  assert (E2 : forall w l, c_locks c' !! w = Some l -> 0 <= Epoch l).
  { intros w l' Hl'. destruct (evolved_row _ _ _ (Hrows w) Hl')
      as [(l & Hl & Hk)|[[_ ->]|(l & Hl & _ & ->)]]; [|lia|apply I2 in Hl; lia].
    injection Hk as _ ->. eauto. }
  assert (E3 : forall i d l, c_daemons c' !! i = Some d -> c_locks c' !! (dkey d).1 = Some l ->
    HolderID l = (dkey d).2 -> 1 <= Epoch l).
  { intros i d' l' Hd' Hl' Hh. destruct (Hclaims i d' Hd') as (d & Hd & Hk & _).
    destruct (evolved_row _ _ _ (Hrows _) Hl')
      as [(l & Hl & Hlk)|[[_ ->]|(l & Hl & _ & ->)]]; [|lia|apply I2 in Hl; lia].
    injection Hlk as Eh ->. rewrite Hk in Hl, Hh. apply (I3 i d l); [done..|congruence]. }
  assert (E4 : forall i d k, c_daemons c' !! i = Some d -> k ∈ claims d ->
    k = 0 \/ exists l, c_locks c' !! (dkey d).1 = Some l /\ 1 <= k <= Epoch l /\
                       (k = Epoch l -> HolderID l = (dkey d).2)).
  { intros i d' k Hd' Hk'. destruct (Hclaims i d' Hd') as (d & Hd & Hk & Hcl).
    destruct (Hcl k Hk') as [Hold|Hnew].
    - destruct (I4 i d k Hd Hold) as [->|(l & Hl & Hle & Heq)]; [by left|]. right.
      rewrite Hk. destruct (evolved_kept _ _ _ (Hrows _) Hl) as (l' & Hl' & Hle' & Heq').
      exists l'. split_and!; [done|lia|lia|]. intros ->.
      assert (Epoch l = Epoch l') as E by lia. rewrite <- (Heq' E). by apply Heq.
    - right. destruct (c_locks c' !! (dkey d').1) as [l'|] eqn:Hl'; [|done].
      simpl in Hnew. injection Hnew as Eh Ek. exists l'. split_and!; [done| |lia|done].
      rewrite <- Ek. by eapply E3. }
  split; try done.
  intros i j d1 d2 k H1 H2 Hw Hk0 Hk1 Hk2.
  destruct (Hclaims i d1 H1) as (e1 & He1 & Hd1 & Hc1).
  destruct (Hclaims j d2 H2) as (e2 & He2 & Hd2 & Hc2).
  assert (Hnew : forall m1 m2 f1 f2, c_daemons c' !! m1 = Some f1 -> c_daemons c' !! m2 = Some f2 ->
     (dkey f1).1 = (dkey f2).1 -> k ∈ claims f2 ->
     lock_key <$> c_locks c' !! (dkey f1).1 = Some ((dkey f1).2, k) -> (dkey f1).2 = (dkey f2).2).
  { intros m1 m2 f1 f2 _ Hf2 Hw' Hkf2 Hlk.
    destruct (E4 m2 f2 k Hf2 Hkf2) as [|(l & Hl & _ & Heq)]; [done|].
    rewrite Hw', Hl in Hlk. simpl in Hlk. injection Hlk as Eh Ek.
    etrans; [symmetry; exact Eh|by apply Heq]. }
  destruct (Hc1 k Hk1) as [O1|N1]; [|by eapply (Hnew i j)].
  destruct (Hc2 k Hk2) as [O2|N2]; [|symmetry; by eapply (Hnew j i)].
  rewrite Hd1, Hd2 in *. by eapply I5.
Qed.

Lemma run_cluster_ind (P : Cluster -> Prop) evs c :
  P c -> (forall ev c, P c -> P (cluster_step ev c)) -> P (run_cluster evs c).
Proof. unfold run_cluster. revert c. induction evs as [|ev evs IH]; simpl; auto. Qed.

(** The epochs of a row along a run. *)
Lemma run_cluster_rows evs c w l :
  c_locks c !! w = Some l ->
  exists l', c_locks (run_cluster evs c) !! w = Some l' /\ Epoch l <= Epoch l' /\
    (Epoch l = Epoch l' -> HolderID l = HolderID l').
Proof.
  intros Hl. apply (run_cluster_ind (fun c' => exists l', c_locks c' !! w = Some l' /\
    Epoch l <= Epoch l' /\ (Epoch l = Epoch l' -> HolderID l = HolderID l'))); [by exists l|].
  intros ev c' (l' & Hl' & Hle & Heq).
  destruct (evolved_kept _ _ _ (ev_rows _ _ (cluster_step_ok ev c') w) Hl')
    as (l'' & Hl'' & Hle' & Heq').
  exists l''. split_and!; [done|lia|]. intros E. rewrite Heq by lia. apply Heq'. lia.
Qed.

(** Daemons that have just started, over a table none of them has a row in. *)
Definition boot (ds : list Daemon) (tbl : LockTable) : Prop :=
  NoDup ((dkey <$> ds)) /\
  Forall (fun d => e_epoch (d_elector d) = 0 /\ d_reply d = None) ds /\
  forall w l, tbl !! w = Some l -> 0 <= Epoch l /\ (w, HolderID l) ∉ (dkey <$> ds).

Lemma boot_inv ds tbl : boot ds tbl -> fence_inv (mkCluster ds tbl).
Proof.
  intros (Hnd & Hf & Ht). rewrite Forall_lookup in Hf.
  assert (Hc : forall i d k, ds !! i = Some d -> k ∈ claims d -> k = 0).
  { intros i d k Hd. destruct (Hf i d Hd) as [He Hr]. unfold claims. rewrite He, Hr. simpl.
    by intros ->%list_elem_of_singleton. }
  split; simpl; [done| | | |].
  - intros w l Hl. by apply (Ht w l).
  - intros i d l Hd Hl Hh. destruct (Ht _ _ Hl) as [_ []]. apply list_elem_of_fmap.
    exists d. split; [|by eapply list_elem_of_lookup_2]. by apply injective_projections.
  - intros i d k Hd Hk. left. by eapply Hc.
  - intros i j d d' k Hd _ _ Hk0 Hk _. destruct Hk0. by eapply (Hc i d k).
Qed.

Definition allowed (d : Daemon) (c : Cluster) : bool :=
  (DangerousWriteAllowed None (GateElector (d_elector d)) (c_locks c)).1.

Lemma allowed_true d c :
  allowed d c = true ->
  exists l, c_locks c !! (dkey d).1 = Some l /\ HolderID l = (dkey d).2 /\
            Epoch l <= e_epoch (d_elector d).
Proof.
  unfold allowed, DangerousWriteAllowed, VerifyEpoch, Get.
  change (e_workerID (d_elector d)) with (dkey d).1.
  destruct (c_locks c !! (dkey d).1) as [l|]; [|done]. simpl.
  destruct (bool_decide_reflect (HolderID l = e_holderID (d_elector d))); [|done]. simpl.
  destruct (Z.ltb_spec (e_epoch (d_elector d)) (Epoch l)); [done|]. by exists l.
Qed.

(** C40: the fence admits one leader.  After any interleaving of calls, replies,
    releases, faults and clock readings of freshly booted daemons, a daemon that
    passes the fence holds the lock row at its own epoch, every other daemon of
    the same worker has a smaller epoch and is refused, whatever its cached
    leader bit says, and a row that cannot be read refuses everyone.  Along the
    run a row's epoch never decreases and it changes hands only with a new
    epoch. *)
Theorem fence_admits_one_leader ds tbl evs a b da db err :
  boot ds tbl ->
  let c := run_cluster evs (mkCluster ds tbl) in
  c_daemons c !! a = Some da -> c_daemons c !! b = Some db ->
  (dkey da).1 = (dkey db).1 -> allowed da c = true ->
  (exists l, c_locks c !! (dkey da).1 = Some l /\ HolderID l = (dkey da).2 /\
             Epoch l = e_epoch (d_elector da) /\ 1 <= Epoch l) /\
  (a <> b -> e_epoch (d_elector db) < e_epoch (d_elector da) /\ allowed db c = false) /\
  (err <> ErrLockNotFound ->
   (DangerousWriteAllowed (Some err) (GateElector (d_elector da)) (c_locks c)).1 = false) /\
  (forall i j di dj, c_daemons c !! i = Some di -> c_daemons c !! j = Some dj ->
     (dkey di).1 = (dkey dj).1 -> e_epoch (d_elector di) = e_epoch (d_elector dj) ->
     e_epoch (d_elector di) <> 0 -> i = j) /\
  (forall w l, tbl !! w = Some l ->
     exists l', c_locks c !! w = Some l' /\ Epoch l <= Epoch l' /\
       (Epoch l = Epoch l' -> HolderID l = HolderID l')).
Proof.
  intros Hboot c Ha Hb Hw Hall.
  assert (Hinv : fence_inv c).
  { apply run_cluster_ind; [by apply boot_inv|].
    intros ev c' Hi. eapply fence_inv_step; [apply cluster_step_ok|done]. }
  destruct (allowed_true _ _ Hall) as (l & Hl & Hh & Hle).
  pose proof (fi_mine _ Hinv _ _ _ Ha Hl Hh) as H1.
  assert (Hepoch : forall i d, c_daemons c !! i = Some d -> (dkey d).1 = (dkey da).1 ->
     e_epoch (d_elector d) = 0 \/ (e_epoch (d_elector d) <= Epoch l /\
       (e_epoch (d_elector d) = Epoch l -> (dkey d).2 = (dkey da).2))).
  { intros i d Hd Hwd. destruct (fi_claims _ Hinv i d (e_epoch (d_elector d)) Hd)
      as [|(l0 & Hl0 & Hle0 & Heq0)]; [left|by left|right].
    rewrite Hwd, Hl in Hl0. injection Hl0 as <-. split; [lia|]. intros E.
    rewrite <- Hh. symmetry. by apply Heq0. }
  assert (Hsame : forall i j di dj, c_daemons c !! i = Some di -> c_daemons c !! j = Some dj ->
     dkey di = dkey dj -> i = j).
  { intros i j di dj Hi Hj E. apply (NoDup_lookup (dkey <$> c_daemons c) i j (dkey di));
      [apply (fi_keys _ Hinv) | by rewrite list_lookup_fmap, Hi |].
    by rewrite list_lookup_fmap, Hj, E. }
  assert (Ea : e_epoch (d_elector da) = Epoch l) by (destruct (Hepoch a da Ha); [done|lia..]).
  split_and!.
  - by exists l.
  - intros Hne.
    assert (Hkey : (dkey db).2 <> (dkey da).2).
    { intros E. apply Hne. eapply Hsame; [done..|]. by apply injective_projections. }
    split.
    + destruct (Hepoch b db Hb (eq_sym Hw)) as [|[Hle' Heq']]; [lia|].
      destruct (Z.eq_dec (e_epoch (d_elector db)) (Epoch l)) as [E|]; [|lia].
      by destruct Hkey, (Heq' E).
    + apply not_true_iff_false. intros Hb'. destruct (allowed_true _ _ Hb') as (l' & Hl' & Hh' & _).
      rewrite <- Hw, Hl in Hl'. injection Hl' as <-. congruence.
  - intros Herr. unfold DangerousWriteAllowed, VerifyEpoch.
    by rewrite bool_decide_false by done.
  - intros i j di dj Hi Hj Hwk E H0. eapply Hsame; [done..|].
    apply injective_projections; [done|].
    apply (fi_unique _ Hinv i j di dj (e_epoch (d_elector di))); [done..| |].
    + left.
    + rewrite E. left.
  - intros w l0 Hl0. by apply run_cluster_rows.
Qed.

(** ** The lease *)

(** A call against an unexpired row of another holder is refused. *)
Lemma try_call_refused now fault e tbl l :
  tbl !! e_workerID e = Some l -> HolderID l <> e_holderID e -> ts_in now <= ExpiresAt l ->
  (try_call now fault e tbl).2 = tbl /\ r_ok (try_call now fault e tbl).1 = false.
Proof.
  intros Hl Hh Hexp.
  assert (H : (repo_call now e tbl).2 = tbl /\ r_ok (repo_call now e tbl).1 = false).
  { unfold repo_call, Renew, Acquire. rewrite Hl, (bool_decide_eq_false_2 _ Hh), (proj2 (Z.ltb_ge _ _)) by done.
    by destruct (e_leader e), (_ || _), (e_ttl e <=? 0). }
  destruct H as [Ht Hr]. unfold try_call. by destruct fault.
Qed.

(** A call by the holder keeps the row, and extends it to the new expiry if it
    changes it; without a fault a leader's renewal is granted. *)
Lemma try_call_holder now fault e tbl l :
  tbl !! e_workerID e = Some l -> HolderID l = e_holderID e ->
  (exists l', (try_call now fault e tbl).2 !! e_workerID e = Some l' /\ lock_key l' = lock_key l /\
     (ExpiresAt l' = ExpiresAt l \/ ExpiresAt l' = ts_in (now + e_ttl e))) /\
  (fault = NoFault -> e_leader e = true -> e_workerID e <> ""%string -> e_holderID e <> ""%string ->
   0 < e_ttl e -> (try_call now fault e tbl).1 = mkReply true None None).
Proof.
  intros Hl Hh.
  assert (H : exists l', (repo_call now e tbl).2 !! e_workerID e = Some l' /\
     lock_key l' = lock_key l /\
     (ExpiresAt l' = ExpiresAt l \/ ExpiresAt l' = ts_in (now + e_ttl e))).
  { unfold repo_call, Renew, Acquire. rewrite Hl, (bool_decide_eq_true_2 _ Hh), orb_true_r. cbv zeta.
    destruct (e_leader e), (_ || _), (e_ttl e <=? 0); simpl; try (by exists l; auto).
    - rewrite lookup_insert_eq. eexists. split_and!; [done|done|]. by right.
    - destruct (maxInt64 <? _); simpl; [by exists l; auto|]. rewrite lookup_insert_eq.
      eexists. split_and!; [done| |by right]. unfold lock_key. simpl.
      by rewrite (bool_decide_eq_true_2 _ Hh), Hh. }
  split.
  - unfold try_call. destruct fault; [exact H|by exists l; auto|exact H].
  - intros -> Hld Hw Hhn Httl. simpl. unfold repo_call, Renew.
    rewrite Hld, Hl, (bool_decide_eq_true_2 _ Hh), !bool_decide_false, (proj2 (Z.leb_gt _ _)) by done.
    done.
Qed.

(** Quiet events: the others read no clock later than three renew ticks after
    [T], the daemon [a] itself none before [T], and it does not release. *)
Definition quiet (a : nat) (T : time) (tick : duration) (ev : Event) : Prop :=
  match ev with
  | EvCall i now _ => if decide (i = a) then T <= now else now <= T + 3 * tick
  | EvReleaseCall i _ _ => i <> a
  | EvReturn _ | EvReleaseReturn _ => True
  end.

(** A daemon that is not leader and will not be by the reply it waits for. *)
Definition tame (d : Daemon) : Prop :=
  e_leader (d_elector d) = false /\ forall r, d_reply d = Some r -> r_ok r = false.

(** The elector part of a daemon that no event changes. *)
Definition same_daemon (d d' : Daemon) : Prop :=
  dkey d' = dkey d /\ e_ttl (d_elector d') = e_ttl (d_elector d).

Section Lease.
Context `{!PostgresMonotone pg} (a : nat) (T : time) (da : Daemon) (l0 : DaemonLeaderLock).

(** What stays true of the cluster while [a] keeps its lease. *)
Record lease_inv (c0 c : Cluster) : Prop := {
  li_keys : dkey <$> c_daemons c = dkey <$> c_daemons c0;
  li_row : exists l, c_locks c !! (dkey da).1 = Some l /\ lock_key l = lock_key l0 /\
                     ts_in (T + e_ttl (d_elector da)) <= ExpiresAt l;
  li_a : exists d, c_daemons c !! a = Some d /\ same_daemon da d /\ d_releasing d = false;
  li_tame : forall b d0, b <> a -> c_daemons c0 !! b = Some d0 -> (dkey d0).1 = (dkey da).1 ->
    tame d0 -> exists d, c_daemons c !! b = Some d /\ tame d
}.

(** One daemon and the table change. *)
Lemma lease_inv_update c0 c i d d' tbl' :
  lease_inv c0 c -> c_daemons c !! i = Some d -> same_daemon d d' ->
  (exists l, tbl' !! (dkey da).1 = Some l /\ lock_key l = lock_key l0 /\
             ts_in (T + e_ttl (d_elector da)) <= ExpiresAt l) ->
  (i = a -> d_releasing d' = false) ->
  (i <> a -> (dkey d).1 = (dkey da).1 -> tame d -> tame d') ->
  lease_inv c0 (mkCluster (<[i := d']> (c_daemons c)) tbl').
Proof.
  intros [Hk _ (x & Hx & Hsx & Hrx) Ht] Hd [Hs1 Hs2] Hrow Hrel Htame.
  pose proof (lookup_lt_Some _ _ _ Hd) as Hlt.
  split; simpl; [|done| |].
  - rewrite list_fmap_insert, <- Hk. apply list_insert_id. by rewrite list_lookup_fmap, Hd, Hs1.
  - destruct (decide (i = a)) as [->|Hne].
    + exists d'. rewrite list_lookup_insert_eq by done. assert (x = d) as -> by congruence.
      destruct Hsx. split_and!; [done|split; congruence|auto].
    + exists x. by rewrite list_lookup_insert_ne.
  - intros b d0 Hb Hd0 Hw Htd0. destruct (Ht b d0 Hb Hd0 Hw Htd0) as (y & Hy & Hty).
    destruct (decide (i = b)) as [->|Hne].
    + exists d'. rewrite list_lookup_insert_eq by done. split; [done|].
      assert (y = d) as -> by congruence. apply Htame; try done.
      assert (E : dkey <$> c_daemons c !! b = dkey <$> c_daemons c0 !! b)
        by (by rewrite <- !list_lookup_fmap, Hk).
      rewrite Hd, Hd0 in E. injection E as E1 E2. etrans; [exact E1|exact Hw].
    + exists y. by rewrite list_lookup_insert_ne.
Qed.

(** Another daemon of the same worker has another holder id. *)
Lemma lease_other_holder c0 c i d :
  NoDup (dkey <$> c_daemons c0) -> c_daemons c0 !! a = Some da -> lease_inv c0 c ->
  c_daemons c !! i = Some d -> i <> a -> (dkey d).1 = (dkey da).1 -> (dkey d).2 <> (dkey da).2.
Proof.
  intros Hnd Ha Hinv Hd Hi Hw E. apply Hi.
  apply (NoDup_lookup (dkey <$> c_daemons c0) i a (dkey da)); [done| |by rewrite list_lookup_fmap, Ha].
  rewrite <- (li_keys _ _ Hinv), list_lookup_fmap, Hd. simpl. f_equal. by apply injective_projections.
Qed.

Lemma lease_inv_step c0 c ev :
  NoDup (dkey <$> c_daemons c0) -> c_daemons c0 !! a = Some da ->
  HolderID l0 = (dkey da).2 -> 3 * renew_tick (d_elector da) <= e_ttl (d_elector da) ->
  quiet a T (renew_tick (d_elector da)) ev -> lease_inv c0 c ->
  lease_inv c0 (cluster_step ev c).
Proof.
  intros Hnd Ha Hh0 Htick Hq Hinv. pose proof Hinv as [_ (l & Hl & Hlk & Hexp) (x & Hx & Hsx & Hrx) _].
  assert (Hrow : exists l, c_locks c !! (dkey da).1 = Some l /\ lock_key l = lock_key l0 /\
             ts_in (T + e_ttl (d_elector da)) <= ExpiresAt l) by (by exists l).
  assert (Hhl : HolderID l = (dkey da).2) by (injection Hlk as E1 E2; congruence).
  destruct ev as [i now fault|i|i dbnow fault|i]; simpl;
    (destruct (c_daemons c !! i) as [d|] eqn:Hd; [|done]).
  - destruct (d_reply d) as [r0|] eqn:Er; [done|].
    destruct (try_call _ _ _ _) as [r tbl'] eqn:Ec.
    destruct (try_call_effect _ _ _ _ _ _ Ec) as (Hoth & _).
    change (e_workerID (d_elector d)) with (dkey d).1 in *. simpl in Hq.
    destruct (decide (i = a)) as [->|Hne].
    + assert (x = d) as -> by congruence. destruct Hsx as [Hsk Hst].
      assert (Hl' : c_locks c !! e_workerID (d_elector d) = Some l).
      { change (e_workerID (d_elector d)) with (dkey d).1. by rewrite Hsk. }
      destruct (try_call_holder now fault _ _ l Hl') as [(l' & Hl'' & Hk' & He') _].
      { change (e_holderID (d_elector d)) with (dkey d).2. by rewrite Hsk. }
      rewrite Ec in Hl''. simpl in Hl''.
      apply (lease_inv_update c0 c a d); try done. exists l'. rewrite <- Hsk.
      split_and!; [exact Hl''|congruence|].
      destruct He' as [->| ->]; [done|]. rewrite Hst. apply ts_in_mono. lia.
    + apply (lease_inv_update c0 c i d); try done.
      * destruct (decide ((dkey d).1 = (dkey da).1)) as [Hw|Hw].
        -- assert (Hl' : c_locks c !! e_workerID (d_elector d) = Some l)
             by (change (c_locks c !! (dkey d).1 = Some l); by rewrite Hw).
           destruct (try_call_refused now fault _ _ l Hl') as [Ht' _].
           { rewrite Hhl. intros E. by apply (lease_other_holder c0 c i d Hnd Ha Hinv Hd Hne Hw). }
           { etrans; [|exact Hexp]. apply ts_in_mono. lia. }
           rewrite Ec in Ht'. simpl in Ht'. by subst tbl'.
        -- exists l. rewrite Hoth by done. done.
      * intros _ Hw [Hld _]. split; [done|]. simpl. intros ? [= <-].
        destruct (try_call_refused now fault (d_elector d) (c_locks c) l) as [_ Hr].
        { change (c_locks c !! (dkey d).1 = Some l). by rewrite Hw. }
        { rewrite Hhl. intros E. by apply (lease_other_holder c0 c i d Hnd Ha Hinv Hd Hne Hw). }
        { etrans; [|exact Hexp]. apply ts_in_mono. lia. }
        by rewrite Ec in Hr.
  - destruct (d_reply d) as [r|] eqn:Er; [|done].
    apply (lease_inv_update c0 c i d); try done.
    + intros ->. simpl. assert (x = d) as -> by congruence. done.
    + intros _ _ [_ Hr]. specialize (Hr r Er). unfold tame, try_return. simpl. by rewrite Hr.
  - destruct (_ && _); [|done]. simpl in Hq.
    apply (lease_inv_update c0 c i d); try done.
    unfold release_call, Release. destruct fault; try done;
      change (e_workerID (d_elector d)) with (dkey d).1;
      change (e_holderID (d_elector d)) with (dkey d).2;
      (destruct (c_locks c !! (dkey d).1) as [l'|] eqn:Hl'; [|by exists l]);
      (destruct (bool_decide_reflect (HolderID l' = (dkey d).2)) as [E|]; [|by exists l]);
      (destruct (decide ((dkey d).1 = (dkey da).1)) as [Hw|Hw];
        [|exists l; by rewrite lookup_insert_ne]); exfalso;
      apply (lease_other_holder c0 c i d Hnd Ha Hinv Hd Hq Hw); rewrite Hw in Hl'; congruence.
  - destruct (d_releasing d) eqn:Er; [|done].
    apply (lease_inv_update c0 c i d); try done.
    intros _ _ [_ Hr]. by split.
Qed.

(** While [a] has a lease and its calls do not fail, it stays leader. *)
Definition confident (c : Cluster) : Prop :=
  exists d, c_daemons c !! a = Some d /\ e_leader (d_elector d) = true /\
    (d_reply d = None \/ d_reply d = Some (mkReply true None None)).

Definition unfaulted (ev : Event) : Prop :=
  match ev with EvCall i _ fault => i = a -> fault = NoFault | _ => True end.

Lemma confident_step c0 c ev :
  quiet a T (renew_tick (d_elector da)) ev -> unfaulted ev -> HolderID l0 = (dkey da).2 ->
  (dkey da).1 <> ""%string -> (dkey da).2 <> ""%string -> 0 < e_ttl (d_elector da) ->
  lease_inv c0 c -> confident c -> confident (cluster_step ev c).
Proof.
  intros Hq Hu Hh Hw0 Hh0 Httl Hinv (d & Hd & Hld & Hrep).
  destruct Hinv as [_ (l & Hl & Hlk & _) (x & Hx & [Hsk Hst] & Hrx) _].
  assert (x = d) as -> by congruence. injection Hlk as E1 _.
  assert (Hother : forall i d' tbl', i <> a -> confident (mkCluster (<[i := d']> (c_daemons c)) tbl')).
  { intros i d' tbl' Hi. exists d. simpl. by rewrite list_lookup_insert_ne. }
  assert (Hc : confident c) by (by exists d).
  assert (Hmine : forall d' tbl', e_leader (d_elector d') = true ->
    (d_reply d' = None \/ d_reply d' = Some (mkReply true None None)) ->
    confident (mkCluster (<[a := d']> (c_daemons c)) tbl')).
  { intros d' tbl' H1 H2. exists d'. simpl. rewrite list_lookup_insert_eq; [done|].
    by apply lookup_lt_Some in Hd. }
  destruct ev as [i now fault|i|i dbnow fault|i]; simpl;
    (destruct (c_daemons c !! i) as [d0|] eqn:Hd0; [|done]);
    (destruct (decide (i = a)) as [->|Hi]; [assert (d0 = d) as -> by congruence|]).
  - destruct Hrep as [-> | ->]; [|done].
    destruct (try_call_holder now fault (d_elector d) (c_locks c) l) as [_ Hr].
    { change (c_locks c !! (dkey d).1 = Some l). by rewrite Hsk. }
    { change (HolderID l = (dkey d).2). rewrite Hsk. congruence. }
    rewrite (Hu eq_refl) in *. destruct (try_call _ _ _ _) as [r tbl'] eqn:Ec. simpl in Hr.
    apply Hmine; [done|]. right. simpl. f_equal. apply Hr; [done..| | |by rewrite Hst].
    + change ((dkey d).1 <> ""%string). by rewrite Hsk.
    + change ((dkey d).2 <> ""%string). by rewrite Hsk.
  - destruct (d_reply d0); [done|]. destruct (try_call _ _ _ _). by apply Hother.
  - destruct Hrep as [-> | ->]; [done|]. apply Hmine; [done|by left].
  - destruct (d_reply d0); [by apply Hother|done].
  - done.
  - destruct (_ && _); [by apply Hother|done].
  - by rewrite Hrx.
  - destruct (d_releasing d0); [by apply Hother|done].
Qed.

(** Both along a run. *)
Lemma lease_run c0 evs c :
  NoDup (dkey <$> c_daemons c0) -> c_daemons c0 !! a = Some da ->
  HolderID l0 = (dkey da).2 -> 0 < 3 * renew_tick (d_elector da) <= e_ttl (d_elector da) ->
  Forall (quiet a T (renew_tick (d_elector da))) evs -> lease_inv c0 c ->
  lease_inv c0 (run_cluster evs c) /\
  ((dkey da).1 <> ""%string -> (dkey da).2 <> ""%string -> Forall unfaulted evs ->
   confident c -> confident (run_cluster evs c)).
Proof.
  intros Hnd Ha Hh Ht Hq. unfold run_cluster. revert c.
  induction Hq as [|ev evs Hev Hq IH]; intros c Hinv; [done|]. simpl.
  destruct (IH (cluster_step ev c)) as [IH1 IH2].
  { apply lease_inv_step; try done. lia. }
  split; [done|]. intros Hw Hn [Hu Hus]%Forall_cons Hc. apply IH2; try done.
  apply (confident_step c0); try done. lia.
Qed.

End Lease.

Lemma renew_tick_third e : MinTTL <= e_ttl e -> 0 < 3 * renew_tick e <= e_ttl e.
Proof.
  unfold renew_tick, MinTTL. intros H.
  assert (Hs : 0 < Second) by (by vm_compute).
  pose proof (Z.quot_rem' (e_ttl e) 3). pose proof (Z.rem_bound_pos (e_ttl e) 3).
  destruct (Z.ltb_spec (e_ttl e ÷ 3) Second); lia.
Qed.

(** A leader keeps its lease for three renew ticks.  From a state where
    daemon [a] holds an unexpired lease it wrote at its clock [T], over any
    interleaving in which nobody's clock is more than three renew ticks past
    [T] and [a] does not release (so two of its renewals may fail), the row
    stays [a]'s at the same epoch, no daemon of the worker that was not leader
    becomes one, and [a], if its calls do not fail, still believes it leads. *)
Theorem leader_keeps_lease `{!PostgresMonotone pg} (a : nat) (T : time) da l0 c0 evs :
  NoDup (dkey <$> c_daemons c0) -> c_daemons c0 !! a = Some da ->
  c_locks c0 !! (dkey da).1 = Some l0 -> HolderID l0 = (dkey da).2 ->
  ExpiresAt l0 = ts_in (T + e_ttl (d_elector da)) -> MinTTL <= e_ttl (d_elector da) ->
  e_leader (d_elector da) = true -> d_reply da = None -> d_releasing da = false ->
  Forall (quiet a T (renew_tick (d_elector da))) evs ->
  let c := run_cluster evs c0 in
  (exists l, c_locks c !! (dkey da).1 = Some l /\ HolderID l = (dkey da).2 /\
             Epoch l = Epoch l0 /\ ts_in (T + e_ttl (d_elector da)) <= ExpiresAt l) /\
  (forall b d0, b <> a -> c_daemons c0 !! b = Some d0 -> (dkey d0).1 = (dkey da).1 ->
     tame d0 -> exists d, c_daemons c !! b = Some d /\ e_leader (d_elector d) = false) /\
  ((dkey da).1 <> ""%string -> (dkey da).2 <> ""%string -> Forall (unfaulted a) evs ->
     exists d, c_daemons c !! a = Some d /\ e_leader (d_elector d) = true).
Proof.
  intros Hnd Ha Hl0 Hh0 Hexp Httl Hld Hrep Hrel Hq c.
  pose proof (renew_tick_third _ Httl) as Htick.
  assert (Hinv0 : lease_inv a T da l0 c0 c0).
  { split; [done| | |].
    - exists l0. split_and!; [done|done|]. rewrite Hexp. lia.
    - by exists da.
    - eauto. }
  destruct (lease_run a T da l0 c0 evs c0 Hnd Ha Hh0 Htick Hq Hinv0)
    as [[_ (l & Hl & [= E1 E2] & He) _ Ht] Hconf].
  split_and!.
  - exists l. split_and!; [done|congruence|done|done].
  - intros b d0 Hb Hd0 Hw Htd. destruct (Ht b d0 Hb Hd0 Hw Htd) as (d & Hd & [Hf _]). by exists d.
  - intros Hw Hh Hu. destruct (Hconf Hw Hh Hu) as (d & Hd & Hf & _); [|by exists d].
    exists da. auto.
Qed.

(** ** The two repositories *)

(** The two lock repositories agree on [Acquire].  For times the column can
    hold, SQLite's read-then-upsert grants, refuses, preserves and bumps exactly
    as PostgreSQL's single upsert, up to the overflow of the epoch, which
    PostgreSQL reports and Go wraps. *)
Theorem acquire_backends_agree w h now ttl tbl :
  w <> ""%string -> h <> ""%string -> 0 < ttl ->
  ts_in now = now -> ts_in (now + ttl) = now + ttl ->
  (forall l, tbl !! w = Some l -> 0 <= Epoch l < maxInt64) ->
  Acquire w h now ttl tbl = Sqlite.Acquire w h now ttl tbl.
Proof.
  intros Hw Hh Httl Hn Hx He. unfold Acquire, Sqlite.Acquire.
  rewrite !(bool_decide_eq_false_2 (_ = ""%string)), (proj2 (Z.leb_gt _ _)), Hn, Hx by done. simpl.
  destruct (tbl !! w) as [l|] eqn:El; [|done]. specialize (He l eq_refl).
  unfold acquire_conflict. simpl.
  destruct (bool_decide_reflect (HolderID l = h)) as [<-|Hne]; simpl.
  - rewrite orb_true_r, bool_decide_true by done. rewrite (proj2 (Z.ltb_ge _ _)) by lia. done.
  - rewrite orb_false_r. destruct (ExpiresAt l <? now); simpl; [|done].
    rewrite wrap64_id by (unfold int64_range, minInt64, maxInt64 in *; lia).
    rewrite (proj2 (Z.ltb_ge _ _)) by lia. by rewrite bool_decide_true by done.
Qed.

End Facts.

(** ** Examples *)

(** Two daemons that elect a leader for the archive sweeper. *)
Definition daemon_example (holder : string) : Daemon :=
  mkDaemon (New "archive_sweeper" holder (60 * Second)) None false.

Definition cluster_example : list Daemon := [daemon_example "a"; daemon_example "b"].

(** [a] leads, stalls past its expiry, and [b] takes over. *)
Definition takeover_example : list Event :=
  [EvCall 0 (100 * Second) NoFault; EvReturn 0; EvCall 1 (200 * Second) NoFault; EvReturn 1].

Lemma cluster_example_boot : boot cluster_example ∅.
Proof.
  split_and!; [|by repeat constructor|by intros ??].
  apply (bool_decide_unpack _). vm_compute. exact I.
Qed.

Definition after_takeover : Cluster :=
  Eval vm_compute in run_cluster (pg := pg_example) takeover_example (mkCluster cluster_example ∅).

Lemma after_takeover_eq :
  run_cluster (pg := pg_example) takeover_example (mkCluster cluster_example ∅) = after_takeover.
Proof. vm_compute. reflexivity. Qed.

Example fence_admits_one_leader_witness :
  exists da db, c_daemons after_takeover !! 1%nat = Some da /\
    c_daemons after_takeover !! 0%nat = Some db /\
    e_leader (d_elector db) = true /\ allowed db after_takeover = false.
Proof.
  destruct (c_daemons after_takeover !! 1%nat) as [da|] eqn:Ea; [|by vm_compute in Ea].
  destruct (c_daemons after_takeover !! 0%nat) as [db|] eqn:Eb; [|by vm_compute in Eb].
  exists da, db. split_and!; [done|done| |].
  - vm_compute in Eb. by injection Eb as <-.
  - pose proof (fence_admits_one_leader (pg := pg_example) cluster_example ∅ takeover_example
      1 0 da db (ErrLockDB "") cluster_example_boot) as H.
    cbv zeta in H. rewrite after_takeover_eq in H.
    destruct (H Ea Eb) as (_ & H' & _).
    + vm_compute in Ea, Eb. injection Ea as <-. injection Eb as <-. reflexivity.
    + vm_compute in Ea. injection Ea as <-. vm_compute. reflexivity.
    + by apply H'.
Defined.

(** [a] holds the lock it wrote at 100 s; [b] tries at 150 s. *)
Definition leader_example : Daemon :=
  (daemon_example "a") <| d_elector :=
    mkElector "archive_sweeper" "a" (60 * Second) true None 1 |>.

Definition lease_example : Cluster :=
  mkCluster [leader_example; daemon_example "b"]
    {[ "archive_sweeper"%string :=
         mkLock "a" (100 * Second) (100 * Second) (160 * Second) 1 ]}.

Example leader_keeps_lease_witness :
  exists d, c_daemons (run_cluster (pg := pg_example)
      [EvCall 1 (150 * Second) NoFault; EvCall 0 (140 * Second) (FaultBefore "timeout"); EvReturn 1]
      lease_example) !! 1%nat = Some d /\ e_leader (d_elector d) = false.
Proof.
  destruct (leader_keeps_lease (pg := pg_example) 0 (100 * Second) leader_example
    (mkLock "a" (100 * Second) (100 * Second) (160 * Second) 1) lease_example
    [EvCall 1 (150 * Second) NoFault; EvCall 0 (140 * Second) (FaultBefore "timeout"); EvReturn 1])
    as (_ & H & _).
  - apply (bool_decide_unpack _). vm_compute. exact I.
  - reflexivity.
  - reflexivity.
  - reflexivity.
  - reflexivity.
  - by vm_compute.
  - reflexivity.
  - reflexivity.
  - reflexivity.
  - repeat constructor; by vm_compute.
  - apply (H 1%nat (daemon_example "b")); [done|reflexivity|reflexivity|by split].
Defined.

Example acquire_backends_agree_witness :
  Acquire (pg := pg_example) "archive_sweeper" "b" (200 * Second) (60 * Second)
      (c_locks lease_example) =
  Sqlite.Acquire "archive_sweeper" "b" (200 * Second) (60 * Second) (c_locks lease_example).
Proof.
  apply (acquire_backends_agree (pg := pg_example)); [done|done|done|reflexivity|reflexivity|].
  intros l Hl. vm_compute in Hl. injection Hl as <-. by vm_compute.
Defined.
