(* ===== verification/Workflow.v ===== *)
(** * Workflow definitions and their validation

    [src/internal/registry/workflow.go]: a workflow is a graph of named steps and
    terminals, and [Validate] decides whether the registry loads it.  Of the
    record fields those the validator and the engine read are kept.  Go ranges
    over a map in an arbitrary order: the orders are arguments. *)
From S2P Require Import Prelude.
From stdpp Require Import pretty.

Record WorkflowGate : Type := mkGate {
  Condition : string;
  Target : string
}.

Record WorkflowStep : Type := mkStep {
  Type_ : string;
  Role : string;
  OnSuccess : string;
  OnFail : string;
  Gates : list WorkflowGate;
  Handler : string;
  DelegatedWorkflow : string;
  TargetProject : string;
  TargetWorkflow : string;
  ExpectSchema : string;
  Template : string
}.

Record WorkflowTerminal : Type := mkTerminal {
  t_Status : string;
  t_Message : string;
  t_Recovery : bool
}.

Record Workflow : Type := mkWorkflow {
  wf_ID : string;
  wf_Description : string;
  wf_Entrypoint : string;
  wf_Steps : gmap string WorkflowStep;
  wf_Terminals : gmap string WorkflowTerminal;
  wf_ResumeAfterChildren : bool;
  wf_MaxStepVisits : Z;
  wf_MaxIterations : Z;
  wf_IngestInputArtifacts : bool
}.

Definition HasExternalSideEffects (s : WorkflowStep) : bool :=
  (Type_ s =?? "system"%string) || (Type_ s =?? "call_project"%string).

Record WorkflowValidationError : Type := mkValidationError {
  ve_File : string;
  ve_Field : string;
  ve_Message : string
}.

Definition WorkflowDescriptionMaxLen : Z := 1024.

Open Scope string_scope.

Definition validTypes : list string :=
  ["agent"; "gate"; "approval"; "plan"; "call_project"; "spawn_project"; "a2a_call"; "system"].

Definition validStatuses : list string := ["COMPLETED"; "FAILED"; "CANCELLED"].

Definition is_step (w : Workflow) (name : string) : bool := bool_decide (is_Some (wf_Steps w !! name)).
Definition is_terminal (w : Workflow) (name : string) : bool :=
  bool_decide (is_Some (wf_Terminals w !! name)).

Definition no_gates (step : WorkflowStep) : bool :=
  match Gates step with [] => true | _ => false end.

(** One check of the validator: a failed test is the error. *)
Definition require (test : bool) (filename field message : string) :
    result WorkflowValidationError unit :=
  if test then Ok () else Err (mkValidationError filename field message).

Definition validateTransition (w : Workflow) (fromStep field target filename : string) :
    result WorkflowValidationError unit :=
  require (is_step w target || is_terminal w target) filename
    ("steps." ++ fromStep ++ "." ++ field)
    ("transition target '" ++ target ++ "' not found in steps or terminals").

(** The loop over a step's gates, from index [i]. *)
Fixpoint validate_gates (w : Workflow) (filename stepID : string) (i : nat)
    (gates : list WorkflowGate) : result WorkflowValidationError unit :=
  match gates with
  | [] => Ok ()
  | gate :: rest =>
      let idx := "gates[" ++ pretty i ++ "]" in
      let! _ := require (negb (Condition gate =?? "")) filename
        ("steps." ++ stepID ++ "." ++ idx ++ ".condition") "gate condition is required" in
      let! _ := require (negb (Target gate =?? "")) filename
        ("steps." ++ stepID ++ "." ++ idx ++ ".target") "gate target is required" in
      let! _ := validateTransition w stepID (idx ++ ".target") (Target gate) filename in
      validate_gates w filename stepID (S i) rest
  end.

(** The body of the loop over the steps. *)
Definition validate_step (w : Workflow) (filename stepID : string) (step : WorkflowStep) :
    result WorkflowValidationError unit :=
  let field f := "steps." ++ stepID ++ "." ++ f in
  let ty_is ty := Type_ step =?? ty in
  let! _ := require (negb (ty_is "")) filename (field "type") "step type is required" in
  let! _ := require (bool_decide (Type_ step ∈ validTypes)) filename (field "type")
    ("invalid step type '" ++ Type_ step ++ "', must be one of: agent, gate, approval, plan, call_project, spawn_project, a2a_call, system") in
  let! _ := require (negb ((ty_is "agent" || ty_is "plan") && (Role step =?? ""))) filename
    (field "role") "role is required for agent and plan steps" in
  let! _ := require (negb (ty_is "system" && (Handler step =?? ""))) filename
    (field "handler") "handler is required for system steps (e.g. 'rag.extract' / 'rag.index')" in
  let! _ := require (negb (ty_is "spawn_project" && (Template step =?? ""))) filename
    (field "template") "template is required for spawn_project steps" in
  let! _ := require (negb (ty_is "call_project" && (TargetProject step =?? ""))) filename
    (field "target_project") "target_project is required for call_project steps" in
  let! _ := require (negb (ty_is "call_project" && (TargetWorkflow step =?? ""))) filename
    (field "target_workflow") "target_workflow is required for call_project steps" in
  let! _ := require (negb (ty_is "call_project" && (ExpectSchema step =?? ""))) filename
    (field "expect.schema") "expect.schema is required for call_project steps (the result envelope JSON-Schema id)" in
  let! _ := require (negb (ty_is "plan" && (OnSuccess step =?? ""))) filename
    (field "on_success") "on_success is required for plan steps" in
  let! _ := (if OnSuccess step =?? "" then Ok ()
             else validateTransition w stepID "on_success" (OnSuccess step) filename) in
  let! _ := (if OnFail step =?? "" then Ok ()
             else validateTransition w stepID "on_fail" (OnFail step) filename) in
  let! _ := validate_gates w filename stepID 0 (Gates step) in
  require (negb (ty_is "agent" && negb (OnSuccess step =?? "") && negb (no_gates step)))
    filename (field "on_success")
    "an agent step must not set both on_success and gates — on_success shadows the gates, leaving them dead; remove on_success and let the gates route (use on_fail as the catch-all)".

(** The loops over the steps, the terminals and the reached set, in the order
    the map yields its keys. *)
Fixpoint validate_steps (w : Workflow) (filename : string) (order : list string) :
    result WorkflowValidationError unit :=
  match order with
  | [] => Ok ()
  | stepID :: rest =>
      let! _ := match wf_Steps w !! stepID with
                | Some step => validate_step w filename stepID step
                | None => Ok ()
                end in
      validate_steps w filename rest
  end.

Definition validate_terminal (filename termID : string) (term : WorkflowTerminal) :
    result WorkflowValidationError unit :=
  let field := "terminals." ++ termID ++ ".status" in
  let! _ := require (negb (t_Status term =?? "")) filename field "terminal status is required" in
  require (bool_decide (t_Status term ∈ validStatuses)) filename field
    ("invalid terminal status '" ++ t_Status term ++ "', must be one of: COMPLETED, FAILED, CANCELLED").

Fixpoint validate_terminals (w : Workflow) (filename : string) (order : list string) :
    result WorkflowValidationError unit :=
  match order with
  | [] => Ok ()
  | termID :: rest =>
      let! _ := match wf_Terminals w !! termID with
                | Some term => validate_terminal filename termID term
                | None => Ok ()
                end in
      validate_terminals w filename rest
  end.

(** [reachableFrom]: the depth-first search with its visited set; [None] when
    the fuel does not cover the recursion depth. *)
Fixpoint reachableFrom (fuel : nat) (w : Workflow) (current : string) (visited : gset string) :
    option (gset string) :=
  match fuel with
  | O => None
  | S fuel =>
      if decide (current ∈ visited) then Some visited
      else
        let visited := {[current]} ∪ visited in
        match wf_Steps w !! current with
        | None => Some visited
        | Some step =>
            visited ← (if OnSuccess step =?? "" then Some visited
                       else reachableFrom fuel w (OnSuccess step) visited);
            visited ← (if OnFail step =?? "" then Some visited
                       else reachableFrom fuel w (OnFail step) visited);
            (fix gates (gs : list WorkflowGate) (visited : gset string) :=
               match gs with
               | [] => Some visited
               | g :: gs => visited ← reachableFrom fuel w (Target g) visited; gates gs visited
               end) (Gates step) visited
        end
  end.

(** Enough for any search: each nested call has visited one more step. *)
Definition search_fuel (w : Workflow) : nat := S (S (size (wf_Steps w))).

Fixpoint check_visited (filename : string) (visited : gset string) (order : list string) :
    result WorkflowValidationError unit :=
  match order with
  | [] => Ok ()
  | stepID :: rest =>
      let! _ := require (bool_decide (stepID ∈ visited)) filename ("steps." ++ stepID)
        "step is not reachable from entrypoint" in
      check_visited filename visited rest
  end.

Definition validateReachability (w : Workflow) (filename : string) (order : list string) :
    option (result WorkflowValidationError unit) :=
  visited ← reachableFrom (search_fuel w) w (wf_Entrypoint w) ∅;
  Some (check_visited filename visited order).

(** The orders in which [Validate]'s three loops see the keys. *)
Record Orders : Type := mkOrders {
  o_steps : list string;
  o_terminals : list string;
  o_reach : list string
}.

Definition orders_ok (w : Workflow) (o : Orders) : Prop :=
  o_steps o ≡ₚ elements (dom (wf_Steps w)) /\
  o_terminals o ≡ₚ elements (dom (wf_Terminals w)) /\
  o_reach o ≡ₚ elements (dom (wf_Steps w)).

(** [Validate]; [None] only if the search needs more fuel than it has. *)
Definition Validate (w : Workflow) (filename : string) (o : Orders) :
    option (result WorkflowValidationError unit) :=
  match
    (let! _ := require (negb (wf_ID w =?? "")) filename "workflowId" "workflowId is required" in
     let! _ := require (negb (wf_Entrypoint w =?? "")) filename "entrypoint" "entrypoint is required" in
     let! _ := require (Z.of_nat (String.length (wf_Description w)) <=? WorkflowDescriptionMaxLen)%Z
       filename "description"
       ("description must be ≤1024 characters (got " ++ pretty (String.length (wf_Description w)) ++ ")") in
     let! _ := require (negb (bool_decide (wf_Steps w = ∅) && negb (wf_IngestInputArtifacts w)))
       filename "steps" "at least one step is required" in
     let! _ := require (is_step w (wf_Entrypoint w) || is_terminal w (wf_Entrypoint w)) filename
       "entrypoint" ("entrypoint '" ++ wf_Entrypoint w ++ "' not found in steps or terminals") in
     let! _ := validate_steps w filename (o_steps o) in
     validate_terminals w filename (o_terminals o))
  with
  | Err e => Some (Err e)
  | Ok _ => validateReachability w filename (o_reach o)
  end.
