(* ===== verification/WorkflowFacts.v ===== *)
(** * What a validated workflow is

    The validator of [Workflow] accepts exactly the well-formed workflows, in
    whatever order it ranges over its maps, and its search always terminates. *)
From S2P Require Import Prelude Workflow.
From stdpp Require Import pretty.
Open Scope Z_scope.
Open Scope string_scope.

(** ** The transition graph *)

Definition nonempty (s : string) : list string := if s =?? "" then [] else [s].

(** The targets of a step, in the order the search follows them. *)
Definition targets (step : WorkflowStep) : list string :=
  (nonempty (OnSuccess step) ++ nonempty (OnFail step) ++ map Target (Gates step))%list.

Definition edge (w : Workflow) (a b : string) : Prop :=
  exists step, wf_Steps w !! a = Some step /\ b ∈ targets step.

Definition known (w : Workflow) (name : string) : Prop :=
  is_Some (wf_Steps w !! name) \/ is_Some (wf_Terminals w !! name).

Record step_ok (w : Workflow) (step : WorkflowStep) : Prop := {
  so_type : Type_ step ∈ validTypes;
  so_role : Type_ step = "agent" \/ Type_ step = "plan" -> Role step <> "";
  so_handler : Type_ step = "system" -> Handler step <> "";
  so_template : Type_ step = "spawn_project" -> Template step <> "";
  so_call : Type_ step = "call_project" ->
    TargetProject step <> "" /\ TargetWorkflow step <> "" /\ ExpectSchema step <> "";
  so_plan : Type_ step = "plan" -> OnSuccess step <> "";
  so_gates : forall g, g ∈ Gates step -> Condition g <> "" /\ Target g <> "";
  so_targets : forall t, t ∈ targets step -> known w t;
  so_dead_gates : Type_ step = "agent" -> OnSuccess step <> "" -> Gates step = []
}.

Record well_formed (w : Workflow) : Prop := {
  wfd_id : wf_ID w <> "";
  wfd_entry : wf_Entrypoint w <> "";
  wfd_description : Z.of_nat (String.length (wf_Description w)) <= WorkflowDescriptionMaxLen;
  wfd_nonempty : wf_Steps w <> ∅ \/ wf_IngestInputArtifacts w = true;
  wfd_entry_known : known w (wf_Entrypoint w);
  wfd_steps : forall id step, wf_Steps w !! id = Some step -> step_ok w step;
  wfd_terminals : forall id term, wf_Terminals w !! id = Some term -> t_Status term ∈ validStatuses;
  wfd_reachable : forall id, is_Some (wf_Steps w !! id) -> rtc (edge w) (wf_Entrypoint w) id
}.

(** ** The search *)

Fixpoint visit_all (fuel : nat) (w : Workflow) (l : list string) (visited : gset string) :
    option (gset string) :=
  match l with
  | [] => Some visited
  | c :: l => visited ← reachableFrom fuel w c visited; visit_all fuel w l visited
  end.

Lemma visit_all_app fuel w l k v :
  visit_all fuel w (l ++ k)%list v = visit_all fuel w l v ≫= visit_all fuel w k.
Proof.
  revert v. induction l as [|c l IH]; intros v; [done|]. simpl.
  destruct (reachableFrom fuel w c v); simpl; auto.
Qed.

Lemma visit_all_nonempty fuel w s v :
  visit_all fuel w (nonempty s) v =
  if s =?? "" then Some v else reachableFrom fuel w s v.
Proof.
  unfold nonempty. destruct (s =?? ""); [done|]. simpl. by destruct (reachableFrom _ _ _ _).
Qed.

Lemma reachableFrom_S fuel w c v :
  reachableFrom (S fuel) w c v =
  if decide (c ∈ v) then Some v
  else match wf_Steps w !! c with
       | None => Some ({[c]} ∪ v)
       | Some step => visit_all fuel w (targets step) ({[c]} ∪ v)
       end.
Proof.
  simpl. destruct (decide (c ∈ v)); [done|]. destruct (wf_Steps w !! c) as [step|]; [|done].
  unfold targets. rewrite visit_all_app, visit_all_nonempty.
  destruct (if OnSuccess step =?? "" then _ else _) as [v1|]; [|done]. simpl.
  rewrite visit_all_app, visit_all_nonempty.
  destruct (if OnFail step =?? "" then _ else _) as [v2|]; [|done]. simpl.
  generalize v2. induction (Gates step) as [|g gs IH]; intros v3; [done|]. simpl.
  destruct (reachableFrom fuel w (Target g) v3); simpl; [apply IH|done].
Qed.

(** Steps the search has not visited. *)
Definition unvisited (w : Workflow) (v : gset string) : nat := size (dom (wf_Steps w) ∖ v).

Lemma unvisited_mono w v v' : v ⊆ v' -> (unvisited w v' <= unvisited w v)%nat.
Proof. intros H. apply subseteq_size. set_solver. Qed.

Lemma unvisited_step w c v :
  c ∉ v -> is_Some (wf_Steps w !! c) -> (unvisited w ({[c]} ∪ v) < unvisited w v)%nat.
Proof.
  intros Hc Hs. apply subset_size. apply elem_of_dom in Hs.
  split; [set_solver|]. intros H. specialize (H c). set_solver.
Qed.

(** What a search from the sources [from] adds to the visited set. *)
Record search_ok (w : Workflow) (from : list string) (v v' : gset string) : Prop := {
  se_keeps : v ⊆ v';
  se_sources : forall c, c ∈ from -> c ∈ v';
  se_sound : forall x, x ∈ v' -> x ∈ v \/ exists c, c ∈ from /\ rtc (edge w) c x;
  se_closed : forall x y, x ∈ v' -> x ∉ v -> edge w x y -> y ∈ v'
}.

Lemma search_ok_cons w c l v v1 v2 :
  search_ok w [c] v v1 -> search_ok w l v1 v2 -> search_ok w (c :: l) v v2.
Proof.
  intros [K1 S1 R1 C1] [K2 S2 R2 C2]. split.
  - set_solver.
  - intros d [->|Hd]%elem_of_cons; [|by apply S2]. apply K2, S1. left.
  - intros x [Hx|(d & Hd & Hr)]%R2.
    + destruct (R1 x Hx) as [|(d & ->%list_elem_of_singleton & Hr)]; [by left|].
      right. exists c. split; [left|done].
    + right. exists d. split; [by right|done].
  - intros x y Hx Hv He. destruct (decide (x ∈ v1)) as [H1|H1]; [|by eapply C2].
    apply K2. by eapply C1.
Qed.

Lemma visit_all_ok fuel w l v :
  (forall c v, (unvisited w v < fuel)%nat ->
     exists v', reachableFrom fuel w c v = Some v' /\ search_ok w [c] v v') ->
  (unvisited w v < fuel)%nat ->
  exists v', visit_all fuel w l v = Some v' /\ search_ok w l v v'.
Proof.
  intros Hc. revert v. induction l as [|c l IH]; intros v Hf; simpl.
  { exists v. split; [done|]. split; [done|set_solver|by left|done]. }
  destruct (Hc c v Hf) as (v1 & -> & H1). simpl.
  destruct (IH v1) as (v2 & E2 & H2).
  { pose proof (unvisited_mono w v v1 (se_keeps _ _ _ _ H1)). lia. }
  exists v2. split; [done|]. by eapply search_ok_cons.
Qed.

Lemma reachableFrom_ok fuel w c v :
  (unvisited w v < fuel)%nat ->
  exists v', reachableFrom fuel w c v = Some v' /\ search_ok w [c] v v'.
Proof.
  revert c v. induction fuel as [|fuel IH]; intros c v Hf; [lia|].
  rewrite reachableFrom_S. destruct (decide (c ∈ v)) as [Hc|Hc].
  { exists v. split; [done|]. split; [done| |by left|done].
    by intros d ->%list_elem_of_singleton. }
  destruct (wf_Steps w !! c) as [step|] eqn:Es.
  - destruct (visit_all_ok fuel w (targets step) ({[c]} ∪ v) IH) as (v' & -> & [K S R C]).
    { pose proof (unvisited_step w c v Hc ltac:(by exists step)). lia. }
    exists v'. split; [done|]. split.
    + set_solver.
    + intros d ->%list_elem_of_singleton. set_solver.
    + intros x Hx. destruct (R x Hx) as [[->%elem_of_singleton|?]%elem_of_union|(d & Hd & Hr)].
      * right. exists c. split; [left|constructor].
      * by left.
      * right. exists c. split; [left|]. eapply rtc_l; [|exact Hr]. by exists step.
    + intros x y Hx Hv He. destruct (decide (x = c)) as [->|Hne].
      * destruct He as (step' & Es' & Hy). apply S. congruence.
      * eapply C; [exact Hx|set_solver|exact He].
  - exists ({[c]} ∪ v). split; [done|]. split; [set_solver| | |].
    + intros d ->%list_elem_of_singleton. set_solver.
    + intros x [->%elem_of_singleton|?]%elem_of_union; [|by left].
      right. exists c. split; [left|constructor].
    + intros x y [->%elem_of_singleton|?]%elem_of_union Hv (step & Es' & _); [congruence|done].
Qed.

(** From nothing, the search computes reachability. *)
Lemma reachableFrom_spec w c :
  exists v, reachableFrom (search_fuel w) w c ∅ = Some v /\
    forall x, x ∈ v <-> rtc (edge w) c x.
Proof.
  destruct (reachableFrom_ok (search_fuel w) w c ∅) as (v & E & [K S R C]).
  { unfold unvisited, search_fuel. rewrite <- size_dom.
    assert (size (dom (wf_Steps w) ∖ ∅) <= size (dom (wf_Steps w)))%nat; [|lia].
    apply subseteq_size. set_solver. }
  exists v. split; [done|]. intros x. split.
  - intros Hx. destruct (R x Hx) as [?|(d & ->%list_elem_of_singleton & Hr)]; [set_solver|done].
  - assert (Hc : c ∈ v) by (apply S; left). clear E K S R.
    induction 1 as [|a b d He _ IH]; [done|]. apply IH. eapply C; [exact Hc|set_solver|exact He].
Qed.

(** ** The checks *)

Lemma require_ok t f fd m : require t f fd m = Ok () <-> t = true.
Proof. unfold require. by destruct t. Qed.

Lemma bind_ok {E} (m k : result E unit) : (let! _ := m in k) = Ok () <-> m = Ok () /\ k = Ok ().
Proof.
  rewrite res_bind_ok. split; [by intros ([] & ? & ?)|]. intros [H1 H2]. by exists ().
Qed.

(** Errors of the validator carry the file name. *)
Definition names_file (filename : string) (r : result WorkflowValidationError unit) : Prop :=
  forall e, r = Err e -> ve_File e = filename.

Lemma require_file t f fd m : names_file f (require t f fd m).
Proof. intros e. unfold require. destruct t; [done|]. by intros [= <-]. Qed.

Lemma bind_file f m k : names_file f m -> names_file f k -> names_file f (let! _ := m in k).
Proof. intros Hm Hk e. destruct m as [[]|e']; simpl; [apply Hk|]. intros [= ->]. by apply Hm. Qed.

Lemma ok_file f : names_file f (Ok ()).
Proof. done. Qed.

Create HintDb files discriminated.
#[local] Hint Resolve require_file bind_file ok_file : files.

Lemma is_known w name : is_step w name || is_terminal w name = true <-> known w name.
Proof. unfold is_step, is_terminal, known. by rewrite orb_true_iff, !bool_decide_eq_true. Qed.

Lemma validateTransition_ok w s fd t f : validateTransition w s fd t f = Ok () <-> known w t.
Proof. unfold validateTransition. by rewrite require_ok, is_known. Qed.

Lemma validateTransition_file w s fd t f : names_file f (validateTransition w s fd t f).
Proof. apply require_file. Qed.
#[local] Hint Resolve validateTransition_file : files.

Lemma neg_empty s : negb (s =?? "") = true <-> s <> "".
Proof. by rewrite negb_true_iff, bool_decide_eq_false. Qed.

Lemma validate_gates_ok w f id i gs :
  validate_gates w f id i gs = Ok () <->
  forall g, g ∈ gs -> Condition g <> "" /\ Target g <> "" /\ known w (Target g).
Proof.
  revert i. induction gs as [|g gs IH]; intros i; simpl; [split; [set_solver|done]|].
  rewrite !bind_ok, !require_ok, validateTransition_ok, !neg_empty, IH.
  split.
  - intros (H1 & H2 & H3 & H4) g' [->|Hg]%elem_of_cons; [done|by apply H4].
  - intros H. destruct (H g ltac:(left)) as (H1 & H2 & H3). split_and!; try done.
    intros g' Hg. apply H. by right.
Qed.

Lemma validate_gates_file w f id i gs : names_file f (validate_gates w f id i gs).
Proof. revert i. induction gs; intros i; simpl; auto 10 with files. Qed.
#[local] Hint Resolve validate_gates_file : files.

Lemma optional_transition_ok w id fd t f :
  (if t =?? "" then Ok () else validateTransition w id fd t f) = Ok () <->
  forall x, x ∈ nonempty t -> known w x.
Proof.
  unfold nonempty. destruct (t =?? "").
  - split; [|done]. intros _ x Hx. by apply elem_of_nil in Hx.
  - rewrite validateTransition_ok. split; [by intros ? ? ->%list_elem_of_singleton|].
    intros H. apply H. left.
Qed.

Lemma negb_and_false a b : negb (a && b) = true <-> (a = true -> b = false).
Proof. destruct a, b; simpl; split; intros H; try done. symmetry. by apply H. Qed.

Lemma no_gates_spec step : no_gates step = true <-> Gates step = [].
Proof. unfold no_gates. by destruct (Gates step). Qed.

Lemma validate_step_ok w f id step :
  validate_step w f id step = Ok () <-> step_ok w step.
Proof.
  unfold validate_step. cbv zeta.
  rewrite !bind_ok, !require_ok, !optional_transition_ok, validate_gates_ok.
  rewrite !negb_and_false, neg_empty, !bool_decide_eq_true, !bool_decide_eq_false.
  rewrite orb_true_iff, !bool_decide_eq_true, negb_false_iff.
  rewrite andb_true_iff, neg_empty, bool_decide_eq_true, no_gates_spec. split.
  - intros (H1 & H2 & H3 & H4 & H5 & H6 & H7 & H8 & H9 & H10 & H11 & H12 & H13).
    split; try done.
    + intros H. split_and!; [by apply H6|by apply H7|by apply H8].
    + intros g Hg. destruct (H12 g Hg) as (? & ? & _). done.
    + intros t [Ht|[Ht|(g & -> & Hg)%list_elem_of_fmap]%elem_of_app]%elem_of_app;
        [by apply H10|by apply H11|by apply H12].
    + auto.
  - intros [T1 T2 T3 T4 T5 T6 T7 T8 T9].
    assert (Hty : Type_ step <> "") by (intros E; rewrite E in T1; unfold validTypes in T1;
                                        rewrite !elem_of_cons, elem_of_nil in T1; by destruct_or! T1).
    split_and!; try done.
    + intros H. by apply T5.
    + intros H. by apply T5.
    + intros H. by apply T5.
    + intros x Hx. apply T8. apply elem_of_app. by left.
    + intros x Hx. apply T8. unfold targets. rewrite !elem_of_app. auto.
    + intros g Hg. destruct (T7 g Hg) as [? ?]. split_and!; try done. apply T8.
      unfold targets. rewrite !elem_of_app. right. right. apply list_elem_of_fmap. by exists g.
    + intros [? ?]. auto.
Qed.

Lemma validate_step_file w f id step : names_file f (validate_step w f id step).
Proof.
  unfold validate_step. cbv zeta.
  repeat (apply bind_file; [repeat case_match; auto with files|]). apply require_file.
Qed.
#[local] Hint Resolve validate_step_file : files.

(** ** The loops *)

Lemma validate_steps_ok w f order :
  validate_steps w f order = Ok () <->
  forall id step, id ∈ order -> wf_Steps w !! id = Some step -> step_ok w step.
Proof.
  induction order as [|id order IH]; simpl.
  { split; [|done]. intros _ id step H. by apply elem_of_nil in H. }
  rewrite bind_ok, IH. clear IH. split.
  - intros [H1 H2] id' step [->|H]%elem_of_cons Hs; [|by eapply H2].
    rewrite Hs in H1. by apply validate_step_ok in H1.
  - intros H. split; [|intros id' step Hin; apply H; by right].
    destruct (wf_Steps w !! id) as [step|] eqn:Es; [|done]. apply validate_step_ok.
    apply (H id); [left|done].
Qed.

Lemma validate_steps_file w f order : names_file f (validate_steps w f order).
Proof. induction order; simpl; repeat case_match; auto with files. Qed.

Lemma validate_terminals_ok w f order :
  validate_terminals w f order = Ok () <->
  forall id term, id ∈ order -> wf_Terminals w !! id = Some term -> t_Status term ∈ validStatuses.
Proof.
  assert (Hone : forall id term, validate_terminal f id term = Ok () <->
                   t_Status term ∈ validStatuses).
  { intros id term. unfold validate_terminal. cbv zeta.
    rewrite bind_ok, !require_ok, neg_empty, bool_decide_eq_true. split; [by intros []|].
    intros H. split; [|done]. intros E. rewrite E in H. unfold validStatuses in H.
    by rewrite !elem_of_cons, elem_of_nil in H; destruct_or! H. }
  induction order as [|id order IH]; simpl.
  { split; [|done]. intros _ id term H. by apply elem_of_nil in H. }
  rewrite bind_ok, IH. clear IH. split.
  - intros [H1 H2] id' term [->|H]%elem_of_cons Hs; [|by eapply H2].
    rewrite Hs in H1. by apply Hone in H1.
  - intros H. split; [|intros id' term Hin; apply H; by right].
    destruct (wf_Terminals w !! id) as [term|] eqn:Es; [|done]. apply Hone.
    apply (H id); [left|done].
Qed.

Lemma validate_terminals_file w f order : names_file f (validate_terminals w f order).
Proof.
  induction order; simpl; unfold validate_terminal; cbv zeta;
    repeat case_match; auto 10 with files.
Qed.

Lemma check_visited_ok f v order :
  check_visited f v order = Ok () <-> forall id, id ∈ order -> id ∈ v.
Proof.
  induction order as [|id order IH]; simpl.
  { split; [|done]. intros _ id H. by apply elem_of_nil in H. }
  rewrite bind_ok, require_ok, bool_decide_eq_true, IH. setoid_rewrite elem_of_cons. naive_solver.
Qed.

Lemma check_visited_file f v order : names_file f (check_visited f v order).
Proof. induction order; simpl; auto with files. Qed.

Lemma elem_of_order {A} (m : gmap string A) (l : list string) id x :
  l ≡ₚ elements (dom m) -> m !! id = Some x -> id ∈ l.
Proof. intros -> Hx. apply elem_of_elements, elem_of_dom. by exists x. Qed.

Lemma order_of_elem {A} (m : gmap string A) (l : list string) id :
  l ≡ₚ elements (dom m) -> id ∈ l -> is_Some (m !! id).
Proof. intros -> Hx. by apply elem_of_elements, elem_of_dom in Hx. Qed.

(** The checks before the reachability search, in their order. *)
Lemma checks_ok w filename o :
  orders_ok w o ->
  (let! _ := require (negb (wf_ID w =?? "")) filename "workflowId" "workflowId is required" in
   let! _ := require (negb (wf_Entrypoint w =?? "")) filename "entrypoint" "entrypoint is required" in
   let! _ := require (Z.of_nat (String.length (wf_Description w)) <=? WorkflowDescriptionMaxLen)%Z
     filename "description"
     ("description must be ≤1024 characters (got " ++ pretty (String.length (wf_Description w)) ++ ")") in
   let! _ := require (negb (bool_decide (wf_Steps w = ∅) && negb (wf_IngestInputArtifacts w)))
     filename "steps" "at least one step is required" in
   let! _ := require (is_step w (wf_Entrypoint w) || is_terminal w (wf_Entrypoint w)) filename
     "entrypoint" ("entrypoint '" ++ wf_Entrypoint w ++ "' not found in steps or terminals") in
   let! _ := validate_steps w filename (o_steps o) in
   validate_terminals w filename (o_terminals o)) = Ok () <->
  wf_ID w <> "" /\ wf_Entrypoint w <> "" /\
  (Z.of_nat (String.length (wf_Description w)) <= WorkflowDescriptionMaxLen) /\
  (wf_Steps w <> ∅ \/ wf_IngestInputArtifacts w = true) /\ known w (wf_Entrypoint w) /\
  (forall id step, wf_Steps w !! id = Some step -> step_ok w step) /\
  (forall id term, wf_Terminals w !! id = Some term -> t_Status term ∈ validStatuses).
Proof.
  intros (Ho1 & Ho2 & _). rewrite !bind_ok, !require_ok, !neg_empty, Z.leb_le, is_known,
    validate_steps_ok, validate_terminals_ok, negb_and_false, bool_decide_eq_true, negb_false_iff.
  split; intros (? & ? & ? & H4 & ? & H6 & H7); split_and!; try done.
  - destruct (decide (wf_Steps w = ∅)); auto.
  - intros id step Hs. eapply H6; [by eapply elem_of_order|done].
  - intros id term Hs. eapply H7; [by eapply elem_of_order|done].
  - naive_solver.
  - intros id step _. apply H6.
  - intros id term _. apply H7.
Qed.

Lemma validateReachability_ok w filename o :
  orders_ok w o ->
  exists r, validateReachability w filename (o_reach o) = Some r /\ names_file filename r /\
    (r = Ok () <-> forall id, is_Some (wf_Steps w !! id) -> rtc (edge w) (wf_Entrypoint w) id).
Proof.
  intros (_ & _ & Ho). unfold validateReachability.
  destruct (reachableFrom_spec w (wf_Entrypoint w)) as (v & -> & Hv). simpl. eexists.
  split; [done|]. split; [apply check_visited_file|]. rewrite check_visited_ok. split.
  - intros H id [x Hx]. apply Hv, H. by eapply elem_of_order.
  - intros H id Hid. apply Hv, H. by eapply order_of_elem.
Qed.

Lemma Validate_decides w filename o :
  orders_ok w o -> exists r, Validate w filename o = Some r /\ (r = Ok () <-> well_formed w).
Proof.
  intros Ho. pose proof (checks_ok w filename o Ho) as Hc. unfold Validate.
  destruct (validateReachability_ok w filename o Ho) as (r & Er & _ & Hr).
  destruct (res_bind _ _) as [[]|e]; [exists r|exists (Err e)]; (split; [done|]); split.
  - intros H. destruct (proj1 Hc eq_refl) as (? & ? & ? & ? & ? & ? & ?). split; try done. by apply Hr.
  - intros Hwf. apply Hr, (wfd_reachable _ Hwf).
  - done.
  - intros []. apply Hc. by split_and!.
Qed.

Lemma Validate_file w filename o r :
  orders_ok w o -> Validate w filename o = Some r -> names_file filename r.
Proof.
  intros Ho. unfold Validate. destruct (validateReachability_ok w filename o Ho) as (r' & Er & Hf & _).
  match goal with |- context [match ?m with Ok _ => _ | Err _ => _ end] =>
    assert (Hm : names_file filename m) by
      auto 10 using validate_steps_file, validate_terminals_file with files;
    destruct m as [[]|e] end.
  - rewrite Er. by intros [= <-].
  - by intros [= <-].
Qed.

(** C38: validation is exact.  In whatever order it ranges over the maps,
    [Validate] returns, accepts a workflow if and only if it is well formed
    (every step has what its type needs, every transition and gate leads to a
    step or a terminal, no agent step has gates its success transition shadows,
    every terminal has a valid status, and every step is reachable from the
    entrypoint in the transition graph), and every error names the file. *)
Theorem Validate_spec w filename o :
  orders_ok w o ->
  exists r, Validate w filename o = Some r /\ (r = Ok () <-> well_formed w) /\
    forall e, r = Err e -> ve_File e = filename.
Proof.
  intros Ho. destruct (Validate_decides w filename o Ho) as (r & Er & Hr).
  exists r. split; [done|]. split; [done|]. by apply (Validate_file w filename o).
Qed.

(** ** Example: implement, review, rework *)

Definition agent_step (role succ fail : string) (gates : list WorkflowGate) : WorkflowStep :=
  mkStep "agent" role succ fail gates "" "" "" "" "" "".

Definition review_workflow : Workflow := {|
  wf_ID := "review-loop";
  wf_Description := "implement until the reviewer approves";
  wf_Entrypoint := "implement";
  wf_Steps := {[ "implement" := agent_step "coder" "review" "failed" [];
                 "review" := agent_step "reviewer" "" "failed"
                   [mkGate "review.approved == true" "done";
                    mkGate "review.approved == false" "implement"] ]};
  wf_Terminals := {[ "done" := mkTerminal "COMPLETED" "" false;
                     "failed" := mkTerminal "FAILED" "" false ]};
  wf_ResumeAfterChildren := false;
  wf_MaxStepVisits := 0;
  wf_MaxIterations := 0;
  wf_IngestInputArtifacts := false |}.

Definition review_orders : Orders :=
  mkOrders ["review"; "implement"] ["done"; "failed"] ["implement"; "review"].

Lemma review_orders_ok : orders_ok review_workflow review_orders.
Proof. split_and!; apply (bool_decide_unpack _); vm_compute; exact I. Qed.

Lemma review_accepted :
  Validate review_workflow "review.md" review_orders = Some (Ok ()).
Proof. vm_compute. reflexivity. Qed.

Lemma review_well_formed : well_formed review_workflow.
Proof.
  destruct (Validate_decides review_workflow "review.md" review_orders review_orders_ok)
    as (r & E & H).
  apply H. pose proof review_accepted as H'. rewrite E in H'. by injection H'.
Qed.

Example Validate_spec_witness : well_formed review_workflow.
Proof.
  destruct (Validate_spec review_workflow "review.md" review_orders review_orders_ok)
    as (r & E & H & _).
  apply H. pose proof review_accepted as H'. rewrite E in H'. by injection H'.
Defined.
