(* ===== verification/Gates.v ===== *)
(** * Gate conditions

    [src/internal/executor/gates.go] and the payload normalisation of
    [src/internal/executor/output_schema.go]: a gate step picks the first of its
    gates whose condition holds of the previous step's JSON result.  The decoder
    of [encoding/json] is a parameter. *)
From Stdlib Require Import Ascii.
From S2P Require Import Prelude GoStrings Workflow.
Open Scope string_scope.

(** ** JSON *)

(** Numbers as the decoder represents them (Go's [float64]). *)
Class JsonNumbers : Type := {
  num : Type;
  num_eq_dec :: EqDecision num
}.

Inductive json `{JsonNumbers} : Type :=
| JNull
| JBool (b : bool)
| JNum (n : num)
| JStr (s : string)
| JArr (l : list json)
| JObj (m : gmap string json).

Abbreviation object := (gmap string json).

(** [json.Unmarshal] into a [map[string]any] and into a [float64]; the error is
    the decoder's message. *)
Class JsonUnmarshal `{JsonNumbers} : Type := {
  unmarshal_object : string -> result string object;
  unmarshal_number : string -> option num
}.

Section Gates.
Context {JN : JsonNumbers} {JU : JsonUnmarshal}.

(** ** The last JSON object of a text *)

Definition quote : ascii := ascii_of_nat 34.
Definition backslash : ascii := ascii_of_nat 92.

(** The variables of [extractLastJSONObject]'s loop; [-1] is [None]. *)
Record Scan : Type := mkScan {
  sc_last : option (nat * nat);
  sc_depth : nat;
  sc_start : option nat;
  sc_inString : bool;
  sc_escape : bool
}.

Definition scan_byte (i : nat) (c : ascii) (s : Scan) : Scan :=
  if sc_escape s then s <| sc_escape := false |>
  else if sc_inString s then
    if (c =?? backslash) then s <| sc_escape := true |>
    else if (c =?? quote) then s <| sc_inString := false |>
    else s
  else if (c =?? quote) then s <| sc_inString := true |>
  else if (c =?? "{"%char) then
    s <| sc_start := if Nat.eqb (sc_depth s) 0 then Some i else sc_start s |>
      <| sc_depth := S (sc_depth s) |>
  else if (c =?? "}"%char) then
    match sc_depth s with
    | O => s
    | S d =>
        match d, sc_start s with
        | O, Some st => s <| sc_depth := d |> <| sc_last := Some (st, S i) |> <| sc_start := None |>
        | _, _ => s <| sc_depth := d |>
        end
    end
  else s.

Fixpoint scan_from (i : nat) (b : string) (s : Scan) : Scan :=
  match b with
  | "" => s
  | String c b => scan_from (S i) b (scan_byte i c s)
  end.

Definition extractLastJSONObject (b : string) : option string :=
  match sc_last (scan_from 0 b (mkScan None 0 None false false)) with
  | Some (st, en) => if Nat.leb en st then None else Some (String.substring st (en - st) b)
  | None => None
  end.

(** [normalizedResultPayload]: envelope keys win over hoisted ones. *)
Definition normalizedResultPayload (resultBytes : string) : result string object :=
  match unmarshal_object resultBytes with
  | Err err =>
      match extractLastJSONObject resultBytes with
      | Some extracted =>
          match unmarshal_object extracted with
          | Ok inner => Ok inner
          | Err _ => Err err
          end
      | None => Err err
      end
  | Ok envelope =>
      match envelope !! "message" with
      | Some (JStr msg) =>
          if msg =?? "" then Ok envelope
          else match extractLastJSONObject msg with
               | Some inner =>
                   match unmarshal_object inner with
                   | Ok innerObj => Ok (envelope ∪ innerObj)
                   | Err _ => Ok envelope
                   end
               | None => Ok envelope
               end
      | _ => Ok envelope
      end
  end.

(** ** Gate conditions *)

Inductive GateValue : Type :=
| GVNull
| GVBool (b : bool)
| GVNum (n : num)
| GVStr (s : string).

Definition parseGateValue (raw : string) : GateValue :=
  if raw =?? "true" then GVBool true
  else if raw =?? "false" then GVBool false
  else if raw =?? "null" then GVNull
  else
    let quoted :=
      Nat.leb 2 (String.length raw) &&
      bool_decide (String.get 0 raw = Some quote) &&
      bool_decide (String.get (String.length raw - 1) raw = Some quote) in
    if quoted then GVStr (String.substring 1 (String.length raw - 2) raw)
    else match unmarshal_number raw with
         | Some n => GVNum n
         | None => GVStr raw
         end.

(** [reflect.DeepEqual] of a decoded value and a gate literal. *)
Definition DeepEqual (actual : json) (expected : GateValue) : bool :=
  match actual, expected with
  | JNull, GVNull => true
  | JBool a, GVBool b => Bool.eqb a b
  | JNum a, GVNum b => a =?? b
  | JStr a, GVStr b => a =?? b
  | _, _ => false
  end.

Fixpoint walk (current : json) (path : list string) : option json :=
  match path with
  | [] => Some current
  | part :: path =>
      match current with
      | JObj obj => match obj !! part with Some value => walk value path | None => None end
      | _ => None
      end
  end.

(** [lookupJSONPath]: the whole path as one key, then the nested walk.  The
    payload is [None] when the step had no result. *)
Definition lookupJSONPath (payload : option object) (path : string) : option json :=
  match payload with
  | None => None
  | Some obj =>
      match obj !! path with
      | Some value => Some value
      | None => walk (JObj obj) (split "." path)
      end
  end.

(** The evaluator's errors and those of [evaluateGateStepTraced]. *)
Inductive GateError : Type :=
| UnsupportedCondition (condition : string)
| EmptySubTerm (condition : string)
| NoGates
| GateInputNotJSON (err preview : string)
| NoGateMatched (conditions : list string) (preview : string).

Definition evaluateSingleCondition (condition : string) (payload : option object) :
    result GateError bool :=
  match cut "==" condition with
  | None => Err (UnsupportedCondition condition)
  | Some (l, r) =>
      match lookupJSONPath payload (TrimSpace l) with
      | None => Ok false
      | Some actual => Ok (DeepEqual actual (parseGateValue (TrimSpace r)))
      end
  end.

(** The loop over the sub-terms of a conjunction. *)
Fixpoint evaluate_subterms (condition : string) (subs : list string) (payload : option object) :
    result GateError bool :=
  match subs with
  | [] => Ok true
  | sub :: subs =>
      let sub := TrimSpace sub in
      if sub =?? "" then Err (EmptySubTerm condition)
      else
        let! matched := evaluateSingleCondition sub payload in
        if matched then evaluate_subterms condition subs payload else Ok false
  end.

Definition evaluateGateCondition (condition : string) (payload : option object) :
    result GateError bool :=
  if contains condition "&&"
  then evaluate_subterms condition (split "&&" condition) payload
  else evaluateSingleCondition condition payload.

(** One attempted gate in the trace. *)
Record GateEvalEntry : Type := mkEntry {
  en_Condition : string;
  en_Target : string;
  en_Matched : bool;
  en_Observed : option json;
  en_Wanted : option GateValue;
  en_Err : option GateError
}.

Definition previewJSON (raw : string) : string :=
  if Nat.ltb 300 (String.length raw) then String.substring 0 300 raw ++ "..." else raw.

(** The entry of a gate, before its condition is evaluated. *)
Definition gate_entry (gate : WorkflowGate) (payload : option object) : GateEvalEntry :=
  match cut "==" (Condition gate) with
  | Some (l, r) =>
      if contains (Condition gate) "&&"
      then mkEntry (Condition gate) (Target gate) false None None None
      else mkEntry (Condition gate) (Target gate) false (lookupJSONPath payload (TrimSpace l))
             (Some (parseGateValue (TrimSpace r))) None
  | None => mkEntry (Condition gate) (Target gate) false None None None
  end.

(** The loop over the gates: the target, if one matched, and the trace. *)
Fixpoint evaluate_gates (gates : list WorkflowGate) (payload : option object) :
    result GateError (option string) * list GateEvalEntry :=
  match gates with
  | [] => (Ok None, [])
  | gate :: rest =>
      let entry := gate_entry gate payload in
      match evaluateGateCondition (Condition gate) payload with
      | Err err => (Err err, [entry <| en_Err := Some err |>])
      | Ok true => (Ok (Some (Target gate)), [entry <| en_Matched := true |>])
      | Ok false =>
          let '(r, trace) := evaluate_gates rest payload in (r, entry :: trace)
      end
  end.

Definition evaluateGateStepTraced (step : WorkflowStep) (lastResult : string) :
    result GateError string * list GateEvalEntry :=
  match Gates step with
  | [] => (Err NoGates, [])
  | gates =>
      match (if lastResult =?? "" then Ok None
             else let! obj := normalizedResultPayload lastResult in Ok (Some obj)) with
      | Err err => (Err (GateInputNotJSON err (previewJSON lastResult)), [])
      | Ok payload =>
          match evaluate_gates gates payload with
          | (Err err, trace) => (Err err, trace)
          | (Ok (Some target), trace) => (Ok target, trace)
          | (Ok None, trace) =>
              (Err (NoGateMatched (map Condition gates) (previewJSON lastResult)), trace)
          end
      end
  end.

(** ** Classification of the errors

    The classifier reads the text of the error. *)

(** [strings.Join]. *)
Definition Join (l : list string) (sep : string) : string := String.concat sep l.

Definition hex_digit (n : nat) : string := String.substring n 1 "0123456789abcdef".

(** [%q] of a text of printable characters, ASCII control characters and
    quotes. *)
Fixpoint escape (s : string) : string :=
  match s with
  | "" => ""
  | String c s =>
      let n := nat_of_ascii c in
      let out :=
        if (c =?? quote) || (c =?? backslash) then String backslash (String c "")
        else if Nat.eqb n 7 then String backslash "a"
        else if Nat.eqb n 8 then String backslash "b"
        else if Nat.eqb n 9 then String backslash "t"
        else if Nat.eqb n 10 then String backslash "n"
        else if Nat.eqb n 11 then String backslash "v"
        else if Nat.eqb n 12 then String backslash "f"
        else if Nat.eqb n 13 then String backslash "r"
        else if Nat.ltb n 32 || Nat.eqb n 127
        then String backslash ("x" ++ hex_digit (n / 16) ++ hex_digit (Nat.modulo n 16))
        else String c "" in
      out ++ escape s
  end.

Definition Quote (s : string) : string := String quote (escape s ++ String quote "").

Definition GateError_message (err : GateError) : string :=
  match err with
  | UnsupportedCondition c => "unsupported gate condition " ++ Quote c
  | EmptySubTerm c => "gate condition " ++ Quote c ++ " has empty sub-term — check for trailing/double &&"
  | NoGates => "gate step has no gates"
  | GateInputNotJSON err preview =>
      "failed to parse gate input as JSON: " ++ err ++ " — agent response was: " ++ preview
  | NoGateMatched conditions preview =>
      "no gate condition matched (expected one of: [" ++ Join conditions " | " ++ "], got: " ++
      preview ++ ")"
  end.

Inductive GateOutcome : Type :=
| OutcomeParseError
| OutcomeDownstreamRejected
| OutcomeGateFailed.

(** [classifyGateEvalError] for a non-nil error. *)
Definition classifyGateEvalError (err : GateError) : GateOutcome :=
  let msg := GateError_message err in
  if contains msg "failed to parse gate input as JSON" then OutcomeParseError
  else if contains msg "no gate condition matched" then OutcomeDownstreamRejected
  else OutcomeGateFailed.

End Gates.
