(* ===== verification/Engine.v ===== *)
(** * The workflow engine

    [executeWorkflowAttempt] of [src/internal/executor/workflow.go] with the
    helpers of its loop, the checkpoints of [state.go] and [strict_route.go]:
    one attempt walks the workflow graph from the checkpointed step, dispatching
    a step per iteration, until a terminal, a pause or an error.  What an agent,
    a plan, a callee, a handler or the repository answers during one iteration
    is a [Report].  Prompts, artifacts, time budgets, metrics and live events do
    not steer the loop and are left out. *)
From Stdlib Require Import Ascii.
From S2P Require Import Prelude GoStrings TaskModel Workflow Gates.
Open Scope string_scope.

(** ** Reasoning blocks *)

Definition open_tags : list string := ["<think>"; "<thinking>"; "<reasoning>"].
Definition close_tags : list string := ["</think>"; "</thinking>"; "</reasoning>"].

(** The text around the first occurrence of one of the tags. *)
Fixpoint cut_any (tags : list string) (s : string) : option (string * string) :=
  match List.find (fun t => String.prefix t s) tags with
  | Some t => Some ("", String.substring (String.length t) (String.length s) s)
  | None => match s with
            | "" => None
            | String c s' => match cut_any tags s' with
                             | Some (a, b) => Some (String c a, b)
                             | None => None
                             end
            end
  end.

(** [\s*] of the regular expression: no vertical tab. *)
Fixpoint skip_re_space (s : string) : string :=
  match s with
  | String c s' => if is_space c && negb (Nat.eqb (nat_of_ascii c) 11) then skip_re_space s' else s
  | "" => ""
  end.

Fixpoint drop_reasoning (fuel : nat) (s : string) : string :=
  match fuel with
  | O => s
  | S fuel =>
      match cut_any open_tags s with
      | None => s
      | Some (before, rest) =>
          match cut_any close_tags rest with
          | None => s
          | Some (_, after) => before ++ drop_reasoning fuel (skip_re_space after)
          end
      end
  end.

Definition stripReasoning (s : string) : string :=
  TrimSpace (drop_reasoning (S (String.length s)) s).

(** ** State *)

Record RecoveryContext : Type := mkRecovery {
  FailedStep : string;
  FailureClass : string;
  FailureReason : string;
  BlockedURLs : list string
}.

(** [executionState], less the fields only the plan executor and the container
    layer use. *)
Record executionState : Type := mkState {
  CurrentStepID : string;
  CompletedSteps : list string;
  LastResult : string;
  StepResults : gmap string string;
  ApprovalPendingStep : string;
  ApprovalGrantedStep : string;
  VisitCounts : gmap string Z;
  Iterations : Z;
  PlanSteps : list string;
  PlanIndex : Z;
  PausedReason : string;
  PendingRecovery : option RecoveryContext
}.

Definition zeroState : executionState :=
  mkState "" [] "" ∅ "" "" ∅ 0 [] 0 "" None.

Definition PauseReasonShutdown : string := "shutdown".
Definition PauseReasonAwaitingChildren : string := "awaiting_children".
Definition PauseReasonOperator : string := "operator".

(** The columns of an execution the engine reads and writes. *)
Record Execution : Type := mkExecution {
  ex_CurrentStepID : option string;
  ex_CompletedSteps : list string;
  ex_StateSnapshot : option executionState
}.

(** The execution in memory, its row, the statuses last written and the
    workflows of the child tasks created. *)
Record World : Type := mkWorld {
  w_execution : Execution;
  w_row : Execution;
  w_taskStatus : TaskStatus;
  w_execStatus : ExecutionStatus;
  w_children : list (list string)
}.

(** [loadExecutionState]: the snapshot, completed from the columns. *)
Definition loadExecutionState (e : Execution) : executionState :=
  let state := default zeroState (ex_StateSnapshot e) in
  let state := if CurrentStepID state =?? ""
               then state <| CurrentStepID := default "" (ex_CurrentStepID e) |> else state in
  if bool_decide (CompletedSteps state = [])
  then state <| CompletedSteps := ex_CompletedSteps e |> else state.

(** [saveExecutionState]: the copy in memory is updated before the row, whose
    write may fail; the row's empty step id is NULL. *)
Definition saveExecutionState (fault : option string) (state : executionState) (w : World) :
    option string * World :=
  let mem := mkExecution
    (if CurrentStepID state =?? "" then ex_CurrentStepID (w_execution w)
     else Some (CurrentStepID state))
    (CompletedSteps state) (Some state) in
  let w := w <| w_execution := mem |> in
  match fault with
  | Some err => (Some err, w)
  | None =>
      (None, w <| w_row := mkExecution
                (if CurrentStepID state =?? "" then None else Some (CurrentStepID state))
                (CompletedSteps state) (Some state) |>)
  end.

Definition saveCheckpoint (fault : option string) (nextStepID : string) (completed : list string)
    (state : executionState) (w : World) : option string * World :=
  saveExecutionState fault
    (state <| CurrentStepID := nextStepID |> <| CompletedSteps := completed |>) w.

(** ** Results, errors *)

(** An error of a step: its message and the two classes the loop asks for. *)
Record StepError : Type := mkStepError {
  se_message : string;
  se_terminalVerifier : bool;
  se_leadHandoff : bool
}.

Record agentStepResult : Type := mkStepResult {
  ar_Message : string;
  ar_DelegatedTasks : list string;
  ar_SelectedWorkflow : string
}.

(** The decoder of a step's result and the encoder of the synthesised route;
    a delegated task is given by its workflow. *)
Class ResultCodec : Type := {
  unmarshal_result : string -> option agentStepResult;
  marshal_route : string -> string
}.

Inductive EngineError : Type :=
| ErrStepNotFound (stepID : string)
| ErrTooManyIterations (max : Z)
| ErrTooManyVisits (stepID : string) (visits max : Z)
| ErrStep (err : StepError)
| ErrChildFailed (stepID : string)
| ErrRouteRetryFailed (err : StepError)
| ErrRouteUnparseable
| ErrRouteEmpty
| ErrDelegate (err : string)
| ErrGateEvaluation (stepID : string) (err : GateError)
| ErrGate (err : GateError)
| ErrNoTransition (stepID : string)
| ErrApprovalNoTransition (stepID : string)
| ErrSave (err : string)
| ErrNoHandler (stepID handler : string)
| ErrNotImplemented (type_ : string)
| ErrTerminalFailed (detail : string) (cause : option EngineError)
| ErrTerminalCancelled (lastStep : string)
| ErrTerminalUnsupported (status : string)
| ErrExecutionPaused.

(** What [executeWorkflowAttempt] returns. *)
Record Attempt : Type := mkAttempt {
  at_containerID : string;
  at_result : string;
  at_completed : list string;
  at_err : option EngineError
}.

(** The local variables of the loop. *)
Record Loop : Type := mkLoop {
  l_current : string;
  l_completed : list string;
  l_state : executionState;
  l_visits : gmap string Z;
  l_iterations : Z;
  l_containerID : string;
  l_result : string;
  l_message : string;
  l_err : option EngineError
}.

(** What the plan executor did in one visit of a plan step. *)
Record PlanReport : Type := mkPlanReport {
  pl_completed : list string;
  pl_plan : list string * Z;
  pl_checkpointed : bool;
  pl_outcome : result StepError (string * string)
}.

(** The answers of the outside during one iteration; an iteration reads those
    its step's type asks for. *)
Record Report : Type := mkReport {
  rp_shutdown : bool;
  rp_save : option string;
  rp_children : list TaskStatus;
  rp_resumeResult : string;
  rp_agent : result StepError (string * string);
  rp_recovery : option RecoveryContext;
  rp_retry : result StepError (string * string);
  rp_delegate : result string unit;
  rp_plan : PlanReport;
  rp_spawn : result StepError string;
  rp_call : result StepError (string * string);
  rp_a2a : result (StepError * option string) string;
  rp_handlers : list string;
  rp_system : option (result StepError string)
}.

(** The plan of an execution: its workflow, the adaptive candidates of its
    project, if it has one, and the counterfactual visit cap. *)
Record Plan : Type := mkPlan {
  pn_workflow : Workflow;
  pn_candidates : option (list string);
  pn_maxItersPerStep : Z
}.

Section Engine.
Context {JN : JsonNumbers} {JU : JsonUnmarshal} {RC : ResultCodec} (plan : Plan).

Definition workflow : Workflow := pn_workflow plan.

Definition isStrictRouteStep (stepID : string) : bool :=
  (wf_ID workflow =?? "adaptive") ||
  (wf_ResumeAfterChildren workflow && (stepID =?? wf_Entrypoint workflow)).

(** [resolveResumeGuard]: handled, and whether a child failed. *)
Definition resolveResumeGuard (stepID : string) (children : list TaskStatus) : bool * bool :=
  if negb (isStrictRouteStep stepID) || is_none (pn_candidates plan) then (false, false)
  else match children with
       | [] => (false, false)
       | _ => (true, existsb (fun s => s =?? TaskStatusFailed) children)
       end.

Definition maxVisits : Z :=
  let m := if (wf_MaxStepVisits workflow <=? 0)%Z then 3%Z else wf_MaxStepVisits workflow in
  if (0 <? pn_maxItersPerStep plan)%Z && (pn_maxItersPerStep plan <? m)%Z
  then pn_maxItersPerStep plan else m.

Definition maxIterations : Z :=
  if (wf_MaxIterations workflow <=? 0)%Z then 20%Z else wf_MaxIterations workflow.

(** [{"error":%q}]. *)
Definition error_json (msg : string) : string :=
  String.append "{" (Quote "error" ++ ":" ++ Quote msg ++ "}").

Definition lastStepOrUnknown (completed : list string) : string := default "unknown" (last completed).

(** [resolveTerminalOutcome], less the recovery event. *)
Definition resolveTerminalOutcome (terminal : WorkflowTerminal) (l : Loop) : Attempt :=
  if t_Status terminal =?? "COMPLETED" then
    mkAttempt (l_containerID l) (l_result l) (l_completed l) None
  else if t_Status terminal =?? "FAILED" then
    let msg := if t_Message terminal =?? "" then "workflow failed" else t_Message terminal in
    let reason := if Nat.ltb 500 (String.length (l_message l))
                  then String.substring 0 500 (l_message l) ++ "..." else l_message l in
    let detail := msg ++ " (last step: " ++ lastStepOrUnknown (l_completed l) ++
      (if l_message l =?? "" then "" else ", reason: " ++ reason) ++ ")" in
    mkAttempt "" "" (l_completed l) (Some (ErrTerminalFailed detail (l_err l)))
  else if t_Status terminal =?? "CANCELLED" then
    mkAttempt "" "" (l_completed l) (Some (ErrTerminalCancelled (lastStepOrUnknown (l_completed l))))
  else mkAttempt "" "" (l_completed l) (Some (ErrTerminalUnsupported (t_Status terminal))).

(** The start of an attempt: the loop's variables, and the first checkpoint. *)
Definition start_loop (e : Execution) : Loop :=
  let state := loadExecutionState e in
  let current := match ex_CurrentStepID e with
                 | Some s => if s =?? "" then wf_Entrypoint workflow else s
                 | None => wf_Entrypoint workflow
                 end in
  mkLoop current (ex_CompletedSteps e) state (VisitCounts state) (Iterations state) "" "" "" None.

Definition publish_start (fault : option string) (l : Loop) (w : World) : World :=
  if is_terminal workflow (l_current l) then w
  else (saveCheckpoint fault (l_current l) (l_completed l) (l_state l) w).2.

(** The outcome of one iteration: go on, or return. *)
Definition Outcome : Type := World * (Loop + Attempt).

Definition return_err (l : Loop) (err : EngineError) : Loop + Attempt :=
  inr (mkAttempt "" "" (l_completed l) (Some err)).

Definition visits (l : Loop) (stepID : string) : Z := default 0%Z (l_visits l !! stepID).

(** The head of an iteration: the terminal test, the step, the loop guards.
    [state.VisitCounts] is the map of the loop itself. *)
Definition enter (l : Loop) : (Loop * WorkflowStep) + Attempt :=
  match wf_Terminals workflow !! l_current l with
  | Some terminal => inr (resolveTerminalOutcome terminal l)
  | None =>
      match wf_Steps workflow !! l_current l with
      | None => inr (mkAttempt "" "" (l_completed l) (Some (ErrStepNotFound (l_current l))))
      | Some step =>
          let iterations := (l_iterations l + 1)%Z in
          if (maxIterations <? iterations)%Z then
            inr (mkAttempt "" "" (l_completed l) (Some (ErrTooManyIterations maxIterations)))
          else
            let v := (visits l (l_current l) + 1)%Z in
            let counts := <[l_current l := v]> (l_visits l) in
            if (maxVisits <? v)%Z then
              inr (mkAttempt "" "" (l_completed l) (Some (ErrTooManyVisits (l_current l) v maxVisits)))
            else
              inl (l <| l_iterations := iterations |> <| l_visits := counts |>
                     <| l_state := (l_state l) <| Iterations := iterations |> <| VisitCounts := counts |> |>,
                   step)
      end
  end.

Definition complete_step (l : Loop) : Loop :=
  l <| l_completed := (l_completed l ++ [l_current l])%list |>.

Definition set_state (f : executionState -> executionState) (l : Loop) : Loop :=
  l <| l_state := f (l_state l) |>.

(** Checkpoint at [next] and go there. *)
Definition advance (rp : Report) (next : string) (l : Loop) (w : World) : Outcome :=
  match saveCheckpoint (rp_save rp) next (l_completed l) (l_state l) w with
  | (Some err, w) => (w, return_err l (ErrSave err))
  | (None, w) => (w, inl (l <| l_current := next |>))
  end.

(** The failure of a step: to [on_fail] if there is one and the daemon is not
    shutting down.  [keep] tells whether the loop remembers the error. *)
Definition route_on_fail (rp : Report) (step : WorkflowStep) (err : EngineError)
    (msg lastResult : string) (keep : bool) (f : executionState -> executionState)
    (l : Loop) (w : World) : Outcome :=
  if OnFail step =?? "" then (w, return_err l err)
  else if rp_shutdown rp then (w, return_err l err)
  else
    let l := set_state (fun s => f (s <| LastResult := lastResult |>)) (complete_step l) in
    match saveCheckpoint (rp_save rp) (OnFail step) (l_completed l) (l_state l) w with
    | (Some err, w) => (w, return_err l (ErrSave err))
    | (None, w) =>
        (w, inl (if keep then l <| l_current := OnFail step |> <| l_message := msg |>
                                <| l_err := Some err |>
                 else l <| l_current := OnFail step |>))
    end.

(** *** Agent steps *)

(** [dispatchAgentStep]. *)
Definition dispatchAgentStep (rp : Report) (stepID : string) (handled : bool) :
    result StepError (string * string) :=
  if handled then Ok ("", rp_resumeResult rp)
  else match isStrictRouteStep stepID, pn_candidates plan with
       | true, Some [only] => Ok ("", marshal_route only)
       | _, _ => rp_agent rp
       end.

(** [pauseAwaitingChildren]: the error of its checkpoint, the loop, the world. *)
Definition pauseAwaitingChildren (rp : Report) (l : Loop) (w : World) :
    option string * Loop * World :=
  let w := w <| w_taskStatus := TaskStatusWaitingForChildren |>
             <| w_execStatus := ExecutionStatusPaused |> in
  let l := set_state (fun s => s <| PausedReason := PauseReasonAwaitingChildren |>) l in
  let '(err, w) := saveCheckpoint (rp_save rp) (l_current l) (l_completed l) (l_state l) w in
  (err, l, w).

(** [handleSelectedWorkflowRoute]; [None]: not a strict route with candidates. *)
Definition handleSelectedWorkflowRoute (rp : Report) (handled : bool) (r : agentStepResult)
    (l : Loop) (w : World) : option Outcome :=
  match pn_candidates plan with
  | None | Some [] => None
  | Some candidates =>
      if handled || negb (isStrictRouteStep (l_current l)) then None
      else
        let delegate (r : agentStepResult) (l : Loop) : Outcome :=
          match (if bool_decide (ar_SelectedWorkflow r ∈ candidates) then rp_delegate rp
                 else Err "selected workflow not in candidate list") with
          | Err err => (w, return_err l (ErrDelegate err))
          | Ok _ =>
              let w := w <| w_children := (w_children w ++ [[ar_SelectedWorkflow r]])%list |> in
              let l := complete_step l in
              match pauseAwaitingChildren rp l w with
              | (Some err, l, w) => (w, return_err l (ErrSave err))
              | (None, l, w) =>
                  (w, inr (mkAttempt (l_containerID l) (l_result l) (l_completed l)
                             (Some ErrExecutionPaused)))
              end
          end in
        if bool_decide (ar_SelectedWorkflow r ∈ candidates) && negb (ar_SelectedWorkflow r =?? "")
        then Some (delegate r l)
        else
          match rp_retry rp with
          | Err err => Some (w, return_err l (ErrRouteRetryFailed err))
          | Ok (cid, bytes) =>
              let l := l <| l_containerID := cid |> <| l_result := bytes |>
                         <| l_completed := (l_completed l ++ [(l_current l ++ "_route_retry")%string])%list |> in
              match unmarshal_result bytes with
              | None => Some (w, return_err l ErrRouteUnparseable)
              | Some r =>
                  if ar_SelectedWorkflow r =?? "" then Some (w, return_err l ErrRouteEmpty)
                  else Some (delegate r l)
              end
          end
  end.

(** [handleDelegatedTasks]; [None]: nothing was delegated. *)
Definition handleDelegatedTasks (rp : Report) (pinned : string) (r : agentStepResult)
    (l : Loop) (w : World) : option Outcome :=
  match ar_DelegatedTasks r with
  | [] => None
  | tasks =>
      let tasks := if pinned =?? "" then tasks
                   else map (fun t => if TrimSpace t =?? "" then pinned else t) tasks in
      match rp_delegate rp with
      | Err err => Some (w, return_err l (ErrDelegate err))
      | Ok _ =>
          let w := w <| w_children := (w_children w ++ [tasks])%list |> in
          match pauseAwaitingChildren rp l w with
          | (Some err, l, w) => Some (w, return_err l (ErrSave err))
          | (None, l, w) =>
              Some (w, inr (mkAttempt (l_containerID l) (l_result l) (l_completed l)
                              (Some ErrExecutionPaused)))
          end
      end
  end.

(** The transition after a successful agent step: the next step, or an error. *)
Definition agent_next (rp : Report) (step : WorkflowStep) (bytes : string) (l : Loop) :
    result EngineError (string * Loop) :=
  let! (next, l) :=
    (if (OnSuccess step =?? "") && negb (no_gates step) then
       match (evaluateGateStepTraced step bytes).1 with
       | Ok target => Ok (target, l)
       | Err err =>
           if OnFail step =?? "" then Err (ErrGateEvaluation (l_current l) err)
           else if rp_shutdown rp then Err (ErrGate err)
           else Ok (OnFail step, l <| l_message := GateError_message err |>
                                   <| l_err := Some (ErrGate err) |>)
       end
     else Ok (OnSuccess step, l)) in
  if next =?? "" then
    if OnFail step =?? "" then Err (ErrNoTransition (l_current l))
    else Ok (OnFail step,
             l <| l_message := "no gate condition matched and no on_success defined" |>)
  else Ok (next, l).

Definition clear_approval (s : executionState) : executionState :=
  s <| ApprovalPendingStep := "" |> <| ApprovalGrantedStep := "" |>.

(** After the agent returned its result. *)
Definition agent_done (rp : Report) (step : WorkflowStep) (handled : bool)
    (cid bytes : string) (l : Loop) (w : World) : Outcome :=
  let l := complete_step (l <| l_containerID := cid |> <| l_result := bytes |>) in
  let l := l <| l_message := "" |> <| l_err := None |> in
  let parsed := if bytes =?? "" then None else unmarshal_result bytes in
  let l := match parsed with
           | Some r => l <| l_message := stripReasoning (ar_Message r) |>
           | None => l
           end in
  let paused :=
    match parsed with
    | None => None
    | Some r =>
        match handleSelectedWorkflowRoute rp handled r l w with
        | Some out => Some out
        | None => handleDelegatedTasks rp (DelegatedWorkflow step) r l w
        end
    end in
  match paused with
  | Some out => out
  | None =>
      match agent_next rp step bytes l with
      | Err err => (w, return_err l err)
      | Ok (next, l) =>
          advance rp next (set_state (fun s => clear_approval
            (s <| LastResult := bytes |> <| StepResults := <[l_current l := bytes]> (StepResults s) |>)) l) w
      end
  end.

Definition agent_step_iteration (rp : Report) (step : WorkflowStep)
    (l : Loop) (w : World) : Outcome :=
  (* forwardPendingRecovery hands the context to the agent and clears it *)
  let l := set_state (fun s => s <| PendingRecovery := None |>) l in
  let '(handled, childFailed) := resolveResumeGuard (l_current l) (rp_children rp) in
  if handled && childFailed then
    let l := complete_step l in
    if OnFail step =?? "" then (w, return_err l (ErrChildFailed (l_current l)))
    else (w, inl (l <| l_current := OnFail step |>))
  else
    match dispatchAgentStep rp (l_current l) handled with
    | Err err =>
        if se_terminalVerifier err then (w, return_err l (ErrStep err))
        else route_on_fail rp step (ErrStep err) (se_message err) (error_json (se_message err)) true
               (fun s => match rp_recovery rp with
                         | Some rc => s <| PendingRecovery := Some rc |>
                         | None => s
                         end) l w
    | Ok (cid, bytes) => agent_done rp step handled cid bytes l w
    end.

(** *** The other step types *)

(** [runGateStep]: a failed match falls through to [on_success]. *)
Definition runGateStep (step : WorkflowStep) (state : executionState) : result EngineError string :=
  match (evaluateGateStepTraced step (LastResult state)).1 with
  | Ok next => Ok next
  | Err err =>
      match classifyGateEvalError err with
      | OutcomeDownstreamRejected =>
          if OnSuccess step =?? "" then
            if OnFail step =?? "" then Err (ErrGate err) else Ok (OnFail step)
          else Ok (OnSuccess step)
      | _ => if OnFail step =?? "" then Err (ErrGate err) else Ok (OnFail step)
      end
  end.

(** [runApprovalStep]. *)
Definition runApprovalStep (rp : Report) (step : WorkflowStep) (l : Loop) (w : World) :
    World * result EngineError (option string * Loop) :=
  if ApprovalGrantedStep (l_state l) =?? l_current l then
    if OnSuccess step =?? "" then (w, Err (ErrApprovalNoTransition (l_current l)))
    else (w, Ok (Some (OnSuccess step), set_state clear_approval l))
  else
    let l := set_state (fun s => s <| CurrentStepID := l_current l |>
      <| CompletedSteps := l_completed l |> <| ApprovalPendingStep := l_current l |>
      <| PausedReason := PauseReasonOperator |>) l in
    match saveExecutionState (rp_save rp) (l_state l) w with
    | (Some err, w) => (w, Err (ErrSave err))
    | (None, w) =>
        (w <| w_taskStatus := TaskStatusPending |> <| w_execStatus := ExecutionStatusPaused |>,
         Ok (None, l))
    end.

(** A plan step: the visit is not counted, and the plan executor, which clears
    the recovery context, may checkpoint on the way. *)
Definition plan_iteration (rp : Report) (step : WorkflowStep) (l : Loop) (w : World) : Outcome :=
  let counts := <[l_current l := (visits l (l_current l) - 1)%Z]> (l_visits l) in
  let l := set_state (fun s => s <| VisitCounts := counts |> <| PendingRecovery := None |>)
             (l <| l_visits := counts |>) in
  let pl := rp_plan rp in
  let l := set_state (fun s => s <| PlanSteps := (pl_plan pl).1 |> <| PlanIndex := (pl_plan pl).2 |>)
             (l <| l_completed := (l_completed l ++ pl_completed pl)%list |>) in
  let w := if pl_checkpointed pl
           then (saveCheckpoint None (l_current l) (l_completed l) (l_state l) w).2 else w in
  let reset s := s <| PlanSteps := [] |> <| PlanIndex := 0%Z |> in
  match pl_outcome pl with
  | Err err =>
      if se_leadHandoff err then (w, return_err l (ErrStep err))
      else route_on_fail rp step (ErrStep err) (se_message err) (error_json (se_message err)) true
             reset l w
  | Ok (cid, bytes) =>
      let l := complete_step (l <| l_containerID := cid |> <| l_result := bytes |>) in
      advance rp (OnSuccess step)
        (set_state (fun s => clear_approval (reset s <| LastResult := bytes |>)) l) w
  end.

Definition call_project_iteration (rp : Report) (step : WorkflowStep) (l : Loop) (w : World) :
    Outcome :=
  match rp_call rp with
  | Err err => route_on_fail rp step (ErrStep err) (se_message err) (error_json (se_message err))
                 true id l w
  | Ok (body, reason) =>
      let l := set_state (fun s => s <| LastResult := body |> <| PausedReason := reason |>)
                 (complete_step l) in
      match saveCheckpoint (rp_save rp) (OnSuccess step) (l_completed l) (l_state l) w with
      | (Some err, w) => (w, return_err l (ErrSave err))
      | (None, w) =>
          (w <| w_taskStatus := TaskStatusWaitingForChildren |>
             <| w_execStatus := ExecutionStatusPaused |>,
           return_err l ErrExecutionPaused)
      end
  end.

(** What is left of [spawn_project], [a2a_call] and [system] steps: the text of
    the result, or the error with the text recorded for it. *)
Definition simple_iteration (rp : Report) (step : WorkflowStep) (keep : bool)
    (out : result (EngineError * string * string) string) (l : Loop) (w : World) : Outcome :=
  match out with
  | Err (err, msg, body) => route_on_fail rp step err msg body keep id l w
  | Ok body =>
      advance rp (OnSuccess step)
        (set_state (fun s => s <| LastResult := body |>) (complete_step l)) w
  end.

Definition spawn_outcome (rp : Report) : result (EngineError * string * string) string :=
  match rp_spawn rp with
  | Ok body => Ok body
  | Err err => Err (ErrStep err, se_message err, error_json (se_message err))
  end.

Definition a2a_outcome (rp : Report) : result (EngineError * string * string) string :=
  match rp_a2a rp with
  | Ok body => Ok body
  | Err (err, body) =>
      Err (ErrStep err, se_message err, default (error_json (se_message err)) body)
  end.

Definition system_outcome (rp : Report) (stepID handler : string) :
    result (EngineError * string * string) string :=
  match rp_system rp with
  | None =>
      let msg := "system step " ++ stepID ++ ": no handler registered for " ++ Quote handler ++
                 " (registered: [" ++ Join (rp_handlers rp) " " ++ "])" in
      Err (ErrNoHandler stepID handler, msg, error_json msg)
  | Some (Err err) => Err (ErrStep err, se_message err, error_json (se_message err))
  | Some (Ok body) => Ok (if body =?? "" then "{}" else body)
  end.

(** ** The loop *)

(** The switch on the step's type. *)
Definition dispatch (rp : Report) (step : WorkflowStep) (l : Loop) (w : World) : Outcome :=
  let ty_is ty := Type_ step =?? ty in
  if ty_is "agent" then agent_step_iteration rp step l w
  else if ty_is "gate" then
    match runGateStep step (l_state l) with
    | Err err => (w, return_err l err)
    | Ok next => advance rp next (complete_step l) w
    end
  else if ty_is "approval" then
    match runApprovalStep rp step l w with
    | (w, Err err) => (w, return_err l err)
    | (w, Ok (None, l)) => (w, return_err l ErrExecutionPaused)
    | (w, Ok (Some next, l)) => advance rp next (complete_step l) w
    end
  else if ty_is "plan" then plan_iteration rp step l w
  else if ty_is "spawn_project" then simple_iteration rp step true (spawn_outcome rp) l w
  else if ty_is "call_project" then call_project_iteration rp step l w
  else if ty_is "a2a_call" then simple_iteration rp step true (a2a_outcome rp) l w
  else if ty_is "system" then
    simple_iteration rp step false (system_outcome rp (l_current l) (Handler step)) l w
  else (w, return_err l (ErrNotImplemented (Type_ step))).

(** The loop over the reports of the outside: the steps dispatched, and the
    result unless it needs more reports. *)
Fixpoint run_loop (reports : list Report) (l : Loop) (w : World) :
    list string * World * (Loop + Attempt) :=
  match enter l with
  | inr a => ([], w, inr a)
  | inl (l', step) =>
      match reports with
      | [] => ([], w, inl l)
      | rp :: reports =>
          match dispatch rp step l' w with
          | (w, inr a) => ([l_current l], w, inr a)
          | (w, inl l'') =>
              let '(trace, w, out) := run_loop reports l'' w in (l_current l :: trace, w, out)
          end
      end
  end.

(** [executeWorkflowAttempt] on an execution read from its row. *)
Definition executeWorkflowAttempt (start_fault : option string) (reports : list Report)
    (w : World) : list string * World * (Loop + Attempt) :=
  let l := start_loop (w_execution w) in
  run_loop reports l (publish_start start_fault l w).

End Engine.

(** [Resume]: the part that grants a pending approval. *)
Definition Resume (w : World) : option World :=
  if negb (w_execStatus w =?? ExecutionStatusPaused) then None
  else
    let w := w <| w_execution := w_row w |> in
    let state := loadExecutionState (w_execution w) in
    let run w := w <| w_execStatus := ExecutionStatusRunning |> <| w_taskStatus := TaskStatusRunning |> in
    if negb (ApprovalPendingStep state =?? "") then
      Some (run (saveExecutionState None
        (state <| ApprovalGrantedStep := ApprovalPendingStep state |>
               <| ApprovalPendingStep := "" |> <| PausedReason := "" |>) w).2)
    else if PausedReason state =?? PauseReasonOperator then
      Some (run (saveExecutionState None (state <| PausedReason := "" |>) w).2)
    else Some (run w).
