(* ===== verification/GatesFacts.v ===== *)
(** * What a gate step decides

    The first gate whose condition holds wins; what happens when none does
    depends on the text of the error. *)
From Stdlib Require Import Ascii.
From S2P Require Import Prelude GoStrings Workflow Gates Engine.
Open Scope string_scope.

Section Facts.
Context {JN : JsonNumbers} {JU : JsonUnmarshal}.

(** ** Conditions *)

(** [path == literal] holds of a payload. *)
Definition term_holds (payload : option object) (term : string) : Prop :=
  exists path literal value, cut "==" term = Some (path, literal) /\
    lookupJSONPath payload (TrimSpace path) = Some value /\
    DeepEqual value (parseGateValue (TrimSpace literal)) = true.

(** A condition is one term, or terms joined by [&&]. *)
Definition condition_holds (payload : option object) (condition : string) : Prop :=
  if contains condition "&&"
  then forall sub, sub ∈ split "&&" condition ->
         TrimSpace sub <> "" /\ term_holds payload (TrimSpace sub)
  else term_holds payload condition.

Lemma evaluateSingleCondition_true c payload :
  evaluateSingleCondition c payload = Ok true <-> term_holds payload c.
Proof.
  unfold evaluateSingleCondition, term_holds. destruct (cut "==" c) as [[l r]|] eqn:Ec.
  2: { split; [done|]. by intros (? & ? & ? & [=] & _). }
  destruct (lookupJSONPath payload (TrimSpace l)) as [v|] eqn:El.
  - split.
    + intros [= Hd]. by exists l, r, v.
    + intros (l' & r' & v' & [= <- <-] & Hl & Hd). congruence.
  - split; [done|]. intros (l' & r' & v' & [= <- <-] & Hl & Hd). congruence.
Qed.

Lemma evaluate_subterms_true c subs payload :
  evaluate_subterms c subs payload = Ok true <->
  forall sub, sub ∈ subs -> TrimSpace sub <> "" /\ term_holds payload (TrimSpace sub).
Proof.
  induction subs as [|sub subs IH]; simpl; [split; [set_solver|done]|].
  destruct (bool_decide_reflect (TrimSpace sub = "")) as [E|E].
  { split; [done|]. intros H. destruct (H sub); [left|done]. }
  rewrite res_bind_ok. setoid_rewrite elem_of_cons. split.
  - intros ([] & H1 & H2) s [->|Hs]; try done.
    + split; [done|]. by apply evaluateSingleCondition_true.
    + by apply IH.
  - intros H. exists true. split; [apply evaluateSingleCondition_true, H; auto|]. apply IH. auto.
Qed.

Lemma evaluateGateCondition_true c payload :
  evaluateGateCondition c payload = Ok true <-> condition_holds payload c.
Proof.
  unfold evaluateGateCondition, condition_holds. destruct (contains c "&&").
  - apply evaluate_subterms_true.
  - apply evaluateSingleCondition_true.
Qed.

(** ** Gates *)

(** The condition of a gate was evaluated, without an error, to false. *)
Definition gate_fails (payload : option object) (g : WorkflowGate) : Prop :=
  evaluateGateCondition (Condition g) payload = Ok false.

Lemma evaluate_gates_some gates payload t :
  (evaluate_gates gates payload).1 = Ok (Some t) <->
  exists before g after, gates = (before ++ g :: after)%list /\ Target g = t /\
    condition_holds payload (Condition g) /\ Forall (gate_fails payload) before.
Proof.
  induction gates as [|g gates IH]; simpl.
  { split; [done|]. by intros ([|] & g & after & [=] & _). }
  destruct (evaluateGateCondition (Condition g) payload) as [[]|e] eqn:Eg.
  - simpl. split.
    + intros [= <-]. exists [], g, gates. split_and!; [done|done| |constructor].
      by apply evaluateGateCondition_true.
    + intros ([|h before] & g' & after & [= <- ->] & Ht & _ & HF); [congruence|].
      apply Forall_inv in HF. unfold gate_fails in HF. congruence.
  - destruct (evaluate_gates gates payload) as [r trace]. simpl in *. rewrite IH. split.
    + intros (before & g' & after & -> & Ht & Hc & HF).
      exists (g :: before), g', after. split_and!; try done. by constructor.
    + intros ([|h before] & g' & after & [= <- ->] & Ht & Hc & HF).
      * apply evaluateGateCondition_true in Hc. congruence.
      * exists before, g', after. split_and!; try done. by apply Forall_inv_tail in HF.
  - simpl. split; [done|]. intros ([|h before] & g' & after & [= <- ->] & Ht & Hc & HF).
    + apply evaluateGateCondition_true in Hc. congruence.
    + apply Forall_inv in HF. unfold gate_fails in HF. congruence.
Qed.

Lemma evaluate_gates_none gates payload :
  Forall (gate_fails payload) gates -> (evaluate_gates gates payload).1 = Ok None.
Proof.
  induction 1 as [|g gates Hg _ IH]; [done|]. simpl. rewrite Hg.
  by destruct (evaluate_gates gates payload).
Qed.

(** The payload the gates of a step read. *)
Definition gate_payload (lastResult : string) : result string (option object) :=
  if lastResult =?? "" then Ok None
  else let! obj := normalizedResultPayload lastResult in Ok (Some obj).

(** The first gate that holds decides.  A gate step yields the target [t] if
    and only if the last result has a JSON payload, [t] is the target of one of
    its gates, that gate's condition holds of the payload (each of its
    [&&]-terms names a value equal to its literal), and the conditions of all
    gates before it were evaluated to false; so neither a later gate nor an
    erroneous later condition matters. *)
Theorem gate_first_match step res t :
  (evaluateGateStepTraced step res).1 = Ok t <->
  exists payload, gate_payload res = Ok payload /\ exists before g after,
    Gates step = (before ++ g :: after)%list /\ Target g = t /\
    condition_holds payload (Condition g) /\ Forall (gate_fails payload) before.
Proof.
  unfold evaluateGateStepTraced. fold (gate_payload res).
  destruct (Gates step) as [|g0 gs] eqn:Eg.
  { split; [done|]. by intros (p & _ & [|] & g & a & [=] & _). }
  destruct (gate_payload res) as [payload|e]; [|split; [done|by intros (p & [=] & _)]].
  pose proof (evaluate_gates_some (g0 :: gs) payload t) as Hs.
  transitivity ((evaluate_gates (g0 :: gs) payload).1 = Ok (Some t)).
  { destruct (evaluate_gates (g0 :: gs) payload) as [[[t'|]|e] tr]; simpl; split; congruence. }
  rewrite Hs. split; [by exists payload|]. by intros (p & [= ->] & H).
Qed.

(** ** When no gate matches *)

Definition parse_phrase : string := "failed to parse gate input as JSON".

Lemma classify_no_match conditions preview :
  classifyGateEvalError (NoGateMatched conditions preview) =
  if contains (GateError_message (NoGateMatched conditions preview)) parse_phrase
  then OutcomeParseError else OutcomeDownstreamRejected.
Proof.
  unfold classifyGateEvalError, parse_phrase. destruct (contains _ _); [done|].
  assert (H : contains (GateError_message (NoGateMatched conditions preview))
                "no gate condition matched" = true); [|by rewrite H].
  apply (contains_here "no gate condition matched" (" (expected one of: [" ++ _)).
Qed.

Lemma preview_in_message conditions preview :
  contains preview parse_phrase = true ->
  contains (GateError_message (NoGateMatched conditions preview)) parse_phrase = true.
Proof.
  intros H. unfold GateError_message. do 3 apply contains_app. by apply contains_app_r.
Qed.

(** Whether a gate step falls through to [on_success] depends on what the agent
    wrote.  When every gate of a step with both transitions is evaluated to
    false, the step continues at [on_success], unless the text of the error,
    which quotes the start of the agent's result, contains the words of the
    other error message: then it goes to [on_fail], as if the result had not
    been JSON. *)
Theorem gate_default_follows_text step state payload :
  Gates step <> [] -> gate_payload (LastResult state) = Ok payload ->
  Forall (gate_fails payload) (Gates step) -> OnSuccess step <> "" -> OnFail step <> "" ->
  (contains (GateError_message (NoGateMatched (map Condition (Gates step))
     (previewJSON (LastResult state)))) parse_phrase = false ->
   runGateStep step state = Ok (OnSuccess step)) /\
  (contains (previewJSON (LastResult state)) parse_phrase = true ->
   runGateStep step state = Ok (OnFail step)).
Proof.
  intros Hg Hp Hf Hs Hfail.
  assert (E : (evaluateGateStepTraced step (LastResult state)).1 =
    Err (NoGateMatched (map Condition (Gates step)) (previewJSON (LastResult state)))).
  { unfold evaluateGateStepTraced. fold (gate_payload (LastResult state)). rewrite Hp.
    destruct (Gates step) as [|g gs]; [done|]. pose proof (evaluate_gates_none _ _ Hf) as Hn.
    destruct (evaluate_gates (g :: gs) payload) as [r tr]. simpl in Hn. by subst. }
  unfold runGateStep. rewrite E, classify_no_match.
  rewrite !bool_decide_false by done. split.
  - by intros ->.
  - intros H. by rewrite preview_in_message.
Qed.

End Facts.

(** ** Example: a decoder of three texts

    [yes] and [no] stand for the objects of a review that approves or rejects,
    [complaint] for one that quotes the parser's error. *)

Definition example_numbers : JsonNumbers := {| num := Z |}.
#[local] Existing Instance example_numbers.

Definition review (approved : bool) : object :=
  {["review" := JObj {["approved" := JBool approved]}]}.

Definition complaint : string := "failed to parse gate input as JSON, says the log".

Definition example_unmarshal : JsonUnmarshal := {|
  unmarshal_object s :=
    if s =?? "yes" then Ok (review true)
    else if (s =?? "no") || (s =?? complaint) then Ok (review false)
    else Err "invalid character";
  unmarshal_number _ := None |}.
#[local] Existing Instance example_unmarshal.

Definition ship_gate : WorkflowStep :=
  mkStep "gate" "" "rework" "failed" [mkGate "review.approved == true" "ship"] "" "" "" "" "" "".

Lemma ship_gate_fails s :
  s = "no" \/ s = complaint ->
  gate_payload s = Ok (Some (review false)) /\
  Forall (gate_fails (Some (review false))) (Gates ship_gate).
Proof.
  assert (H : evaluateGateCondition "review.approved == true" (Some (review false)) = Ok false)
    by (vm_compute; reflexivity).
  intros Hs. split; [|by repeat constructor]. destruct Hs as [-> | ->]; vm_compute; reflexivity.
Qed.

Example gate_default_follows_text_witness :
  runGateStep ship_gate (zeroState <| LastResult := "no" |>) = Ok "rework" /\
  runGateStep ship_gate (zeroState <| LastResult := complaint |>) = Ok "failed".
Proof.
  destruct (ship_gate_fails "no" (or_introl eq_refl)) as [P1 F1].
  destruct (ship_gate_fails complaint (or_intror eq_refl)) as [P2 F2]. split.
  - apply (gate_default_follows_text ship_gate (zeroState <| LastResult := "no" |>) _
      ltac:(discriminate) P1 F1 ltac:(discriminate) ltac:(discriminate)). reflexivity.
  - apply (gate_default_follows_text ship_gate (zeroState <| LastResult := complaint |>) _
      ltac:(discriminate) P2 F2 ltac:(discriminate) ltac:(discriminate)). reflexivity.
Defined.
