(* ===== verification/Delegation.v ===== *)
(** * Delegation: parents and their children

    How the executor creates child tasks ([createDelegatedTasks] and its guards
    in [src/internal/executor/plan.go]), parks the parent and wakes it when the
    children are done ([pauseAwaitingChildren], [handleSuccess],
    [handleFailure], [handleCancelled] and [unblockParentIfChildrenDone] of
    [workflow.go]).  These run concurrently, one goroutine per task, so each is
    a program counter whose steps are the single statements on the task table;
    [family_step] interleaves them.  Of the final handlers the calls on the task
    repository are kept: notifications, metrics and budget settlement are not. *)
From Stdlib Require Import Ascii.
From S2P Require Import Prelude GoStrings TaskModel TaskRepo Gates.
Open Scope Z_scope.

(** ** Creating children *)

Definition defaultDelegationDepthLimit : Z := 5.
Definition defaultDelegationFanOutLimit : Z := 20.

(** The configured limits; zero or less means the default. *)
Record DelegationConfig : Type := mkDelegationConfig {
  DelegationDepthLimit : Z;
  DelegationFanOutLimit : Z
}.

Definition delegationDepthLimit (c : DelegationConfig) : Z :=
  if 0 <? DelegationDepthLimit c then DelegationDepthLimit c else defaultDelegationDepthLimit.

Definition delegationFanOutLimit (c : DelegationConfig) : Z :=
  if 0 <? DelegationFanOutLimit c then DelegationFanOutLimit c else defaultDelegationFanOutLimit.

Definition parseDelegationMode (s : string) : DelegationMode :=
  let s := ToUpper (TrimSpace s) in
  if s =?? "SEQUENTIAL"%string then DelegationModeSequential
  else if s =?? "FAN_OUT"%string then DelegationModeFanOut
  else DelegationModeParallel.

Record delegatedTaskSpec : Type := mkSpec {
  ds_Prompt : string;
  ds_Priority : Z;
  ds_Workflow : string
}.

Inductive DelegationError : Type :=
| GuardFanOut (total limit : Z)
| GuardCycle (ancestor : string)
| GuardDepth (depth limit : Z)
| DelegationRepo (err : RepoError).

(** The bound on the hops of a lineage walk. *)
Definition walk_guard (limit : Z) : nat := Z.to_nat (limit * 2 + 2).

(** The loop of [ancestorIDs]. *)
Fixpoint lineage_walk (guard : nat) (tbl : Table) (cursor : Task) (seen : gset string) :
    result DelegationError (gset string) :=
  match ParentTaskID cursor, guard with
  | None, _ | _, O => Ok seen
  | Some pid, S guard =>
      if bool_decide (pid ∈ seen) then Err (GuardCycle pid)
      else match Get pid tbl with
           | Err e => Err (DelegationRepo e)
           | Ok anc => lineage_walk guard tbl anc ({[pid]} ∪ seen)
           end
  end.

Definition ancestorIDs (c : DelegationConfig) (parent : Task) (tbl : Table) :
    result DelegationError (gset string) :=
  lineage_walk (walk_guard (delegationDepthLimit c)) tbl parent {[ID parent]}.

Definition delegated (t : Task) : bool := CreationSource t =?? TaskCreationSourceDelegation.

(** The loop of [countDelegationDepth]. *)
Fixpoint depth_walk (guard : nat) (tbl : Table) (cursor : Task) (depth : Z) : result RepoError Z :=
  match ParentTaskID cursor, guard with
  | None, _ | _, O => Ok depth
  | Some pid, S guard =>
      let! anc := Get pid tbl in
      depth_walk guard tbl anc (if delegated anc then depth + 1 else depth)
  end.

Definition countDelegationDepth (c : DelegationConfig) (parent : Task) (tbl : Table) :
    result RepoError Z :=
  depth_walk (walk_guard (delegationDepthLimit c)) tbl parent (if delegated parent then 1 else 0).

Definition maxRouteDepth : Z := 3.

(** [countRouteDepth]; an error counts as no depth at its only caller. *)
Fixpoint route_walk (guard : nat) (tbl : Table) (cursor : Task) (depth : Z) : Z :=
  match ParentTaskID cursor, guard with
  | None, _ | _, O => depth
  | Some pid, S guard =>
      match Get pid tbl with
      | Err _ => 0
      | Ok parent =>
          if CreationSource parent =?? TaskCreationSourceRoute
          then route_walk guard tbl parent (depth + 1) else depth
      end
  end.

Definition countRouteDepth (t : Task) (tbl : Table) : Z :=
  route_walk (Z.to_nat (maxRouteDepth * 2 + 1)) tbl t 0.

Section WithServer.
Context `{pg : Postgres}.

(** A requested child with what the call draws from outside: the fresh id, the
    clock, read twice, and whether the database fails. *)
Record ChildRequest : Type := mkRequest {
  rq_spec : delegatedTaskSpec;
  rq_id : string;
  rq_now : time;
  rq_updated : time;
  rq_fault : option RepoError
}.

(** [marshal] encodes the prompt of a child as its payload. *)
Context (marshal : string -> string).

Definition child_task (parent : Task) (mode : DelegationMode) (prevChildID : string)
    (rq : ChildRequest) : Task :=
  let spec := rq_spec rq in
  (zeroTask (rq_id rq)) <| ProjectID := ProjectID parent |>
    <| WorkflowID := nullif_empty (TrimSpace (ds_Workflow spec)) |>
    <| ParentTaskID := Some (ID parent) |>
    <| CreationSource := TaskCreationSourceDelegation |>
    <| DelegationModeOf := Some mode |> <| Status := TaskStatusQueued |>
    <| Priority := if ds_Priority spec <=? 0 then Priority parent else ds_Priority spec |>
    <| Payload := Some (marshal (ds_Prompt spec)) |>
    <| Attempt := 1 |> <| MaxAttempts := 3 |>
    <| CreatedAt := rq_now rq |> <| UpdatedAt := rq_updated rq |>
    <| Dependencies := if (mode =?? DelegationModeSequential) && negb (prevChildID =?? ""%string)
                       then [prevChildID] else [] |>.

Definition create_child (t : Task) (rq : ChildRequest) (tbl : Table) : result RepoError Table :=
  match rq_fault rq with
  | Some e => Err e
  | None => let! r := Create (rq_updated rq) (Some t) tbl in Ok r.2
  end.

(** The roll-back: errors of [Delete] are only logged. *)
Definition delete_children (created : list string) (tbl : Table) : Table :=
  foldl (fun tbl id => match Delete id tbl with Ok tbl' => tbl' | Err _ => tbl end) tbl created.

(** The loop over the specs; on an error the children created so far are
    deleted. *)
Fixpoint create_children (parent : Task) (mode : DelegationMode) (requests : list ChildRequest)
    (created : list string) (prevChildID : string) (tbl : Table) : result RepoError unit * Table :=
  match requests with
  | [] => (Ok (), tbl)
  | rq :: requests =>
      match create_child (child_task parent mode prevChildID rq) rq tbl with
      | Err e => (Err e, delete_children created tbl)
      | Ok tbl => create_children parent mode requests (created ++ [rq_id rq]) (rq_id rq) tbl
      end
  end.

(** An empty mode means PARALLEL. *)
Definition childMode (mode : DelegationMode) : DelegationMode :=
  if mode =?? DelegationModeOther "" then DelegationModeParallel else mode.

Definition createDelegatedTasks (c : DelegationConfig) (parent : Task) (mode : DelegationMode)
    (requests : list ChildRequest) (tbl : Table) : result DelegationError unit * Table :=
  let fanOutLimit := delegationFanOutLimit c in
  let total := Z.of_nat (length (GetChildren (ID parent) tbl) + length requests) in
  if fanOutLimit <? total then (Err (GuardFanOut total fanOutLimit), tbl)
  else match ancestorIDs c parent tbl with
  | Err e => (Err e, tbl)
  | Ok _ =>
      match countDelegationDepth c parent tbl with
      | Err e => (Err (DelegationRepo e), tbl)
      | Ok depth =>
          if delegationDepthLimit c <=? depth
          then (Err (GuardDepth depth (delegationDepthLimit c)), tbl)
          else
            let '(r, tbl) := create_children parent (childMode mode) requests [] "" tbl in
            (match r with Ok _ => Ok () | Err e => Err (DelegationRepo e) end, tbl)
      end
  end.

(** ** Waking the parent *)

(** The statuses of a child that is done. *)
Definition child_done (s : TaskStatus) : bool :=
  bool_decide (s ∈ [TaskStatusCompleted; TaskStatusFailed; TaskStatusCancelled; TaskStatusClosed]).

Definition child_failed (t : Task) : bool := Status t =?? TaskStatusFailed.

Definition failed_message (children : list Task) : string :=
  "child task(s) failed: [" ++
  Join (map ID (filter (fun t => child_failed t = true) children)) " " ++ "]".

(** The transition the waker asks for. *)
Definition wake_target (parent : Task) (children : list Task) : TaskStatus * TransitionOpts :=
  if existsb child_failed children then
    let stamped := noTransitionOpts <| opt_LastError := Some (failed_message children) |>
                     <| opt_LastErrorClass := Some TaskFailureClassChildFailed |> in
    if (0 <? MaxAttempts parent) && (Attempt parent <? MaxAttempts parent)
    then (TaskStatusQueued, stamped <| opt_Attempt := Attempt parent + 1 |>)
    else (TaskStatusFailed, stamped)
  else (TaskStatusQueued, noTransitionOpts).

Definition wake (now : time) (parent : Task) (children : list Task) (tbl : Table) :
    result RepoError (bool * Table) :=
  let '(to, opts) := wake_target parent children in
  TransitionConditional now (ID parent) [TaskStatusWaitingForChildren] to opts tbl.

(** [unblockParentIfChildrenDone], statement by statement. *)
Inductive Unblock : Type :=
| UbGet (parentID : string)
| UbChildren (parent : Task)
| UbWake (parent : Task) (children : list Task)
| UbDone.

(** One statement; [fault]: the database call fails, which the code takes for
    nothing to do. *)
Definition unblock_step (now : time) (fault : bool) (u : Unblock) (tbl : Table) : Unblock * Table :=
  match u with
  | UbDone => (UbDone, tbl)
  | UbGet pid =>
      match (if fault then Err ErrNotFound else Get pid tbl) with
      | Err _ => (UbDone, tbl)
      | Ok parent =>
          (if Status parent =?? TaskStatusWaitingForChildren then UbChildren parent else UbDone, tbl)
      end
  | UbChildren parent =>
      let children := GetChildren (ID parent) tbl in
      (if fault || bool_decide (children = []) then UbDone
       else if forallb (fun t => child_done (Status t)) children then UbWake parent children
       else UbDone, tbl)
  | UbWake parent children =>
      (UbDone, if fault then tbl
               else match wake now parent children tbl with Ok r => r.2 | Err _ => tbl end)
  end.

(** The call without interference. *)
Definition unblockParentIfChildrenDone (now : time) (parentID : string) (tbl : Table) : Table :=
  let '(u, tbl) := unblock_step now false (UbGet parentID) tbl in
  let '(u, tbl) := unblock_step now false u tbl in
  (unblock_step now false u tbl).2.

(** ** The final handlers *)

Definition taskWillRetry (t : Task) : bool :=
  if MaxAttempts t <=? 0 then false else Attempt t <? MaxAttempts t.

(** How an execution ended; a failure has its message and class. *)
Inductive Ending : Type :=
| EndSuccess
| EndFailure (errorMsg errorClass : string)
| EndCancelled.

(** The struct [handleFailure] writes back. *)
Definition failed_task (errorMsg errorClass : string) (t : Task) : Task :=
  t <| LastError := Some errorMsg |>
    <| LastErrorClass := if errorClass =?? ""%string then LastErrorClass t else Some errorClass |>
    <| Status := if taskWillRetry t then Status t else TaskStatusFailed |>.

Definition write_ending (now : time) (e : Ending) (task : Task) (tbl : Table) :
    result RepoError Table :=
  match e with
  | EndSuccess => UpdateStatus now (ID task) TaskStatusCompleted tbl
  | EndCancelled => UpdateStatus now (ID task) TaskStatusCancelled tbl
  | EndFailure msg cls =>
      let! r := Update now (Some (failed_task msg cls task)) tbl in Ok r.2
  end.

#[export] Instance Ending_eq_dec : EqDecision Ending.
Proof. solve_decision. Defined.
#[export] Instance Unblock_eq_dec : EqDecision Unblock.
Proof. solve_decision. Defined.

(** [checkParentUnblock]. *)
Definition checkParentUnblock (task : Task) : Unblock :=
  match ParentTaskID task with
  | None => UbDone
  | Some p => if p =?? ""%string then UbDone else UbGet p
  end.

(** ** Goroutines

    [PcGuard]: before the handler's check for an operator's pause ([task] is the
    struct in memory); [PcWrite]: before its status write; [PcFlip], [PcSaved]:
    the parent's [pauseAwaitingChildren] before its status write and before its
    checkpoint; [PcReload], [PcRelease]: the scheduler's release of a paused
    dispatch, before it reads the status and before it writes it back. *)
Inductive PC : Type :=
| PcGuard (e : Ending) (task : Task)
| PcWrite (e : Ending) (task : Task)
| PcFlip (parentID : string)
| PcSaved (parentID : string)
| PcUnblock (u : Unblock)
| PcReload (taskID leaseID : string)
| PcRelease (taskID leaseID : string) (status : TaskStatus).

#[export] Instance PC_eq_dec : EqDecision PC.
Proof. solve_decision. Defined.

Definition PcDone : PC := PcUnblock UbDone.

(** A final handler at its start: a cancellation has no guard. *)
Definition finalize (e : Ending) (task : Task) : PC :=
  match e with EndCancelled => PcWrite e task | _ => PcGuard e task end.

Definition or_else (tbl : Table) (r : result RepoError Table) : Table :=
  match r with Ok tbl' => tbl' | Err _ => tbl end.

(** The next statement of a goroutine.  The handlers ignore the errors of their
    writes; a failed checkpoint ends the parent's pause. *)
Definition proc_step (now : time) (fault : bool) (pc : PC) (tbl : Table) : PC * Table :=
  match pc with
  | PcGuard e task =>
      (match (if fault then Err ErrNotFound else Get (ID task) tbl) with
       | Ok fresh => if Status fresh =?? TaskStatusPaused then PcDone else PcWrite e task
       | Err _ => PcWrite e task
       end, tbl)
  | PcWrite e task =>
      (PcUnblock (checkParentUnblock task),
       if fault then tbl else or_else tbl (write_ending now e task tbl))
  | PcFlip pid =>
      (PcSaved pid,
       if fault then tbl else or_else tbl (UpdateStatus now pid TaskStatusWaitingForChildren tbl))
  | PcSaved pid => (if fault then PcDone else PcUnblock (UbGet pid), tbl)
  | PcUnblock u => let '(u, tbl) := unblock_step now fault u tbl in (PcUnblock u, tbl)
  | PcReload id lease =>
      match (if fault then Err ErrNotFound else Get id tbl) with
      | Ok current =>
          (PcRelease id lease
             (if (Status current =?? TaskStatusLeased) || (Status current =?? TaskStatusRunning)
              then TaskStatusPending else Status current), tbl)
      | Err _ => (PcDone, tbl)
      end
  | PcRelease id lease status =>
      (PcDone, if fault then tbl
               else or_else tbl (ReleaseLease now id lease status (mkReleaseOptions 0 0 "" "") tbl))
  end.

(** The goroutines of a family and the task table; a schedule picks the
    goroutine that makes the next step, the clock and a fault. *)
Abbreviation Family := (list PC * Table)%type.

Record Turn : Type := mkTurn {
  tn_proc : nat;
  tn_now : time;
  tn_fault : bool
}.

Definition family_step (s : Family) (e : Turn) : Family :=
  match s.1 !! tn_proc e with
  | None => s
  | Some pc =>
      let '(pc, tbl) := proc_step (tn_now e) (tn_fault e) pc s.2 in
      (<[tn_proc e := pc]> s.1, tbl)
  end.

Definition run_family (schedule : list Turn) (s : Family) : Family := foldl family_step s schedule.

End WithServer.
