(* ===== verification/DelegationFacts.v ===== *)
(** * Delegation: creation and guards

    Creating children is all or nothing and bounded, and what the lineage guards
    see. *)
From S2P Require Import Prelude GoStrings TaskModel TaskRepo TaskRepoFacts TaskRepoSafety Gates Delegation.
From stdpp Require Import pretty.
Open Scope list_scope.
Open Scope Z_scope.

Section Facts.
Context `{pg : Postgres} (marshal : string -> string).

(** ** Creation is all or nothing *)

(** The rows of the children, in the order of the requests. *)
Definition child_row (parent : Task) (mode : DelegationMode) (prev : string) (rq : ChildRequest) :
    Task :=
  inserted_row (create_defaults (rq_updated rq) (child_task marshal parent mode prev rq)).

Fixpoint child_rows (parent : Task) (mode : DelegationMode) (prev : string)
    (requests : list ChildRequest) : list Task :=
  match requests with
  | [] => []
  | rq :: rest => child_row parent mode prev rq :: child_rows parent mode (rq_id rq) rest
  end.

Lemma child_rows_ids parent mode prev requests :
  map ID (child_rows parent mode prev requests) = map rq_id requests.
Proof. revert prev. induction requests as [|rq l IH]; intros prev; [done|]. simpl. by rewrite IH. Qed.

Lemma create_child_ok parent mode prev rq tbl tbl' :
  table_ok tbl -> create_child (child_task marshal parent mode prev rq) rq tbl = Ok tbl' ->
  tbl' = tbl ++ [child_row parent mode prev rq] /\ table_ok tbl' /\ rq_id rq ∉ map ID tbl.
Proof.
  intros Hok. unfold create_child. destruct (rq_fault rq); [done|]. unfold Create, with_binds.
  destruct (bind_errors _); [done|].
  pose proof (exec_insert_cases (child_row parent mode prev rq) tbl Hok) as H.
  fold (child_row parent mode prev rq). destruct (exec_insert _ _) as [t|e]; [|done].
  destruct H as (-> & Hok' & Hid & _). simpl. intros [= <-]. split; [done|]. split; [done|].
  by apply row_None in Hid.
Qed.

Lemma filter_all {A} (p : A -> bool) (l : list A) :
  (forall x, x ∈ l -> p x = true) -> filter (fun x => p x = true) l = l.
Proof.
  induction l as [|x l IH]; intros H; [done|]. rewrite filter_cons_True by (apply H; left).
  f_equal. apply IH. intros y Hy. apply H. by right.
Qed.

Lemma delete_last (created : list string) tbl rows :
  (forall t, t ∈ tbl -> ID t ∉ created) ->
  (forall t p, t ∈ tbl -> ParentTaskID t = Some p -> p ∉ created) ->
  (forall t, t ∈ rows -> ID t ∈ created) ->
  delete_children created (tbl ++ rows) = tbl.
Proof.
  revert rows. induction created as [|id created IH]; intros rows H1 H2 H3; simpl.
  { destruct rows as [|t rows]; [apply app_nil_r|]. destruct (not_elem_of_nil (ID t)). apply H3. left. }
  set (del := fun l => update_rows (fun t => ParentTaskID t =?? Some id)
    (fun t => t <| ParentTaskID := None |>) (filter (fun t => negb (ID t =?? id) = true) l)).
  assert (E : del (tbl ++ rows) = tbl ++ del rows).
  { unfold del, update_rows. rewrite filter_app, map_app. f_equal. rewrite (filter_all (fun t => negb (ID t =?? id))).
    - rewrite <- (map_id tbl) at 2. apply map_ext_in. intros t Ht%list_elem_of_In.
      rewrite bool_decide_false; [done|]. intros Hp. apply (H2 t id Ht Hp). left.
    - intros t Ht. rewrite bool_decide_false; [done|]. intros <-. apply (H1 t Ht). left. }
  change (delete_children created (del (tbl ++ rows)) = tbl). rewrite E. apply IH.
  - intros t Ht Hin. apply (H1 t Ht). by right.
  - intros t p Ht Hp Hin. apply (H2 t p Ht Hp). by right.
  - intros t (x & Hx & ->)%elem_of_update_rows. apply list_elem_of_filter in Hx as [Hd Hx].
    specialize (H3 x Hx). apply negb_true_iff, bool_decide_eq_false in Hd.
    apply elem_of_cons in H3 as [E'|H3]; [done|]. by case_bool_decide.
Qed.

Lemma create_children_cases parent mode requests created prev tbl0 rows :
  table_ok tbl0 -> table_ok (tbl0 ++ rows) -> map ID rows = created ->
  match create_children marshal parent mode requests created prev (tbl0 ++ rows) with
  | (Ok _, tbl') => table_ok tbl' /\
      tbl' = (tbl0 ++ rows) ++ child_rows parent mode prev requests
  | (Err _, tbl') => tbl' = tbl0
  end.
Proof.
  intros Hok0. revert created prev rows. induction requests as [|rq requests IH];
    intros created prev rows Hok Hc; simpl; [by rewrite app_nil_r|].
  destruct (create_child _ rq _) as [tbl'|e] eqn:Ec.
  - apply create_child_ok in Ec as (-> & Hok' & _); [|done].
    rewrite <- app_assoc in Hok'. rewrite <- (app_assoc tbl0 rows).
    specialize (IH (created ++ [rq_id rq]) (rq_id rq) (rows ++ [child_row parent mode prev rq]) Hok').
    rewrite map_app, Hc in IH. specialize (IH eq_refl).
    destruct (create_children _ _ _ _ _ _ _) as [[]]; [|done].
    destruct IH as [H1 H2]. split; [done|]. rewrite H2. by rewrite <- !app_assoc.
  - apply delete_last.
    + intros t Ht Hin. rewrite <- Hc in Hin. pose proof (ok_ids _ Hok) as Hnd.
      rewrite map_app in Hnd. apply NoDup_app in Hnd as (_ & Hnd & _).
      apply (Hnd (ID t)); [by apply list_elem_of_fmap_2|done].
    + intros t p Ht Hp Hin. rewrite <- Hc in Hin. pose proof (ok_parents _ Hok0 t Ht) as Hpar.
      unfold parent_exists in Hpar. rewrite Hp in Hpar. apply bool_decide_eq_true in Hpar.
      pose proof (ok_ids _ Hok) as Hnd. rewrite map_app in Hnd. apply NoDup_app in Hnd as (_ & Hnd & _).
      by apply (Hnd p).
    + intros t Ht. rewrite <- Hc. by apply list_elem_of_fmap_2.
Qed.

Lemma GetChildren_length pid tbl :
  length (GetChildren pid tbl) = count_if (fun t => ParentTaskID t =?? Some pid) tbl.
Proof.
  unfold GetChildren, by_creation. rewrite length_map, (Permutation_length (order_by_perm _ _)).
  unfold select_rows, count_if. done.
Qed.

Lemma child_rows_parent parent mode prev requests t :
  t ∈ child_rows parent mode prev requests -> ParentTaskID t = Some (ID parent).
Proof.
  revert prev. induction requests as [|rq l IH]; intros prev; simpl; [by intros ?%elem_of_nil|].
  intros [->|Ht]%elem_of_cons; [done|by eapply IH].
Qed.

Lemma createDelegatedTasks_cases c parent mode requests tbl :
  table_ok tbl ->
  match createDelegatedTasks marshal c parent mode requests tbl with
  | (Err _, tbl') => tbl' = tbl
  | (Ok _, tbl') => tbl' = tbl ++ child_rows parent (childMode mode) "" requests /\ table_ok tbl'
  end.
Proof.
  intros Hok. unfold createDelegatedTasks. cbv zeta. destruct (_ <? _); [done|].
  destruct (ancestorIDs c parent tbl); [|done]. destruct (countDelegationDepth c parent tbl); [|done].
  destruct (_ <=? _); [done|].
  pose proof (create_children_cases parent (childMode mode) requests [] "" tbl []) as H.
  rewrite app_nil_r in H. specialize (H Hok Hok eq_refl).
  destruct (create_children _ _ _ _ _ _ _) as [[u|e] tbl']; [|done]. by destruct H as [Hok' ->].
Qed.

Lemma createDelegatedTasks_fanout c parent mode requests tbl tbl' :
  createDelegatedTasks marshal c parent mode requests tbl = (Ok (), tbl') ->
  Z.of_nat (length (GetChildren (ID parent) tbl) + length requests) <= delegationFanOutLimit c.
Proof.
  unfold createDelegatedTasks. cbv zeta.
  destruct (Z.ltb_spec (delegationFanOutLimit c)
    (Z.of_nat (length (GetChildren (ID parent) tbl) + length requests))); [done|lia].
Qed.


(** ** The depth guard *)

(** The first [n] ancestors of a task, nearest first. *)
Fixpoint ancestors (n : nat) (tbl : Table) (t : Task) : list Task :=
  match n, ParentTaskID t with
  | S n, Some pid => match Get pid tbl with Ok anc => anc :: ancestors n tbl anc | Err _ => [] end
  | _, _ => []
  end.

Lemma depth_walk_count guard tbl cursor depth d :
  depth_walk guard tbl cursor depth = Ok d ->
  d = depth + Z.of_nat (count_if delegated (ancestors guard tbl cursor)).
Proof.
  revert cursor depth. induction guard as [|guard IH]; intros cursor depth; simpl;
    destruct (ParentTaskID cursor) as [pid|]; rewrite ?count_if_nil; try (intros [= <-]; lia).
  destruct (Get pid tbl) as [anc|e]; simpl; [|done]. intros Hd. rewrite (IH _ _ Hd), count_if_cons.
  destruct (delegated anc); lia.
Qed.

(** What the depth guard bounds.  With the limit [L], delegation from a task
    is accepted only if, among the task and its nearest [2 L + 2] ancestors,
    fewer than [L] were created by delegation; and when the depth guard refuses,
    it reports exactly that number.  Ancestors beyond the window do not count. *)
Theorem depth_guard_window c parent mode requests tbl :
  let limit := delegationDepthLimit c in
  let depth := Z.of_nat (count_if delegated
    (parent :: ancestors (Z.to_nat (limit * 2 + 2)) tbl parent)) in
  match (createDelegatedTasks marshal c parent mode requests tbl).1 with
  | Ok _ => depth < limit
  | Err (GuardDepth d l) => d = depth /\ l = limit /\ limit <= depth
  | Err _ => True
  end.
Proof.
  cbv zeta. unfold createDelegatedTasks. cbv zeta.
  destruct (_ <? _); [done|]. destruct (ancestorIDs c parent tbl) as [|e] eqn:Ea.
  - destruct (countDelegationDepth c parent tbl) as [depth|e] eqn:Ed; [|done].
    apply depth_walk_count in Ed. rewrite count_if_cons. unfold walk_guard in Ed.
    assert (depth = Z.of_nat ((if delegated parent then 1 else 0) + count_if delegated
      (ancestors (Z.to_nat (delegationDepthLimit c * 2 + 2)) tbl parent))) as -> by
      (destruct (delegated parent); lia). clear Ed.
    destruct (Z.leb_spec (delegationDepthLimit c) (Z.of_nat ((if delegated parent then 1 else 0) +
      count_if delegated (ancestors (Z.to_nat (delegationDepthLimit c * 2 + 2)) tbl parent)))); [done|].
    destruct (create_children _ _ _ _ _ _ _) as [[|]]; done.
  - destruct e as [| |d l|]; try done. exfalso. unfold ancestorIDs in Ea. revert Ea.
    generalize (walk_guard (delegationDepthLimit c)) as n, ({[ID parent]} : gset string).
    generalize parent as cur. intros cur n. revert cur. induction n as [|n IH]; intros cur seen; simpl;
      destruct (ParentTaskID cur) as [pid|]; try done.
    case_bool_decide; [done|]. destruct (Get pid tbl); [apply IH|done].
Qed.

End Facts.

(** ** Example: routes hide delegations

    A lineage of sixty tasks in which every third was delegated and the others
    were routed. *)
Definition lineage_id (i : nat) : string := ("t" ++ pretty i)%string.

Definition lineage_task (i : nat) : Task :=
  (zeroTask (lineage_id i)) <| ProjectID := "p1"%string |>
    <| ParentTaskID := match i with O => None | S j => Some (lineage_id j) end |>
    <| CreationSource := if Nat.eqb i 0 then TaskCreationSourceUser
                         else if Nat.eqb (Nat.modulo i 3) 0 then TaskCreationSourceDelegation
                         else TaskCreationSourceRoute |>
    <| Status := TaskStatusWaitingForChildren |> <| Attempt := 1 |> <| MaxAttempts := 3 |>.

Definition lineage_table (n : nat) : Table := map lineage_task (seq 0 n).

Definition unlimited : DelegationConfig := mkDelegationConfig 0 0.

Definition lineage_request (i : nat) : ChildRequest :=
  mkRequest (mkSpec "go" 0 "") (lineage_id i) 7 7 None.

Definition is_child_of_last (i : nat) (r : result DelegationError unit * Table) : bool :=
  is_ok r.1 && bool_decide (length r.2 = S i).

(** The check the code made when it created the task [i] under its parent. *)
Definition admitted (i : nat) : bool :=
  match i with
  | O => true
  | S j =>
      if delegated (lineage_task i)
      then is_child_of_last i (createDelegatedTasks (pg := pg_example) id unlimited (lineage_task j)
             DelegationModeParallel [lineage_request i] (lineage_table i))
      else countRouteDepth (lineage_task j) (lineage_table i) <? maxRouteDepth
  end.

(** Every task of the lineage was admitted, and so is one more delegation, with
    nineteen nested delegations above it where the limit is five. *)
Lemma nested_delegations_exceed_limit :
  forallb admitted (seq 0 61) = true /\
  count_if delegated (lineage_table 60) = 19%nat /\ delegationDepthLimit unlimited = 5.
Proof. vm_compute. done. Qed.
