(* ===== verification/FamilyFacts.v ===== *)
(** * Parents and children under concurrency

    The goroutines that finish the children and the one that parks the parent
    interleave at every statement: the parent is woken exactly once. *)
From S2P Require Import Prelude TaskModel TaskRepo TaskRepoFacts TaskRepoSafety Delegation.
Open Scope list_scope.
Open Scope Z_scope.

(** ** Statements keyed by an id *)

Lemma exec_update_ext p p' f f' (tbl : Table) :
  (forall t, t ∈ tbl -> p t = p' t) -> (forall t, t ∈ tbl -> p t = true -> f t = f' t) ->
  exec_update p f tbl = exec_update p' f' tbl.
Proof.
  intros Hp Hf. unfold exec_update.
  assert (E1 : update_rows p f tbl = update_rows p' f' tbl).
  { apply map_ext_in. intros t Ht%list_elem_of_In. rewrite <- (Hp t Ht).
    destruct (p t) eqn:E; [by apply Hf|done]. }
  assert (E2 : map f (filter (fun t => p t = true) tbl) = map f' (filter (fun t => p' t = true) tbl)).
  { clear E1. induction tbl as [|t tbl IH]; [done|]. rewrite !filter_cons.
    assert (IHt := IH ltac:(intros; apply Hp; by right) ltac:(intros; apply Hf; [by right|done])).
    rewrite <- (Hp t) by left. destruct (p t) eqn:E; simpl; [|done].
    rewrite (Hf t) by (done || left). by rewrite IHt. }
  assert (E3 : count_if p tbl = count_if p' tbl).
  { apply count_if_ext. exact Hp. }
  by rewrite E1, E2, E3.
Qed.

(** A statement rewrote the row [id] with [f] and nothing else. *)
Record rewrote (id : string) (f : Task -> Task) (tbl tbl' : Table) : Prop := {
  rw_ok : table_ok tbl';
  rw_row : forall id', row tbl' id' = (if id' =?? id then f <$> row tbl id' else row tbl id')
}.

Lemma update_one f tbl id :
  table_ok tbl -> same_keys f ->
  (forall t, row tbl id = Some t -> row_checks (f t) = true) ->
  exists r, exec_update (fun t => ID t =?? id) f tbl = Ok r /\ rewrote id f tbl r.1.
Proof.
  intros Hok Hf Hc. pose proof (keyed_update f tbl id (fun _ => true) Hok Hf) as H.
  rewrite (exec_update_ext _ (fun t => (ID t =?? id) && true) f f);
    [|intros; by rewrite andb_true_r|done].
  destruct (exec_update _ f tbl) as [r|e].
  - exists r. split; [done|]. destruct H as (_ & Hr & _ & Hok'). split; [done|]. intros id'.
    rewrite Hr. destruct (row tbl id') as [t|] eqn:E; simpl; [|by case_bool_decide].
    rewrite andb_true_r. by case_bool_decide.
  - destruct H as (_ & t & Et & _ & Hr). by rewrite (Hc t Et) in Hr.
Qed.

Lemma row_checks_of tbl id t : table_ok tbl -> row tbl id = Some t -> row_checks t = true.
Proof. intros Hok [Ht _]%row_Some_1. by apply (ok_checks _ Hok). Qed.

Lemma UpdateStatus_one now id status tbl :
  table_ok tbl -> enum_task_status status = true ->
  exists tbl', UpdateStatus now id status tbl = Ok tbl' /\
    rewrote id (fun t => t <| Status := status |> <| UpdatedAt := now |>) tbl tbl'.
Proof.
  intros Hok He. unfold UpdateStatus, with_binds. cbn [bind_errors sql_enum]. rewrite He.
  destruct (update_one (fun t => t <| Status := status |> <| UpdatedAt := now |>) tbl id Hok)
    as (r & -> & Hr); [by split| |by exists r.1].
  intros t Et. exact (row_checks_of _ _ _ Hok Et).
Qed.

Section Family.
Context `{pg : Postgres}.

(** A struct that [Update] can write over the row [r]. *)
Record writable (t r : Task) : Prop := {
  wr_id : ID t = ID r;
  wr_project : ProjectID t = ProjectID r;
  wr_idem : IdempotencyKey t = IdempotencyKey r;
  wr_parent : ParentTaskID t = ParentTaskID r;
  wr_binds : bind_errors (task_binds t) = None;
  wr_checks : row_checks t = true
}.

(** [updated_row] with the keys of the row. *)
Definition rewrite_row (t x : Task) : Task :=
  (updated_row t x) <| ProjectID := ProjectID x |> <| IdempotencyKey := IdempotencyKey x |>
    <| ParentTaskID := ParentTaskID x |>.

Lemma rewrite_row_same_keys t : same_keys (rewrite_row t).
Proof. by split. Qed.

Lemma updated_row_keys t r now :
  writable t r -> updated_row (t <| UpdatedAt := now |>) r = rewrite_row (t <| UpdatedAt := now |>) r.
Proof. intros [_ W2 W3 W4 _ _]. destruct t, r. simpl in *. by subst. Qed.

Lemma Update_one now t r tbl :
  table_ok tbl -> row tbl (ID t) = Some r -> writable t r ->
  exists t' tbl', Update now (Some t) tbl = Ok (t', tbl') /\ table_ok tbl' /\
    forall id', row tbl' id' =
      if id' =?? ID t then Some (updated_row (t <| UpdatedAt := now |>) r) else row tbl id'.
Proof.
  intros Hok Er Hw. set (t1 := t <| UpdatedAt := now |>).
  destruct (update_one (rewrite_row t1) tbl (ID t) Hok (rewrite_row_same_keys t1))
    as (res & Hres & Hok' & Hr); [intros x _; exact (wr_checks _ _ Hw)|].
  exists t1, res.1. split; [|split; [done|]].
  - unfold Update, with_binds. change (task_binds _) with (task_binds t). rewrite (wr_binds _ _ Hw).
    fold t1. rewrite (exec_update_ext _ (fun x => ID x =?? ID t) _ (rewrite_row t1)), Hres; [done|done|].
    intros x Hx E%bool_decide_eq_true. change (ID t1) with (ID t) in E.
    assert (Ex : row tbl (ID x) = Some x) by (by apply row_Some; [apply Hok|]).
    assert (x = r) as -> by congruence. by apply updated_row_keys.
  - intros id'. rewrite Hr. case_bool_decide as E; [|done]. subst id'. rewrite Er. simpl.
    f_equal. symmetry. by apply updated_row_keys.
Qed.

(** *** The write of a final handler *)

Definition final_status (e : Ending) : TaskStatus :=
  match e with
  | EndSuccess => TaskStatusCompleted
  | EndFailure _ _ => TaskStatusFailed
  | EndCancelled => TaskStatusCancelled
  end.

(** The handler of the ending [e] can write its struct [t] over [r]; a failure is
    the last attempt. *)
Definition can_end (e : Ending) (t r : Task) : Prop :=
  match e with
  | EndFailure m c => taskWillRetry t = false /\ writable (failed_task m c t) r
  | _ => True
  end.

Lemma write_ending_one now e t r tbl :
  table_ok tbl -> row tbl (ID t) = Some r -> can_end e t r ->
  exists tbl' r', write_ending now e t tbl = Ok tbl' /\ table_ok tbl' /\
    Status r' = final_status e /\ ParentTaskID r' = ParentTaskID r /\
    forall id', row tbl' id' = if id' =?? ID t then Some r' else row tbl id'.
Proof.
  intros Hok Er He.
  assert (Hstatus : forall st, enum_task_status st = true ->
    exists tbl' r', UpdateStatus now (ID t) st tbl = Ok tbl' /\ table_ok tbl' /\
      Status r' = st /\ ParentTaskID r' = ParentTaskID r /\
      forall id', row tbl' id' = if id' =?? ID t then Some r' else row tbl id').
  { intros st Hst. destruct (UpdateStatus_one now (ID t) st tbl Hok Hst) as (tbl' & -> & [Hok' Hr]).
    exists tbl', (r <| Status := st |> <| UpdatedAt := now |>). split_and!; try done.
    intros id'. rewrite Hr. case_bool_decide as E; [|done]. subst id'. by rewrite Er. }
  destruct e as [|m c|]; [exact (Hstatus TaskStatusCompleted eq_refl)| |exact (Hstatus TaskStatusCancelled eq_refl)].
  destruct He as [Hretry Hw]. unfold write_ending.
  destruct (Update_one now (failed_task m c t) r tbl Hok Er Hw) as (t' & tbl' & -> & Hok' & Hr).
  exists tbl'. eexists. split_and!; [done|done| | |exact Hr].
  - simpl. by rewrite Hretry.
  - exact (wr_parent _ _ Hw).
Qed.

(** *** The write of the waker *)

(** How a parent [t] is woken: requeued, or, when a child failed, requeued with
    the next attempt if there is one and failed otherwise. *)
Definition woken (failed : bool) (t r : Task) : Prop :=
  MaxAttempts r = MaxAttempts t /\
  if failed then
    LastErrorClass r = Some TaskFailureClassChildFailed /\
    if taskWillRetry t then Status r = TaskStatusQueued /\ Attempt r = Attempt t + 1
    else Status r = TaskStatusFailed /\ Attempt r = Attempt t
  else Status r = TaskStatusQueued /\ Attempt r = Attempt t /\ LastErrorClass r = LastErrorClass t.

Lemma wake_one now parent children r tbl :
  table_ok tbl -> row tbl (ID parent) = Some r -> ID parent <> ""%string ->
  Attempt parent = Attempt r -> MaxAttempts parent = MaxAttempts r -> MaxAttempts r <= maxInt32 ->
  exists b tbl' r', wake now parent children tbl = Ok (b, tbl') /\ table_ok tbl' /\
    woken (existsb child_failed children) r r' /\ ParentTaskID r' = ParentTaskID r /\
    LeaseID r' = LeaseID r /\
    forall id', row tbl' id' =
      if (id' =?? ID parent) && (Status r =?? TaskStatusWaitingForChildren)
      then Some r' else row tbl id'.
Proof.
  intros Hok Er Hid Ha Hm Hmax. pose proof (row_checks_of _ _ _ Hok Er) as Hc.
  unfold row_checks in Hc. rewrite !andb_true_iff, !Z.leb_le in Hc. destruct Hc as [[[P1 P2] A1] A2].
  unfold wake. destruct (wake_target parent children) as [to opts] eqn:Ew.
  assert (Hw : woken (existsb child_failed children) r (transition_set now to opts r) /\
    enum_task_status to = true /\ to <> TaskStatusEmpty /\ opt_MaxAttempts opts = 0 /\
    0 <= opt_Attempt opts <= maxInt32 /\ set_pos (opt_Attempt opts) (Attempt r) <= MaxAttempts r /\
    opt_ClearLease opts = false).
  { unfold wake_target, woken, taskWillRetry in *. rewrite Ha, Hm in Ew.
    assert (maxInt32 = 2147483647) as E by reflexivity. rewrite E in *.
    destruct (existsb child_failed children).
    - rewrite (proj2 (Z.ltb_lt _ _)) in Ew by lia. rewrite (proj2 (Z.leb_gt _ _)) by lia. simpl in Ew.
      destruct (Z.ltb_spec (Attempt r) (MaxAttempts r)); injection Ew as <- <-.
      + simpl. unfold set_pos. rewrite (proj2 (Z.ltb_lt 0 (Attempt r + 1))) by lia.
        split_and!; done || lia.
      + simpl. unfold set_pos. simpl. split_and!; done || lia.
    - injection Ew as <- <-. simpl. unfold set_pos. simpl. split_and!; done || lia. }
  destruct Hw as (Hw & Hto & Hne & Hom & Hoa & Hle & Hcl).
  unfold TransitionConditional. rewrite !bool_decide_false by done. cbn [orb].
  unfold with_binds. rewrite Hom. cbn [bind_errors sql_enum sql_int4]. rewrite Hto.
  assert (Hs : 0 <= set_pos (opt_Attempt opts) 0 <= maxInt32).
  { unfold set_pos. destruct (0 <? opt_Attempt opts); [lia|by vm_compute]. }
  rewrite (int32_fits_pos _ Hs). simpl bind_errors. cbv iota.
  pose proof (keyed_update (transition_set now to opts) tbl (ID parent)
    (status_in [TaskStatusWaitingForChildren]) Hok (transition_set_same_keys now to opts)) as H.
  destruct (exec_update _ _ tbl) as [res|e].
  - destruct H as (_ & Hr & _ & Hok'). exists (affected res), res.1, (transition_set now to opts r).
    split_and!; [done|done|exact Hw|done|simpl; by rewrite Hcl|]. intros id'. rewrite Hr.
    assert (Est : status_in [TaskStatusWaitingForChildren] r
                  = (Status r =?? TaskStatusWaitingForChildren)).
    { apply bool_decide_ext. by rewrite list_elem_of_singleton. }
    destruct (bool_decide_reflect (id' = ID parent)) as [->|Hne']; cbn [andb].
    + rewrite Er. simpl. rewrite Est. by case_bool_decide.
    + by destruct (row tbl id').
  - exfalso. destruct H as (_ & t & Et & _ & Hchk). assert (t = r) as -> by congruence.
    apply not_true_iff_false in Hchk. apply Hchk. unfold row_checks. simpl. rewrite Hom.
    rewrite !andb_true_iff, !Z.leb_le. unfold set_pos in *. simpl.
    destruct r, (Z.ltb_spec 0 (opt_Attempt opts)); simpl in *; split_and!; lia.
Qed.

(** ** The family

    The parent [pid], whose row is [t0] when it parks, and its children, given by
    how each ends and by the struct its final handler holds. *)
Context (pid : string) (t0 : Task) (fs : list (Ending * Task)).

Definition child_ids : list string := map (fun f => ID f.2) fs.

Definition some_failed : bool := existsb (fun f => final_status f.1 =?? TaskStatusFailed) fs.

(** The table when the children have been created: the parent runs, and its
    children are those of [fs], none of them done or paused. *)
Record family_start (tbl : Table) : Prop := {
  fm_ok : table_ok tbl;
  fm_parent : row tbl pid = Some t0;
  fm_running : Status t0 = TaskStatusRunning;
  fm_pid : pid <> ""%string;
  fm_fits : MaxAttempts t0 <= maxInt32;
  fm_some : fs <> [];
  fm_distinct : NoDup (pid :: child_ids);
  fm_children : forall id r, row tbl id = Some r -> ParentTaskID r = Some pid <-> id ∈ child_ids;
  fm_child : forall e t, (e, t) ∈ fs -> exists r, row tbl (ID t) = Some r /\
    ParentTaskID t = Some pid /\ child_done (Status r) = false /\
    Status r <> TaskStatusPaused /\ can_end e t r
}.

Context (tbl0 : Table) (Hstart : family_start tbl0).

(** What is known of a child and of the parent at each program counter. *)
Definition child_state (e : Ending) (t : Task) (pc : PC) (r : Task) : Prop :=
  match pc with
  | PcGuard e' t' | PcWrite e' t' => e' = e /\ t' = t /\ row tbl0 (ID t) = Some r
  | PcUnblock _ => Status r = final_status e
  | _ => False
  end.

Definition waiting (r : Task) : Prop :=
  Status r = TaskStatusWaitingForChildren /\ Attempt r = Attempt t0 /\
  MaxAttempts r = MaxAttempts t0 /\ LastErrorClass r = LastErrorClass t0.

Definition parked (r : Task) : Prop := waiting r \/ woken some_failed t0 r.

Definition parent_state (pc : PC) (r : Task) : Prop :=
  match pc with
  | PcFlip q => q = pid /\ r = t0
  | PcSaved q => q = pid /\ parked r
  | PcUnblock _ => parked r
  | _ => False
  end.

Definition owner (i : nat) : option string :=
  match i with O => Some pid | S j => (fun f => ID f.2) <$> fs !! j end.

Definition proc_state (i : nat) (pc : PC) (r : Task) : Prop :=
  match i with
  | O => parent_state pc r
  | S j => match fs !! j with Some (e, t) => child_state e t pc r | None => False end
  end.

(** The snapshot of the parent that a waker works with. *)
Definition snapshot (parent : Task) : Prop :=
  ID parent = pid /\ Attempt parent = Attempt t0 /\ MaxAttempts parent = MaxAttempts t0.

Definition unblock_ok (u : Unblock) : Prop :=
  match u with
  | UbGet q => q = pid
  | UbChildren parent => snapshot parent
  | UbWake parent children => snapshot parent /\ existsb child_failed children = some_failed
  | UbDone => True
  end.

Record Inv (pcs : list PC) (tbl : Table) : Prop := {
  iv_ok : table_ok tbl;
  iv_length : length pcs = S (length fs);
  iv_children : forall id r, row tbl id = Some r -> ParentTaskID r = Some pid <-> id ∈ child_ids;
  iv_proc : forall i id, owner i = Some id -> exists pc r,
    pcs !! i = Some pc /\ row tbl id = Some r /\ proc_state i pc r;
  iv_unblock : forall i u, pcs !! i = Some (PcUnblock u) -> unblock_ok u;
  iv_live : forall r, row tbl pid = Some r -> Status r = TaskStatusWaitingForChildren ->
    exists i pc, pcs !! i = Some pc /\ pc <> PcDone
}.

(** A step of the goroutine [i] that rewrites the row [id0] from [r0] to [r1]. *)
Lemma Inv_step pcs tbl i pc pc' tbl' id0 r0 r1 :
  Inv pcs tbl -> pcs !! i = Some pc -> table_ok tbl' ->
  row tbl id0 = Some r0 ->
  (forall id', row tbl' id' = if id' =?? id0 then Some r1 else row tbl id') ->
  ParentTaskID r1 = ParentTaskID r0 ->
  (forall k pck, owner k = Some id0 -> pcs !! k = Some pck -> proc_state k pck r0 ->
     proc_state k (if decide (k = i) then pc' else pck) r1) ->
  (forall id r, owner i = Some id -> id <> id0 -> row tbl id = Some r ->
     proc_state i pc r -> proc_state i pc' r) ->
  (forall u, pc' = PcUnblock u -> unblock_ok u) ->
  (forall r, row tbl' pid = Some r -> Status r = TaskStatusWaitingForChildren -> pc' = PcDone ->
     exists k pck, pcs !! k = Some pck /\ k <> i /\ pck <> PcDone) ->
  Inv (<[i := pc']> pcs) tbl'.
Proof.
  intros [I1 Il I2 I3 I4 I5] Hpc Hok' Er0 Hrow Hpar Hown Hother Hub Hlive.
  pose proof (lookup_lt_Some _ _ _ Hpc) as Hi. split; [done|by rewrite length_insert| | | |].
  - intros id r. rewrite Hrow. case_bool_decide as E; [|apply I2]. subst id.
    intros [= <-]. rewrite Hpar. by apply I2.
  - intros k id Ho. destruct (I3 k id Ho) as (pck & r & Ek & Er & Hs).
    rewrite Hrow. destruct (decide (k = i)) as [->|Hne].
    + rewrite list_lookup_insert_eq by done. assert (pck = pc) as -> by congruence.
      case_bool_decide as E.
      * subst id. assert (r = r0) as -> by congruence. specialize (Hown i pc Ho Hpc Hs).
        rewrite decide_True in Hown by done. by exists pc', r1.
      * exists pc', r. split_and!; [done|done|]. by apply (Hother id).
    + rewrite list_lookup_insert_ne by done. case_bool_decide as E; [|eauto].
      subst id. assert (r = r0) as -> by congruence. specialize (Hown k pck Ho Ek Hs).
      rewrite decide_False in Hown by done. by exists pck, r1.
  - intros k u. destruct (decide (k = i)) as [->|Hne].
    + rewrite list_lookup_insert_eq by done. intros [= E]. by apply Hub.
    + rewrite list_lookup_insert_ne by done. apply I4.
  - intros r Er Hw. destruct (decide (pc' = PcDone)) as [E|Hn].
    + destruct (Hlive r Er Hw E) as (k & pck & Ek & Hne & Hd). exists k, pck.
      by rewrite list_lookup_insert_ne.
    + exists i, pc'. by rewrite list_lookup_insert_eq.
Qed.

Lemma Inv_parent pcs tbl :
  Inv pcs tbl -> exists pc r, pcs !! 0%nat = Some pc /\ row tbl pid = Some r /\ parent_state pc r.
Proof. intros HI. exact (iv_proc _ _ HI 0%nat pid eq_refl). Qed.

(** A step that writes nothing. *)
Lemma Inv_move pcs tbl i pc pc' :
  Inv pcs tbl -> pcs !! i = Some pc ->
  (forall id r, owner i = Some id -> row tbl id = Some r -> proc_state i pc r -> proc_state i pc' r) ->
  (forall u, pc' = PcUnblock u -> unblock_ok u) ->
  (forall r, row tbl pid = Some r -> Status r = TaskStatusWaitingForChildren -> pc' = PcDone ->
     exists k pck, pcs !! k = Some pck /\ k <> i /\ pck <> PcDone) ->
  Inv (<[i := pc']> pcs) tbl.
Proof.
  intros HI Hpc Hs Hu Hl. destruct (Inv_parent _ _ HI) as (pc0 & r0 & _ & Er0 & _).
  eapply (Inv_step pcs tbl i pc pc' tbl pid r0 r0); try done.
  - apply HI.
  - intros id'. case_bool_decide as E; [by subst id'|done].
  - intros k pck Ho Ek Hk. destruct (decide (k = i)) as [->|]; [|done].
    assert (pck = pc) as -> by congruence. by apply (Hs pid).
  - intros id r Ho _ Er. by apply (Hs id).
Qed.

Lemma owner_inj i k id : owner i = Some id -> owner k = Some id -> i = k.
Proof.
  pose proof (fm_distinct _ Hstart) as Hnd.
  assert (Ho : forall i, owner i = (pid :: child_ids) !! i).
  { intros [|j]; [done|]. simpl. unfold child_ids. by rewrite list_lookup_fmap. }
  rewrite !Ho. intros H1 H2. by eapply NoDup_lookup.
Qed.

Lemma owner_Some pcs tbl i pc : Inv pcs tbl -> pcs !! i = Some pc -> is_Some (owner i).
Proof.
  intros HI Hi%lookup_lt_Some. rewrite (iv_length _ _ HI) in Hi. destruct i as [|j]; [by eexists|].
  simpl. apply fmap_is_Some, lookup_lt_is_Some. lia.
Qed.

(** A waiting parent is as it was parked. *)
Lemma parent_waiting pcs tbl r :
  Inv pcs tbl -> row tbl pid = Some r -> Status r = TaskStatusWaitingForChildren -> waiting r.
Proof.
  intros HI Er Hw. destruct (Inv_parent _ _ HI) as (pc & r' & _ & Er' & Hs).
  assert (r' = r) as -> by congruence.
  assert (Hp : parked r).
  { destruct pc; simpl in Hs; try done; try (by destruct Hs).
    destruct Hs as [_ ->]. pose proof (fm_running _ Hstart). congruence. }
  destruct Hp as [Hp|[_ Hp]]; [done|]. destruct some_failed.
  - destruct Hp as [_ Hp]. destruct (taskWillRetry t0), Hp; congruence.
  - destruct Hp as [Hp _]. congruence.
Qed.

(** ** The steps of the waker *)

Lemma elem_of_GetChildren q tbl t :
  t ∈ GetChildren q tbl <-> exists r, r ∈ tbl /\ ParentTaskID r = Some q /\ t = scanTask r.
Proof.
  unfold GetChildren, by_creation. rewrite list_elem_of_fmap.
  setoid_rewrite elem_of_order_by. setoid_rewrite elem_of_select_rows.
  setoid_rewrite bool_decide_eq_true. naive_solver.
Qed.

(** The child [j] in the table: before its final write as it was at the start,
    after it in its final status. *)
Lemma child_row_state pcs tbl e t :
  Inv pcs tbl -> (e, t) ∈ fs -> exists k pc r, owner k = Some (ID t) /\ pcs !! k = Some pc /\
    row tbl (ID t) = Some r /\
    ((child_done (Status r) = false /\ (forall u, pc <> PcUnblock u)) \/ Status r = final_status e).
Proof.
  intros HI [j Hj]%list_elem_of_lookup.
  assert (Ho : owner (S j) = Some (ID t)) by (simpl; by rewrite Hj).
  destruct (iv_proc _ _ HI (S j) _ Ho) as (pc & r & Hpc & Er & Hs). simpl in Hs. rewrite Hj in Hs.
  exists (S j), pc, r. split_and!; [done|done|done|].
  destruct (fm_child _ Hstart e t) as (r0 & Er0 & _ & Hd & _); [by eapply list_elem_of_lookup_2|].
  destruct pc; simpl in Hs; try done; [left|left|by right];
    destruct Hs as (_ & _ & E); assert (r = r0) as -> by congruence; done.
Qed.

Lemma waker_reads_all pcs tbl parent :
  Inv pcs tbl -> ID parent = pid ->
  forallb (fun t => child_done (Status t)) (GetChildren pid tbl) = true ->
  existsb child_failed (GetChildren pid tbl) = some_failed.
Proof.
  intros HI Hid Hall. rewrite forallb_elem in Hall.
  assert (Hfinal : forall e t, (e, t) ∈ fs -> exists r, r ∈ tbl /\ ID r = ID t /\
    ParentTaskID r = Some pid /\ Status r = final_status e).
  { intros e t Hin. destruct (child_row_state _ _ _ _ HI Hin) as (k & pc & r & _ & _ & Er & Hs).
    pose proof Er as [Hr Hidr]%row_Some_1. exists r.
    assert (Hp : ParentTaskID r = Some pid).
    { apply (iv_children _ _ HI _ _ Er). apply list_elem_of_fmap. by exists (e, t). }
    split_and!; try done. destruct Hs as [[Hd _]|Hs]; [|done].
    specialize (Hall (scanTask r)). rewrite elem_of_GetChildren in Hall.
    assert (child_done (Status r) = true) by (apply Hall; eauto). congruence. }
  apply eq_true_iff_eq. unfold some_failed. rewrite !existsb_elem. split.
  - intros (t & (r & Hr & Hp & ->)%elem_of_GetChildren & Hf).
    assert (Er : row tbl (ID r) = Some r) by (apply row_Some; [apply HI|done]).
    apply (iv_children _ _ HI _ _ Er), list_elem_of_fmap in Hp as ([e t] & Hidt & Hin).
    exists (e, t). split; [done|]. destruct (Hfinal e t Hin) as (r' & Hr' & Hid' & _ & Hs').
    assert (Er' : row tbl (ID r') = Some r') by (apply row_Some; [apply HI|done]).
    simpl in Hidt. assert (r' = r) as -> by congruence. simpl. rewrite <- Hs'. exact Hf.
  - intros ([e t] & Hin & Hf). destruct (Hfinal e t Hin) as (r & Hr & _ & Hp & Hs).
    exists (scanTask r). split; [apply elem_of_GetChildren; eauto|].
    unfold child_failed. change (Status (scanTask r)) with (Status r). rewrite Hs. exact Hf.
Qed.

(** A goroutine that gave up while the parent waits left another one at work. *)
Lemma live_without_child pcs tbl i :
  Inv pcs tbl -> (exists u, pcs !! i = Some (PcUnblock u)) ->
  GetChildren pid tbl = [] \/ forallb (fun t => child_done (Status t)) (GetChildren pid tbl) = false ->
  exists k pck, pcs !! k = Some pck /\ k <> i /\ pck <> PcDone.
Proof.
  intros HI [u Hi] Hc.
  assert (He : exists e t, (e, t) ∈ fs /\ forall k pc r, owner k = Some (ID t) -> pcs !! k = Some pc ->
    row tbl (ID t) = Some r -> child_done (Status r) = false \/ GetChildren pid tbl = []).
  { destruct Hc as [Hc|Hc].
    - destruct fs as [|[e t] l] eqn:E; [by destruct (fm_some _ Hstart)|]. exists e, t.
      split; [left|]. intros. by right.
    - apply forallb_elem_false in Hc as (t' & (r & Hr & Hp & ->)%elem_of_GetChildren & Hd).
      assert (Er : row tbl (ID r) = Some r) by (apply row_Some; [apply HI|done]).
      apply (iv_children _ _ HI _ _ Er), list_elem_of_fmap in Hp as ([e t] & Hidt & Hin).
      exists e, t. split; [done|]. intros k pc r' _ _ Er'. left. simpl in Hidt.
      assert (r' = r) as -> by congruence. exact Hd. }
  destruct He as (e & t & Hin & Hst).
  destruct (child_row_state _ _ _ _ HI Hin) as (k & pc & r & Ho & Hpc & Er & Hcase).
  assert (Hdone : final_status e = Status r -> child_done (Status r) = true).
  { intros <-. by destruct e. }
  destruct (Hst k pc r Ho Hpc Er) as [Hd|Hnil].
  - destruct Hcase as [[_ Hn]|Hs]; [|rewrite Hdone in Hd; congruence].
    exists k, pc. split; [done|]. split; [|by apply Hn].
    intros ->. apply (Hn u). congruence.
  - exfalso. pose proof Er as [Hr Hidr]%row_Some_1.
    assert (Hp : ParentTaskID r = Some pid).
    { apply (iv_children _ _ HI _ _ Er), list_elem_of_fmap. by exists (e, t). }
    assert (Hin' : scanTask r ∈ GetChildren pid tbl) by (apply elem_of_GetChildren; eauto).
    rewrite Hnil in Hin'. by apply elem_of_nil in Hin'.
Qed.

(** The position inside the waker does not matter to the row of a goroutine. *)
Lemma proc_state_unblock i u u' r : proc_state i (PcUnblock u) r -> proc_state i (PcUnblock u') r.
Proof. destruct i as [|j]; simpl; [done|]. by destruct (fs !! j) as [[]|]. Qed.

(** The waker's write, when the parent still waits and when it does not. *)
Lemma Inv_wake_waiting pcs tbl i parent children r now :
  Inv pcs tbl -> pcs !! i = Some (PcUnblock (UbWake parent children)) ->
  row tbl pid = Some r -> Status r = TaskStatusWaitingForChildren ->
  Inv (<[i := PcDone]> pcs)
    (match wake now parent children tbl with Ok r => r.2 | Err _ => tbl end).
Proof.
  intros HI Hi Er Hw. destruct (iv_unblock _ _ HI i _ Hi) as [(Hid & Ha & Hm) Hf].
  destruct (parent_waiting _ _ _ HI Er Hw) as (_ & Wa & Wm & Wc).
  destruct (wake_one now parent children r tbl) as (b & tbl' & r' & -> & Hok' & Hwk & Hp & _ & Hrow);
    [apply HI|by rewrite Hid|rewrite Hid; apply (fm_pid _ Hstart)|congruence|congruence|
     rewrite Wm; apply (fm_fits _ Hstart)|].
  rewrite Hf in Hwk. rewrite Hid in Hrow. rewrite bool_decide_true in Hrow by done. simpl.
  assert (Hwoken : woken some_failed t0 r').
  { unfold woken, taskWillRetry in *. rewrite Wa, Wm, Wc in Hwk. exact Hwk. }
  assert (Hnw : Status r' <> TaskStatusWaitingForChildren).
  { intros Hst. destruct Hwoken as [_ Hwk']. destruct some_failed.
    - destruct Hwk' as [_ Hwk']. destruct (taskWillRetry t0), Hwk'; congruence.
    - destruct Hwk' as [Hwk' _]. congruence. }
  eapply (Inv_step pcs tbl i (PcUnblock (UbWake parent children)) PcDone tbl' pid r r'); try done.
  - intros id'. rewrite Hrow. by rewrite andb_true_r.
  - intros k pck Ho Ek Hk. assert (k = 0%nat) as -> by by eapply owner_inj.
    destruct (decide (0%nat = i)) as [<-|Hne]; [by right|].
    destruct pck; simpl in *; try done; try (by right).
    + destruct Hk as [_ ->]. pose proof (fm_running _ Hstart). congruence.
    + destruct Hk as [-> _]. split; [done|]. by right.
  - by intros u' [= <-].
  - intros r2. rewrite Hrow, bool_decide_true by done. by intros [= <-].
Qed.

Lemma Inv_wake_idle pcs tbl i parent children r now :
  Inv pcs tbl -> pcs !! i = Some (PcUnblock (UbWake parent children)) ->
  row tbl pid = Some r -> Status r <> TaskStatusWaitingForChildren ->
  Inv (<[i := PcDone]> pcs)
    (match wake now parent children tbl with Ok r => r.2 | Err _ => tbl end).
Proof.
  intros HI Hi Er Hn. destruct (iv_unblock _ _ HI i _ Hi) as [(Hid & _) _].
  set (out := match wake now parent children tbl with Ok r => r.2 | Err _ => tbl end).
  assert (Hst : status_in [TaskStatusWaitingForChildren] r = false).
  { apply bool_decide_eq_false. by intros ?%list_elem_of_singleton. }
  assert (Hsame : table_ok out /\ forall id', row out id' = row tbl id').
  { unfold out, wake. destruct (wake_target parent children) as [to opts].
    destruct (TransitionConditional _ _ _ _ _ _) as [[b tbl']|e] eqn:Et; [|split; [apply HI|done]].
    destruct (TransitionConditional_rows _ _ _ _ _ _ _ _ (iv_ok _ _ HI) Et) as [Hok' Hrow].
    split; [done|]. intros id'. simpl. rewrite Hrow, Hid.
    destruct (bool_decide_reflect (id' = pid)) as [->|]; [|by destruct (row tbl id')].
    rewrite Er. cbn [fmap option_fmap option_map]. by rewrite Hst, andb_false_r. }
  destruct Hsame as [Hok' Hrow].
  eapply (Inv_step pcs tbl i (PcUnblock (UbWake parent children)) PcDone out pid r r); try done.
  - intros id'. rewrite Hrow. case_bool_decide as E; [by subst id'|done].
  - intros k pck Ho Ek Hk. destruct (decide (k = i)) as [->|]; [|done].
    assert (pck = PcUnblock (UbWake parent children)) as -> by congruence.
    by eapply proc_state_unblock.
  - by intros u' [= <-].
  - intros r2. rewrite Hrow, Er. by intros [= <-].
Qed.

Lemma Inv_unblock_step pcs tbl i u now :
  Inv pcs tbl -> pcs !! i = Some (PcUnblock u) ->
  let out := unblock_step now false u tbl in Inv (<[i := PcUnblock out.1]> pcs) out.2.
Proof.
  intros HI Hi. cbv zeta. pose proof (iv_unblock _ _ HI i u Hi) as Hu.
  destruct (Inv_parent _ _ HI) as (pc0 & r & Hpc0 & Er & Hs0).
  assert (Hmove : forall u', unblock_ok u' ->
    (Status r = TaskStatusWaitingForChildren -> u' = UbDone ->
       exists k pck, pcs !! k = Some pck /\ k <> i /\ pck <> PcDone) ->
    Inv (<[i := PcUnblock u']> pcs) tbl).
  { intros u' Hok Hl. eapply Inv_move; [done|done|intros id r' _ _; apply proc_state_unblock|by intros ? [= <-]|].
    intros r' Er' Hw [= ->]. apply Hl; [congruence|done]. }
  destruct u as [q|parent|parent children|]; simpl in Hu; cbn [unblock_step fst snd].
  - subst q. rewrite Get_row, Er. cbv iota. change (Status (scanTask r)) with (Status r).
    destruct (bool_decide_reflect (Status r = TaskStatusWaitingForChildren)) as [Hw|Hn]; simpl.
    + apply Hmove; [|by intros]. destruct (parent_waiting _ _ _ HI Er Hw) as (_ & Ha & Hm & _).
      apply row_Some_1 in Er as [_ Hid]. done.
    + apply Hmove; [done|]. congruence.
  - destruct Hu as (Hid & Ha & Hm). rewrite Hid. cbv zeta. cbn [orb]. case_bool_decide as Hnil; simpl.
    { apply Hmove; [done|]. intros _ _. eapply live_without_child; eauto. }
    destruct (forallb _ _) eqn:Hall.
    + apply Hmove; [|done]. split; [done|]. by apply (waker_reads_all pcs tbl parent).
    + apply Hmove; [done|]. intros _ _. eapply live_without_child; eauto.
  - destruct (decide (Status r = TaskStatusWaitingForChildren)).
    + by eapply Inv_wake_waiting.
    + by eapply Inv_wake_idle.
  - apply Hmove; [done|]. intros Hw _.
    destruct (iv_live _ _ HI r Er Hw) as (k & pck & Ek & Hd). exists k, pck. split; [done|].
    split; [|done]. intros ->. apply Hd. rewrite Hi in Ek. by injection Ek.
Qed.

(** ** The other steps *)

(** The goroutine of a final handler is a child's, and its row is still the
    first one. *)
Lemma handler_child pcs tbl i pc e t :
  Inv pcs tbl -> pcs !! i = Some pc -> pc = PcGuard e t \/ pc = PcWrite e t ->
  exists j r, i = S j /\ fs !! j = Some (e, t) /\ row tbl (ID t) = Some r /\
    row tbl0 (ID t) = Some r.
Proof.
  intros HI Hi Hpc. destruct (owner_Some _ _ _ _ HI Hi) as [id Ho].
  destruct (iv_proc _ _ HI i id Ho) as (pc' & r & Hi' & Er & Hs).
  assert (pc' = pc) as -> by congruence. destruct i as [|j]; simpl in *.
  { by destruct Hpc as [-> | ->]. }
  destruct (fs !! j) as [[e' t']|] eqn:Ej; [|done]. simpl in Ho. injection Ho as <-.
  exists j, r. assert (e' = e /\ t' = t /\ row tbl0 (ID t') = Some r) as (-> & -> & Er0).
  { destruct Hpc as [-> | ->]; simpl in Hs; destruct Hs as (-> & -> & ?); done. }
  done.
Qed.

Lemma Inv_guard pcs tbl i e t :
  Inv pcs tbl -> pcs !! i = Some (PcGuard e t) -> forall now,
  let out := proc_step now false (PcGuard e t) tbl in Inv (<[i := out.1]> pcs) out.2.
Proof.
  intros HI Hi now. destruct (handler_child _ _ _ _ e t HI Hi) as (j & r & -> & Hj & Er & Er0);
    [by left|].
  destruct (fm_child _ Hstart e t) as (r' & Er' & _ & _ & Hp & _); [by eapply list_elem_of_lookup_2|].
  assert (r' = r) as -> by congruence.
  cbv zeta. cbn [proc_step fst snd]. rewrite Get_row, Er. cbv iota.
  change (Status (scanTask r)) with (Status r). rewrite bool_decide_false by done.
  by eapply Inv_move.
Qed.

Lemma Inv_write pcs tbl i e t :
  Inv pcs tbl -> pcs !! i = Some (PcWrite e t) -> forall now,
  let out := proc_step now false (PcWrite e t) tbl in Inv (<[i := out.1]> pcs) out.2.
Proof.
  intros HI Hi now. destruct (handler_child _ _ _ _ e t HI Hi) as (j & r & -> & Hj & Er & Er0);
    [by right|].
  destruct (fm_child _ Hstart e t) as (r' & Er' & Hpar & _ & _ & Hend); [by eapply list_elem_of_lookup_2|].
  assert (r' = r) as -> by congruence.
  destruct (write_ending_one now e t r tbl (iv_ok _ _ HI) Er Hend)
    as (tbl' & r1 & Ew & Hok' & Hst & Hp & Hrow).
  cbv zeta. cbn [proc_step fst snd]. rewrite Ew. cbn [or_else].
  assert (Hub : checkParentUnblock t = UbGet pid).
  { unfold checkParentUnblock. rewrite Hpar. by rewrite bool_decide_false by apply (fm_pid _ Hstart). }
  rewrite Hub. eapply (Inv_step pcs tbl (S j) _ _ tbl' (ID t) r r1); try done.
  - intros k pck Ho Ek Hk. assert (Ho' : owner (S j) = Some (ID t)) by (simpl; by rewrite Hj).
    assert (k = S j) as -> by by eapply owner_inj. rewrite decide_True by done.
    simpl. by rewrite Hj.
  - intros id r2. simpl. rewrite Hj. intros [= <-]. done.
  - by intros u [= <-].
Qed.

Lemma parent_proc pcs tbl i pc q :
  Inv pcs tbl -> pcs !! i = Some pc -> pc = PcFlip q \/ pc = PcSaved q ->
  exists r, i = 0%nat /\ q = pid /\ row tbl pid = Some r /\ parent_state pc r.
Proof.
  intros HI Hi Hpc. destruct (owner_Some _ _ _ _ HI Hi) as [id Ho].
  destruct (iv_proc _ _ HI i id Ho) as (pc' & r & Hi' & Er & Hs).
  assert (pc' = pc) as -> by congruence. destruct i as [|j]; simpl in *.
  - injection Ho as <-. exists r. split_and!; try done.
    by destruct Hpc as [-> | ->]; simpl in Hs; destruct Hs.
  - destruct (fs !! j) as [[]|]; [|done]. by destruct Hpc as [-> | ->].
Qed.

Lemma Inv_flip pcs tbl i q :
  Inv pcs tbl -> pcs !! i = Some (PcFlip q) -> forall now,
  let out := proc_step now false (PcFlip q) tbl in Inv (<[i := out.1]> pcs) out.2.
Proof.
  intros HI Hi now. destruct (parent_proc _ _ _ _ q HI Hi (or_introl eq_refl)) as (r & -> & -> & Er & _ & ->).
  destruct (UpdateStatus_one now pid TaskStatusWaitingForChildren tbl (iv_ok _ _ HI) eq_refl)
    as (tbl' & Eu & [Hok' Hrow]).
  cbv zeta. cbn [proc_step fst snd]. rewrite Eu. cbn [or_else].
  eapply (Inv_step pcs tbl 0%nat _ _ tbl' pid t0
    (t0 <| Status := TaskStatusWaitingForChildren |> <| UpdatedAt := now |>)); try done.
  - intros id'. rewrite Hrow. case_bool_decide as E; [|done]. subst id'. by rewrite Er.
  - intros k pck Ho Ek Hk. assert (k = 0%nat) as -> by by eapply owner_inj.
    rewrite decide_True by done. simpl. split; [done|]. by left.
  - intros id r2. simpl. intros [= <-]. done.
Qed.

Lemma Inv_saved pcs tbl i q :
  Inv pcs tbl -> pcs !! i = Some (PcSaved q) -> forall now,
  let out := proc_step now false (PcSaved q) tbl in Inv (<[i := out.1]> pcs) out.2.
Proof.
  intros HI Hi now. destruct (parent_proc _ _ _ _ q HI Hi (or_intror eq_refl)) as (r & -> & -> & Er & _).
  cbv zeta. cbn [proc_step fst snd]. eapply Inv_move; try done.
  - intros id r2 _ _. simpl. by intros [_ ?].
  - by intros u [= <-].
Qed.

Lemma Inv_proc_step pcs tbl i pc now :
  Inv pcs tbl -> pcs !! i = Some pc ->
  let out := proc_step now false pc tbl in Inv (<[i := out.1]> pcs) out.2.
Proof.
  intros HI Hi. destruct pc as [e t|e t|q|q|u|id l|id l st].
  - by apply Inv_guard.
  - by apply Inv_write.
  - by apply Inv_flip.
  - by apply Inv_saved.
  - pose proof (Inv_unblock_step pcs tbl i u now HI Hi) as H. cbn [proc_step].
    by destruct (unblock_step now false u tbl).
  - exfalso. destruct (owner_Some _ _ _ _ HI Hi) as [x Ho].
    destruct (iv_proc _ _ HI i x Ho) as (pc' & r & Hi' & _ & Hs).
    assert (pc' = PcReload id l) as -> by congruence.
    destruct i as [|j]; simpl in Hs; [done|]. by destruct (fs !! j) as [[]|].
  - exfalso. destruct (owner_Some _ _ _ _ HI Hi) as [x Ho].
    destruct (iv_proc _ _ HI i x Ho) as (pc' & r & Hi' & _ & Hs).
    assert (pc' = PcRelease id l st) as -> by congruence.
    destruct i as [|j]; simpl in Hs; [done|]. by destruct (fs !! j) as [[]|].
Qed.

(** ** Runs *)

Definition start_procs : list PC := PcFlip pid :: map (fun f => finalize f.1 f.2) fs.

Lemma Inv_start : Inv start_procs tbl0.
Proof.
  pose proof Hstart as [H1 H2 H3 H4 H5 H6 H7 H8 H9]. split; try done.
  - unfold start_procs. simpl. by rewrite length_map.
  - intros [|j] id; simpl; [intros [= <-]; by exists (PcFlip pid), t0|].
    destruct (fs !! j) as [[e t]|] eqn:Ej; [|done]. simpl. intros [= <-].
    destruct (H9 e t) as (r & Er & _); [by eapply list_elem_of_lookup_2|].
    exists (finalize e t), r. split_and!; [by rewrite list_lookup_fmap, Ej|done|]. by destruct e.
  - intros [|j] u; simpl; [done|]. rewrite list_lookup_fmap.
    destruct (fs !! j) as [[[] t]|]; done.
  - intros r Er. congruence.
Qed.

Lemma Inv_run schedule pcs tbl :
  Inv pcs tbl -> Forall (fun e => tn_fault e = false) schedule ->
  let s := run_family schedule (pcs, tbl) in Inv s.1 s.2.
Proof.
  cbv zeta. revert pcs tbl. induction schedule as [|e schedule IH]; intros pcs tbl HI; [done|].
  intros [He Hf]%Forall_cons. simpl. unfold family_step. cbn [fst snd].
  destruct (pcs !! tn_proc e) as [pc|] eqn:Ep; [|by apply IH].
  pose proof (Inv_proc_step pcs tbl _ pc (tn_now e) HI Ep) as Hs. rewrite He.
  destruct (proc_step (tn_now e) false pc tbl) as [pc' tbl']. by apply IH.
Qed.

(** How many statements a goroutine has left. *)
Definition rank (pc : PC) : nat :=
  match pc with
  | PcGuard _ _ | PcFlip _ => 5
  | PcWrite _ _ | PcSaved _ => 4
  | PcUnblock (UbGet _) => 3
  | PcUnblock (UbChildren _) | PcReload _ _ => 2
  | PcUnblock (UbWake _ _) | PcRelease _ _ _ => 1
  | PcUnblock UbDone => 0
  end.

Lemma rank_unblock now fault u tbl :
  (rank (PcUnblock (unblock_step now fault u tbl).1) <= rank (PcUnblock u) - 1)%nat.
Proof.
  destruct u as [q|parent|parent children|]; cbn [unblock_step].
  - destruct (if fault then _ else _); simpl; [|lia]. case_bool_decide; simpl; lia.
  - cbn [fst]. destruct (_ || _); [simpl; lia|]. destruct (forallb _ _); simpl; lia.
  - simpl. lia.
  - simpl. lia.
Qed.

Lemma rank_step now fault pc tbl : (rank (proc_step now fault pc tbl).1 <= rank pc - 1)%nat.
Proof.
  destruct pc as [e t|e t|q|q|u|id l|id l st]; simpl; try lia.
  - destruct (if fault then _ else _); [case_match|]; simpl; lia.
  - unfold checkParentUnblock. repeat case_match; simpl; lia.
  - case_match; simpl; lia.
  - pose proof (rank_unblock now fault u tbl) as H. by destruct (unblock_step now fault u tbl).
  - destruct (if fault then _ else _); simpl; lia.
Qed.

Definition turns (k : nat) (schedule : list Turn) : nat :=
  count_if (fun e => Nat.eqb (tn_proc e) k) schedule.

Lemma rank_run schedule pcs tbl k pc :
  pcs !! k = Some pc -> exists pc', (run_family schedule (pcs, tbl)).1 !! k = Some pc' /\
    (rank pc' <= rank pc - turns k schedule)%nat.
Proof.
  revert pcs tbl pc. induction schedule as [|e schedule IH]; intros pcs tbl pc Hk.
  { exists pc. split; [done|]. unfold turns. rewrite count_if_nil. lia. }
  unfold turns. rewrite count_if_cons. fold (turns k schedule).
  simpl. unfold family_step. cbn [fst snd].
  destruct (pcs !! tn_proc e) as [pc1|] eqn:Ep.
  - pose proof (rank_step (tn_now e) (tn_fault e) pc1 tbl) as Hr.
    destruct (proc_step (tn_now e) (tn_fault e) pc1 tbl) as [pc' tbl']. simpl in Hr.
    destruct (Nat.eqb_spec (tn_proc e) k) as [E|Hne].
    + assert (pc1 = pc) as -> by congruence. subst k.
      destruct (IH (<[tn_proc e := pc']> pcs) tbl' pc') as (pc2 & E2 & H2).
      { apply list_lookup_insert_eq. by eapply lookup_lt_Some. }
      exists pc2. split; [done|]. lia.
    + destruct (IH (<[tn_proc e := pc']> pcs) tbl' pc) as (pc2 & E2 & H2).
      { by rewrite list_lookup_insert_ne. }
      exists pc2. split; [done|]. lia.
  - destruct (Nat.eqb_spec (tn_proc e) k) as [E|Hne]; [congruence|].
    destruct (IH pcs tbl pc Hk) as (pc2 & E2 & H2). exists pc2. split; [done|]. lia.
Qed.

Lemma rank_zero pc : rank pc = 0%nat -> pc = PcDone.
Proof. by destruct pc as [| | | |[]| |]. Qed.

End Family.

