(* ===== verification/FamilyLimits.v ===== *)
(** * Where families get stuck

    Two ways in which a parent is never woken, and examples of the theorems on
    families. *)
From S2P Require Import Prelude GoStrings TaskModel TaskRepo TaskRepoFacts TaskRepoSafety Store.
From S2P Require Import Gates Delegation DelegationFacts FamilyFacts.
Open Scope list_scope.
Open Scope Z_scope.

Section Limits.
Context `{pg : Postgres} (marshal : string -> string).

(** ** The scheduler's release of a paused task *)

(** A task's lease released with its status kept. *)
Lemma ReleaseLease_one now id l st r tbl :
  table_ok tbl -> row tbl id = Some r -> LeaseID r = Some l -> l <> ""%string ->
  enum_task_status st = true ->
  exists tbl', ReleaseLease now id l st (mkReleaseOptions 0 0 "" "") tbl = Ok tbl' /\
    row tbl' id = Some (release_set now st (mkReleaseOptions 0 0 "" "") r) /\
    forall id', id' <> id -> row tbl' id' = row tbl id'.
Proof.
  intros Hok Er Hl Hne He.
  destruct (ReleaseLease_total now id l st (mkReleaseOptions 0 0 "" "") tbl) as [tbl' E]; try done.
  { intros t Et _. pose proof (row_checks_of _ _ _ Hok Et) as Hc.
    unfold row_checks in Hc. rewrite !andb_true_iff, !Z.leb_le in Hc. simpl. unfold set_pos. simpl. lia. }
  exists tbl'. split; [done|].
  destruct (ReleaseLease_cases now id l st _ tbl Hok tbl' E) as (_ & Hoth & Hmine & _).
  split; [by apply Hmine|exact Hoth].
Qed.

(** The children of a parent are all done, and there is one. *)
Definition family_done (pid : string) (tbl : Table) : Prop :=
  GetChildren pid tbl <> [] /\
  forallb (fun t => child_done (Status t)) (GetChildren pid tbl) = true.

Definition turn (k : nat) (now : time) : Turn := mkTurn k now false.

Lemma family_step_at k now pc pc' pcs tbl tbl' :
  pcs !! k = Some pc -> proc_step now false pc tbl = (pc', tbl') ->
  family_step (pcs, tbl) (turn k now) = (<[k := pc']> pcs, tbl').
Proof. intros Hk Hs. unfold family_step. simpl. by rewrite Hk, Hs. Qed.

Lemma proc_step_unblock now u u' tbl tbl' :
  unblock_step now false u tbl = (u', tbl') ->
  proc_step now false (PcUnblock u) tbl = (PcUnblock u', tbl').
Proof. intros H. cbn [proc_step]. by rewrite H. Qed.

(** A waker that runs alone wakes a waiting parent and keeps its lease. *)
Lemma waker_alone now pid r tbl :
  table_ok tbl -> row tbl pid = Some r -> pid <> ""%string -> MaxAttempts r <= maxInt32 ->
  Status r = TaskStatusWaitingForChildren -> family_done pid tbl ->
  exists tbl' r', table_ok tbl' /\ row tbl' pid = Some r' /\ LeaseID r' = LeaseID r /\
    Status r' <> TaskStatusWaitingForChildren /\
    (forall id', id' <> pid -> row tbl' id' = row tbl id') /\
    unblock_step now false (UbGet pid) tbl = (UbChildren (scanTask r), tbl) /\
    unblock_step now false (UbChildren (scanTask r)) tbl =
      (UbWake (scanTask r) (GetChildren pid tbl), tbl) /\
    unblock_step now false (UbWake (scanTask r) (GetChildren pid tbl)) tbl = (UbDone, tbl').
Proof.
  intros Hok Er Hp Hm Hw [Hne Hall]. pose proof Er as [_ Hid]%row_Some_1.
  destruct (wake_one now (scanTask r) (GetChildren pid tbl) r tbl) as
    (b & tbl' & r' & Ew & Hok' & Hwk & _ & Hlease & Hrow); try done.
  1-2: change (ID (scanTask r)) with (ID r); by rewrite Hid.
  change (ID (scanTask r)) with (ID r) in Hrow. rewrite Hid, Hw in Hrow.
  exists tbl', r'. split_and!; try done.
  - rewrite Hrow. by rewrite !bool_decide_true.
  - destruct Hwk as [_ Hwk]. destruct (existsb _ _).
    + destruct Hwk as [_ Hwk]. destruct (taskWillRetry r), Hwk; congruence.
    + destruct Hwk as [Hwk _]. congruence.
  - intros id' Hne'. rewrite Hrow. by rewrite bool_decide_false.
  - cbn [unblock_step]. rewrite Get_row, Er. change (Status (scanTask r)) with (Status r).
    by rewrite bool_decide_true.
  - cbn [unblock_step]. cbv zeta. change (ID (scanTask r)) with (ID r). rewrite Hid.
    cbn [orb]. rewrite bool_decide_false, Hall by done. done.
  - cbn [unblock_step]. by rewrite Ew.
Qed.

(** A wake-up can be lost.  The scheduler releases a paused task in two
    statements: it reads the status and writes it back with the release.  If
    the last child wakes the parent between the two, the write puts the parent
    back to WAITING_FOR_CHILDREN: the waker is done, every child is done, and
    nothing is left that would wake the parent. *)
Theorem paused_release_loses_wakeup now pid l r tbl :
  table_ok tbl -> row tbl pid = Some r -> pid <> ""%string -> MaxAttempts r <= maxInt32 ->
  Status r = TaskStatusWaitingForChildren -> family_done pid tbl ->
  LeaseID r = Some l -> l <> ""%string ->
  exists tbl' r', run_family (map (fun k => turn k now) [0; 1; 1; 1; 0]%nat)
      ([PcReload pid l; PcUnblock (UbGet pid)], tbl) = ([PcDone; PcDone], tbl') /\
    row tbl' pid = Some r' /\ Status r' = TaskStatusWaitingForChildren /\ LeaseID r' = None /\
    forall id', id' <> pid -> row tbl' id' = row tbl id'.
Proof.
  intros Hok Er Hp Hm Hw Hf Hl Hlne.
  destruct (waker_alone now pid r tbl Hok Er Hp Hm Hw Hf) as
    (tbl1 & r1 & Hok1 & Er1 & Hl1 & _ & Hoth1 & S1 & S2 & S3).
  destruct (ReleaseLease_one now pid l TaskStatusWaitingForChildren r1 tbl1) as
    (tbl2 & E2 & Er2 & Hoth2); [done|done|congruence|done|done|].
  exists tbl2. eexists. split; [|split; [exact Er2|split_and!; [done|done|]]].
  - assert (S0 : proc_step now false (PcReload pid l) tbl =
      (PcRelease pid l TaskStatusWaitingForChildren, tbl)).
    { cbn [proc_step]. rewrite Get_row, Er. change (Status (scanTask r)) with (Status r).
      rewrite Hw. done. }
    assert (S4 : proc_step now false (PcRelease pid l TaskStatusWaitingForChildren) tbl1 = (PcDone, tbl2)).
    { cbn [proc_step]. by rewrite E2. }
    unfold run_family. cbn [map foldl].
    erewrite family_step_at; [|reflexivity|exact S0].
    erewrite family_step_at; [|reflexivity|exact (proc_step_unblock _ _ _ _ _ S1)].
    erewrite family_step_at; [|reflexivity|exact (proc_step_unblock _ _ _ _ _ S2)].
    erewrite family_step_at; [|reflexivity|exact (proc_step_unblock _ _ _ _ _ S3)].
    by erewrite family_step_at; [|reflexivity|exact S4].
  - intros id' Hne. by rewrite Hoth2, Hoth1.
Qed.

(** ** Sequential children *)

(** A sequential family stops at the first child that does not complete.
    Once [createDelegatedTasks] made a SEQUENTIAL family, and as long as its
    first child is in any status but COMPLETED (FAILED, CANCELLED or CLOSED for
    instance) and the second is as created, the second is queued but never
    eligible for a lease, whatever the scheduler asks for, and waking the parent
    changes nothing: the parent waits for a child that cannot start. *)
Theorem sequential_family_stops c parent r1 r2 rest tbl tbl1 tbl2 d now :
  table_ok tbl ->
  createDelegatedTasks marshal c parent DelegationModeSequential (r1 :: r2 :: rest) tbl
    = (Ok (), tbl1) -> rq_id r1 <> ""%string ->
  table_ok tbl2 -> row tbl2 (rq_id r1) = Some d -> Status d <> TaskStatusCompleted ->
  row tbl2 (rq_id r2) = row tbl1 (rq_id r2) ->
  exists b, row tbl2 (rq_id r2) = Some b /\ Status b = TaskStatusQueued /\
    (forall opts, eligible tbl2 opts b = false) /\
    unblockParentIfChildrenDone now (ID parent) tbl2 = tbl2.
Proof.
  intros Hok Hc Hne Hok2 Ed Hd Eb.
  pose proof (createDelegatedTasks_cases marshal c parent DelegationModeSequential
    (r1 :: r2 :: rest) tbl Hok) as H. rewrite Hc in H. destruct H as [-> Hok1].
  change (childMode DelegationModeSequential) with DelegationModeSequential in *.
  set (b := child_row marshal parent DelegationModeSequential (rq_id r1) r2).
  assert (Erow : row (tbl ++ child_rows marshal parent DelegationModeSequential "" (r1 :: r2 :: rest))
    (rq_id r2) = Some b).
  { apply row_Some; [apply Hok1|]. split; [|done]. apply elem_of_app. right. simpl. right. left. }
  rewrite Erow in Eb. exists b. split; [done|]. split; [done|].
  assert (Hdeps : Dependencies b = [rq_id r1]).
  { unfold b, child_row, child_task. simpl. by rewrite bool_decide_false. }
  split.
  - intros opts. apply not_true_iff_false. intros Hel%eligible_spec.
    pose proof (el_deps _ _ _ Hel) as Hdep. rewrite Hdeps in Hdep.
    destruct (Hdep (rq_id r1) ltac:(left)) as (x & Hx & Hid & Hst).
    assert (Ex : row tbl2 (rq_id r1) = Some x) by (apply row_Some; [apply Hok2|done]).
    congruence.
  - pose proof Eb as [Hb _]%row_Some_1. unfold unblockParentIfChildrenDone. cbn [unblock_step].
    destruct (Get (ID parent) tbl2) as [p|e] eqn:Ep; [|done]. case_bool_decide; [|done].
    cbn [unblock_step]. cbv zeta. cbn [orb].
    assert (Hidp : ID p = ID parent).
    { rewrite Get_row in Ep. destruct (row tbl2 (ID parent)) as [q|] eqn:Eq; [|done].
      injection Ep as <-. by apply row_Some_1 in Eq as [_ ?]. }
    case_bool_decide; [done|]. rewrite Hidp.
    assert (Hall : forallb (fun t => child_done (Status t)) (GetChildren (ID parent) tbl2) = false).
    { apply not_true_iff_false. rewrite forallb_elem. intros Hall.
      specialize (Hall (scanTask b)). rewrite elem_of_GetChildren in Hall.
      assert (child_done (Status (scanTask b)) = true) as Hx by (apply Hall; by exists b).
      by vm_compute in Hx. }
    by rewrite Hall.
Qed.

End Limits.

(** ** Examples *)

Section Examples.
#[local] Existing Instance pg_example.

Definition parent_example : Task :=
  (zeroTask "p") <| ProjectID := "p1"%string |> <| CreationSource := TaskCreationSourceUser |>
    <| Status := TaskStatusRunning |> <| Priority := 50 |> <| Attempt := 1 |> <| MaxAttempts := 3 |>
    <| LeaseID := Some "l1"%string |>.

Definition request_example (id : string) : ChildRequest :=
  mkRequest (mkSpec "go" 0 "") id 5 5 None.

Definition requests_example : list ChildRequest := [request_example "a"; request_example "b"].

Lemma parent_table_ok : table_ok [parent_example].
Proof.
  split; [apply NoDup_singleton|apply NoDup_nil_2| |]; by intros t ->%list_elem_of_singleton.
Qed.

Definition family_example (mode : DelegationMode) : Table :=
  [parent_example; child_row id parent_example mode "" (request_example "a");
   child_row id parent_example mode "a" (request_example "b")].

Lemma family_created mode :
  mode = DelegationModeSequential \/ mode = DelegationModeParallel ->
  createDelegatedTasks id unlimited parent_example mode requests_example [parent_example]
    = (Ok (), family_example mode).
Proof. intros [-> | ->]; vm_compute; reflexivity. Qed.

Lemma family_example_ok mode :
  mode = DelegationModeSequential \/ mode = DelegationModeParallel -> table_ok (family_example mode).
Proof.
  intros Hm. pose proof (createDelegatedTasks_cases id unlimited parent_example mode
    requests_example [parent_example] parent_table_ok) as H.
  rewrite (family_created mode Hm) in H. apply H.
Qed.


(** One child succeeds, the other fails its last attempt. *)
Definition last_try : Task :=
  (child_row id parent_example DelegationModeParallel "" (request_example "b")) <| Attempt := 3 |>.

Definition endings_example : list (Ending * Task) :=
  [(EndSuccess, child_row id parent_example DelegationModeParallel "" (request_example "a"));
   (EndFailure "boom" TaskFailureClassLLMError, last_try)].

Definition finishing_table : Table :=
  [parent_example; child_row id parent_example DelegationModeParallel "" (request_example "a");
   last_try].

Lemma finishing_table_ok : table_ok finishing_table.
Proof.
  split; try (apply (bool_decide_unpack _); vm_compute; exact I);
    intros t Ht; repeat (apply elem_of_cons in Ht as [->|Ht]; [vm_compute; reflexivity|]);
    by apply elem_of_nil in Ht.
Qed.

Lemma finishing_children id r :
  row finishing_table id = Some r ->
  ParentTaskID r = Some "p"%string <-> id ∈ child_ids endings_example.
Proof.
  assert (H : Forall (fun r => ParentTaskID r = Some "p"%string <-> ID r ∈ child_ids endings_example)
    finishing_table) by (apply (bool_decide_unpack _); vm_compute; exact I).
  intros [Hr <-]%row_Some_1. rewrite Forall_forall in H. by apply H.
Qed.

Lemma finishing_child e t :
  (e, t) ∈ endings_example -> exists r, row finishing_table (ID t) = Some r /\
    ParentTaskID t = Some "p"%string /\ child_done (Status r) = false /\
    Status r <> TaskStatusPaused /\ can_end e t r.
Proof.
  intros H. apply elem_of_cons in H as [[= -> ->]|H].
  { eexists. split; [vm_compute; reflexivity|]. by split_and!. }
  apply elem_of_cons in H as [[= -> ->]|H]; [|by apply elem_of_nil in H].
  exists last_try. split; [vm_compute; reflexivity|]. split_and!; try done.
Qed.

Lemma finishing_start : family_start "p" parent_example endings_example finishing_table.
Proof.
  split; try done.
  - exact finishing_table_ok.
  - apply (bool_decide_unpack _). vm_compute. exact I.
  - exact finishing_children.
  - exact finishing_child.
Qed.

Definition round_robin : list Turn :=
  concat (repeat (map (fun k => turn k 9) [2; 0; 1]%nat) 5).

Lemma round_robin_fair k : (k <= 2)%nat -> (5 <= turns k round_robin)%nat.
Proof. destruct k as [|[|[|k]]]; [by vm_compute; lia..|lia]. Qed.

Lemma round_robin_no_fault : Forall (fun e => tn_fault e = false) round_robin.
Proof. apply (bool_decide_unpack _). vm_compute. exact I. Qed.


(** Both children are done and the parent still waits under its lease. *)
Definition waiting_parent : Task := parent_example <| Status := TaskStatusWaitingForChildren |>.
Definition done_child (i : string) : Task :=
  (zeroTask i) <| ProjectID := "p1"%string |> <| ParentTaskID := Some "p"%string |>
    <| Status := TaskStatusCompleted |> <| Attempt := 1 |> <| MaxAttempts := 3 |>.
Definition done_table : Table := [waiting_parent; done_child "a"; done_child "b"].

Lemma done_table_ok : table_ok done_table.
Proof.
  split; try (apply (bool_decide_unpack _); vm_compute; exact I);
    intros t Ht; repeat (apply elem_of_cons in Ht as [->|Ht]; [vm_compute; reflexivity|]);
    by apply elem_of_nil in Ht.
Qed.

Lemma done_table_done : family_done "p" done_table.
Proof. split; [by vm_compute|vm_compute; reflexivity]. Qed.

Example paused_release_loses_wakeup_witness :
  exists tbl' r', run_family (map (fun k => turn k 9) [0; 1; 1; 1; 0]%nat)
      ([PcReload "p" "l1"; PcUnblock (UbGet "p")], done_table) = ([PcDone; PcDone], tbl') /\
    row tbl' "p" = Some r' /\ Status r' = TaskStatusWaitingForChildren /\ LeaseID r' = None /\
    forall id', id' <> "p"%string -> row tbl' id' = row done_table id'.
Proof.
  exact (paused_release_loses_wakeup 9 "p" "l1" waiting_parent done_table done_table_ok eq_refl
    ltac:(discriminate) ltac:(discriminate) eq_refl done_table_done eq_refl ltac:(discriminate)).
Defined.

(** The first of two sequential children has failed. *)
Definition failed_child : Task :=
  (child_row id parent_example DelegationModeSequential "" (request_example "a"))
    <| Status := TaskStatusFailed |>.
Definition stuck_table : Table :=
  [waiting_parent; failed_child;
   child_row id parent_example DelegationModeSequential "a" (request_example "b")].

Lemma stuck_table_ok : table_ok stuck_table.
Proof.
  split; try (apply (bool_decide_unpack _); vm_compute; exact I);
    intros t Ht; repeat (apply elem_of_cons in Ht as [->|Ht]; [vm_compute; reflexivity|]);
    by apply elem_of_nil in Ht.
Qed.

Lemma stuck_same :
  row stuck_table "b" = row (family_example DelegationModeSequential) "b".
Proof. vm_compute. reflexivity. Qed.

Example sequential_family_stops_witness :
  exists b, row stuck_table "b" = Some b /\ Status b = TaskStatusQueued /\
    (eligible stuck_table lease_opts_example b = false) /\
    unblockParentIfChildrenDone 9 "p" stuck_table = stuck_table.
Proof.
  destruct (sequential_family_stops id unlimited parent_example (request_example "a")
    (request_example "b") [] [parent_example] (family_example DelegationModeSequential) stuck_table
    failed_child 9 parent_table_ok (family_created DelegationModeSequential (or_introl eq_refl))
    ltac:(discriminate) stuck_table_ok eq_refl ltac:(discriminate) stuck_same)
    as (b & H1 & H2 & H3 & H4).
  exact (ex_intro _ b (conj H1 (conj H2 (conj (H3 lease_opts_example) H4)))).
Defined.

End Examples.
