(* ===== verification/EngineFacts.v ===== *)
(** * What the workflow engine guarantees

    Properties of one attempt of [Engine] for every behaviour of agents, plans,
    callees, handlers and the repository. *)
From S2P Require Import Prelude GoStrings TaskModel Workflow WorkflowFacts Gates Engine.
Open Scope string_scope.

Section Facts.
Context {JN : JsonNumbers} {JU : JsonUnmarshal} {RC : ResultCodec} (plan : Plan).
Let wf := pn_workflow plan.

(** ** Gates *)

Lemma evaluate_gates_target gates payload t trace :
  evaluate_gates gates payload = (Ok (Some t), trace) -> t ∈ map Target gates.
Proof.
  revert trace. induction gates as [|g gates IH]; intros trace; simpl; [done|].
  destruct (evaluateGateCondition _ _) as [[]|e]; [| |done].
  - intros [= <- _]. left.
  - destruct (evaluate_gates gates payload) as [r tr]. intros [= -> _]. right. by eapply IH.
Qed.

Lemma evaluateGateStep_target step res t :
  (evaluateGateStepTraced step res).1 = Ok t -> t ∈ map Target (Gates step).
Proof.
  unfold evaluateGateStepTraced. destruct (Gates step) as [|g gs]; [done|].
  destruct (if res =?? "" then _ else _) as [payload|e]; [|done].
  destruct (evaluate_gates (g :: gs) payload) as [[[t'|]|e] tr] eqn:E; try done.
  intros [= ->]. exact (evaluate_gates_target (g :: gs) _ _ _ E).
Qed.

(** ** One iteration *)

(** Types whose success transition may be missing in a valid workflow. *)
Definition open_ended : list string := ["spawn_project"; "a2a_call"; "system"; "plan"].

(** What an iteration that goes on does to the loop. *)
Record moved (step : WorkflowStep) (l l' : Loop) : Prop := {
  mv_iterations : l_iterations l' = l_iterations l;
  mv_visits : forall id, id <> l_current l \/ Type_ step <> "plan" -> visits l' id = visits l id;
  mv_target : l_current l' ∈ targets step \/
    (l_current l' = "" /\ OnSuccess step = "" /\ Type_ step ∈ open_ended);
  mv_granted : ApprovalGrantedStep (l_state l') = ApprovalGrantedStep (l_state l) \/
               ApprovalGrantedStep (l_state l') = "";
  mv_approval : Type_ step = "approval" ->
    ApprovalGrantedStep (l_state l) = l_current l /\ ApprovalGrantedStep (l_state l') = ""
}.

Lemma on_success_target step : OnSuccess step <> "" -> OnSuccess step ∈ targets step.
Proof.
  intros H1. unfold targets, nonempty. rewrite bool_decide_false by done. left.
Qed.

Lemma on_fail_target step : OnFail step <> "" -> OnFail step ∈ targets step.
Proof.
  intros H1. unfold targets, nonempty. rewrite (bool_decide_false (OnFail step = "")) by done.
  apply elem_of_app. right. left.
Qed.

Lemma gate_target step t : t ∈ map Target (Gates step) -> t ∈ targets step.
Proof. intros H1. unfold targets. rewrite !elem_of_app. auto. Qed.

Lemma advance_inl rp next l w w' l' :
  advance rp next l w = (w', inl l') -> l' = l <| l_current := next |>.
Proof. unfold advance. destruct (saveCheckpoint _ _ _ _ _) as [[]]; by intros [= _ <-]. Qed.

(** The loop variables the guards and the approval read. *)
Definition same_guards (l l' : Loop) : Prop :=
  l_iterations l' = l_iterations l /\ l_visits l' = l_visits l /\
  (ApprovalGrantedStep (l_state l') = ApprovalGrantedStep (l_state l) \/
   ApprovalGrantedStep (l_state l') = "").

Lemma route_on_fail_inl rp step err msg body keep f l w w' l' :
  (forall s, ApprovalGrantedStep (f s) = ApprovalGrantedStep s) ->
  route_on_fail rp step err msg body keep f l w = (w', inl l') ->
  l_current l' ∈ targets step /\ same_guards l l'.
Proof.
  intros Hf. unfold route_on_fail. destruct (bool_decide_reflect (OnFail step = "")); [done|].
  destruct (rp_shutdown rp); [done|]. destruct (saveCheckpoint _ _ _ _ _) as [[]]; [done|].
  intros [= _ <-]. destruct keep; split; try (by apply on_fail_target);
    unfold same_guards; simpl; rewrite Hf; auto.
Qed.

Lemma moved_intro step l l' :
  Type_ step <> "approval" -> same_guards l l' ->
  l_current l' ∈ targets step \/
    (l_current l' = "" /\ OnSuccess step = "" /\ Type_ step ∈ open_ended) ->
  moved step l l'.
Proof.
  intros Ht (H1 & H2 & H3) Hc. split; try done. intros id _. unfold visits. by rewrite H2.
Qed.

(** Going to [on_success] where it may be empty. *)
Lemma success_target step l' :
  l_current l' = OnSuccess step -> Type_ step ∈ open_ended ->
  l_current l' ∈ targets step \/
    (l_current l' = "" /\ OnSuccess step = "" /\ Type_ step ∈ open_ended).
Proof.
  intros -> Ht. destruct (decide (OnSuccess step = "")); [by right|].
  left. by apply on_success_target.
Qed.

Lemma agent_next_ok rp step bytes l next l' :
  agent_next rp step bytes l = Ok (next, l') ->
  next ∈ targets step /\ same_guards l l' /\ l_state l' = l_state l.
Proof.
  unfold agent_next. intros Hn. apply res_bind_ok in Hn as ([n1 l1] & H1 & H2).
  assert (Hl : same_guards l l1 /\ l_state l1 = l_state l /\ (n1 <> "" -> n1 ∈ targets step)).
  { destruct (_ && _).
    - destruct (evaluateGateStepTraced step bytes).1 as [t|e] eqn:Eg.
      + injection H1 as <- <-. split_and!; [by repeat split; auto|done|].
        intros _. by eapply gate_target, evaluateGateStep_target.
      + destruct (bool_decide_reflect (OnFail step = "")); [done|].
        destruct (rp_shutdown rp); [done|]. injection H1 as <- <-.
        split_and!; [by repeat split; auto|done|]. by apply on_fail_target.
    - injection H1 as <- <-. split_and!; [by repeat split; auto|done|].
      by apply on_success_target. }
  destruct Hl as (Hg & Hs & Hn).
  destruct (bool_decide_reflect (n1 = "")).
  - destruct (bool_decide_reflect (OnFail step = "")); [done|]. injection H2 as <- <-.
    split_and!; [by apply on_fail_target|exact Hg|done].
  - injection H2 as <- <-. auto.
Qed.

Lemma pauses_return rp step handled r l w out w' l' :
  (handleSelectedWorkflowRoute plan rp handled r l w = Some out \/
   handleDelegatedTasks rp (DelegatedWorkflow step) r l w = Some out) -> out <> (w', inl l').
Proof.
  intros [Hs|Hs] ->.
  - unfold handleSelectedWorkflowRoute, return_err in Hs. repeat case_match; simplify_eq.
  - unfold handleDelegatedTasks, return_err in Hs. repeat case_match; simplify_eq.
Qed.

Lemma agent_iteration_inl rp step l w w' l' :
  agent_step_iteration plan rp step l w = (w', inl l') ->
  l_current l' ∈ targets step /\ same_guards l l'.
Proof.
  unfold agent_step_iteration. destruct (resolveResumeGuard _ _ _) as [handled childFailed].
  destruct (handled && childFailed).
  { destruct (bool_decide_reflect (OnFail step = "")); [done|]. intros [= _ <-].
    split; [by apply on_fail_target|]. by repeat split; auto. }
  destruct (dispatchAgentStep _ _ _ _) as [[cid bytes]|err].
  - unfold agent_done. match goal with |- context [match ?m with Some out => out | None => _ end] =>
      destruct m as [out|] eqn:Ep end.
    + intros ->. exfalso. destruct (if bytes =?? "" then None else unmarshal_result bytes) as [r|];
        [|done].
      destruct (handleSelectedWorkflowRoute _ _ _ _ _ _) as [out'|] eqn:Es.
      * injection Ep as ->. by eapply (pauses_return rp step); [left|].
      * by eapply (pauses_return rp step handled); [right|].
    + destruct (agent_next _ _ _ _) as [[next l1]|e] eqn:En; [|done].
      destruct (agent_next_ok _ _ _ _ _ _ En) as (Hn & (G1 & G2 & _) & Hst).
      intros ->%advance_inl. split; [exact Hn|]. split_and!.
      * etrans; [exact G1|]. by destruct (if bytes =?? "" then _ else _).
      * etrans; [exact G2|]. by destruct (if bytes =?? "" then _ else _).
      * by right.
  - destruct (se_terminalVerifier err); [done|]. intros Hr.
    apply route_on_fail_inl in Hr as [Ht Hg]; [by split|]. intros s. by destruct (rp_recovery rp).
Qed.

Lemma runGateStep_target step state next :
  runGateStep step state = Ok next -> next ∈ targets step.
Proof.
  unfold runGateStep. destruct (evaluateGateStepTraced _ _).1 as [t|e] eqn:Eg.
  - intros [= <-]. by eapply gate_target, evaluateGateStep_target.
  - destruct (bool_decide_reflect (OnFail step = "")), (bool_decide_reflect (OnSuccess step = ""));
      destruct (classifyGateEvalError e); intros; simplify_eq;
      by (apply on_fail_target || apply on_success_target).
Qed.

Lemma simple_iteration_inl rp step keep out l w w' l' :
  simple_iteration rp step keep out l w = (w', inl l') ->
  (l_current l' ∈ targets step \/ l_current l' = OnSuccess step) /\ same_guards l l'.
Proof.
  unfold simple_iteration. destruct out as [body|[[err msg] body]].
  - intros ->%advance_inl. split; [by right|]. by repeat split; auto.
  - intros [Ht Hg]%route_on_fail_inl; [|done]. auto.
Qed.

Lemma plan_iteration_inl rp step l w w' l' :
  plan_iteration rp step l w = (w', inl l') ->
  (l_current l' ∈ targets step \/ l_current l' = OnSuccess step) /\
  l_iterations l' = l_iterations l /\
  (forall id, id <> l_current l -> visits l' id = visits l id) /\
  (ApprovalGrantedStep (l_state l') = ApprovalGrantedStep (l_state l) \/
   ApprovalGrantedStep (l_state l') = "").
Proof.
  unfold plan_iteration.
  assert (Hv : forall z id, id <> l_current l ->
    default 0%Z (<[l_current l := z]> (l_visits l) !! id) = visits l id).
  { intros z id Hid. by rewrite lookup_insert_ne. }
  destruct (pl_outcome (rp_plan rp)) as [[cid bytes]|err].
  - intros ->%advance_inl. split; [by right|]. split_and!; [done| |by right].
    intros id Hid. by apply Hv.
  - destruct (se_leadHandoff err); [done|]. intros [Ht (G1 & G2 & G3)]%route_on_fail_inl; [|done].
    split; [by left|]. split_and!; [exact G1| |exact G3].
    intros id Hid. unfold visits at 1. rewrite G2. by apply Hv.
Qed.

Lemma dispatch_moved rp step l w w' l' :
  dispatch plan rp step l w = (w', inl l') -> moved step l l'.
Proof.
  unfold dispatch.
  destruct (bool_decide_reflect (Type_ step = "agent")) as [Et|_].
  { intros [Ht Hg]%agent_iteration_inl. apply moved_intro; [by rewrite Et|done|by left]. }
  destruct (bool_decide_reflect (Type_ step = "gate")) as [Et|_].
  { destruct (runGateStep _ _) as [next|e] eqn:Eg; [|done]. intros ->%advance_inl.
    apply moved_intro; [by rewrite Et|by repeat split; auto|left].
    by eapply runGateStep_target. }
  destruct (bool_decide_reflect (Type_ step = "approval")) as [Et|Hna].
  { unfold runApprovalStep. destruct (bool_decide_reflect (ApprovalGrantedStep (l_state l) = l_current l));
      [|by destruct (saveExecutionState _ _ _) as [[]]].
    destruct (bool_decide_reflect (OnSuccess step = "")); [done|]. intros ->%advance_inl.
    split; simpl; auto. left. by apply on_success_target. }
  destruct (bool_decide_reflect (Type_ step = "plan")) as [Et|_].
  { intros (Hc & H1 & H2 & H3)%plan_iteration_inl. split; try done.
    - intros id [Hid|Hp]; [by apply H2|done].
    - destruct Hc as [?|Hc]; [by left|]. apply success_target; [done|]. rewrite Et.
      do 3 right. by left. }
  assert (Hsimple : forall keep out, Type_ step ∈ open_ended ->
    simple_iteration rp step keep out l w = (w', inl l') -> moved step l l').
  { intros keep out Hin [[Ht|Ht] Hg]%simple_iteration_inl; (apply moved_intro; [done|done|]).
    - by left.
    - by apply success_target. }
  destruct (bool_decide_reflect (Type_ step = "spawn_project")) as [Et|_].
  { apply Hsimple. rewrite Et. by left. }
  destruct (bool_decide_reflect (Type_ step = "call_project")) as [Et|_].
  { unfold call_project_iteration. destruct (rp_call rp) as [[body reason]|err].
    - by destruct (saveCheckpoint _ _ _ _ _) as [[]].
    - intros [Ht Hg]%route_on_fail_inl; [|done]. apply moved_intro; [done|done|by left]. }
  destruct (bool_decide_reflect (Type_ step = "a2a_call")) as [Et|_].
  { apply Hsimple. rewrite Et. right. by left. }
  destruct (bool_decide_reflect (Type_ step = "system")) as [Et|_]; [|done].
  apply Hsimple. rewrite Et. do 2 right. by left.
Qed.

(** Why an iteration returned. *)
Definition step_failure (step : WorkflowStep) (a : Attempt) : Prop :=
  match at_err a with
  | None => False
  | Some (ErrStepNotFound _ | ErrTooManyIterations _ | ErrTooManyVisits _ _ _
         | ErrTerminalFailed _ _ | ErrTerminalCancelled _ | ErrTerminalUnsupported _) => False
  | Some (ErrNotImplemented t) => t = Type_ step /\ t ∉ validTypes
  | Some _ => True
  end.

Lemma route_on_fail_inr rp step err msg body keep f l w w' a :
  (forall l0, step_failure step (mkAttempt "" "" l0 (Some err))) ->
  route_on_fail rp step err msg body keep f l w = (w', inr a) -> step_failure step a.
Proof.
  intros Hf. unfold route_on_fail. destruct (OnFail step =?? ""); [by intros [= _ <-]|].
  destruct (rp_shutdown rp); [by intros [= _ <-]|].
  destruct (saveCheckpoint _ _ _ _ _) as [[]]; [by intros [= _ <-]|done].
Qed.

Lemma advance_inr step rp next l w w' a :
  advance rp next l w = (w', inr a) -> step_failure step a.
Proof. unfold advance. destruct (saveCheckpoint _ _ _ _ _) as [[]]; [by intros [= _ <-]|done]. Qed.

Lemma pauses_failure rp step handled r l w w' a :
  (handleSelectedWorkflowRoute plan rp handled r l w = Some (w', inr a) \/
   handleDelegatedTasks rp (DelegatedWorkflow step) r l w = Some (w', inr a)) -> step_failure step a.
Proof.
  intros [Hs|Hs].
  - unfold handleSelectedWorkflowRoute, return_err in Hs. repeat case_match; by simplify_eq.
  - unfold handleDelegatedTasks, return_err in Hs. repeat case_match; by simplify_eq.
Qed.

Lemma agent_next_err rp step bytes l err :
  agent_next rp step bytes l = Err err -> forall l0, step_failure step (mkAttempt "" "" l0 (Some err)).
Proof.
  unfold agent_next, res_bind. intros Hn l0. repeat case_match; by simplify_eq.
Qed.

Lemma agent_iteration_inr rp step l w w' a :
  agent_step_iteration plan rp step l w = (w', inr a) -> step_failure step a.
Proof.
  unfold agent_step_iteration. destruct (resolveResumeGuard _ _ _) as [handled childFailed].
  destruct (handled && childFailed).
  { destruct (OnFail step =?? ""); [by intros [= _ <-]|done]. }
  destruct (dispatchAgentStep _ _ _ _) as [[cid bytes]|err].
  - unfold agent_done. match goal with |- context [match ?m with Some out => out | None => _ end] =>
      destruct m as [out|] eqn:Ep end.
    + intros ->. destruct (if bytes =?? "" then None else unmarshal_result bytes) as [r|]; [|done].
      destruct (handleSelectedWorkflowRoute _ _ _ _ _ _) as [out'|] eqn:Es.
      * injection Ep as ->. eapply (pauses_failure rp step); by left.
      * eapply (pauses_failure rp step handled); by right.
    + destruct (agent_next _ _ _ _) as [[next l1]|e] eqn:En; [by intros ?%(advance_inr step)|].
      intros [= _ <-]. by eapply agent_next_err.
  - destruct (se_terminalVerifier err); [by intros [= _ <-]|]. by apply route_on_fail_inr.
Qed.

Lemma runGateStep_err step state err :
  runGateStep step state = Err err -> exists e, err = ErrGate e.
Proof. unfold runGateStep. intros Hg. repeat case_match; simplify_eq; eauto. Qed.

Lemma simple_iteration_inr rp step keep out l w w' a :
  (forall err msg body, out = Err (err, msg, body) ->
     forall l0, step_failure step (mkAttempt "" "" l0 (Some err))) ->
  simple_iteration rp step keep out l w = (w', inr a) -> step_failure step a.
Proof.
  intros Ho. unfold simple_iteration. destruct out as [body|[[err msg] body]].
  - apply advance_inr.
  - apply route_on_fail_inr. by eapply Ho.
Qed.

Lemma dispatch_failure rp step l w w' a :
  dispatch plan rp step l w = (w', inr a) -> step_failure step a.
Proof.
  unfold dispatch.
  destruct (bool_decide_reflect (Type_ step = "agent")) as [_|T1]; [apply agent_iteration_inr|].
  destruct (bool_decide_reflect (Type_ step = "gate")) as [_|T2].
  { destruct (runGateStep _ _) as [next|e] eqn:Eg; [apply advance_inr|].
    destruct (runGateStep_err _ _ _ Eg) as [g ->]. by intros [= _ <-]. }
  destruct (bool_decide_reflect (Type_ step = "approval")) as [_|T3].
  { unfold runApprovalStep. destruct (_ =?? l_current l).
    - destruct (OnSuccess step =?? ""); [by intros [= _ <-]|apply advance_inr].
    - destruct (saveExecutionState _ _ _) as [[]]; by intros [= _ <-]. }
  destruct (bool_decide_reflect (Type_ step = "plan")) as [_|T4].
  { unfold plan_iteration. destruct (pl_outcome _) as [[cid bytes]|err]; [apply advance_inr|].
    destruct (se_leadHandoff err); [by intros [= _ <-]|]. by apply route_on_fail_inr. }
  destruct (bool_decide_reflect (Type_ step = "spawn_project")) as [_|T5].
  { apply simple_iteration_inr. unfold spawn_outcome. intros err msg body Ho.
    by destruct (rp_spawn rp); simplify_eq. }
  destruct (bool_decide_reflect (Type_ step = "call_project")) as [_|T6].
  { unfold call_project_iteration. destruct (rp_call rp) as [[body reason]|err].
    - destruct (saveCheckpoint _ _ _ _ _) as [[]]; by intros [= _ <-].
    - by apply route_on_fail_inr. }
  destruct (bool_decide_reflect (Type_ step = "a2a_call")) as [_|T7].
  { apply simple_iteration_inr. unfold a2a_outcome. intros err msg body Ho.
    by destruct (rp_a2a rp) as [|[]]; simplify_eq. }
  destruct (bool_decide_reflect (Type_ step = "system")) as [_|T8].
  { apply simple_iteration_inr. unfold system_outcome. intros err msg body Ho.
    by destruct (rp_system rp) as [[]|]; simplify_eq. }
  intros [= _ <-]. split; [done|]. unfold validTypes. rewrite !elem_of_cons, elem_of_nil. naive_solver.
Qed.

(** ** The head of an iteration *)

Lemma enter_inl l l' step :
  enter plan l = inl (l', step) ->
  wf_Terminals wf !! l_current l = None /\ wf_Steps wf !! l_current l = Some step /\
  l_current l' = l_current l /\ l_iterations l' = l_iterations l + 1 /\
  l_iterations l' <= maxIterations plan /\
  visits l' (l_current l) = visits l (l_current l) + 1 /\
  visits l' (l_current l) <= maxVisits plan /\
  (forall id, id <> l_current l -> visits l' id = visits l id) /\
  ApprovalGrantedStep (l_state l') = ApprovalGrantedStep (l_state l).
Proof.
  unfold enter, wf, workflow. destruct (wf_Terminals _ !! _); [done|].
  destruct (wf_Steps _ !! _) as [s|]; [|done].
  destruct (Z.ltb_spec (maxIterations plan) (l_iterations l + 1)); [done|].
  destruct (Z.ltb_spec (maxVisits plan) (visits l (l_current l) + 1)); [done|].
  intros [= <- <-].
  assert (Hv : default 0%Z (<[l_current l:=(visits l (l_current l) + 1)%Z]> (l_visits l) !! l_current l)
               = visits l (l_current l) + 1) by (by rewrite lookup_insert_eq).
  split_and!; try done.
  - unfold visits at 1. simpl. by rewrite Hv.
  - intros id Hid. unfold visits at 1. simpl. by rewrite lookup_insert_ne.
Qed.

(** Why the head of an iteration ends the attempt. *)
Lemma enter_inr l a :
  enter plan l = inr a ->
  (exists terminal, wf_Terminals wf !! l_current l = Some terminal /\
     (at_err a = None <-> t_Status terminal = "COMPLETED")) \/
  (is_Some (wf_Steps wf !! l_current l) /\
     ((at_err a = Some (ErrTooManyIterations (maxIterations plan)) /\
         maxIterations plan <= l_iterations l) \/
      (exists v, at_err a = Some (ErrTooManyVisits (l_current l) v (maxVisits plan)) /\
         maxVisits plan < v))) \/
  (~ known wf (l_current l) /\ at_err a = Some (ErrStepNotFound (l_current l))).
Proof.
  unfold enter, wf, workflow. destruct (wf_Terminals _ !! _) as [t|] eqn:Et.
  { intros [= <-]. left. exists t. split; [done|]. unfold resolveTerminalOutcome.
    destruct (bool_decide_reflect (t_Status t = "COMPLETED")) as [H|H]; [by rewrite H|].
    split; [|done]. by repeat case_match. }
  destruct (wf_Steps _ !! _) as [s|] eqn:Es.
  - intros H. right. left. split; [done|].
    destruct (Z.ltb_spec (maxIterations plan) (l_iterations l + 1)).
    { injection H as <-. left. split; [done|lia]. }
    destruct (Z.ltb_spec (maxVisits plan) (visits l (l_current l) + 1)); [|done].
    injection H as <-. right. by eexists.
  - intros [= <-]. right. right. split; [|done]. intros [[? H]|[? H]]; congruence.
Qed.

End Facts.
