(* ===== verification/EngineRuns.v ===== *)
(** * Whole attempts of the workflow engine

    One attempt of [Engine], for every behaviour of the outside: it ends, it
    walks the workflow graph, and it passes an approval only if granted. *)
From S2P Require Import Prelude GoStrings TaskModel Workflow WorkflowFacts Gates Engine EngineFacts.
Open Scope string_scope.

(** ** The abstract walk

    A run of a workflow [w] from [a] follows transitions through steps. *)
Inductive chain (w : Workflow) : string -> list string -> string -> Prop :=
| chain_nil a : chain w a [] a
| chain_cons a b c t :
    wf_Terminals w !! a = None -> edge w a b -> chain w b t c -> chain w a (a :: t) c.

(** How a run that reached the node [c] ended, and with what trace [t]. *)
Inductive run_ends (plan : Plan) (c : string) : list string -> Attempt -> Prop :=
| ends_terminal terminal a :
    wf_Terminals (pn_workflow plan) !! c = Some terminal ->
    (at_err a = None <-> t_Status terminal = "COMPLETED") -> run_ends plan c [] a
| ends_iterations a :
    is_Some (wf_Steps (pn_workflow plan) !! c) ->
    at_err a = Some (ErrTooManyIterations (maxIterations plan)) -> run_ends plan c [] a
| ends_visits a v :
    is_Some (wf_Steps (pn_workflow plan) !! c) ->
    at_err a = Some (ErrTooManyVisits c v (maxVisits plan)) -> run_ends plan c [] a
| ends_step step a :
    wf_Terminals (pn_workflow plan) !! c = None ->
    wf_Steps (pn_workflow plan) !! c = Some step -> step_failure step a ->
    (forall t, at_err a <> Some (ErrNotImplemented t)) -> run_ends plan c [c] a
| ends_dead_end step a :
    wf_Terminals (pn_workflow plan) !! c = None ->
    wf_Steps (pn_workflow plan) !! c = Some step ->
    OnSuccess step = "" -> Type_ step ∈ ["spawn_project"; "a2a_call"; "system"] ->
    at_err a = Some (ErrStepNotFound "") -> run_ends plan c [c] a.

(** Occurrences of a step in a trace. *)
Definition times (id : string) (trace : list string) : Z :=
  Z.of_nat (length (List.filter (fun x => x =?? id) trace)).

Lemma times_cons id x t : times id (x :: t) = times id t + (if decide (x = id) then 1 else 0).
Proof.
  unfold times. simpl. destruct (bool_decide_reflect (x = id)), (decide (x = id)); try done; simpl; lia.
Qed.

Lemma times_nonneg id t : 0 <= times id t.
Proof. unfold times. lia. Qed.

Section Runs.
Context {JN : JsonNumbers} {JU : JsonUnmarshal} {RC : ResultCodec} (plan : Plan).
Let wf := pn_workflow plan.

(** Induction over the loop: an attempt ends at the head of an iteration, waits
    there for a report, returns from a step, or goes on. *)
Lemma run_loop_ind (P : list Report -> Loop -> list string -> Loop + Attempt -> Prop) :
  (forall reports l a, enter plan l = inr a -> P reports l [] (inr a)) ->
  (forall l l' step, enter plan l = inl (l', step) -> P [] l [] (inl l)) ->
  (forall rp reports l l' step w w' a, enter plan l = inl (l', step) ->
     dispatch plan rp step l' w = (w', inr a) -> P (rp :: reports) l [l_current l] (inr a)) ->
  (forall rp reports l l' step w w' l'' trace out, enter plan l = inl (l', step) ->
     dispatch plan rp step l' w = (w', inl l'') ->
     P reports l'' trace out -> P (rp :: reports) l (l_current l :: trace) out) ->
  forall reports l w trace w' out,
    run_loop plan reports l w = (trace, w', out) -> P reports l trace out.
Proof.
  intros H1 H2 H3 H4. induction reports as [|rp reports IH]; intros l w trace w' out; simpl.
  - destruct (enter plan l) as [[l' step]|a] eqn:Ee; intros [= <- _ <-]; eauto.
  - destruct (enter plan l) as [[l' step]|a] eqn:Ee; [|intros [= <- _ <-]; eauto].
    destruct (dispatch plan rp step l' w) as [w1 [l''|a]] eqn:Ed; [|intros [= <- _ <-]; eauto].
    destruct (run_loop plan reports l'' w1) as [[tr w2] o] eqn:Er. intros [= <- _ <-]. eauto.
Qed.

(** ** Termination *)

(** C30: the loop guards bound every attempt, whatever the agents answer.  With
    the iteration counter of its checkpoint at [n], an attempt dispatches at
    most [max_iterations - n] steps, so it has returned once it got that many
    reports; and a step visited [v] times before is dispatched at most
    [max_step_visits - v] times more, except plan steps, whose visits the code
    does not count. *)
Theorem attempt_terminates fault reports w trace w' out :
  executeWorkflowAttempt plan fault reports w = (trace, w', out) ->
  let state := loadExecutionState (w_execution w) in
  Z.of_nat (length trace) <= Z.max 0 (maxIterations plan - Iterations state) /\
  (maxIterations plan - Iterations state <= Z.of_nat (length reports) -> exists a, out = inr a) /\
  (forall id step, wf_Steps wf !! id = Some step -> Type_ step <> "plan" ->
     times id trace <= Z.max 0 (maxVisits plan - default 0 (VisitCounts state !! id))).
Proof.
  unfold executeWorkflowAttempt. intros Hr. cbv zeta.
  change (Iterations (loadExecutionState (w_execution w)))
    with (l_iterations (start_loop plan (w_execution w))).
  change (VisitCounts (loadExecutionState (w_execution w)))
    with (l_visits (start_loop plan (w_execution w))).
  revert Hr. generalize (publish_start plan fault (start_loop plan (w_execution w)) w).
  generalize (start_loop plan (w_execution w)). intros l w0.
  change (default 0 (l_visits l !! ?id)) with (visits l id). clear w. revert reports l w0 trace w' out.
  apply (run_loop_ind (fun reports l trace out =>
    Z.of_nat (length trace) <= Z.max 0 (maxIterations plan - l_iterations l) /\
    (maxIterations plan - l_iterations l <= Z.of_nat (length reports) -> exists a, out = inr a) /\
    (forall id step, wf_Steps wf !! id = Some step -> Type_ step <> "plan" ->
       times id trace <= Z.max 0 (maxVisits plan - visits l id)))).
  - intros reports l a _. split_and!; [simpl; lia|eauto|]. intros id step _ _. unfold times. simpl. lia.
  - intros l l' step (_ & _ & _ & H1 & H2 & _)%enter_inl. split_and!; [simpl; lia|simpl; lia|].
    intros id s _ _. unfold times. simpl. lia.
  - intros rp reports l l' step w1 w2 a (_ & Hs & _ & H1 & H2 & H3 & H4 & _)%enter_inl _.
    split_and!; [simpl; lia|eauto|]. intros id s _ _. rewrite times_cons. unfold times at 1. simpl.
    destruct (decide _) as [<-|]; lia.
  - intros rp reports l l' step w1 w2 l'' trace out (_ & Hs & Hc & H1 & H2 & H3 & H4 & H5 & _)%enter_inl
      [M1 M2 _ _ _]%dispatch_moved (I1 & I2 & I3).
    split_and!; [simpl; lia|intros H; apply I2; simpl in H; lia|].
    intros id s Hid Hp. rewrite times_cons. specialize (I3 id s Hid Hp).
    rewrite M2 in I3 by (destruct (decide (id = l_current l)) as [->|Hne];
      [right; unfold wf in *; congruence|left; congruence]).
    destruct (decide _) as [<-|Hne]; [lia|]. rewrite H5 in I3 by done. lia.
Qed.

(** ** The walk *)

Lemma not_open_ended_end step :
  step_ok wf step -> OnSuccess step = "" -> Type_ step ∈ open_ended ->
  Type_ step ∈ ["spawn_project"; "a2a_call"; "system"].
Proof.
  intros Hok Hs. unfold open_ended. rewrite !elem_of_cons. intros [?|[?|[?|[Ht|?]]]]; auto.
  by destruct (so_plan _ _ Hok Ht).
Qed.

(** In a valid workflow no transition leads to the empty name. *)
Lemma empty_not_step : well_formed wf -> wf_Steps wf !! "" = None.
Proof.
  intros Hwf. destruct (wf_Steps wf !! "") as [s|] eqn:Es; [|done]. exfalso.
  assert (Hin : exists a, edge wf a "").
  { assert (Hr := wfd_reachable _ Hwf "" ltac:(by exists s)).
    apply rtc_inv_r in Hr as [He|(a & _ & He)]; [|by exists a].
    by destruct (wfd_entry _ Hwf). }
  destruct Hin as (a & step & Ha & Ht). pose proof (wfd_steps _ Hwf a step Ha) as Hok.
  unfold targets, nonempty in Ht. rewrite !elem_of_app in Ht.
  destruct Ht as [Ht|[Ht|(g & Hg & Hin)%list_elem_of_fmap]].
  - destruct (bool_decide_reflect (OnSuccess step = "")); set_solver.
  - destruct (bool_decide_reflect (OnFail step = "")); set_solver.
  - destruct (so_gates _ _ Hok g Hin) as [_ Hne]. congruence.
Qed.

Lemma empty_not_known :
  well_formed wf -> wf_Terminals wf !! "" = None -> ~ known wf "".
Proof. intros Hwf Ht [[s H]|[s H]]; [|congruence]. by rewrite empty_not_step in H. Qed.

(** What a run from [l] with the trace and the result given does: from a node it
    walks the graph, and from the empty name it fails at once. *)
Definition walks (l : Loop) (trace : list string) (out : Loop + Attempt) : Prop :=
  forall a, out = inr a ->
  (known wf (l_current l) -> exists t c t', trace = (t ++ t')%list /\
     chain wf (l_current l) t c /\ run_ends plan c t' a) /\
  (l_current l = "" -> trace = [] /\ at_err a = Some (ErrStepNotFound "")).

Lemma walks_enter l a :
  ~ known wf "" -> enter plan l = inr a -> walks l [] (inr a).
Proof.
  intros Hno He a' [= <-]. apply enter_inr in He. split.
  - intros Hk. exists [], (l_current l), []. split; [done|]. split; [constructor|].
    destruct He as [(t & Ht & H)|[(Hs & [[H _]|(v & H & _)])|[H _]]]; [| | |done].
    + by eapply ends_terminal.
    + by eapply ends_iterations.
    + by eapply ends_visits.
  - intros He0. split; [done|]. rewrite He0 in He.
    destruct He as [(t & Ht & H)|[(Hs & _)|[_ H]]]; [| |done]; destruct Hno;
      [right; by exists t|by left].
Qed.

Lemma walks_return l l' step rp w w' a :
  well_formed wf -> ~ known wf "" -> enter plan l = inl (l', step) ->
  dispatch plan rp step l' w = (w', inr a) -> walks l [l_current l] (inr a).
Proof.
  intros Hwf Hno (Ht & Hs & _)%enter_inl Hd%dispatch_failure a' [= <-]. split.
  - intros _. exists [], (l_current l), [l_current l]. split; [done|]. split; [constructor|].
    eapply ends_step; [exact Ht|exact Hs|exact Hd|]. intros t Herr. unfold step_failure in Hd.
    rewrite Herr in Hd. destruct Hd as [-> Hty]. apply Hty.
    by apply (so_type wf), (wfd_steps _ Hwf _ _ Hs).
  - intros He0. destruct Hno. rewrite <- He0. left. by exists step.
Qed.

Lemma walks_cons l l' step rp w w' l'' trace out :
  well_formed wf -> ~ known wf "" -> enter plan l = inl (l', step) ->
  dispatch plan rp step l' w = (w', inl l'') -> walks l'' trace out ->
  walks l (l_current l :: trace) out.
Proof.
  intros Hwf Hno (Ht & Hs & _)%enter_inl [_ _ Htgt _ _]%dispatch_moved IH a ->.
  pose proof (wfd_steps _ Hwf _ _ Hs) as Hok. destruct (IH a eq_refl) as [IH1 IH2].
  split; [|intros He0; destruct Hno; rewrite <- He0; left; by exists step]. intros _.
  destruct Htgt as [Htgt|(Hc' & Hsucc & Hty)].
  - destruct IH1 as (t & c & t' & -> & Hch & He); [by apply (so_targets _ _ Hok)|].
    exists (l_current l :: t), c, t'. split; [done|]. split; [|done].
    econstructor; [done|by exists step|done].
  - destruct (IH2 Hc') as [-> He].
    exists [], (l_current l), [l_current l]. split; [done|]. split; [constructor|].
    eapply ends_dead_end; [exact Ht|exact Hs|exact Hsucc| |exact He].
    by apply not_open_ended_end.
Qed.

(** C13: the loop refines the walk of the graph.  An attempt at a valid workflow,
    from a node of it, follows transitions of the graph and ends at a terminal,
    without an error exactly if the terminal is COMPLETED; or at a step at which
    a loop guard trips; or because its last step failed or paused; or because
    its last step was a [spawn_project], [a2a_call] or [system] step without
    [on_success], which the validator accepts.  No other step or transition is
    ever missing and no step type unknown. *)
Theorem attempt_refines_walk fault reports w trace w' a :
  well_formed wf -> wf_Terminals wf !! "" = None ->
  known wf (l_current (start_loop plan (w_execution w))) ->
  executeWorkflowAttempt plan fault reports w = (trace, w', inr a) ->
  exists t c t', trace = (t ++ t')%list /\
    chain wf (l_current (start_loop plan (w_execution w))) t c /\ run_ends plan c t' a.
Proof.
  intros Hwf Hempty Hk Hr. pose proof (empty_not_known Hwf Hempty) as Hno.
  eapply (run_loop_ind (fun _ l trace out => walks l trace out)); [..|exact Hr|done|exact Hk].
  - intros. by apply walks_enter.
  - done.
  - intros. by eapply walks_return.
  - intros. by eapply walks_cons.
Qed.

(** ** Approvals *)

Definition approves (id : string) : Prop :=
  exists step, wf_Steps wf !! id = Some step /\ Type_ step = "approval".

(** The run went on after the last step before [t2]: that step did not end it. *)
Definition passed (t2 : list string) (out : Loop + Attempt) : Prop :=
  t2 = [] -> forall a step, out = inr a -> ~ step_failure step a.

(** What an approval step in the trace of a run from [l] tells. *)
Definition granted (l : Loop) (trace : list string) (out : Loop + Attempt) : Prop :=
  forall t1 s t2, trace = (t1 ++ s :: t2)%list -> approves s -> s <> "" -> passed t2 out ->
  ApprovalGrantedStep (l_state l) = s /\ Forall (fun id => ~ approves id) t1.

Lemma granted_cons l l' step rp w w' l'' trace out :
  enter plan l = inl (l', step) -> dispatch plan rp step l' w = (w', inl l'') ->
  granted l'' trace out -> granted l (l_current l :: trace) out.
Proof.
  intros (Ht & Hs & Hc & _ & _ & _ & _ & _ & Hg)%enter_inl [_ _ _ M1 M2]%dispatch_moved IH.
  rewrite Hg in M1, M2. rewrite Hc in M2. intros [|x t1] s t2; simpl.
  - intros [= <- ->] (step' & Hs' & Hty) Hne Hp. split; [|constructor]. apply M2.
    unfold wf in *. congruence.
  - intros [= <- ->] Ha Hne Hp. destruct (IH t1 s t2 eq_refl Ha Hne Hp) as [HG HF].
    split; [by destruct M1; congruence|]. constructor; [|done].
    intros (step' & Hs' & Hty). destruct M2 as [_ M2]; [unfold wf in *; congruence|]. congruence.
Qed.

(** C17: an approval step is passed only with the operator's grant.  If an attempt
    goes beyond an approval step [s], the checkpoint it started from carried the
    grant of [s], and [s] is the first approval of the attempt; so one grant
    never passes two approvals, nor the same approval twice, whatever the steps
    in between answer. *)
Theorem approval_needs_grant fault reports w t1 s t2 w' out :
  executeWorkflowAttempt plan fault reports w = ((t1 ++ s :: t2)%list, w', out) ->
  approves s -> s <> "" -> passed t2 out ->
  ApprovalGrantedStep (loadExecutionState (w_execution w)) = s /\
  Forall (fun id => ~ approves id) t1.
Proof.
  intros Hr Ha Hne Hp.
  assert (HG : granted (start_loop plan (w_execution w)) (t1 ++ s :: t2)%list out);
    [|by apply (HG t1 s t2)]. clear Ha Hne Hp.
  eapply (run_loop_ind (fun _ l trace out => granted l trace out)); [..|exact Hr].
  - intros _ l a _ [|x t] s' t3; discriminate.
  - intros l l' step _ [|x t] s' t3; discriminate.
  - intros rp _ l l' step w1 w2 a _ Hd%dispatch_failure [|x t] s' t3 [= _ E] _ _ Hp.
    + by destruct (Hp (eq_sym E) a step eq_refl).
    + by destruct t.
  - intros. by eapply granted_cons.
Qed.

End Runs.
