(* ===== verification/EngineScenarios.v ===== *)
(** * Pauses, resumes and dead ends of the workflow engine

    How attempts of one execution compose across a pause, and concrete runs of
    the engine, with a decoder for a handful of result texts. *)
From S2P Require Import Prelude GoStrings TaskModel Workflow WorkflowFacts Gates GatesFacts Engine EngineFacts EngineRuns.
Open Scope string_scope.

Section Attempts.
Context {JN : JsonNumbers} {JU : JsonUnmarshal} {RC : ResultCodec} (plan : Plan).
Let wf := pn_workflow plan.

(** The execution is about to dispatch the step [id], of the type given. *)
Record at_step (w : World) (id ty : string) (step : WorkflowStep) : Prop := {
  as_current : ex_CurrentStepID (w_execution w) = Some id;
  as_named : id <> "";
  as_terminal : wf_Terminals wf !! id = None;
  as_step : wf_Steps wf !! id = Some step;
  as_type : Type_ step = ty;
  as_iterations : Iterations (loadExecutionState (w_execution w)) < maxIterations plan;
  as_visits : default 0 (VisitCounts (loadExecutionState (w_execution w)) !! id) < maxVisits plan
}.

(** The loop after the guards let it in. *)
Definition entered (l : Loop) : Loop :=
  let iterations := l_iterations l + 1 in
  let counts := <[l_current l := visits l (l_current l) + 1]> (l_visits l) in
  l <| l_iterations := iterations |> <| l_visits := counts |>
    <| l_state := (l_state l) <| Iterations := iterations |> <| VisitCounts := counts |> |>.

Lemma start_from e id :
  ex_CurrentStepID e = Some id -> id <> "" -> l_current (start_loop plan e) = id.
Proof. intros Hc Hn. unfold start_loop. simpl. rewrite Hc. by rewrite bool_decide_false. Qed.

Lemma start_at w id ty step :
  at_step w id ty step -> l_current (start_loop plan (w_execution w)) = id.
Proof. intros Hat. apply start_from; apply Hat. Qed.

Lemma enter_at w id ty step :
  at_step w id ty step ->
  enter plan (start_loop plan (w_execution w)) =
  inl (entered (start_loop plan (w_execution w)), step).
Proof.
  intros Hat. pose proof (start_at _ _ _ _ Hat) as Hs. destruct Hat as [_ _ Ht Hst _ Hi Hv].
  unfold enter. rewrite Hs. unfold wf in *. unfold workflow. rewrite Ht, Hst.
  change (l_iterations _) with (Iterations (loadExecutionState (w_execution w))).
  rewrite (proj2 (Z.ltb_ge _ _)) by lia.
  unfold visits. change (l_visits _) with (VisitCounts (loadExecutionState (w_execution w))).
  rewrite (proj2 (Z.ltb_ge _ _)) by lia. unfold entered. by rewrite Hs.
Qed.

(** A state saved with its position is the state the next attempt loads. *)
Lemma load_saved c st :
  CurrentStepID st <> "" -> loadExecutionState (mkExecution c (CompletedSteps st) (Some st)) = st.
Proof.
  intros Hc. unfold loadExecutionState. simpl. rewrite (bool_decide_false (CurrentStepID st = "")) by done.
  destruct (bool_decide_reflect (CompletedSteps st = [])) as [E|]; [|done].
  destruct st. simpl in *. by subst.
Qed.

Definition paused_state (l : Loop) : executionState :=
  (l_state l) <| CurrentStepID := l_current l |> <| CompletedSteps := l_completed l |>
    <| ApprovalPendingStep := l_current l |> <| PausedReason := PauseReasonOperator |>.

Lemma approval_pauses rp step l w :
  Type_ step = "approval" -> ApprovalGrantedStep (l_state l) <> l_current l ->
  l_current l <> "" -> rp_save rp = None ->
  exists w1, dispatch plan rp step l w =
      (w1, inr (mkAttempt "" "" (l_completed l) (Some ErrExecutionPaused))) /\
    w_execStatus w1 = ExecutionStatusPaused /\
    w_row w1 = mkExecution (Some (l_current l)) (CompletedSteps (paused_state l))
                 (Some (paused_state l)).
Proof.
  intros Ht Hg Hc Hs. unfold dispatch. rewrite Ht. simpl. unfold runApprovalStep.
  rewrite (bool_decide_false (ApprovalGrantedStep _ = _)) by done.
  unfold saveExecutionState. rewrite Hs. simpl.
  rewrite (bool_decide_false (l_current l = "")) by done. by eexists.
Qed.

Definition granted_state (st : executionState) : executionState :=
  st <| ApprovalGrantedStep := ApprovalPendingStep st |> <| ApprovalPendingStep := "" |>
     <| PausedReason := "" |>.

Lemma resume_grants w st :
  w_execStatus w = ExecutionStatusPaused ->
  w_row w = mkExecution (Some (CurrentStepID st)) (CompletedSteps st) (Some st) ->
  CurrentStepID st <> "" -> ApprovalPendingStep st <> "" ->
  exists w2, Resume w = Some w2 /\
    w_execution w2 = mkExecution (Some (CurrentStepID st)) (CompletedSteps st)
                       (Some (granted_state st)).
Proof.
  intros Hst Hrow Hc Hp. unfold Resume. rewrite Hst. simpl. rewrite Hrow, load_saved by done.
  rewrite (bool_decide_false (ApprovalPendingStep st = "")) by done. simpl.
  rewrite (bool_decide_false (CurrentStepID st = "")) by done. by eexists.
Qed.

Lemma load_granted c st :
  CurrentStepID st <> "" ->
  loadExecutionState (mkExecution c (CompletedSteps st) (Some (granted_state st))) = granted_state st.
Proof. intros Hc. by apply (load_saved c (granted_state st)). Qed.

Lemma run_loop_ends reports l w a :
  enter plan l = inr a -> run_loop plan reports l w = ([], w, inr a).
Proof. intros He. by destruct reports; simpl; rewrite He. Qed.

Lemma run_loop_returns rp reports l l' step w w' a :
  enter plan l = inl (l', step) -> dispatch plan rp step l' w = (w', inr a) ->
  run_loop plan (rp :: reports) l w = ([l_current l], w', inr a).
Proof. intros He Hd. simpl. by rewrite He, Hd. Qed.

Lemma enter_too_many_visits l step :
  wf_Terminals wf !! l_current l = None -> wf_Steps wf !! l_current l = Some step ->
  l_iterations l < maxIterations plan -> visits l (l_current l) = maxVisits plan ->
  enter plan l = inr (mkAttempt "" "" (l_completed l)
    (Some (ErrTooManyVisits (l_current l) (maxVisits plan + 1) (maxVisits plan)))).
Proof.
  intros Ht Hs Hi Hv. unfold enter, wf, workflow in *. rewrite Ht, Hs, Hv.
  rewrite (proj2 (Z.ltb_ge _ _)) by lia. by rewrite (proj2 (Z.ltb_lt _ _)) by lia.
Qed.

(** Passing an approval takes two visits of its step.  An attempt that
    reaches an approval step it has no grant for pauses there, with the visit
    already counted; [Resume] grants it, and the next attempt visits the step
    again.  If the first visit was the last [max_step_visits] allows (as it is
    when the cap is 1), the approved execution fails with the rework-loop error
    before the step is dispatched. *)
Theorem approval_takes_two_visits rp reports w id step :
  at_step w id "approval" step ->
  default 0 (VisitCounts (loadExecutionState (w_execution w)) !! id) = maxVisits plan - 1 ->
  Iterations (loadExecutionState (w_execution w)) < maxIterations plan - 1 ->
  ApprovalGrantedStep (loadExecutionState (w_execution w)) <> id -> rp_save rp = None ->
  exists w1 a w2 w3 b,
    executeWorkflowAttempt plan None [rp] w = ([id], w1, inr a) /\
    at_err a = Some ErrExecutionPaused /\
    Resume w1 = Some w2 /\ ApprovalGrantedStep (loadExecutionState (w_execution w2)) = id /\
    executeWorkflowAttempt plan None reports w2 = ([], w3, inr b) /\
    at_err b = Some (ErrTooManyVisits id (maxVisits plan + 1) (maxVisits plan)).
Proof.
  intros Hat Hv Hi Hg Hsave. set (l := entered (start_loop plan (w_execution w))).
  pose proof (start_at _ _ _ _ Hat) as Hs. pose proof (as_named _ _ _ _ Hat) as Hn.
  assert (Hl : l_current l = id) by exact Hs.
  destruct (approval_pauses rp step l (publish_start plan None (start_loop plan (w_execution w)) w))
    as (w1 & Hd & Hst & Hrow); [by apply (as_type _ _ _ _ Hat)|rewrite Hl; exact Hg|by rewrite Hl|done|].
  destruct (resume_grants w1 (paused_state l)) as (w2 & Hr & Hex); [exact Hst|exact Hrow|by rewrite <- Hl in Hn|by rewrite <- Hl in Hn|].
  assert (Hload : loadExecutionState (w_execution w2) = granted_state (paused_state l)).
  { rewrite Hex. apply load_granted. by rewrite <- Hl in Hn. }
  assert (Hstart : l_current (start_loop plan (w_execution w2)) = id).
  { apply start_from; [|done]. rewrite Hex. exact (f_equal Some Hl). }
  assert (Hvis : VisitCounts (granted_state (paused_state l))
                 = <[id := maxVisits plan]> (VisitCounts (loadExecutionState (w_execution w)))).
  { change (VisitCounts (granted_state (paused_state l))) with
      (<[l_current l := default 0 (VisitCounts (loadExecutionState (w_execution w)) !! l_current l) + 1]>
         (VisitCounts (loadExecutionState (w_execution w)))).
    rewrite Hl, Hv. f_equal. lia. }
  exists w1. eexists. exists w2. do 2 eexists. split_and!.
  - unfold executeWorkflowAttempt. rewrite <- Hs.
    eapply run_loop_returns; [by eapply enter_at|exact Hd].
  - done.
  - exact Hr.
  - rewrite Hload. exact Hs.
  - unfold executeWorkflowAttempt. apply run_loop_ends, (enter_too_many_visits _ step).
    + rewrite Hstart. apply (as_terminal _ _ _ _ Hat).
    + rewrite Hstart. apply (as_step _ _ _ _ Hat).
    + change (l_iterations _) with (Iterations (loadExecutionState (w_execution w2))).
      rewrite Hload. simpl. lia.
    + rewrite Hstart. unfold visits.
      change (l_visits _) with (VisitCounts (loadExecutionState (w_execution w2))).
      rewrite Hload, Hvis, lookup_insert_eq. done.
  - by rewrite Hstart.
Qed.

(** A [call_project] step without [on_success], which the validator accepts,
    loses the position.  When the call was sent the attempt pauses with the step
    completed and a NULL step id in the row, so the next attempt that reads the
    row starts again at the entrypoint. *)
Theorem call_without_on_success_restarts fault rp w id step body reason :
  at_step w id "call_project" step -> OnSuccess step = "" ->
  rp_call rp = Ok (body, reason) -> rp_save rp = None ->
  exists w' a,
    executeWorkflowAttempt plan fault [rp] w = ([id], w', inr a) /\
    at_err a = Some ErrExecutionPaused /\ last (at_completed a) = Some id /\
    ex_CurrentStepID (w_row w') = None /\
    l_current (start_loop plan (w_row w')) = wf_Entrypoint wf.
Proof.
  intros Hat Hsucc Hcall Hsave. set (l := entered (start_loop plan (w_execution w))).
  pose proof (start_at _ _ _ _ Hat) as Hs.
  assert (Hd : exists w', dispatch plan rp step l
      (publish_start plan fault (start_loop plan (w_execution w)) w) =
      (w', inr (mkAttempt "" "" (l_completed l ++ [l_current l])%list (Some ErrExecutionPaused))) /\
    ex_CurrentStepID (w_row w') = None).
  { unfold dispatch. rewrite (as_type _ _ _ _ Hat). simpl. unfold call_project_iteration.
    rewrite Hcall, Hsucc. unfold saveCheckpoint, saveExecutionState. rewrite Hsave. by eexists. }
  destruct Hd as (w' & Hd & Hrow). exists w'. eexists. split_and!.
  - rewrite <- Hs. eapply run_loop_returns; [by eapply enter_at|exact Hd].
  - done.
  - simpl. rewrite last_snoc. exact (f_equal Some Hs).
  - done.
  - unfold start_loop. simpl. by rewrite Hrow.
Qed.

End Attempts.

(** ** A decoder for examples *)

#[local] Existing Instance example_numbers.
#[local] Existing Instance example_unmarshal.

#[local] Instance example_codec : ResultCodec := {|
  unmarshal_result s := Some (mkStepResult s [] "");
  marshal_route s := s |}.

Definition noPlan : PlanReport := mkPlanReport [] ([], 0) false (Ok ("", "")).

(** A report in which an agent answers [text] and all else succeeds. *)
Definition answer (text : string) : Report :=
  mkReport false None [] "" (Ok ("c1", text)) None (Ok ("", "")) (Ok ()) noPlan (Ok text)
    (Ok (text, "awaiting_callee")) (Ok text) [] (Some (Ok text)).

Definition start_world (current : string) (st : executionState) : World :=
  let e := mkExecution (Some current) [] (Some st) in
  mkWorld e e TaskStatusRunning ExecutionStatusRunning [].

(** The reviewer rejects once and then approves. *)
Definition review_plan : Plan := mkPlan review_workflow None 0.
Definition review_reports : list Report := [answer "v1"; answer "no"; answer "v2"; answer "yes"].

Definition steps_of (r : list string * World * (Loop + Attempt)) : list string := r.1.1.
Definition world_of (r : list string * World * (Loop + Attempt)) : World := r.1.2.
Definition attempt_of (r : list string * World * (Loop + Attempt)) : option Attempt :=
  match r.2 with inr a => Some a | inl _ => None end.

Definition review_run :=
  executeWorkflowAttempt review_plan None review_reports (start_world "implement" zeroState).

Lemma review_run_steps :
  steps_of review_run = ["implement"; "review"; "implement"; "review"].
Proof. vm_compute. reflexivity. Qed.

Lemma review_run_attempt :
  attempt_of review_run =
  Some (mkAttempt "c1" "yes" ["implement"; "review"; "implement"; "review"] None).
Proof. vm_compute. reflexivity. Qed.

(** An approval, then the publication, then a call whose answer nothing follows. *)
Definition approve_step : WorkflowStep :=
  mkStep "approval" "" "publish" "" [] "" "" "" "" "" "".
Definition announce_step : WorkflowStep :=
  mkStep "call_project" "" "" "failed" [] "" "" "news" "announce" "ack.v1" "".

Definition release_workflow (cap : Z) : Workflow := {|
  wf_ID := "release";
  wf_Description := "";
  wf_Entrypoint := "approve";
  wf_Steps := {[ "approve" := approve_step;
                 "publish" := mkStep "system" "" "announce" "failed" [] "forge.publish" "" "" "" "" "";
                 "announce" := mkStep "call_project" "" "" "failed" [] "" "" "news" "announce" "ack.v1" "" ]};
  wf_Terminals := {[ "failed" := mkTerminal "FAILED" "" false ]};
  wf_ResumeAfterChildren := false;
  wf_MaxStepVisits := cap;
  wf_MaxIterations := 0;
  wf_IngestInputArtifacts := false |}.

Definition release_plan (cap : Z) : Plan := mkPlan (release_workflow cap) None 0.

Lemma release_accepted cap :
  Validate (release_workflow cap) "release.md"
    (mkOrders ["publish"; "announce"; "approve"] ["failed"] ["approve"; "announce"; "publish"])
  = Some (Ok ()).
Proof. vm_compute. reflexivity. Qed.

Definition granted_world : World :=
  start_world "approve" (zeroState <| ApprovalGrantedStep := "approve" |>).
Definition release_run :=
  executeWorkflowAttempt (release_plan 3) None [answer "ok"; answer "ok"; answer "ok"] granted_world.

Lemma release_run_steps : steps_of release_run = ["approve"; "publish"; "announce"].
Proof. vm_compute. reflexivity. Qed.

Lemma review_bounds :
  maxIterations review_plan = 20 /\ maxVisits review_plan = 3 /\
  wf_Terminals (pn_workflow review_plan) !! "" = None /\
  wf_Steps (pn_workflow review_plan) !! "review" =
    Some (agent_step "reviewer" "" "failed"
            [mkGate "review.approved == true" "done"; mkGate "review.approved == false" "implement"]) /\
  is_Some (wf_Steps (pn_workflow review_plan) !! "implement").
Proof. split_and!; try (vm_compute; reflexivity). apply (bool_decide_unpack _). vm_compute. exact I. Qed.

Lemma split_run (r : list string * World * (Loop + Attempt)) a :
  attempt_of r = Some a -> r = (steps_of r, world_of r, inr a).
Proof. destruct r as [[t w] [l|b]]; [done|]. by intros [= <-]. Qed.

Lemma release_facts cap :
  wf_Terminals (release_workflow cap) !! "approve" = None /\
  wf_Steps (release_workflow cap) !! "approve" = Some approve_step /\
  wf_Terminals (release_workflow cap) !! "announce" = None /\
  wf_Steps (release_workflow cap) !! "announce" = Some announce_step.
Proof. split_and!; vm_compute; reflexivity. Qed.

(** ** The theorems at these runs *)

Example attempt_terminates_witness :
  Z.of_nat (length (steps_of review_run)) <= 20 /\ times "review" (steps_of review_run) <= 3.
Proof.
  destruct review_bounds as (B1 & B2 & _ & B4 & _).
  destruct (attempt_terminates review_plan None review_reports (start_world "implement" zeroState)
    _ _ _ (split_run _ _ review_run_attempt)) as (H1 & _ & H3).
  split; [rewrite B1 in H1; exact H1|].
  specialize (H3 "review" _ B4 ltac:(discriminate)). rewrite B2 in H3. exact H3.
Defined.

Example attempt_refines_walk_witness :
  exists t c t', steps_of review_run = (t ++ t')%list /\
    chain review_workflow "implement" t c /\
    run_ends review_plan c t'
      (mkAttempt "c1" "yes" ["implement"; "review"; "implement"; "review"] None).
Proof.
  destruct review_bounds as (_ & _ & B3 & _ & B5).
  exact (attempt_refines_walk review_plan None review_reports (start_world "implement" zeroState)
    _ _ _ review_well_formed B3 (or_introl B5) (split_run _ _ review_run_attempt)).
Defined.

Example approval_needs_grant_witness :
  ApprovalGrantedStep (loadExecutionState (w_execution granted_world)) = "approve".
Proof.
  refine (proj1 (approval_needs_grant (release_plan 3) None
    [answer "ok"; answer "ok"; answer "ok"] granted_world [] "approve" ["publish"; "announce"]
    (world_of release_run) release_run.2 _ _ _ _)).
  - fold release_run. rewrite <- (app_nil_l ("approve" :: _)), <- release_run_steps.
    by destruct release_run as [[]].
  - eexists. split; [apply release_facts|reflexivity].
  - discriminate.
  - discriminate.
Defined.

Example approval_takes_two_visits_witness :
  exists w1 a w2 w3 b,
    executeWorkflowAttempt (release_plan 1) None [answer "ok"] (start_world "approve" zeroState)
      = (["approve"], w1, inr a) /\
    at_err a = Some ErrExecutionPaused /\ Resume w1 = Some w2 /\
    ApprovalGrantedStep (loadExecutionState (w_execution w2)) = "approve" /\
    executeWorkflowAttempt (release_plan 1) None [] w2 = ([], w3, inr b) /\
    at_err b = Some (ErrTooManyVisits "approve" 2 1).
Proof.
  destruct (release_facts 1) as (F1 & F2 & _).
  refine (approval_takes_two_visits (release_plan 1) (answer "ok") []
    (start_world "approve" zeroState) "approve" approve_step _ _ _ _ eq_refl).
  - split; [reflexivity|discriminate|exact F1|exact F2|reflexivity|reflexivity|reflexivity].
  - reflexivity.
  - reflexivity.
  - discriminate.
Defined.

Example call_without_on_success_restarts_witness :
  exists w' a,
    executeWorkflowAttempt (release_plan 3) None [answer "ok"] (start_world "announce" zeroState)
      = (["announce"], w', inr a) /\
    at_err a = Some ErrExecutionPaused /\ last (at_completed a) = Some "announce" /\
    ex_CurrentStepID (w_row w') = None /\
    l_current (start_loop (release_plan 3) (w_row w')) = "approve".
Proof.
  destruct (release_facts 3) as (_ & _ & F1 & F2).
  refine (call_without_on_success_restarts (release_plan 3) None (answer "ok")
    (start_world "announce" zeroState) "announce" announce_step "ok" "awaiting_callee" _ eq_refl eq_refl eq_refl).
  split; [reflexivity|discriminate|exact F1|exact F2|reflexivity|reflexivity|reflexivity].
Defined.
