(* ===== verification/Firewall.v ===== *)
(** * The memory firewall: policies and decisions

    [src/internal/memoryfirewall/types.go], [evaluator.go], [defaults.go],
    [sensitivity.go], [classifier_bridge.go] and [digest.go]: the policy of a
    memory chunk, the decision for one (chunk, request) pair, the default
    policies, the adjustment by the classifier's verdicts and the canonical form
    behind the policy digest.  A Go slice that can be nil is an [option (list _)]:
    nil means unrestricted and an empty slice deny-all.  A formatted reason is a
    value with the arguments of its format string. *)
From S2P Require Import Prelude GoStrings.
Open Scope string_scope.

(** ** Types *)

Definition SensitivityPublic := "public".
Definition SensitivityInternal := "internal".
Definition SensitivityConfidential := "confidential".
Definition SensitivityRestricted := "restricted".

Definition ProvenanceOperatorCorrection := "operator_correction".
Definition ProvenanceWorkflowOutput := "workflow_output".
Definition ProvenanceChatTurn := "chat_turn".
Definition ProvenanceIngestedArtifact := "ingested_artifact".
Definition ProvenanceSelfConsolidated := "self_consolidated".
Definition ProvenanceExternalFetch := "external_fetch".
Definition ProvenanceCompanionRemember := "companion_remember".
Definition ProvenanceUnknown := "unknown".

Definition PurposeOperational := "operational".
Definition PurposeTrainingData := "training_data".
Definition PurposeAuditReview := "audit_review".
Definition PurposeComplianceExport := "compliance_export".

Definition DecisionAllow := "allow".
Definition DecisionBlockExpired := "block_expired".
Definition DecisionBlockTenantMismatch := "block_tenant_mismatch".
Definition DecisionBlockRoleNotPermitted := "block_role_not_permitted".
Definition DecisionBlockPurposeNotAllowed := "block_purpose_not_allowed".
Definition DecisionBlockSensitivityTier := "block_sensitivity_tier".

Definition EnforcementOff := "off".
Definition EnforcementAdvisory := "advisory".
Definition EnforcementEnforce := "enforce".

Record Provenance : Type := mkProvenance {
  Source : string;
  ProducerID : string;
  TrustLevel : Z;
  SourceURL : string
}.

Record Policy : Type := mkPolicy {
  pol_Provenance : Provenance;
  pol_Sensitivity : string;
  pol_ExpiresAt : option time;
  pol_TenantID : string;
  pol_PermittedRoles : option (list string);
  pol_AllowedPurposes : option (list string)
}.

Record RequestContext : Type := mkRequest {
  req_TenantID : string;
  req_OperatorID : string;
  req_Role : string;
  req_Purpose : string;
  req_TraceID : string
}.

Record Chunk : Type := mkChunk {
  ch_ID : string;
  ch_Policy : Policy;
  ch_Digest : string
}.

(** ** Decisions *)

Record Evaluator : Type := mkEvaluator { strictTenant : bool }.

Definition NewEvaluator : Evaluator := mkEvaluator false.
Definition WithStrictTenantIsolation (on : bool) (e : Evaluator) : Evaluator := mkEvaluator on.

Inductive Reason : Type :=
| NoReason
| ReasonExpired (at_ : time)
| ReasonTenant (chunk request : string)
| ReasonNoTenant
| ReasonRole (role : string)
| ReasonPurpose (purpose : string)
| ReasonRestricted.

#[export] Instance Reason_eq_dec : EqDecision Reason.
Proof. solve_decision. Defined.

Definition containsString (l : list string) (v : string) : bool :=
  existsb (fun x => x =?? v) l.

Definition containsPurpose (l : list string) (v : string) : bool :=
  existsb (fun x => x =?? v) l.

Definition effective_purpose (req : RequestContext) : string :=
  if req_Purpose req =?? "" then PurposeOperational else req_Purpose req.

Definition Decide (e : Evaluator) (now : time) (chunk : Chunk) (req : RequestContext) :
    string * Reason :=
  let p := ch_Policy chunk in
  if match pol_ExpiresAt p with Some t => (t <? now)%Z | None => false end then
    (DecisionBlockExpired, ReasonExpired (default zeroTime (pol_ExpiresAt p)))
  else if negb (pol_TenantID p =?? req_TenantID req) &&
          (negb (pol_TenantID p =?? "") || negb (req_TenantID req =?? "")) then
    (DecisionBlockTenantMismatch, ReasonTenant (pol_TenantID p) (req_TenantID req))
  else if strictTenant e && (req_TenantID req =?? "") then
    (DecisionBlockTenantMismatch, ReasonNoTenant)
  else if match pol_PermittedRoles p with
          | Some roles => negb (containsString roles (req_Role req))
          | None => false
          end then
    (DecisionBlockRoleNotPermitted, ReasonRole (req_Role req))
  else
    let purpose := effective_purpose req in
    if match pol_AllowedPurposes p with
       | Some purposes => negb (containsPurpose purposes purpose)
       | None => false
       end then
      (DecisionBlockPurposeNotAllowed, ReasonPurpose purpose)
    else if (pol_Sensitivity p =?? SensitivityRestricted) && (req_OperatorID req =?? "") then
      (DecisionBlockSensitivityTier, ReasonRestricted)
    else (DecisionAllow, NoReason).

(** ** Default policies *)

Definition DefaultsForTier (t : string) : option (list string) * option (list string) :=
  if t =?? SensitivityPublic then (None, None)
  else if t =?? SensitivityInternal then (None, None)
  else if t =?? SensitivityConfidential then
    (None, Some [PurposeOperational; PurposeAuditReview])
  else if t =?? SensitivityRestricted then
    (None, Some [PurposeOperational; PurposeAuditReview])
  else (None, Some [PurposeOperational]).

Definition defaultSensitivityFor (s : string) : string :=
  if bool_decide (s ∈ [ProvenanceOperatorCorrection; ProvenanceWorkflowOutput;
                       ProvenanceChatTurn; ProvenanceIngestedArtifact;
                       ProvenanceSelfConsolidated]) then SensitivityInternal
  else if s =?? ProvenanceExternalFetch then SensitivityPublic
  else if s =?? ProvenanceCompanionRemember then SensitivityConfidential
  else SensitivityInternal.

Definition defaultTrustLevelFor (s : string) : Z :=
  if s =?? ProvenanceOperatorCorrection then 95
  else if s =?? ProvenanceIngestedArtifact then 70
  else if bool_decide (s ∈ [ProvenanceWorkflowOutput; ProvenanceChatTurn;
                            ProvenanceSelfConsolidated]) then 50
  else if s =?? ProvenanceCompanionRemember then 60
  else if s =?? ProvenanceExternalFetch then 30
  else 50.

Definition DefaultPolicyForSource (source contentClass : string) : Policy :=
  let sensitivity := if contentClass =?? "credentials" then SensitivityRestricted
                     else defaultSensitivityFor source in
  let '(roles, purposes) := DefaultsForTier sensitivity in
  mkPolicy (mkProvenance source "" (defaultTrustLevelFor source) "")
           sensitivity None "" roles purposes.

(** ** The classifier bridge *)

Definition ApplyClassifierSignal (p : Policy) (contentClass validationStatus : string) : Policy :=
  let p := if contentClass =?? "credentials" then p <| pol_Sensitivity := SensitivityRestricted |>
           else p in
  if validationStatus =?? "refuted" then p <| pol_PermittedRoles := Some [] |> else p.

(** ** The digest *)

(** The record the digest is computed over; [timeOrEmpty] formats a time
    injectively, so the time itself stands for its text. *)
Record canonicalPolicy : Type := mkCanonical {
  cp_AllowedPurposes : option (list string);
  cp_ExpiresAt : option time;
  cp_PermittedRoles : option (list string);
  cp_ProvenanceProducerID : string;
  cp_ProvenanceSource : string;
  cp_ProvenanceSourceURL : string;
  cp_ProvenanceTrustLevel : Z;
  cp_Sensitivity : string;
  cp_TenantID : string
}.

(** [encoding/json], SHA-256 and the hexadecimal encoding, never empty. *)
Class PolicyHash : Type := {
  policy_hash : canonicalPolicy -> string;
  policy_hash_nonempty c : policy_hash c <> ""
}.

(** The loop of [sortedCopy]: keep what has not been seen. *)
Definition dedup (l : list string) : list string :=
  foldl (fun out s => if bool_decide (s ∈ out) then out else (out ++ [s])%list) [] l.

Definition sortedCopy (l : option (list string)) : option (list string) :=
  match l with
  | None | Some [] => None
  | Some l => Some (merge_sort String.le (dedup l))
  end.

Definition canonical (p : Policy) : canonicalPolicy :=
  mkCanonical (sortedCopy (pol_AllowedPurposes p)) (pol_ExpiresAt p)
    (sortedCopy (pol_PermittedRoles p)) (ProducerID (pol_Provenance p))
    (Source (pol_Provenance p)) (SourceURL (pol_Provenance p))
    (TrustLevel (pol_Provenance p)) (pol_Sensitivity p) (pol_TenantID p).

Definition PolicyDigest `{PolicyHash} (p : Policy) : string := policy_hash (canonical p).
