(* ===== verification/FirewallRecall.v ===== *)
(** * The memory firewall: storage and recall

    The policy columns of a memory chunk ([LoadChunkPolicies],
    [UpdateChunkPolicy] and [StampDefaultPoliciesForNewChunks] of
    [src/internal/memory/repository.go]), the indexer's stamping
    ([src/internal/memory/indexer.go]), the administrator's edit
    ([src/internal/api/memory_firewall_handlers.go]), the enforcement mode
    ([src/internal/service/container_memory_firewall.go]) and the two recall
    passes of [src/internal/memory/firewall_recall.go].  The table maps chunk
    ids to their columns; the text form of a PostgreSQL array is a parameter.
    Searching and metrics are left out: a pass takes the hits it filters. *)
From Stdlib Require Import Ascii.
From S2P Require Import Prelude GoStrings TaskModel TaskRepo Firewall.
Open Scope string_scope.

(** ** PostgreSQL *)

(** An array element that PostgreSQL prints without quotes. *)
Definition plain_byte (c : ascii) : bool :=
  negb (is_space c) &&
  negb (bool_decide (c ∈ ["{"%char; "}"%char; ","%char; ascii_of_nat 34; ascii_of_nat 92])).

Definition plain_element (s : string) : bool :=
  negb (s =?? "") && all_bytes plain_byte s && negb (ToUpper s =?? "NULL").

(** The text of a [TEXT[]] value. *)
Class ArrayText : Type := { array_out : list string -> string }.

(** The documented form for elements that need no quotes. *)
Class ArrayTextPlain (A : ArrayText) : Prop :=
  array_out_plain l : forallb plain_element l = true ->
    array_out l = "{" ++ String.concat "," l ++ "}".

(** ** Rows *)

(** The columns of [project_memory_chunks] the firewall uses, all nullable. *)
Record ChunkColumns : Type := mkColumns {
  col_tenant_id : option string;
  col_sensitivity_tier : option string;
  col_provenance_source : option string;
  col_provenance_producer : option string;
  col_provenance_trust : option Z;
  col_provenance_url : option string;
  col_firewall_expires_at : option time;
  col_permitted_roles : option (list string);
  col_allowed_purposes : option (list string);
  col_policy_digest : option string;
  col_content_class : option string;
  col_validation_status : option string
}.

Abbreviation ChunkTable := (gmap string ChunkColumns).

Record ChunkPolicyRow : Type := mkRow {
  row_ChunkID : string;
  row_TenantID : string;
  row_SensitivityTier : string;
  row_ProvenanceSource : string;
  row_ProvenanceProducer : string;
  row_ProvenanceTrust : Z;
  row_ProvenanceURL : string;
  row_FirewallExpiresAt : option time;
  row_PermittedRoles : option (list string);
  row_AllowedPurposes : option (list string);
  row_PolicyDigest : string;
  row_ContentClass : string;
  row_ValidationStatus : string
}.

(** Go's zero value, which indexing a map with a missing key returns. *)
Definition zeroRow : ChunkPolicyRow := mkRow "" "" "" "" "" 0 "" None None None "" "" "".

Inductive FirewallError : Type :=
| ChunkIDRequired
| DigestRequired
| QueryFailed.

#[export] Instance FirewallError_eq_dec : EqDecision FirewallError.
Proof. solve_decision. Defined.

(** [strings.Trim] of double quotes off both ends. *)
Fixpoint trim_quotes_left (s : string) : string :=
  match s with
  | String c s' => if c =?? ascii_of_nat 34 then trim_quotes_left s' else s
  | "" => ""
  end.
Definition trim_quotes (s : string) : string :=
  string_rev (trim_quotes_left (string_rev (trim_quotes_left s))).

(** The text between the outer braces, if there are any. *)
Definition drop_braces (s : string) : string :=
  match s with
  | String "{"%char s' =>
      match string_rev s' with
      | String "}"%char m => string_rev m
      | _ => s
      end
  | _ => s
  end.

Definition parsePqArray (s : string) : option (list string) :=
  if (s =?? "") || (s =?? "{}") then None
  else Some (foldl (fun out p => let p := TrimSpace p in
                                 if p =?? "" then out else (out ++ [trim_quotes p])%list)
                   [] (split "," (drop_braces s))).

Definition pqStringArray (l : option (list string)) : option (list string) :=
  Some (default [] l).

Definition nullableString (s : string) : option string :=
  if s =?? "" then None else Some s.

Section Storage.
Context {PG : Postgres} {AT : ArrayText} {PH : PolicyHash}.

Definition nullableTime (t : option time) : option time :=
  let t := default zeroTime t in
  if t =?? zeroTime then None else Some (ts_in t).

(** Scanning a nullable array into a [sql.NullString] gives its text or [""]. *)
Definition scan_array (o : option (list string)) : string :=
  match o with Some l => array_out l | None => "" end.

Definition load_row (id : string) (c : ChunkColumns) : ChunkPolicyRow :=
  mkRow id (default "" (col_tenant_id c)) (default "" (col_sensitivity_tier c))
    (default "" (col_provenance_source c)) (default "" (col_provenance_producer c))
    (default 0%Z (col_provenance_trust c)) (default "" (col_provenance_url c))
    (col_firewall_expires_at c)
    (parsePqArray (scan_array (col_permitted_roles c)))
    (parsePqArray (scan_array (col_allowed_purposes c)))
    (default "" (col_policy_digest c)) (default "" (col_content_class c))
    (default "" (col_validation_status c)).

(** [fault]: the query fails. *)
Definition LoadChunkPolicies (fault : bool) (ids : list string) (tbl : ChunkTable) :
    result FirewallError (gmap string ChunkPolicyRow) :=
  if match ids with [] => true | _ => false end then Ok ∅
  else if fault then Err QueryFailed
  else Ok (foldl (fun out id => match tbl !! id with
                                | Some c => <[id := load_row id c]> out
                                | None => out
                                end) ∅ ids).

Definition write_row (row : ChunkPolicyRow) (c : ChunkColumns) : ChunkColumns :=
  mkColumns (nullableString (row_TenantID row)) (nullableString (row_SensitivityTier row))
    (nullableString (row_ProvenanceSource row)) (nullableString (row_ProvenanceProducer row))
    (Some (row_ProvenanceTrust row)) (nullableString (row_ProvenanceURL row))
    (nullableTime (row_FirewallExpiresAt row))
    (pqStringArray (row_PermittedRoles row)) (pqStringArray (row_AllowedPurposes row))
    (Some (row_PolicyDigest row)) (col_content_class c) (col_validation_status c).

Definition UpdateChunkPolicy (fault : bool) (row : ChunkPolicyRow) (tbl : ChunkTable) :
    result FirewallError Z * ChunkTable :=
  if row_ChunkID row =?? "" then (Err ChunkIDRequired, tbl)
  else if row_PolicyDigest row =?? "" then (Err DigestRequired, tbl)
  else if fault then (Err QueryFailed, tbl)
  else match tbl !! row_ChunkID row with
       | Some c => (Ok 1%Z, <[row_ChunkID row := write_row row c]> tbl)
       | None => (Ok 0%Z, tbl)
       end.

(** The row the indexer stamps: what [DefaultPolicyForSource] says of its source. *)
Definition stampable (ids : list string) (id : string) (c : ChunkColumns) : bool :=
  bool_decide (id ∈ ids) && is_none (col_policy_digest c).

Definition StampDefaultPoliciesForNewChunks (ids : list string) (row : ChunkPolicyRow)
    (tbl : ChunkTable) : ChunkTable :=
  if match ids with [] => true | _ => false end || (row_PolicyDigest row =?? "") then tbl
  else map_imap (fun id c => Some (if stampable ids id c then write_row row c else c)) tbl.

Definition HasPrefix (s p : string) : bool := String.prefix p s.

Definition provenanceFromSourceName (s : string) : string :=
  if HasPrefix s "operator_correction_" then ProvenanceOperatorCorrection
  else if HasPrefix s "chat_turn_" || (s =?? "chat_turn") then ProvenanceChatTurn
  else if HasPrefix s "self_consolidate" || (s =?? "consolidate") then ProvenanceSelfConsolidated
  else if HasPrefix s "external_fetch_" || HasPrefix s "web_" then ProvenanceExternalFetch
  else if HasPrefix s "companion_" || HasPrefix s "remember_" then ProvenanceCompanionRemember
  else if HasPrefix s "extracted_" || HasPrefix s "ingest_" then ProvenanceIngestedArtifact
  else if HasPrefix s "task_output_" || HasPrefix s "workflow_" then ProvenanceWorkflowOutput
  else ProvenanceWorkflowOutput.

Definition stampDefaultPolicies (sourceName : string) (ids : list string) (tbl : ChunkTable) :
    ChunkTable :=
  if match ids with [] => true | _ => false end then tbl
  else
    let policy := DefaultPolicyForSource (provenanceFromSourceName sourceName) "" in
    StampDefaultPoliciesForNewChunks ids
      (mkRow "" (pol_TenantID policy) (pol_Sensitivity policy)
         (Source (pol_Provenance policy)) (ProducerID (pol_Provenance policy))
         (TrustLevel (pol_Provenance policy)) (SourceURL (pol_Provenance policy))
         (pol_ExpiresAt policy) (pol_PermittedRoles policy)
         (Some (default [] (pol_AllowedPurposes policy)))
         (PolicyDigest policy) "" "") tbl.

(** ** The administrator's edit *)

Record chunkPolicyUpdateRequest : Type := mkEdit {
  ed_TenantID : option string;
  ed_SensitivityTier : option string;
  ed_ProvenanceSource : option string;
  ed_ProvenanceProducer : option string;
  ed_ProvenanceTrust : option Z;
  ed_ProvenanceURL : option string;
  ed_FirewallExpiresAt : option time;
  ed_PermittedRoles : option (list string);
  ed_AllowedPurposes : option (list string)
}.

(** The HTTP answers after the request has been authenticated and parsed. *)
Inductive EditAnswer : Type :=
| EditBadRequest
| EditInternal
| EditNotFound
| EditOK (row : ChunkPolicyRow).

Definition merge_edit (req : chunkPolicyUpdateRequest) (row : ChunkPolicyRow) : ChunkPolicyRow :=
  mkRow (row_ChunkID row) (default (row_TenantID row) (ed_TenantID req))
    (default (row_SensitivityTier row) (ed_SensitivityTier req))
    (default (row_ProvenanceSource row) (ed_ProvenanceSource req))
    (default (row_ProvenanceProducer row) (ed_ProvenanceProducer req))
    (default (row_ProvenanceTrust row) (ed_ProvenanceTrust req))
    (default (row_ProvenanceURL row) (ed_ProvenanceURL req))
    (match ed_FirewallExpiresAt req with Some t => Some t | None => row_FirewallExpiresAt row end)
    (match ed_PermittedRoles req with Some l => Some l | None => row_PermittedRoles row end)
    (match ed_AllowedPurposes req with Some l => Some l | None => row_AllowedPurposes row end)
    (row_PolicyDigest row) (row_ContentClass row) (row_ValidationStatus row).

(** The purposes are copied into a slice that is never nil. *)
Definition policyFromChunkRow (row : ChunkPolicyRow) : Policy :=
  mkPolicy (mkProvenance (row_ProvenanceSource row) (row_ProvenanceProducer row)
              (row_ProvenanceTrust row) (row_ProvenanceURL row))
    (row_SensitivityTier row) (row_FirewallExpiresAt row) (row_TenantID row)
    (row_PermittedRoles row) (Some (default [] (row_AllowedPurposes row))).

Definition AdminMemoryFirewallChunkPolicy (load_fault update_fault : bool) (chunkID : string)
    (req : chunkPolicyUpdateRequest) (tbl : ChunkTable) : EditAnswer * ChunkTable :=
  if (chunkID =?? "") || contains chunkID "/" then (EditBadRequest, tbl)
  else match LoadChunkPolicies load_fault [chunkID] tbl with
       | Err _ => (EditInternal, tbl)
       | Ok existing =>
           match existing !! chunkID with
           | None => (EditNotFound, tbl)
           | Some row =>
               let row := merge_edit req (row <| row_ChunkID := chunkID |>) in
               let row := row <| row_PolicyDigest := PolicyDigest (policyFromChunkRow row) |> in
               match UpdateChunkPolicy update_fault row tbl with
               | (Err _, tbl) => (EditInternal, tbl)
               | (Ok rows, tbl) => if (rows =? 0)%Z then (EditNotFound, tbl) else (EditOK row, tbl)
               end
           end
       end.

(** ** Recall *)

Definition purposesFromStrings (l : option (list string)) : option (list string) :=
  match l with None | Some [] => None | Some l => Some l end.

Definition has_elements (l : option (list string)) : bool :=
  match l with Some (_ :: _) => true | _ => false end.

Definition chunkFromPolicyRow (chunkID : string) (row : ChunkPolicyRow) : Chunk :=
  let source := if row_ProvenanceSource row =?? "" then ProvenanceUnknown
                else row_ProvenanceSource row in
  let hasPolicyData := negb (row_SensitivityTier row =?? "") ||
    negb (row_ProvenanceSource row =?? "") || has_elements (row_PermittedRoles row) ||
    has_elements (row_AllowedPurposes row) || is_some (row_FirewallExpiresAt row) ||
    negb (row_TenantID row =?? "") in
  let policy := if hasPolicyData then
      mkPolicy (mkProvenance source (row_ProvenanceProducer row) (row_ProvenanceTrust row)
                  (row_ProvenanceURL row))
        (row_SensitivityTier row) (row_FirewallExpiresAt row) (row_TenantID row)
        (row_PermittedRoles row) (purposesFromStrings (row_AllowedPurposes row))
    else DefaultPolicyForSource source (row_ContentClass row) in
  let policy := ApplyClassifierSignal policy (row_ContentClass row) (row_ValidationStatus row) in
  mkChunk chunkID policy
    (if row_PolicyDigest row =?? "" then PolicyDigest policy else row_PolicyDigest row).

Record FirewallDeps : Type := mkDeps {
  fw_Evaluator : option Evaluator;
  fw_EnforcementMode : string;
  fw_ModeForProject : option (string -> option string)
}.

Definition firewallDeps (fw : option FirewallDeps) : option (Evaluator * FirewallDeps) :=
  match fw with
  | Some d => match fw_Evaluator d with Some e => Some (e, d) | None => None end
  | None => None
  end.

Definition resolveMode (fw : FirewallDeps) (projectID : string) : string :=
  match fw_ModeForProject fw with
  | Some f => default (fw_EnforcementMode fw) (f projectID)
  | None => fw_EnforcementMode fw
  end.

Definition normalizeFirewallMode (s : string) : string :=
  let s := ToLower (TrimSpace s) in
  if s =?? "enforce" then EnforcementEnforce
  else if s =?? "advisory" then EnforcementAdvisory
  else if s =?? "off" then EnforcementOff
  else EnforcementAdvisory.

(** [env] is the value of VORNIK_MEMORY_FIREWALL_MODE. *)
Definition memoryFirewallMode (env : string) : string :=
  let env := ToLower (TrimSpace env) in
  if negb (env =?? "") then normalizeFirewallMode env else EnforcementAdvisory.

(** [project] is the raw mode of a registered project. *)
Definition memoryFirewallModeForProject (projectMode : string -> option string)
    (projectID : string) : option string :=
  if projectID =?? "" then None
  else match projectMode projectID with
       | None => None
       | Some mode => let raw := TrimSpace mode in
                      if raw =?? "" then None else Some (normalizeFirewallMode raw)
       end.

Record EvaluationRow : Type := mkEvaluation {
  ev_ID : string;
  ev_ProjectID : string;
  ev_TenantID : string;
  ev_ChunkID : string;
  ev_RequestRole : string;
  ev_RequestPurpose : string;
  ev_RequestOperator : string;
  ev_TraceID : string;
  ev_Decision : string;
  ev_PolicyDigest : string;
  ev_ReasonDetail : Reason;
  ev_EvaluatedAt : time
}.

Record PolicyProof : Type := mkProof {
  pp_ChunkID : string;
  pp_Decision : string;
  pp_EvaluatedAt : time;
  pp_PolicyDigest : string;
  pp_RequestContext : RequestContext
}.

(** A hit; [sr_body] stands for the fields the pass copies.  A warning is the
    text [decision: reason]. *)
Record SearchResult : Type := mkResult {
  sr_ChunkID : string;
  sr_body : string;
  sr_PolicyProof : option PolicyProof;
  sr_PolicyWarning : option (string * Reason)
}.

Record RecentChunkRow : Type := mkRecent {
  rr_ChunkID : string;
  rr_body : string;
  rr_PolicyWarning : option (string * Reason)
}.

(** What one pass reads from outside: the evaluator's clock and the random row
    ids at each iteration, and [evaluatedAt]. *)
Record PassClock : Type := mkClock {
  now_at : nat -> time;
  row_id : nat -> string;
  evaluatedAt : time
}.

Definition audit_row (ck : PassClock) (i : nat) (projectID : string) (chunk : Chunk)
    (req : RequestContext) (decision : string) (reason : Reason) : EvaluationRow :=
  mkEvaluation (row_id ck i) projectID (req_TenantID req) (ch_ID chunk) (req_Role req)
    (req_Purpose req) (req_OperatorID req) (req_TraceID req) decision (ch_Digest chunk) reason
    (evaluatedAt ck).

Fixpoint firewall_loop (e : Evaluator) (mode : string) (ck : PassClock) (projectID : string)
    (req : RequestContext) (policies : gmap string ChunkPolicyRow) (i : nat)
    (results : list SearchResult) : list SearchResult * list EvaluationRow :=
  match results with
  | [] => ([], [])
  | r :: results =>
      let chunk := chunkFromPolicyRow (sr_ChunkID r) (default zeroRow (policies !! sr_ChunkID r)) in
      let '(decision, reason) := Decide e (now_at ck i) chunk req in
      let '(enforced, rows) := firewall_loop e mode ck projectID req policies (S i) results in
      let rows := audit_row ck i projectID chunk req decision reason :: rows in
      if (mode =?? EnforcementEnforce) && negb (decision =?? DecisionAllow) then (enforced, rows)
      else
        let r := if (mode =?? EnforcementAdvisory) && negb (decision =?? DecisionAllow)
                 then r <| sr_PolicyWarning := Some (decision, reason) |> else r in
        (r <| sr_PolicyProof := Some (mkProof (sr_ChunkID r) decision (evaluatedAt ck)
                                        (ch_Digest chunk) req) |> :: enforced, rows)
  end.

(** The hits that surface and the audit rows handed to the writer. *)
Definition applyFirewall (fw : option FirewallDeps) (ck : PassClock) (fault : bool)
    (tbl : ChunkTable) (projectID : string) (results : list SearchResult)
    (req : RequestContext) : list SearchResult * list EvaluationRow :=
  match firewallDeps fw, results with
  | None, _ | _, [] => (results, [])
  | Some (e, d), _ =>
      match LoadChunkPolicies fault (map sr_ChunkID results) tbl with
      | Err _ => (results, [])
      | Ok policies => firewall_loop e (resolveMode d projectID) ck projectID req policies 0 results
      end
  end.

Fixpoint recent_loop (e : Evaluator) (mode : string) (ck : PassClock) (projectID : string)
    (req : RequestContext) (policies : gmap string ChunkPolicyRow) (i : nat)
    (rows : list RecentChunkRow) : list RecentChunkRow * list EvaluationRow :=
  match rows with
  | [] => ([], [])
  | r :: rows =>
      let chunk := chunkFromPolicyRow (rr_ChunkID r) (default zeroRow (policies !! rr_ChunkID r)) in
      let '(decision, reason) := Decide e (now_at ck i) chunk req in
      let '(out, audit) := recent_loop e mode ck projectID req policies (S i) rows in
      let audit := audit_row ck i projectID chunk req decision reason :: audit in
      if (mode =?? EnforcementEnforce) && negb (decision =?? DecisionAllow) then (out, audit)
      else
        let r := if (mode =?? EnforcementAdvisory) && negb (decision =?? DecisionAllow)
                 then r <| rr_PolicyWarning := Some (decision, reason) |> else r in
        (r :: out, audit)
  end.

(** [rows] is what [ListRecentChunksWithOptions] returned. *)
Definition RecentWithContext (fw : option FirewallDeps) (ck : PassClock) (fault : bool)
    (tbl : ChunkTable) (projectID : string) (rows : list RecentChunkRow)
    (req : RequestContext) : list RecentChunkRow * list EvaluationRow :=
  match firewallDeps fw, rows with
  | None, _ | _, [] => (rows, [])
  | Some (e, d), _ =>
      match LoadChunkPolicies fault (map rr_ChunkID rows) tbl with
      | Err _ => (rows, [])
      | Ok policies => recent_loop e (resolveMode d projectID) ck projectID req policies 0 rows
      end
  end.

End Storage.
