(* ===== verification/FirewallAudit.v ===== *)
(** * The memory firewall: the audit writer

    [AuditWriter] of [src/internal/memoryfirewall/audit.go]: recalls put one row
    per decision into a bounded channel and a flusher goroutine writes them in
    batches.  The writer is a state with one event per case of the goroutine's
    [select], per iteration of the drain loop, and per call of the other
    goroutines; a batch insert answers with success or failure.  Metrics are left
    out.  [Stop] waits for the goroutine's end, which [aw_done] records. *)
From S2P Require Import Prelude.

Section Writer.
Context {row : Type}.

Definition queue_capacity : nat := 500.
Definition batchSize : nat := 50.

(** Where the flusher goroutine is: not started, in its [select] loop, in the
    drain loop after a stop, or returned. *)
Inductive Flusher : Type := NotStarted | Selecting | DrainLoop | Returned.

Record AuditWriter : Type := mkWriter {
  aw_queue : list row;
  aw_buf : list row;
  aw_flusher : Flusher;
  aw_stop : bool;
  aw_cancelled : bool;
  (** the calls of [BatchInsert], oldest first, and whether they succeeded *)
  aw_batches : list (list row * bool);
  (** the rows a full channel refused *)
  aw_dropped : list row
}.

Definition NewAuditWriter : AuditWriter := mkWriter [] [] NotStarted false false [] [].

Definition aw_done (w : AuditWriter) : bool :=
  match aw_flusher w with Returned => true | _ => false end.

(** [flush]: [ok] is the answer of the sink. *)
Definition flush (ok : bool) (w : AuditWriter) : AuditWriter :=
  match aw_buf w with
  | [] => w
  | _ => w <| aw_batches := (aw_batches w ++ [(aw_buf w, ok)])%list |> <| aw_buf := [] |>
  end.

Definition Enqueue (r : row) (w : AuditWriter) : AuditWriter :=
  if (length (aw_queue w) <? queue_capacity)%nat
  then w <| aw_queue := (aw_queue w ++ [r])%list |>
  else w <| aw_dropped := (aw_dropped w ++ [r])%list |>.

(** A row received from the channel, in either loop. *)
Definition receive (ok : bool) (w : AuditWriter) : option AuditWriter :=
  match aw_queue w with
  | [] => None
  | r :: q =>
      let w := w <| aw_queue := q |> <| aw_buf := (aw_buf w ++ [r])%list |> in
      Some (if (batchSize <=? length (aw_buf w))%nat then flush ok w else w)
  end.

Inductive Event : Type :=
| EvEnqueue (r : row)
| EvStart
| EvStop
| EvCancel
| EvRecv (ok : bool)
| EvTick (ok : bool)
| EvCtxDone (ok : bool)
| EvSeeStop
| EvDrainExit (ok : bool).

(** [None]: the event is not enabled. *)
Definition writer_step (ev : Event) (w : AuditWriter) : option AuditWriter :=
  match ev, aw_flusher w with
  | EvEnqueue r, _ => Some (Enqueue r w)
  | EvStart, NotStarted => Some (w <| aw_flusher := Selecting |>)
  | EvStart, _ => Some w
  | EvStop, _ => Some (w <| aw_stop := true |>)
  | EvCancel, _ => Some (w <| aw_cancelled := true |>)
  | EvRecv ok, Selecting | EvRecv ok, DrainLoop => receive ok w
  | EvTick ok, Selecting => Some (flush ok w)
  | EvCtxDone ok, Selecting =>
      if aw_cancelled w then Some ((flush ok w) <| aw_flusher := Returned |>) else None
  | EvSeeStop, Selecting => if aw_stop w then Some (w <| aw_flusher := DrainLoop |>) else None
  | EvDrainExit ok, DrainLoop =>
      match aw_queue w with
      | [] => Some ((flush ok w) <| aw_flusher := Returned |>)
      | _ => None
      end
  | _, _ => None
  end.

Fixpoint writer_run (evs : list Event) (w : AuditWriter) : option AuditWriter :=
  match evs with
  | [] => Some w
  | ev :: evs => match writer_step ev w with
                 | Some w => writer_run evs w
                 | None => None
                 end
  end.

(** The rows given to [Enqueue], oldest first. *)
Definition enqueued (evs : list Event) : list row :=
  omap (fun ev => match ev with EvEnqueue r => Some r | _ => None end) evs.

(** The rows the sink was asked to store, and those it stored. *)
Definition attempted (w : AuditWriter) : list row := concat (map fst (aw_batches w)).
Definition written (w : AuditWriter) : list row :=
  concat (map fst (filter (fun b => snd b = true) (aw_batches w))).

End Writer.
#[global] Arguments AuditWriter : clear implicits.
#[global] Arguments Event : clear implicits.

(** ** What the audit writer keeps and loses

    Rows reach the sink in order and in bounded batches, a stop writes everything
    that is queued, and a cancelled context loses the queue. *)


Section Facts.
Context {row : Type}.
Implicit Types (w : AuditWriter row) (ev : Event row) (evs : list (Event row)).

(** The rows accepted so far, in the order in which the sink sees them. *)
Definition accepted w : list row := (attempted w ++ aw_buf w ++ aw_queue w)%list.

Record audit_inv (h : list row) w : Prop := mkAuditInv {
  inv_all : accepted w ++ aw_dropped w ≡ₚ h;
  inv_order : accepted w `sublist_of` h;
  inv_queue : (length (aw_queue w) <= queue_capacity)%nat;
  inv_buf : (length (aw_buf w) < batchSize)%nat;
  inv_batches : Forall (fun b => (1 <= length (fst b) <= batchSize)%nat) (aw_batches w);
  inv_returned : aw_done w = true -> aw_buf w = []
}.

Lemma attempted_app w b :
  concat (map fst (aw_batches w ++ [b])%list) = (attempted w ++ fst b)%list.
Proof. unfold attempted. rewrite map_app, concat_app. cbn. by rewrite app_nil_r. Qed.

Lemma flush_accepted ok w : accepted (flush ok w) = accepted w.
Proof.
  unfold flush, accepted. destruct (aw_buf w) as [|r b] eqn:E; [by rewrite E|].
  unfold attempted at 1. cbn. rewrite attempted_app. by rewrite <- app_assoc.
Qed.

Lemma flush_attempted ok w : attempted (flush ok w) = (attempted w ++ aw_buf w)%list.
Proof.
  unfold flush. destruct (aw_buf w) as [|r b] eqn:E; [by rewrite app_nil_r|].
  unfold attempted at 1. cbn. by rewrite attempted_app.
Qed.

Lemma flush_fields ok w :
  aw_queue (flush ok w) = aw_queue w /\ aw_buf (flush ok w) = [] /\
  aw_flusher (flush ok w) = aw_flusher w /\ aw_dropped (flush ok w) = aw_dropped w /\
  aw_stop (flush ok w) = aw_stop w /\ aw_cancelled (flush ok w) = aw_cancelled w.
Proof. unfold flush. by destruct (aw_buf w) eqn:E. Qed.

Lemma flush_batches ok w :
  (length (aw_buf w) <= batchSize)%nat ->
  Forall (fun b => (1 <= length (fst b) <= batchSize)%nat) (aw_batches w) ->
  Forall (fun b => (1 <= length (fst b) <= batchSize)%nat) (aw_batches (flush ok w)).
Proof.
  intros Hb Hf. unfold flush. destruct (aw_buf w) as [|r b] eqn:E; [done|]. cbn.
  apply Forall_app. split; [done|]. constructor; [|done]. cbn [fst length] in *. lia.
Qed.

Lemma receive_inv h ok w w' :
  aw_done w = false -> audit_inv h w -> receive ok w = Some w' ->
  audit_inv h w' /\ accepted w' = accepted w /\ aw_flusher w' = aw_flusher w /\
  aw_dropped w' = aw_dropped w.
Proof.
  intros Hd [Hall Hord Hq Hb Hbs Hr]. unfold receive.
  destruct (aw_queue w) as [|r q] eqn:E; [done|].
  set (w1 := (w <| aw_queue := q |>) <| aw_buf := _ |>). cbn zeta. intros Hw.
  apply (inj Some) in Hw. subst w'.
  assert (Hacc : accepted w1 = accepted w).
  { unfold accepted at 2. rewrite E. unfold accepted, w1, attempted. cbn. by rewrite <- app_assoc. }
  assert (Hlen : length (aw_buf w1) = S (length (aw_buf w))).
  { unfold w1. cbn. rewrite length_app. cbn. lia. }
  cbn [length] in Hq. unfold aw_done in Hd.
  assert (Hd' : aw_flusher w1 = aw_flusher w) by done.
  destruct (Nat.leb_spec batchSize (length (aw_buf w1))) as [Hle|Hlt].
  - destruct (flush_fields ok w1) as (Hfq & Hfb & Hff & Hfd & _).
    rewrite flush_accepted, Hacc, Hff, Hfd. split; [|done]. split.
    + by rewrite flush_accepted, Hacc, Hfd.
    + by rewrite flush_accepted, Hacc.
    + rewrite Hfq. cbn. lia.
    + rewrite Hfb. unfold batchSize. cbn. lia.
    + apply flush_batches; [lia|done].
    + unfold aw_done. by rewrite Hff, Hd'.
  - split; [|done]. split; rewrite ?Hacc; try done.
    + cbn. lia.
    + unfold aw_done. rewrite Hd'. by intros H; rewrite H in Hd.
Qed.

Lemma flush_inv h ok w : audit_inv h w -> audit_inv h (flush ok w).
Proof.
  intros [Hall Hord Hq Hb Hbs Hr]. destruct (flush_fields ok w) as (Hfq & Hfb & Hff & Hfd & _).
  split; rewrite ?flush_accepted, ?Hfd, ?Hfq, ?Hfb; try done.
  - unfold batchSize. cbn. lia.
  - apply flush_batches; [lia|done].
Qed.

Lemma Enqueue_inv h r w : audit_inv h w -> audit_inv (h ++ [r])%list (Enqueue r w).
Proof.
  intros [Hall Hord Hq Hb Hbs Hr]. unfold Enqueue.
  destruct (Nat.ltb_spec (length (aw_queue w)) queue_capacity) as [Hlt|Hge].
  - set (w1 := w <| aw_queue := _ |>).
    assert (Hacc : accepted w1 = (accepted w ++ [r])%list).
    { unfold accepted, w1, attempted. cbn. by rewrite !app_assoc. }
    split; rewrite ?Hacc; try done.
    + change (aw_dropped w1) with (aw_dropped w). rewrite <- Hall. by rewrite <- !app_assoc, (Permutation_app_comm [r]).
    + by apply sublist_app.
    + unfold w1. cbn. rewrite length_app. cbn. lia.
  - set (w1 := w <| aw_dropped := _ |>). assert (Hacc : accepted w1 = accepted w) by done.
    split; rewrite ?Hacc; try done.
    + unfold w1. cbn. by rewrite app_assoc, Hall.
    + by apply sublist_inserts_r.
Qed.

(** Only the flags or the flusher's position change. *)
Lemma set_inv h w w' :
  audit_inv h w -> aw_queue w' = aw_queue w -> aw_buf w' = aw_buf w ->
  aw_batches w' = aw_batches w -> aw_dropped w' = aw_dropped w ->
  (aw_done w' = true -> aw_buf w = []) -> audit_inv h w'.
Proof.
  intros [Hall Hord Hq Hb Hbs Hr] H1 H2 H3 H4 H5.
  assert (Hacc : accepted w' = accepted w) by (unfold accepted, attempted; by rewrite H1, H2, H3).
  split; rewrite ?Hacc, ?H1, ?H2, ?H3, ?H4; done.
Qed.

Lemma writer_step_inv h ev w w' :
  audit_inv h w -> writer_step ev w = Some w' ->
  audit_inv (h ++ enqueued [ev])%list w'.
Proof.
  intros Hi Hs. pose proof (inv_returned _ _ Hi) as Hret. unfold aw_done in Hret.
  destruct ev; cbn [enqueued omap list_omap]; rewrite ?app_nil_r; cbn [writer_step] in Hs.
  - simplify_eq. by apply Enqueue_inv.
  - destruct (aw_flusher w) eqn:E; simplify_eq; try done. by apply (set_inv h w).
  - simplify_eq. by apply (set_inv h w).
  - simplify_eq. by apply (set_inv h w).
  - destruct (aw_flusher w) eqn:E; try done;
      (eapply receive_inv in Hs as [? _]; [done|unfold aw_done; by rewrite E|done]).
  - destruct (aw_flusher w) eqn:E; simplify_eq; try done. by apply flush_inv.
  - destruct (aw_flusher w) eqn:E; try done. destruct (aw_cancelled w); simplify_eq.
    pose proof (flush_inv h ok w Hi) as Hi'. apply (set_inv h (flush ok w)); try done.
    intros _. apply flush_fields.
  - destruct (aw_flusher w) eqn:E; try done. destruct (aw_stop w); simplify_eq. by apply (set_inv h w).
  - destruct (aw_flusher w) eqn:E; try done. destruct (aw_queue w); simplify_eq.
    pose proof (flush_inv h ok w Hi) as Hi'. apply (set_inv h (flush ok w)); try done.
    intros _. apply flush_fields.
Qed.

Lemma writer_run_inv h evs w w' :
  audit_inv h w -> writer_run evs w = Some w' -> audit_inv (h ++ enqueued evs)%list w'.
Proof.
  revert h w. induction evs as [|ev evs IH]; intros h w Hi Hr; cbn [writer_run] in Hr.
  { simplify_eq. by rewrite app_nil_r. }
  destruct (writer_step ev w) as [w1|] eqn:Hs; [|done].
  pose proof (IH _ _ (writer_step_inv h ev w w1 Hi Hs) Hr) as H.
  rewrite <- app_assoc in H. unfold enqueued in *. by rewrite <- omap_app in H.
Qed.

Lemma new_writer_inv : audit_inv [] (NewAuditWriter (row := row)).
Proof. split; cbn; try done; unfold batchSize, queue_capacity; lia. Qed.

(** C37: Over every schedule of recalls, the flusher goroutine and the shutdown, each
    row handed to [Enqueue] is accepted or was refused by a full channel; accepted
    rows reach the sink once and in order, in batches of one to fifty, and at any
    time the rows not yet handed over are the buffer followed by the channel, at
    most 49 and 500 of them. *)
Theorem audit_rows_in_order evs w :
  writer_run evs NewAuditWriter = Some w ->
  attempted w ++ aw_buf w ++ aw_queue w ++ aw_dropped w ≡ₚ enqueued evs /\
  attempted w ++ aw_buf w ++ aw_queue w `sublist_of` enqueued evs /\
  Forall (fun b => (1 <= length (fst b) <= batchSize)%nat) (aw_batches w) /\
  (length (aw_buf w) < batchSize)%nat /\ (length (aw_queue w) <= queue_capacity)%nat /\
  (forall r, aw_dropped (Enqueue r w) = aw_dropped w \/
             length (aw_queue w) = queue_capacity).
Proof.
  intros Hr. destruct (writer_run_inv [] evs _ _ new_writer_inv Hr) as [Hall Hord Hq Hb Hbs _].
  rewrite app_nil_l in *. unfold accepted in *. split_and!; try done.
  - by rewrite <- !app_assoc in Hall.
  - intros r. unfold Enqueue. destruct (Nat.ltb_spec (length (aw_queue w)) queue_capacity); [by left|].
    right. lia.
Qed.

(** The events of the flusher goroutine. *)
Definition flusher_event ev : bool :=
  match ev with
  | EvRecv _ | EvTick _ | EvCtxDone _ | EvSeeStop | EvDrainExit _ => true
  | _ => false
  end.

Lemma drain_step ev w w' :
  aw_flusher w = DrainLoop -> flusher_event ev = true -> writer_step ev w = Some w' ->
  (aw_flusher w' = DrainLoop /\ length (aw_queue w) = S (length (aw_queue w')) /\
   accepted w' = accepted w) \/
  (aw_flusher w' = Returned /\ aw_queue w = [] /\ aw_queue w' = [] /\ aw_buf w' = [] /\
   attempted w' = accepted w).
Proof.
  intros Hf Hev Hs. destruct ev; try done; cbn [writer_step] in Hs; rewrite Hf in Hs; try done.
  - left. unfold receive in Hs. destruct (aw_queue w) as [|r q] eqn:E; [done|].
    set (w1 := (w <| aw_queue := q |>) <| aw_buf := _ |>) in Hs. cbn zeta in Hs.
    assert (Hacc : accepted w1 = accepted w).
    { unfold accepted at 2. rewrite E. unfold accepted, w1, attempted. cbn. by rewrite <- app_assoc. }
    destruct (batchSize <=? length (aw_buf w1))%nat; apply (inj Some) in Hs; subst w'; [|done].
    destruct (flush_fields ok w1) as (Hfq & _ & Hff & _). by rewrite Hff, Hfq, flush_accepted.
  - right. destruct (aw_queue w) eqn:E; [|done]. apply (inj Some) in Hs. subst w'.
    destruct (flush_fields ok w) as (Hfq & Hfb & _). split_and!; try done.
    + by transitivity (aw_queue (flush ok w)); [|rewrite Hfq].
    + unfold accepted. rewrite E, app_nil_r.
      change (attempted ((flush ok w) <| aw_flusher := Returned |>)) with (attempted (flush ok w)).
      apply flush_attempted.
Qed.

Lemma returned_step ev w :
  aw_flusher w = Returned -> flusher_event ev = true -> writer_step ev w = None.
Proof. intros Hf Hev. destruct ev; try done; cbn [writer_step]; by rewrite Hf. Qed.

Lemma drain_enabled ok w :
  aw_flusher w = DrainLoop ->
  exists ev w', (ev = EvRecv ok \/ ev = EvDrainExit ok) /\ writer_step ev w = Some w'.
Proof.
  intros Hf. destruct (aw_queue w) as [|r q] eqn:E.
  - exists (EvDrainExit ok). cbn [writer_step]. rewrite Hf, E. eauto.
  - exists (EvRecv ok). cbn [writer_step]. rewrite Hf. unfold receive. rewrite E. eauto.
Qed.

(** A stop drains the channel: once the flusher has seen it, whatever the sink
    answers, the goroutine can always go on until it returns, does so within one
    step per queued row and one more, and then every accepted row has been handed
    to the sink. *)
Theorem stop_drains_queue w evs w' :
  aw_flusher w = DrainLoop -> forallb flusher_event evs = true ->
  writer_run evs w = Some w' ->
  (length evs <= S (length (aw_queue w)))%nat /\
  (aw_done w' = true -> attempted w' = attempted w ++ aw_buf w ++ aw_queue w /\
                        aw_buf w' = [] /\ aw_queue w' = []) /\
  (aw_done w' = false -> forall ok, exists ev w'',
     (ev = EvRecv ok \/ ev = EvDrainExit ok) /\ writer_step ev w' = Some w'').
Proof.
  revert w. induction evs as [|ev evs IH]; intros w Hf Hev Hr; cbn [writer_run] in Hr.
  { simplify_eq. unfold aw_done. rewrite Hf. split_and!; [cbn; lia|done|].
    intros _ ok. by apply drain_enabled. }
  cbn [forallb] in Hev. apply andb_true_iff in Hev as [He Hev].
  destruct (writer_step ev w) as [w1|] eqn:Hs; [|done].
  destruct (drain_step ev w w1 Hf He Hs) as [(Hf1 & Hlen & Hacc) | (Hf1 & Hq & Hq1 & Hb1 & Hat)].
  - destruct (IH w1 Hf1 Hev Hr) as (Hle & Hdone & Hgo). split_and!; [cbn [length]; lia| |done].
    intros Hd. destruct (Hdone Hd) as (-> & ? & ?). done.
  - destruct evs as [|ev' evs]; cbn [writer_run forallb] in *.
    + simplify_eq. split_and!; [cbn; lia|done|]. unfold aw_done. by rewrite Hf1.
    + apply andb_true_iff in Hev as [He' _]. by rewrite returned_step in Hr.
Qed.

Lemma returned_stays evs w w' :
  aw_flusher w = Returned -> writer_run evs w = Some w' ->
  aw_flusher w' = Returned /\ aw_batches w' = aw_batches w /\
  aw_queue w `prefix_of` aw_queue w'.
Proof.
  revert w. induction evs as [|ev evs IH]; intros w Hf Hr; cbn [writer_run] in Hr; [by simplify_eq|].
  destruct (writer_step ev w) as [w1|] eqn:Hs; [|done].
  assert (H1 : aw_flusher w1 = Returned /\ aw_batches w1 = aw_batches w /\
               aw_queue w `prefix_of` aw_queue w1).
  { destruct ev; cbn [writer_step] in Hs; rewrite ?Hf in Hs; try done;
      apply (inj Some) in Hs; subst w1; try done.
    unfold Enqueue. destruct (length (aw_queue w) <? queue_capacity)%nat; [|done].
    split_and!; [done|done|]. by exists [r]. }
  destruct H1 as (Hf1 & Hb & Hp). destruct (IH w1 Hf1 Hr) as (Hf2 & Hb2 & Hp2).
  split_and!; [done|by rewrite Hb2|by etrans].
Qed.

(** The daemon's shutdown cancels the context the writer was started with before
    it calls [Stop]: the goroutine then hands its buffer to the sink and returns,
    so [Stop] waits for nothing, and the rows in the channel, with every row
    enqueued afterwards, never reach the sink. *)
Theorem cancelled_writer_loses_queue w ok :
  aw_flusher w = Selecting -> aw_cancelled w = true ->
  exists w1, writer_step (EvCtxDone ok) w = Some w1 /\ aw_done w1 = true /\
    forall later w2, writer_run later w1 = Some w2 ->
      aw_done w2 = true /\ attempted w2 = attempted w ++ aw_buf w /\
      aw_queue w `prefix_of` aw_queue w2.
Proof.
  intros Hf Hc. cbn [writer_step]. rewrite Hf, Hc. eexists. split; [done|]. split; [done|].
  intros later w2 Hr. apply returned_stays in Hr as (Hf2 & Hb2 & Hp); [|done].
  split_and!; [unfold aw_done; by rewrite Hf2| |].
  - unfold attempted. rewrite Hb2. apply flush_attempted.
  - destruct (flush_fields ok w) as (Hq & _). etrans; [|exact Hp].
    by transitivity (aw_queue (flush ok w)); [rewrite Hq|].
Qed.

End Facts.
