(* ===== verification/FirewallFacts.v ===== *)
(** * What the memory firewall guarantees

    The decision as a conjunction of five tests, what the two recall passes let
    through, and what storing a policy and loading it again preserves. *)
From Stdlib Require Import Ascii.
From S2P Require Import Prelude GoStrings TaskModel TaskRepo Firewall FirewallRecall.
Open Scope string_scope.

(** ** The decision *)

Definition expired (now : time) (p : Policy) : Prop :=
  exists t, pol_ExpiresAt p = Some t /\ (t < now)%Z.
Definition tenant_ok (e : Evaluator) (p : Policy) (req : RequestContext) : Prop :=
  pol_TenantID p = req_TenantID req /\ (strictTenant e = true -> req_TenantID req <> "").
Definition role_ok (p : Policy) (req : RequestContext) : Prop :=
  forall roles, pol_PermittedRoles p = Some roles -> req_Role req ∈ roles.
Definition purpose_ok (p : Policy) (req : RequestContext) : Prop :=
  forall purposes, pol_AllowedPurposes p = Some purposes -> effective_purpose req ∈ purposes.
Definition tier_ok (p : Policy) (req : RequestContext) : Prop :=
  pol_Sensitivity p = SensitivityRestricted -> req_OperatorID req <> "".

(** The policy lets the request read the chunk. *)
Definition permits (e : Evaluator) (now : time) (p : Policy) (req : RequestContext) : Prop :=
  ~ expired now p /\ tenant_ok e p req /\ role_ok p req /\ purpose_ok p req /\ tier_ok p req.

Lemma containsString_elem l v : containsString l v = true <-> v ∈ l.
Proof.
  unfold containsString. rewrite existsb_elem. split.
  - intros (x & Hx & Hv). btauto_hyps. by subst.
  - intros Hv. exists v. split; [done|]. by apply bool_decide_eq_true_2.
Qed.

Lemma optional_list_ok (o : option (list string)) v :
  match o with Some l => negb (containsString l v) | None => false end = false <->
  forall l, o = Some l -> v ∈ l.
Proof.
  destruct o as [l|]; [|done]. rewrite negb_false_iff, containsString_elem.
  split; [by intros ? ? [= <-]|auto].
Qed.

Lemma expired_true now p :
  match pol_ExpiresAt p with Some t => (t <? now)%Z | None => false end = true <-> expired now p.
Proof.
  unfold expired. destruct (pol_ExpiresAt p) as [t|].
  - rewrite Z.ltb_lt. split; [by exists t|]. by intros (t' & [= <-] & Ht).
  - split; [done|]. by intros (t' & ? & Ht).
Qed.

Lemma tenant_false e p req :
  negb (pol_TenantID p =?? req_TenantID req) &&
    (negb (pol_TenantID p =?? "") || negb (req_TenantID req =?? "")) = false /\
  strictTenant e && (req_TenantID req =?? "") = false <-> tenant_ok e p req.
Proof.
  unfold tenant_ok. destruct (strictTenant e); cbn [andb];
    repeat (case_bool_decide; cbn [negb andb orb]); intuition congruence.
Qed.

Lemma tier_false p req :
  (pol_Sensitivity p =?? SensitivityRestricted) && (req_OperatorID req =?? "") = false <->
  tier_ok p req.
Proof. unfold tier_ok. repeat case_bool_decide; cbn [andb]; intuition congruence. Qed.

Lemma Decide_cases e now chunk req :
  let p := ch_Policy chunk in
  let d := fst (Decide e now chunk req) in
  (d = DecisionBlockExpired /\ expired now p) \/
  (d = DecisionBlockTenantMismatch /\ ~ expired now p /\ ~ tenant_ok e p req) \/
  (d = DecisionBlockRoleNotPermitted /\ ~ expired now p /\ tenant_ok e p req /\ ~ role_ok p req) \/
  (d = DecisionBlockPurposeNotAllowed /\ ~ expired now p /\ tenant_ok e p req /\ role_ok p req /\
     ~ purpose_ok p req) \/
  (d = DecisionBlockSensitivityTier /\ ~ expired now p /\ tenant_ok e p req /\ role_ok p req /\
     purpose_ok p req /\ ~ tier_ok p req) \/
  (d = DecisionAllow /\ permits e now p req).
Proof.
  intros p d. subst d. unfold Decide, permits. fold p.
  rewrite <- (expired_true now p), <- tenant_false, <- tier_false.
  unfold role_ok, purpose_ok. rewrite <- !optional_list_ok.
  change containsPurpose with containsString.
  destruct (match pol_ExpiresAt p with Some t => (t <? now)%Z | None => false end); [tauto|].
  destruct (negb (pol_TenantID p =?? req_TenantID req) && _); [naive_solver|].
  destruct (strictTenant e && _); [naive_solver|].
  destruct (match pol_PermittedRoles p with Some _ => _ | None => _ end); [naive_solver|].
  destruct (match pol_AllowedPurposes p with Some _ => _ | None => _ end); [naive_solver|].
  destruct ((pol_Sensitivity p =?? SensitivityRestricted) && _); naive_solver.
Qed.

(** The firewall's decision is the first of its five tests that fails, in the
    order expiry, tenant, role, purpose, sensitivity; it allows exactly when the
    chunk has not expired, the tenants agree (and are not blank under strict
    isolation), the role and the purpose are in the permitted sets, and a
    restricted chunk is read on behalf of an operator. *)
Theorem Decide_spec e now chunk req :
  let p := ch_Policy chunk in
  let d := fst (Decide e now chunk req) in
  (d = DecisionAllow <-> permits e now p req) /\
  (d = DecisionBlockExpired <-> expired now p) /\
  (d = DecisionBlockTenantMismatch <-> ~ expired now p /\ ~ tenant_ok e p req) /\
  (d = DecisionBlockRoleNotPermitted <->
     ~ expired now p /\ tenant_ok e p req /\ ~ role_ok p req) /\
  (d = DecisionBlockPurposeNotAllowed <->
     ~ expired now p /\ tenant_ok e p req /\ role_ok p req /\ ~ purpose_ok p req) /\
  (d = DecisionBlockSensitivityTier <->
     ~ expired now p /\ tenant_ok e p req /\ role_ok p req /\ purpose_ok p req /\
     ~ tier_ok p req).
Proof.
  intros p d. pose proof (Decide_cases e now chunk req) as H. fold p d in H.
  unfold permits in *. clearbody d p.
  destruct H as [[-> H]|[[-> H]|[[-> H]|[[-> H]|[[-> H]|[-> H]]]]]];
    repeat match goal with |- _ /\ _ => split end;
    (split; [intros Hd; try (vm_compute in Hd; discriminate Hd); tauto | intros; try done; tauto]).
Qed.

Lemma Decide_allow e now chunk req :
  fst (Decide e now chunk req) = DecisionAllow <-> permits e now (ch_Policy chunk) req.
Proof.
  pose proof (Decide_cases e now chunk req) as H. cbn zeta in H. unfold permits in *.
  destruct H as [[-> H]|[[-> H]|[[-> H]|[[-> H]|[[-> H]|[-> H]]]]]];
    (split; [intros Hd; try (vm_compute in Hd; discriminate Hd); tauto | intros; try done; tauto]).
Qed.

(** ** The classifier bridge *)

Lemma permits_classifier e now p cc vs req :
  permits e now (ApplyClassifierSignal p cc vs) req <->
  permits e now p req /\ vs <> "refuted" /\ (cc = "credentials" -> req_OperatorID req <> "").
Proof.
  unfold ApplyClassifierSignal, permits, expired, tenant_ok, role_ok, purpose_ok, tier_ok.
  destruct p as [prov sens ex ten roles purp].
  destruct (bool_decide_reflect (cc = "credentials")) as [->|Hc];
    destruct (bool_decide_reflect (vs = "refuted")) as [->|Hv];
    cbn -[SensitivityRestricted].
  - split; [intros (_ & _ & Hr & _); destruct (not_elem_of_nil _ (Hr [] eq_refl)) | by intros (_ & ? & _)].
  - split; [intros (?&?&?&?&Ht) | intros ((?&?&?&?&_) & _ & Ht)];
      specialize (Ht eq_refl); tauto.
  - split; [intros (_ & _ & Hr & _); destruct (not_elem_of_nil _ (Hr [] eq_refl)) | by intros (_ & ? & _)].
  - split; [intros (?&?&?&?&?) | intros ((?&?&?&?&?) & _ & _)]; tauto.
Qed.

(** The classifier's verdicts only tighten a policy: the adjusted policy
    permits a request exactly when the stored one does, the chunk is not refuted
    and, for credentials, the request carries an operator. *)
Theorem classifier_only_tightens e now id digest p contentClass validationStatus req :
  fst (Decide e now (mkChunk id (ApplyClassifierSignal p contentClass validationStatus) digest)
         req) = DecisionAllow <->
  fst (Decide e now (mkChunk id p digest) req) = DecisionAllow /\
  validationStatus <> "refuted" /\
  (contentClass = "credentials" -> req_OperatorID req <> "").
Proof. rewrite !Decide_allow. apply permits_classifier. Qed.

(** ** Loading and the recall passes *)

Section Recall.
Context {PG : Postgres} {AT : ArrayText} {PH : PolicyHash}.

Lemma load_fold_lookup (tbl : ChunkTable) ids (out : gmap string ChunkPolicyRow) id :
  foldl (fun out id => match tbl !! id with
                       | Some c => <[id := load_row id c]> out
                       | None => out
                       end) out ids !! id =
  if bool_decide (id ∈ ids) then
    match tbl !! id with Some c => Some (load_row id c) | None => out !! id end
  else out !! id.
Proof.
  revert out. induction ids as [|i ids IH]; intros out; [done|].
  cbn [foldl]. rewrite IH. clear IH. destruct (decide (id = i)) as [->|Hi].
  - rewrite (bool_decide_eq_true_2 (i ∈ i :: ids)) by left.
    destruct (tbl !! i); rewrite ?lookup_insert_eq; by case_bool_decide.
  - rewrite (bool_decide_ext (id ∈ i :: ids) (id ∈ ids)) by set_solver.
    destruct (tbl !! i); [rewrite lookup_insert_ne by done|]; done.
Qed.

(** The row the passes read for a chunk, present or not. *)
Definition stored_row (tbl : ChunkTable) (id : string) : ChunkPolicyRow :=
  default zeroRow (load_row id <$> tbl !! id).

Lemma stored_row_insert (tbl : ChunkTable) id c :
  stored_row (<[id := c]> tbl) id = load_row id c.
Proof. unfold stored_row. by rewrite lookup_insert_eq. Qed.

Lemma LoadChunkPolicies_ok ids tbl :
  LoadChunkPolicies false ids tbl =
  Ok (foldl (fun out id => match tbl !! id with
                           | Some c => <[id := load_row id c]> out
                           | None => out
                           end) ∅ ids).
Proof. by destruct ids. Qed.

Lemma LoadChunkPolicies_lookup ids tbl policies id :
  LoadChunkPolicies false ids tbl = Ok policies -> id ∈ ids ->
  default zeroRow (policies !! id) = stored_row tbl id.
Proof.
  rewrite LoadChunkPolicies_ok. unfold stored_row. intros [= <-] Hid. rewrite load_fold_lookup, (bool_decide_eq_true_2 _ Hid).
  by destruct (tbl !! id).
Qed.

(** The decision of a pass on its [i]-th hit. *)
Definition verdict (e : Evaluator) (ck : PassClock) (tbl : ChunkTable) (req : RequestContext)
    (i : nat) (id : string) : string * Reason :=
  Decide e (now_at ck i) (chunkFromPolicyRow id (stored_row tbl id)) req.

Definition surfaces (mode decision : string) : bool :=
  negb ((mode =?? EnforcementEnforce) && negb (decision =?? DecisionAllow)).

(** The warning a surfaced hit carries. *)
Definition warning (mode : string) (v : string * Reason) (w : option (string * Reason)) :
    option (string * Reason) :=
  if (mode =?? EnforcementAdvisory) && negb (v.1 =?? DecisionAllow) then Some v else w.

(** The hits of [l] that surface, with what [f] makes of each; [i] numbers the
    first hit. *)
Definition pass {A B : Type} (id : A -> string) (f : A -> string * Reason -> B) (e : Evaluator)
    (mode : string) (ck : PassClock) (tbl : ChunkTable) (req : RequestContext) (i : nat)
    (l : list A) : list B :=
  omap (fun x => x)
    (zip_with (fun j r => let v := verdict e ck tbl req j (id r) in
                          if surfaces mode v.1 then Some (f r v) else None)
              (seq i (length l)) l).

(** One audit row per hit. *)
Definition audit_of (e : Evaluator) (ck : PassClock) (projectID : string) (tbl : ChunkTable)
    (req : RequestContext) (i : nat) (ids : list string) : list EvaluationRow :=
  zip_with (fun j id => let v := verdict e ck tbl req j id in
              audit_row ck j projectID (chunkFromPolicyRow id (stored_row tbl id)) req v.1 v.2)
           (seq i (length ids)) ids.

Definition mark_result (mode : string) (ck : PassClock) (tbl : ChunkTable) (req : RequestContext)
    (r : SearchResult) (v : string * Reason) : SearchResult :=
  mkResult (sr_ChunkID r) (sr_body r)
    (Some (mkProof (sr_ChunkID r) v.1 (evaluatedAt ck)
             (ch_Digest (chunkFromPolicyRow (sr_ChunkID r) (stored_row tbl (sr_ChunkID r)))) req))
    (warning mode v (sr_PolicyWarning r)).

Definition mark_recent (mode : string) (r : RecentChunkRow) (v : string * Reason) :
    RecentChunkRow :=
  mkRecent (rr_ChunkID r) (rr_body r) (warning mode v (rr_PolicyWarning r)).

Lemma firewall_loop_spec e mode ck projectID req policies tbl results i :
  (forall id, id ∈ map sr_ChunkID results ->
     default zeroRow (policies !! id) = stored_row tbl id) ->
  firewall_loop e mode ck projectID req policies i results =
  (pass sr_ChunkID (mark_result mode ck tbl req) e mode ck tbl req i results,
   audit_of e ck projectID tbl req i (map sr_ChunkID results)).
Proof.
  revert i. induction results as [|r results IH]; intros i Hp; [done|].
  cbn [firewall_loop]. rewrite Hp by left. rewrite (IH (S i)) by (intros; apply Hp; by right).
  unfold pass, audit_of. cbn [map length seq zip_with omap list_omap]. fold (verdict e ck tbl req i (sr_ChunkID r)).
  destruct (verdict e ck tbl req i (sr_ChunkID r)) as [d reason].
  unfold surfaces. cbn [fst snd].
  destruct ((mode =?? EnforcementEnforce) && negb (d =?? DecisionAllow)); [done|].
  unfold mark_result, warning. cbn [negb fst]. f_equal. f_equal.
  by destruct r, ((mode =?? EnforcementAdvisory) && negb (d =?? DecisionAllow)).
Qed.

Lemma recent_loop_spec e mode ck projectID req policies tbl rows i :
  (forall id, id ∈ map rr_ChunkID rows -> default zeroRow (policies !! id) = stored_row tbl id) ->
  recent_loop e mode ck projectID req policies i rows =
  (pass rr_ChunkID (mark_recent mode) e mode ck tbl req i rows,
   audit_of e ck projectID tbl req i (map rr_ChunkID rows)).
Proof.
  revert i. induction rows as [|r rows IH]; intros i Hp; [done|].
  cbn [recent_loop]. rewrite Hp by left. rewrite (IH (S i)) by (intros; apply Hp; by right).
  unfold pass, audit_of. cbn [map length seq zip_with omap list_omap]. fold (verdict e ck tbl req i (rr_ChunkID r)).
  destruct (verdict e ck tbl req i (rr_ChunkID r)) as [d reason].
  unfold surfaces. cbn [fst snd].
  destruct ((mode =?? EnforcementEnforce) && negb (d =?? DecisionAllow)); [done|].
  unfold mark_recent, warning. cbn [negb fst]. f_equal. f_equal.
  by destruct r, ((mode =?? EnforcementAdvisory) && negb (d =?? DecisionAllow)).
Qed.

Lemma applyFirewall_run fw e d ck tbl projectID results req :
  firewallDeps fw = Some (e, d) ->
  let mode := resolveMode d projectID in
  applyFirewall fw ck false tbl projectID results req =
  (pass sr_ChunkID (mark_result mode ck tbl req) e mode ck tbl req 0 results,
   audit_of e ck projectID tbl req 0 (map sr_ChunkID results)).
Proof.
  intros Hfw mode. unfold applyFirewall. rewrite Hfw. destruct results as [|r results]; [done|].
  destruct (LoadChunkPolicies false _ tbl) as [policies|] eqn:E;
    [|by rewrite LoadChunkPolicies_ok in E].
  apply firewall_loop_spec. intros id Hid. by eapply LoadChunkPolicies_lookup.
Qed.

Lemma RecentWithContext_run fw e d ck tbl projectID rows req :
  firewallDeps fw = Some (e, d) ->
  let mode := resolveMode d projectID in
  RecentWithContext fw ck false tbl projectID rows req =
  (pass rr_ChunkID (mark_recent mode) e mode ck tbl req 0 rows,
   audit_of e ck projectID tbl req 0 (map rr_ChunkID rows)).
Proof.
  intros Hfw mode. unfold RecentWithContext. rewrite Hfw. destruct rows as [|r rows]; [done|].
  destruct (LoadChunkPolicies false _ tbl) as [policies|] eqn:E;
    [|by rewrite LoadChunkPolicies_ok in E].
  apply recent_loop_spec. intros id Hid. by eapply LoadChunkPolicies_lookup.
Qed.

(** Both passes fail open. *)
Lemma applyFirewall_fault fw ck tbl projectID results req :
  applyFirewall fw ck true tbl projectID results req = (results, []).
Proof. unfold applyFirewall. by destruct (firewallDeps fw) as [[]|], results. Qed.

Lemma RecentWithContext_fault fw ck tbl projectID rows req :
  RecentWithContext fw ck true tbl projectID rows req = (rows, []).
Proof. unfold RecentWithContext. by destruct (firewallDeps fw) as [[]|], rows. Qed.

Section Pass.
Context {A B : Type} (id : A -> string) (f : A -> string * Reason -> B).
Context (e : Evaluator) (mode : string) (ck : PassClock) (tbl : ChunkTable) (req : RequestContext).

Lemma pass_cons i r l :
  pass id f e mode ck tbl req i (r :: l) =
  (if surfaces mode (verdict e ck tbl req i (id r)).1
   then f r (verdict e ck tbl req i (id r)) :: pass id f e mode ck tbl req (S i) l
   else pass id f e mode ck tbl req (S i) l).
Proof.
  unfold pass. cbn [length seq zip_with omap list_omap]. cbn zeta. by destruct (surfaces _ _).
Qed.

Lemma elem_of_pass i l x :
  x ∈ pass id f e mode ck tbl req i l <->
  exists j r, l !! j = Some r /\ x = f r (verdict e ck tbl req (i + j) (id r)) /\
    surfaces mode (verdict e ck tbl req (i + j) (id r)).1 = true.
Proof.
  revert i. induction l as [|r l IH]; intros i.
  { split; [by intros ?%elem_of_nil | by intros (j & r & ? & _)]. }
  rewrite pass_cons.
  assert (Hx : (x ∈ pass id f e mode ck tbl req (S i) l \/
      surfaces mode (verdict e ck tbl req i (id r)).1 = true /\
      x = f r (verdict e ck tbl req i (id r))) <->
    exists j r', (r :: l) !! j = Some r' /\ x = f r' (verdict e ck tbl req (i + j) (id r')) /\
      surfaces mode (verdict e ck tbl req (i + j) (id r')).1 = true).
  { rewrite IH. split.
    - intros [(j & r' & Hj & ->  & Hs) | [Hs ->]]; [exists (S j), r' | exists 0%nat, r];
        by rewrite ?Nat.add_succ_r, ?Nat.add_0_r.
    - intros ([|j] & r' & Hj & -> & Hs); simplify_eq/=; [right | left; exists j, r'];
        by rewrite ?Nat.add_succ_r, ?Nat.add_0_r in *. }
  rewrite <- Hx. destruct (surfaces _ _); [rewrite elem_of_cons|]; naive_solver.
Qed.

Lemma pass_all i l :
  (mode =?? EnforcementEnforce) = false -> length (pass id f e mode ck tbl req i l) = length l.
Proof.
  intros Hm. revert i. induction l as [|r l IH]; intros i; [done|].
  rewrite pass_cons. unfold surfaces. rewrite Hm. cbn [andb negb length]. by rewrite IH.
Qed.

End Pass.

(** The hits kept by two passes with the same ids are the same. *)
Lemma pass_same_ids {A B A' B'} (id : A -> string) f (idB : B -> string) (id' : A' -> string) f'
    (idB' : B' -> string) e mode ck tbl req i l l' :
  (forall r v, idB (f r v) = id r) -> (forall r v, idB' (f' r v) = id' r) ->
  map id l = map id' l' ->
  map idB (pass id f e mode ck tbl req i l) = map idB' (pass id' f' e mode ck tbl req i l').
Proof.
  intros Hf Hf'. revert i l'. induction l as [|r l IH]; intros i [|r' l'] Hl; simplify_eq/=; [done|].
  rewrite !pass_cons. replace (id' r') with (id r) by done.
  destruct (surfaces _ _); cbn [map]; [|by apply IH].
  rewrite Hf, Hf'. f_equal; [done|by apply IH].
Qed.

(** The digest of recent memory and the search are filtered alike: for the
    same chunks, the same clock readings and the same state of the store, the
    recent-memory pass lets through exactly the chunks the recall pass lets
    through, in the same order, with the same warnings, and hands the same audit
    rows to the writer - in every enforcement mode, when the policies cannot be
    loaded and when no firewall is installed. *)
Theorem recent_agrees_with_recall fw ck fault tbl projectID results rows req :
  map rr_ChunkID rows = map sr_ChunkID results ->
  map rr_PolicyWarning rows = map sr_PolicyWarning results ->
  let recall := applyFirewall fw ck fault tbl projectID results req in
  let recent := RecentWithContext fw ck fault tbl projectID rows req in
  map rr_ChunkID (fst recent) = map sr_ChunkID (fst recall) /\
  map rr_PolicyWarning (fst recent) = map sr_PolicyWarning (fst recall) /\
  snd recent = snd recall.
Proof.
  intros Hid Hw recall recent. subst recall recent.
  destruct (firewallDeps fw) as [[e d]|] eqn:Hfw.
  2: { unfold applyFirewall, RecentWithContext. by rewrite Hfw. }
  destruct fault.
  { by rewrite applyFirewall_fault, RecentWithContext_fault. }
  rewrite (applyFirewall_run fw e d), (RecentWithContext_run fw e d) by done.
  cbn [fst snd]. rewrite Hid. split_and!; [by apply pass_same_ids| |done].
  generalize 0%nat. revert results Hid Hw.
  induction rows as [|r rows IH]; intros [|r' results] Hid Hw i; simplify_eq/=; [done|].
  rewrite !pass_cons. replace (rr_ChunkID r) with (sr_ChunkID r') by done.
  destruct (surfaces _ _); cbn [map]; [|by apply IH].
  f_equal; [|by apply IH]. unfold mark_recent, mark_result. cbn. by f_equal.
Qed.

(** ** The effective policy of a row *)

Lemma DefaultsForTier_roles t : (DefaultsForTier t).1 = None.
Proof. unfold DefaultsForTier. by repeat case_match. Qed.

Lemma default_policy_open source cc :
  let p := DefaultPolicyForSource source cc in
  pol_PermittedRoles p = None /\ pol_ExpiresAt p = None /\ pol_TenantID p = "".
Proof.
  unfold DefaultPolicyForSource. set (t := if cc =?? "credentials" then _ else _).
  pose proof (DefaultsForTier_roles t). by destruct (DefaultsForTier t).
Qed.

Lemma classifier_fields p cc vs :
  let p' := ApplyClassifierSignal p cc vs in
  pol_ExpiresAt p' = pol_ExpiresAt p /\ pol_TenantID p' = pol_TenantID p /\
  pol_AllowedPurposes p' = pol_AllowedPurposes p /\
  pol_PermittedRoles p' = if vs =?? "refuted" then Some [] else pol_PermittedRoles p.
Proof. unfold ApplyClassifierSignal. by destruct p, (cc =?? "credentials"), (vs =?? "refuted"). Qed.

Lemma effective_fields id row :
  let p := ch_Policy (chunkFromPolicyRow id row) in
  pol_ExpiresAt p = row_FirewallExpiresAt row /\ pol_TenantID p = row_TenantID row /\
  (has_elements (row_PermittedRoles row) = true \/ row_PermittedRoles row = None ->
   pol_PermittedRoles p =
   if row_ValidationStatus row =?? "refuted" then Some [] else row_PermittedRoles row).
Proof.
  unfold chunkFromPolicyRow. cbn [ch_Policy]. cbn zeta.
  set (src := if row_ProvenanceSource row =?? "" then _ else _).
  match goal with |- context [if ?b then mkPolicy _ _ _ _ _ _ else _] => set (has := b) end.
  match goal with |- context [ApplyClassifierSignal ?p ?cc ?vs] =>
    destruct (classifier_fields p cc vs) as (-> & -> & _ & ->) end.
  destruct has eqn:E; [by destruct (row_ValidationStatus row =?? "refuted")|].
  destruct (default_policy_open src (row_ContentClass row)) as (-> & -> & ->).
  subst has. repeat (apply orb_false_iff in E as [E ?]).
  unfold is_some in *. destruct (row_FirewallExpiresAt row); [done|].
  btauto_hyps. split_and!; [done|done|]. intros [Hn|Hn]; [congruence|by rewrite Hn].
Qed.

(** ** The text of arrays *)

Lemma plain_no_space s :
  all_bytes plain_byte s = true -> all_bytes (fun c => negb (is_space c)) s = true.
Proof. apply all_bytes_impl. intros c H. by apply andb_true_iff in H as [? _]. Qed.

Lemma plain_no_byte c s :
  c ∈ ["{"%char; "}"%char; ","%char; ascii_of_nat 34; ascii_of_nat 92] ->
  all_bytes plain_byte s = true -> all_bytes (fun d => negb (d =?? c)) s = true.
Proof.
  intros Hc. apply all_bytes_impl. intros d H. unfold plain_byte in H. btauto_hyps.
  apply negb_true_iff, bool_decide_eq_false_2. by intros ->.
Qed.

Lemma trim_quotes_left_id s :
  all_bytes (fun d => negb (d =?? ascii_of_nat 34)) s = true -> trim_quotes_left s = s.
Proof. destruct s as [|c s]; cbn [all_bytes trim_quotes_left]; [done|]. by destruct (c =?? _). Qed.

Lemma trim_quotes_id s :
  all_bytes (fun d => negb (d =?? ascii_of_nat 34)) s = true -> trim_quotes s = s.
Proof.
  intros H. unfold trim_quotes. rewrite (trim_quotes_left_id s) by done.
  rewrite trim_quotes_left_id by (by rewrite all_bytes_rev). apply string_rev_involutive.
Qed.

Lemma drop_braces_spec s : drop_braces ("{" ++ s ++ "}") = s.
Proof.
  change ("{" ++ s ++ "}") with (String "{" (s ++ "}")). unfold drop_braces.
  rewrite string_rev_app_distr. change (string_rev "}") with "}".
  change ("}" ++ string_rev s) with (String "}" (string_rev s)). apply string_rev_involutive.
Qed.

Lemma plain_elements_fold l acc :
  forallb plain_element l = true ->
  foldl (fun out p => let p := TrimSpace p in
           if p =?? "" then out else (out ++ [trim_quotes p])%list) acc l = (acc ++ l)%list.
Proof.
  revert acc. induction l as [|s l IH]; intros acc; cbn [forallb foldl]; [by rewrite app_nil_r|].
  intros [Hs Hl]%andb_true_iff. unfold plain_element in Hs. btauto_hyps.
  rewrite TrimSpace_id by (by apply plain_no_space).
  rewrite bool_decide_eq_false_2 by done. rewrite trim_quotes_id.
  - rewrite IH by done. by rewrite <- app_assoc.
  - apply plain_no_byte; [set_solver|done].
Qed.

Context {AP : ArrayTextPlain AT}.

Lemma parse_array_out l :
  forallb plain_element l = true ->
  parsePqArray (array_out l) = match l with [] => None | _ => Some l end.
Proof.
  intros Hl. rewrite array_out_plain by done. destruct l as [|s l]; [done|].
  assert (Hs : plain_element s = true) by (by apply andb_true_iff in Hl as [? _]).
  unfold parsePqArray. rewrite drop_braces_spec.
  rewrite split_concat; [|done|].
  - rewrite plain_elements_fold by done. rewrite app_nil_l.
    destruct (bool_decide_reflect ("{" ++ String.concat "," (s :: l) ++ "}" = "")) as [?|_]; [done|].
    destruct (bool_decide_reflect ("{" ++ String.concat "," (s :: l) ++ "}" = "{}")) as [E|_]; [|done].
    exfalso. destruct s as [|c s]; [done|]. injection E as E. destruct l; simplify_eq/=.
    + by destruct s.
    + rewrite string_app_cons in E. injection E as ? E. by destruct s.
  - intros x Hx. apply plain_no_byte; [set_solver|].
    rewrite forallb_elem in Hl. specialize (Hl x Hx). unfold plain_element in Hl. by btauto_hyps.
Qed.

(** What a stored array column reads back as. *)
Definition reread (o : option (list string)) : option (list string) :=
  match o with None | Some [] => None | Some l => Some l end.

Lemma parse_scan o :
  forallb plain_element (default [] o) = true -> parsePqArray (scan_array o) = reread o.
Proof. destruct o as [l|]; [|done]. apply parse_array_out. Qed.

(** ** Editing a policy *)

Lemma edit_ok_inv lf uf id req tbl row tbl' :
  AdminMemoryFirewallChunkPolicy lf uf id req tbl = (EditOK row, tbl') ->
  exists c, tbl !! id = Some c /\ tbl' = <[id := write_row row c]> tbl /\
    row = (merge_edit req (load_row id c))
            <| row_PolicyDigest := PolicyDigest (policyFromChunkRow (merge_edit req (load_row id c))) |>.
Proof.
  unfold AdminMemoryFirewallChunkPolicy. destruct ((id =?? "") || contains id "/"); [done|].
  unfold LoadChunkPolicies. destruct lf; [done|]. cbn [foldl].
  destruct (tbl !! id) as [c|] eqn:Hc; [|by rewrite lookup_empty].
  rewrite lookup_insert_eq. unfold UpdateChunkPolicy. cbn [merge_edit].
  replace ((load_row id c) <| row_ChunkID := id |>) with (load_row id c) by done.
  set (row0 := merge_edit _ _). cbn zeta.
  replace (row_ChunkID (row0 <| row_PolicyDigest := _ |>)) with id by done.
  rewrite Hc. destruct (id =?? ""); [done|]. destruct (_ =?? ""); [done|].
  destruct uf; [done|]. intros [= <- <-]. by exists c.
Qed.

(** The stored form of an expiry. *)
Definition stored_time (t : option time) : option time := nullableTime t.

Lemma load_write_row id row c :
  forallb plain_element (default [] (row_PermittedRoles row)) = true ->
  forallb plain_element (default [] (row_AllowedPurposes row)) = true ->
  row_ContentClass row = default "" (col_content_class c) ->
  row_ValidationStatus row = default "" (col_validation_status c) ->
  load_row id (write_row row c) =
  row <| row_ChunkID := id |>
      <| row_FirewallExpiresAt := nullableTime (row_FirewallExpiresAt row) |>
      <| row_PermittedRoles := reread (row_PermittedRoles row) |>
      <| row_AllowedPurposes := reread (row_AllowedPurposes row) |>.
Proof.
  intros Hr Hp Hc Hv. unfold load_row, write_row. cbn.
  rewrite !parse_array_out, <- Hc, <- Hv by done.
  destruct row as [? ten sens src prod trust url ex roles purp dig cc vs]. cbn in *.
  assert (Hs : forall s, default "" (nullableString s) = s).
  { intros s. unfold nullableString. by destruct (bool_decide_reflect (s = "")) as [->|]. }
  rewrite !Hs. by destruct roles as [[|]|], purp as [[|]|].
Qed.

(** Editing a chunk's policy and loading it again gives back the edited row -
    every field of the request where it has one and the stored value elsewhere -
    except that an empty list comes back as no list and a zero expiry as none
    (other expiries with the database's precision); no other chunk changes. *)
Theorem edit_roundtrip lf uf id req tbl row tbl' :
  AdminMemoryFirewallChunkPolicy lf uf id req tbl = (EditOK row, tbl') ->
  forallb plain_element (default [] (row_PermittedRoles row)) = true ->
  forallb plain_element (default [] (row_AllowedPurposes row)) = true ->
  (exists policies, LoadChunkPolicies false [id] tbl' = Ok policies /\
     policies !! id = Some (row <| row_FirewallExpiresAt := nullableTime (row_FirewallExpiresAt row) |>
                                <| row_PermittedRoles := reread (row_PermittedRoles row) |>
                                <| row_AllowedPurposes := reread (row_AllowedPurposes row) |>)) /\
  (exists old, LoadChunkPolicies false [id] tbl = Ok {[ id := old ]} /\
     row = (merge_edit req old)
             <| row_PolicyDigest := PolicyDigest (policyFromChunkRow (merge_edit req old)) |>) /\
  (forall id', id' <> id -> tbl' !! id' = tbl !! id').
Proof.
  intros (c & Hc & -> & Hrow)%edit_ok_inv Hr Hp. split_and!.
  - eexists. split; [by rewrite LoadChunkPolicies_ok|].
    rewrite load_fold_lookup, bool_decide_eq_true_2, lookup_insert_eq by set_solver.
    f_equal. rewrite load_write_row; [|done|done|by rewrite Hrow|by rewrite Hrow].
    by rewrite Hrow.
  - exists (load_row id c). rewrite LoadChunkPolicies_ok. cbn [foldl]. rewrite Hc. split; [|done].
    by rewrite insert_empty.
  - intros id' Hid. by rewrite lookup_insert_ne.
Qed.

(** An administrator who sets a chunk's permitted roles to the empty list, the
    documented deny-all, opens the chunk instead: the policy in the answer and in
    the digest refuses every request, but the stored empty array is read back as
    "no restriction", so no request is refused for its role any more unless the
    chunk is refuted. *)
Theorem empty_role_list_lifts_the_role_gate lf uf id req tbl row tbl' :
  AdminMemoryFirewallChunkPolicy lf uf id req tbl = (EditOK row, tbl') ->
  ed_PermittedRoles req = Some [] ->
  (forall e now digest r,
     fst (Decide e now (mkChunk id (policyFromChunkRow row) digest) r) <> DecisionAllow) /\
  (row_ValidationStatus row <> "refuted" ->
   forall e now r,
     fst (Decide e now (chunkFromPolicyRow id (stored_row tbl' id)) r) <>
     DecisionBlockRoleNotPermitted).
Proof.
  intros (c & Hc & -> & Hrow)%edit_ok_inv Hreq. split.
  - intros e now digest r Hd. apply Decide_allow in Hd as (_ & _ & Hr & _).
    specialize (Hr []). cbn in Hr. rewrite Hrow in Hr. cbn in Hr. rewrite Hreq in Hr.
    destruct (not_elem_of_nil _ (Hr eq_refl)).
  - intros Hv e now r.
    assert (Hnone : role_ok (ch_Policy (chunkFromPolicyRow id
              (stored_row (<[id := write_row row c]> tbl) id))) r).
    { rewrite stored_row_insert.
      destruct (effective_fields id (load_row id (write_row row c))) as (_ & _ & Hr).
      assert (Hpr : row_PermittedRoles (load_row id (write_row row c)) = None).
      { cbn. rewrite Hrow. cbn. rewrite Hreq. by rewrite parse_array_out. }
      specialize (Hr (or_intror Hpr)). rewrite Hpr, bool_decide_eq_false_2 in Hr.
      - intros roles. by rewrite Hr.
      - intros H. apply Hv. by rewrite Hrow in H |- *. }
    pose proof (Decide_cases e now (chunkFromPolicyRow id
      (stored_row (<[id := write_row row c]> tbl) id)) r) as H. cbn zeta in H.
    destruct H as [[-> H]|[[-> H]|[[-> H]|[[-> H]|[[-> H]|[-> H]]]]]]; done || tauto.
Qed.

(** ** What surfaces *)

Lemma audit_ids e ck projectID tbl req i ids :
  map ev_ChunkID (audit_of e ck projectID tbl req i ids) = ids.
Proof.
  revert i. induction ids as [|id ids IH]; intros i; [done|]. unfold audit_of in *.
  cbn [length seq zip_with map]. by rewrite IH.
Qed.

Lemma audit_lookup e ck projectID tbl req ids i a :
  audit_of e ck projectID tbl req 0 ids !! i = Some a ->
  exists id, ids !! i = Some id /\
    a = let v := verdict e ck tbl req i id in
        audit_row ck i projectID (chunkFromPolicyRow id (stored_row tbl id)) req v.1 v.2.
Proof.
  unfold audit_of. intros (j & id & -> & Hj & Hid)%lookup_zip_with_Some.
  apply lookup_seq in Hj as [-> _]. eauto.
Qed.

Lemma pass_ids_all ck tbl req e mode l :
  (mode =?? EnforcementEnforce) = false ->
  map sr_ChunkID (pass sr_ChunkID (mark_result mode ck tbl req) e mode ck tbl req 0 l) =
  map sr_ChunkID l.
Proof.
  intros Hm. generalize 0%nat. induction l as [|r l IH]; intros i; [done|].
  rewrite pass_cons. unfold surfaces. rewrite Hm. cbn [andb negb map]. by rewrite IH.
Qed.

Lemma pass_ids_sublist ck tbl req e mode l :
  map sr_ChunkID (pass sr_ChunkID (mark_result mode ck tbl req) e mode ck tbl req 0 l)
  `sublist_of` map sr_ChunkID l.
Proof.
  generalize 0%nat. induction l as [|r l IH]; intros i; [constructor|].
  rewrite pass_cons. case_match; cbn [map]; constructor; apply IH.
Qed.

(** A recall pass with the policies loaded: one audit row per hit, in order,
    with the decision, its reason and the digest; in enforce mode exactly the hits
    whose effective policy permits the request at the clock reading of their turn
    surface, otherwise all of them do; a surfaced hit keeps its place, carries a
    proof of its decision, and in advisory mode a warning exactly when the policy
    does not permit the request. *)
Theorem applyFirewall_spec fw e d ck tbl projectID results req :
  firewallDeps fw = Some (e, d) ->
  let mode := resolveMode d projectID in
  let policy r := ch_Policy (chunkFromPolicyRow (sr_ChunkID r) (stored_row tbl (sr_ChunkID r))) in
  let '(surfaced, audit) := applyFirewall fw ck false tbl projectID results req in
  map ev_ChunkID audit = map sr_ChunkID results /\
  (forall i a r, audit !! i = Some a -> results !! i = Some r ->
     ev_ChunkID a = sr_ChunkID r /\
     (ev_Decision a, ev_ReasonDetail a) = verdict e ck tbl req i (sr_ChunkID r) /\
     (ev_Decision a = DecisionAllow <-> permits e (now_at ck i) (policy r) req)) /\
  (mode <> EnforcementEnforce -> map sr_ChunkID surfaced = map sr_ChunkID results) /\
  map sr_ChunkID surfaced `sublist_of` map sr_ChunkID results /\
  (forall x, x ∈ surfaced <->
     exists i r, results !! i = Some r /\
       (mode = EnforcementEnforce -> permits e (now_at ck i) (policy r) req) /\
       x = mark_result mode ck tbl req r (verdict e ck tbl req i (sr_ChunkID r))) /\
  (forall i r, mode = EnforcementAdvisory -> results !! i = Some r -> sr_PolicyWarning r = None ->
     let x := mark_result mode ck tbl req r (verdict e ck tbl req i (sr_ChunkID r)) in
     sr_PolicyWarning x = None <-> permits e (now_at ck i) (policy r) req).
Proof.
  intros Hfw mode policy. rewrite (applyFirewall_run fw e d) by done. fold mode.
  assert (Hv : forall i r, (verdict e ck tbl req i (sr_ChunkID r)).1 = DecisionAllow <->
                           permits e (now_at ck i) (policy r) req).
  { intros i r. apply Decide_allow. }
  split_and!.
  - apply audit_ids.
  - intros i a r Ha Hr. apply audit_lookup in Ha as (id & Hid & ->).
    rewrite list_lookup_fmap, Hr in Hid. simplify_eq/=.
    rewrite <- Hv. by destruct (verdict e ck tbl req i (sr_ChunkID r)).
  - intros Hm. by apply pass_ids_all, bool_decide_eq_false_2.
  - apply pass_ids_sublist.
  - intros x. rewrite elem_of_pass. cbn [Nat.add]. setoid_rewrite <- Hv. unfold surfaces.
    split; intros (i & r & Hr & H1 & H2); exists i, r; (split; [done|]); split; try done.
    + intros Hm. rewrite (bool_decide_eq_true_2 _ Hm) in H2. cbn [andb] in H2.
      rewrite negb_involutive in H2. by apply bool_decide_eq_true in H2.
    + case_bool_decide as Hm; [|done]. by rewrite (bool_decide_eq_true_2 _ (H1 Hm)).
  - intros i r Hm Hr Hw x. rewrite <- Hv. subst x. cbn. unfold warning.
    rewrite Hw, (bool_decide_eq_true_2 _ Hm). cbn [andb].
    by case_bool_decide as Hd; cbn [negb]; split.
Qed.

Lemma credentials_sensitive p vs :
  pol_Sensitivity (ApplyClassifierSignal p "credentials" vs) = SensitivityRestricted.
Proof. unfold ApplyClassifierSignal. by destruct p, (vs =?? "refuted"). Qed.


(** ** Digests *)

(** The digest in the audit trail does not tell a refuted chunk from an
    unrefuted one: when the row has a stored digest, or an unrestricted role list,
    the recall records the same digest for both, although after the refutation
    every request is refused. *)
Theorem digest_misses_refutation id row :
  row_PolicyDigest row <> "" \/ row_PermittedRoles row = None ->
  let refuted := row <| row_ValidationStatus := "refuted" |> in
  ch_Digest (chunkFromPolicyRow id refuted) = ch_Digest (chunkFromPolicyRow id row) /\
  (forall e now r, fst (Decide e now (chunkFromPolicyRow id refuted) r) <> DecisionAllow).
Proof.
  intros Hdig refuted. split.
  - unfold chunkFromPolicyRow. cbn [ch_Digest]. subst refuted. destruct row as [? ten sens src prod trust url ex roles purp dig cc vs].
    cbn [row_PolicyDigest row_PermittedRoles] in *.
    change (row_PolicyDigest _) with dig. destruct (bool_decide_reflect (dig = "")) as [->|_]; [|done].
    destruct Hdig as [?|Hroles]; [done|]. cbn in Hroles. subst roles. unfold PolicyDigest. f_equal.
    cbn. set (src' := if src =?? "" then _ else _).
    match goal with |- context [if ?b then mkPolicy _ _ _ _ _ _ else _] => set (has := b) end.
    assert (Hp : pol_PermittedRoles (if has then mkPolicy (mkProvenance src' prod trust url) sens ex ten
                   None (purposesFromStrings purp) else DefaultPolicyForSource src' cc) = None).
    { destruct has; [done|]. apply default_policy_open. }
    revert Hp. generalize (if has then mkPolicy (mkProvenance src' prod trust url) sens ex ten
                   None (purposesFromStrings purp) else DefaultPolicyForSource src' cc).
    intros p Hp. destruct p. cbn in Hp. subst. unfold ApplyClassifierSignal, canonical.
    by destruct (cc =?? "credentials"), (vs =?? "refuted").
  - intros e now r Hd. apply Decide_allow in Hd. unfold chunkFromPolicyRow in Hd.
    cbn [ch_Policy] in Hd. apply permits_classifier in Hd as (_ & Hv & _). by apply Hv.
Qed.

(** ** Stamping *)

Lemma stamp_lookup sourceName ids tbl id c :
  tbl !! id = Some c -> id ∈ ids -> col_policy_digest c = None ->
  exists row, stampDefaultPolicies sourceName ids tbl !! id = Some (write_row row c) /\
    let p := DefaultPolicyForSource (provenanceFromSourceName sourceName) "" in
    row_SensitivityTier row = pol_Sensitivity p /\ row_TenantID row = pol_TenantID p /\
    row_FirewallExpiresAt row = pol_ExpiresAt p /\ row_PermittedRoles row = pol_PermittedRoles p /\
    row_AllowedPurposes row = Some (default [] (pol_AllowedPurposes p)).
Proof.
  intros Hc Hid Hd. unfold stampDefaultPolicies, StampDefaultPoliciesForNewChunks.
  destruct ids as [|i ids]; [set_solver|]. cbn [row_PolicyDigest orb].
  rewrite bool_decide_eq_false_2 by apply policy_hash_nonempty.
  eexists. rewrite map_lookup_imap, Hc. cbn [mbind option_bind].
  unfold stampable. rewrite bool_decide_eq_true_2 by done. rewrite Hd. cbn. by split.
Qed.

(** A chunk without policy columns. *)
Definition legacy_chunk (contentClass validationStatus : option string) : ChunkColumns :=
  mkColumns None None None None None None None None None None contentClass validationStatus.

Lemma defaults_open source :
  source <> ProvenanceCompanionRemember ->
  (DefaultsForTier (defaultSensitivityFor source)).2 = None /\
  defaultSensitivityFor source <> "" /\
  defaultSensitivityFor source <> SensitivityRestricted.
Proof.
  intros Hs. unfold defaultSensitivityFor. rewrite (bool_decide_eq_false_2 (source = ProvenanceCompanionRemember)) by done.
  by repeat case_bool_decide.
Qed.

Lemma legacy_credentials_blocked now id vs req :
  req_Purpose req = PurposeTrainingData -> req_TenantID req = "" -> vs <> Some "refuted" ->
  fst (Decide NewEvaluator now
         (chunkFromPolicyRow id (load_row id (legacy_chunk (Some "credentials") vs))) req) =
  DecisionBlockPurposeNotAllowed.
Proof.
  intros Hp Ht Hv. apply Decide_spec. cbn [ch_Policy].
  unfold chunkFromPolicyRow, load_row, legacy_chunk, expired, tenant_ok, role_ok, purpose_ok.
  cbn [ch_Policy row_ValidationStatus row_ContentClass]. cbn -[ApplyClassifierSignal DefaultPolicyForSource].
  unfold ApplyClassifierSignal. rewrite (bool_decide_eq_false_2 (default "" vs = "refuted")).
  2: { destruct vs; [|done]. cbn. congruence. }
  cbn. rewrite Ht. split_and!; [by intros (? & ? & _) | done | done | done |].
  intros H. specialize (H _ eq_refl). unfold effective_purpose in H. rewrite Hp in H.
  rewrite bool_decide_eq_false_2 in H by done.
  repeat (apply elem_of_cons in H as [H|H]; [by vm_compute in H|]). by apply elem_of_nil in H.
Qed.

(** Stamping the default policies opens credentials to training: a chunk of
    class credentials without policy columns is refused for training data, but
    once the indexer has stamped the defaults of its source on it - any source but
    a companion's - an operator's training request is allowed, because the stamped
    row keeps the open purposes of its source and only the sensitivity is raised
    when it is read. *)
Theorem stamping_opens_credentials sourceName ids tbl id vs now req :
  tbl !! id = Some (legacy_chunk (Some "credentials") vs) -> id ∈ ids ->
  provenanceFromSourceName sourceName <> ProvenanceCompanionRemember ->
  vs <> Some "refuted" ->
  req_Purpose req = PurposeTrainingData -> req_TenantID req = "" -> req_OperatorID req <> "" ->
  let decision tbl := fst (Decide NewEvaluator now (chunkFromPolicyRow id (stored_row tbl id)) req) in
  decision tbl = DecisionBlockPurposeNotAllowed /\
  decision (stampDefaultPolicies sourceName ids tbl) = DecisionAllow.
Proof.
  intros Hc Hid Hsrc Hv Hp Ht Ho decision. subst decision. split.
  { unfold stored_row. rewrite Hc. by apply legacy_credentials_blocked. }
  destruct (stamp_lookup sourceName ids tbl id _ Hc Hid eq_refl) as (row & Hrow & Hf). cbn zeta in Hf.
  unfold stored_row. rewrite Hrow. cbn [fmap option_fmap option_map default].
  destruct (defaults_open _ Hsrc) as (Hpur & Hne & Hnr).
  revert Hf. unfold DefaultPolicyForSource. cbn [bool_decide]. rewrite bool_decide_eq_false_2 by done.
  pose proof (DefaultsForTier_roles (defaultSensitivityFor (provenanceFromSourceName sourceName))) as Hro.
  destruct (DefaultsForTier _) as [roles purposes]. cbn in Hpur, Hro. subst roles purposes.
  cbn [pol_Sensitivity pol_TenantID pol_ExpiresAt pol_PermittedRoles pol_AllowedPurposes default].
  intros (Hs & Hten & Hex & Hr & Ha). apply Decide_allow.
  destruct (effective_fields id (load_row id (write_row row (legacy_chunk (Some "credentials") vs))))
    as (He & Hte & _).
  unfold chunkFromPolicyRow in *. cbn [ch_Policy] in *. apply permits_classifier. split_and!.
  2: { cbn. destruct vs; cbn; congruence. }
  2: { done. }
  cbn. rewrite Hs, Hten, Hex, Hr, Ha. unfold nullableString, nullableTime, pqStringArray. cbn [default].
  rewrite (bool_decide_eq_false_2 _ Hne). cbn [default]. rewrite (bool_decide_eq_false_2 _ Hne).
  cbn -[array_out]. rewrite !parse_array_out by done.
  unfold permits, expired, tenant_ok, role_ok, purpose_ok, tier_ok. cbn.
  split_and!; try done. by intros (? & ? & _).
Qed.

End Recall.
