(* ===== verification/FirewallScenarios.v ===== *)
(** * The memory firewall on concrete chunks

    Runs of the recall passes, the editor and the audit writer, with a printer for
    arrays and a readable digest. *)
From Stdlib Require Import Ascii.
From S2P Require Import Prelude GoStrings TaskModel TaskRepo TaskRepoFacts.
From S2P Require Import Firewall FirewallRecall FirewallFacts FirewallAudit.
Open Scope string_scope.

(** Elements that need quotes are quoted; escapes inside them are left out. *)
Definition quoted (s : string) : string :=
  if plain_element s then s
  else String (ascii_of_nat 34) (s ++ String (ascii_of_nat 34) "").

Definition text_example : ArrayText :=
  {| array_out l := "{" ++ String.concat "," (map quoted l) ++ "}" |}.

#[export] Instance text_example_plain : ArrayTextPlain text_example.
Proof.
  intros l Hl. cbn. do 3 f_equal. induction l as [|s l IH]; [done|].
  cbn in Hl. apply andb_true_iff in Hl as [Hs Hl]. cbn [map]. rewrite IH by done.
  unfold quoted. by rewrite Hs.
Qed.

Definition digest_text (c : canonicalPolicy) : string :=
  "d:" ++ cp_Sensitivity c ++ ":" ++ cp_TenantID c ++ ":" ++
  String.concat "," (default [] (cp_PermittedRoles c)).

#[refine] Definition hash_example : PolicyHash := {| policy_hash := digest_text |}.
Proof. done. Defined.

Section Examples.
Local Existing Instance pg_example.
Local Existing Instance text_example.
Local Existing Instance hash_example.

(** ** A recall *)

Definition analyst : RequestContext := mkRequest "" "" "analyst" "" "trace".

Definition restricted_chunk : ChunkColumns :=
  mkColumns None (Some "restricted") (Some "chat_turn") None (Some 50%Z) None None
    (Some ["analyst"]) None (Some "digest") None None.
Definition analyst_chunk : ChunkColumns :=
  mkColumns None (Some "internal") (Some "chat_turn") None (Some 50%Z) None (Some 5000%Z)
    (Some ["analyst"; "coder"]) None (Some "digest") (Some "decision") None.

Definition chunk_table : ChunkTable :=
  <["c1" := restricted_chunk]> (<["c2" := analyst_chunk]> (<["c3" := legacy_chunk None None]> ∅)).

Definition enforcing : FirewallDeps := mkDeps (Some NewEvaluator) EnforcementEnforce None.
Definition steady_clock : PassClock := mkClock (fun _ => 100%Z) (fun _ => "ev") 100%Z.

Definition hit (id : string) : SearchResult := mkResult id ("text of " ++ id) None None.
Definition recent_hit (id : string) : RecentChunkRow := mkRecent id ("text of " ++ id) None.

Definition hits : list SearchResult := map hit ["c1"; "c2"; "c3"].
Definition recents : list RecentChunkRow := map recent_hit ["c1"; "c2"; "c3"].

Lemma recall_example :
  map sr_ChunkID (fst (applyFirewall (Some enforcing) steady_clock false chunk_table "p" hits analyst)) =
  ["c2"; "c3"].
Proof. by vm_compute. Qed.

Lemma c2_surfaces :
  mark_result EnforcementEnforce steady_clock chunk_table analyst (hit "c2")
    (verdict NewEvaluator steady_clock chunk_table analyst 1 "c2")
  ∈ fst (applyFirewall (Some enforcing) steady_clock false chunk_table "p" hits analyst).
Proof. vm_compute. left. Qed.

Lemma recent_agrees_with_recall_witness :
  map rr_ChunkID recents = map sr_ChunkID hits /\
  map rr_PolicyWarning recents = map sr_PolicyWarning hits /\
  map rr_ChunkID (fst (RecentWithContext (Some enforcing) steady_clock false chunk_table "p"
                         recents analyst)) =
  map sr_ChunkID (fst (applyFirewall (Some enforcing) steady_clock false chunk_table "p"
                         hits analyst)).
Proof.
  split; [done|]. split; [done|].
  by apply (recent_agrees_with_recall (Some enforcing) steady_clock false chunk_table "p" hits
              recents analyst).
Defined.

Lemma applyFirewall_spec_witness :
  firewallDeps (Some enforcing) = Some (NewEvaluator, enforcing) /\
  map ev_ChunkID (snd (applyFirewall (Some enforcing) steady_clock false chunk_table "p" hits
                         analyst)) = ["c1"; "c2"; "c3"].
Proof.
  split; [done|].
  pose proof (applyFirewall_spec (Some enforcing) NewEvaluator enforcing steady_clock chunk_table
                "p" hits analyst eq_refl) as H.
  cbn zeta in H. destruct (applyFirewall _ _ _ _ _ _ _) as [surfaced audit].
  exact (proj1 H).
Defined.


(** ** Edits *)

Definition no_edit : chunkPolicyUpdateRequest :=
  mkEdit None None None None None None None None None.

Definition analysts_only : chunkPolicyUpdateRequest :=
  no_edit <| ed_SensitivityTier := Some "internal" |> <| ed_PermittedRoles := Some ["analyst"] |>
          <| ed_FirewallExpiresAt := Some 5000%Z |>.
Definition nobody : chunkPolicyUpdateRequest := no_edit <| ed_PermittedRoles := Some [] |>.

Definition edited_row (id : string) (req : chunkPolicyUpdateRequest) : ChunkPolicyRow :=
  let row := merge_edit req (load_row id (default (legacy_chunk None None) (chunk_table !! id))) in
  row <| row_PolicyDigest := PolicyDigest (policyFromChunkRow row) |>.

Definition edited_table (id : string) (req : chunkPolicyUpdateRequest) : ChunkTable :=
  <[id := write_row (edited_row id req) (default (legacy_chunk None None) (chunk_table !! id))]>
    chunk_table.

Lemma analysts_only_edit :
  AdminMemoryFirewallChunkPolicy false false "c3" analysts_only chunk_table =
  (EditOK (edited_row "c3" analysts_only), edited_table "c3" analysts_only).
Proof. by vm_compute. Qed.

Lemma nobody_edit :
  AdminMemoryFirewallChunkPolicy false false "c2" nobody chunk_table =
  (EditOK (edited_row "c2" nobody), edited_table "c2" nobody).
Proof. by vm_compute. Qed.

Lemma edit_roundtrip_witness :
  row_PermittedRoles (edited_row "c3" analysts_only) = Some ["analyst"] /\
  exists policies, LoadChunkPolicies false ["c3"] (edited_table "c3" analysts_only) = Ok policies /\
    policies !! "c3" =
      Some ((edited_row "c3" analysts_only)
              <| row_FirewallExpiresAt :=
                   nullableTime (row_FirewallExpiresAt (edited_row "c3" analysts_only)) |>
              <| row_PermittedRoles :=
                   reread (row_PermittedRoles (edited_row "c3" analysts_only)) |>
              <| row_AllowedPurposes :=
                   reread (row_AllowedPurposes (edited_row "c3" analysts_only)) |>).
Proof.
  split; [done|].
  apply (edit_roundtrip false false "c3" analysts_only chunk_table _ _ analysts_only_edit
           eq_refl eq_refl).
Defined.

(** The chunk was open to analysts and coders; after the edit a stranger reads it. *)
Definition stranger : RequestContext := mkRequest "" "" "stranger" "" "trace".

Lemma nobody_edit_opens :
  fst (Decide NewEvaluator 100 (chunkFromPolicyRow "c2" (stored_row chunk_table "c2")) stranger) =
    DecisionBlockRoleNotPermitted /\
  fst (Decide NewEvaluator 100 (chunkFromPolicyRow "c2" (stored_row (edited_table "c2" nobody) "c2"))
         stranger) = DecisionAllow.
Proof. by vm_compute. Qed.

Lemma empty_role_list_lifts_the_role_gate_witness :
  ed_PermittedRoles nobody = Some [] /\
  fst (Decide NewEvaluator 100 (mkChunk "c2" (policyFromChunkRow (edited_row "c2" nobody)) "") stranger)
    <> DecisionAllow /\
  fst (Decide NewEvaluator 100 (chunkFromPolicyRow "c2" (stored_row (edited_table "c2" nobody) "c2"))
         stranger) <> DecisionBlockRoleNotPermitted.
Proof.
  split; [done|].
  pose proof (empty_role_list_lifts_the_role_gate false false "c2" nobody chunk_table _ _
                nobody_edit eq_refl) as [H1 H2].
  split; [apply H1 | apply H2; discriminate].
Defined.

Lemma digest_misses_refutation_witness :
  row_PolicyDigest (load_row "c2" analyst_chunk) <> "" /\
  ch_Digest (chunkFromPolicyRow "c2" ((load_row "c2" analyst_chunk) <| row_ValidationStatus := "refuted" |>)) =
  ch_Digest (chunkFromPolicyRow "c2" (load_row "c2" analyst_chunk)).
Proof.
  split; [discriminate|].
  apply (digest_misses_refutation "c2" (load_row "c2" analyst_chunk)). left. discriminate.
Defined.

(** ** Stamping *)

Definition secrets_table : ChunkTable := {[ "k" := legacy_chunk (Some "credentials") None ]}.
Definition trainer : RequestContext := mkRequest "" "op" "trainer" PurposeTrainingData "trace".

Lemma stamping_opens_credentials_witness :
  secrets_table !! "k" = Some (legacy_chunk (Some "credentials") None) /\
  req_Purpose trainer = PurposeTrainingData /\
  fst (Decide NewEvaluator 100 (chunkFromPolicyRow "k" (stored_row secrets_table "k")) trainer) =
    DecisionBlockPurposeNotAllowed /\
  fst (Decide NewEvaluator 100 (chunkFromPolicyRow "k"
         (stored_row (stampDefaultPolicies "task_output_7" ["k"] secrets_table) "k")) trainer) =
    DecisionAllow.
Proof.
  split; [done|]. split; [done|].
  apply (stamping_opens_credentials "task_output_7" ["k"] secrets_table "k" None 100 trainer);
    first [done | by left | discriminate].
Defined.

End Examples.

(** ** The audit writer *)

Definition busy_schedule : list (Event string) :=
  [EvStart; EvEnqueue "a"; EvRecv true; EvEnqueue "b"; EvEnqueue "c"; EvTick false; EvRecv true].

Definition busy_writer : AuditWriter string :=
  mkWriter ["c"] ["b"] Selecting false false [(["a"], false)] [].

Lemma busy_run : writer_run busy_schedule NewAuditWriter = Some busy_writer.
Proof. by vm_compute. Qed.

Lemma audit_rows_in_order_witness :
  writer_run busy_schedule NewAuditWriter = Some busy_writer /\
  (attempted busy_writer ++ aw_buf busy_writer ++ aw_queue busy_writer)%list
    `sublist_of` enqueued busy_schedule.
Proof.
  split; [exact busy_run|]. apply (audit_rows_in_order busy_schedule busy_writer busy_run).
Defined.

Definition stopping_writer : AuditWriter string :=
  busy_writer <| aw_stop := true |> <| aw_flusher := DrainLoop |>.
Definition stopped_writer : AuditWriter string :=
  mkWriter [] [] Returned true false [(["a"], false); (["b"; "c"], true)] [].

Lemma stopping_run :
  writer_run [EvRecv true; EvDrainExit true] stopping_writer = Some stopped_writer.
Proof. by vm_compute. Qed.

Lemma stop_drains_queue_witness :
  aw_done stopped_writer = true /\
  attempted stopped_writer =
    (attempted stopping_writer ++ aw_buf stopping_writer ++ aw_queue stopping_writer)%list.
Proof.
  split; [done|].
  destruct (stop_drains_queue stopping_writer [EvRecv true; EvDrainExit true] stopped_writer
              eq_refl eq_refl stopping_run) as (_ & H & _). apply (H eq_refl).
Defined.

Definition cancelled_writer : AuditWriter string :=
  mkWriter ["c"] ["b"] Selecting false true [(["a"], false)] [].

Lemma cancelled_writer_loses_queue_witness :
  aw_cancelled cancelled_writer = true /\
  exists w1, writer_step (EvCtxDone false) cancelled_writer = Some w1 /\
    forall later w2, writer_run later w1 = Some w2 -> ["c"] `prefix_of` aw_queue w2.
Proof.
  split; [done|].
  destruct (cancelled_writer_loses_queue cancelled_writer false eq_refl eq_refl)
    as (w1 & H1 & _ & H2).
  exists w1. split; [exact H1|]. intros later w2 Hr. apply (H2 later w2 Hr).
Defined.
