(* ===== verification/StepRetry.v ===== *)
(** * Retrying an agent step

    [src/internal/executor/retry.go]: three layers around one run of an agent
    container.  Infrastructure failures are retried with a backoff, a malformed
    result is retried once with a corrective prompt, and a failure that another
    model might avoid is retried on the role's fallback model.  The layers decide
    by the text of errors.  What an agent run answers, whether the context is
    cancelled during a backoff and what the outcome table holds are functions of
    the run so far; the [Trace] records the runs and the sleeps.  Metrics and logs
    are left out. *)
From stdpp Require Import pretty.
From Stdlib Require Import Ascii.
From S2P Require Import Prelude GoStrings TaskModel Workflow Gates Engine.
Open Scope string_scope.

(** ** Errors

    An error is its text and what [errors.As] and [errors.Is] find in its chain:
    the executor's [retryableError], a typed failure class, the two context
    errors.  [%w] keeps the chain and changes the text. *)
Record GoError : Type := mkError {
  e_text : string;
  e_retryable : bool;
  e_class : option string;
  e_deadline : bool;
  e_canceled : bool
}.

Definition plain_error (text : string) : GoError := mkError text false None false false.

(** ** Constants *)

Definition shapeRetryMaxAttempts : Z := 1.
Definition shapeRetryLoopCap : Z := 3.
Definition infraRetryMaxAttempts : nat := 6.
Definition infraRetryTimeoutAttempts : nat := 2.
Definition infraRetryBaseDelay : duration := 1500 * Millisecond.
Definition infraRetryMaxDelay : duration := 20 * Second.
Definition priorAttemptMaxChars : nat := 4000.

(** ** What an error text says *)

Definition containsAny (hay : string) (needles : list string) : bool :=
  existsb (contains hay) needles.

Definition infraFailureMarkers : list string :=
  ["curl: (6)"; "curl: (7)"; "curl: (28)"; "curl: (35)"; "curl: (52)"; "curl: (56)";
   "gateway error 502"; "gateway error 503"; "gateway error 504"; "PROVIDER_ERROR";
   "connection refused"; "Connection refused"; "no such host"; "i/o timeout"].

Definition isInfraFailure (err : GoError) : bool :=
  if e_retryable err then false else containsAny (e_text err) infraFailureMarkers.

Definition timeout_words : list string :=
  ["timed out"; "timeout"; "deadline"; "(28)"; "no bytes received"].

Definition isTimeoutInfraFailure (err : GoError) : bool :=
  containsAny (ToLower (e_text err)) timeout_words.

Definition isPersistentTimeoutFailure (err : GoError) : bool :=
  if negb (contains (e_text err) "infra retry exhausted") then false
  else containsAny (ToLower (e_text err)) timeout_words.

Inductive shapeFailureKind : Type := shapeFailureNone | shapeFailureJSON | shapeFailurePlausibility.

#[export] Instance shapeFailureKind_eq_dec : EqDecision shapeFailureKind.
Proof. solve_decision. Defined.

Definition classifyShapeFailure (err : GoError) : shapeFailureKind :=
  let msg := e_text err in
  if contains msg "plausibility violation" then shapeFailurePlausibility
  else if contains msg "schema violation: role" then shapeFailureJSON
  else if contains msg "is missing required keys" then shapeFailureJSON
  else if contains msg "could not parse plan from lead output" then shapeFailureJSON
  else if contains msg "result.json" && (contains msg "parse" || contains msg "unmarshal")
       then shapeFailureJSON
  else shapeFailureNone.

Definition isShapeFailure (err : GoError) : bool :=
  negb (classifyShapeFailure err =?? shapeFailureNone).

Definition isModelShapedFailure (err : GoError) : bool :=
  if negb (classifyShapeFailure err =?? shapeFailureNone) then true
  else if contains (e_text err) "Tool iteration limit" || contains (e_text err) "tool iteration cap"
       then true
  else contains (e_text err) "PROVIDER_ERROR".

(** ** The corrective prompt *)

Definition truncateForPrompt (s : string) (max : nat) : string :=
  if (String.length s <=? max)%nat then s else take_bytes max s ++ "…(truncated)".

Definition newline : string := String (ascii_of_nat 10) "".

Definition shapeRetryHint (failure : string) : string :=
  newline ++ newline ++ "[CORRECTION: your previous attempt failed schema validation: " ++ failure ++
  ". Respond ONLY with the required JSON object as a top-level value. " ++
  "No prose before or after. No markdown code fences. " ++
  "No 'Here is the result:' preamble. " ++
  "The output must parse with `jq .` and contain every required key.]".

Definition plausibilityRetryHint (failure : string) : string :=
  newline ++ newline ++ "[CORRECTION: your previous attempt failed plausibility validation: " ++
  failure ++
  ". Your JSON shape was correct but the field values were inconsistent or empty where they shouldn't be. " ++
  "Re-answer with values that match each other (e.g. if approved:false, populate feedback with the specific issue) " ++
  "and don't leave required-content fields blank. Same JSON structure as before; just fix the content.]".

Definition priorAttemptAnchor (message : string) : string :=
  newline ++ newline ++
  "Your previous attempt's content (re-format it into the JSON shape above; do NOT abandon prior decisions or substantive findings):" ++
  newline ++ "<<<PRIOR_ATTEMPT" ++ newline ++ message ++ newline ++ ">>>PRIOR_ATTEMPT".

(** [json.Unmarshal] of a result into its [message] field. *)
Class MessageCodec : Type := { unmarshal_message : string -> option string }.

Definition extractPriorMessage `{MessageCodec} (result : string) : string :=
  if result =?? "" then ""
  else match unmarshal_message result with
       | None => ""
       | Some message =>
           let msg := TrimSpace (stripReasoning message) in
           if (String.length msg <? 50)%nat then ""
           else if (priorAttemptMaxChars <? String.length msg)%nat
                then take_bytes priorAttemptMaxChars msg ++ newline ++ "…(truncated)"
                else msg
       end.

(** The leftmost match of [missingKeysRegex]: the text between the brackets. *)
Fixpoint match_missing_keys (fuel : nat) (s : string) : option string :=
  match fuel with
  | O => None
  | S fuel =>
      match cut "is missing required keys:" s with
      | None => None
      | Some (_, rest) =>
          match skip_re_space rest with
          | String "[" inner => match cut "]" inner with
                                | Some (keys, _) => Some keys
                                | None => match_missing_keys fuel rest
                                end
          | _ => match_missing_keys fuel rest
          end
      end
  end.

(** [strings.FieldsFunc] at spaces, commas and tabs. *)
Fixpoint fields_go (acc : string) (s : string) : list string :=
  let flush := if acc =?? "" then [] else [string_rev acc] in
  match s with
  | "" => flush
  | String c s' =>
      if bool_decide (c ∈ [" "%char; ","%char; ascii_of_nat 9]) then (flush ++ fields_go "" s')%list
      else fields_go (String c acc) s'
  end.

Definition extractMissingKeysFromError (err : GoError) : list string :=
  match match_missing_keys (S (String.length (e_text err))) (e_text err) with
  | None => []
  | Some keys =>
      let inner := TrimSpace keys in
      if inner =?? "" then []
      else filter (fun p => p <> "") (map TrimSpace (fields_go "" inner))
  end.

(** A role of the swarm; [OutputSchema] is its rendering for a prompt. *)
Record SwarmRole : Type := mkRole {
  r_Name : string;
  r_Model : string;
  r_ModelFallback : string;
  r_OutputSchema : option string
}.

Definition buildShapeRetryHint `{MessageCodec} (err : GoError) (kind : shapeFailureKind)
    (priorResult roleHint : string) (role : option SwarmRole) : string :=
  let failure := truncateForPrompt (e_text err) 400 in
  let hint := if kind =?? shapeFailurePlausibility then plausibilityRetryHint failure
              else shapeRetryHint failure in
  let hint :=
    if kind =?? shapeFailureJSON then
      let hint := match extractMissingKeysFromError err with
                  | [] => hint
                  | missing => hint ++ newline ++ newline ++ "Missing keys: [" ++
                               String.concat ", " missing ++ "]"
                  end in
      match role with
      | Some r => match r_OutputSchema r with
                  | Some rendered => if rendered =?? "" then hint
                                     else hint ++ newline ++ newline ++ "Required schema:" ++
                                          newline ++ rendered
                  | None => hint
                  end
      | None => hint
      end
    else hint in
  let prior := extractPriorMessage priorResult in
  let hint := if prior =?? "" then hint else hint ++ priorAttemptAnchor prior in
  if roleHint =?? "" then hint
  else hint ++ newline ++ newline ++ "[ROLE GUIDANCE: " ++ roleHint ++ "]".

(** ** The layers *)

(** One run of the agent: its step id, its prompt and the roles of its plan. *)
Record StepCall : Type := mkCall {
  sc_ID : string;
  sc_Prompt : string;
  sc_Roles : list SwarmRole
}.

Record StepAnswer : Type := mkAnswer {
  a_cid : string;
  a_result : string;
  a_err : option GoError
}.

(** The outside: the answer of the [n]-th agent run; whether the context is done
    during the [n]-th backoff; the rows [outcomeRepo.List] returns at the [n]-th
    question, [None] when it fails or is not configured. *)
Record World : Type := mkWorld {
  agent : nat -> StepCall -> StepAnswer;
  ctx_done : nat -> option GoError;
  outcomes : nat -> option (list string)
}.

Record Trace : Type := mkTrace {
  t_calls : list StepCall;
  t_sleeps : list duration;
  t_questions : nat
}.

Definition empty_trace : Trace := mkTrace [] [] 0.

Section Layers.
Context {MC : MessageCodec}.
Variable w : World.

Definition executeAgentStep (c : StepCall) (tr : Trace) : StepAnswer * Trace :=
  (agent w (length (t_calls tr)) c, tr <| t_calls := (t_calls tr ++ [c])%list |>).

Definition infra_step_id (stepID : string) (attempt : nat) : string :=
  if (1 <? attempt)%nat then stepID ++ "_infra_retry" ++ pretty (attempt - 1)%nat else stepID.

Definition exhausted (attempts : nat) (ans : StepAnswer) (err : GoError) : StepAnswer :=
  mkAnswer (a_cid ans) (a_result ans)
    (Some (err <| e_text := "infra retry exhausted after " ++ pretty attempts ++ " attempts: " ++
                            e_text err |>)).

(** The loop from [attempt] on; [fuel] is the number of attempts left. *)
Fixpoint infra_attempts (fuel attempt : nat) (delay : duration) (timeoutFailures : nat)
    (stepID prompt : string) (roles : list SwarmRole) (tr : Trace) : StepAnswer * Trace :=
  let '(ans, tr) := executeAgentStep (mkCall (infra_step_id stepID attempt) prompt roles) tr in
  match a_err ans with
  | None => (ans, tr)
  | Some err =>
      if negb (isInfraFailure err) then (ans, tr)
      else
        let timeoutFailures := if isTimeoutInfraFailure err then S timeoutFailures
                               else timeoutFailures in
        if isTimeoutInfraFailure err && (infraRetryTimeoutAttempts <=? timeoutFailures)%nat
        then (exhausted attempt ans err, tr)
        else match fuel with
             | O => (exhausted attempt ans err, tr)
             | S fuel =>
                 let delay := if (infraRetryMaxDelay <? delay)%Z then infraRetryMaxDelay else delay in
                 let n := length (t_sleeps tr) in
                 let tr := tr <| t_sleeps := (t_sleeps tr ++ [delay])%list |> in
                 match ctx_done w n with
                 | Some cancelled => (mkAnswer (a_cid ans) (a_result ans) (Some cancelled), tr)
                 | None => infra_attempts fuel (S attempt) (delay * 2)%Z timeoutFailures
                             stepID prompt roles tr
                 end
             end
  end.

Definition executeAgentStepWithInfraRetry (stepID prompt : string) (roles : list SwarmRole)
    (tr : Trace) : StepAnswer * Trace :=
  infra_attempts (infraRetryMaxAttempts - 1) 1 infraRetryBaseDelay 0 stepID prompt roles tr.

(** The rows counted are at most a page of fifty. *)
Definition priorShapeFailureCount (tr : Trace) : Z * Trace :=
  (match outcomes w (t_questions tr) with
   | None => 0%Z
   | Some rows =>
       Z.of_nat (count_if (fun o => (o =?? "schema_violation") || (o =?? "parse_error"))
                          (take 50 rows))
   end, tr <| t_questions := S (t_questions tr) |>).

Definition findSwarmRole (roles : list SwarmRole) (name : string) : option SwarmRole :=
  head (filter (fun r => r_Name r = name) roles).

(** The options of an agent step that the layers use. *)
Record agentInputOpts : Type := mkOpts {
  StepPrompt : string;
  ShapeRetryHint : string
}.

Definition with_original (err2 err : GoError) : GoError :=
  err2 <| e_text := e_text err2 ++ " (original error before retry: " ++
                    truncateForPrompt (e_text err) 200 ++ ")" |>.

Definition executeAgentStepWithShapeRetry (stepID role : string) (opts : agentInputOpts)
    (roles : list SwarmRole) (tr : Trace) : StepAnswer * Trace :=
  let '(ans, tr) := executeAgentStepWithInfraRetry stepID (StepPrompt opts) roles tr in
  match a_err ans with
  | None => (ans, tr)
  | Some err =>
      let kind := classifyShapeFailure err in
      if kind =?? shapeFailureNone then (ans, tr)
      else if (shapeRetryMaxAttempts <=? 0)%Z then (ans, tr)
      else
        let '(count, tr) := priorShapeFailureCount tr in
        if (shapeRetryLoopCap <=? count)%Z then
          (mkAnswer (a_cid ans) (a_result ans)
             (Some (err <| e_text := "shape retry loop cap hit (3 prior shape failures): " ++
                                     e_text err |>)), tr)
        else
          let hint := buildShapeRetryHint err kind (a_result ans) (ShapeRetryHint opts)
                        (findSwarmRole roles role) in
          let '(ans2, tr) := executeAgentStepWithInfraRetry (stepID ++ "_shape_retry")
                               (StepPrompt opts ++ hint) roles tr in
          match a_err ans2 with
          | None => (ans2, tr)
          | Some err2 => (mkAnswer (a_cid ans2) (a_result ans2) (Some (with_original err2 err)), tr)
          end
  end.

(** The first role of that name is replaced. *)
Fixpoint replace_role (name : string) (r : SwarmRole) (roles : list SwarmRole) : list SwarmRole :=
  match roles with
  | [] => []
  | r' :: roles => if r_Name r' =?? name then r :: roles else r' :: replace_role name r roles
  end.

Definition with_primary (err2 err : GoError) (model : string) : GoError :=
  err2 <| e_text := e_text err2 ++ " (primary model " ++ quote_go model ++ " also failed: " ++
                    truncateForPrompt (e_text err) 200 ++ ")" |>.

Definition executeAgentStepWithFallback (stepID role : string) (opts : agentInputOpts)
    (roleConfig : option SwarmRole) (roles : list SwarmRole) (tr : Trace) : StepAnswer * Trace :=
  let '(ans, tr) := executeAgentStepWithShapeRetry stepID role opts roles tr in
  match a_err ans, roleConfig with
  | None, _ | _, None => (ans, tr)
  | Some err, Some cfg =>
      if TrimSpace (r_ModelFallback cfg) =?? "" then (ans, tr)
      else if negb (isModelShapedFailure err) && negb (isPersistentTimeoutFailure err) then (ans, tr)
      else
        let fallbackRole := cfg <| r_Model := r_ModelFallback cfg |> <| r_ModelFallback := "" |> in
        let '(ans2, tr) := executeAgentStepWithShapeRetry (stepID ++ "_model_fallback") role opts
                             (replace_role (r_Name cfg) fallbackRole roles) tr in
        match a_err ans2 with
        | None => (ans2, tr)
        | Some err2 =>
            (mkAnswer (a_cid ans2) (a_result ans2) (Some (with_primary err2 err (r_Model cfg))), tr)
        end
  end.

End Layers.
