(* ===== verification/StepRetryFacts.v ===== *)
(** * What the retry layers guarantee

    How often an agent step runs, under which step ids and after which pauses, and
    what the layers return. *)
From stdpp Require Import pretty.
From Stdlib Require Import Ascii.
From S2P Require Import Prelude GoStrings TaskModel Workflow Gates Engine StepRetry.
Open Scope string_scope.

(** ** The plan of a step *)

(** The pauses between the six attempts of one layer. *)
Definition backoffs : list duration :=
  [1500 * Millisecond; 3 * Second; 6 * Second; 12 * Second; 20 * Second]%Z.

Fixpoint schedule (fuel : nat) (delay : duration) : list duration :=
  match fuel with
  | O => []
  | S fuel => let delay := if (infraRetryMaxDelay <? delay)%Z then infraRetryMaxDelay else delay in
              delay :: schedule fuel (delay * 2)%Z
  end.

Lemma schedule_backoffs : schedule 5 infraRetryBaseDelay = backoffs.
Proof. by vm_compute. Qed.

Definition infra_suffixes : list string :=
  [""; "_infra_retry1"; "_infra_retry2"; "_infra_retry3"; "_infra_retry4"; "_infra_retry5"].

Definition layer_suffixes : list string :=
  [""; "_shape_retry"; "_model_fallback"; "_model_fallback_shape_retry"].

(** The step ids a step may run under, in the order of the layers. *)
Definition plan_suffixes : list string :=
  layer_suffixes ≫= (fun l => map (fun s => l ++ s) infra_suffixes).

Lemma plan_suffixes_NoDup : NoDup plan_suffixes.
Proof. apply (bool_decide_unpack _). by vm_compute. Qed.

Definition infra_calls (stepID prompt : string) (roles : list SwarmRole) (from n : nat) :
    list StepCall :=
  map (fun k => mkCall (infra_step_id stepID k) prompt roles) (seq from n).

Lemma infra_step_ids stepID n :
  (n <= 6)%nat ->
  map (infra_step_id stepID) (seq 1 n) = map (fun s => stepID ++ s) (take n infra_suffixes).
Proof.
  intros Hn. do 7 (destruct n as [|n]; [cbn; rewrite ?string_app_nil; done|]). lia.
Qed.

Section Layers.
Context {MC : MessageCodec}.
Variable w : World.

(** The answer of the [i]-th run. *)
Definition answer_at (tr : Trace) (i : nat) : option StepAnswer := agent w i <$> t_calls tr !! i.

Definition all_failed (tr : Trace) : Prop :=
  forall i ans, answer_at tr i = Some ans -> a_err ans <> None.

(** [ans] is what the last run answered, up to the text of its error, and every
    earlier run failed. *)
Definition last_run (tr : Trace) (ans : StepAnswer) : Prop :=
  exists i last, length (t_calls tr) = S i /\ answer_at tr i = Some last /\
    a_cid ans = a_cid last /\ a_result ans = a_result last /\
    (a_err ans = None <-> a_err last = None) /\
    forall j a, (j < i)%nat -> answer_at tr j = Some a -> a_err a <> None.

Lemma last_run_failed tr ans : last_run tr ans -> a_err ans <> None -> all_failed tr.
Proof.
  intros (i & last & Hlen & Hi & _ & _ & Herr & Hj) Hne j a Ha.
  assert (j < S i)%nat.
  { rewrite <- Hlen. unfold answer_at in Ha. apply fmap_Some in Ha as (c & Hc & _).
    by eapply lookup_lt_Some. }
  destruct (decide (j = i)) as [->|]; [|apply (Hj j a); [lia|done]].
  rewrite Hi in Ha. injection Ha as <-. tauto.
Qed.

(** Changing the text of an error, or replacing an error by another. *)
Lemma last_run_error tr ans err err' :
  last_run tr ans -> a_err ans = Some err ->
  last_run tr (mkAnswer (a_cid ans) (a_result ans) (Some err')).
Proof.
  intros (i & last & Hlen & Hi & Hc & Hr & Herr & Hj) He.
  exists i, last. split_and!; try done. cbn. split; [done|]. intros Hn. apply Herr in Hn. congruence.
Qed.

Lemma last_run_step tr c ans tr' :
  all_failed tr -> executeAgentStep w c tr = (ans, tr') ->
  last_run tr' ans /\ t_calls tr' = (t_calls tr ++ [c])%list /\ t_sleeps tr' = t_sleeps tr /\
  t_questions tr' = t_questions tr.
Proof.
  intros Hf Hs. assert (Ha : ans = agent w (length (t_calls tr)) c) by by injection Hs.
  assert (Hc : t_calls tr' = (t_calls tr ++ [c])%list) by by injection Hs as _ <-.
  split_and!; [|done|by injection Hs as _ <-|by injection Hs as _ <-].
  exists (length (t_calls tr)), ans. unfold answer_at. rewrite Hc, length_app.
  cbn [length]. split_and!; try done; [lia| |].
  - by rewrite lookup_app_r, Nat.sub_diag, Ha by lia.
  - intros j a Hj Hja. rewrite lookup_app_l in Hja by done. by apply (Hf j).
Qed.

(** One layer from attempt [from] on: its runs, its pauses and its answer. *)
Definition ran (stepID prompt : string) (roles : list SwarmRole) (from limit : nat)
    (pauses : list duration) (tr tr' : Trace) (ans : StepAnswer) : Prop :=
  exists n m, (1 <= n <= limit)%nat /\
    t_calls tr' = (t_calls tr ++ infra_calls stepID prompt roles from n)%list /\
    t_sleeps tr' = (t_sleeps tr ++ take m pauses)%list /\
    t_questions tr' = t_questions tr /\ last_run tr' ans.

Lemma ran_once stepID prompt roles from limit pauses tr tr' ans :
  (1 <= limit)%nat ->
  t_calls tr' = (t_calls tr ++ [mkCall (infra_step_id stepID from) prompt roles])%list ->
  t_sleeps tr' = t_sleeps tr -> t_questions tr' = t_questions tr -> last_run tr' ans ->
  ran stepID prompt roles from limit pauses tr tr' ans.
Proof.
  intros Hn Hc Hs Hq Hl. exists 1%nat, 0%nat. split_and!; try done.
  by rewrite Hs, take_0, app_nil_r.
Qed.

Lemma infra_attempts_spec fuel attempt delay timeouts stepID prompt roles tr ans tr' :
  all_failed tr ->
  infra_attempts w fuel attempt delay timeouts stepID prompt roles tr = (ans, tr') ->
  ran stepID prompt roles attempt (S fuel) (schedule fuel delay) tr tr' ans.
Proof.
  revert attempt delay timeouts tr. induction fuel as [|fuel IH];
    intros attempt delay timeouts tr Hf H; cbn [infra_attempts] in H;
    destruct (executeAgentStep w _ tr) as [a tr1] eqn:Hs;
    destruct (last_run_step _ _ _ _ Hf Hs) as (Hl & Hc & Hsl & Hq).
  all: assert (Hone : forall limit pauses, (1 <= limit)%nat -> last_run tr1 ans -> tr1 = tr' ->
      ran stepID prompt roles attempt limit pauses tr tr' ans)
    by (intros ? ? ? ? <-; by apply ran_once).
  all: destruct (a_err a) as [err|] eqn:He; [|simplify_eq; apply Hone; [lia|done|done]].
  all: destruct (isInfraFailure err); cbn [negb] in H; [|simplify_eq; apply Hone; [lia|done|done]].
  all: assert (Hex : last_run tr1 (exhausted attempt a err)) by by eapply last_run_error.
  all: destruct (isTimeoutInfraFailure err && _); [simplify_eq; apply Hone; [lia|done|done]|].
  { simplify_eq. apply Hone; [lia|done|done]. }
  cbn [schedule]. set (d := if (infraRetryMaxDelay <? delay)%Z then infraRetryMaxDelay else delay) in *.
  set (tr2 := tr1 <| t_sleeps := (t_sleeps tr1 ++ [d])%list |>) in *.
  assert (Hl2 : forall x, last_run tr1 x -> last_run tr2 x) by done.
  destruct (ctx_done w (length (t_sleeps tr1))) as [cancelled|].
  - simplify_eq. exists 1%nat, 1%nat. split_and!; [lia|lia|done| |done|].
    + cbn. by rewrite Hsl.
    + change (last_run tr1 (mkAnswer (a_cid a) (a_result a) (Some cancelled))).
      by eapply last_run_error.
  - apply IH in H as (n & m & Hn & Hc' & Hs' & Hq' & Hl').
    + exists (S n), (S m). split_and!; [lia|lia| | | |done].
      * rewrite Hc'. change (t_calls tr2) with (t_calls tr1). rewrite Hc.
        cbn [infra_calls seq map]. by rewrite <- app_assoc.
      * rewrite Hs'. subst tr2. cbn. by rewrite Hsl, <- app_assoc.
      * by rewrite Hq'.
    + change (all_failed tr1). apply (last_run_failed tr1 a Hl). by rewrite He.
Qed.

Lemma infra_retry_spec stepID prompt roles tr ans tr' :
  all_failed tr -> executeAgentStepWithInfraRetry w stepID prompt roles tr = (ans, tr') ->
  ran stepID prompt roles 1 6 backoffs tr tr' ans.
Proof.
  intros Hf H. rewrite <- schedule_backoffs. unfold executeAgentStepWithInfraRetry in H.
  change (infraRetryMaxAttempts - 1)%nat with 5%nat in H.
  exact (infra_attempts_spec _ _ _ _ _ _ _ _ _ _ Hf H).
Qed.

(** Two layers: the runs under [stepID] and those of the shape retry. *)
Definition shape_ran (stepID prompt prompt' : string) (roles : list SwarmRole) (n n' m m' : nat)
    (tr tr' : Trace) : Prop :=
  (1 <= n <= 6)%nat /\ (n' <= 6)%nat /\
  t_calls tr' = (t_calls tr ++ infra_calls stepID prompt roles 1 n ++
                 infra_calls (stepID ++ "_shape_retry") prompt' roles 1 n')%list /\
  t_sleeps tr' = (t_sleeps tr ++ take m backoffs ++ take m' backoffs)%list.

Lemma shape_retry_spec stepID role opts roles tr ans tr' :
  all_failed tr -> executeAgentStepWithShapeRetry w stepID role opts roles tr = (ans, tr') ->
  exists prompt' n n' m m',
    shape_ran stepID (StepPrompt opts) prompt' roles n n' m m' tr tr' /\ last_run tr' ans.
Proof.
  intros Hf H. unfold executeAgentStepWithShapeRetry in H.
  destruct (executeAgentStepWithInfraRetry w stepID _ roles tr) as [a tr1] eqn:Hi.
  apply infra_retry_spec in Hi as (n & m & Hn & Hc & Hs & Hq & Hl); [|done].
  assert (Hone : forall tr2, t_calls tr2 = t_calls tr1 -> t_sleeps tr2 = t_sleeps tr1 ->
    shape_ran stepID (StepPrompt opts) "" roles n 0 m 0 tr tr2).
  { intros tr2 H1 H2. split_and!; try lia.
    - by rewrite H1, Hc, app_nil_r.
    - by rewrite H2, Hs, take_0, app_nil_r. }
  destruct (a_err a) as [err|] eqn:He.
  2: { injection H as <- <-. exists "", n, 0%nat, m, 0%nat. auto. }
  destruct (classifyShapeFailure err =?? shapeFailureNone).
  { injection H as <- <-. exists "", n, 0%nat, m, 0%nat. auto. }
  cbn [Z.leb] in H. change ((shapeRetryMaxAttempts <=? 0)%Z) with false in H.
  unfold priorShapeFailureCount in H. cbn beta iota zeta in H.
  destruct (shapeRetryLoopCap <=? _)%Z.
  { injection H as <- <-. exists "", n, 0%nat, m, 0%nat. split; [by apply Hone|].
    change (last_run tr1 (mkAnswer (a_cid a) (a_result a)
      (Some (err <| e_text := "shape retry loop cap hit (3 prior shape failures): " ++ e_text err |>)))).
    by eapply last_run_error. }
  set (tr2 := tr1 <| t_questions := _ |>) in H.
  destruct (executeAgentStepWithInfraRetry w (stepID ++ "_shape_retry") _ roles tr2) as [a2 tr3] eqn:Hi2.
  apply infra_retry_spec in Hi2 as (n' & m' & Hn' & Hc' & Hs' & Hq' & Hl').
  2: { change (all_failed tr1). apply (last_run_failed tr1 a Hl). by rewrite He. }
  assert (Htwo : exists prompt', shape_ran stepID (StepPrompt opts) prompt' roles n n' m m' tr tr3).
  { eexists. split_and!; try lia.
    - rewrite Hc'. change (t_calls tr2) with (t_calls tr1). by rewrite Hc, <- app_assoc.
    - rewrite Hs'. change (t_sleeps tr2) with (t_sleeps tr1). by rewrite Hs, <- app_assoc. }
  destruct Htwo as [prompt' Htwo]. exists prompt', n, n', m, m'.
  destruct (a_err a2) as [err2|] eqn:He2; injection H as <- <-; (split; [done|]); [|done].
  by eapply last_run_error.
Qed.

Lemma fallback_spec stepID role opts cfg roles tr ans tr' :
  all_failed tr ->
  executeAgentStepWithFallback w stepID role opts cfg roles tr = (ans, tr') ->
  last_run tr' ans /\
  exists prompt1 n1 n1' m1 m1' tr1,
    shape_ran stepID (StepPrompt opts) prompt1 roles n1 n1' m1 m1' tr tr1 /\
    (tr' = tr1 \/
     exists c prompt2 n2 n2' m2 m2', cfg = Some c /\
       shape_ran (stepID ++ "_model_fallback") (StepPrompt opts) prompt2
         (replace_role (r_Name c)
            (c <| r_Model := r_ModelFallback c |> <| r_ModelFallback := "" |>) roles)
         n2 n2' m2 m2' tr1 tr').
Proof.
  intros Hf H. unfold executeAgentStepWithFallback in H.
  destruct (executeAgentStepWithShapeRetry w stepID role opts roles tr) as [a tr1] eqn:Hi.
  apply shape_retry_spec in Hi as (p1 & n1 & n1' & m1 & m1' & Hr & Hl); [|done].
  assert (Hone : (a, tr1) = (ans, tr') -> last_run tr' ans /\
    exists prompt1 n1 n1' m1 m1' tr1,
      shape_ran stepID (StepPrompt opts) prompt1 roles n1 n1' m1 m1' tr tr1 /\
      (tr' = tr1 \/
       exists c prompt2 n2 n2' m2 m2', cfg = Some c /\
         shape_ran (stepID ++ "_model_fallback") (StepPrompt opts) prompt2
           (replace_role (r_Name c)
              (c <| r_Model := r_ModelFallback c |> <| r_ModelFallback := "" |>) roles)
           n2 n2' m2 m2' tr1 tr')).
  { intros [= <- <-]. split; [done|]. exists p1, n1, n1', m1, m1', tr1. auto. }
  destruct (a_err a) as [err|] eqn:He; [|by apply Hone].
  destruct cfg as [c|]; [|by apply Hone].
  destruct (TrimSpace (r_ModelFallback c) =?? ""); [by apply Hone|].
  destruct (negb (isModelShapedFailure err) && _); [by apply Hone|].
  destruct (executeAgentStepWithShapeRetry w (stepID ++ "_model_fallback") _ _ _ tr1) as [a2 tr2] eqn:Hi2.
  apply shape_retry_spec in Hi2 as (p2 & n2 & n2' & m2 & m2' & Hr2 & Hl2).
  2: { apply (last_run_failed tr1 a Hl). by rewrite He. }
  assert (tr2 = tr') as <- by (destruct (a_err a2); by injection H).
  split.
  - destruct (a_err a2) as [err2|] eqn:He2; injection H as <-; [|done]. by eapply last_run_error.
  - exists p1, n1, n1', m1, m1', tr1. split; [done|]. right. by exists c, p2, n2, n2', m2, m2'.
Qed.

End Layers.

(** ** Texts that survive a wrapper *)

Lemma containsAny_app a s words : containsAny s words = true -> containsAny (a ++ s) words = true.
Proof.
  unfold containsAny. rewrite !existsb_exists. intros (x & Hx & Hc). exists x.
  split; [done|]. by apply contains_app.
Qed.

(** The texts that make a shape failure. *)
Lemma isShapeFailure_texts err :
  isShapeFailure err =
    containsAny (e_text err) ["plausibility violation"; "schema violation: role";
      "is missing required keys"; "could not parse plan from lead output"] ||
    contains (e_text err) "result.json" && containsAny (e_text err) ["parse"; "unmarshal"].
Proof.
  unfold isShapeFailure, classifyShapeFailure, containsAny, existsb.
  by repeat match goal with |- context [contains ?t ?s] => destruct (contains t s); cbn end.
Qed.

Lemma shape_failure_app a err :
  isShapeFailure err = true -> isShapeFailure (err <| e_text := a ++ e_text err |>) = true.
Proof.
  rewrite !isShapeFailure_texts. change (e_text (err <| e_text := ?x |>)) with x.
  rewrite !orb_true_iff, !andb_true_iff.
  intros [H|[H1 H2]]; [left|right; split]; by (apply containsAny_app || apply contains_app).
Qed.

Lemma shape_failure_is_model_shaped err :
  isShapeFailure err = true -> isModelShapedFailure err = true.
Proof. unfold isShapeFailure, isModelShapedFailure. by intros ->. Qed.

Lemma exhausted_is_persistent n ans err :
  isTimeoutInfraFailure err = true ->
  exists err', a_err (exhausted n ans err) = Some err' /\ isPersistentTimeoutFailure err' = true.
Proof.
  intros Ht. eexists. split; [done|]. unfold isPersistentTimeoutFailure. cbn [e_text].
  change (e_text (err <| e_text := ?x |>)) with x.
  assert (contains ("infra retry exhausted after " ++ pretty n ++ " attempts: " ++ e_text err)
            "infra retry exhausted" = true) as ->.
  { change "infra retry exhausted after " with ("infra retry exhausted" ++ " after ").
    rewrite string_app_assoc. apply contains_here. }
  cbn [negb]. rewrite !ToLower_app. by do 3 apply containsAny_app.
Qed.

(** ** Single layers on a known answer *)

Section Answers.
Context {MC : MessageCodec}.
Variable w : World.

(** The trace after one more run. *)
Definition after_run (c : StepCall) (tr : Trace) : Trace :=
  tr <| t_calls := (t_calls tr ++ [c])%list |>.

(** An attempt that does not fail on infrastructure ends the layer. *)
Lemma infra_attempts_stop fuel attempt delay timeouts stepID prompt roles tr ans :
  let c := mkCall (infra_step_id stepID attempt) prompt roles in
  agent w (length (t_calls tr)) c = ans ->
  match a_err ans with None => True | Some err => isInfraFailure err = false end ->
  infra_attempts w fuel attempt delay timeouts stepID prompt roles tr = (ans, after_run c tr).
Proof.
  intros c Ha Hn. destruct fuel; cbn [infra_attempts executeAgentStep]; fold c; rewrite Ha;
    destruct (a_err ans) as [err|]; rewrite ?Hn; done.
Qed.

(** So does the last timeout of the budget. *)
Lemma infra_attempts_exhaust fuel attempt delay timeouts stepID prompt roles tr ans err :
  let c := mkCall (infra_step_id stepID attempt) prompt roles in
  agent w (length (t_calls tr)) c = ans -> a_err ans = Some err ->
  isInfraFailure err = true -> isTimeoutInfraFailure err = true ->
  (infraRetryTimeoutAttempts <= S timeouts)%nat ->
  infra_attempts w fuel attempt delay timeouts stepID prompt roles tr =
    (exhausted attempt ans err, after_run c tr).
Proof.
  intros c Ha He Hi Ht Hn. apply Nat.leb_le in Hn.
  destruct fuel; cbn [infra_attempts executeAgentStep]; fold c;
    rewrite Ha, He, Hi, Ht; cbn [negb andb]; by rewrite Hn.
Qed.

Lemma infra_retry_once stepID prompt roles tr ans :
  agent w (length (t_calls tr)) (mkCall stepID prompt roles) = ans ->
  match a_err ans with None => True | Some err => isInfraFailure err = false end ->
  executeAgentStepWithInfraRetry w stepID prompt roles tr =
    (ans, after_run (mkCall stepID prompt roles) tr).
Proof. apply (infra_attempts_stop _ 1). Qed.

Lemma shape_retry_once stepID role opts roles tr ans :
  agent w (length (t_calls tr)) (mkCall stepID (StepPrompt opts) roles) = ans ->
  a_err ans = None ->
  executeAgentStepWithShapeRetry w stepID role opts roles tr =
    (ans, after_run (mkCall stepID (StepPrompt opts) roles) tr).
Proof.
  intros Ha Hn. unfold executeAgentStepWithShapeRetry.
  erewrite infra_retry_once; [|done|by rewrite Hn]. by rewrite Hn.
Qed.

(** An attempt that fails on infrastructure is followed by a pause and another. *)
Lemma infra_attempts_again fuel attempt delay timeouts stepID prompt roles calls sleeps q ans err :
  let c := mkCall (infra_step_id stepID attempt) prompt roles in
  let timeouts' := if isTimeoutInfraFailure err then S timeouts else timeouts in
  let pause := if (infraRetryMaxDelay <? delay)%Z then infraRetryMaxDelay else delay in
  agent w (length calls) c = ans -> a_err ans = Some err -> isInfraFailure err = true ->
  isTimeoutInfraFailure err && (infraRetryTimeoutAttempts <=? timeouts')%nat = false ->
  ctx_done w (length sleeps) = None ->
  infra_attempts w (S fuel) attempt delay timeouts stepID prompt roles (mkTrace calls sleeps q) =
    infra_attempts w fuel (S attempt) (pause * 2)%Z timeouts' stepID prompt roles
      (mkTrace (calls ++ [c]) (sleeps ++ [pause]) q).
Proof.
  intros c timeouts' pause Ha He Hi Ht Hctx. cbn [infra_attempts executeAgentStep t_calls].
  fold c. rewrite Ha, He, Hi. cbn [negb]. fold timeouts'. rewrite Ht.
  fold pause. cbn [t_sleeps t_calls]. change (t_sleeps ((mkTrace calls sleeps q) <| t_calls := ?x |>)) with sleeps.
  by rewrite Hctx.
Qed.

(** Two timeouts in a row exhaust the layer. *)
Lemma infra_retry_two_timeouts stepID prompt roles calls sleeps q a1 a2 err1 err2 :
  let c1 := mkCall stepID prompt roles in
  let c2 := mkCall (stepID ++ "_infra_retry1") prompt roles in
  agent w (length calls) c1 = a1 -> agent w (S (length calls)) c2 = a2 ->
  a_err a1 = Some err1 -> a_err a2 = Some err2 ->
  isInfraFailure err1 = true -> isTimeoutInfraFailure err1 = true ->
  isInfraFailure err2 = true -> isTimeoutInfraFailure err2 = true ->
  ctx_done w (length sleeps) = None ->
  executeAgentStepWithInfraRetry w stepID prompt roles (mkTrace calls sleeps q) =
    (exhausted 2 a2 err2, mkTrace (calls ++ [c1; c2]) (sleeps ++ [infraRetryBaseDelay]) q).
Proof.
  intros c1 c2 H1 H2 E1 E2 I1 T1 I2 T2 Hctx. unfold executeAgentStepWithInfraRetry.
  change (infraRetryMaxAttempts - 1)%nat with 5%nat.
  rewrite (infra_attempts_again _ _ _ _ _ _ _ _ _ _ a1 err1); [|done|done|done|by rewrite T1|done].
  rewrite T1, (infra_attempts_exhaust _ _ _ _ _ _ _ _ a2 err2); try done.
  - unfold after_run. cbn [t_calls]. by rewrite <- app_assoc.
  - cbn [t_calls]. by rewrite length_app, Nat.add_comm.
Qed.

End Answers.
