(* ===== verification/StepRetryPlans.v ===== *)
(** * Plans of the retry layers

    The theorems on [executeAgentStepWithFallback], with the agent, the context and
    the outcome table arbitrary, and their instances on concrete runs. *)
From stdpp Require Import pretty.
From S2P Require Import Prelude GoStrings TaskModel Workflow Gates Engine StepRetry StepRetryFacts.
Open Scope string_scope.

(** ** Runs and pauses of one step *)

Definition total (ds : list duration) : duration := foldr Z.add 0%Z ds.

Lemma total_app l k : total (l ++ k) = (total l + total k)%Z.
Proof. unfold total. induction l as [|x l IH]; cbn [foldr app]; lia. Qed.

Definition pause_ok (d : duration) : Prop := (0 < d <= infraRetryMaxDelay)%Z.

Lemma backoffs_ok m :
  Forall pause_ok (take m backoffs) /\ (total (take m backoffs) <= 42500 * Millisecond)%Z.
Proof.
  assert (Forall pause_ok backoffs) by (repeat constructor; by apply Z.ltb_lt || by apply Z.leb_le).
  split; [by apply Forall_take|].
  do 6 (destruct m as [|m]; [by apply Z.leb_le; vm_compute|]). by apply Z.leb_le; vm_compute.
Qed.

Lemma infra_calls_ids stepID prompt roles n :
  (n <= 6)%nat ->
  map sc_ID (infra_calls stepID prompt roles 1 n) =
    map (fun s => stepID ++ s) (take n infra_suffixes).
Proof. intros Hn. unfold infra_calls. rewrite map_map. cbn [sc_ID]. by apply infra_step_ids. Qed.

Definition id_suffixes (layer : string) (n : nat) : list string :=
  map (fun s => layer ++ s) (take n infra_suffixes).

Definition under (stepID : string) (suffixes : list string) : list string :=
  map (fun s => stepID ++ s) suffixes.

Lemma id_suffixes_sublist layer n : sublist (id_suffixes layer n) (id_suffixes layer 6).
Proof. apply (fmap_sublist (fun s => layer ++ s)). apply sublist_take. Qed.

Lemma infra_layer_ids stepID layer prompt roles n :
  (n <= 6)%nat ->
  map sc_ID (infra_calls (stepID ++ layer) prompt roles 1 n) =
    map (fun s => stepID ++ s) (id_suffixes layer n).
Proof.
  intros Hn. rewrite infra_calls_ids by done. unfold id_suffixes. rewrite map_map.
  apply map_ext. intros s. by rewrite string_app_assoc.
Qed.

(** What two layers add to the trace. *)
Lemma shape_ran_adds {MC : MessageCodec} stepID layer prompt prompt' roles n n' m m' tr tr' :
  shape_ran (stepID ++ layer) prompt prompt' roles n n' m m' tr tr' ->
  map sc_ID (t_calls tr') =
    (map sc_ID (t_calls tr) ++
     under stepID (id_suffixes layer n ++ id_suffixes (layer ++ "_shape_retry")%string n'))%list /\
  exists ds, t_sleeps tr' = (t_sleeps tr ++ ds)%list /\ Forall pause_ok ds /\
    (total ds <= 85 * Second)%Z.
Proof.
  intros (Hn & Hn' & Hc & Hs). split.
  - unfold under. rewrite Hc, !map_app, infra_layer_ids by lia.
    by rewrite string_app_assoc, infra_layer_ids.
  - destruct (backoffs_ok m) as [F1 T1], (backoffs_ok m') as [F2 T2].
    exists (take m backoffs ++ take m' backoffs)%list. split_and!; [done|by apply Forall_app|].
    rewrite total_app. unfold Second. lia.
Qed.

Section Plans.
Context {MC : MessageCodec}.

Lemma plan_of_one stepID : stepID ++ "" = stepID.
Proof. apply string_app_nil. Qed.

(** The trace of a step that ran one or two pairs of layers. *)
Lemma plan_trace w stepID role opts cfg roles ans tr :
  executeAgentStepWithFallback w stepID role opts cfg roles empty_trace = (ans, tr) ->
  last_run w tr ans /\
  (exists ids, sublist ids plan_suffixes /\ map sc_ID (t_calls tr) = under stepID ids) /\
  Forall pause_ok (t_sleeps tr) /\ (total (t_sleeps tr) <= 170 * Second)%Z.
Proof.
  intros H. apply fallback_spec in H as (Hl & p1 & n1 & n1' & m1 & m1' & tr1 & H1 & H2).
  2: { by intros [|i] a Hi. }
  rewrite <- (plan_of_one stepID) in H1.
  apply shape_ran_adds in H1 as (Hc1 & ds1 & Hs1 & F1 & T1).
  split; [done|]. cbn [t_calls t_sleeps empty_trace map app] in Hc1, Hs1.
  assert (Hpl : plan_suffixes =
    ((id_suffixes "" 6 ++ id_suffixes "_shape_retry" 6) ++
     (id_suffixes "_model_fallback" 6 ++ id_suffixes "_model_fallback_shape_retry" 6))%list) by done.
  assert (Hsub : forall l l' n n', sublist (id_suffixes l n ++ id_suffixes l' n')%list
    (id_suffixes l 6 ++ id_suffixes l' 6)%list) by (intros; apply sublist_app; apply id_suffixes_sublist).
  destruct H2 as [->|(c & p2 & n2 & n2' & m2 & m2' & Hcfg & H2)].
  - rewrite Hc1, Hs1, Hpl. split_and!; [|done|unfold Second, Millisecond, Microsecond in *; lia].
    eexists. split; [|done]. apply sublist_inserts_r, Hsub.
  - apply shape_ran_adds in H2 as (Hc2 & ds2 & Hs2 & F2 & T2).
    unfold under in *. rewrite Hc2, Hs2, Hc1, Hs1, Hpl, <- map_app. split_and!.
    + eexists. split; [|done]. apply sublist_app; apply Hsub.
    + by apply Forall_app.
    + rewrite total_app. unfold Second, Millisecond, Microsecond in *. lia.
Qed.

(** C34: a step runs at least once and at most twenty-four times: its step ids are,
    in the order of the layers, distinct ones of the primary, shape-retry and
    fallback ids with at most five infrastructure retries each; every pause is at
    most twenty seconds and all together take at most 170 seconds. *)
Theorem retry_plan_bounded w stepID role opts cfg roles :
  let '(ans, tr) := executeAgentStepWithFallback w stepID role opts cfg roles empty_trace in
  (exists ids, sublist ids plan_suffixes /\ map sc_ID (t_calls tr) = under stepID ids) /\
  NoDup (map sc_ID (t_calls tr)) /\ (1 <= length (t_calls tr) <= 24)%nat /\
  Forall (fun d => 0 < d <= 20 * Second)%Z (t_sleeps tr) /\ (total (t_sleeps tr) <= 170 * Second)%Z.
Proof.
  destruct (executeAgentStepWithFallback w stepID role opts cfg roles empty_trace) as [ans tr] eqn:H.
  apply plan_trace in H as (Hl & (ids & Hsub & Hids) & HF & HT).
  split_and!; [by exists ids| | | |done|done].
  - rewrite Hids. apply (NoDup_fmap_2 (fun s => stepID ++ s)).
    + exact (sublist_NoDup _ _ plan_suffixes_NoDup Hsub).
  - destruct Hl as (i & last & Hlen & _). rewrite Hlen. lia.
  - rewrite <- (length_map sc_ID), Hids. unfold under. rewrite length_map.
    by apply sublist_length in Hsub.
Qed.

(** A step returns what its last run answered, up to the text of the error, and
    a run that succeeds is the last one. *)
Theorem retry_returns_last_run w stepID role opts cfg roles :
  let '(ans, tr) := executeAgentStepWithFallback w stepID role opts cfg roles empty_trace in
  exists last, answer_at w tr (pred (length (t_calls tr))) = Some last /\
    a_cid ans = a_cid last /\ a_result ans = a_result last /\
    (a_err ans = None <-> a_err last = None) /\
    forall i a, answer_at w tr i = Some a -> a_err a = None -> i = pred (length (t_calls tr)).
Proof.
  destruct (executeAgentStepWithFallback w stepID role opts cfg roles empty_trace) as [ans tr] eqn:H.
  apply plan_trace in H as ((i & last & Hlen & Hi & Hc & Hr & He & Hj) & _).
  exists last. rewrite Hlen. cbn [pred]. split_and!; try done.
  intros j a Ha Hn. destruct (decide (j < i)%nat); [by destruct (Hj j a)|].
  assert (j < length (t_calls tr))%nat; [|lia].
  unfold answer_at in Ha. apply fmap_Some in Ha as (c & Hjc & _). by eapply lookup_lt_Some.
Qed.

(** ** The fallback model *)

(** The role with its fallback model, in the place of the role. *)
Definition fallback_roles (c : SwarmRole) (roles : list SwarmRole) : list SwarmRole :=
  replace_role (r_Name c) (c <| r_Model := r_ModelFallback c |> <| r_ModelFallback := "" |>) roles.

Definition fallback_call (stepID : string) (opts : agentInputOpts) (c : SwarmRole)
    (roles : list SwarmRole) : StepCall :=
  mkCall (stepID ++ "_model_fallback") (StepPrompt opts) (fallback_roles c roles).

Lemma infra_calls_cons stepID prompt roles n :
  (1 <= n)%nat ->
  exists rest, infra_calls stepID prompt roles 1 n = mkCall stepID prompt roles :: rest.
Proof. destruct n as [|n]; [lia|]. by eexists. Qed.

Lemma last_run_all_failed w tr ans err :
  last_run w tr ans -> a_err ans = Some err -> all_failed w tr.
Proof. intros Hl He. apply (last_run_failed w tr ans Hl). by rewrite He. Qed.

(** When the primary model fails in a class of the fallback, the fallback runs. *)
Lemma fallback_runs w stepID role opts c roles a err tr1 :
  executeAgentStepWithShapeRetry w stepID role opts roles empty_trace = (a, tr1) ->
  a_err a = Some err -> TrimSpace (r_ModelFallback c) <> "" ->
  isModelShapedFailure err || isPersistentTimeoutFailure err = true ->
  let '(ans, tr) := executeAgentStepWithFallback w stepID role opts (Some c) roles empty_trace in
  let c2 := fallback_call stepID opts c roles in
  let a2 := agent w (length (t_calls tr1)) c2 in
  (exists rest, t_calls tr = t_calls tr1 ++ c2 :: rest)%list /\
  (a_err a2 = None -> ans = a2 /\ tr = after_run c2 tr1).
Proof.
  intros H He Hfb Hcl. unfold executeAgentStepWithFallback. rewrite H, He.
  rewrite (bool_decide_eq_false_2 _ Hfb), <- negb_orb, Hcl. cbn [negb].
  fold (fallback_roles c roles).
  apply shape_retry_spec in H as (_ & _ & _ & _ & _ & _ & Hl); [|by intros [|i] ? ?].
  destruct (executeAgentStepWithShapeRetry w (stepID ++ "_model_fallback") role opts
              (fallback_roles c roles) tr1) as [a2 tr2] eqn:H2.
  assert (Hcalls : exists rest,
    (t_calls tr2 = t_calls tr1 ++ fallback_call stepID opts c roles :: rest)%list).
  { apply shape_retry_spec in H2 as (p & n & n' & m & m' & (Hn & _ & Hc & _) & _).
    2: { by eapply last_run_all_failed. }
    destruct (infra_calls_cons (stepID ++ "_model_fallback") (StepPrompt opts)
      (fallback_roles c roles) n) as [rest Hr]; [lia|].
    rewrite Hc, Hr. by eexists. }
  assert (Hok : a_err (agent w (length (t_calls tr1)) (fallback_call stepID opts c roles)) = None ->
    a2 = agent w (length (t_calls tr1)) (fallback_call stepID opts c roles) /\
    tr2 = after_run (fallback_call stepID opts c roles) tr1).
  { intros Hn. erewrite shape_retry_once in H2 by done. by injection H2 as <- <-. }
  destruct (a_err a2) as [err2|] eqn:He2; (split; [done|]); [|done].
  intros Hn. destruct (Hok Hn) as [-> _]. congruence.
Qed.

(** A model that times out twice in a row is given up after one pause: the third
    run is on the role's fallback model, and its success is the step's answer. *)
Theorem persistent_timeout_reaches_fallback w stepID role opts c roles err1 err2 :
  let c1 := mkCall stepID (StepPrompt opts) roles in
  let c2 := mkCall (stepID ++ "_infra_retry1") (StepPrompt opts) roles in
  let c3 := fallback_call stepID opts c roles in
  a_err (agent w 0 c1) = Some err1 -> a_err (agent w 1 c2) = Some err2 ->
  isInfraFailure err1 = true -> isTimeoutInfraFailure err1 = true ->
  isInfraFailure err2 = true -> isTimeoutInfraFailure err2 = true ->
  (forall err, a_err (exhausted 2 (agent w 1 c2) err2) = Some err -> isShapeFailure err = false) ->
  ctx_done w 0 = None -> TrimSpace (r_ModelFallback c) <> "" ->
  let '(ans, tr) := executeAgentStepWithFallback w stepID role opts (Some c) roles empty_trace in
  (exists rest, t_calls tr = [c1; c2; c3] ++ rest)%list /\
  (a_err (agent w 2 c3) = None ->
   ans = agent w 2 c3 /\ t_calls tr = [c1; c2; c3] /\ t_sleeps tr = [1500 * Millisecond]%Z).
Proof.
  intros c1 c2 c3 E1 E2 I1 T1 I2 T2 Hns Hctx Hfb.
  destruct (exhausted_is_persistent 2 (agent w 1 c2) err2 T2) as (err & He & Hp).
  pose proof (fallback_runs w stepID role opts c roles (exhausted 2 (agent w 1 c2) err2) err
    (mkTrace [c1; c2] [infraRetryBaseDelay] 0)) as H.
  destruct (executeAgentStepWithFallback w stepID role opts (Some c) roles empty_trace) as [ans tr].
  destruct H as [[rest Hc] Hok]; [|done|done| |].
  - unfold executeAgentStepWithShapeRetry, empty_trace.
    rewrite (infra_retry_two_timeouts w stepID _ roles [] [] 0 _ _ err1 err2 eq_refl eq_refl) by done.
    fold c1 c2. cbn [length app]. rewrite He. specialize (Hns err He). unfold isShapeFailure in Hns.
    apply negb_false_iff in Hns. by rewrite Hns.
  - rewrite Hp. apply orb_true_r.
  - split; [by exists rest; rewrite Hc|]. intros Hn. destruct (Hok Hn) as [-> ->]. done.
Qed.

(** The loop cap on shape failures, documented as terminal, only skips the
    corrective run: the step still runs once more, on the fallback model. *)
Theorem loop_cap_spares_fallback w stepID role opts c roles err rows :
  let c1 := mkCall stepID (StepPrompt opts) roles in
  let c2 := fallback_call stepID opts c roles in
  a_err (agent w 0 c1) = Some err -> isInfraFailure err = false -> isShapeFailure err = true ->
  outcomes w 0 = Some rows ->
  (shapeRetryLoopCap <= Z.of_nat (count_if
     (fun o => (o =?? "schema_violation") || (o =?? "parse_error")) (take 50 rows)))%Z ->
  TrimSpace (r_ModelFallback c) <> "" ->
  let '(ans, tr) := executeAgentStepWithFallback w stepID role opts (Some c) roles empty_trace in
  (exists rest, t_calls tr = [c1; c2] ++ rest)%list /\
  (a_err (agent w 1 c2) = None -> ans = agent w 1 c2 /\ t_calls tr = [c1; c2]).
Proof.
  intros c1 c2 E1 I1 S1 Ho Hcap Hfb.
  set (a := agent w 0 c1) in *.
  set (msg := "shape retry loop cap hit (3 prior shape failures): ").
  set (err' := err <| e_text := msg ++ e_text err |>).
  pose proof (fallback_runs w stepID role opts c roles (mkAnswer (a_cid a) (a_result a) (Some err'))
    err' (mkTrace [c1] [] 1)) as H.
  destruct (executeAgentStepWithFallback w stepID role opts (Some c) roles empty_trace) as [ans tr].
  destruct H as [[rest Hc] Hok]; [|done|done| |].
  - unfold executeAgentStepWithShapeRetry.
    rewrite (infra_retry_once w stepID (StepPrompt opts) roles empty_trace a) by (done || by rewrite E1).
    cbv beta iota. rewrite E1.
    unfold isShapeFailure in S1. apply negb_true_iff in S1. rewrite S1.
    change ((shapeRetryMaxAttempts <=? 0)%Z) with false. unfold priorShapeFailureCount.
    cbn [t_questions after_run]. change (t_questions _) with 0%nat at 1. rewrite Ho.
    apply Z.leb_le in Hcap. by rewrite Hcap.
  - unfold err'. by rewrite (shape_failure_is_model_shaped _ (shape_failure_app msg err S1)).
  - split; [by exists rest; rewrite Hc|]. intros Hn. by destruct (Hok Hn) as [-> ->].
Qed.

End Plans.

(** ** Concrete runs *)

#[local] Instance no_messages : MessageCodec := {| unmarshal_message := fun _ => None |}.

Definition reviewer : SwarmRole := mkRole "reviewer" "zai.glm-5" "haiku" None.
Definition review_opts : agentInputOpts := mkOpts "review the patch" "".

Definition slow_error : GoError := plain_error "agent failed: curl: (28) Operation timed out".
Definition malformed_error : GoError :=
  plain_error "schema violation: role reviewer is missing required keys: [approved]".

(** The primary model answers with [err], the fallback model with a result. *)
Definition primary_fails (err : GoError) (rows : list string) : World := {|
  agent := fun _ c => if r_Model (default reviewer (head (sc_Roles c))) =?? "haiku"
                      then mkAnswer "c2" "{}" None else mkAnswer "c1" "" (Some err);
  ctx_done := fun _ => None;
  outcomes := fun _ => Some rows
|}.

Lemma persistent_timeout_reaches_fallback_witness :
  let w := primary_fails slow_error [] in
  let '(ans, tr) := executeAgentStepWithFallback w "review" "reviewer" review_opts (Some reviewer)
                      [reviewer] empty_trace in
  a_err ans = None /\ map sc_ID (t_calls tr) = ["review"; "review_infra_retry1"; "review_model_fallback"].
Proof.
  pose proof (persistent_timeout_reaches_fallback (primary_fails slow_error []) "review" "reviewer"
    review_opts reviewer [reviewer] slow_error slow_error) as H.
  cbv zeta in *. destruct (executeAgentStepWithFallback _ _ _ _ _ _ _) as [ans tr].
  destruct H as [_ H]; [reflexivity|reflexivity|by vm_compute|by vm_compute|by vm_compute|by vm_compute| | |by vm_compute|].
  - intros err [= <-]. by vm_compute.
  - reflexivity.
  - destruct H as (-> & -> & _); [reflexivity|]. split; reflexivity.
Defined.

Lemma loop_cap_spares_fallback_witness :
  let w := primary_fails malformed_error ["parse_error"; "schema_violation"; "parse_error"; "ok"] in
  let '(ans, tr) := executeAgentStepWithFallback w "review" "reviewer" review_opts (Some reviewer)
                      [reviewer] empty_trace in
  a_err ans = None /\ map sc_ID (t_calls tr) = ["review"; "review_model_fallback"].
Proof.
  pose proof (loop_cap_spares_fallback
    (primary_fails malformed_error ["parse_error"; "schema_violation"; "parse_error"; "ok"])
    "review" "reviewer" review_opts reviewer [reviewer] malformed_error) as H.
  cbv zeta in *. destruct (executeAgentStepWithFallback _ _ _ _ _ _ _) as [ans tr].
  edestruct H as [_ H']; [reflexivity|by vm_compute|by vm_compute|reflexivity|by vm_compute|by vm_compute|].
  destruct H' as [-> ->]; [reflexivity|]. split; reflexivity.
Defined.
