(* ===== verification/FailureClass.v ===== *)
(** * Classifying failures

    [ClassifyExecutionFailure] ([src/internal/executor/failure_classifier.go]): the
    typed tag recorded with a failure.  An error knows its class, or it is one of the
    two context errors, or the first matching row of a table of texts decides. *)
From S2P Require Import Prelude GoStrings TaskModel Workflow Gates Engine StepRetry.
Open Scope string_scope.

(** The cases of the switch, in order: every group of texts must occur, one of its
    alternatives each. *)
Definition failure_table : list (list (list string) * string) :=
  [ ([["hallucinated placement"]], TaskFailureClassHallucinatedPlacement);
    ([["secret_leak"; "secret leak"]], TaskFailureClassSecretLeak);
    ([["tool iteration limit"; "tool iteration cap"]], TaskFailureClassToolIterationLimit);
    ([["merge"; "worktree"]; ["fail"; "could not"]], TaskFailureClassMergeFailed);
    ([["gate "; "gate_failed"; "condition"; "gate did not pass"]], TaskFailureClassGateFailed);
    ([["shape retry loop cap hit"]], TaskFailureClassInvalidOutputLoop);
    ([["invalid json"; "parse"; "unmarshal"; "schema violation"; "could not parse";
       "plausibility violation"]], TaskFailureClassInvalidOutput);
    ([["role "; " researcher"; "not present in swarm"; "workflow role"]],
     TaskFailureClassWorkflowRole);
    ([["workflow not found"; "step .* not found"; "workflow configuration"]],
     TaskFailureClassWorkflowCfg);
    ([["chat provider"; "llm"; "anthropic"; "openai"; "gateway"; "upstream"; "502 bad gateway";
       "503 service"; "stream closed"]], TaskFailureClassLLMError);
    ([["rate limit"; "too many requests"; "429"]], TaskFailureClassRateLimited);
    ([["budget"; "spend cap"; "over budget"]], TaskFailureClassBudgetBlocked);
    ([["lease expired"; "lease recovery"]], TaskFailureClassLeaseExpired);
    ([["orphaned execution"]], TaskFailureClassOrphaned);
    ([["tool "; "shell"; "exec"; "podman"; "container"; "runtime"]], TaskFailureClassToolError);
    ([["cancelled"; "canceled"]], TaskFailureClassCancelled);
    ([["timeout"; "timed out"; "deadline"]], TaskFailureClassTimeout) ].

Definition row_matches (lowered : string) (row : list (list string) * string) : bool :=
  forallb (containsAny lowered) row.1.

(** The class of a lowercased text. *)
Fixpoint class_of_text (rows : list (list (list string) * string)) (lowered : string) : string :=
  match rows with
  | [] => TaskFailureClassUnknown
  | row :: rows => if row_matches lowered row then row.2 else class_of_text rows lowered
  end.

Definition ClassifyExecutionFailure (err : option GoError) (hint : string) : string :=
  if is_none err && (hint =?? "") then ""
  else
    let text := default "" (e_text <$> err) in
    let text := if hint =?? "" then text else hint ++ newline ++ text in
    let lowered := ToLower text in
    let by_text := class_of_text failure_table lowered in
    match err with
    | None => by_text
    | Some err =>
        let typed := default "" (e_class err) in
        if negb (typed =?? "") then typed
        else if e_deadline err then TaskFailureClassTimeout
        else if e_canceled err then TaskFailureClassCancelled
        else by_text
    end.

(** ** Properties *)

(** The class of the first row that matches, and no earlier row does. *)
Lemma class_of_text_first rows lowered :
  (exists pre row post, rows = (pre ++ row :: post)%list /\ row_matches lowered row = true /\
     (forall r, r ∈ pre -> row_matches lowered r = false) /\ class_of_text rows lowered = row.2) \/
  ((forall r, r ∈ rows -> row_matches lowered r = false) /\
   class_of_text rows lowered = TaskFailureClassUnknown).
Proof.
  induction rows as [|row rows IH]; cbn [class_of_text].
  - right. split; [|done]. by intros r Hr%not_elem_of_nil.
  - destruct (row_matches lowered row) eqn:E.
    + left. exists [], row, rows. split_and!; try done. by intros r Hr%not_elem_of_nil.
    + destruct IH as [(pre & r & post & -> & Hm & Hpre & Hc)|[Hn Hc]].
      * left. exists (row :: pre), r, post. split_and!; try done.
        intros r' [->|Hr']%elem_of_cons; [done|by apply Hpre].
      * right. split; [|done]. intros r' [->|Hr']%elem_of_cons; [done|by apply Hn].
Qed.

Lemma class_of_text_not_empty lowered : class_of_text failure_table lowered <> "".
Proof.
  unfold failure_table. cbn [class_of_text snd].
  by repeat match goal with |- context [if ?b then _ else _] => destruct b end.
Qed.

(** A failure always gets a class. *)
Lemma classify_not_empty err hint : ClassifyExecutionFailure (Some err) hint <> "".
Proof.
  unfold ClassifyExecutionFailure. cbn [is_none andb].
  destruct (bool_decide (default "" (e_class err) = "")) eqn:E; cbn [negb].
  - destruct (e_deadline err); [done|]. destruct (e_canceled err); [done|].
    apply class_of_text_not_empty.
  - by apply bool_decide_eq_false in E.
Qed.

(** ** The hint *)

Definition no_newline (c : Ascii.ascii) : bool := negb (bool_decide (c = Ascii.ascii_of_nat 10)).

Definition one_line (n : string) : bool := all_bytes no_newline n && negb (n =?? "").

(** Repeating the text on a second line changes no test on one-line texts. *)
Lemma containsAny_twice s needles :
  forallb one_line needles = true ->
  containsAny (s ++ newline ++ s) needles = containsAny s needles.
Proof.
  unfold containsAny. induction needles as [|n needles IH]; [done|]. cbn [existsb forallb].
  intros [Hn Hr]%andb_true_iff. apply andb_true_iff in Hn as [Hn1 Hn2].
  apply negb_true_iff, bool_decide_eq_false in Hn2.
  rewrite IH by done. change (newline ++ s) with (String (Ascii.ascii_of_nat 10) s).
  rewrite contains_separated by done. by rewrite orb_diag.
Qed.

Lemma class_of_text_twice rows s :
  forallb (fun row => forallb (forallb one_line) row.1) rows = true ->
  class_of_text rows (s ++ newline ++ s) = class_of_text rows s.
Proof.
  induction rows as [|[groups cls] rows IH]; [done|]. cbn [forallb class_of_text fst].
  intros [Hg Hr]%andb_true_iff. rewrite IH by done.
  assert (row_matches (s ++ newline ++ s) (groups, cls) = row_matches s (groups, cls)) as ->; [|done].
  unfold row_matches. cbn [fst]. clear IH Hr. induction groups as [|g groups IH]; [done|].
  cbn [forallb] in *. apply andb_true_iff in Hg as [Hg Hgs].
  by rewrite containsAny_twice, IH.
Qed.

(** [runExecution] classifies the error alone to decide whether the work is
    merged, [handleFailure] the error with its own text as hint to record the class:
    both are the same class, and it is never empty. *)
Theorem classify_hint_is_redundant err :
  ClassifyExecutionFailure (Some err) (e_text err) = ClassifyExecutionFailure (Some err) "" /\
  ClassifyExecutionFailure (Some err) "" <> "".
Proof.
  split; [|apply classify_not_empty]. unfold ClassifyExecutionFailure. cbn [is_none andb default fmap option_fmap option_map].
  destruct (bool_decide (e_text err = "")) eqn:E; [done|].
  cbn [from_option]. rewrite !ToLower_app. change (ToLower newline) with newline.
  by rewrite class_of_text_twice.
Qed.

(** The row of configuration errors misses the texts the executor gives them: its
    second alternative is a regular expression used as a plain text. *)
Lemma configuration_errors_are_unknown :
  ClassifyExecutionFailure (Some (plain_error "workflow step review not found")) "" =
    TaskFailureClassUnknown /\
  ClassifyExecutionFailure (Some (plain_error "workflow nightly not found for project shop")) "" =
    TaskFailureClassUnknown.
Proof. split; by vm_compute. Qed.
