(* ===== verification/ExecRepo.v ===== *)
(** * The execution repository (PostgreSQL)

    [src/internal/persistence/postgres/execution_repository.go]: the methods that
    read and write the rows of [executions], in the manner of [TaskRepo]: a table is
    the list of its rows, a method is a function from the table to the Go result and
    the new table.  [GetRoleQuality], which aggregates another table, is left out. *)
From S2P Require Import Prelude TaskModel TaskRepo.

(** A row; [StateSnapshot], [Result] and [WorkflowSnapshot] are the text of JSONB
    columns. *)
Record ExecRow : Type := mkExecRow {
  x_ID : string;
  x_TaskID : string;
  x_ProjectID : string;
  x_WorkflowID : string;
  x_WorkflowRevision : string;
  x_WorkflowSnapshot : option string;
  x_Status : ExecutionStatus;
  x_CurrentStepID : option string;
  x_CompletedSteps : list string;
  x_StateSnapshot : option string;
  x_Result : option string;
  x_ErrorMessage : option string;
  x_ErrorCode : option string;
  x_StartedAt : option time;
  x_CompletedAt : option time;
  x_CreatedAt : time;
  x_UpdatedAt : time;
  x_ParentExecutionID : option string;
  x_ForkedFromStepID : option string;
  x_ForkedPromptOverride : option string
}.

#[export] Instance ExecRow_eq_dec : EqDecision ExecRow.
Proof. solve_decision. Defined.

#[export] Instance ExecutionStatus_countable : Countable ExecutionStatus.
Proof.
  refine (inj_countable' (fun s => match s with
     | ExecutionStatusPending => inl 0%N | ExecutionStatusRunning => inl 1%N
     | ExecutionStatusPaused => inl 2%N | ExecutionStatusCompleted => inl 3%N
     | ExecutionStatusFailed => inl 4%N | ExecutionStatusCancelled => inl 5%N
     | ExecutionStatusOther s => inr s
     end) (fun c => match c with
     | inl 0%N => ExecutionStatusPending | inl 1%N => ExecutionStatusRunning
     | inl 2%N => ExecutionStatusPaused | inl 3%N => ExecutionStatusCompleted
     | inl 4%N => ExecutionStatusFailed | inl _ => ExecutionStatusCancelled
     | inr s => ExecutionStatusOther s
     end) _).
  by intros [].
Defined.

Abbreviation ExecTable := (list ExecRow).

Definition ExecutionStatusEmpty : ExecutionStatus := ExecutionStatusOther "".

(** The labels of the enum type [execution_status]. *)
Definition enum_execution_status (s : ExecutionStatus) : bool :=
  match s with ExecutionStatusOther _ => false | _ => true end.

Definition isTerminalExecutionStatus (s : ExecutionStatus) : bool :=
  bool_decide (s ∈ [ExecutionStatusCompleted; ExecutionStatusFailed; ExecutionStatusCancelled]).

(** [jsonbValue]: an empty value is NULL. *)
Definition jsonbValue (raw : option string) : option string := raw ≫= nullif_empty.

(** [UPDATE executions SET f WHERE p]: no constraint of the table involves a column
    that an update assigns. *)
Definition update_execs (p : ExecRow -> bool) (f : ExecRow -> ExecRow) (tbl : ExecTable) : ExecTable :=
  map (fun x => if p x then f x else x) tbl.

Definition select_execs (p : ExecRow -> bool) (tbl : ExecTable) : list ExecRow :=
  filter (fun x => p x = true) tbl.

(** [scanExecution]: the queries do not select [workflow_snapshot]. *)
Definition scanExecution (row : ExecRow) : ExecRow := row <| x_WorkflowSnapshot := None |>.

Definition scanFirst (rows : list ExecRow) : result RepoError ExecRow :=
  match rows with
  | [] => Err (mapDBError SqlErrNoRows)
  | row :: _ => Ok (scanExecution row)
  end.

Definition by_id (id : string) (x : ExecRow) : bool := x_ID x =?? id.
Definition of_task (taskID : string) (x : ExecRow) : bool := x_TaskID x =?? taskID.

Record ExecutionFilter : Type := mkExecutionFilter {
  xf_ProjectID : option string;
  xf_TaskID : option string;
  xf_Status : option ExecutionStatus;
  xf_PageSize : Z;
  xf_Offset : Z
}.

Section WithServer.
Context `{pg : Postgres}.

Definition jsonb_ok (p : option string) : bool := json_ok (jsonbValue p).
Definition jsonb_stored (p : option string) : option string := jsonb_col (jsonbValue p).

(** ** Create *)

Definition exec_defaults (now : time) (x : ExecRow) : ExecRow :=
  let createdAt := if x_CreatedAt x =? zeroTime then now else x_CreatedAt x in
  x <| x_CreatedAt := createdAt |>
    <| x_UpdatedAt := if x_UpdatedAt x =? zeroTime then createdAt else x_UpdatedAt x |>
    <| x_Status := if x_Status x =?? ExecutionStatusEmpty then ExecutionStatusPending else x_Status x |>
    <| x_WorkflowRevision := if x_WorkflowRevision x =?? ""%string then "v1"%string
                             else x_WorkflowRevision x |>.

(** The row the INSERT writes. *)
Definition inserted_exec (x : ExecRow) : ExecRow :=
  x <| x_WorkflowSnapshot := None |>
    <| x_StateSnapshot := jsonb_stored (x_StateSnapshot x) |>
    <| x_Result := jsonb_stored (x_Result x) |>
    <| x_StartedAt := ts_in <$> x_StartedAt x |> <| x_CompletedAt := ts_in <$> x_CompletedAt x |>
    <| x_CreatedAt := ts_in (x_CreatedAt x) |> <| x_UpdatedAt := ts_in (x_UpdatedAt x) |>.

Definition exec_binds (x : ExecRow) : list (bool * string) :=
  [ sql_enum (enum_execution_status (x_Status x));
    sql_enum (jsonb_ok (x_StateSnapshot x));
    sql_enum (jsonb_ok (x_Result x)) ].

(** The struct with its defaults and the new table; the id is the primary key and
    the task must exist. *)
Definition CreateExecution (now : time) (x : option ExecRow) (tasks : Table) (tbl : ExecTable) :
    result RepoError (ExecRow * ExecTable) :=
  match x with
  | None => Err (ErrArgument "execution is nil")
  | Some x =>
      let x := exec_defaults now x in
      let! tbl := mapDB (with_binds (exec_binds x)
        (if bool_decide (x_ID x ∈ map x_ID tbl) then Err (PqError "23505")
         else if negb (bool_decide (x_TaskID x ∈ map ID tasks)) then Err (PqError "23503")
         else Ok (tbl ++ [inserted_exec x]))) in
      Ok (x, tbl)
  end.

(** ** Queries *)

Definition GetExecution (id : string) (tbl : ExecTable) : result RepoError ExecRow :=
  scanFirst (select_execs (by_id id) tbl).

Definition latest_first (l : list ExecRow) : list ExecRow := order_by (fun x => [- x_CreatedAt x]) l.

Definition GetByTaskID (taskID : string) (tbl : ExecTable) : result RepoError ExecRow :=
  scanFirst (latest_first (select_execs (of_task taskID) tbl)).

(** One entry per task that has an execution. *)
Definition GetByTaskIDs (taskIDs : list string) (tbl : ExecTable) : gmap string ExecRow :=
  list_to_map (omap (fun t => match GetByTaskID t tbl with
                              | Ok x => Some (t, x)
                              | Err _ => None
                              end) (remove_dups taskIDs)).

Definition exec_filter_where (flt : ExecutionFilter) (x : ExecRow) : bool :=
  opt_filter (xf_ProjectID flt) (fun p => x_ProjectID x =?? p) &&
  opt_filter (xf_TaskID flt) (fun t => x_TaskID x =?? t) &&
  opt_filter (xf_Status flt) (fun s => x_Status x =?? s).

Definition exec_filter_binds (flt : ExecutionFilter) : list (bool * string) :=
  [ sql_enum (opt_filter (xf_Status flt) enum_execution_status) ].

Definition ListExecutions (flt : ExecutionFilter) (tbl : ExecTable) : result RepoError (list ExecRow) :=
  mapDB (with_binds (exec_filter_binds flt)
    (Ok (map scanExecution (limit_offset (xf_PageSize flt) (xf_Offset flt)
      (latest_first (select_execs (exec_filter_where flt) tbl)))))).

Definition CountExecutions (flt : ExecutionFilter) (tbl : ExecTable) : result RepoError Z :=
  mapDB (with_binds (exec_filter_binds flt)
    (Ok (Z.of_nat (count_if (exec_filter_where flt) tbl)))).

Definition GetWorkflowSnapshot (id : string) (tbl : ExecTable) : result RepoError (option string) :=
  match select_execs (by_id id) tbl with
  | [] => Err (mapDBError SqlErrNoRows)
  | row :: _ => Ok (x_WorkflowSnapshot row)
  end.

(** ** Updates *)

(** The columns [Update] assigns; [started_at] is kept when the struct has none. *)
Definition updated_exec (x row : ExecRow) : ExecRow :=
  row <| x_ProjectID := x_ProjectID x |> <| x_WorkflowID := x_WorkflowID x |>
      <| x_WorkflowRevision := x_WorkflowRevision x |> <| x_Status := x_Status x |>
      <| x_CurrentStepID := x_CurrentStepID x |> <| x_CompletedSteps := x_CompletedSteps x |>
      <| x_StateSnapshot := jsonb_stored (x_StateSnapshot x) |>
      <| x_Result := jsonb_stored (x_Result x) |>
      <| x_ErrorMessage := x_ErrorMessage x |> <| x_ErrorCode := x_ErrorCode x |>
      <| x_StartedAt := set_col (ts_in <$> x_StartedAt x) (x_StartedAt row) |>
      <| x_CompletedAt := ts_in <$> x_CompletedAt x |> <| x_UpdatedAt := ts_in (x_UpdatedAt x) |>.

Definition UpdateExecution (now : time) (x : option ExecRow) (tbl : ExecTable) :
    result RepoError (ExecRow * ExecTable) :=
  match x with
  | None => Err (ErrArgument "execution is nil")
  | Some x =>
      let x := x <| x_UpdatedAt := now |> in
      let! tbl := mapDB (with_binds (exec_binds x)
                    (Ok (update_execs (by_id (x_ID x)) (updated_exec x) tbl))) in
      Ok (x, tbl)
  end.

Definition exec_status_set (now : time) (status : ExecutionStatus) (x : ExecRow) : ExecRow :=
  x <| x_Status := status |>
    <| x_StartedAt := if (status =?? ExecutionStatusRunning) && is_none (x_StartedAt x)
                      then Some now else x_StartedAt x |>
    <| x_CompletedAt := if isTerminalExecutionStatus status then Some now else x_CompletedAt x |>
    <| x_UpdatedAt := now |>.

Definition UpdateExecutionStatus (now : time) (id : string) (status : ExecutionStatus)
    (tbl : ExecTable) : result RepoError ExecTable :=
  mapDB (with_binds [sql_enum (enum_execution_status status)]
    (Ok (update_execs (by_id id) (exec_status_set now status) tbl))).

Definition SaveStateSnapshot (now : time) (id : string) (snapshot : option string)
    (currentStepID : string) (completedSteps : list string) (tbl : ExecTable) :
    result RepoError ExecTable :=
  mapDB (with_binds [sql_enum (jsonb_ok snapshot)]
    (Ok (update_execs (by_id id)
      (fun x => x <| x_StateSnapshot := jsonb_stored snapshot |>
                  <| x_CurrentStepID := nullif_empty currentStepID |>
                  <| x_CompletedSteps := completedSteps |> <| x_UpdatedAt := now |>) tbl))).

Definition SetWorkflowSnapshot (now : time) (id : string) (snapshot : option string)
    (tbl : ExecTable) : result RepoError ExecTable :=
  match jsonbValue snapshot with
  | None => Ok tbl
  | Some s =>
      mapDB (with_binds [sql_enum (json_ok (Some s))]
        (Ok (update_execs (by_id id)
          (fun x => x <| x_WorkflowSnapshot := jsonb_col (Some s) |> <| x_UpdatedAt := now |>) tbl)))
  end.

Definition RecordCompletion (now : time) (id : string) (res : option string) (tbl : ExecTable) :
    result RepoError ExecTable :=
  mapDB (with_binds [sql_enum (jsonb_ok res)]
    (Ok (update_execs (by_id id)
      (fun x => x <| x_Status := ExecutionStatusCompleted |> <| x_Result := jsonb_stored res |>
                  <| x_CompletedAt := Some now |> <| x_UpdatedAt := now |>) tbl))).

Definition RecordFailure (now : time) (id errorMessage errorCode : string) (tbl : ExecTable) :
    result RepoError ExecTable :=
  Ok (update_execs (by_id id)
    (fun x => x <| x_Status := ExecutionStatusFailed |>
                <| x_ErrorMessage := nullif_empty errorMessage |>
                <| x_ErrorCode := nullif_empty errorCode |>
                <| x_CompletedAt := Some now |> <| x_UpdatedAt := now |>) tbl).

(** The columns both supersede statements assign. *)
Definition superseded (now : time) (code msg : string) (x : ExecRow) : ExecRow :=
  x <| x_Status := ExecutionStatusCancelled |> <| x_ErrorCode := Some code |>
    <| x_ErrorMessage := set_col (x_ErrorMessage x) (Some msg) |>
    <| x_CompletedAt := set_col (x_CompletedAt x) (Some now) |> <| x_UpdatedAt := now |>.

Definition supersedable (taskID : string) (x : ExecRow) : bool :=
  of_task taskID x && negb (isTerminalExecutionStatus (x_Status x)).

Definition SupersedeNonTerminalForTask (now : time) (taskID : string) (tbl : ExecTable) :
    Z * ExecTable :=
  (Z.of_nat (count_if (supersedable taskID) tbl),
   update_execs (supersedable taskID)
     (superseded now "superseded_by_terminal_task"
        "execution superseded when parent task reached terminal status") tbl).

Definition orphan_paused (tasks : Table) (x : ExecRow) : bool :=
  (x_Status x =?? ExecutionStatusPaused) &&
  existsb (fun t => (ID t =?? x_TaskID x) &&
    bool_decide (Status t ∈ [TaskStatusCompleted; TaskStatusFailed; TaskStatusCancelled;
                             TaskStatusClosed])) tasks.

Definition SupersedeOrphanPausedExecutions (now : time) (tasks : Table) (tbl : ExecTable) :
    Z * ExecTable :=
  (Z.of_nat (count_if (orphan_paused tasks) tbl),
   update_execs (orphan_paused tasks)
     (superseded now "superseded_orphan_paused"
        "orphan PAUSED execution finalized: parent task already terminal") tbl).

(** [CountByStatus]; an empty project means all of them. *)
Definition CountExecutionsByStatus (projectID : string) (tbl : ExecTable) : gmap ExecutionStatus Z :=
  let rows := select_execs (fun x => (projectID =?? ""%string) || (x_ProjectID x =?? projectID)) tbl in
  list_to_map (map (fun s => (s, Z.of_nat (count_if (fun x => x_Status x =?? s) rows)))
                   (remove_dups (map x_Status rows))).

End WithServer.
