(* ===== verification/Lifecycle.v ===== *)
(** * The life of an execution

    [src/internal/executor/executor.go] with the final handlers of [workflow.go], the
    pause and resume of [state.go] and the follow-up of [checkpoint.go]: starting a
    task, the retry loop around [executeWorkflowAttempt], the outcome an execution
    leaves in the database, cancelling, pausing, shutting down and recovering.

    Each goroutine of [runExecution] is a program counter whose steps are its single
    database statements; operators, other processes and other executions act in
    between.  A statement on the goroutine's context fails once that context is
    done, as [database/sql] promises; the answers of an attempt, of the workspace and
    of the clock are arguments of a step.  What runs under the executor's mutex
    ([ExecuteWithContext], [Resume], [recoverExecution]) is one step.  Git worktrees
    matter by the error of the final merge only; step outcomes, cross-project calls,
    memory ingestion, metrics and logs are left out. *)
From S2P Require Import Prelude GoStrings Workflow Gates Engine StepRetry FailureClass TaskModel.
From S2P Require Import TaskRepo Delegation ExecRepo.
From stdpp Require Import pretty.
Open Scope string_scope.

(** The encoding of the state snapshot; decoding fills what it can. *)
Class StateCodec : Type := {
  marshal_state : executionState -> string;
  unmarshal_state : string -> executionState
}.

(** ** State *)

Inductive Fin : Type :=
| FinSuccess (res : string)
| FinFailure (msg class : string)
| FinCancelled.

Definition ending (f : Fin) : Ending :=
  match f with
  | FinSuccess _ => EndSuccess
  | FinFailure msg class => EndFailure msg class
  | FinCancelled => EndCancelled
  end.

(** The program counter of [runExecution], named after the next statement. *)
Inductive RunPC : Type :=
| RunMarkExec
| RunMarkTask
| RunPlan
| RunPersist
| RunLoop
| RunAttempt
| RunCheckCancelled (err : GoError)
| RunHandoff (res : string) (completed : list string)
| RunDelay
| RunExhausted
| RunMerge (res : string) (completed : list string)
| FinGuard (f : Fin)
| FinExec (f : Fin)
| FinTask (f : Fin)
| FinSettle (f : Fin)
| FinCascade (f : Fin)
| FinUnblock (f : Fin) (u : Unblock)
| FinNotify (f : Fin)
| RunFollowUp
| RunCleanup
| RelGet
| RelRelease (task : Task)
| RunDone.

#[export] Instance Fin_eq_dec : EqDecision Fin.
Proof. solve_decision. Defined.

(** The variables of one goroutine.  [r_capped]: the plan armed the wall-clock cap;
    [r_ctxErr]: the error of its context once that is cancelled or past the cap. *)
Record Run : Type := mkRun {
  r_task : Task;
  r_exec : ExecRow;
  r_pc : RunPC;
  r_attempts : Z;
  r_max : Z;
  r_lastErr : GoError;
  r_capped : bool;
  r_ctxErr : option GoError;
  r_useWorktrees : bool;
  r_worktreeDir : string;
  r_followUp : bool
}.

(** [executionHandle]: the goroutine it belongs to stands for its context. *)
Record Handle : Type := mkHandle {
  h_run : nat;
  h_containerID : string;
  h_recovered : bool
}.

(** The statements of [Cancel] and [pauseWithReason] after the lookup of the
    handle. *)
Inductive CallPC : Type :=
| CancelTask (taskID : string) (run : nat) (containerID : string)
| CancelExec (taskID : string) (run : nat) (containerID : string)
| CancelCascade (taskID : string) (run : nat) (containerID : string)
| CancelCtx (taskID : string) (run : nat) (containerID : string)
| PauseGet (taskID reason : string) (run : nat)
| PauseSave (taskID reason : string) (run : nat) (x : ExecRow)
| PauseExec (taskID : string) (run : nat) (xid : string)
| PauseTask (taskID : string) (run : nat)
| PauseCtx (run : nat)
| CallDone.

(** What leaves the executor: a settled reservation, a notification, a container
    that is told to stop. *)
Inductive Note : Type :=
| Settled (taskID : string)
| Notified (taskID : string) (ok : bool)
| Stopped (containerID : string).

Record Executor : Type := mkExecutor {
  e_tasks : Table;
  e_execs : ExecTable;
  e_active : gmap string Handle;
  e_shuttingDown : bool;
  e_runs : list Run;
  e_calls : list CallPC;
  e_notes : list Note
}.

(** ** Answers *)

(** A write of the attempt: the engine's pauses, checkpoints and hand-offs, and the
    tasks it creates. *)
Inductive AttemptWrite : Type :=
| AwTaskStatus (status : TaskStatus)
| AwTransition (from : list TaskStatus) (to : TaskStatus) (opts : TransitionOpts)
| AwExecStatus (status : ExecutionStatus)
| AwSave (state : executionState)
| AwCreate (t : Task).

Inductive AttemptEnd : Type :=
| AttOk (containerID res : string) (completed : list string)
| AttPaused
| AttHandoff (res : string) (completed : list string)
| AttErr (err : GoError).

(** What [resolveExecutionPlan] and the workspace set-up come to. *)
Record PlanInfo : Type := mkPlanInfo {
  pi_workflowID : string;
  pi_revision : string;
  pi_capped : bool;
  pi_worktrees : bool;
  pi_worktreeDir : string
}.

(** The answers of the outside to one step; a step reads those it needs. *)
Record Answers : Type := mkAnswers {
  an_now : time;
  an_fault : bool;
  an_plan : result GoError PlanInfo;
  an_attempt : AttemptWrite + AttemptEnd;
  an_merge : option string;
  an_worktreeDir : string;
  an_followUpID : string
}.

(** The configuration the executor reads here, and the JSON of the follow-up: the
    prompt in the context of a payload that parses, the payload of a prompt. *)
Record ExecutorConfig : Type := mkExecutorConfig {
  ec_MaxRetries : Z;
  ec_RetryDelay : bool;
  ec_payloadPrompt : string -> option string;
  ec_marshalContinuation : string -> string
}.

(** ** Errors *)

Definition shouldRetry (err : GoError) : bool :=
  if e_canceled err || e_deadline err then false else e_retryable err.

Definition ctx_canceled : GoError := mkError "context canceled" false None false true.
Definition ctx_deadline : GoError := mkError "context deadline exceeded" false None true false.

Definition blocked (r : Run) : bool := is_some (r_ctxErr r).

Definition no_attempts_error (attempts max : Z) : GoError :=
  plain_error ("task has no remaining attempts (" ++ pretty attempts ++ "/" ++ pretty max ++ ")").

(** ** Snapshots *)

Section Lifecycle.
Context `{pg : Postgres} {SC : StateCodec} (cfg : ExecutorConfig).

Definition loadState (x : ExecRow) : executionState :=
  loadExecutionState (Engine.mkExecution (x_CurrentStepID x) (x_CompletedSteps x)
    (unmarshal_state <$> jsonbValue (x_StateSnapshot x))).

(** [saveExecutionState] on the struct in memory, and its statement. *)
Definition saved_exec (st : executionState) (x : ExecRow) : ExecRow :=
  x <| x_CompletedSteps := CompletedSteps st |>
    <| x_CurrentStepID := if CurrentStepID st =?? "" then x_CurrentStepID x
                          else Some (CurrentStepID st) |>
    <| x_StateSnapshot := Some (marshal_state st) |>.

Definition save_state (now : time) (st : executionState) (id : string) (tbl : ExecTable) :
    result RepoError ExecTable :=
  SaveStateSnapshot now id (Some (marshal_state st)) (CurrentStepID st) (CompletedSteps st) tbl.

(** ** Database calls *)

(** The executor ignores the errors of most writes. *)
Definition try_tasks (fault : bool) (f : Table -> result RepoError Table) (e : Executor) : Executor :=
  if fault then e
  else match f (e_tasks e) with Ok tbl => e <| e_tasks := tbl |> | Err _ => e end.

Definition try_execs (fault : bool) (f : ExecTable -> result RepoError ExecTable) (e : Executor) :
    Executor :=
  if fault then e
  else match f (e_execs e) with Ok tbl => e <| e_execs := tbl |> | Err _ => e end.

Definition note (n : Note) (e : Executor) : Executor := e <| e_notes := (e_notes e ++ [n])%list |>.

(** ** The final handlers *)

(** What the handlers leave in the struct of the task. *)
Definition finished_task (now : time) (f : Fin) (t : Task) : Task :=
  match f with
  | FinSuccess _ => t <| Status := TaskStatusCompleted |>
  | FinCancelled => t <| Status := TaskStatusCancelled |>
  | FinFailure msg class => (failed_task msg class t) <| UpdatedAt := now |>
  end.

Definition exec_outcome (now : time) (f : Fin) (xid : string) (tbl : ExecTable) :
    result RepoError ExecTable :=
  match f with
  | FinSuccess res => RecordCompletion now xid (Some res) tbl
  | FinFailure msg class =>
      RecordFailure now xid msg (if class =?? "" then "EXECUTION_ERROR" else class) tbl
  | FinCancelled => UpdateExecutionStatus now xid ExecutionStatusCancelled tbl
  end.

Definition settles (f : Fin) (t : Task) : bool :=
  match f with FinFailure _ _ => Status t =?? TaskStatusFailed | _ => true end.

(** A failure that will be retried is not announced. *)
Definition announces (f : Fin) (t : Task) : bool :=
  match f with FinFailure _ _ => negb (taskWillRetry t) | _ => true end.

Definition is_success (f : Fin) : bool := match f with FinSuccess _ => true | _ => false end.
Definition is_cancelled (f : Fin) : bool := match f with FinCancelled => true | _ => false end.

(** Only a failure leaves the other executions of the task alone; a cancellation is
    announced before the parent is looked at. *)
Definition after_settle (f : Fin) (t : Task) : RunPC :=
  match f with FinFailure _ _ => FinUnblock f (checkParentUnblock t) | _ => FinCascade f end.

Definition after_cascade (f : Fin) (t : Task) : RunPC :=
  if is_cancelled f then FinNotify f else FinUnblock f (checkParentUnblock t).

Definition after_unblock (f : Fin) : RunPC := if is_cancelled f then RunCleanup else FinNotify f.

(** Back in [runExecution]. *)
Definition after_handler (r : Run) : RunPC := if r_followUp r then RunFollowUp else RunCleanup.

Definition after_notify (f : Fin) (r : Run) : RunPC :=
  if is_cancelled f then FinUnblock f (checkParentUnblock (r_task r)) else after_handler r.

(** *** The checkpoint follow-up *)

Definition maxCheckpointDepth : Z := 3.

(** The loop of [countCheckpointDepth]. *)
Fixpoint checkpoint_walk (guard : nat) (tbl : Table) (cursor : Task) (depth : Z) : result RepoError Z :=
  match ParentTaskID cursor, guard with
  | None, _ | _, O => Ok depth
  | Some pid, S guard =>
      let! parent := Get pid tbl in
      if negb (CreationSource parent =?? TaskCreationSourceCheckpoint) then Ok depth
      else checkpoint_walk guard tbl parent (depth + 1)%Z
  end.

Definition countCheckpointDepth (t : Task) (tbl : Table) : result RepoError Z :=
  checkpoint_walk (Z.to_nat (maxCheckpointDepth * 2 + 1)) tbl t 0.

(** [checkpointPromptTemplate], filled in. *)
Definition checkpointPrompt (taskID stepID prompt : string) : string :=
  "[checkpoint continuation]" ++ newline ++ newline ++
  "The previous task " ++ taskID ++ " hit the agent's tool-iteration limit (VORNIK_MAX_TOOL_ITERATIONS) on step " ++
  stepID ++ ". Partial work was committed and merged to the project repository — read the most recent commits ('cd project && git log --oneline -8') to see what was completed." ++
  newline ++ newline ++ "Continue from there toward the original goal:" ++ newline ++ newline ++
  prompt ++ newline ++ newline ++
  "If the work appears already done, verify against the original acceptance criteria and finish; otherwise pick up the next concrete subtask. Prefer one tight focused step over re-doing what the previous attempt accomplished.".

Definition extractPromptFromTask (t : Task) : string :=
  match Payload t with
  | None => ""
  | Some p => if p =?? "" then "" else default "" (ec_payloadPrompt cfg p)
  end.

Definition follow_up_prompt (parent : Task) (failedStepID : string) : string :=
  let prev := extractPromptFromTask parent in
  checkpointPrompt (ID parent) failedStepID
    (if prev =?? "" then "(original prompt unavailable; consult parent task " ++ ID parent ++ " in the UI)"
     else prev).

Definition follow_up (now : time) (id : string) (parent : Task) (failedStepID : string) : Task :=
  (zeroTask id) <| ProjectID := ProjectID parent |> <| WorkflowID := WorkflowID parent |>
    <| ParentTaskID := Some (ID parent) |> <| CreationSource := TaskCreationSourceCheckpoint |>
    <| Status := TaskStatusQueued |> <| Priority := Priority parent |>
    <| Payload := Some (ec_marshalContinuation cfg (follow_up_prompt parent failedStepID)) |>
    <| Attempt := 1%Z |>
    <| MaxAttempts := if (MaxAttempts parent <=? 0)%Z then 1%Z else MaxAttempts parent |>
    <| CreatedAt := now |> <| UpdatedAt := now |>.

Definition scheduleCheckpointFollowUp (now : time) (id : string) (parent : Task)
    (failedStepID : string) (tbl : Table) :
    result RepoError Table :=
  let depth := match countCheckpointDepth parent tbl with Ok d => d | Err _ => 0%Z end in
  if (maxCheckpointDepth <=? depth)%Z then Err (ErrArgument "checkpoint depth reached cap")
  else let! r := TaskRepo.Create now (Some (follow_up now id parent failedStepID)) tbl in Ok r.2.

(** *** Releasing a recovered task *)

Definition release_terminal (s : TaskStatus) : bool :=
  bool_decide (s ∈ [TaskStatusCompleted; TaskStatusFailed; TaskStatusCancelled]).

(** [releaseRecoveredTask], after it read [task]. *)
Definition releaseRecoveredTask (now : time) (task : Task) (tbl : Table) : result RepoError Table :=
  let leaseID := default "" (LeaseID task) in
  if release_terminal (Status task) then
    if leaseID =?? "" then Ok tbl
    else ReleaseLease now (ID task) leaseID (Status task) (mkReleaseOptions 0 0 "" "") tbl
  else
    let maxAttempts := if (MaxAttempts task <=? 0)%Z then 1%Z else MaxAttempts task in
    let attempt := if (Attempt task <=? 0)%Z then 1%Z else Attempt task in
    let again := (attempt <? maxAttempts)%Z in
    let newStatus := if again then TaskStatusQueued else TaskStatusFailed in
    let attempt := if again then (attempt + 1)%Z else attempt in
    if leaseID =?? "" then
      let! r := TransitionConditional now (ID task)
        [TaskStatusLeased; TaskStatusRunning; TaskStatusPending; TaskStatusWaitingForChildren]
        newStatus
        (noTransitionOpts <| opt_ClearLease := true |> <| opt_Attempt := attempt |>
           <| opt_MaxAttempts := maxAttempts |> <| opt_LastError := LastError task |>
           <| opt_LastErrorClass := LastErrorClass task |>) tbl in
      Ok r.2
    else ReleaseLease now (ID task) leaseID newStatus
           (mkReleaseOptions attempt maxAttempts (default "" (LastError task)) "") tbl.

(** ** One step of [runExecution] *)

(** What a step does to the executor's map: nothing, naming the container, or
    removing the entry. *)
Inductive MapOp : Type :=
| KeepHandle
| SetContainer (containerID : string)
| RemoveHandle.

Definition goto (pc : RunPC) (r : Run) : Run := r <| r_pc := pc |>.

(** The counters the loop starts from. *)
Definition start_counters (r : Run) : Run :=
  let task := if (Attempt (r_task r) <=? 0)%Z then (r_task r) <| Attempt := 1%Z |> else r_task r in
  let m := if (MaxAttempts task =? 0)%Z then (ec_MaxRetries cfg + 1)%Z else MaxAttempts task in
  let m := if (m <=? 0)%Z then 1%Z else m in
  r <| r_task := task |> <| r_attempts := (Attempt task - 1)%Z |> <| r_max := m |>
    <| r_lastErr := no_attempts_error (Attempt task - 1) m |>.

Definition attempt_write (now : time) (fault : bool) (w : AttemptWrite) (r : Run) (e : Executor) :
    Run * Executor :=
  match w with
  | AwTaskStatus s => (r, try_tasks fault (UpdateStatus now (ID (r_task r)) s) e)
  | AwTransition from to opts =>
      (r, try_tasks fault (fun tbl =>
            let! m := TransitionConditional now (ID (r_task r)) from to opts tbl in Ok m.2) e)
  | AwExecStatus s => (r, try_execs fault (UpdateExecutionStatus now (x_ID (r_exec r)) s) e)
  | AwSave st => (r <| r_exec := saved_exec st (r_exec r) |>,
                  try_execs fault (save_state now st (x_ID (r_exec r))) e)
  | AwCreate t => (r, try_tasks fault (fun tbl =>
                        let! c := TaskRepo.Create now (Some t) tbl in Ok c.2) e)
  end.

(** After an attempt failed for good or may be repeated. *)
Definition after_error (an : Answers) (err : GoError) (r : Run) : Run :=
  if negb (shouldRetry err) || (r_max r <=? r_attempts r)%Z then goto RunExhausted r
  else goto RunDelay (if r_useWorktrees r then r <| r_worktreeDir := an_worktreeDir an |> else r).

Definition merge_message (msg worktreeDir : string) : string :=
  "agent steps succeeded but changes could not be merged to master: " ++ msg ++
  ". worktree preserved at " ++ worktreeDir ++ " for manual recovery".

(** [cleanupWorktree(true)]: the error of the merge, if there is a worktree. *)
Definition merge_error (an : Answers) (r : Run) : option string :=
  if r_useWorktrees r && negb (r_worktreeDir r =?? "") then an_merge an else None.

(** The last part of [runExecution]: whether the work is merged, the counter that
    is written back. *)
Definition exhaust (an : Answers) (r : Run) : Run :=
  let err := r_lastErr r in
  let preserve := ClassifyExecutionFailure (Some err) "" =?? TaskFailureClassToolIterationLimit in
  let task := if (Attempt (r_task r) <? r_attempts r)%Z
              then (r_task r) <| Attempt := r_attempts r |> else r_task r in
  goto (FinGuard (FinFailure (e_text err) (ClassifyExecutionFailure (Some err) (e_text err))))
    (r <| r_task := task |> <| r_followUp := preserve && is_none (merge_error an r) |>).

Definition attempt_end (an : Answers) (shuttingDown : bool) (out : AttemptEnd) (r : Run) :
    Run * MapOp :=
  match out with
  | AttPaused => (goto RunCleanup r, KeepHandle)
  | AttHandoff res completed => (goto (RunHandoff res completed) r, KeepHandle)
  | AttOk cid res completed => (goto (RunMerge res completed) r, SetContainer cid)
  | AttErr err =>
      let r := r <| r_lastErr := err |> in
      (if shuttingDown then goto RunCleanup r
       else if e_canceled err then goto (RunCheckCancelled err) r
       else after_error an err r, KeepHandle)
  end.

(** The next statement of the goroutine. *)
Definition run_step (an : Answers) (r : Run) (e : Executor) : Run * MapOp * Executor :=
  let now := an_now an in
  let ctx_fault := an_fault an || blocked r in
  let id := ID (r_task r) in
  let xid := x_ID (r_exec r) in
  let keep (r : Run) (e : Executor) : Run * MapOp * Executor := (r, KeepHandle, e) in
  match r_pc r with
  | RunMarkExec =>
      keep (goto RunMarkTask (r <| r_exec := (r_exec r) <| x_Status := ExecutionStatusRunning |> |>))
        (try_execs ctx_fault (UpdateExecutionStatus now xid ExecutionStatusRunning) e)
  | RunMarkTask =>
      keep (goto RunPlan (start_counters r))
        (try_tasks ctx_fault (UpdateStatus now id TaskStatusRunning) e)
  | RunPlan =>
      match an_plan an with
      | Err err => keep (goto (FinGuard (FinFailure (e_text err)
                      (ClassifyExecutionFailure (Some err) (e_text err)))) r) e
      | Ok info =>
          keep (goto RunPersist
            (r <| r_exec := (r_exec r) <| x_WorkflowID := pi_workflowID info |>
                                       <| x_WorkflowRevision := pi_revision info |> |>
               <| r_capped := pi_capped info |> <| r_useWorktrees := pi_worktrees info |>
               <| r_worktreeDir := if pi_worktrees info then pi_worktreeDir info else "" |>)) e
      end
  | RunPersist =>
      keep (goto RunLoop (r <| r_exec := (r_exec r) <| x_UpdatedAt := now |> |>))
        (try_execs ctx_fault (fun tbl =>
           let! u := UpdateExecution now (Some (r_exec r)) tbl in Ok u.2) e)
  | RunLoop =>
      if (r_max r <=? r_attempts r)%Z then keep (goto RunExhausted r) e
      else
        let r := goto RunAttempt (r <| r_attempts := (r_attempts r + 1)%Z |>) in
        if (r_attempts r <=? 1)%Z then keep r e
        else
          let st := (loadState (r_exec r)) <| VisitCounts := ∅ |> <| Iterations := 0%Z |> in
          keep (r <| r_exec := saved_exec st (r_exec r) |>) (try_execs ctx_fault (save_state now st xid) e)
  | RunAttempt =>
      match an_attempt an with
      | inl w => let '(r, e) := attempt_write now ctx_fault w r e in keep r e
      | inr out => let '(r, op) := attempt_end an (e_shuttingDown e) out r in (r, op, e)
      end
  | RunCheckCancelled err =>
      (* isTaskCancelled on the context of the run *)
      let cancelled := match (if ctx_fault then Err ErrNotFound else Get id (e_tasks e)) with
                       | Ok t => Status t =?? TaskStatusCancelled
                       | Err _ => false
                       end in
      keep (if cancelled then goto (FinExec FinCancelled) r else after_error an err r) e
  | RunHandoff res completed =>
      keep (goto RunCleanup (r <| r_exec := (r_exec r) <| x_CompletedSteps := completed |> |>))
        (note (Notified id true)
           (try_execs ctx_fault (RecordCompletion now xid (Some res)) e))
  | RunDelay =>
      keep (match r_ctxErr r with
            | Some err => if ec_RetryDelay cfg
                          then goto RunExhausted (r <| r_lastErr := err |>) else goto RunLoop r
            | None => goto RunLoop r
            end) e
  | RunExhausted => keep (exhaust an r) e
  | RunMerge res completed =>
      match merge_error an r with
      | Some msg =>
          let msg := merge_message msg (r_worktreeDir r) in
          keep (goto (FinGuard (FinFailure msg (ClassifyExecutionFailure (Some (plain_error msg)) msg)))
                  (r <| r_exec := (r_exec r) <| x_CompletedSteps := (completed ++ ["MERGE_FAILED"])%list |> |>)) e
      | None =>
          keep (goto (FinGuard (FinSuccess res))
                  (r <| r_exec := (r_exec r) <| x_CompletedSteps := completed |> |>)) e
      end
  | FinGuard f =>
      (* on a context of its own *)
      let paused := match (if an_fault an then Err ErrNotFound else Get id (e_tasks e)) with
                    | Ok fresh => Status fresh =?? TaskStatusPaused
                    | Err _ => false
                    end in
      keep (goto (if paused then after_handler r else FinExec f) r) e
  | FinExec f => keep (goto (FinTask f) r) (try_execs ctx_fault (exec_outcome now f xid) e)
  | FinTask f =>
      keep (goto (FinSettle f) (r <| r_task := finished_task now f (r_task r) |>))
        (try_tasks ctx_fault (write_ending now (ending f) (r_task r)) e)
  | FinSettle f =>
      keep (goto (after_settle f (r_task r)) r)
        (if settles f (r_task r) && negb ctx_fault then note (Settled id) e else e)
  | FinCascade f =>
      keep (goto (after_cascade f (r_task r)) r)
        (try_execs ctx_fault (fun tbl => Ok (SupersedeNonTerminalForTask now id tbl).2) e)
  | FinUnblock f u =>
      let '(u', tbl) := unblock_step now ctx_fault u (e_tasks e) in
      keep (goto (if u' =?? UbDone then after_unblock f else FinUnblock f u') r)
        (e <| e_tasks := tbl |>)
  | FinNotify f =>
      keep (goto (after_notify f r) r)
        (if announces f (r_task r) then note (Notified id (is_success f)) e else e)
  | RunFollowUp =>
      keep (goto RunCleanup r)
        (try_tasks ctx_fault (scheduleCheckpointFollowUp now (an_followUpID an) (r_task r)
           (default "" (x_CurrentStepID (r_exec r)))) e)
  | RunCleanup =>
      (goto (match e_active e !! id with
             | Some h => if h_recovered h then RelGet else RunDone
             | None => RunDone
             end) r, RemoveHandle, e)
  | RelGet =>
      keep (goto (match (if an_fault an then Err ErrNotFound else Get id (e_tasks e)) with
                  | Ok task => RelRelease task
                  | Err _ => RunDone
                  end) r) e
  | RelRelease task =>
      keep (goto RunDone r) (try_tasks (an_fault an) (releaseRecoveredTask now task) e)
  | RunDone => keep r e
  end.

Definition apply_op (op : MapOp) (id : string) (active : gmap string Handle) : gmap string Handle :=
  match op with
  | KeepHandle => active
  | SetContainer cid =>
      match active !! id with
      | Some h => <[id := h <| h_containerID := cid |>]> active
      | None => active
      end
  | RemoveHandle => delete id active
  end.

(** Goroutine [i] makes its next step. *)
Definition step_run (an : Answers) (i : nat) (e : Executor) : Executor :=
  match e_runs e !! i with
  | None => e
  | Some r =>
      let '(r', op, e) := run_step an r e in
      e <| e_runs := <[i := r']> (e_runs e) |>
        <| e_active := apply_op op (ID (r_task r)) (e_active e) |>
  end.

End Lifecycle.
