(* ===== verification/LifecycleOps.v ===== *)
(** * Starting, stopping and recovering executions

    The operations of the executor around [runExecution]: [ExecuteWithContext],
    [Resume], [ResumePaused], [recoverExecution] and [Recover], [Cancel],
    [pauseWithReason], [Shutdown] and [Stop] ([src/internal/executor/executor.go],
    [state.go]), and the system in which they, the goroutines and other processes
    take turns.  A failed statement of an operation that runs under the mutex is
    given by its number. *)
From stdpp Require Import pretty.
From S2P Require Import Prelude GoStrings Workflow Gates Engine StepRetry FailureClass TaskModel.
From S2P Require Import TaskRepo Delegation ExecRepo Lifecycle.
Open Scope string_scope.

Inductive ExecutorError : Type :=
| ErrShuttingDown
| ErrAlreadyExecuting
| ErrNotPaused (status : ExecutionStatus)
| ErrNotResumable (reason : string)
| ErrNoActiveExecution
| ErrRepo (err : RepoError).

(** [replay.ForkTarget], as found in the payload of a task. *)
Record ForkTarget : Type := mkForkTarget {
  ft_SourceExecutionID : string;
  ft_StepID : string;
  ft_PromptOverride : string
}.

Definition PauseReasonRetryFromStep : string := "retry_from_step".

Definition auto_resumable (reason : string) : bool :=
  (reason =?? PauseReasonShutdown) || (reason =?? PauseReasonRetryFromStep).

Definition taskWorkflowID (t : Task) : string :=
  let w := default "" (WorkflowID t) in
  if (w =?? "") || (w =?? "-") then "default-workflow" else w.

Definition zeroExec (xid taskID : string) : ExecRow :=
  mkExecRow xid taskID "" "" "" None ExecutionStatusEmpty None [] None None None None None None
    zeroTime zeroTime None None None.

Definition new_execution (xid : string) (t : Task) (fork : option ForkTarget) : ExecRow :=
  let x := (zeroExec xid (ID t)) <| x_ProjectID := ProjectID t |>
             <| x_WorkflowID := taskWorkflowID t |> <| x_WorkflowRevision := "v1" |>
             <| x_Status := ExecutionStatusPending |> in
  match fork with
  | None => x
  | Some f => x <| x_ParentExecutionID := Some (ft_SourceExecutionID f) |>
                <| x_ForkedFromStepID := Some (ft_StepID f) |>
                <| x_ForkedPromptOverride := nullif_empty (ft_PromptOverride f) |>
                <| x_CurrentStepID := Some (ft_StepID f) |>
  end.

Definition new_run (t : Task) (x : ExecRow) : Run :=
  mkRun t x RunMarkExec 0 0 (plain_error "") false None false "" false.

(** A goroutine and its handle. *)
Definition spawn (recovered : bool) (t : Task) (x : ExecRow) (e : Executor) : Executor :=
  e <| e_runs := (e_runs e ++ [new_run t x])%list |>
    <| e_active := <[ID t := mkHandle (length (e_runs e)) "" recovered]> (e_active e) |>.

Definition executing (taskID : string) (e : Executor) : bool := is_some (e_active e !! taskID).

Section Operations.
Context `{pg : Postgres} {SC : StateCodec} (cfg : ExecutorConfig).

Definition call {A} (fault : bool) (r : result RepoError A) : result ExecutorError A :=
  if fault then Err (ErrRepo (ErrSQL "fault"))
  else match r with Ok v => Ok v | Err err => Err (ErrRepo err) end.

Definition ExecuteWithContext (now : time) (fault : nat -> bool) (xid : string)
    (fork : option ForkTarget) (taskID : string) (e : Executor) : result ExecutorError Executor :=
  if e_shuttingDown e then Err ErrShuttingDown
  else if executing taskID e then Err ErrAlreadyExecuting
  else
    let! t := call (fault 0%nat) (Get taskID (e_tasks e)) in
    let! c := call (fault 1%nat)
      (CreateExecution now (Some (new_execution xid t fork)) (e_tasks e) (e_execs e)) in
    Ok (spawn false t c.1 (e <| e_execs := c.2 |>)).

(** The state an operator's resume leaves: a pending approval is granted. *)
Definition resumed_state (st : executionState) : option executionState :=
  if negb (ApprovalPendingStep st =?? "") then
    Some (st <| ApprovalGrantedStep := ApprovalPendingStep st |> <| ApprovalPendingStep := "" |>
             <| PausedReason := "" |>)
  else if PausedReason st =?? PauseReasonOperator then Some (st <| PausedReason := "" |>)
  else None.

(** A failed write leaves those before it in place. *)
Definition ResumeTask (now : time) (fault : nat -> bool) (taskID : string) (e : Executor) :
    option ExecutorError * Executor :=
  if executing taskID e then (Some ErrAlreadyExecuting, e)
  else
    match call (fault 0%nat) (Get taskID (e_tasks e)),
          call (fault 1%nat) (GetByTaskID taskID (e_execs e)) with
    | Err err, _ | _, Err err => (Some err, e)
    | Ok t, Ok x =>
        if negb (x_Status x =?? ExecutionStatusPaused) then (Some (ErrNotPaused (x_Status x)), e)
        else
          match (match resumed_state (loadState x) with
                 | None => Ok (x, e_execs e)
                 | Some st => let! tbl := call (fault 2%nat) (save_state now st (x_ID x) (e_execs e)) in
                              Ok (saved_exec st x, tbl)
                 end) with
          | Err err => (Some err, e)
          | Ok (x, execs) =>
              let e := e <| e_execs := execs |> in
              match call (fault 3%nat) (UpdateExecutionStatus now (x_ID x) ExecutionStatusRunning execs) with
              | Err err => (Some err, e)
              | Ok execs =>
                  let e := e <| e_execs := execs |> in
                  match call (fault 4%nat) (UpdateStatus now taskID TaskStatusRunning (e_tasks e)) with
                  | Err err => (Some err, e)
                  | Ok tasks => (None, spawn false t x (e <| e_tasks := tasks |>))
                  end
              end
          end
    end.

(** [recoverExecution] on a listed row; [live]: the hash of a workflow of the
    resolver, if there is a resolver and it knows the workflow. *)
Definition drifted (x : ExecRow) (live : string -> option string) (e : Executor) : bool :=
  let hasSnapshot := match GetWorkflowSnapshot (x_ID x) (e_execs e) with
                     | Ok (Some s) => negb (s =?? "")
                     | _ => false
                     end in
  negb (x_WorkflowRevision x =?? "") && negb (x_WorkflowRevision x =?? "v1") && negb hasSnapshot &&
  match live (x_WorkflowID x) with
  | None => false
  | Some current => negb (current =?? "") && negb (current =?? x_WorkflowRevision x)
  end.

Definition drift_message (x : ExecRow) (current : string) : string :=
  "workflow " ++ quote_go (x_WorkflowID x) ++ " changed since execution started (stored=" ++
  x_WorkflowRevision x ++ " live=" ++ current ++
  ") and no snapshot is available — manual intervention required".

Definition skip_message (status : TaskStatus) : string :=
  "orphaned execution: task already " ++ TaskStatus_string status ++ ", skipping recovery".

Definition drifted_task (msg : string) (t : Task) : Task :=
  t <| Status := TaskStatusFailed |> <| LastError := Some msg |>
    <| LastErrorClass := Some TaskFailureClassWorkflowDrift |>.

Definition recoverExecution (now : time) (fault : nat -> bool) (live : string -> option string)
    (x : ExecRow) (e : Executor) : result ExecutorError Executor :=
  if executing (x_TaskID x) e then Ok e
  else
    let! t := call (fault 0%nat) (Get (x_TaskID x) (e_tasks e)) in
    if release_terminal (Status t) then
      Ok (try_execs (fault 1%nat)
            (RecordFailure now (x_ID x) (skip_message (Status t)) TaskFailureClassOrphaned) e)
    else if drifted x live e then
      let msg := drift_message x (default "" (live (x_WorkflowID x))) in
      Ok (try_tasks (fault 2%nat) (fun tbl =>
            let! u := Update now (Some (drifted_task msg t)) tbl in Ok u.2)
         (try_execs (fault 1%nat)
            (RecordFailure now (x_ID x) msg TaskFailureClassWorkflowDrift) e))
    else Ok (spawn true t x e).

(** [ResumePaused]: the row stays RUNNING when the recovery fails. *)
Definition ResumePaused (now : time) (fault : nat -> bool) (live : string -> option string)
    (xid : string) (e : Executor) : option ExecutorError * Executor :=
  if xid =?? "" then (Some (ErrRepo (ErrArgument "execution ID required")), e)
  else
    match call (fault 10%nat) (GetExecution xid (e_execs e)) with
    | Err err => (Some err, e)
    | Ok x =>
        if negb (x_Status x =?? ExecutionStatusPaused) then (Some (ErrNotPaused (x_Status x)), e)
        else if negb (auto_resumable (PausedReason (loadState x)))
             then (Some (ErrNotResumable (PausedReason (loadState x))), e)
        else
          match call (fault 11%nat) (UpdateExecutionStatus now xid ExecutionStatusRunning (e_execs e)) with
          | Err err => (Some err, e)
          | Ok execs =>
              let e := e <| e_execs := execs |> in
              match recoverExecution now fault live (x <| x_Status := ExecutionStatusRunning |>) e with
              | Ok e => (None, e)
              | Err err => (Some err, e)
              end
          end
    end.

(** *** The recovery at start *)

Definition orphan_message : string :=
  "container missing on daemon boot; the daemon was killed before pauseWithReason could write PAUSED. Marking ORPHANED so the scheduler can re-dispatch.".

(** What the runtime knows about the container of a task. *)
Inductive Probe : Type := NoRuntime | ProbeFailed | NoContainer | LiveContainer.

Definition or_same (e : Executor) (r : result ExecutorError Executor) : Executor :=
  match r with Ok e' => e' | Err _ => e end.

(** One row of [Recover]'s loop over the executions of a status. *)
Definition recover_row (now : time) (fault : nat -> bool) (live : string -> option string)
    (probe : Probe) (status : ExecutionStatus) (x : ExecRow) (e : Executor) : Executor :=
  let recover x e := or_same e (recoverExecution now fault live x e) in
  match status with
  | ExecutionStatusRunning =>
      match probe with
      | NoContainer =>
          if fault 10%nat then recover x e
          else try_execs false
                 (RecordFailure now (x_ID x) orphan_message TaskFailureClassOrphaned) e
      | _ => recover x e
      end
  | ExecutionStatusPaused =>
      if negb (auto_resumable (PausedReason (loadState x))) then e
      else if fault 11%nat then e
      else recover (x <| x_Status := ExecutionStatusRunning |>)
             (try_execs false (UpdateExecutionStatus now (x_ID x) ExecutionStatusRunning) e)
  | _ => recover x e
  end.

Definition recovered_statuses : list ExecutionStatus :=
  [ExecutionStatusRunning; ExecutionStatusPending; ExecutionStatusPaused].

(** The rows of a status, listed when its turn comes. *)
Definition recover_status (now : time) (fault : string -> nat -> bool)
    (live : string -> option string) (probe : string -> Probe) (status : ExecutionStatus)
    (e : Executor) : result ExecutorError Executor :=
  let! rows := call (fault "" 0%nat)
    (ListExecutions (mkExecutionFilter None None (Some status) 1000 0) (e_execs e)) in
  Ok (foldl (fun e x => recover_row now (fault (x_ID x)) live (probe (x_TaskID x)) status x e)
        e rows).

(** The sweep over the waiting parents. *)
Definition sweepStuckWaitingForChildren (now : time) (e : Executor) : Executor :=
  match TaskRepo.List (mkTaskFilter None (Some TaskStatusWaitingForChildren) None 500 0) (e_tasks e) with
  | Err _ => e
  | Ok stuck =>
      e <| e_tasks := foldl (fun tbl p => unblockParentIfChildrenDone now (ID p) tbl) (e_tasks e) stuck |>
  end.

(** [Recover], less the pruning of worktrees. *)
Definition Recover (now : time) (fault : string -> nat -> bool) (live : string -> option string)
    (probe : string -> Probe) (e : Executor) : result ExecutorError Executor :=
  let! e := recover_status now fault live probe ExecutionStatusRunning e in
  let! e := recover_status now fault live probe ExecutionStatusPending e in
  let! e := recover_status now fault live probe ExecutionStatusPaused e in
  Ok (sweepStuckWaitingForChildren now e).

(** ** Cancelling and pausing *)

(** The context of goroutine [i] is done, unless it already was. *)
Definition ctx_done_run (err : GoError) (r : Run) : Run :=
  if is_some (r_ctxErr r) then r else r <| r_ctxErr := Some err |>.

Definition cancel_run (err : GoError) (i : nat) (e : Executor) : Executor :=
  e <| e_runs := alter (ctx_done_run err) i (e_runs e) |>.

(** A container is only stopped when the handle knows it. *)
Definition stop_container (cid : string) (e : Executor) : Executor :=
  if cid =?? "" then e else note (Stopped cid) e.

Definition handle_container (taskID : string) (e : Executor) : string :=
  match e_active e !! taskID with Some h => h_containerID h | None => "" end.

(** The lookup of the handle, under the mutex. *)
Definition Cancel (taskID : string) (e : Executor) : result ExecutorError Executor :=
  match e_active e !! taskID with
  | None => Err ErrNoActiveExecution
  | Some h => Ok (e <| e_calls := (e_calls e ++ [CancelTask taskID (h_run h) (h_containerID h)])%list |>)
  end.

Definition pauseWithReason (taskID reason : string) (e : Executor) : result ExecutorError Executor :=
  match e_active e !! taskID with
  | None => Err ErrNoActiveExecution
  | Some h =>
      Ok (stop_container (h_containerID h)
            (e <| e_calls := (e_calls e ++ [PauseGet taskID reason (h_run h)])%list |>))
  end.

(** The statements that follow run on contexts of their own. *)
Definition call_step (now : time) (fault : bool) (pc : CallPC) (e : Executor) : CallPC * Executor :=
  match pc with
  | CancelTask t i cid => (CancelExec t i cid, try_tasks fault (UpdateStatus now t TaskStatusCancelled) e)
  | CancelExec t i cid =>
      (CancelCascade t i cid,
       match (if fault then Err ErrNotFound else GetByTaskID t (e_execs e)) with
       | Ok x => try_execs false (UpdateExecutionStatus now (x_ID x) ExecutionStatusCancelled) e
       | Err _ => e
       end)
  | CancelCascade t i cid =>
      (CancelCtx t i cid,
       try_execs fault (fun tbl => Ok (SupersedeNonTerminalForTask now t tbl).2) e)
  | CancelCtx t i cid =>
      (* a handle that had no container is read once more *)
      let e := cancel_run ctx_canceled i e in
      (CallDone, stop_container (if cid =?? "" then handle_container t e else cid) e)
  | PauseGet t reason i =>
      match (if fault then Err ErrNotFound else GetByTaskID t (e_execs e)) with
      | Ok x => (PauseSave t reason i x, e)
      | Err _ => (CallDone, e)
      end
  | PauseSave t reason i x =>
      let st := (loadState x) <| PausedReason := reason |> in
      (PauseExec t i (x_ID x), try_execs fault (save_state now st (x_ID x)) e)
  | PauseExec t i xid =>
      if fault then (CallDone, e)
      else (PauseTask t i, try_execs false (UpdateExecutionStatus now xid ExecutionStatusPaused) e)
  | PauseTask t i => (PauseCtx i, try_tasks fault (UpdateStatus now t TaskStatusPaused) e)
  | PauseCtx i => (CallDone, cancel_run ctx_canceled i e)
  | CallDone => (CallDone, e)
  end.

Definition step_call (now : time) (fault : bool) (i : nat) (e : Executor) : Executor :=
  match e_calls e !! i with
  | None => e
  | Some pc =>
      let '(pc, e) := call_step now fault pc e in
      e <| e_calls := <[i := pc]> (e_calls e) |>
  end.

(** ** Turns *)

Inductive Event : Type :=
| EvExecute (now : time) (fault : nat -> bool) (xid : string) (fork : option ForkTarget) (taskID : string)
| EvResume (now : time) (fault : nat -> bool) (taskID : string)
| EvResumePaused (now : time) (fault : nat -> bool) (live : string -> option string) (xid : string)
| EvRecoverRow (now : time) (fault : nat -> bool) (live : string -> option string) (probe : Probe)
    (status : ExecutionStatus) (x : ExecRow)
| EvCancel (taskID : string)
| EvPause (taskID reason : string)
| EvShutdown
| EvStop
| EvRun (an : Answers) (i : nat)
| EvCall (now : time) (fault : bool) (i : nat)
| EvDeadline (i : nat)
| EvWorld (tasks : Table -> Table) (execs : ExecTable -> ExecTable).

(** The wall-clock cap of goroutine [i] passes. *)
Definition deadline_run (r : Run) : Run := if r_capped r then ctx_done_run ctx_deadline r else r.

Definition exec_event (e : Executor) (ev : Event) : Executor :=
  match ev with
  | EvExecute now fault xid fork t => or_same e (ExecuteWithContext now fault xid fork t e)
  | EvResume now fault t => (ResumeTask now fault t e).2
  | EvResumePaused now fault live xid => (ResumePaused now fault live xid e).2
  | EvRecoverRow now fault live probe status x => recover_row now fault live probe status x e
  | EvCancel t => or_same e (Cancel t e)
  | EvPause t reason => or_same e (pauseWithReason t reason e)
  | EvShutdown => e <| e_shuttingDown := true |>
  | EvStop => (e <| e_runs := map (ctx_done_run ctx_canceled) (e_runs e) |>)
                 <| e_shuttingDown := false |>
  | EvRun an i => step_run cfg an i e
  | EvCall now fault i => step_call now fault i e
  | EvDeadline i => e <| e_runs := alter deadline_run i (e_runs e) |>
  | EvWorld f g => e <| e_tasks := f (e_tasks e) |> <| e_execs := g (e_execs e) |>
  end.

Definition run_events (evs : list Event) (e : Executor) : Executor := foldl exec_event e evs.

(** A daemon that has just started on a database. *)
Definition boot (tasks : Table) (execs : ExecTable) : Executor :=
  mkExecutor tasks execs ∅ false [] [] [].

End Operations.
