(* ===== verification/LifecycleFacts.v ===== *)
(** * One goroutine per task

    The executor's map and its goroutines agree over every interleaving; what a
    container-stopping call knows while an attempt runs. *)
From stdpp Require Import pretty.
From S2P Require Import Prelude GoStrings Workflow Gates Engine StepRetry FailureClass TaskModel.
From S2P Require Import TaskRepo TaskRepoFacts Delegation ExecRepo Lifecycle LifecycleOps.
Open Scope string_scope.

(** ** Program counters *)

(** Before [cleanupExecution] removed the handle. *)
Definition live_pc (pc : RunPC) : bool :=
  match pc with RelGet | RelRelease _ | RunDone => false | _ => true end.

Definition live (r : Run) : bool := live_pc (r_pc r).

(** Until an attempt has succeeded. *)
Definition attempting_pc (pc : RunPC) : bool :=
  match pc with
  | RunMarkExec | RunMarkTask | RunPlan | RunPersist | RunLoop | RunAttempt
  | RunCheckCancelled _ | RunDelay => true
  | _ => false
  end.

Definition attempting (r : Run) : bool := attempting_pc (r_pc r).

Lemma attempting_live r : attempting r = true -> live r = true.
Proof. unfold attempting, live. by destruct (r_pc r). Qed.

(** ** Statements touch the database only *)

(** The parts of the executor that no statement changes. *)
Definition same_process (e e' : Executor) : Prop :=
  e_active e' = e_active e /\ e_runs e' = e_runs e /\ e_calls e' = e_calls e /\
  e_shuttingDown e' = e_shuttingDown e.

#[export] Instance same_process_refl : Reflexive same_process.
Proof. by intros e. Qed.

#[export] Instance same_process_trans : Transitive same_process.
Proof. intros a b c (? & ? & ? & ?) (? & ? & ? & ?). split_and!; congruence. Qed.

Lemma try_tasks_process fault f e : same_process e (try_tasks fault f e).
Proof. unfold try_tasks. destruct fault; [done|]. by destruct (f (e_tasks e)). Qed.

Lemma try_execs_process fault f e : same_process e (try_execs fault f e).
Proof. unfold try_execs. destruct fault; [done|]. by destruct (f (e_execs e)). Qed.

Lemma note_process n e : same_process e (note n e).
Proof. done. Qed.

Lemma stop_container_process cid e : same_process e (stop_container cid e).
Proof. unfold stop_container. by destruct (bool_decide (cid = "")). Qed.

#[export] Hint Resolve try_tasks_process try_execs_process note_process stop_container_process : vornik.
#[export] Hint Extern 0 (same_process ?e ?e) => reflexivity : vornik.

Section Facts.
Context `{pg : Postgres} {SC : StateCodec} (cfg : ExecutorConfig).

Lemma Get_id id tbl t : TaskRepo.Get id tbl = Ok t -> ID t = id.
Proof.
  unfold TaskRepo.Get. destruct (select_rows _ tbl) as [|x l] eqn:E; [done|]. intros [= <-].
  assert (Hx : x ∈ select_rows (fun t => ID t =?? id) tbl) by (rewrite E; left).
  apply elem_of_select_rows in Hx as [Hx _]. by apply bool_decide_eq_true in Hx.
Qed.

(** ** A step of a goroutine *)

(** How a step moves the program counter and the map. *)
Definition op_ok (r r' : Run) (op : MapOp) : Prop :=
  match op with
  | KeepHandle => live r' = live r /\ (attempting r' = true -> attempting r = true)
  | SetContainer _ => live r = true /\ live r' = true /\ attempting r' = false
  | RemoveHandle => live r = true /\ live r' = false
  end.

Lemma attempt_write_ok now fault w r e r' e' :
  attempt_write now fault w r e = (r', e') ->
  ID (r_task r') = ID (r_task r) /\ r_pc r' = r_pc r /\ same_process e e'.
Proof.
  destruct w; cbn [attempt_write]; intros H; injection H as <- <-;
    split_and!; auto with vornik.
Qed.

Lemma after_error_ok an err r :
  ID (r_task (after_error an err r)) = ID (r_task r) /\ live (after_error an err r) = true.
Proof.
  unfold after_error. destruct (negb (shouldRetry err) || _); [done|].
  by destruct (r_useWorktrees r).
Qed.

Lemma after_handler_pc r :
  live_pc (after_handler r) = true /\ attempting_pc (after_handler r) = false.
Proof. unfold after_handler. by destruct (r_followUp r). Qed.

(** The program counters of the final handlers. *)
Definition fin_pc (pc : RunPC) : Prop := live_pc pc = true /\ attempting_pc pc = false.

Lemma fin_pcs f t r :
  fin_pc (after_settle f t) /\ fin_pc (after_cascade f t) /\ fin_pc (after_unblock f) /\
  fin_pc (after_notify f r).
Proof.
  unfold after_settle, after_cascade, after_unblock, after_notify.
  split_and!; destruct f; cbn [is_cancelled]; try done; apply after_handler_pc.
Qed.

Lemma start_counters_ID r : ID (r_task (start_counters cfg r)) = ID (r_task r).
Proof. unfold start_counters. cbn [r_task]. by destruct (Attempt (r_task r) <=? 0)%Z. Qed.

Lemma exhaust_ID an r : ID (r_task (exhaust an r)) = ID (r_task r).
Proof. unfold exhaust. cbn [r_task goto]. by destruct (Attempt (r_task r) <? r_attempts r)%Z. Qed.

Lemma finished_task_ID now f t : ID (finished_task now f t) = ID t.
Proof. by destruct f. Qed.

(** What holds of every step. *)
Definition step_ok (r : Run) (e : Executor) (out : Run * MapOp * Executor) : Prop :=
  ID (r_task out.1.1) = ID (r_task r) /\ op_ok r out.1.1 out.1.2 /\ same_process e out.2.

(** A step that leaves the map alone. *)
Lemma keep_ok r r' e e' :
  ID (r_task r') = ID (r_task r) -> live r' = live r ->
  (attempting r' = true -> attempting r = true) -> same_process e e' ->
  step_ok r e (r', KeepHandle, e').
Proof. by unfold step_ok, op_ok. Qed.

Lemma goto_ok r pc e e' :
  live r = true -> fin_pc pc -> same_process e e' -> step_ok r e (goto pc r, KeepHandle, e').
Proof.
  intros Hl [H1 H2] He. apply keep_ok; [done| | |done].
  - by rewrite Hl.
  - change (attempting (goto pc r)) with (attempting_pc pc). by rewrite H2.
Qed.

Lemma attempt_end_ok an shutting out r e :
  r_pc r = RunAttempt ->
  step_ok r e (let '(r', op) := attempt_end an shutting out r in (r', op, e)).
Proof.
  intros Hpc. assert (live r = true /\ attempting r = true) as [Hl Ha].
  { unfold live, attempting. by rewrite Hpc. }
  destruct out; cbn [attempt_end]; [done|by apply keep_ok|by apply keep_ok|].
  destruct (after_error_ok an err (r <| r_lastErr := err |>)) as [H1 H2].
  apply keep_ok; [..|done|done].
  - by destruct shutting, (e_canceled err).
  - rewrite Hl. by destruct shutting, (e_canceled err).
Qed.

Lemma run_step_ok an r e : step_ok r e (run_step cfg an r e).
Proof.
  pose proof (after_handler_pc r) as [Hh1 Hh2].
  assert (Hpcs : forall pc, r_pc r = pc -> live r = live_pc pc /\ attempting r = attempting_pc pc)
    by (by intros ? <-).
  unfold run_step. destruct (r_pc r) eqn:Hpc; destruct (Hpcs _ eq_refl) as [Hl Ha];
    cbn [live_pc attempting_pc] in Hl, Ha.
  all: try (apply keep_ok; rewrite ?Hl, ?Ha; auto with vornik; fail).
  - apply keep_ok; rewrite ?Hl; auto with vornik. apply start_counters_ID.
  - destruct (an_plan an); apply keep_ok; rewrite ?Hl; auto with vornik.
  - destruct (r_max r <=? r_attempts r)%Z; [by apply keep_ok; rewrite ?Hl|].
    case_match; apply keep_ok; rewrite ?Hl; auto with vornik.
  - destruct (an_attempt an) as [w|out]; [|by apply attempt_end_ok].
    destruct (attempt_write _ _ w r e) as [r' e'] eqn:Hw.
    apply attempt_write_ok in Hw as (H1 & H2 & H3). apply keep_ok; [done| |done|done].
    unfold live. by rewrite H2.
  - destruct (after_error_ok an err r) as [H1 H2].
    apply keep_ok; [by repeat case_match|rewrite Hl; by repeat case_match|done|done].
  - apply keep_ok; rewrite ?Hl; try done. etrans; [apply try_execs_process|apply note_process].
  - apply keep_ok; rewrite ?Hl; try done; by repeat case_match.
  - apply keep_ok; rewrite ?Hl; try done. apply exhaust_ID.
  - destruct (merge_error an r); apply keep_ok; rewrite ?Hl; done.
  - apply goto_ok; [done|by repeat case_match|done].
  - apply keep_ok; rewrite ?Hl; [apply finished_task_ID|done|done|auto with vornik].
  - apply goto_ok; [by rewrite Hl|apply fin_pcs, r|by case_match].
  - apply goto_ok; [by rewrite Hl|apply fin_pcs, r|auto with vornik].
  - destruct (unblock_step _ _ u (e_tasks e)) as [u' tbl].
    apply goto_ok; [by rewrite Hl| |done]. case_match; [apply (fin_pcs f (r_task r) r)|done].
  - apply goto_ok; [by rewrite Hl|apply (fin_pcs f (r_task r) r)|by case_match].
  - split; [done|]. split; [|done]. unfold op_ok. cbn [fst snd]. split; [by rewrite Hl|].
    unfold live. cbn [r_pc goto]. by repeat case_match.
  - apply keep_ok; rewrite ?Hl; try done; unfold live, attempting; cbn [r_pc goto]; by repeat case_match.
Qed.

(** ** The executor's map *)

(** The map and the goroutines agree: an entry belongs to a goroutine of its task
    that still runs, every such goroutine has its entry, and the entry has no
    container while an attempt runs. *)
Record map_ok (e : Executor) : Prop := {
  mo_handle t h : e_active e !! t = Some h ->
    exists r, e_runs e !! h_run h = Some r /\ ID (r_task r) = t /\ live r = true;
  mo_run i r : e_runs e !! i = Some r -> live r = true ->
    exists h, e_active e !! ID (r_task r) = Some h /\ h_run h = i;
  mo_container i r h : e_runs e !! i = Some r -> attempting r = true ->
    e_active e !! ID (r_task r) = Some h -> h_containerID h = ""
}.

Lemma boot_ok tasks execs : map_ok (boot tasks execs).
Proof. split; cbn; [intros ? ?; by rewrite lookup_empty|done|done]. Qed.

Lemma map_ok_process e e' : same_process e e' -> map_ok e -> map_ok e'.
Proof.
  intros (Ha & Hr & _ & _) [H1 H2 H3]. split; rewrite Ha, Hr; done.
Qed.

(** At most one goroutine per task. *)
Lemma map_ok_unique e i j r r' :
  map_ok e -> e_runs e !! i = Some r -> e_runs e !! j = Some r' ->
  live r = true -> live r' = true -> ID (r_task r) = ID (r_task r') -> i = j.
Proof.
  intros Hok Hi Hj Hl Hl' Hid.
  destruct (mo_run e Hok i r Hi Hl) as (h & Hh & <-).
  destruct (mo_run e Hok j r' Hj Hl') as (h' & Hh' & <-). rewrite Hid in Hh. congruence.
Qed.

(** The goroutine at [j] after [i] was replaced. *)
Lemma replaced_run (l : list Run) i j r r' r0 :
  l !! i = Some r -> <[i := r']> l !! j = Some r0 ->
  (j = i /\ r0 = r') \/ (j <> i /\ l !! j = Some r0).
Proof.
  intros Hi Hj. destruct (decide (j = i)) as [->|Hne].
  - rewrite list_lookup_insert_eq in Hj by by eapply lookup_lt_Some. left. by injection Hj.
  - rewrite list_lookup_insert_ne in Hj by done. by right.
Qed.

(** A replaced goroutine that is as alive as before; at most its own entry changes
    its container. *)
Lemma map_ok_replace e i r r' active :
  map_ok e -> e_runs e !! i = Some r -> ID (r_task r') = ID (r_task r) -> live r' = live r ->
  (forall t, h_run <$> active !! t = h_run <$> e_active e !! t) ->
  (attempting r' = true -> attempting r = true) ->
  active = e_active e \/
  (live r = true /\ attempting r' = false /\
   forall t, t <> ID (r_task r) -> active !! t = e_active e !! t) ->
  map_ok (e <| e_runs := <[i := r']> (e_runs e) |> <| e_active := active |>).
Proof.
  intros Hok Hi Hid Hl Hh Ha Hact.
  assert (Hlt : (i < length (e_runs e))%nat) by by eapply lookup_lt_Some.
  assert (Hcase : forall t h, active !! t = Some h ->
    exists h0, e_active e !! t = Some h0 /\ h_run h0 = h_run h).
  { intros t h Hth. specialize (Hh t). rewrite Hth in Hh. cbn in Hh. symmetry in Hh.
    apply fmap_Some in Hh as (h0 & ? & ?). by exists h0. }
  split; simpl.
  - intros t h Hth. destruct (Hcase t h Hth) as (h0 & Hth0 & Hr0).
    destruct (mo_handle e Hok t h0 Hth0) as (r0 & Hr & Hidr & Hlr). rewrite Hr0 in Hr.
    destruct (decide (h_run h = i)) as [Heq|Hne]; [rewrite Heq in *|].
    + exists r'. rewrite list_lookup_insert_eq by done.
      rewrite Hi in Hr. injection Hr as <-. split_and!; congruence.
    + exists r0. by rewrite list_lookup_insert_ne by done.
  - intros j r0 Hj Hlj. destruct (replaced_run _ _ _ _ _ _ Hi Hj) as [[-> ->]|[Hne Hj']].
    + destruct (mo_run e Hok i r Hi) as (h & Hth & Hr); [congruence|].
      specialize (Hh (ID (r_task r))). rewrite Hth in Hh. apply fmap_Some in Hh as (h' & Hh' & Hr').
      exists h'. rewrite Hid. split; [done|congruence].
    + destruct (mo_run e Hok j r0 Hj' Hlj) as (h & Hth & Hr).
      specialize (Hh (ID (r_task r0))). rewrite Hth in Hh. apply fmap_Some in Hh as (h' & Hh' & Hr').
      exists h'. split; [done|congruence].
  - intros j r0 h Hj Haj Hth. destruct (replaced_run _ _ _ _ _ _ Hi Hj) as [[-> ->]|[Hne Hj']].
    + destruct Hact as [->|(_ & Hf & _)]; [|congruence]. rewrite Hid in Hth.
      apply (mo_container e Hok i r); auto.
    + destruct Hact as [->|(Hlr & _ & Hsame)]; [by apply (mo_container e Hok j r0)|].
      apply (mo_container e Hok j r0); [done|done|]. rewrite <- Hsame; [done|].
      intros Heq. apply Hne. apply (map_ok_unique e j i r0 r Hok); auto using attempting_live.
Qed.

(** A goroutine that ends takes its entry along. *)
Lemma map_ok_remove e i r r' :
  map_ok e -> e_runs e !! i = Some r -> live r = true -> live r' = false ->
  map_ok (e <| e_runs := <[i := r']> (e_runs e) |>
            <| e_active := delete (ID (r_task r)) (e_active e) |>).
Proof.
  intros Hok Hi Hl Hl'.
  assert (Hother : forall j r0, <[i := r']> (e_runs e) !! j = Some r0 -> live r0 = true ->
    j <> i /\ e_runs e !! j = Some r0 /\ ID (r_task r0) <> ID (r_task r)).
  { intros j r0 Hj Hlj. destruct (replaced_run _ _ _ _ _ _ Hi Hj) as [[-> ->]|[Hne Hj']]; [congruence|].
    split_and!; [done|done|]. intros Heq. apply Hne.
    by apply (map_ok_unique e j i r0 r Hok). }
  split; simpl.
  - intros t h Hth. apply lookup_delete_Some in Hth as [Hne Hth].
    destruct (mo_handle e Hok t h Hth) as (r0 & Hr & <- & Hlr). exists r0. split; [|done].
    rewrite list_lookup_insert_ne; [done|]. intros Heq. rewrite <- Heq, Hi in Hr. congruence.
  - intros j r0 Hj Hlj. destruct (Hother j r0 Hj Hlj) as (_ & Hj' & Hne).
    rewrite lookup_delete_ne by done. by apply (mo_run e Hok).
  - intros j r0 h Hj Haj Hth. apply lookup_delete_Some in Hth as [_ Hth].
    destruct (Hother j r0 Hj (attempting_live r0 Haj)) as (_ & Hj' & _).
    by apply (mo_container e Hok j r0).
Qed.

Lemma step_run_ok an i e : map_ok e -> map_ok (step_run cfg an i e).
Proof.
  intros Hok. unfold step_run. destruct (e_runs e !! i) as [r|] eqn:Hi; [|done].
  pose proof (run_step_ok an r e) as Hs. destruct (run_step cfg an r e) as [[r' op] e'].
  destruct Hs as (Hid & Hop & Hp). cbn [fst snd] in *.
  assert (Hok' : map_ok e') by by eapply map_ok_process.
  destruct Hp as (Ha & Hr & _). rewrite <- Hr in Hi.
  destruct op as [|cid|]; cbn [op_ok apply_op] in *.
  - destruct Hop as [Hl Hat]. apply (map_ok_replace e' i r r'); auto.
  - destruct Hop as (Hl & Hl' & Hat). apply (map_ok_replace e' i r r'); [done|done|done|congruence| |congruence|].
    + intros t. destruct (e_active e' !! ID (r_task r)) as [h|] eqn:Hh; [|done].
      destruct (decide (t = ID (r_task r))) as [->|Hne].
      * by rewrite lookup_insert_eq, Hh.
      * by rewrite lookup_insert_ne by done.
    + right. split_and!; [done|done|]. intros t Hne.
      destruct (e_active e' !! ID (r_task r)); [|done]. by rewrite lookup_insert_ne by done.
  - destruct Hop as [Hl Hl']. by apply map_ok_remove.
Qed.

(** ** The other events *)

(** Goroutines may change except for their task and their program counter. *)
Lemma map_ok_runs e (f : nat -> Run -> Run) runs :
  map_ok e -> (forall i, runs !! i = f i <$> e_runs e !! i) ->
  (forall i r, r_task (f i r) = r_task r /\ r_pc (f i r) = r_pc r) ->
  map_ok (e <| e_runs := runs |>).
Proof.
  intros Hok Hruns Hf.
  assert (Hback : forall i r, runs !! i = Some r ->
    exists r0, e_runs e !! i = Some r0 /\ r_task r = r_task r0 /\ live r = live r0 /\
      attempting r = attempting r0).
  { intros i r Hi. rewrite Hruns in Hi. apply fmap_Some in Hi as (r0 & Hi & ->).
    destruct (Hf i r0) as [Ht Hpc]. exists r0. unfold live, attempting. by rewrite Ht, Hpc. }
  split; simpl.
  - intros t h Hth. destruct (mo_handle e Hok t h Hth) as (r & Hr & Hid & Hl).
    exists (f (h_run h) r). destruct (Hf (h_run h) r) as [Ht Hpc].
    rewrite Hruns, Hr. unfold live. by rewrite Ht, Hpc.
  - intros i r Hi Hl. destruct (Hback i r Hi) as (r0 & Hi0 & Ht & Hl0 & _). rewrite Ht.
    apply (mo_run e Hok); [done|congruence].
  - intros i r h Hi Ha Hth. destruct (Hback i r Hi) as (r0 & Hi0 & Ht & _ & Ha0).
    apply (mo_container e Hok i r0); [done|congruence|by rewrite <- Ht].
Qed.

Lemma ctx_done_run_same err r :
  r_task (ctx_done_run err r) = r_task r /\ r_pc (ctx_done_run err r) = r_pc r.
Proof. unfold ctx_done_run. by destruct (is_some (r_ctxErr r)). Qed.

Lemma alter_ok f i e :
  map_ok e -> (forall r, r_task (f r) = r_task r /\ r_pc (f r) = r_pc r) ->
  map_ok (e <| e_runs := alter f i (e_runs e) |>).
Proof.
  intros Hok Hf. apply (map_ok_runs e (fun j => if decide (i = j) then f else id)); [done| |].
  - intros j. rewrite list_lookup_alter. destruct (decide (i = j)) as [->|]; [done|].
    by destruct (e_runs e !! j).
  - intros j r. by destruct (decide (i = j)).
Qed.

Lemma spawn_ok recovered t x e :
  map_ok e -> e_active e !! ID t = None -> map_ok (spawn recovered t x e).
Proof.
  intros Hok Hnone. unfold spawn. split; simpl.
  - intros t' h Hth. apply lookup_insert_Some in Hth as [[<- <-]|[Hne Hth]].
    + exists (new_run t x). cbn [h_run]. by rewrite list_lookup_middle.
    + destruct (mo_handle e Hok t' h Hth) as (r & Hr & Hrest). exists r. split; [|done].
      by apply lookup_app_l_Some.
  - intros i r Hi Hl. apply lookup_app_Some in Hi as [Hi|[Hle Hi]].
    + destruct (mo_run e Hok i r Hi Hl) as (h & Hth & Hr). exists h.
      split; [|done]. rewrite lookup_insert_ne; [done|]. intros Heq. rewrite Heq in Hnone. congruence.
    + apply list_lookup_singleton_Some in Hi as [Hi <-].
      exists (mkHandle (length (e_runs e)) "" recovered). cbn [r_task new_run h_run].
      rewrite lookup_insert_eq. split; [done|lia].
  - intros i r h Hi Ha Hth. apply lookup_insert_Some in Hth as [[_ <-]|[Hne Hth]]; [done|].
    apply lookup_app_Some in Hi as [Hi|[_ Hi]]; [by apply (mo_container e Hok i r)|].
    apply list_lookup_singleton_Some in Hi as [_ <-]. by destruct Hne.
Qed.

Lemma not_executing t e : executing t e = false -> e_active e !! t = None.
Proof. unfold executing. by destruct (e_active e !! t). Qed.

Lemma call_Ok {A} fault (m : result RepoError A) v : call fault m = Ok v -> m = Ok v.
Proof. unfold call. destruct fault; [done|]. destruct m; [|done]. by intros [= ->]. Qed.

Lemma Execute_ok now fault xid fork t e e' :
  map_ok e -> ExecuteWithContext now fault xid fork t e = Ok e' -> map_ok e'.
Proof.
  intros Hok. unfold ExecuteWithContext. destruct (e_shuttingDown e); [done|].
  destruct (executing t e) eqn:Hex; [done|].
  intros (tk & Hget & (c & _ & [= <-])%res_bind_ok)%res_bind_ok.
  apply call_Ok, Get_id in Hget.
  apply spawn_ok; [by apply (map_ok_process e)|]. rewrite Hget. by apply not_executing in Hex.
Qed.

Lemma recoverExecution_ok now fault live x e e' :
  map_ok e -> recoverExecution now fault live x e = Ok e' -> map_ok e'.
Proof.
  intros Hok. unfold recoverExecution. destruct (executing (x_TaskID x) e) eqn:Hex.
  { by intros [= <-]. }
  intros (tk & Hget & H)%res_bind_ok. destruct (release_terminal (Status tk)).
  { injection H as <-. eapply map_ok_process; [apply try_execs_process|done]. }
  destruct (drifted x live e).
  { injection H as <-. eapply map_ok_process; [|done].
    etrans; [apply try_execs_process|apply try_tasks_process]. }
  injection H as <-. apply call_Ok, Get_id in Hget. apply spawn_ok; [done|].
  rewrite Hget. by apply not_executing in Hex.
Qed.

Lemma Resume_ok now fault t e : map_ok e -> map_ok (ResumeTask now fault t e).2.
Proof.
  intros Hok. unfold ResumeTask. destruct (executing t e) eqn:Hex; [done|].
  destruct (call (fault 0%nat) (TaskRepo.Get t (e_tasks e))) as [tk|] eqn:Hget; [|done].
  destruct (call (fault 1%nat) _) as [x|]; [|done]. destruct (negb _); [done|].
  destruct (match resumed_state _ with Some _ => _ | None => _ end) as [[x' execs]|]; [|done].
  destruct (call (fault 3%nat) _) as [execs'|]; [|by apply (map_ok_process e)].
  destruct (call (fault 4%nat) _) as [tasks|]; [|by apply (map_ok_process e)].
  apply call_Ok, Get_id in Hget.
  apply spawn_ok; [by apply (map_ok_process e)|]. rewrite Hget. by apply not_executing in Hex.
Qed.

Lemma ResumePaused_ok now fault live xid e :
  map_ok e -> map_ok (ResumePaused now fault live xid e).2.
Proof.
  intros Hok. unfold ResumePaused. destruct (bool_decide (xid = "")); [done|].
  destruct (call (fault 10%nat) _) as [x|]; [|done]. destruct (negb _); [done|].
  destruct (negb _); [done|]. destruct (call (fault 11%nat) _) as [execs|]; [|done].
  assert (Hok' : map_ok (e <| e_execs := execs |>)) by by apply (map_ok_process e).
  destruct (recoverExecution _ _ _ _ _) as [e'|] eqn:Hr; [|done].
  by eapply recoverExecution_ok.
Qed.

Lemma or_same_ok e r : map_ok e -> (forall e', r = Ok e' -> map_ok e') -> map_ok (or_same e r).
Proof. intros H1 H2. destruct r; [by apply H2|done]. Qed.

Lemma recover_row_ok now fault live probe status x e :
  map_ok e -> map_ok (recover_row now fault live probe status x e).
Proof.
  intros Hok. assert (Hrec : forall x e, map_ok e ->
    map_ok (or_same e (recoverExecution now fault live x e))).
  { intros x' e' H. apply or_same_ok; [done|]. intros e''. by apply recoverExecution_ok. }
  unfold recover_row. cbv zeta. destruct status; try apply Hrec, Hok.
  - destruct probe; try apply Hrec, Hok. destruct (fault 10%nat); [apply Hrec, Hok|].
    eapply map_ok_process; [apply try_execs_process|done].
  - destruct (negb _); [done|]. destruct (fault 11%nat); [done|]. apply Hrec.
    eapply map_ok_process; [apply try_execs_process|done].
Qed.

Lemma call_step_ok now fault pc e : map_ok e -> map_ok (call_step now fault pc e).2.
Proof.
  intros Hok.
  assert (Hctx : forall i, map_ok (cancel_run ctx_canceled i e)).
  { intros i. apply alter_ok; [done|]. intros r. apply ctx_done_run_same. }
  assert (Hp : forall e', same_process e e' -> map_ok e') by (intros; by eapply map_ok_process).
  destruct pc; cbn [call_step snd]; auto using try_tasks_process, try_execs_process.
  - destruct (if fault then Err ErrNotFound else GetByTaskID taskID (e_execs e));
      [apply Hp, try_execs_process|done].
  - eapply map_ok_process; [apply stop_container_process|done].
  - by destruct (if fault then Err ErrNotFound else GetByTaskID taskID (e_execs e)).
  - destruct fault; [done|]. apply Hp, try_execs_process.
Qed.

Lemma with_calls_ok e calls : map_ok e -> map_ok (e <| e_calls := calls |>).
Proof. intros [H1 H2 H3]. by split. Qed.

Lemma exec_event_ok e ev : map_ok e -> map_ok (exec_event cfg e ev).
Proof.
  intros Hok. destruct ev; cbn [exec_event].
  - apply or_same_ok; [done|]. intros e'. by apply Execute_ok.
  - by apply Resume_ok.
  - by apply ResumePaused_ok.
  - by apply recover_row_ok.
  - apply or_same_ok; [done|]. intros e'. unfold Cancel.
    destruct (e_active e !! taskID); [|done]. intros [= <-]. by apply with_calls_ok.
  - apply or_same_ok; [done|]. intros e'. unfold pauseWithReason.
    destruct (e_active e !! taskID); [|done]. intros [= <-].
    eapply map_ok_process; [apply stop_container_process|]. by apply with_calls_ok.
  - by destruct Hok; split.
  - assert (Hm : map_ok (e <| e_runs := map (ctx_done_run ctx_canceled) (e_runs e) |>)).
    { apply (map_ok_runs e (fun _ => ctx_done_run ctx_canceled)); [done| |].
      - intros i. apply list_lookup_fmap.
      - intros _ r. apply ctx_done_run_same. }
    by destruct Hm; split.
  - by apply step_run_ok.
  - unfold step_call. destruct (e_calls e !! i) as [pc|]; [|done].
    pose proof (call_step_ok now fault pc e Hok) as Hc.
    destruct (call_step now fault pc e) as [pc' e']. by apply with_calls_ok.
  - apply alter_ok; [done|]. intros r. unfold deadline_run.
    destruct (r_capped r); [apply ctx_done_run_same|done].
  - by destruct Hok; split.
Qed.

Lemma run_events_ok evs e : map_ok e -> map_ok (run_events cfg evs e).
Proof. revert e. induction evs as [|ev evs IH]; intros e Hok; [done|]. by apply IH, exec_event_ok. Qed.

(** C10: over every interleaving of a daemon's operations, goroutines and other
    processes at most one goroutine executes a task: the executor's map and its
    running goroutines agree. *)
Theorem one_goroutine_per_task tasks execs evs i j r r' :
  let e := run_events cfg evs (boot tasks execs) in
  e_runs e !! i = Some r -> e_runs e !! j = Some r' -> live r = true -> live r' = true ->
  ID (r_task r) = ID (r_task r') ->
  i = j /\ exists h, e_active e !! ID (r_task r) = Some h /\ h_run h = i.
Proof.
  intros e Hi Hj Hl Hl' Hid.
  assert (Hok : map_ok e) by apply run_events_ok, boot_ok. split.
  - by apply (map_ok_unique e i j r r').
  - by apply (mo_run e Hok).
Qed.

(** While an execution attempts its workflow its handle has no container, so a
    cancel or a pause that arrives meanwhile stops none: the container's name is
    only stored after the attempt has returned. *)
Theorem no_container_while_attempting tasks execs evs i r reason e' :
  let e := run_events cfg evs (boot tasks execs) in
  e_runs e !! i = Some r -> attempting r = true ->
  handle_container (ID (r_task r)) e = "" /\
  (pauseWithReason (ID (r_task r)) reason e = Ok e' -> e_notes e' = e_notes e).
Proof.
  intros e Hi Ha. assert (Hok : map_ok e) by apply run_events_ok, boot_ok.
  destruct (mo_run e Hok i r Hi (attempting_live r Ha)) as (h & Hh & Hr).
  pose proof (mo_container e Hok i r h Hi Ha Hh) as Hc.
  unfold handle_container, pauseWithReason. rewrite Hh, Hc. split; [done|]. by intros [= <-].
Qed.
End Facts.
