(* ===== verification/LifecycleRuns.v ===== *)
(** * What an execution leaves behind

    A goroutine of [runExecution] that runs without interference: what it writes once
    its context is done, what a pause before the final handler preserves, how it
    completes, and how many attempts it makes. *)
From stdpp Require Import pretty.
From S2P Require Import Prelude GoStrings Workflow Gates Engine StepRetry FailureClass TaskModel.
From S2P Require Import TaskRepo TaskRepoFacts Delegation ExecRepo Lifecycle LifecycleOps.
From S2P Require Import LifecycleFacts.
Open Scope string_scope.

(** In [handleCancelled]. *)
Definition cancelling_pc (pc : RunPC) : bool :=
  match pc with
  | FinGuard f | FinExec f | FinTask f | FinSettle f | FinCascade f | FinUnblock f _ | FinNotify f =>
      is_cancelled f
  | _ => false
  end.

(** Releasing a recovered task. *)
Definition releasing_pc (pc : RunPC) : bool :=
  match pc with RelGet | RelRelease _ => true | _ => false end.

Section Runs.
Context `{pg : Postgres} {SC : StateCodec} (cfg : ExecutorConfig).

(** Steps of one goroutine. *)
Definition own_steps (i : nat) (ans : list Answers) (e : Executor) : Executor :=
  foldl (fun e an => step_run cfg an i e) e ans.

(** The goroutine was not started by the recovery. *)
Definition not_recovered (r : Run) (e : Executor) : Prop :=
  releasing_pc (r_pc r) = false /\
  forall h, e_active e !! ID (r_task r) = Some h -> h_recovered h = false.

(** ** A context that is done *)

(** The database and the settled reservations. *)
Definition same_records (e e' : Executor) : Prop :=
  e_tasks e' = e_tasks e /\ e_execs e' = e_execs e /\
  forall t, Settled t ∈ e_notes e' -> Settled t ∈ e_notes e.

#[local] Instance same_records_refl : Reflexive same_records.
Proof. by intros e. Qed.

#[local] Instance same_records_trans : Transitive same_records.
Proof. intros a b c (? & ? & ?) (? & ? & ?). split_and!; try congruence. auto. Qed.

Lemma note_records n e : (forall t, n <> Settled t) -> same_records e (note n e).
Proof.
  intros Hn. split_and!; [done|done|]. intros t Ht. cbn [note e_notes] in Ht.
  simpl in Ht. apply elem_of_app in Ht as [Ht|Ht%list_elem_of_singleton]; [done|].
  by destruct (Hn t).
Qed.

Lemma unblock_step_fault now u tbl : (unblock_step now true u tbl).2 = tbl.
Proof. by destruct u. Qed.

Definition done_ok (r : Run) (e : Executor) (out : Run * MapOp * Executor) : Prop :=
  r_ctxErr out.1.1 = r_ctxErr r /\ same_records e out.2 /\
  (cancelling_pc (r_pc r) = false -> cancelling_pc (r_pc out.1.1) = false) /\
  (not_recovered r e -> releasing_pc (r_pc out.1.1) = false).

(** Steps that end in [after_error] or another program counter of the loop. *)
Lemma after_error_fields an err r :
  let r' := after_error an err r in
  r_ctxErr r' = r_ctxErr r /\ (r_pc r' = RunExhausted \/ r_pc r' = RunDelay).
Proof.
  unfold after_error. destruct (negb (shouldRetry err) || _); [by auto|].
  destruct (r_useWorktrees r); by auto.
Qed.

Lemma attempt_write_done now w r e :
  let out := attempt_write now true w r e in
  r_ctxErr out.1 = r_ctxErr r /\ r_pc out.1 = r_pc r /\ out.2 = e.
Proof. by destruct w. Qed.

Lemma attempt_end_done an shutting out r :
  let o := attempt_end an shutting out r in
  r_ctxErr o.1 = r_ctxErr r /\
  cancelling_pc (r_pc o.1) = false /\ releasing_pc (r_pc o.1) = false.
Proof.
  destruct out as [| | |err]; cbn [attempt_end fst]; [done..|]. destruct shutting; [done|].
  destruct (e_canceled err); [done|].
  destruct (after_error_fields an err (r <| r_lastErr := err |>)) as [Hc Hp].
  rewrite Hc. by destruct Hp as [-> | ->].
Qed.

Lemma after_handler_quiet r :
  cancelling_pc (after_handler r) = false /\ releasing_pc (after_handler r) = false.
Proof. unfold after_handler. by destruct (r_followUp r). Qed.

Lemma done_step an r e :
  blocked r = true -> releasing_pc (r_pc r) = false -> done_ok r e (run_step cfg an r e).
Proof.
  intros Hb Hrel.
  assert (Hone : forall r' op e', r_ctxErr r' = r_ctxErr r -> same_records e e' ->
    (cancelling_pc (r_pc r) = false -> cancelling_pc (r_pc r') = false) ->
    releasing_pc (r_pc r') = false -> done_ok r e (r', op, e')).
  { intros r' op e' H1 H2 H3 H4. by split_and!. }
  unfold run_step. rewrite Hb, orb_true_r. unfold try_tasks, try_execs.
  destruct (r_pc r) eqn:Hpc; cbn [releasing_pc] in Hrel; try done.
  all: cbv iota.
  all: try (apply Hone; rewrite ?Hpc; done).
  - destruct (an_plan an); by apply Hone.
  - destruct (r_max r <=? r_attempts r)%Z; [by apply Hone|].
    destruct (_ <=? 1)%Z; by apply Hone.
  - destruct (an_attempt an) as [w|out].
    + pose proof (attempt_write_done (an_now an) w r e) as (H1 & H2 & H3).
      destruct (attempt_write (an_now an) true w r e) as [r' e']. cbn [fst snd] in *. subst e'.
      apply Hone; by rewrite ?H2, ?Hpc.
    + pose proof (attempt_end_done an (e_shuttingDown e) out r) as (H1 & H2 & H3).
      destruct (attempt_end an (e_shuttingDown e) out r) as [r' op]. by apply Hone.
  - destruct (after_error_fields an err r) as [H1 H2].
    apply Hone; [done|done| |]; by destruct H2 as [-> | ->].
  - apply Hone; try done. by apply note_records.
  - destruct (r_ctxErr r) eqn:Hctx; [destruct (ec_RetryDelay cfg)|]; by apply Hone.
  - destruct (merge_error an r); by apply Hone.
  - pose proof (after_handler_quiet r) as [H1 H2]. destruct (match _ with Ok _ => _ | Err _ => _ end); apply Hone; rewrite ?Hpc; done.
  - unfold negb. rewrite andb_false_r. apply Hone; rewrite ?Hpc; [done|done|..];
      by destruct f.
  - apply Hone; rewrite ?Hpc; [done|done|..]; by destruct f.
  - pose proof (unblock_step_fault (an_now an) u (e_tasks e)) as Hu.
    destruct (unblock_step _ _ _ _) as [u' tbl]. cbn [snd] in Hu. subst tbl.
    apply Hone; rewrite ?Hpc; [done| |..].
    + by split_and!.
    + destruct (bool_decide (u' = UbDone)); by destruct f.
    + destruct (bool_decide (u' = UbDone)); by destruct f.
  - pose proof (after_handler_quiet r) as [H1 H2].
    apply Hone; rewrite ?Hpc; [done| |by destruct f..].
    destruct (announces f (r_task r)); [|done]. by apply note_records.
  - unfold done_ok. cbn [fst snd goto r_ctxErr r_pc]. split_and!; [done|done|..].
    + intros _. destruct (e_active e !! ID (r_task r)) as [h|]; [|done]. by destruct (h_recovered h).
    + intros [_ Hn]. destruct (e_active e !! ID (r_task r)) as [h|]; [|done].
      by rewrite (Hn h eq_refl).
Qed.

(** Goroutine [i] is done: it keeps its error, was not started by the recovery, and
    is not cancelling. *)
Definition done_run (i : nat) (e : Executor) : Prop :=
  exists r, e_runs e !! i = Some r /\ blocked r = true /\ not_recovered r e /\
    cancelling_pc (r_pc r) = false.

Lemma apply_op_recovered op r active h :
  (forall h, active !! ID (r_task r) = Some h -> h_recovered h = false) ->
  apply_op op (ID (r_task r)) active !! ID (r_task r) = Some h -> h_recovered h = false.
Proof.
  intros Hold. destruct op as [|cid|]; cbn [apply_op]; [by apply Hold| |].
  - destruct (active !! ID (r_task r)) as [h0|] eqn:Hh; [|by rewrite Hh].
    rewrite lookup_insert_eq. intros [= <-]. apply (Hold h0 eq_refl).
  - by rewrite lookup_delete_eq.
Qed.

Lemma done_step_run an i e :
  done_run i e -> done_run i (step_run cfg an i e) /\ same_records e (step_run cfg an i e).
Proof.
  intros (r & Hi & Hb & [Hrel Hrec] & Hc). unfold step_run. rewrite Hi.
  pose proof (done_step an r e Hb Hrel) as (Hctx & Hsame & Hc' & Hrel').
  pose proof (run_step_ok cfg an r e) as (Hid & _ & Ha & Hr & _).
  destruct (run_step cfg an r e) as [[r' op] e']. cbn [fst snd] in *.
  split; [|by destruct Hsame].
  exists r'. simpl. rewrite Hr, Ha, list_lookup_insert_eq by by eapply lookup_lt_Some.
  unfold blocked. rewrite Hctx. split_and!; [done|done| |by apply Hc'].
  split; [by apply Hrel'|]. rewrite Hid. intros h. by apply apply_op_recovered.
Qed.

Lemma done_steps ans i e :
  done_run i e -> done_run i (own_steps i ans e) /\ same_records e (own_steps i ans e).
Proof.
  revert e. induction ans as [|an ans IH]; intros e He; [by split|].
  destruct (done_step_run an i e He) as [H1 H2]. destruct (IH _ H1) as [H3 H4].
  split; [done|]. by etrans.
Qed.

(** Once the context of an execution that the recovery did not start is done --
    cancelled, stopped, or past its wall-clock cap -- its goroutine changes neither
    tasks nor executions any more, settles no reservation and never reaches the
    handler of a cancellation, whatever its attempts return: the outcome is what
    the cancelling side wrote. *)
Theorem done_context_writes_nothing ans i r e :
  e_runs e !! i = Some r -> blocked r = true -> not_recovered r e ->
  cancelling_pc (r_pc r) = false ->
  let e' := own_steps i ans e in
  e_tasks e' = e_tasks e /\ e_execs e' = e_execs e /\
  (forall t, Settled t ∈ e_notes e' -> Settled t ∈ e_notes e) /\
  exists r', e_runs e' !! i = Some r' /\ cancelling_pc (r_pc r') = false.
Proof.
  intros Hi Hb Hn Hc e'. destruct (done_steps ans i e) as [(r' & Hr' & _ & _ & Hc') (H1 & H2 & H3)].
  { by exists r. }
  split_and!; [done..|]. by exists r'.
Qed.

End Runs.
