(* ===== verification/LifecycleEnds.v ===== *)
(** * How an execution ends

    The final handlers after the last attempt: what an operator's pause keeps, what
    a completion writes, and how a recovered execution gives its task back. *)
From stdpp Require Import pretty.
From S2P Require Import Prelude GoStrings Workflow Gates Engine StepRetry FailureClass TaskModel.
From S2P Require Import TaskRepo TaskRepoFacts Delegation FamilyFacts ExecRepo Lifecycle.
From S2P Require Import LifecycleOps LifecycleFacts LifecycleRuns.
Open Scope string_scope.

Section Ends.
Context `{pg : Postgres} {SC : StateCodec} (cfg : ExecutorConfig).

Abbreviation own_steps := (LifecycleRuns.own_steps cfg).

(** ** One step, seen from the goroutine *)

(** [step_run] of a goroutine whose step is known. *)
Lemma step_run_eq an i e r r' op e' :
  e_runs e !! i = Some r -> run_step cfg an r e = (r', op, e') ->
  step_run cfg an i e = e' <| e_runs := <[i := r']> (e_runs e) |>
    <| e_active := apply_op op (ID (r_task r)) (e_active e) |>.
Proof.
  intros Hi Hs. unfold step_run. rewrite Hi, Hs.
  pose proof (run_step_ok cfg an r e) as (_ & _ & Ha & Hr & _). rewrite Hs in Ha, Hr.
  cbn [fst snd] in *. by rewrite Ha, Hr.
Qed.

Lemma run_replaced (i : nat) (r r' : Run) (l : list Run) : l !! i = Some r -> <[i := r']> l !! i = Some r'.
Proof. intros Hi. by rewrite list_lookup_insert_eq by by eapply lookup_lt_Some. Qed.

(** ** A pause *)

(** Where the last attempt is over and nothing is written yet, and the way out of
    the guard. *)
Definition before_end (pc : RunPC) : bool :=
  match pc with
  | RunExhausted | RunMerge _ _ | FinGuard _ | RunFollowUp | RunCleanup | RunDone => true
  | _ => false
  end.

Lemma follow_up_rejected now id parent stepID tbl :
  exists err, scheduleCheckpointFollowUp cfg now id parent stepID tbl = Err err.
Proof.
  unfold scheduleCheckpointFollowUp. destruct (_ <=? _)%Z; [by eexists|].
  rewrite Create_rejects_checkpoint_and_fork by by left. by eexists.
Qed.

(** A paused task whose goroutine has made its last attempt. *)
Definition pausing (i : nat) (e : Executor) : Prop :=
  exists r t, e_runs e !! i = Some r /\ before_end (r_pc r) = true /\ not_recovered r e /\
    TaskRepo.Get (ID (r_task r)) (e_tasks e) = Ok t /\ Status t = TaskStatusPaused.

Lemma exhaust_fields an r :
  r_pc (exhaust an r) = FinGuard (FinFailure (e_text (r_lastErr r))
    (ClassifyExecutionFailure (Some (r_lastErr r)) (e_text (r_lastErr r)))) /\
  ID (r_task (exhaust an r)) = ID (r_task r).
Proof. split; [done|apply exhaust_ID]. Qed.

Lemma pausing_step an i e :
  an_fault an = false -> pausing i e ->
  let e' := step_run cfg an i e in
  pausing i e' /\ e_tasks e' = e_tasks e /\ e_execs e' = e_execs e /\ e_notes e' = e_notes e.
Proof.
  intros Hf (r & t & Hi & Hb & [Hrel Hrec] & Hget & Hp).
  assert (Hgo : forall r' op, run_step cfg an r e = (r', op, e) -> before_end (r_pc r') = true ->
    ID (r_task r') = ID (r_task r) ->
    let e' := step_run cfg an i e in
    pausing i e' /\ e_tasks e' = e_tasks e /\ e_execs e' = e_execs e /\ e_notes e' = e_notes e).
  { intros r' op Hs Hb' Hid e'. subst e'. rewrite (step_run_eq an i e r r' op e Hi Hs).
    split_and!; [|done..]. exists r', t. rewrite Hid. split_and!; [|done| |done|done].
    - simpl. by eapply run_replaced.
    - split; [by destruct (r_pc r')|]. intros h. rewrite Hid. simpl. by apply apply_op_recovered. }
  unfold run_step in Hgo. destruct (r_pc r) eqn:Hpc; try done.
  - by apply (Hgo (exhaust an r) KeepHandle); [|done|apply exhaust_ID].
  - destruct (merge_error an r); by eapply Hgo.
  - rewrite Hf, Hget, Hp in Hgo. eapply Hgo; [done| |done].
    simpl. unfold after_handler. by destruct (r_followUp r).
  - destruct (follow_up_rejected (an_now an) (an_followUpID an) (r_task r)
      (default "" (x_CurrentStepID (r_exec r))) (e_tasks e)) as [err Herr].
    eapply Hgo; [|by instantiate (1 := goto RunCleanup r)|done].
    unfold try_tasks. rewrite Herr. by destruct (an_fault an || blocked r).
  - eapply Hgo; [done| |done]. simpl. destruct (e_active e !! ID (r_task r)) as [h|] eqn:Hh; [|done].
    by rewrite (Hrec h eq_refl).
  - by eapply (Hgo r KeepHandle); rewrite ?Hpc.
Qed.

(** A pause that is in the database when the goroutine of an execution, not
    started by the recovery, comes to its final handler -- during the merge, after
    the last attempt -- is kept: nothing is written, settled or announced, however
    the execution ended, and the iteration-limit follow-up is not stored either. *)
Theorem pause_survives_finish ans i r t e :
  e_runs e !! i = Some r -> before_end (r_pc r) = true -> not_recovered r e ->
  TaskRepo.Get (ID (r_task r)) (e_tasks e) = Ok t -> Status t = TaskStatusPaused ->
  (forall an, an ∈ ans -> an_fault an = false) ->
  let e' := own_steps i ans e in
  e_tasks e' = e_tasks e /\ e_execs e' = e_execs e /\ e_notes e' = e_notes e.
Proof.
  intros Hi Hb Hn Hget Hp. assert (Hpz : pausing i e) by (by exists r, t). clear Hi Hb Hn Hget Hp r t.
  revert e Hpz. induction ans as [|an ans IH]; intros e Hpz Hf; [done|].
  destruct (pausing_step an i e) as (Hpz' & H1 & H2 & H3); [apply Hf; left|done|].
  destruct (IH _ Hpz') as (H4 & H5 & H6); [intros; apply Hf; by right|].
  rewrite <- H1, <- H2, <- H3. done.
Qed.

(** ** A recovered execution gives its task back *)

Lemma own_steps_cons i an ans e : own_steps i (an :: ans) e = own_steps i ans (step_run cfg an i e).
Proof. done. Qed.

Lemma ReleaseLease_leased now id l newStatus opts tbl t :
  table_ok tbl -> row tbl id = Some t -> LeaseID t = Some l -> l <> "" ->
  bind_errors [sql_enum (enum_task_status newStatus); sql_int4 (ro_Attempt opts);
               sql_int4 (ro_MaxAttempts opts)] = None ->
  row_checks (release_set now newStatus opts t) = true ->
  exists tbl', ReleaseLease now id l newStatus opts tbl = Ok tbl' /\ table_ok tbl' /\
    row tbl' id = Some (release_set now newStatus opts t).
Proof.
  intros Hok Hr Hl Hne Hb Hc. unfold ReleaseLease. rewrite bool_decide_false by done.
  unfold with_binds. rewrite Hb.
  pose proof (keyed_update (release_set now newStatus opts) tbl id
    (fun t => LeaseID t =?? Some l) Hok ltac:(by split)) as H.
  destruct (exec_update _ _ tbl) as [res|err].
  - destruct H as (_ & Hrow & _ & Hok'). exists res.1. split_and!; [done|done|].
    rewrite Hrow, Hr. simpl. by rewrite Hl, !bool_decide_true by done.
  - destruct H as (_ & t' & Ht' & _ & Hbad). assert (t' = t) as -> by congruence. congruence.
Qed.

Lemma keep_zero_pos (a b : Z) : (1 <= a)%Z -> (if a =? 0 then b else a)%Z = a.
Proof. intros H. by rewrite (proj2 (Z.eqb_neq a 0)) by lia. Qed.

(** What the release makes of a row that is not terminal. *)
Lemma release_recovered now tbl id t l :
  table_ok tbl -> row tbl id = Some t -> LeaseID t = Some l -> l <> "" ->
  release_terminal (Status t) = false -> (MaxAttempts t <= maxInt32)%Z ->
  let again := (Attempt t <? MaxAttempts t)%Z in
  exists tbl' t', releaseRecoveredTask now (scanTask t) tbl = Ok tbl' /\ table_ok tbl' /\
    row tbl' id = Some t' /\
    Status t' = (if again then TaskStatusQueued else TaskStatusFailed) /\
    Attempt t' = (if again then Attempt t + 1 else Attempt t)%Z /\ LeaseID t' = None /\
    LastErrorClass t' = None.
Proof.
  intros Hok Hr Hl Hne Hs Hmax again. pose proof (row_checks_of _ _ _ Hok Hr) as Hc.
  pose proof (proj2 (row_Some_1 _ _ _ Hr)) as Hid.
  unfold row_checks in Hc. rewrite !andb_true_iff, !Z.leb_le in Hc. destruct Hc as [[[P1 P2] A1] A2].
  assert (maxInt32 = 2147483647%Z) as E by reflexivity.
  unfold releaseRecoveredTask. change (Status (scanTask t)) with (Status t). rewrite Hs.
  change (LeaseID (scanTask t)) with (LeaseID t). rewrite Hl. change (default "" (Some l)) with l.
  change (MaxAttempts (scanTask t)) with (MaxAttempts t).
  change (Attempt (scanTask t)) with (Attempt t).
  change (ID (scanTask t)) with (ID t). rewrite Hid.
  rewrite (proj2 (Z.leb_gt (MaxAttempts t) 0)), (proj2 (Z.leb_gt (Attempt t) 0)) by lia.
  fold again. rewrite bool_decide_false by done.
  assert (Ha : (1 <= (if again then Attempt t + 1 else Attempt t) <= MaxAttempts t)%Z).
  { subst again. destruct (Z.ltb_spec (Attempt t) (MaxAttempts t)); lia. }
  edestruct (ReleaseLease_leased now id l (if again then TaskStatusQueued else TaskStatusFailed)
    (mkReleaseOptions (if again then Attempt t + 1 else Attempt t)%Z (MaxAttempts t)
       (default "" (LastError (scanTask t))) "") tbl t Hok Hr Hl Hne) as (tbl' & H1 & H2 & H3).
  { unfold sql_int4. cbn [ro_Attempt ro_MaxAttempts bind_errors sql_enum].
    assert (enum_task_status (if again then TaskStatusQueued else TaskStatusFailed) = true) as ->
      by by destruct again.
    by rewrite !int32_fits_pos by lia. }
  { unfold row_checks, release_set. cbn [ro_Attempt ro_MaxAttempts].
    rewrite (keep_zero_pos (MaxAttempts t)), (keep_zero_pos (if again then _ else _)) by lia. clear - P1 P2 A1 A2 Ha.
    rewrite !andb_true_iff, !Z.leb_le. simpl. destruct t; split_and!; simpl in *; lia. }
  exists tbl'. eexists. split_and!; [exact H1|done|exact H3|done| |done|done].
  unfold release_set. cbn [ro_Attempt]. by rewrite (keep_zero_pos (if again then _ else _)) by lia.
Qed.

(** A recovered execution does not keep a pause.  When its goroutine ends while
    its task still has its lease, the task is queued again with the next attempt,
    or failed after the last one -- also when an operator, the engine or the
    shutdown paused it, or it waits for its children, in between; the execution
    stays as it is. *)
Theorem recovered_pause_is_undone an1 an2 an3 i r t l h e :
  e_runs e !! i = Some r -> r_pc r = RunCleanup -> e_active e !! ID (r_task r) = Some h ->
  h_recovered h = true -> table_ok (e_tasks e) -> row (e_tasks e) (ID (r_task r)) = Some t ->
  LeaseID t = Some l -> l <> "" -> release_terminal (Status t) = false ->
  (MaxAttempts t <= maxInt32)%Z -> an_fault an2 = false -> an_fault an3 = false ->
  let again := (Attempt t <? MaxAttempts t)%Z in
  let e' := own_steps i [an1; an2; an3] e in
  e_execs e' = e_execs e /\
  exists t', row (e_tasks e') (ID (r_task r)) = Some t' /\
    Status t' = (if again then TaskStatusQueued else TaskStatusFailed) /\
    Attempt t' = (if again then Attempt t + 1 else Attempt t)%Z.
Proof.
  intros Hi Hpc Hh Hrec Hok Hr Hl Hne Hs Hmax Hf2 Hf3 again e'.
  destruct (release_recovered (an_now an3) _ _ t l Hok Hr Hl Hne Hs Hmax)
    as (tbl' & t' & Hrel & _ & Hr' & Hst & Hat & _).
  assert (Hget : TaskRepo.Get (ID (r_task r)) (e_tasks e) = Ok (scanTask t)) by by rewrite Get_row, Hr.
  subst e'. rewrite !own_steps_cons.
  erewrite (step_run_eq an1 i e r); [|done|by unfold run_step; rewrite Hpc, Hh, Hrec].
  set (e1 := e <| e_runs := _ |> <| e_active := _ |>).
  assert (Hi1 : e_runs e1 !! i = Some (goto RelGet r)) by by eapply run_replaced.
  change (e_tasks e) with (e_tasks e1) in Hget. change (e_execs e) with (e_execs e1).
  erewrite (step_run_eq an2 i e1 (goto RelGet r)); [|done|].
  2:{ unfold run_step. cbn [r_pc goto]. change (ID (r_task (goto RelGet r))) with (ID (r_task r)).
      rewrite Hf2, Hget. reflexivity. }
  set (e2 := e1 <| e_runs := _ |> <| e_active := _ |>).
  set (r2 := goto (RelRelease (scanTask t)) (goto RelGet r)) in e2.
  assert (Hi2 : e_runs e2 !! i = Some r2) by by eapply run_replaced.
  erewrite (step_run_eq an3 i e2 r2); [|done|].
  2:{ unfold run_step. change (r_pc r2) with (RelRelease (scanTask t)). cbv iota.
      rewrite Hf3. unfold try_tasks. change (e_tasks e2) with (e_tasks e). rewrite Hrel. reflexivity. }
  split; [done|]. exists t'. done.
Qed.

(** ** What a final handler writes *)

(** The effect of a step that keeps the handle. *)
Record stepped (i : nat) (r' : Run) (e' e1 : Executor) : Prop := {
  sd_run : e_runs e1 !! i = Some r';
  sd_tasks : e_tasks e1 = e_tasks e';
  sd_execs : e_execs e1 = e_execs e';
  sd_notes : e_notes e1 = e_notes e'
}.

Lemma step_keep an i e r r' e' :
  e_runs e !! i = Some r -> run_step cfg an r e = (r', KeepHandle, e') ->
  stepped i r' e' (step_run cfg an i e).
Proof.
  intros Hi Hs. rewrite (step_run_eq an i e r r' KeepHandle e' Hi Hs). split; [|done..].
  simpl. by eapply run_replaced.
Qed.

Definition fin_exec_status (f : Fin) : ExecutionStatus :=
  match f with
  | FinSuccess _ => ExecutionStatusCompleted
  | FinFailure _ _ => ExecutionStatusFailed
  | FinCancelled => ExecutionStatusCancelled
  end.

Definition exec_writable (f : Fin) : bool :=
  match f with FinSuccess res => jsonb_ok (Some res) | _ => true end.

Lemma elem_of_update_execs p f tbl x :
  x ∈ update_execs p f tbl <-> exists y, y ∈ tbl /\ x = if p y then f y else y.
Proof.
  unfold update_execs. rewrite list_elem_of_fmap. split; intros (y & H1 & H2); by exists y.
Qed.

(** A statement that sets the status of one execution. *)
Lemma update_by_id f status xid tbl :
  (forall x, x_ID (f x) = x_ID x /\ x_Status (f x) = status) ->
  (forall x, x ∈ update_execs (by_id xid) f tbl -> x_ID x = xid -> x_Status x = status) /\
  (forall x, x_ID x <> xid -> x ∈ update_execs (by_id xid) f tbl <-> x ∈ tbl).
Proof.
  intros Hf. split; intros x; rewrite elem_of_update_execs; unfold by_id.
  - intros (y & Hy & ->). case_bool_decide as E; [|done]. intros _. apply Hf.
  - intros Hne. split.
    + intros (y & Hy & ->). case_bool_decide as E; [|done].
      by rewrite (proj1 (Hf y)) in Hne.
    + intros Hx. exists x. by rewrite bool_decide_false.
Qed.

Lemma exec_outcome_Ok now f xid tbl :
  exec_writable f = true ->
  exists tbl', exec_outcome now f xid tbl = Ok tbl' /\
    (forall x, x ∈ tbl' -> x_ID x = xid -> x_Status x = fin_exec_status f) /\
    (forall x, x_ID x <> xid -> x ∈ tbl' <-> x ∈ tbl).
Proof.
  destruct f as [res|msg cls|]; cbn [exec_writable exec_outcome fin_exec_status].
  - intros Hj. unfold RecordCompletion, with_binds. cbn [bind_errors sql_enum]. rewrite Hj.
    eexists. split; [done|]. by apply update_by_id.
  - intros _. eexists. split; [done|]. by apply update_by_id.
  - intros _. eexists. split; [done|]. by apply update_by_id.
Qed.

(** The struct of the handler can be written over the row. *)
Definition fin_writable (f : Fin) (t row : Task) : Prop :=
  match f with FinFailure m c => writable (failed_task m c t) row | _ => True end.

Lemma write_ending_status now f t r0 tbl :
  table_ok tbl -> row tbl (ID t) = Some r0 -> fin_writable f t r0 ->
  exists tbl' t', write_ending now (ending f) t tbl = Ok tbl' /\ row tbl' (ID t) = Some t' /\
    Status t' = Status (finished_task now f t) /\
    LastErrorClass t' = match f with
                        | FinFailure _ _ => LastErrorClass (finished_task now f t)
                        | _ => LastErrorClass r0
                        end.
Proof.
  intros Hok Hr Hw.
  assert (Hst : forall st, enum_task_status st = true -> exists tbl' t',
    UpdateStatus now (ID t) st tbl = Ok tbl' /\ row tbl' (ID t) = Some t' /\ Status t' = st /\
    LastErrorClass t' = LastErrorClass r0).
  { intros st Hst. destruct (UpdateStatus_one now (ID t) st tbl Hok Hst) as (tbl' & -> & [_ H]).
    exists tbl'. eexists. rewrite H, bool_decide_true, Hr by done. by split_and!. }
  destruct f as [res|m c|]; cbn [ending write_ending finished_task].
  - by apply Hst.
  - destruct (Update_one now (failed_task m c t) r0 tbl Hok Hr Hw) as (t' & tbl' & -> & _ & H).
    exists tbl'. eexists. split; [done|]. rewrite H.
    change (ID (failed_task m c t)) with (ID t). by rewrite bool_decide_true by done.
  - by apply Hst.
Qed.

(** C20: the outcome of an execution that nobody paused, with a working database.
    Its final handler records COMPLETED or FAILED for the execution and touches no
    other; the task becomes COMPLETED after a success and, after a failure, gets
    the class of the error and becomes FAILED exactly when no attempt is left,
    otherwise it keeps the status the struct had; the reservation is settled
    exactly when the task is finished. *)
Theorem handler_writes_outcome an1 an2 an3 an4 i r f t0 e :
  e_runs e !! i = Some r -> r_pc r = FinGuard f -> f <> FinCancelled -> blocked r = false ->
  table_ok (e_tasks e) -> row (e_tasks e) (ID (r_task r)) = Some t0 ->
  Status t0 <> TaskStatusPaused -> fin_writable f (r_task r) t0 -> exec_writable f = true ->
  (forall an, an ∈ [an1; an2; an3; an4] -> an_fault an = false) ->
  let task := finished_task (an_now an3) f (r_task r) in
  let e' := own_steps i [an1; an2; an3; an4] e in
  (forall x, x ∈ e_execs e' -> x_ID x = x_ID (r_exec r) -> x_Status x = fin_exec_status f) /\
  (forall x, x_ID x <> x_ID (r_exec r) -> x ∈ e_execs e' <-> x ∈ e_execs e) /\
  (exists t', row (e_tasks e') (ID (r_task r)) = Some t' /\ Status t' = Status task /\
     match f with
     | FinFailure _ cls =>
         Status task = (if taskWillRetry (r_task r) then Status (r_task r) else TaskStatusFailed) /\
         (cls <> "" -> LastErrorClass t' = Some cls)
     | _ => Status task = TaskStatusCompleted
     end) /\
  e_notes e' = (if match f with FinFailure _ _ => Status task =?? TaskStatusFailed | _ => true end
                then e_notes e ++ [Settled (ID (r_task r))] else e_notes e)%list /\
  exists r', e_runs e' !! i = Some r' /\ r_pc r' = after_settle f task.
Proof.
  intros Hi Hpc Hf Hb Hok Hr Hp Hw Hx Hfault task e'.
  assert (an_fault an1 = false /\ an_fault an2 = false /\ an_fault an3 = false /\ an_fault an4 = false)
    as (F1 & F2 & F3 & F4).
  { split_and!; apply Hfault; rewrite !elem_of_cons; auto. }
  destruct (exec_outcome_Ok (an_now an2) f (x_ID (r_exec r)) (e_execs e) Hx) as (execs & Hex & Hx1 & Hx2).
  destruct (write_ending_status (an_now an3) f (r_task r) t0 _ Hok Hr Hw)
    as (tasks & t' & Hwr & Hrow & Hst & Hcls).
  assert (Hpz : (Status (scanTask t0) =?? TaskStatusPaused) = false) by by apply bool_decide_false.
  subst e'. rewrite !own_steps_cons.
  destruct (step_keep an1 i e r (goto (FinExec f) r) e Hi) as [I1 T1 X1 N1].
  { unfold run_step. by rewrite Hpc, F1, Get_row, Hr, Hpz. }
  set (e1 := step_run cfg an1 i e) in *.
  destruct (step_keep an2 i e1 _ (goto (FinTask f) r) (e1 <| e_execs := execs |>) I1)
    as [I2 T2 X2 N2].
  { unfold run_step, try_execs. change (r_pc (goto (FinExec f) r)) with (FinExec f).
    change (blocked (goto (FinExec f) r)) with (blocked r). cbv iota.
    rewrite F2, Hb. cbn [orb]. rewrite X1. change (r_exec (goto (FinExec f) r)) with (r_exec r).
    by rewrite Hex. }
  set (e2 := step_run cfg an2 i e1) in *.
  destruct (step_keep an3 i e2 _ (goto (FinSettle f) (r <| r_task := task |>))
    (e2 <| e_tasks := tasks |>) I2) as [I3 T3 X3 N3].
  { unfold run_step, try_tasks. change (r_pc (goto (FinTask f) r)) with (FinTask f).
    change (blocked (goto (FinTask f) r)) with (blocked r). cbv iota.
    rewrite F3, Hb. cbn [orb]. rewrite T2.
    change (e_tasks (e1 <| e_execs := execs |>)) with (e_tasks e1). rewrite T1.
    change (r_task (goto (FinTask f) r)) with (r_task r). by rewrite Hwr. }
  set (e3 := step_run cfg an3 i e2) in *.
  assert (Hid : ID task = ID (r_task r)) by apply finished_task_ID.
  destruct (step_keep an4 i e3 _ (goto (after_settle f task) (r <| r_task := task |>))
    (if settles f task then note (Settled (ID (r_task r))) e3 else e3) I3) as [I4 T4 X4 N4].
  { unfold run_step. simpl r_pc. cbv iota. simpl r_task.
    change (blocked (goto (FinSettle f) (r <| r_task := task |>))) with (blocked r).
    rewrite F4, Hb, Hid, andb_true_r. reflexivity. }
  change (own_steps i [] ?e) with e.
  assert (Het : e_tasks (step_run cfg an4 i e3) = tasks).
  { rewrite T4. transitivity (e_tasks e3); [by destruct (settles f task)|exact T3]. }
  assert (Hee : e_execs (step_run cfg an4 i e3) = execs).
  { rewrite X4. transitivity (e_execs e3); [by destruct (settles f task)|exact (eq_trans X3 X2)]. }
  assert (Hn3 : e_notes e3 = e_notes e) by exact (eq_trans N3 (eq_trans N2 N1)).
  rewrite Het, Hee, N4. split_and!; [done|done| | |].
  - exists t'. split_and!; [done|done|]. destruct f as [res|m c|]; [done| |done].
    split; [done|]. intros Hc. rewrite Hcls. simpl. by rewrite bool_decide_false.
  - change (match f with FinFailure _ _ => _ | _ => true end) with (settles f task).
    destruct (settles f task); simpl; by rewrite Hn3.
  - eexists. split; [exact I4|done].
Qed.

End Ends.
