(* ===== verification/LifecycleAttempts.v ===== *)
(** * The attempts of an execution

    How often an execution attempts its workflow, what it writes back of that, and
    that it ends, over every interleaving of the executor's events. *)
From stdpp Require Import pretty.
From S2P Require Import Prelude GoStrings Workflow Gates Engine StepRetry FailureClass TaskModel.
From S2P Require Import TaskRepo Delegation ExecRepo Lifecycle LifecycleOps LifecycleFacts.
Open Scope string_scope.

Section Attempts.
Context `{pg : Postgres} {SC : StateCodec} (cfg : ExecutorConfig).

(** ** What an event does to one goroutine *)

(** Everything but the context. *)
Definition same_run (r r' : Run) : Prop :=
  exists err, r' = r <| r_ctxErr := err |>.

Lemma same_run_refl r : same_run r r.
Proof. exists (r_ctxErr r). by destruct r. Qed.

Lemma ctx_done_run_run err r : same_run r (ctx_done_run err r).
Proof.
  unfold ctx_done_run. destruct (is_some (r_ctxErr r)); [apply same_run_refl|by eexists].
Qed.

Lemma deadline_run_run r : same_run r (deadline_run r).
Proof. unfold deadline_run. destruct (r_capped r); [apply ctx_done_run_run|apply same_run_refl]. Qed.

(** New goroutines start at the first statement. *)
Definition spawned (e e' : Executor) : Prop :=
  exists t x, e_runs e' = (e_runs e ++ [new_run t x])%list.

Definition run_outcome (e e' : Executor) : Prop := e_runs e' = e_runs e \/ spawned e e'.

Lemma Execute_runs now fault xid fork t e e' :
  ExecuteWithContext now fault xid fork t e = Ok e' -> run_outcome e e'.
Proof.
  unfold ExecuteWithContext. destruct (e_shuttingDown e); [done|].
  destruct (executing t e); [done|].
  intros (tk & _ & (c & _ & [= <-])%res_bind_ok)%res_bind_ok. right. by eexists _, _.
Qed.

Lemma Resume_runs now fault t e : run_outcome e (ResumeTask now fault t e).2.
Proof.
  unfold ResumeTask. destruct (executing t e); [by left|].
  destruct (call (fault 0%nat) _) as [tk|]; [|by left].
  destruct (call (fault 1%nat) _) as [x|]; [|by left]. destruct (negb _); [by left|].
  destruct (match resumed_state _ with Some _ => _ | None => _ end) as [[x' execs]|]; [|by left].
  destruct (call (fault 3%nat) _) as [execs'|]; [|by left].
  destruct (call (fault 4%nat) _) as [tasks|]; [|by left]. right. by eexists _, _.
Qed.

Lemma recoverExecution_runs now fault live x e e' :
  recoverExecution now fault live x e = Ok e' -> run_outcome e e'.
Proof.
  unfold recoverExecution. destruct (executing (x_TaskID x) e). { intros [= <-]. by left. }
  intros (tk & _ & H)%res_bind_ok. destruct (release_terminal (Status tk)).
  { injection H as <-. left. apply try_execs_process. }
  destruct (drifted x live e).
  { injection H as <-. left. transitivity (e_runs (try_execs (fault 1%nat)
      (RecordFailure now (x_ID x) (drift_message x (default "" (live (x_WorkflowID x))))
         TaskFailureClassWorkflowDrift) e)); [apply try_tasks_process|apply try_execs_process]. }
  injection H as <-. right. by eexists _, _.
Qed.

Lemma or_same_runs e r : (forall e', r = Ok e' -> run_outcome e e') -> run_outcome e (or_same e r).
Proof. intros H. destruct r; [by apply H|by left]. Qed.

Lemma run_outcome_pre e e0 e' : e_runs e0 = e_runs e -> run_outcome e0 e' -> run_outcome e e'.
Proof.
  intros H0 [H|(t & x & H)]; [left; congruence|right]. exists t, x. congruence.
Qed.

Lemma ResumePaused_runs now fault live xid e : run_outcome e (ResumePaused now fault live xid e).2.
Proof.
  unfold ResumePaused. destruct (bool_decide (xid = "")); [by left|].
  destruct (call (fault 10%nat) _) as [x|]; [|by left]. destruct (negb _); [by left|].
  destruct (negb _); [by left|]. destruct (call (fault 11%nat) _) as [execs|]; [|by left].
  destruct (recoverExecution _ _ _ _ _) as [e'|] eqn:Hr; [|by left].
  eapply run_outcome_pre; [|by eapply recoverExecution_runs]. done.
Qed.

Lemma recover_row_runs now fault live probe status x e :
  run_outcome e (recover_row now fault live probe status x e).
Proof.
  assert (Hrec : forall x e0, e_runs e0 = e_runs e ->
    run_outcome e (or_same e0 (recoverExecution now fault live x e0))).
  { intros x' e0 H0. apply (run_outcome_pre e e0); [done|]. apply or_same_runs. intros e'.
    apply recoverExecution_runs. }
  unfold recover_row. cbv zeta. destruct status; try by apply Hrec.
  - destruct probe; try by apply Hrec. destruct (fault 10%nat); [by apply Hrec|].
    left. apply try_execs_process.
  - destruct (negb _); [by left|]. destruct (fault 11%nat); [by left|]. apply Hrec.
    apply try_execs_process.
Qed.

(** One event: no goroutine disappears; a new one is at its start; another one makes
    its step if it is its turn, and otherwise has its context changed at most. *)
Definition event_run (e : Executor) (ev : Event) (i : nat) (r' : Run) : Prop :=
  (exists t x, e_runs e !! i = None /\ r' = new_run t x) \/
  (exists r, e_runs e !! i = Some r /\
     (((forall an, ev <> EvRun an i) /\ same_run r r') \/
      exists an, ev = EvRun an i /\ r' = (run_step cfg an r e).1.1)).

Definition event_runs (e : Executor) (ev : Event) (e' : Executor) : Prop :=
  (length (e_runs e) <= length (e_runs e'))%nat /\
  forall i r', e_runs e' !! i = Some r' -> event_run e ev i r'.

Definition no_turn (ev : Event) : Prop := forall an i, ev <> EvRun an i.

Lemma outcome_event e ev e' : no_turn ev -> run_outcome e e' -> event_runs e ev e'.
Proof.
  intros Hev Ho. split.
  { destruct Ho as [H|(t & x & H)]; rewrite H; [done|]. rewrite length_app. simpl. lia. }
  intros i r' Hr'. destruct Ho as [H|(t & x & H)]; rewrite H in Hr'.
  - right. exists r'. split; [done|]. left. split; [by intros an|apply same_run_refl].
  - apply lookup_app_Some in Hr' as [Hr'|[Hle Hr']].
    + right. exists r'. split; [done|]. left. split; [by intros an|apply same_run_refl].
    + left. apply list_lookup_singleton_Some in Hr' as [_ <-]. exists t, x.
      split; [by apply lookup_ge_None|done].
Qed.

(** Goroutines whose contexts change. *)
Lemma mapped_event e ev e' (f : nat -> Run -> Run) :
  no_turn ev -> (forall i, e_runs e' !! i = f i <$> e_runs e !! i) ->
  (forall i r, same_run r (f i r)) -> event_runs e ev e'.
Proof.
  intros Hev H Hf. split.
  - apply Nat.nlt_ge. intros Hlt.
    assert (Hs : is_Some (e_runs e !! length (e_runs e'))) by by apply lookup_lt_is_Some.
    destruct Hs as [r Hr]. specialize (H (length (e_runs e'))). rewrite Hr in H.
    by rewrite lookup_ge_None_2 in H.
  - intros i r' Hr'. rewrite H in Hr'. apply fmap_Some in Hr' as (r & Hr & ->).
    right. exists r. split; [done|]. left. split; [by intros an|apply Hf].
Qed.

Lemma alter_event e ev e' (f : Run -> Run) i :
  no_turn ev -> (forall r, same_run r (f r)) -> e_runs e' = alter f i (e_runs e) ->
  event_runs e ev e'.
Proof.
  intros Hev Hf He. apply (mapped_event _ _ _ (fun j => if decide (i = j) then f else id)); [done|..].
  - intros j. rewrite He, list_lookup_alter. destruct (decide (i = j)) as [->|]; [done|].
    by destruct (e_runs e !! j).
  - intros j r. destruct (decide (i = j)); [done|apply same_run_refl].
Qed.

Lemma step_run_event an i e : event_runs e (EvRun an i) (step_run cfg an i e).
Proof.
  assert (Hother : forall j r, j <> i -> e_runs e !! j = Some r -> event_run e (EvRun an i) j r).
  { intros j r Hne Hj. right. exists r. split; [done|]. left.
    split; [by intros an' [= _ ?]|apply same_run_refl]. }
  unfold step_run. destruct (e_runs e !! i) as [r|] eqn:Hi.
  2:{ split; [done|]. intros j r' Hj. apply Hother; [|done]. intros ->. congruence. }
  pose proof (run_step_ok cfg an r e) as (_ & _ & _ & Hruns & _).
  destruct (run_step cfg an r e) as [[r1 op] e1] eqn:Hs. cbn [fst snd] in *. split.
  { simpl. rewrite length_insert. by rewrite Hruns. }
  intros j r' Hj. simpl in Hj. rewrite Hruns in Hj.
  destruct (replaced_run _ _ _ _ _ _ Hi Hj) as [[-> ->]|[Hne Hj']]; [|by apply Hother].
  right. exists r. split; [done|]. right. exists an. by rewrite Hs.
Qed.

Lemma call_step_runs now fault pc e :
  run_outcome e (call_step now fault pc e).2 \/
  exists i, e_runs (call_step now fault pc e).2 = e_runs (cancel_run ctx_canceled i e).
Proof.
  assert (Hp : forall e', same_process e e' -> run_outcome e e') by (intros e' (_ & H & _); by left).
  destruct pc; cbn [call_step snd]; auto using try_tasks_process, try_execs_process.
  - left. destruct (if fault then Err ErrNotFound else GetByTaskID taskID (e_execs e));
      [apply Hp, try_execs_process|by left].
  - right. exists run. apply stop_container_process.
  - left. destruct (if fault then Err ErrNotFound else GetByTaskID taskID (e_execs e)); by left.
  - left. destruct fault; [by left|]. apply Hp, try_execs_process.
  - right. by exists run.
  - left. by left.
Qed.

Lemma exec_event_runs e ev : event_runs e ev (exec_event cfg e ev).
Proof.
  destruct ev; cbn [exec_event].
  - apply outcome_event, or_same_runs; [done|]. intros e'. apply Execute_runs.
  - by apply outcome_event, Resume_runs.
  - by apply outcome_event, ResumePaused_runs.
  - apply outcome_event, recover_row_runs. done.
  - apply outcome_event, or_same_runs; [done|]. unfold Cancel. intros e'.
    destruct (e_active e !! taskID); [|done]. intros [= <-]. by left.
  - apply outcome_event, or_same_runs; [done|]. unfold pauseWithReason. intros e'.
    destruct (e_active e !! taskID); [|done]. intros [= <-]. left.
    etrans; [apply stop_container_process|done].
  - apply outcome_event; [done|by left].
  - apply (mapped_event _ _ _ (fun _ => ctx_done_run ctx_canceled)); [done|..].
    + intros i. apply list_lookup_fmap.
    + intros _ r. apply ctx_done_run_run.
  - apply step_run_event.
  - unfold step_call. destruct (e_calls e !! i) as [pc|]; [|apply outcome_event; [done|by left]].
    pose proof (call_step_runs now fault pc e) as H.
    destruct (call_step now fault pc e) as [pc' e']. cbn [snd] in H.
    destruct H as [H|[j H]].
    + apply outcome_event; [done|]. destruct H as [H|(t & x & H)]; [by left|right; by exists t, x].
    + by apply (alter_event _ _ _ (ctx_done_run ctx_canceled) j); [|apply ctx_done_run_run|].
  - by apply (alter_event _ _ _ deadline_run i); [|apply deadline_run_run|].
  - apply outcome_event; [done|by left].
Qed.

(** An invariant of goroutines that ignores the context. *)
Lemma run_invariant (P : Run -> Prop) :
  (forall t x, P (new_run t x)) -> (forall r r', same_run r r' -> P r -> P r') ->
  (forall an r e, P r -> P (run_step cfg an r e).1.1) ->
  forall evs tasks execs i r,
    e_runs (run_events cfg evs (boot tasks execs)) !! i = Some r -> P r.
Proof.
  intros Hnew Hsame Hstep evs tasks execs.
  assert (Hgen : forall evs e, (forall i r, e_runs e !! i = Some r -> P r) ->
    forall i r, e_runs (run_events cfg evs e) !! i = Some r -> P r).
  { clear evs. induction evs as [|ev evs IH]; intros e He; [done|].
    apply (IH (exec_event cfg e ev)). intros i r Hr.
    destruct (proj2 (exec_event_runs e ev) i r Hr)
      as [(t & x & _ & ->)|(r0 & Hr0 & [[_ Hs]|(an & _ & ->)])].
    - apply Hnew.
    - by eapply Hsame, He.
    - by eapply Hstep, He. }
  apply Hgen. intros i r. simpl. by rewrite lookup_nil.
Qed.

(** ** The counters *)

(** Between two attempts, in an attempt, and what the handler of an ending [f]
    writes back. *)
Definition between (r : Run) : Prop :=
  (1 <= Attempt (r_task r) /\ Attempt (r_task r) - 1 <= r_attempts r /\
   r_attempts r <= r_max r `max` (Attempt (r_task r) - 1))%Z.

Definition trying (r : Run) : Prop :=
  (1 <= Attempt (r_task r) /\ Attempt (r_task r) <= r_attempts r <= r_max r)%Z.

Definition synced (f : Fin) (r : Run) : Prop :=
  (r_attempts r <= Attempt (r_task r))%Z \/
  match f with
  | FinFailure msg _ => exists err dir, msg = merge_message err dir
  | _ => True
  end.

Definition counted (r : Run) : Prop :=
  match r_pc r with
  | RunMarkExec | RunMarkTask => True
  | RunPlan | RunPersist => (1 <= Attempt (r_task r) /\ r_attempts r = Attempt (r_task r) - 1)%Z
  | RunLoop | RunExhausted => between r
  | RunAttempt | RunCheckCancelled _ | RunHandoff _ _ | RunDelay | RunMerge _ _ => trying r
  | FinGuard f | FinExec f | FinTask f | FinSettle f | FinCascade f | FinUnblock f _
  | FinNotify f => synced f r
  | RunFollowUp | RunCleanup | RelGet | RelRelease _ | RunDone => True
  end.

Lemma same_run_counted r r' : same_run r r' -> counted r -> counted r'.
Proof. by intros [err ->]. Qed.

Lemma trying_between r : trying r -> between r.
Proof. unfold trying, between. lia. Qed.

Lemma after_error_counted an err r : trying r -> counted (after_error an err r).
Proof.
  intros Ht. unfold after_error.
  destruct (negb (shouldRetry err) || _); [by apply trying_between|].
  by destruct (r_useWorktrees r).
Qed.

Lemma attempt_write_run now fault w r e :
  let r' := (attempt_write now fault w r e).1 in
  r_pc r' = r_pc r /\ r_task r' = r_task r /\ r_attempts r' = r_attempts r /\ r_max r' = r_max r.
Proof. by destruct w. Qed.

Lemma attempt_end_counted an shutting out r :
  trying r -> counted (attempt_end an shutting out r).1.
Proof.
  intros Ht. destruct out; cbn [attempt_end fst]; [done..|].
  destruct shutting; [done|]. destruct (e_canceled err); [done|]. by apply after_error_counted.
Qed.

Lemma start_counters_counted r : counted (goto RunPlan (start_counters cfg r)).
Proof.
  unfold counted, start_counters. destruct (Z.leb_spec (Attempt (r_task r)) 0);
    destruct r as [[] ? ? ? ? ? ? ? ? ? ?]; simpl in *; lia.
Qed.

Lemma exhaust_counted an r : between r -> counted (exhaust an r).
Proof.
  intros _. unfold counted, exhaust. destruct (Z.ltb_spec (Attempt (r_task r)) (r_attempts r));
    destruct r as [[] ? ? ? ? ? ? ? ? ? ?]; left; simpl in *; lia.
Qed.

Lemma synced_finished now f r :
  synced f r -> synced f (goto (FinSettle f) (r <| r_task := finished_task now f (r_task r) |>)).
Proof. by destruct f. Qed.

Lemma after_handler_counted r : counted (goto (after_handler r) r).
Proof. unfold after_handler. by destruct (r_followUp r). Qed.

Lemma counted_step an r e : counted r -> counted (run_step cfg an r e).1.1.
Proof.
  unfold counted at 1. intros Hc. unfold run_step. destruct (r_pc r) eqn:Hpc; cbn [fst].
  - done.
  - apply start_counters_counted.
  - destruct (an_plan an); cbn [fst]; [done|].
    assert (r_attempts r <= Attempt (r_task r))%Z by lia. by left.
  - assert (between r) by (unfold between; lia). done.
  - destruct (Z.leb_spec (r_max r) (r_attempts r)); cbn [fst]; [done|].
    assert (Ht : trying (r <| r_attempts := r_attempts r + 1 |>)%Z).
    { unfold between in Hc. unfold trying.
      change (r_task (r <| r_attempts := ?n |>)) with (r_task r).
      change (r_attempts (r <| r_attempts := ?n |>)) with n.
      change (r_max (r <| r_attempts := ?n |>)) with (r_max r). lia. }
    destruct (_ <=? 1)%Z; exact Ht.
  - destruct (an_attempt an) as [w|out].
    + pose proof (attempt_write_run (an_now an) (an_fault an || blocked r) w r e) as (H1 & H2 & H3 & H4).
      destruct (attempt_write _ _ w r e) as [r' e']. cbn [fst] in *.
      unfold counted, trying in *. by rewrite H1, Hpc, H2, H3, H4.
    + pose proof (attempt_end_counted an (e_shuttingDown e) out r Hc) as H.
      by destruct (attempt_end an (e_shuttingDown e) out r).
  - destruct (match _ with Ok _ => _ | Err _ => _ end); [by right|by apply after_error_counted].
  - done.
  - destruct (r_ctxErr r); [destruct (ec_RetryDelay cfg)|]; by apply trying_between.
  - by apply exhaust_counted.
  - destruct (merge_error an r) as [msg|]; cbn [fst]; right; [by eexists _, _|done].
  - destruct (match _ with Ok _ => _ | Err _ => _ end); [apply after_handler_counted|done].
  - done.
  - by apply synced_finished.
  - by destruct f.
  - by destruct f.
  - destruct (unblock_step _ _ _ _) as [u' tbl]. cbn [fst].
    destruct (bool_decide (u' = UbDone)); [|done]. by destruct f.
  - destruct f; try apply after_handler_counted. done.
  - done.
  - destruct (e_active e !! ID (r_task r)) as [h|]; [|done]. by destruct (h_recovered h).
  - by destruct (if an_fault an then Err ErrNotFound else TaskRepo.Get (ID (r_task r)) (e_tasks e)).
  - done.
  - unfold counted. by rewrite Hpc.
Qed.

Lemma runs_counted evs tasks execs i r :
  e_runs (run_events cfg evs (boot tasks execs)) !! i = Some r -> counted r.
Proof. apply run_invariant; [done|apply same_run_counted|apply counted_step]. Qed.


(** ** An execution ends

    A measure of the statements that remain when every attempt comes to an end. *)
Definition unblock_rank (u : Unblock) : nat :=
  match u with UbGet _ => 3 | UbChildren _ => 2 | UbWake _ _ => 1 | UbDone => 0 end.

Definition attempts_left (r : Run) : nat := Z.to_nat (r_max r - r_attempts r).

Definition pc_rank (n : nat) (pc : RunPC) : nat :=
  match pc with
  | RunMarkExec => 4 * n + 22
  | RunMarkTask => 4 * n + 21
  | RunPlan => 4 * n + 20
  | RunPersist => 4 * n + 19
  | RunAttempt => 4 * n + 21
  | RunCheckCancelled _ => 4 * n + 20
  | RunDelay => 4 * n + 19
  | RunLoop => 4 * n + 18
  | RunHandoff _ _ | RunExhausted | RunMerge _ _ => 17
  | FinGuard _ => 16
  | FinExec _ => 15
  | FinTask _ => 14
  | FinSettle _ => 13
  | FinCascade _ => 12
  | FinUnblock f u => if is_cancelled f then 5 + unblock_rank u else 7 + unblock_rank u
  | FinNotify f => if is_cancelled f then 10 else 6
  | RunFollowUp => 5
  | RunCleanup => 4
  | RelGet => 2
  | RelRelease _ => 1
  | RunDone => 0
  end.

(** Before the counters are set they are those they will be set to. *)
Definition budget (r : Run) : nat :=
  match r_pc r with
  | RunMarkExec | RunMarkTask => attempts_left (start_counters cfg r)
  | _ => attempts_left r
  end.

Definition run_rank (r : Run) : nat := pc_rank (budget r) (r_pc r).

(** The answers an execution gets when its attempts end. *)
Definition attempt_ends (an : Answers) : Prop := exists out, an_attempt an = inr out.

Lemma same_run_rank r r' : same_run r r' -> run_rank r' = run_rank r.
Proof. by intros [err ->]. Qed.

Lemma checkParentUnblock_rank t : (unblock_rank (checkParentUnblock t) <= 3)%nat.
Proof.
  unfold checkParentUnblock. destruct (ParentTaskID t) as [p|]; [|simpl; lia].
  destruct (bool_decide (p = "")); simpl; lia.
Qed.

Lemma unblock_step_rank now fault u tbl :
  let u' := (unblock_step now fault u tbl).1 in
  u' = UbDone \/ (unblock_rank u' < unblock_rank u)%nat.
Proof.
  destruct u as [pid|parent|parent children|]; cbn [unblock_step fst]; [| |by left..].
  - destruct (if fault then Err ErrNotFound else Get pid tbl) as [parent|]; [|by left].
    destruct (bool_decide _); simpl; [right; lia|by left].
  - destruct (fault || _); [by left|]. destruct (forallb _ _); simpl; [right; lia|by left].
Qed.

(** The measure falls with the program counter. *)
Lemma rank_pc r r' :
  budget r' = budget r -> (pc_rank (budget r) (r_pc r') < pc_rank (budget r) (r_pc r))%nat ->
  (run_rank r' < run_rank r)%nat.
Proof. unfold run_rank. by intros ->. Qed.

Lemma after_handler_rank n r : (pc_rank n (after_handler r) <= 5)%nat.
Proof. unfold after_handler. destruct (r_followUp r); simpl; lia. Qed.

Lemma after_error_rank n an err r :
  let r' := after_error an err r in
  attempts_left r' = attempts_left r /\ budget r' = attempts_left r' /\
  (pc_rank n (r_pc r') <= 4 * n + 19)%nat.
Proof.
  unfold after_error. destruct (negb (shouldRetry err) || _);
    [|destruct (r_useWorktrees r)]; split_and!; try done; simpl; lia.
Qed.

Lemma attempt_end_rank an shutting out r :
  r_pc r = RunAttempt ->
  let r' := (attempt_end an shutting out r).1 in (run_rank r' < run_rank r)%nat.
Proof.
  intros Hpc.
  assert (Hb : budget r = attempts_left r) by by unfold budget; rewrite Hpc.
  assert (Hd : forall r', attempts_left r' = attempts_left r -> budget r' = attempts_left r' ->
    (pc_rank (budget r) (r_pc r') < 4 * budget r + 21)%nat -> (run_rank r' < run_rank r)%nat).
  { intros r' H1 H2 H3. apply rank_pc; [congruence|by rewrite Hpc]. }
  destruct out as [cid res cs| |res cs|err]; cbn [attempt_end fst].
  1-3: apply Hd; [done|done|simpl; lia].
  destruct shutting; [apply Hd; [done|done|simpl; lia]|].
  destruct (e_canceled err); [apply Hd; [done|done|simpl; lia]|].
  destruct (after_error_rank (budget r) an err (r <| r_lastErr := err |>)) as (H1 & H2 & H3).
  apply Hd; [exact H1|exact H2|lia].
Qed.

Lemma run_rank_step an r e :
  attempt_ends an -> r_pc r <> RunDone ->
  (run_rank (run_step cfg an r e).1.1 < run_rank r)%nat.
Proof.
  intros [out Hout] Hnd.
  assert (Hd : forall r', budget r' = budget r ->
    (pc_rank (budget r) (r_pc r') < pc_rank (budget r) (r_pc r))%nat -> (run_rank r' < run_rank r)%nat)
    by apply rank_pc.
  unfold run_step. destruct (r_pc r) eqn:Hpc; cbn [fst].
  all: try (apply Hd; [unfold budget; rewrite ?Hpc; done|simpl; lia]).
  all: assert (Hb : budget r = attempts_left r) by by unfold budget; rewrite Hpc.
  all: rewrite Hb in Hd.
  all: assert (Hgo : forall pc, (pc_rank (attempts_left r) pc <= 16)%nat ->
    (pc_rank (attempts_left r) pc < pc_rank (attempts_left r) (r_pc r))%nat ->
    (run_rank (goto pc r) < run_rank r)%nat)
    by (intros pc Hle Hlt; rewrite Hpc in Hlt; apply Hd; [|done];
        destruct pc; simpl in Hle; try lia; reflexivity).
  all: rewrite Hpc in Hgo.
  - destruct (an_plan an); cbn [fst]; apply Hd; try done; simpl; lia.
  - destruct (Z.leb_spec (r_max r) (r_attempts r)) as [|Hlt]; cbn [fst].
    { apply Hd; [done|simpl; lia]. }
    unfold run_rank, budget. rewrite Hpc.
    assert (Hn : attempts_left r = S (attempts_left (r <| r_attempts := r_attempts r + 1 |>)%Z)).
    { unfold attempts_left.
      change (r_attempts (r <| r_attempts := ?n |>)) with n.
      change (r_max (r <| r_attempts := ?n |>)) with (r_max r). lia. }
    rewrite Hn. set (m := attempts_left (r <| r_attempts := r_attempts r + 1 |>)%Z).
    destruct (_ <=? 1)%Z; change (4 * m + 21 < 4 * S m + 18)%nat; lia.
  - rewrite Hout. pose proof (attempt_end_rank an (e_shuttingDown e) out r Hpc) as H.
    by destruct (attempt_end an (e_shuttingDown e) out r).
  - destruct (match _ with Ok _ => _ | Err _ => _ end).
    + apply Hd; [done|simpl; lia].
    + destruct (after_error_rank (attempts_left r) an err r) as (H1 & H2 & H3).
      apply Hd; [congruence|simpl; lia].
  - destruct (r_ctxErr r); [destruct (ec_RetryDelay cfg)|]; apply Hd; try done; simpl; lia.
  - destruct (merge_error an r); cbn [fst]; apply Hd; try done; simpl; lia.
  - pose proof (after_handler_rank (attempts_left r) r).
    apply Hgo; destruct (match _ with Ok _ => _ | Err _ => _ end); simpl; lia.
  - pose proof (checkParentUnblock_rank (r_task r)).
    apply Hgo; destruct f; simpl; lia.
  - pose proof (checkParentUnblock_rank (r_task r)). apply Hgo; destruct f; simpl; lia.
  - pose proof (unblock_step_rank (an_now an) (an_fault an || blocked r) u (e_tasks e)) as H.
    destruct (unblock_step _ _ _ _) as [u' tbl]. cbn [fst] in *.
    assert (Hu : (unblock_rank u <= 3)%nat) by (destruct u; simpl; lia).
    destruct (bool_decide_reflect (u' = UbDone)) as [->|Hne].
    + apply Hgo; destruct f; simpl; lia.
    + destruct H as [H|H]; [done|]. apply Hgo; destruct f; simpl; lia.
  - pose proof (checkParentUnblock_rank (r_task r)).
    pose proof (after_handler_rank (attempts_left r) r). unfold after_notify.
    apply Hgo; destruct f; cbn [is_cancelled pc_rank]; lia.
  - apply Hgo; destruct (e_active e !! ID (r_task r)) as [h|]; try destruct (h_recovered h); simpl; lia.
  - apply Hgo; destruct (if an_fault an then _ else _); simpl; lia.
  - done.
Qed.

(** The turns of goroutine [i]. *)
Definition own_turn (i : nat) (ev : Event) : bool :=
  match ev with EvRun _ j => j =?? i | _ => false end.

Lemma event_rank e ev i r :
  e_runs e !! i = Some r ->
  (forall an, ev = EvRun an i -> attempt_ends an) ->
  exists r', e_runs (exec_event cfg e ev) !! i = Some r' /\
    (run_rank r' <= run_rank r - if own_turn i ev then 1 else 0)%nat.
Proof.
  intros Hi Hans. destruct (exec_event_runs e ev) as [Hlen Hev].
  destruct (lookup_lt_is_Some_2 (e_runs (exec_event cfg e ev)) i) as [r' Hr'].
  { apply lookup_lt_Some in Hi. lia. }
  exists r'. split; [done|].
  destruct (Hev i r' Hr') as [(t & x & Hn & _)|(r0 & Hr0 & Hcase)]; [congruence|].
  assert (r0 = r) as -> by congruence. destruct Hcase as [[Hno Hs]|(an & -> & ->)].
  - rewrite (same_run_rank r r' Hs). destruct ev; simpl; try lia.
    case_bool_decide as E; [|simpl; lia]. by destruct (Hno an); rewrite E.
  - cbn [own_turn]. rewrite bool_decide_true by done. specialize (Hans an eq_refl).
    assert (r_pc r = RunDone \/ r_pc r <> RunDone) as [Hd|Hnd]
      by (destruct (r_pc r); (by left) || by right).
    + unfold run_step. rewrite Hd. unfold run_rank. cbn [fst]. rewrite Hd. simpl. lia.
    + pose proof (run_rank_step an r e Hans Hnd). lia.
Qed.


End Attempts.
