(* ===== verification/LifecyclePause.v ===== *)
(** * Pauses across a restart

    What [pauseWithReason] writes, and what the next start makes of it. *)
From stdpp Require Import pretty.
From S2P Require Import Prelude GoStrings Workflow Gates Engine StepRetry FailureClass TaskModel.
From S2P Require Import TaskRepo TaskRepoFacts Delegation FamilyFacts ExecRepo Lifecycle.
From S2P Require Import LifecycleOps LifecycleFacts LifecycleEnds.
Open Scope string_scope.

(** Rows with the same key are the same row. *)
Lemma NoDup_map_eq {A B} (f : A -> B) (l : list A) x y :
  NoDup (map f l) -> x ∈ l -> y ∈ l -> f x = f y -> x = y.
Proof.
  induction l as [|a l IH]; [by rewrite elem_of_nil|]. simpl. rewrite NoDup_cons, !elem_of_cons.
  intros [Hn Hnd] [->|Hx] [->|Hy] E; [done|..].
  - destruct Hn. rewrite E. by apply list_elem_of_fmap_2.
  - destruct Hn. rewrite <- E. by apply list_elem_of_fmap_2.
  - by apply IH.
Qed.

Section Pause.
Context `{pg : Postgres} {SC : StateCodec} (cfg : ExecutorConfig).

(** The text of a state survives the JSONB column: it is valid, not empty, and
    decodes to the state (the encoding replaces bytes that are not UTF-8, and the
    column refuses some escapes). *)
Definition survives (st : executionState) : Prop :=
  marshal_state st <> "" /\
  exists v, jsonb_in (marshal_state st) = Some v /\ v <> "" /\ unmarshal_state v = st.

Lemma survives_stored st :
  survives st ->
  jsonb_ok (Some (marshal_state st)) = true /\
  unmarshal_state <$> jsonbValue (jsonb_stored (Some (marshal_state st))) = Some st.
Proof.
  intros (Hne & v & Hv & Hvne & Hu). unfold jsonb_ok, jsonb_stored, jsonbValue, json_ok, jsonb_col.
  simpl. unfold nullif_empty. rewrite (bool_decide_false (marshal_state st = "")) by done. simpl.
  rewrite Hv. simpl. rewrite bool_decide_false by done. simpl. by rewrite Hu.
Qed.

(** The execution rows after the two writes of a pause. *)
Definition paused_rows (now1 now2 : time) (st : executionState) (xid : string) (tbl : ExecTable) :
    ExecTable :=
  update_execs (by_id xid) (exec_status_set now2 ExecutionStatusPaused)
    (update_execs (by_id xid)
      (fun x => x <| x_StateSnapshot := jsonb_stored (Some (marshal_state st)) |>
                  <| x_CurrentStepID := nullif_empty (CurrentStepID st) |>
                  <| x_CompletedSteps := CompletedSteps st |> <| x_UpdatedAt := now1 |>) tbl).

(** ** The pause *)

(** Another call makes its statement. *)
Lemma step_call_eq now fault k e pc pc' e' :
  e_calls e !! k = Some pc -> call_step now fault pc e = (pc', e') ->
  step_call now fault k e = e' <| e_calls := <[k := pc']> (e_calls e') |>.
Proof. intros Hk Hs. unfold step_call. by rewrite Hk, Hs. Qed.

Lemma call_replaced (k : nat) (pc pc' : CallPC) (l : list CallPC) :
  l !! k = Some pc -> <[k := pc']> l !! k = Some pc'.
Proof. intros Hk. by rewrite list_lookup_insert_eq by by eapply lookup_lt_Some. Qed.

Record called (k : nat) (pc' : CallPC) (e' e1 : Executor) : Prop := {
  cd_call : e_calls e1 !! k = Some pc';
  cd_tasks : e_tasks e1 = e_tasks e';
  cd_execs : e_execs e1 = e_execs e';
  cd_runs : e_runs e1 = e_runs e'
}.

Lemma step_called now fault k e pc pc' e' :
  e_calls e !! k = Some pc -> call_step now fault pc e = (pc', e') -> e_calls e' = e_calls e ->
  called k pc' e' (step_call now fault k e).
Proof.
  intros Hk Hs Hc. rewrite (step_call_eq now fault k e pc pc' e' Hk Hs). split; [|done..].
  simpl. rewrite Hc. by eapply call_replaced.
Qed.

(** The statements of a pause that nothing disturbs. *)
Definition pause_events (t reason : string) (k : nat) (now : time) : list Event :=
  EvPause t reason :: replicate 5 (EvCall now false k).

Lemma UpdateExecutionStatus_Ok now xid st tbl :
  enum_execution_status st = true ->
  UpdateExecutionStatus now xid st tbl = Ok (update_execs (by_id xid) (exec_status_set now st) tbl).
Proof. intros He. unfold UpdateExecutionStatus, with_binds. cbn [bind_errors sql_enum]. by rewrite He. Qed.

Lemma save_state_Ok now st xid tbl :
  survives st ->
  exists f, save_state now st xid tbl = Ok (update_execs (by_id xid) f tbl) /\
    forall now2, update_execs (by_id xid) (exec_status_set now2 ExecutionStatusPaused)
      (update_execs (by_id xid) f tbl) = paused_rows now now2 st xid tbl.
Proof.
  intros Hst. destruct (survives_stored st Hst) as [Hok _].
  unfold save_state, SaveStateSnapshot, with_binds. cbn [bind_errors sql_enum]. rewrite Hok.
  eexists. by split.
Qed.

Lemma pause_writes t reason now h x e :
  e_active e !! t = Some h -> GetByTaskID t (e_execs e) = Ok x -> table_ok (e_tasks e) ->
  survives ((loadState x) <| PausedReason := reason |>) ->
  let e' := run_events cfg (pause_events t reason (length (e_calls e)) now) e in
  e_execs e' = paused_rows now now ((loadState x) <| PausedReason := reason |>) (x_ID x) (e_execs e) /\
  table_ok (e_tasks e') /\
  (forall id, row (e_tasks e') id =
     if id =?? t then (fun t => t <| Status := TaskStatusPaused |> <| UpdatedAt := now |>) <$> row (e_tasks e) id
     else row (e_tasks e) id) /\
  e_runs e' = alter (ctx_done_run ctx_canceled) (h_run h) (e_runs e).
Proof.
  intros Hh Hx Hok Hsv. set (k := length (e_calls e)). set (st := (loadState x) <| PausedReason := reason |>).
  destruct (save_state_Ok now st (x_ID x) (e_execs e) Hsv) as (f & Hsave & Hrows).
  destruct (UpdateStatus_one now t TaskStatusPaused (e_tasks e) Hok eq_refl) as (tbl & Hupd & [Hok' Hrow]).
  cbv zeta. unfold pause_events, run_events. cbn [foldl replicate].
  set (e0 := exec_event cfg e (EvPause t reason)).
  assert (H0 : called k (PauseGet t reason (h_run h)) e e0).
  { subst e0. cbn [exec_event]. unfold pauseWithReason. rewrite Hh. cbn [or_same].
    unfold stop_container. destruct (bool_decide _); (split; [|done..]); simpl; by rewrite list_lookup_middle. }
  destruct H0 as [C0 T0 X0 R0].
  assert (H1 : called k (PauseSave t reason (h_run h) x) e0 (step_call now false k e0)).
  { eapply step_called; [exact C0| |done]. cbn [call_step]. by rewrite X0, Hx. }
  cbn [exec_event]. set (e1 := step_call now false k e0) in *. destruct H1 as [C1 T1 X1 R1].
  assert (H2 : called k (PauseExec t (h_run h) (x_ID x)) (e1 <| e_execs := update_execs (by_id (x_ID x)) f (e_execs e) |>)
    (step_call now false k e1)).
  { eapply step_called; [exact C1| |done]. cbn [call_step]. unfold try_execs.
    rewrite X1, X0. fold st. by rewrite Hsave. }
  set (e2 := step_call now false k e1) in *. destruct H2 as [C2 T2 X2 R2].
  assert (H3 : called k (PauseTask t (h_run h)) (e2 <| e_execs := paused_rows now now st (x_ID x) (e_execs e) |>)
    (step_call now false k e2)).
  { eapply step_called; [exact C2| |done]. cbn [call_step]. unfold try_execs.
    rewrite UpdateExecutionStatus_Ok, X2 by done. by rewrite <- Hrows. }
  set (e3 := step_call now false k e2) in *. destruct H3 as [C3 T3 X3 R3].
  assert (Ht3 : e_tasks e3 = e_tasks e) by exact (eq_trans T3 (eq_trans T2 (eq_trans T1 T0))).
  assert (H4 : called k (PauseCtx (h_run h)) (e3 <| e_tasks := tbl |>) (step_call now false k e3)).
  { eapply step_called; [exact C3| |done]. cbn [call_step]. unfold try_tasks. by rewrite Ht3, Hupd. }
  set (e4 := step_call now false k e3) in *. destruct H4 as [C4 T4 X4 R4].
  assert (H5 : called k CallDone (cancel_run ctx_canceled (h_run h) e4) (step_call now false k e4)).
  { by eapply step_called; [exact C4| |done]. }
  set (e5 := step_call now false k e4) in *. destruct H5 as [C5 T5 X5 R5].
  split_and!.
  - exact (eq_trans X5 (eq_trans X4 X3)).
  - by rewrite T5, (T4 : e_tasks (cancel_run ctx_canceled (h_run h) e4) = tbl).
  - intros id. rewrite T5, (T4 : e_tasks (cancel_run ctx_canceled (h_run h) e4) = tbl). apply Hrow.
  - rewrite R5. simpl. f_equal. exact (eq_trans R4 (eq_trans R3 (eq_trans R2 (eq_trans R1 R0)))).
Qed.

(** ** The next start *)

Lemma GetByTaskID_row t tbl x :
  GetByTaskID t tbl = Ok x -> exists x0, x0 ∈ tbl /\ x = scanExecution x0 /\ x_TaskID x0 = t.
Proof.
  unfold GetByTaskID, scanFirst. destruct (latest_first _) as [|x0 l] eqn:E; [done|]. intros [= <-].
  assert (Hx : x0 ∈ latest_first (select_execs (of_task t) tbl)) by (rewrite E; left).
  unfold latest_first in Hx. rewrite elem_of_order_by in Hx. apply list_elem_of_filter in Hx as [Hp Hx].
  exists x0. split_and!; [done|done|]. by apply bool_decide_eq_true in Hp.
Qed.

(** A row of the paused execution: its state is the one that was stamped. *)
Lemma paused_row now1 now2 st tbl x0 y :
  survives st -> NoDup (map x_ID tbl) -> x0 ∈ tbl ->
  y ∈ paused_rows now1 now2 st (x_ID x0) tbl -> x_ID y = x_ID x0 ->
  x_Status y = ExecutionStatusPaused /\ x_TaskID y = x_TaskID x0 /\
  loadState (scanExecution y) = st.
Proof.
  intros Hst Hnd Hx0 Hy Hid. unfold paused_rows in Hy.
  apply elem_of_update_execs in Hy as (y1 & Hy1 & ->).
  apply elem_of_update_execs in Hy1 as (y0 & Hy0 & ->). unfold by_id in *.
  destruct (survives_stored st Hst) as [_ Hdec].
  destruct (decide (x_ID y0 = x_ID x0)) as [E|Hne].
  - assert (y0 = x0) as -> by by eapply NoDup_map_eq.
    rewrite (bool_decide_true (x_ID x0 = x_ID x0)) by done. rewrite bool_decide_true by done.
    split_and!; [done|done|]. unfold loadState. cbn [x_StateSnapshot scanExecution exec_status_set].
    change (loadExecutionState (Engine.mkExecution (nullif_empty (CurrentStepID st)) (CompletedSteps st)
      (unmarshal_state <$> jsonbValue (jsonb_stored (Some (marshal_state st))))) = st).
    rewrite Hdec. unfold loadExecutionState. cbv zeta. cbn [default from_option ex_StateSnapshot].
    destruct st as [cs cps ? ? ? ? ? ? ? ? ? ?]. unfold nullif_empty. simpl.
    destruct (decide (cs = "")) as [->|Hc], cps;
      rewrite ?(bool_decide_false (cs = "")) by done; done.
  - rewrite !(bool_decide_false (x_ID y0 = x_ID x0)) in Hid by done. done.
Qed.

(** The daemon that starts knows the workflow of the execution as it was. *)
Definition workflow_unchanged (x : ExecRow) (live : string -> option string) : Prop :=
  forall cur, live (x_WorkflowID x) = Some cur -> cur = "" \/ cur = x_WorkflowRevision x.

Lemma unchanged_not_drifted x live e : workflow_unchanged x live -> drifted x live e = false.
Proof.
  intros H. unfold drifted. destruct (live (x_WorkflowID x)) as [cur|] eqn:E; [|by rewrite andb_false_r].
  destruct (H cur E) as [->| ->]; [by rewrite (bool_decide_true ("" = "")), !andb_false_r by done|].
  rewrite (bool_decide_true (x_WorkflowRevision x = x_WorkflowRevision x)) by done. by rewrite !andb_false_r.
Qed.

(** What recovering a paused row does when nothing fails. *)
Lemma recover_paused now live probe y tk e :
  auto_resumable (PausedReason (loadState y)) = true ->
  workflow_unchanged y live -> executing (x_TaskID y) e = false ->
  TaskRepo.Get (x_TaskID y) (e_tasks e) = Ok tk -> release_terminal (Status tk) = false ->
  recover_row now (fun _ => false) live probe ExecutionStatusPaused y e =
  spawn true tk (y <| x_Status := ExecutionStatusRunning |>)
    (e <| e_execs := update_execs (by_id (x_ID y)) (exec_status_set now ExecutionStatusRunning) (e_execs e) |>).
Proof.
  intros Hr Hw Hex Hget Hterm. unfold recover_row. rewrite Hr. cbn [negb]. cbv iota.
  unfold try_execs. rewrite UpdateExecutionStatus_Ok by done.
  set (e1 := e <| e_execs := _ |>). unfold recoverExecution.
  change (x_TaskID (y <| x_Status := ExecutionStatusRunning |>)) with (x_TaskID y).
  change (executing (x_TaskID y) e1) with (executing (x_TaskID y) e). rewrite Hex.
  change (e_tasks e1) with (e_tasks e). rewrite Hget. unfold call. cbn [res_bind]. rewrite Hterm.
  by rewrite unchanged_not_drifted.
Qed.


End Pause.
