(* ===== verification/LifecycleScenarios.v ===== *)
(** * Executions on concrete databases

    The theorems about the life of an execution at concrete runs: a task that is
    executed, cancelled, paused and recovered, and one whose merge fails. *)
From stdpp Require Import pretty.
From S2P Require Import Prelude GoStrings Workflow Gates Engine StepRetry FailureClass TaskModel.
From S2P Require Import TaskRepo TaskRepoFacts Delegation FamilyFacts ExecRepo Lifecycle.
From S2P Require Import LifecycleOps LifecycleFacts LifecycleRuns LifecycleEnds LifecycleAttempts.
From S2P Require Import LifecyclePause.
Open Scope string_scope.

#[local] Existing Instance pg_example.

(** A codec for states that hold the reason of a pause and nothing else. *)
#[local] Instance reason_codec : StateCodec := {|
  marshal_state st := "{" ++ PausedReason st ++ "}";
  unmarshal_state s := zeroState <| PausedReason := String.substring 1 (String.length s - 2) s |>
|}.

Definition cfg_example : ExecutorConfig := {|
  ec_MaxRetries := 2; ec_RetryDelay := true;
  ec_payloadPrompt := fun _ => None; ec_marshalContinuation := fun p => p
|}.

Definition no_fault (n : nat) : bool := false.
Definition no_live (w : string) : option string := None.

Definition plan_example : PlanInfo := mkPlanInfo "build" "v1" true true "/work/t1".

Definition answer (now : time) (out : AttemptEnd) : Answers :=
  mkAnswers now false (Ok plan_example) (inr out) None "/work/t1" "t2".

Definition built : AttemptEnd := AttOk "c1" "{}" ["build"].
Definition flaky : AttemptEnd := AttErr (mkError "connection reset" true None false false).
Definition interrupted : AttemptEnd := AttErr ctx_canceled.

Definition turns (n : nat) (now : time) (out : AttemptEnd) : list Event :=
  replicate n (EvRun (answer now out) 0).

Definition tasks_example : Table :=
  [ task_example "t1" "p1" TaskStatusLeased 50 10 [] (Some "l1");
    task_example "t2" "p1" TaskStatusQueued 50 20 [] None ].

(** The execution [x1] of [t1] is in its first attempt. *)
Definition first_attempt : list Event :=
  EvExecute 100 no_fault "x1" None "t1" :: turns 5 110 built.

Definition the_run (e : Executor) : Run := default (new_run (zeroTask "") (zeroExec "" "")) (e_runs e !! 0%nat).

Definition after (evs : list Event) : Executor :=
  run_events cfg_example evs (boot tasks_example []).

(** A decidable form of [table_ok] for concrete tables. *)
Definition table_okb (tbl : Table) : bool :=
  bool_decide (NoDup (map ID tbl)) && bool_decide (NoDup (omap idem_key tbl)) &&
  forallb row_checks tbl && forallb (parent_exists tbl) tbl.

Lemma table_okb_ok tbl : table_okb tbl = true -> table_ok tbl.
Proof.
  unfold table_okb. rewrite !andb_true_iff, !bool_decide_eq_true, !forallb_elem.
  intros [[[? ?] ?] ?]. by split.
Qed.

Lemma one_goroutine_per_task_witness :
  let e := after (first_attempt ++ [EvExecute 200 no_fault "x2" None "t1"]) in
  e_runs e !! 0%nat = Some (the_run e) /\ length (e_runs e) = 1%nat /\
  exists h, e_active e !! "t1" = Some h /\ h_run h = 0%nat.
Proof.
  intros e. split; [by vm_compute|]. split; [by vm_compute|].
  pose proof (one_goroutine_per_task cfg_example tasks_example []
    (first_attempt ++ [EvExecute 200 no_fault "x2" None "t1"]) 0 0 (the_run e) (the_run e)) as H.
  destruct H as [_ H]; [by vm_compute..|done|]. exact H.
Defined.

Lemma no_container_while_attempting_witness :
  let e := after first_attempt in
  r_pc (the_run e) = RunAttempt /\ handle_container "t1" e = "".
Proof.
  intros e. split; [by vm_compute|].
  apply (no_container_while_attempting cfg_example tasks_example [] first_attempt 0 (the_run e)
    "operator" e); by vm_compute.
Defined.

(** An operator cancels the first attempt. *)
Definition cancelled : Executor :=
  after (first_attempt ++ [EvCancel "t1"] ++ replicate 4 (EvCall 150 false 0)).

Lemma done_context_writes_nothing_witness :
  let e' := own_steps cfg_example 0 (replicate 12 (answer 160 interrupted)) cancelled in
  Status <$> row (e_tasks e') "t1" = Some TaskStatusCancelled /\
  e_execs e' = e_execs cancelled /\ Settled "t1" ∉ e_notes e'.
Proof.
  cbv zeta. pose proof (done_context_writes_nothing cfg_example (replicate 12 (answer 160 interrupted)) 0
    (the_run cancelled) cancelled) as H.
  destruct H as (-> & -> & H & _); [by vm_compute|by vm_compute| |by vm_compute|].
  { split; [by vm_compute|]. intros h Hh. vm_compute in Hh. by injection Hh as <-. }
  split; [by vm_compute|]. split; [done|]. intros Hs. apply H in Hs.
  vm_compute in Hs. by apply elem_of_nil in Hs.
Defined.

(** The attempt succeeds; an operator's pause lands before the merge. *)
Definition merging : Executor :=
  after (first_attempt ++ turns 1 120 built ++
         [EvWorld (fun tbl => or_else tbl (UpdateStatus 130 "t1" TaskStatusPaused tbl)) id]).

Lemma pause_survives_finish_witness :
  let e' := own_steps cfg_example 0 (replicate 6 (answer 140 built)) merging in
  Status <$> row (e_tasks e') "t1" = Some TaskStatusPaused /\ e_notes e' = [].
Proof.
  cbv zeta. pose proof (pause_survives_finish cfg_example (replicate 6 (answer 140 built)) 0
    (the_run merging)) as H.
  edestruct H as (-> & _ & ->); [by vm_compute|by vm_compute| |by vm_compute|by vm_compute| |].
  - split; [by vm_compute|]. intros h Hh. vm_compute in Hh. by injection Hh as <-.
  - intros an Han. apply elem_of_replicate in Han as [-> _]. done.
  - split; by vm_compute.
Defined.

(** A daemon that finds [x1] running with a live container, and an operator who
    pauses it in its first attempt. *)
Definition execs_example : ExecTable :=
  [ (zeroExec "x1" "t1") <| x_ProjectID := "p1" |> <| x_WorkflowRevision := "v1" |>
      <| x_Status := ExecutionStatusRunning |> ].

Definition recovered_and_paused : Executor :=
  run_events cfg_example
    (EvRecoverRow 200 no_fault no_live LiveContainer ExecutionStatusRunning
       (default (zeroExec "" "") (head execs_example)) ::
     turns 5 210 interrupted ++ pause_events "t1" PauseReasonOperator 0 220 ++
     turns 4 230 interrupted) (boot tasks_example execs_example).

Lemma recovered_pause_is_undone_witness :
  let e := recovered_and_paused in
  let e' := own_steps cfg_example 0 (replicate 3 (answer 240 interrupted)) e in
  Status <$> row (e_tasks e) "t1" = Some TaskStatusPaused /\
  map x_Status (e_execs e') = [ExecutionStatusPaused] /\
  exists t', row (e_tasks e') "t1" = Some t' /\ Status t' = TaskStatusQueued /\ Attempt t' = 2%Z.
Proof.
  cbv zeta. pose proof (recovered_pause_is_undone cfg_example (answer 240 interrupted)
    (answer 240 interrupted) (answer 240 interrupted) 0 (the_run recovered_and_paused)) as H.
  edestruct H as [-> H']; [by vm_compute..| |by vm_compute|by vm_compute| |by vm_compute|by vm_compute|by vm_compute|by vm_compute|].
  { apply table_okb_ok. by vm_compute. }
  { done. }
  split; [by vm_compute|]. split; [by vm_compute|].
  destruct H' as (t' & H1 & H2 & H3). exists t'. split_and!; [exact H1|exact H2|exact H3].
Defined.

(** Three attempts fail for a reason that may be retried. *)
Definition exhausted : Executor := after (first_attempt ++ turns 8 120 flaky).

Definition failing : Fin := FinFailure "connection reset" "UNKNOWN".

Lemma handler_writes_outcome_witness :
  let e := exhausted in
  let e' := own_steps cfg_example 0 (replicate 4 (answer 130 flaky)) e in
  r_pc (the_run e) = FinGuard failing /\
  map x_Status (e_execs e') = [ExecutionStatusFailed] /\
  Status <$> row (e_tasks e') "t1" = Some TaskStatusFailed /\ e_notes e' = [Settled "t1"].
Proof.
  cbv zeta. split; [by vm_compute|].
  pose proof (handler_writes_outcome cfg_example (answer 130 flaky) (answer 130 flaky)
    (answer 130 flaky) (answer 130 flaky) 0 (the_run exhausted) failing
    (default (zeroTask "") (row (e_tasks exhausted) "t1")) exhausted) as H.
  edestruct H as (_ & _ & (t' & Hrow & Hst & _) & Hn & _);
    [by vm_compute|by vm_compute|done|by vm_compute| |by vm_compute|by vm_compute| |by vm_compute| |].
  { apply table_okb_ok. by vm_compute. }
  { split; by vm_compute. }
  { intros an Han. rewrite !elem_of_cons, elem_of_nil in Han. by destruct_or! Han; subst. }
  split; [by vm_compute|]. split; [|exact Hn].
  change (replicate 4 (answer 130 flaky)) with
    [answer 130 flaky; answer 130 flaky; answer 130 flaky; answer 130 flaky].
  etrans; [apply (f_equal (fmap Status)), Hrow|]. cbn [fmap option_fmap option_map]. by rewrite Hst.
Defined.




(** A merge that fails uses up attempts that the task does not remember: the third
    attempt of three succeeds, but its work cannot be merged; the task keeps its
    first attempt and waits to be queued again. *)
Example merge_failure_forgets_attempts :
  let evs := (first_attempt ++ turns 6 120 flaky ++ turns 1 130 built ++
              replicate 4 (EvRun (mkAnswers 140 false (Ok plan_example) (inr built)
                                    (Some "conflict in main.go") "" "") 0))%list in
  let e := after evs in
  r_attempts (the_run e) = 3%Z /\
  (fun t => (Status t, Attempt t, MaxAttempts t)) <$> row (e_tasks e) "t1"
    = Some (TaskStatusLeased, 1%Z, 3%Z).
Proof. by vm_compute. Qed.
