(* ===== verification/CallRepo.v ===== *)
(** * The ledger of cross-project calls

    The rows of [cross_project_calls] ([src/internal/persistence/models.go]) and
    every method of
    [src/internal/persistence/postgres/cross_project_call_repository.go], in the
    manner of [TaskRepo]: a table is the list of its rows, a method a function from
    the table to the Go result and the new table.  The value of [NOW()] is an
    argument.  [ClaimTimedOut] is one UPDATE whose subquery is evaluated on the
    statement's snapshot while its rows are updated as they are once their locks are
    had: the snapshot is an argument of its own. *)
From S2P Require Import Prelude TaskModel TaskRepo ExecRepo.

(** ** Data *)

Inductive CrossProjectCallStatus : Type :=
| CPCStatusPending
| CPCStatusRunning
| CPCStatusCompleted
| CPCStatusFailed
| CPCStatusTimedOut
| CPCStatusRejected
| CPCStatusOther (s : string).

#[export] Instance CrossProjectCallStatus_eq_dec : EqDecision CrossProjectCallStatus.
Proof. solve_decision. Defined.

Definition CPCStatusEmpty : CrossProjectCallStatus := CPCStatusOther "".

(** [CrossProjectCallStatus.IsTerminal]; the statements that resolve a row list the
    same four statuses. *)
Definition IsTerminal (s : CrossProjectCallStatus) : bool :=
  bool_decide (s ∈ [CPCStatusCompleted; CPCStatusFailed; CPCStatusTimedOut; CPCStatusRejected]).

(** The bytes of [Payload] and [ResultEnvelope] are [None] for a nil slice. *)
Record CrossProjectCall : Type := mkCall {
  cc_ID : string;
  CallerTaskID : string;
  CallerStepID : string;
  CallerProject : string;
  CalleeProject : string;
  CalleeWorkflow : string;
  CalleeTaskID : option string;
  cc_Payload : option string;
  ExpectedSchema : string;
  cc_Status : CrossProjectCallStatus;
  cc_ResultEnvelope : option string;
  ErrorMessage : option string;
  TimeoutAt : option time;
  cc_CreatedAt : time;
  ResolvedAt : option time;
  CancelOnTimeout : bool
}.

#[export] Instance CrossProjectCall_eq_dec : EqDecision CrossProjectCall.
Proof. solve_decision. Defined.

Abbreviation CallTable := (list CrossProjectCall).

Record CPCListFilter : Type := mkCPCListFilter {
  lf_Status : CrossProjectCallStatus;
  lf_CallerProject : string;
  lf_CalleeProject : string;
  lf_CreatedSince : time;
  lf_PageSize : Z
}.

(** ** Statements *)

(** [UPDATE cross_project_calls SET f WHERE p]: no update assigns a key. *)
Definition update_calls (p : CrossProjectCall -> bool) (f : CrossProjectCall -> CrossProjectCall)
    (tbl : CallTable) : CallTable :=
  map (fun c => if p c then f c else c) tbl.

Definition select_calls (p : CrossProjectCall -> bool) (tbl : CallTable) : list CrossProjectCall :=
  filter (fun c => p c = true) tbl.

Definition call_by_id (id : string) (c : CrossProjectCall) : bool := cc_ID c =?? id.

(** [scanCrossProjectCall]: every column is selected. *)
Definition scanCall (rows : list CrossProjectCall) : result RepoError CrossProjectCall :=
  match rows with
  | [] => Err (mapDBError SqlErrNoRows)
  | row :: _ => Ok row
  end.

Definition unresolved (c : CrossProjectCall) : bool := negb (IsTerminal (cc_Status c)).

(** The guard of every statement that resolves one row. *)
Definition open_call (id : string) (c : CrossProjectCall) : bool := call_by_id id c && unresolved c.

(** What those statements assign, besides the envelope. *)
Definition resolve_set (now : time) (status : CrossProjectCallStatus) (reason : option string)
    (c : CrossProjectCall) : CrossProjectCall :=
  c <| cc_Status := status |> <| ErrorMessage := reason |> <| ResolvedAt := Some now |>.

Section WithServer.
Context `{pg : Postgres}.

(** *** Create *)

Definition call_defaults (newID : string) (c : CrossProjectCall) : CrossProjectCall :=
  c <| cc_ID := if cc_ID c =?? ""%string then newID else cc_ID c |>
    <| cc_Status := if cc_Status c =?? CPCStatusEmpty then CPCStatusPending else cc_Status c |>.

(** The row the INSERT writes: [created_at] has a default, the result columns are
    not listed. *)
Definition inserted_call (now : time) (c : CrossProjectCall) : CrossProjectCall :=
  c <| cc_Payload := jsonb_stored (cc_Payload c) |> <| TimeoutAt := ts_in <$> TimeoutAt c |>
    <| cc_ResultEnvelope := None |> <| ErrorMessage := None |> <| ResolvedAt := None |>
    <| cc_CreatedAt := now |>.

(** The struct with its defaults and the new table; [payload] is NOT NULL and the id
    is the primary key. *)
Definition CreateCall (now : time) (newID : string) (c : option CrossProjectCall)
    (tbl : CallTable) : result RepoError (CrossProjectCall * CallTable) :=
  match c with
  | None => Err (ErrArgument "cross_project_calls: nil row")
  | Some c =>
      let c := call_defaults newID c in
      let! tbl := mapDB (with_binds [sql_enum (jsonb_ok (cc_Payload c))]
        (if is_none (jsonb_stored (cc_Payload c)) then Err (PqError "23502")
         else if bool_decide (cc_ID c ∈ map cc_ID tbl) then Err (PqError "23505")
         else Ok (tbl ++ [inserted_call now c]))) in
      Ok (c, tbl)
  end.

(** *** Queries *)

Definition GetCall (id : string) (tbl : CallTable) : result RepoError CrossProjectCall :=
  scanCall (select_calls (call_by_id id) tbl).

Definition GetByCalleeTaskID (calleeTaskID : string) (tbl : CallTable) :
    result RepoError CrossProjectCall :=
  scanCall (select_calls (fun c => CalleeTaskID c =?? Some calleeTaskID) tbl).

(** [List]: newest first, 200 rows unless the filter says otherwise, 1000 at most. *)
Definition ListCalls (flt : CPCListFilter) (tbl : CallTable) : list CrossProjectCall :=
  let limit := if lf_PageSize flt <=? 0 then 200 else lf_PageSize flt in
  let limit := if 1000 <? limit then 1000 else limit in
  take (Z.to_nat limit) (order_by (fun c => [- cc_CreatedAt c])
    (select_calls (fun c =>
       ((lf_Status flt =?? CPCStatusEmpty) || (cc_Status c =?? lf_Status flt)) &&
       ((lf_CallerProject flt =?? ""%string) || (CallerProject c =?? lf_CallerProject flt)) &&
       ((lf_CalleeProject flt =?? ""%string) || (CalleeProject c =?? lf_CalleeProject flt)) &&
       ((lf_CreatedSince flt =? zeroTime) || (ts_in (lf_CreatedSince flt) <=? cc_CreatedAt c)))
     tbl)).

(** *** Updates *)

Definition SetCalleeTaskID (id calleeTaskID : string) (tbl : CallTable) :
    result RepoError CallTable :=
  if calleeTaskID =?? ""%string
  then Err (ErrArgument "cross_project_calls: callee_task_id required")
  else
    let p c := call_by_id id c && is_none (CalleeTaskID c) in
    if Nat.eqb (count_if p tbl) 0 then Err ErrNotFound
    else Ok (update_calls p (fun c => c <| CalleeTaskID := Some calleeTaskID |>) tbl).

Definition MarkRunning (id : string) (tbl : CallTable) : CallTable :=
  update_calls (fun c => call_by_id id c && (cc_Status c =?? CPCStatusPending))
               (fun c => c <| cc_Status := CPCStatusRunning |>) tbl.

Definition MarkCompleted (now : time) (id : string) (envelope : option string) (tbl : CallTable) :
    result RepoError CallTable :=
  mapDB (with_binds [sql_enum (jsonb_ok envelope)]
    (Ok (update_calls (open_call id)
      (fun c => c <| cc_Status := CPCStatusCompleted |>
                  <| cc_ResultEnvelope := jsonb_stored envelope |> <| ResolvedAt := Some now |>)
      tbl))).

Definition MarkFailed (now : time) (id reason : string) (tbl : CallTable) : CallTable :=
  update_calls (open_call id) (resolve_set now CPCStatusFailed (nullif_empty reason)) tbl.

Definition MarkRejected (now : time) (id reason : string) (tbl : CallTable) : CallTable :=
  update_calls (open_call id) (resolve_set now CPCStatusRejected (nullif_empty reason)) tbl.

Definition AdminCancel (now : time) (id reason : string) (tbl : CallTable) : CallTable :=
  let reason := if reason =?? ""%string then "operator-cancelled via admin API"%string
                else reason in
  update_calls (open_call id) (resolve_set now CPCStatusRejected (Some reason)) tbl.

(** *** ClaimTimedOut *)

Definition timed_out_message : string := "cross_project_call timeout elapsed before resolve".

(** The subquery's WHERE clause. *)
Definition overdue (now : time) (c : CrossProjectCall) : bool :=
  bool_decide (cc_Status c ∈ [CPCStatusPending; CPCStatusRunning]) &&
  match TimeoutAt c with None => false | Some at_ => at_ <? ts_in now end.

Definition deadline_key (c : CrossProjectCall) : list Z :=
  match TimeoutAt c with None => [] | Some at_ => [at_] end.

Definition claim_limit (limit : Z) : Z := if limit <=? 0 then 100 else limit.

(** The ids the subquery finds on the snapshot. *)
Definition claim_ids (now : time) (limit : Z) (snapshot : CallTable) : list string :=
  map cc_ID (take (Z.to_nat (claim_limit limit))
    (order_by deadline_key (select_calls (overdue now) snapshot))).

Definition timed_out_set (dbnow : time) (c : CrossProjectCall) : CrossProjectCall :=
  resolve_set dbnow CPCStatusTimedOut (set_col (ErrorMessage c) (Some timed_out_message)) c.

(** The rows returned and the new table. *)
Definition claim_update (dbnow : time) (ids : list string) (tbl : CallTable) :
    list CrossProjectCall * CallTable :=
  let claimed c := bool_decide (cc_ID c ∈ ids) in
  (map (timed_out_set dbnow) (select_calls claimed tbl),
   update_calls claimed (timed_out_set dbnow) tbl).

Definition ClaimTimedOut (now dbnow : time) (limit : Z) (snapshot tbl : CallTable) :
    list CrossProjectCall * CallTable :=
  claim_update dbnow (claim_ids now limit snapshot) tbl.

End WithServer.
