(* ===== verification/CallGates.v ===== *)
(** * Who may call whom

    The tests that guard a cross-project call: the two allowlists of
    [src/internal/registry/project.go] with the glob matcher of Go's [path] package,
    and the depth and cycle guards of
    [src/internal/executor/call_project_lineage.go].  Names are ASCII, so a rune is a
    byte. *)
From Stdlib Require Import Ascii.
From S2P Require Import Prelude GoStrings TaskModel TaskRepo.
Open Scope string_scope.
Open Scope Z_scope.

(** ** [path.Match] *)

(** An item of a pattern; a class is a list of ranges, possibly negated. *)
Inductive glob_item : Type :=
| GStar
| GAny
| GLit (c : ascii)
| GClass (negated : bool) (ranges : list (ascii * ascii)).

Definition slash : ascii := "/"%char.
Definition backslash : ascii := ascii_of_nat 92.

(** [getEsc]: a possibly escaped byte of a class, which must not end the pattern. *)
Definition getEsc (s : string) : option (ascii * string) :=
  match s with
  | "" => None
  | String c rest =>
      if (c =?? "-"%char) || (c =?? "]"%char) then None
      else
        match (if c =?? backslash then rest else s) with
        | String c (String _ _ as rest) => Some (c, rest)
        | _ => None
        end
  end.

(** The ranges of a class up to its closing bracket; [n] bounds their number. *)
Fixpoint class_ranges (n : nat) (s : string) (acc : list (ascii * ascii)) :
    option (list (ascii * ascii) * string) :=
  match n with
  | O => None
  | S n =>
      match s, acc with
      | String "]" rest, _ :: _ => Some (acc, rest)
      | _, _ =>
          '(lo, s) ← getEsc s;
          match s with
          | String "-" s => '(hi, s) ← getEsc s; class_ranges n s (acc ++ [(lo, hi)])
          | _ => class_ranges n s (acc ++ [(lo, lo)])
          end
      end
  end.

(** The items of a pattern; [None] is [ErrBadPattern]. *)
Fixpoint glob_items (n : nat) (pat : string) : option (list glob_item) :=
  match n, pat with
  | _, "" => Some []
  | O, _ => None
  | S n, String c rest =>
      if c =?? "*"%char then cons GStar <$> glob_items n rest
      else if c =?? "?"%char then cons GAny <$> glob_items n rest
      else if c =?? "["%char then
        let '(negated, s) := match rest with
                             | String "^" s => (true, s)
                             | _ => (false, rest)
                             end in
        '(ranges, s) ← class_ranges (S (String.length s)) s [];
        cons (GClass negated ranges) <$> glob_items n s
      else if c =?? backslash then
        match rest with
        | "" => None
        | String c rest => cons (GLit c) <$> glob_items n rest
        end
      else cons (GLit c) <$> glob_items n rest
  end.

Definition parse_glob (pat : string) : option (list glob_item) :=
  glob_items (String.length pat) pat.

Definition in_class (c : ascii) (r : ascii * ascii) : bool :=
  Nat.leb (nat_of_ascii r.1) (nat_of_ascii c) && Nat.leb (nat_of_ascii c) (nat_of_ascii r.2).

Definition item_matches (i : glob_item) (c : ascii) : bool :=
  match i with
  | GStar => false
  | GAny => negb (c =?? slash)
  | GLit d => d =?? c
  | GClass negated ranges => negb (Bool.eqb (existsb (in_class c) ranges) negated)
  end.

(** [scanChunk]: a chunk is a run of items without a star, and whether stars come
    before it. *)
Fixpoint glob_chunks (items : list glob_item) : list (bool * list glob_item) :=
  match items with
  | [] => []
  | GStar :: items =>
      match glob_chunks items with
      | (false, chunk) :: chunks => (true, chunk) :: chunks
      | (true, chunk) :: chunks => (true, chunk) :: chunks
      | [] => [(true, [])]
      end
  | i :: items =>
      match glob_chunks items with
      | (false, chunk) :: chunks => (false, i :: chunk) :: chunks
      | chunks => (false, [i]) :: chunks
      end
  end.

(** [matchChunk]: the rest of the name after the chunk. *)
Fixpoint match_chunk (chunk : list glob_item) (name : string) : option string :=
  match chunk, name with
  | [], _ => Some name
  | i :: chunk, String c name => if item_matches i c then match_chunk chunk name else None
  | _ :: _, "" => None
  end.

(** The chunk at the first place where it may stand; the last chunk must exhaust the
    name. *)
Definition accept (last : bool) (chunk : list glob_item) (name : string) : option string :=
  t ← match_chunk chunk name; if last && negb (t =?? "") then None else Some t.

(** The loop over [name[i+1:]], which does not skip a slash. *)
Fixpoint skip_match (last : bool) (chunk : list glob_item) (name : string) : option string :=
  match name with
  | "" => None
  | String c rest =>
      if c =?? slash then None
      else match accept last chunk rest with
           | Some t => Some t
           | None => skip_match last chunk rest
           end
  end.

Fixpoint all_bytes_but (c : ascii) (s : string) : bool :=
  match s with "" => true | String d s => negb (d =?? c) && all_bytes_but c s end.

Definition no_chunks {A} (l : list A) : bool := match l with [] => true | _ => false end.

Fixpoint match_chunks (chunks : list (bool * list glob_item)) (name : string) : bool :=
  match chunks with
  | [] => name =?? ""
  | (star, chunk) :: chunks =>
      if star && no_chunks chunk then all_bytes_but slash name
      else
        match accept (no_chunks chunks) chunk name with
        | Some t => match_chunks chunks t
        | None =>
            if star then
              match skip_match (no_chunks chunks) chunk name with
              | Some t => match_chunks chunks t
              | None => false
              end
            else false
        end
  end.

(** [path.Match(pat, name)] returns true and no error. *)
Definition path_Match (pat name : string) : bool :=
  match parse_glob pat with
  | None => false
  | Some items => match_chunks (glob_chunks items) name
  end.

(** ** The allowlists *)

(** The fields of a project that its calls depend on. *)
Record CallPolicy : Type := mkCallPolicy {
  AcceptCallsFrom : list string;
  CanCallProjects : list string;
  MaxCallDepth : Z
}.

Definition has_meta (pat : string) : bool :=
  contains pat "*" || contains pat "?" || contains pat "[".

(** One entry of either list. *)
Definition entry_admits (id entry : string) : bool :=
  let pat := TrimSpace entry in
  if pat =?? "" then false
  else (pat =?? "*") || (pat =?? id) || (has_meta pat && path_Match pat id).

(** [Project.AcceptsCallsFrom]. *)
Definition AcceptsCallsFrom (p : CallPolicy) (callerID : string) : bool :=
  if callerID =?? "" then false else existsb (entry_admits callerID) (AcceptCallsFrom p).

(** [Project.CanCall]: no list is no restriction. *)
Definition CanCall (p : CallPolicy) (calleeID : string) : bool :=
  if calleeID =?? "" then false
  else match CanCallProjects p with
       | [] => true
       | l => existsb (entry_admits calleeID) l
       end.

Definition DefaultMaxCallDepth : Z := 8.

(** [Project.EffectiveMaxCallDepth], also on an unknown project. *)
Definition EffectiveMaxCallDepth (p : option CallPolicy) : Z :=
  match p with
  | None => DefaultMaxCallDepth
  | Some p => if MaxCallDepth p <=? 0 then DefaultMaxCallDepth else MaxCallDepth p
  end.

(** ** The lineage of the caller *)

Definition lineageWalkHardLimit : nat := 256.

Record lineageInfo : Type := mkLineage {
  Depth : Z;
  AncestorProjects : gset string;
  LineagePath : list string;
  Truncated : bool
}.

(** The walk before its first hop: the caller's own project is in the set. *)
Definition start_lineage (caller : Task) : lineageInfo :=
  mkLineage 0 {[ProjectID caller]} [ProjectID caller] false.

(** One ancestor more: only a change of project counts as a hop. *)
Definition add_ancestor (current parent : Task) (out : lineageInfo) : lineageInfo :=
  mkLineage (if ProjectID parent =?? ProjectID current then Depth out else Depth out + 1)
    ({[ProjectID parent]} ∪ AncestorProjects out) (LineagePath out ++ [ProjectID parent])%list
    (Truncated out).

(** What one turn of the walk does with the answer to its [Get]. *)
Inductive lineage_turn : Type :=
| LtStop (info : lineageInfo)
| LtNext (cursor : Task) (info : lineageInfo)
| LtFail (parentID : string) (e : RepoError).

(** The id the walk reads next, if any. *)
Definition lineage_parent (cursor : Task) : option string :=
  match ParentTaskID cursor with
  | None => None
  | Some p => if p =?? "" then None else Some p
  end.

Definition lineage_get (cursor : Task) (parentID : string) (r : result RepoError Task)
    (info : lineageInfo) : lineage_turn :=
  match r with
  | Ok parent => LtNext parent (add_ancestor cursor parent info)
  | Err ErrNotFound => LtStop info
  | Err e => LtFail parentID e
  end.

(** [walkCallerLineage] without interference. *)
Fixpoint walk_lineage (hops : nat) (tbl : Table) (cursor : Task) (info : lineageInfo) :
    result (string * RepoError) lineageInfo :=
  match hops with
  | O => Ok (info <| Truncated := true |>)
  | S hops =>
      match lineage_parent cursor with
      | None => Ok info
      | Some pid =>
          match lineage_get cursor pid (Get pid tbl) info with
          | LtStop info => Ok info
          | LtNext cursor info => walk_lineage hops tbl cursor info
          | LtFail pid e => Err (pid, e)
          end
      end
  end.

Definition walkCallerLineage (caller : Task) (tbl : Table) :
    result (string * RepoError) lineageInfo :=
  walk_lineage lineageWalkHardLimit tbl caller (start_lineage caller).

(** ** The depth header *)

(** The JSON of a callee's payload: the encoder, given the raw payload and the depth,
    and the number a decoder finds under [context.callDepth], as an [int]; [None] when
    the text does not decode or has no such number. *)
Class CallPayload : Type := {
  marshal_callee : string -> Z -> option string;
  unmarshal_callDepth : string -> option Z
}.

Section Header.
Context `{CallPayload}.

(** [buildCalleePayload]: an encoder that fails leaves the raw payload. *)
Definition buildCalleePayload (rawPayload : string) (callDepth : Z) : string :=
  default rawPayload (marshal_callee rawPayload callDepth).

(** [readCarriedCallDepth]. *)
Definition readCarriedCallDepth (t : Task) : Z :=
  match Payload t with
  | None => 0
  | Some p =>
      if p =?? "" then 0
      else match unmarshal_callDepth p with
           | None => 0
           | Some d => if d <? 0 then 0 else d
           end
  end.

(** The depth of the caller: what the walk found or the header says, whichever is
    more. *)
Definition callerDepth (t : Task) (info : lineageInfo) : Z :=
  let carried := readCarriedCallDepth t in
  if Depth info <? carried then carried else Depth info.

Definition proposedDepth (t : Task) (info : lineageInfo) : Z := callerDepth t info + 1.
End Header.

(** ** Examples *)

Example match_prefix : path_Match "team-*" "team-red" = true.
Proof. reflexivity. Qed.
Example match_slash : path_Match "team-*" "team-red/x" = false.
Proof. reflexivity. Qed.
Example match_class : path_Match "p[0-9a]?x" "p7yx" = true.
Proof. reflexivity. Qed.
Example match_negated : path_Match "[^a-c]*z" "dogz" = true.
Proof. reflexivity. Qed.
Example match_bad : path_Match "a[" "a[" = false.
Proof. reflexivity. Qed.
Example match_middle : path_Match "*mid*end" "a-mid-b-end" = true.
Proof. reflexivity. Qed.
Example match_escape : path_Match "a\*" "a*" = true.
Proof. reflexivity. Qed.
