(* ===== verification/CallGlobs.v ===== *)
(** * The allowlists admit what their globs describe

    The matcher of [path.Match] is greedy: it fixes each chunk of a pattern at the
    first place where it fits and never reconsiders.  On names without a slash that is
    as good as trying every way to split the name. *)
From Stdlib Require Import Ascii.
From S2P Require Import Prelude GoStrings TaskModel TaskRepo CallGates.
Open Scope string_scope.

(** ** What a pattern describes *)

(** A star stands for any bytes but slashes, every other item for one byte. *)
Inductive describes : list glob_item -> string -> Prop :=
| describes_end : describes [] ""
| describes_item i items c name :
    item_matches i c = true -> describes items name -> describes (i :: items) (String c name)
| describes_star items name : describes items name -> describes (GStar :: items) name
| describes_more items c name :
    c <> slash -> describes (GStar :: items) name -> describes (GStar :: items) (String c name).

(** What an entry of an allowlist describes. *)
Definition entry_describes (entry id : string) : Prop :=
  let pat := TrimSpace entry in
  pat <> "" /\
  (pat = "*" \/ pat = id \/
   (has_meta pat = true /\ exists items, parse_glob pat = Some items /\ describes items id)).

(** ** Tails of a name *)

Inductive tail_of (t : string) : string -> Prop :=
| tail_refl : tail_of t t
| tail_skip c s : tail_of t s -> tail_of t (String c s).

Lemma tail_trans a b c : tail_of a b -> tail_of b c -> tail_of a c.
Proof. intros Hab Hbc. induction Hbc; [done|by constructor]. Qed.

Lemma tail_length a b : tail_of a b -> (String.length a <= String.length b)%nat.
Proof. induction 1; simpl; lia. Qed.

Lemma tail_same_length a b : tail_of a b -> (String.length b <= String.length a)%nat -> a = b.
Proof. intros [|c s H] Hl; [done|]. apply tail_length in H. simpl in Hl. lia. Qed.

(** Tails of one string are comparable. *)
Lemma tail_le a b s :
  tail_of a s -> tail_of b s -> (String.length a <= String.length b)%nat -> tail_of a b.
Proof.
  intros Ha Hb Hl. induction Hb as [|c s Hb IH]; [done|]. apply IH.
  inversion Ha; subst; [|done]. apply tail_length in Hb. simpl in Hl. lia.
Qed.

Lemma tail_no_slash a b : tail_of a b -> all_bytes_but slash b = true -> all_bytes_but slash a = true.
Proof. induction 1; simpl; [done|]. intros [_ ?]%andb_true_iff. by apply IHtail_of. Qed.

Lemma match_chunk_tail chunk : forall s t,
  match_chunk chunk s = Some t ->
  tail_of t s /\ String.length s = (String.length t + length chunk)%nat.
Proof.
  induction chunk as [|i chunk IH]; intros s t H; [injection H as ->; split; [constructor|simpl; lia]|].
  destruct s as [|c s]; [done|]. simpl in H. destruct (item_matches i c); [|done].
  apply IH in H as [H1 H2]. split; [by constructor|]. simpl. lia.
Qed.

(** ** Chunks *)

(** The chunks fit somewhere in the name. *)
Fixpoint chunks_fit (chunks : list (bool * list glob_item)) (name : string) : Prop :=
  match chunks with
  | [] => name = ""
  | (star, chunk) :: chunks =>
      exists rest t, tail_of rest name /\ (star = false -> rest = name) /\
        match_chunk chunk rest = Some t /\ chunks_fit chunks t
  end.

(** Only the first chunk may lack a star, and only the last may be empty. *)
Fixpoint starred (chunks : list (bool * list glob_item)) : Prop :=
  match chunks with
  | [] => True
  | (star, chunk) :: chunks => star = true /\ (chunk = [] -> chunks = []) /\ starred chunks
  end.

Definition well_chunked (chunks : list (bool * list glob_item)) : Prop :=
  match chunks with
  | [] => True
  | (star, chunk) :: chunks => (chunk = [] -> chunks = []) /\ starred chunks
  end.

Lemma starred_well chunks : starred chunks -> well_chunked chunks.
Proof. destruct chunks as [|[star chunk] chunks]; simpl; tauto. Qed.

Lemma glob_chunks_well items : well_chunked (glob_chunks items).
Proof.
  induction items as [|i items IH]; [done|].
  destruct i; simpl; destruct (glob_chunks items) as [|[[] chunk] chunks]; simpl in *; naive_solver.
Qed.

(** A star absorbs what comes before. *)
Lemma chunks_fit_more chunks t s :
  chunks <> [] -> starred chunks -> tail_of t s -> chunks_fit chunks t -> chunks_fit chunks s.
Proof.
  destruct chunks as [|[star chunk] chunks]; [done|]. intros _ [-> _] Ht (rest & t' & Hr & _ & Hm & Hc).
  exists rest, t'. split_and!; try done. by eapply tail_trans.
Qed.

Lemma describes_star_iff items name :
  all_bytes_but slash name = true ->
  describes (GStar :: items) name <-> exists t, tail_of t name /\ describes items t.
Proof.
  intros Hn. split.
  - remember (GStar :: items) as whole eqn:E. induction 1; simplify_eq.
    + exists name. split; [constructor|done].
    + simpl in Hn. apply andb_true_iff in Hn as [_ Hn].
      destruct IHdescribes as (t & Ht & Hc); [done|done|]. exists t. split; [by constructor|done].
  - intros (t & Ht & Hc). induction Ht as [|c s Ht IHt]; [by apply describes_star|].
    simpl in Hn. apply andb_true_iff in Hn as [Hs Hn]. apply describes_more; [|by apply IHt].
    by apply negb_true_iff, bool_decide_eq_false in Hs.
Qed.

Lemma describes_item_iff i items name :
  i <> GStar ->
  describes (i :: items) name <->
  exists c name', name = String c name' /\ item_matches i c = true /\ describes items name'.
Proof.
  intros Hi. split; [inversion 1; subst; try done; eauto|].
  intros (c & name' & -> & Hm & Hd). by constructor.
Qed.

(** The chunks with a star, and with one more item, in front. *)
Lemma star_chunks_fit items name :
  chunks_fit (glob_chunks (GStar :: items)) name <->
  exists t, tail_of t name /\ chunks_fit (glob_chunks items) t.
Proof.
  pose proof (glob_chunks_well items) as Hw. simpl.
  destruct (glob_chunks items) as [|[[] chunk] chunks].
  - simpl. split.
    + intros (rest & t & Ht & _ & [= ->] & ->). by exists "".
    + intros (t & Ht & ->). by exists "", "".
  - split; [intros Hc; exists name; split; [constructor|done]|].
    intros (t & Ht & Hc). eapply (chunks_fit_more ((true, chunk) :: chunks)); try done.
  - simpl. split.
    + intros (rest & t' & Ht & _ & Hm & Hc). exists rest. split; [done|].
      exists rest, t'. split_and!; [constructor|done|done|done].
    + intros (t & Ht & rest & t' & _ & E & Hm & Hc). rewrite E in Hm by done. by exists t, t'.
Qed.

Lemma item_chunks_fit i items name :
  i <> GStar ->
  chunks_fit (glob_chunks (i :: items)) name <->
  exists c name', name = String c name' /\ item_matches i c = true /\
    chunks_fit (glob_chunks items) name'.
Proof.
  intros Hi. transitivity (chunks_fit (match glob_chunks items with
    | (false, chunk) :: chunks => (false, i :: chunk) :: chunks
    | chunks => (false, [i]) :: chunks
    end) name); [by destruct i|]. clear Hi.
  assert (H : forall chunk rest chunks, chunks_fit ((false, i :: chunk) :: chunks) name <->
    exists c s, name = String c s /\ item_matches i c = true /\
      exists t, match_chunk chunk s = Some t /\ chunks_fit chunks t /\ rest = ()).
  { intros chunk [] chunks. simpl. split.
    - intros (rest & t & _ & E & Hm & Hc). rewrite E in Hm by done. destruct name as [|c s]; [done|].
      destruct (item_matches i c) eqn:Ei; [|done]. exists c, s. eauto 10.
    - intros (c & s & -> & Hm & t & Ht & Hc & _). exists (String c s), t. rewrite Hm.
      split_and!; [constructor|done|done|done]. }
  destruct (glob_chunks items) as [|[[] chunk] chunks]; rewrite (H _ ()); clear H;
    apply exist_proper; intros c; apply exist_proper; intros s;
    apply and_iff_compat_l, and_iff_compat_l; simpl.
  - split; [by intros (t & [= ->] & ? & _)|]. intros ->. by exists "".
  - split; [by intros (t & [= ->] & ? & _)|]. intros H. by exists s.
  - split; [|intros (rest & t & _ & E & Hm & Hc); rewrite E in Hm by done; eauto].
    intros (t & Ht & Hc & _). exists s, t. split_and!; [constructor|done|done|done].
Qed.

Lemma describes_chunks items : forall name,
  all_bytes_but slash name = true ->
  describes items name <-> chunks_fit (glob_chunks items) name.
Proof.
  induction items as [|i items IH]; intros name Hn.
  { simpl. split; [by inversion 1|intros ->; constructor]. }
  assert (i = GStar \/ i <> GStar) as [->|Hi] by (destruct i; auto).
  - rewrite describes_star_iff, star_chunks_fit by done. apply exist_proper. intros t. split.
    + intros [Ht Hd]. split; [done|]. apply IH; [by eapply tail_no_slash|done].
    + intros [Ht Hd]. split; [done|]. apply IH; [by eapply tail_no_slash|done].
  - rewrite describes_item_iff, item_chunks_fit by done. apply exist_proper. intros c.
    apply exist_proper. intros s. split; intros (-> & Hm & Hd); split_and!; try done;
      apply IH; try done; simpl in Hn; by apply andb_true_iff in Hn as [_ ?].
Qed.

(** ** The greedy matcher *)

(** What [match_chunks] finds for a chunk: the first place where it fits. *)
Definition first_place (star last : bool) (chunk : list glob_item) (name : string) : option string :=
  match accept last chunk name with
  | Some t => Some t
  | None => if star then skip_match last chunk name else None
  end.

Lemma match_chunks_cons star chunk chunks name :
  match_chunks ((star, chunk) :: chunks) name =
  if star && no_chunks chunk then all_bytes_but slash name
  else match first_place star (no_chunks chunks) chunk name with
       | Some t => match_chunks chunks t
       | None => false
       end.
Proof.
  simpl. unfold first_place. destruct (accept (no_chunks chunks) chunk name); [done|]. by destruct star.
Qed.

Lemma skip_match_spec last chunk name :
  all_bytes_but slash name = true ->
  match skip_match last chunk name with
  | Some t => exists rest, tail_of rest name /\ accept last chunk rest = Some t /\
      forall r, tail_of r name -> (String.length r < String.length name)%nat ->
        accept last chunk r <> None -> tail_of r rest
  | None => forall r, tail_of r name -> (String.length r < String.length name)%nat ->
      accept last chunk r = None
  end.
Proof.
  induction name as [|c name IH]; intros Hn; simpl; [intros r Hr Hl; lia|].
  simpl in Hn. apply andb_true_iff in Hn as [Hs Hn].
  apply negb_true_iff, bool_decide_eq_false in Hs. rewrite bool_decide_false by done.
  specialize (IH Hn). destruct (accept last chunk name) as [t|] eqn:Ea.
  - exists name. split_and!; [by repeat constructor|done|]. intros r Hr Hl _.
    inversion Hr; subst; [simpl in Hl; lia|done].
  - assert (Hr : forall r, tail_of r (String c name) ->
      (String.length r < S (String.length name))%nat -> accept last chunk r <> None ->
      tail_of r name /\ (String.length r < String.length name)%nat).
    { intros r Hr Hl Ha. inversion Hr as [|? ? Ht]; subst; [simpl in Hl; lia|]. split; [done|].
      pose proof (tail_length _ _ Ht). destruct (decide (String.length r = String.length name)); [|lia].
      apply tail_same_length in Ht; [|lia]. by subst. }
    destruct (skip_match last chunk name) as [t|].
    + destruct IH as (rest & H1 & H2 & H3). exists rest. split_and!; [by constructor|done|].
      intros r Ht Hl Ha. destruct (Hr r Ht Hl Ha) as [? ?]. by apply H3.
    + intros r Ht Hl. destruct (accept last chunk r) eqn:E; [|done].
      destruct (Hr r Ht Hl) as [Ht' Hl']; [by rewrite E|]. by rewrite <- E, (IH r Ht' Hl').
Qed.

Lemma first_place_spec star last chunk name :
  all_bytes_but slash name = true ->
  match first_place star last chunk name with
  | Some t => exists rest, tail_of rest name /\ (star = false -> rest = name) /\
      accept last chunk rest = Some t /\
      forall r, tail_of r name -> (star = false -> r = name) -> accept last chunk r <> None ->
        tail_of r rest
  | None => forall r, tail_of r name -> (star = false -> r = name) -> accept last chunk r = None
  end.
Proof.
  intros Hn. unfold first_place. destruct (accept last chunk name) as [t|] eqn:Ea.
  { exists name. split_and!; [constructor|done|done|done]. }
  assert (Hlt : forall r, tail_of r name -> accept last chunk r <> None ->
    (String.length r < String.length name)%nat).
  { intros r Hr Ha. pose proof (tail_length _ _ Hr).
    destruct (decide (String.length r = String.length name)); [|lia].
    apply tail_same_length in Hr; [|lia]. by subst. }
  destruct star; [|by intros r _ ->].
  pose proof (skip_match_spec last chunk name Hn) as H.
  destruct (skip_match last chunk name) as [t|].
  - destruct H as (rest & H1 & H2 & H3). exists rest. split_and!; try done.
    intros r Hr _ Ha. apply H3; [done|by apply Hlt|done].
  - intros r Hr _. destruct (accept last chunk r) eqn:E; [|done].
    rewrite <- E. apply H; [done|]. apply Hlt; [done|by rewrite E].
Qed.

Lemma accept_match last chunk name t :
  accept last chunk name = Some t <-> match_chunk chunk name = Some t /\ (last = true -> t = "").
Proof.
  unfold accept. destruct (match_chunk chunk name) as [t'|]; simpl; [|naive_solver].
  case_bool_decide; destruct last; simpl; naive_solver.
Qed.

(** If the rest of the pattern fits after some place, it fits after the first. *)
Lemma fits_after_first chunk chunks r t rest t0 :
  starred chunks -> tail_of r rest -> match_chunk chunk r = Some t -> chunks_fit chunks t ->
  match_chunk chunk rest = Some t0 -> (no_chunks chunks = true -> t0 = "") -> chunks_fit chunks t0.
Proof.
  intros Hw Hr Hm Hc Hm0 Hlast. destruct chunks as [|ch chunks]; [by apply Hlast|].
  apply match_chunk_tail in Hm as [Ht Hl], Hm0 as [Ht0 Hl0].
  apply (chunks_fit_more _ t); [done|done| |done].
  apply (tail_le _ _ rest); [by eapply tail_trans|done|]. apply tail_length in Hr. lia.
Qed.

Lemma match_chunks_fit chunks : forall name,
  well_chunked chunks -> all_bytes_but slash name = true ->
  match_chunks chunks name = true <-> chunks_fit chunks name.
Proof.
  induction chunks as [|[star chunk] chunks IH]; intros name Hw Hn.
  { simpl. by rewrite bool_decide_eq_true. }
  destruct Hw as [Hempty Hs]. rewrite match_chunks_cons.
  destruct (star && no_chunks chunk) eqn:El.
  { apply andb_true_iff in El as [-> ?]. destruct chunk; [|done]. rewrite Hempty by done.
    rewrite Hn. split; [intros _|done]. exists "", "". split_and!; try done.
    clear. induction name; by constructor. }
  pose proof (first_place_spec star (no_chunks chunks) chunk name Hn) as Hf.
  destruct (first_place star (no_chunks chunks) chunk name) as [t0|].
  - destruct Hf as (rest & Hr & He & [Hm0 Hlast]%accept_match & Hbest).
    rewrite IH; [|by apply starred_well|].
    2: { eapply tail_no_slash; [|exact Hn]. eapply tail_trans; [|exact Hr]. by apply match_chunk_tail in Hm0 as [? _]. }
    split; [intros Hc; by exists rest, t0|]. intros (r & t & Hr' & He' & Hm & Hc).
    eapply (fits_after_first chunk chunks r t rest); try done. apply Hbest; [done|done|].
    enough (accept (no_chunks chunks) chunk r = Some t) as -> by done. apply accept_match.
    split; [done|]. by destruct chunks.
  - split; [done|]. intros (r & t & Hr & He & Hm & Hc).
    enough (accept (no_chunks chunks) chunk r = Some t) as E by (by rewrite Hf in E).
    apply accept_match. split; [done|]. by destruct chunks.
Qed.

Lemma path_Match_describes pat name :
  all_bytes_but slash name = true ->
  path_Match pat name = true <-> exists items, parse_glob pat = Some items /\ describes items name.
Proof.
  intros Hn. unfold path_Match. destruct (parse_glob pat) as [items|]; [|naive_solver].
  rewrite match_chunks_fit by (try apply glob_chunks_well; done).
  rewrite <- describes_chunks by done. naive_solver.
Qed.

Lemma entry_admits_describes id entry :
  all_bytes_but slash id = true -> entry_admits id entry = true <-> entry_describes entry id.
Proof.
  intros Hid. unfold entry_admits, entry_describes. case_bool_decide; [naive_solver|].
  rewrite !orb_true_iff, andb_true_iff, !bool_decide_eq_true, path_Match_describes by done. tauto.
Qed.

Lemma some_entry_describes id l :
  all_bytes_but slash id = true ->
  existsb (entry_admits id) l = true <-> exists entry, entry ∈ l /\ entry_describes entry id.
Proof.
  intros Hid. rewrite existsb_exists. apply exist_proper. intros entry.
  by rewrite list_elem_of_In, entry_admits_describes.
Qed.

(** C33: the allowlists admit exactly what their entries describe.  For an id without a
    slash, the greedy matcher of globs, which fixes every chunk of a pattern at the
    first place where it fits, agrees with the declarative meaning of a pattern: a
    project accepts calls from a caller, and may call a callee, exactly if some entry,
    trimmed, is a star, is the id, or is a well-formed glob some splitting of the id
    fits; an empty list of callees is no restriction, an empty list of callers admits
    nobody, and an empty id is never admitted. *)
Theorem allowlists_exact p id :
  all_bytes_but slash id = true ->
  (AcceptsCallsFrom p id = true <->
   id <> "" /\ exists entry, entry ∈ AcceptCallsFrom p /\ entry_describes entry id) /\
  (CanCall p id = true <->
   id <> "" /\ (CanCallProjects p = [] \/
                exists entry, entry ∈ CanCallProjects p /\ entry_describes entry id)).
Proof.
  intros Hid. unfold AcceptsCallsFrom, CanCall. case_bool_decide; [naive_solver|].
  rewrite some_entry_describes by done. split; [naive_solver|].
  destruct (CanCallProjects p) as [|e l]; [naive_solver|].
  rewrite some_entry_describes by done. split; [naive_solver|]. by intros [_ [?|?]].
Qed.

(** A project that the wildcard in the middle of an entry describes. *)
Lemma allowlists_exact_witness :
  AcceptsCallsFrom (mkCallPolicy [" team-*-prod "] [] 0) "team-red-prod" = true /\
  (AcceptsCallsFrom (mkCallPolicy [" team-*-prod "] [] 0) "team-red-prod" = true <->
   "team-red-prod" <> "" /\
   exists entry, entry ∈ [" team-*-prod "] /\ entry_describes entry "team-red-prod").
Proof.
  split; [reflexivity|].
  exact (proj1 (allowlists_exact (mkCallPolicy [" team-*-prod "] [] 0) "team-red-prod" eq_refl)).
Defined.
