(* ===== verification/Interpolate.v ===== *)
(** * References to earlier steps

    [src/internal/executor/outputs_interpolate.go]: the strings of a payload may refer
    to the results of earlier steps as [${outputs.<step>.<field>}].  The regular
    expression is a scanner: the class of its first group has no dot and that of the
    second no closing brace, so at most one match starts at a position.  The encoder
    and the decoder of [encoding/json] are parameters. *)
From Stdlib Require Import Ascii.
From S2P Require Import Prelude GoStrings Workflow Gates.
Open Scope string_scope.

(** ** The scanner *)

Definition letter_or_digit (c : ascii) : bool :=
  let n := nat_of_ascii c in
  (Nat.leb 48 n && Nat.leb n 57) || (Nat.leb 65 n && Nat.leb n 90) ||
  (Nat.leb 97 n && Nat.leb n 122).

Definition step_byte (c : ascii) : bool :=
  letter_or_digit c || (c =?? "_"%char) || (c =?? "-"%char).
Definition field_byte (c : ascii) : bool := step_byte c || (c =?? "."%char).

(** The longest prefix of bytes in a class, and the rest. *)
Fixpoint span_bytes (p : ascii -> bool) (s : string) : string * string :=
  match s with
  | "" => ("", "")
  | String c rest =>
      if p c then let '(a, b) := span_bytes p rest in (String c a, b) else ("", s)
  end.

Definition ref_open : string := "${outputs.".

(** A match of [outputRefRegex] at the start of the text: its two groups and the text
    after it. *)
Definition match_ref (s : string) : option (string * string * string) :=
  if String.prefix ref_open s then
    let '(step, s) := span_bytes step_byte (String.substring 10 (String.length s - 10) s) in
    match s with
    | String "." s =>
        let '(field, s) := span_bytes field_byte s in
        match s with
        | String "}" rest =>
            if (step =?? "") || (field =?? "") then None else Some (step, field, rest)
        | _ => None
        end
    | _ => None
    end
  else None.

Inductive segment : Type :=
| SText (s : string)
| SRef (step field : string).

Definition add_byte (c : ascii) (segs : list segment) : list segment :=
  match segs with
  | SText t :: segs => SText (String c t) :: segs
  | _ => SText (String c "") :: segs
  end.

(** [FindAllStringSubmatchIndex] with the text between the matches. *)
Fixpoint find_refs (n : nat) (s : string) : list segment :=
  match n, s with
  | O, _ | _, "" => []
  | S n, String c rest =>
      match match_ref s with
      | Some (step, field, rest) => SRef step field :: find_refs n rest
      | None => add_byte c (find_refs n rest)
      end
  end.

Definition segments (s : string) : list segment := find_refs (String.length s) s.

Definition is_ref (g : segment) : bool := match g with SRef _ _ => true | SText _ => false end.

(** ** Values *)

(** [json.Unmarshal] into an [any] and [json.Marshal] of one. *)
Class JsonAny `{JsonNumbers} : Type := {
  unmarshal_any : string -> option json;
  marshal_any : json -> option string
}.

Section Interpolate.
Context {JN : JsonNumbers} {JA : JsonAny}.

(** Descend into the decoded body; [nil] and an absent value are the same. *)
Fixpoint drill (doc : json) (path : list string) : option json :=
  match path with
  | [] => match doc with JNull => None | _ => Some doc end
  | seg :: path =>
      match doc with
      | JObj m => match m !! seg with Some v => drill v path | None => None end
      | _ => None
      end
  end.

(** [resolveStepField]. *)
Definition resolveStepField (stepResults : gmap string string) (step fieldPath : string) :
    option json :=
  raw ← stepResults !! step;
  if raw =?? "" then None
  else doc ← unmarshal_any raw; drill doc (split "." fieldPath).

(** [scalarStringForm]. *)
Definition scalarStringForm (v : option json) : string :=
  match v with
  | None | Some JNull => ""
  | Some (JStr s) => s
  | Some (JBool b) => if b then "true" else "false"
  | Some v => default "" (marshal_any v)
  end.

Definition segment_text (stepResults : gmap string string) (g : segment) : string :=
  match g with
  | SText t => t
  | SRef step field => scalarStringForm (resolveStepField stepResults step field)
  end.

(** [interpolateStringRefs]: a string that is one reference takes the value, any other
    its text form. *)
Definition interpolateStringRefs (s : string) (stepResults : gmap string string) : json :=
  match segments s with
  | [SRef step field] =>
      match resolveStepField stepResults step field with
      | None => JStr ""
      | Some v => v
      end
  | segs =>
      if existsb is_ref segs then JStr (String.concat "" (map (segment_text stepResults) segs))
      else JStr s
  end.

(** [interpolateOutputs]. *)
Fixpoint interpolateOutputs (v : json) (stepResults : gmap string string) : json :=
  match v with
  | JStr s => interpolateStringRefs s stepResults
  | JObj m => JObj ((fun v => interpolateOutputs v stepResults) <$> m)
  | JArr l => JArr (map (fun v => interpolateOutputs v stepResults) l)
  | v => v
  end.

End Interpolate.

(** ** The scanner of references

    A text is the concatenation of what the scanner finds in it, and the scanner finds
    every reference that is written into a text. *)
(** ** Text of segments *)

Definition segment_source (g : segment) : string :=
  match g with
  | SText t => t
  | SRef step field => ref_open +:+ step +:+ "." +:+ field +:+ "}"
  end.

Fixpoint render (segs : list segment) : string :=
  match segs with [] => "" | g :: segs => segment_source g +:+ render segs end.

Definition name_ok (p : ascii -> bool) (s : string) : bool := negb (s =?? "") && all_bytes p s.

Definition starts_with_text (segs : list segment) : bool :=
  match segs with SText _ :: _ => true | _ => false end.

(** Texts are not empty, contain no dollar sign and do not follow each other; the names
    in references consist of the bytes the pattern admits. *)
Fixpoint canonical (segs : list segment) : bool :=
  match segs with
  | [] => true
  | SText t :: segs =>
      name_ok (fun c => negb (c =?? "$"%char)) t && negb (starts_with_text segs) && canonical segs
  | SRef step field :: segs => name_ok step_byte step && name_ok field_byte field && canonical segs
  end.

(** ** The parts of the pattern *)

Lemma span_bytes_spec p s a b : span_bytes p s = (a, b) -> s = a +:+ b /\ all_bytes p a = true.
Proof.
  revert a b. induction s as [|c s IH]; intros a b H; simpl in H; [by injection H as <- <-|].
  destruct (p c) eqn:Ec; [|by injection H as <- <-].
  destruct (span_bytes p s) as [a' b']. injection H as <- <-.
  destruct (IH a' b' eq_refl) as [-> Ha]. simpl. by rewrite Ec, Ha.
Qed.

Lemma span_bytes_app p a c b :
  all_bytes p a = true -> p c = false -> span_bytes p (a +:+ String c b) = (a, String c b).
Proof.
  intros Ha Hc. induction a as [|x a IH]; simpl in *; [by rewrite Hc|].
  apply andb_true_iff in Ha as [-> Ha]. by rewrite IH.
Qed.

Lemma substring_after p s :
  String.substring (String.length p) (String.length (p +:+ s) - String.length p) (p +:+ s) = s.
Proof.
  rewrite string_length_app. replace (_ + _ - _)%nat with (String.length s) by lia.
  induction p as [|c p IH]; [by apply substring_all|done].
Qed.

Lemma prefix_iff p s : String.prefix p s = true <-> exists rest, s = p +:+ rest.
Proof.
  split; [|intros [rest ->]; apply prefix_app].
  revert s. induction p as [|c p IH]; intros s; [by exists s|]. destruct s as [|d s]; [done|].
  simpl. destruct (ascii_dec c d) as [->|]; [|done]. intros [rest ->]%IH. by exists rest.
Qed.

Lemma match_ref_source step field rest :
  name_ok step_byte step = true -> name_ok field_byte field = true ->
  match_ref (segment_source (SRef step field) +:+ rest) = Some (step, field, rest).
Proof.
  unfold name_ok. intros [Hs Hsb]%andb_true_iff [Hf Hfb]%andb_true_iff. unfold match_ref.
  unfold segment_source. rewrite !string_app_assoc.
  rewrite (proj2 (prefix_iff ref_open _)) by eauto.
  change 10%nat with (String.length ref_open). rewrite substring_after.
  change ("." +:+ ?x) with (String "."%char x). change ("}" +:+ ?x) with (String "}"%char x).
  rewrite span_bytes_app by done. rewrite span_bytes_app by done.
  apply negb_true_iff in Hs, Hf. by rewrite Hs, Hf.
Qed.

Lemma match_ref_Some s step field rest :
  match_ref s = Some (step, field, rest) ->
  s = segment_source (SRef step field) +:+ rest.
Proof.
  unfold match_ref. destruct (String.prefix ref_open s) eqn:Ep; [|done].
  apply prefix_iff in Ep as [t ->]. change 10%nat with (String.length ref_open).
  rewrite substring_after. destruct (span_bytes step_byte t) as [a b] eqn:Ea.
  apply span_bytes_spec in Ea as [-> _]. destruct b as [|c b]; [done|].
  destruct (ascii_dec c ".") as [->|Hc]; [|by destruct c as [[] [] [] [] [] [] [] []]].
  destruct (span_bytes field_byte b) as [f e] eqn:Ef. apply span_bytes_spec in Ef as [-> _].
  destruct e as [|d e]; [done|].
  destruct (ascii_dec d "}") as [->|Hd]; [|by destruct d as [[] [] [] [] [] [] [] []]].
  destruct (_ || _); [done|]. intros [= <- <- <-]. simpl. by rewrite !string_app_assoc.
Qed.

Lemma match_ref_dollar c s : c <> "$"%char -> match_ref (String c s) = None.
Proof.
  intros Hc. unfold match_ref. destruct (String.prefix ref_open (String c s)) eqn:E; [|done].
  apply prefix_iff in E as [rest [= -> _]]. done.
Qed.

(** ** The scanner *)

Lemma render_add_byte c segs : render (add_byte c segs) = String c (render segs).
Proof. by destruct segs as [|[]]. Qed.

Lemma find_refs_render n : forall s, (String.length s <= n)%nat -> render (find_refs n s) = s.
Proof.
  induction n as [|n IH]; intros s Hn; [destruct s; [done|simpl in Hn; lia]|].
  destruct s as [|c s]; [done|]. cbn [find_refs].
  destruct (match_ref (String c s)) as [[[step field] rest]|] eqn:Em.
  - apply match_ref_Some in Em. cbn [render]. rewrite IH; [done|].
    apply (f_equal String.length) in Em. rewrite string_length_app in Em. simpl in Em, Hn. lia.
  - rewrite render_add_byte, IH; [done|]. simpl in Hn. lia.
Qed.

Lemma find_refs_text t : forall n segs,
  name_ok (fun c => negb (c =?? "$"%char)) t = true -> starts_with_text segs = false ->
  (String.length (t +:+ render segs) <= n)%nat ->
  (forall m, (String.length (render segs) <= m)%nat -> find_refs m (render segs) = segs) ->
  find_refs n (t +:+ render segs) = SText t :: segs.
Proof.
  induction t as [|c t IH]; intros n segs Hok Hs Hn Hr; [done|].
  unfold name_ok in Hok. simpl in Hok, Hn. destruct n as [|n]; [lia|].
  apply andb_true_iff in Hok as [Hc Ht]. apply negb_true_iff, bool_decide_eq_false in Hc.
  rewrite string_app_cons in *. cbn [find_refs]. rewrite match_ref_dollar by done.
  destruct t as [|d t].
  - change ("" +:+ render segs) with (render segs) in *. rewrite Hr by (simpl in Hn; lia). destruct segs as [|[] segs]; done.
  - rewrite IH; [done| |done|cbn [String.length] in Hn; lia|done]. unfold name_ok. by rewrite bool_decide_false.
Qed.

Lemma find_refs_canonical segs : forall n,
  canonical segs = true -> (String.length (render segs) <= n)%nat ->
  find_refs n (render segs) = segs.
Proof.
  induction segs as [|g segs IH]; intros n Hc Hn; [by destruct n|]. destruct g as [t|step field].
  - cbn [canonical] in Hc. apply andb_true_iff in Hc as [[Ht Hs]%andb_true_iff Hc].
    apply find_refs_text; [done|by apply negb_true_iff|done|]. intros m Hm. by apply IH.
  - cbn [canonical] in Hc. apply andb_true_iff in Hc as [[Hs Hf]%andb_true_iff Hc].
    pose proof (match_ref_source step field (render segs) Hs Hf) as Hm. cbn [render] in *.
    rewrite string_length_app in Hn. destruct n as [|n]; [simpl in Hn; lia|].
    remember (segment_source (SRef step field) +:+ render segs) as src eqn:Es.
    destruct src as [|c src]; [done|]. cbn [find_refs]. rewrite Hm. f_equal.
    apply IH; [done|]. simpl in Hn. lia.
Qed.

(** The scanner of references loses nothing and misses nothing: the segments it
    finds in a text, written one after the other, are the text, and of a text written
    from references with legal names and pieces without a dollar sign it finds exactly
    these; so a string is replaced piece by piece, each reference by its value. *)
Theorem references_roundtrip :
  (forall s, render (segments s) = s) /\
  (forall segs, canonical segs = true -> segments (render segs) = segs) /\
  (forall `{JsonAny} segs results,
     canonical segs = true -> existsb is_ref segs = true -> (2 <= length segs)%nat ->
     interpolateStringRefs (render segs) results =
       JStr (String.concat "" (map (segment_text results) segs))).
Proof.
  assert (Hc : forall segs, canonical segs = true -> segments (render segs) = segs).
  { intros segs Hc. by apply find_refs_canonical. }
  split_and!; [intros s; by apply find_refs_render|done|].
  intros JN JA segs results Hok Hr Hl. unfold interpolateStringRefs. rewrite Hc by done.
  destruct segs as [|[t|step field] [|g segs]]; [done|simpl in Hl; lia| |simpl in Hl; lia|];
    by rewrite Hr.
Qed.

Lemma references_roundtrip_witness :
  let segs := [SText "id "; SRef "plan" "task.id"; SText ", "; SRef "scan" "n"] in
  render segs = "id ${outputs.plan.task.id}, ${outputs.scan.n}" /\ segments (render segs) = segs.
Proof.
  split; [reflexivity|]. apply (proj1 (proj2 references_roundtrip)). reflexivity.
Defined.
