(* ===== verification/CallProject.v ===== *)
(** * Cross-project calls

    [src/internal/executor/call_project.go], the dispatch of the step in workflow.go,
    [cpc_timeout_scanner.go], the audit rows of [inter_project_audit.go] and the
    administrator's cancellation ([api/cpc_handlers.go]).  Every goroutine is a program
    counter and a turn is one statement on what they share: the task table, the ledger
    of calls, the executions and the audit log.  Metrics and live events are left
    out, and so are the reads that only serve them. *)
From stdpp Require Import pretty.
From S2P Require Import Prelude GoStrings TaskModel TaskRepo TaskRepoSafety Workflow Gates.
From S2P Require Import ExecRepo Delegation CallRepo CallGates Interpolate.
Open Scope string_scope.
Open Scope Z_scope.

(** ** Audit rows *)

Definition auditActionCPCCreate : string := "interproject.cpc.create".
Definition auditActionCPCResolve : string := "interproject.cpc.resolve".
Definition auditActionCPCDepthExceeded : string := "interproject.cpc.depth_exceeded".
Definition auditActionCPCCycleDetected : string := "interproject.cpc.cycle_detected".
Definition auditActionCPCAdminCancel : string := "interproject.cpc.admincancel".

(** What the JSON of an audit row says. *)
Inductive AuditAfter : Type :=
| AfterCreate (c : CrossProjectCall) (calleeTaskID : string)
| AfterResolve (c : CrossProjectCall) (status : CrossProjectCallStatus) (errMsg : string)
| AfterRefusal (callerTaskID callerProject stepID calleeProject : string) (depth : Z)
    (lineagePath : list string) (reason : string)
| AfterCancel (c : CrossProjectCall) (reason : string).

Record AuditEntry : Type := mkAudit {
  ae_Action : string;
  ae_Target : string;
  ae_After : AuditAfter
}.

(** ** The shared state *)

Record World : Type := mkWorld {
  w_tasks : Table;
  w_calls : CallTable;
  w_execs : ExecTable;
  w_audit : list AuditEntry
}.

(** What a turn draws from outside: the daemon's clock, the database's, the fate of the
    statement and a generated id. *)
Record Draw : Type := mkDraw {
  d_now : time;
  d_dbnow : time;
  d_fault : Fault;
  d_id : string
}.

(** The error of a connection that is gone. *)
Definition conn_error : RepoError := ErrSQL "57P01".

(** A statement that only reads. *)
Definition read {A} (f : Fault) (r : result RepoError A) : result RepoError A :=
  if failed f then Err conn_error else r.

(** A statement that writes: its answer and the state after it. *)
Definition write {A} (f : Fault) (s : A) (r : result RepoError A) : result RepoError unit * A :=
  if refused f then (Err conn_error, s)
  else match r with
       | Ok s' => (if failed f then Err conn_error else Ok (), s')
       | Err e => (Err (if failed f then conn_error else e), s)
       end.

Definition set_tasks (tbl : Table) (w : World) : World :=
  mkWorld tbl (w_calls w) (w_execs w) (w_audit w).
Definition set_calls (tbl : CallTable) (w : World) : World :=
  mkWorld (w_tasks w) tbl (w_execs w) (w_audit w).
Definition set_execs (tbl : ExecTable) (w : World) : World :=
  mkWorld (w_tasks w) (w_calls w) tbl (w_audit w).

(** [writeAuditRow]: an insert that fails is only logged. *)
Definition audit (f : Fault) (e : AuditEntry) (w : World) : World :=
  if refused f then w else mkWorld (w_tasks w) (w_calls w) (w_execs w) (w_audit w ++ [e])%list.

(** ** Configuration and encoders *)

(** [interProjectEnabled] of the value of the variable. *)
Definition interProjectEnabled (v : string) : bool :=
  bool_decide (v ∈ ["1"; "true"; "TRUE"; "yes"]).

(** The decoder of an envelope into a map ([Ok None] is the JSON [null]) and its error
    text. *)
Class EnvelopeCodec `{JsonNumbers} : Type := {
  unmarshal_envelope : string -> result string (option object)
}.

Section Calls.
Context `{pg : Postgres} {JN : JsonNumbers} {JA : JsonAny} {EC : EnvelopeCodec} {CP : CallPayload}.

(** The executor's fields that the calls read: the flag, whether the ledger is wired,
    the registered projects, the schemas of the registry (a validator returns its error
    text) and the text of a repository error. *)
Record CallConfig : Type := mkCallConfig {
  cfg_env : string;
  cfg_cpcRepo : bool;
  cfg_projects : gmap string CallPolicy;
  cfg_schemas : option (gmap string (object -> option string));
  cfg_errText : RepoError -> string
}.

Context (cfg : CallConfig).

(** ** The step *)

Inductive CallError : Type :=
| CallDisabled
| CallProjectNotFound (callee : string)
| CallCallerRejected (caller callee : string)
| CallCalleeRejected (caller callee : string)
| CallLineageFailed (parentID : string) (e : RepoError)
| CallDepthExceeded (depth cap : Z)
| CallCycleDetected (callee taskID : string) (path : list string)
| CallMarshal
| CallCreateRow (e : RepoError)
| CallCreateTask (e : RepoError).

Record callProjectResult : Type := mkCallResult {
  CPCId : string;
  rs_CalleeTaskID : string
}.

(** A step being executed: its task and execution, the definition of the step with the
    payload template and the parsed timeout, the results of earlier steps, and the
    snapshot that will be saved when the execution pauses. *)
Record CallJob : Type := mkCallJob {
  cj_task : Task;
  cj_execID : string;
  cj_stepID : string;
  cj_step : WorkflowStep;
  cj_payload : gmap string json;
  cj_timeout : option duration;
  cj_cancelOnTimeout : bool;
  cj_results : gmap string string;
  cj_completed : list string;
  cj_snapshot : callProjectResult -> string
}.

(** How the step ends: the execution pauses, the handler fails, or the checkpoint
    cannot be saved. *)
Inductive CallOutcome : Type :=
| CallPaused (r : callProjectResult)
| CallFailed (e : CallError)
| CallNotSaved (r : callProjectResult) (e : RepoError).

(** The next statement of a step. *)
Inductive CallPC : Type :=
| CcStart
| CcWalk (cursor : Task) (hops : nat) (info : lineageInfo)
| CcRefuse (e : CallError) (entry : AuditEntry)
| CcCreate (info : lineageInfo) (payload : string)
| CcInsert (info : lineageInfo) (payload : string) (c : CrossProjectCall)
| CcReject (c : CrossProjectCall) (e : RepoError)
| CcStamp (c : CrossProjectCall) (calleeTaskID : string)
| CcAudit (c : CrossProjectCall) (calleeTaskID : string)
| CcCheckpoint (r : callProjectResult)
| CcFlip (r : callProjectResult)
| CcPause (r : callProjectResult)
| CcUnblock (r : callProjectResult) (u : Unblock)
| CcDone (o : CallOutcome).

Definition target (j : CallJob) : string := TargetProject (cj_step j).
Definition depth_cap (t : Task) : Z := EffectiveMaxCallDepth (cfg_projects cfg !! ProjectID t).

Definition refusal (j : CallJob) (action reason : string) (depth : Z) (info : lineageInfo) :
    AuditEntry :=
  mkAudit action (target j)
    (AfterRefusal (ID (cj_task j)) (ProjectID (cj_task j)) (cj_stepID j) (target j) depth
       (LineagePath info) reason).

(** The tests before the walk: none of them is a statement. *)
Definition gate (j : CallJob) : option CallError :=
  let caller := ProjectID (cj_task j) in
  if negb (interProjectEnabled (cfg_env cfg) && cfg_cpcRepo cfg) then Some CallDisabled
  else match cfg_projects cfg !! target j with
       | None => Some (CallProjectNotFound (target j))
       | Some callee =>
           if (match cfg_projects cfg !! caller with
               | Some p => negb (CanCall p (target j))
               | None => false
               end)
           then Some (CallCallerRejected caller (target j))
           else if negb (AcceptsCallsFrom callee caller)
           then Some (CallCalleeRejected caller (target j))
           else None
       end.

(** The guards after the walk, and the payload. *)
Definition after_walk (j : CallJob) (info : lineageInfo) : CallPC :=
  let depth := proposedDepth (cj_task j) info in
  let cap := depth_cap (cj_task j) in
  if cap <? depth then
    CcRefuse (CallDepthExceeded depth cap)
      (refusal j auditActionCPCDepthExceeded
         ("would push chain to depth " ++ pretty depth ++ "; cap=" ++ pretty cap) depth info)
  else if bool_decide (target j ∈ AncestorProjects info) then
    CcRefuse (CallCycleDetected (target j) (ID (cj_task j)) (LineagePath info))
      (refusal j auditActionCPCCycleDetected
         ("callee " ++ quote_go (target j) ++ " is an ancestor in the lineage chain") depth info)
  else
    match marshal_any (interpolateOutputs (JObj (cj_payload j)) (cj_results j)) with
    | None => CcDone (CallFailed CallMarshal)
    | Some payload => CcCreate info payload
    end.

(** The walk's next hop, or its end. *)
Definition walk_on (j : CallJob) (cursor : Task) (hops : nat) (info : lineageInfo) : CallPC :=
  match hops, lineage_parent cursor with
  | O, _ => after_walk j (info <| Truncated := true |>)
  | _, None => after_walk j info
  | S _, Some _ => CcWalk cursor hops info
  end.

Definition walk_get (j : CallJob) (cursor : Task) (hops : nat) (info : lineageInfo)
    (f : Fault) (tbl : Table) : CallPC :=
  match hops, lineage_parent cursor with
  | S hops, Some pid =>
      match lineage_get cursor pid (read f (Get pid tbl)) info with
      | LtStop info => after_walk j info
      | LtNext parent info => walk_on j parent hops info
      | LtFail pid e => CcDone (CallFailed (CallLineageFailed pid e))
      end
  | _, _ => walk_on j cursor hops info
  end.

(** The row the step asks for. *)
Definition new_call (j : CallJob) (payload : string) (now : time) : CrossProjectCall := {|
  cc_ID := ""; CallerTaskID := ID (cj_task j); CallerStepID := cj_stepID j;
  CallerProject := ProjectID (cj_task j); CalleeProject := target j;
  CalleeWorkflow := TargetWorkflow (cj_step j); CalleeTaskID := None;
  cc_Payload := Some payload; ExpectedSchema := ExpectSchema (cj_step j);
  cc_Status := CPCStatusPending; cc_ResultEnvelope := None; ErrorMessage := None;
  TimeoutAt := match cj_timeout j with
               | Some d => if 0 <? d then Some (now + d) else None
               | None => None
               end;
  cc_CreatedAt := zeroTime; ResolvedAt := None;
  CancelOnTimeout := cj_cancelOnTimeout j |}.

(** The task of the callee. *)
Definition callee_task (j : CallJob) (info : lineageInfo) (payload : string)
    (c : CrossProjectCall) (calleeTaskID : string) (now : time) : Task :=
  (zeroTask calleeTaskID) <| ProjectID := target j |>
    <| WorkflowID := Some (TargetWorkflow (cj_step j)) |>
    <| ParentTaskID := Some (ID (cj_task j)) |>
    <| CreationSource := TaskCreationSourceDelegation |>
    <| Status := TaskStatusQueued |> <| Priority := 50 |>
    <| Payload := Some (buildCalleePayload payload (proposedDepth (cj_task j) info)) |>
    <| Attempt := 1 |> <| MaxAttempts := 3 |> <| CreatedAt := now |> <| UpdatedAt := now |>
    <| CrossProjectCallID := Some (cc_ID c) |>.

(** One statement of the step. *)
Definition call_turn (j : CallJob) (d : Draw) (pc : CallPC) (w : World) : CallPC * World :=
  let f := d_fault d in
  match pc with
  | CcStart =>
      (match gate j with
       | Some e => CcDone (CallFailed e)
       | None => walk_on j (cj_task j) lineageWalkHardLimit (start_lineage (cj_task j))
       end, w)
  | CcWalk cursor hops info => (walk_get j cursor hops info f (w_tasks w), w)
  | CcRefuse e entry => (CcDone (CallFailed e), audit f entry w)
  | CcCreate info payload =>
      match (if refused f then Err conn_error
             else CreateCall (d_dbnow d) (d_id d) (Some (new_call j payload (d_now d)))
                    (w_calls w)) with
      | Ok (c, tbl) =>
          (if failed f then CcDone (CallFailed (CallCreateRow conn_error))
           else CcInsert info payload c, set_calls tbl w)
      | Err e =>
          (CcDone (CallFailed (CallCreateRow (if failed f then conn_error else e))), w)
      end
  | CcInsert info payload c =>
      let callee := callee_task j info payload c (d_id d) (d_now d) in
      let '(r, tbl) := write f (w_tasks w)
        (let! r := Create (d_now d) (Some callee) (w_tasks w) in Ok r.2) in
      (match r with Ok _ => CcStamp c (d_id d) | Err e => CcReject c e end, set_tasks tbl w)
  | CcReject c e =>
      let reason := "callee task creation failed: " ++ cfg_errText cfg e in
      let '(_, tbl) := write f (w_calls w)
        (Ok (MarkRejected (d_dbnow d) (cc_ID c) reason (w_calls w))) in
      (CcDone (CallFailed (CallCreateTask e)), set_calls tbl w)
  | CcStamp c calleeTaskID =>
      let '(_, tbl) := write f (w_calls w) (SetCalleeTaskID (cc_ID c) calleeTaskID (w_calls w)) in
      (CcAudit c calleeTaskID, set_calls tbl w)
  | CcAudit c calleeTaskID =>
      (CcCheckpoint (mkCallResult (cc_ID c) calleeTaskID),
       audit f (mkAudit auditActionCPCCreate (CalleeProject c) (AfterCreate c calleeTaskID)) w)
  | CcCheckpoint r =>
      let '(res, tbl) := write f (w_execs w)
        (SaveStateSnapshot (d_dbnow d) (cj_execID j) (Some (cj_snapshot j r))
           (OnSuccess (cj_step j)) (cj_completed j ++ [cj_stepID j])%list (w_execs w)) in
      (match res with Ok _ => CcFlip r | Err e => CcDone (CallNotSaved r e) end, set_execs tbl w)
  | CcFlip r =>
      let '(_, tbl) := write f (w_tasks w)
        (UpdateStatus (d_dbnow d) (ID (cj_task j)) TaskStatusWaitingForChildren (w_tasks w)) in
      (CcPause r, set_tasks tbl w)
  | CcPause r =>
      let '(_, tbl) := write f (w_execs w)
        (UpdateExecutionStatus (d_dbnow d) (cj_execID j) ExecutionStatusPaused (w_execs w)) in
      (CcUnblock r (UbGet (ID (cj_task j))), set_execs tbl w)
  | CcUnblock r UbDone => (CcDone (CallPaused r), w)
  | CcUnblock r u =>
      let '(u, tbl) := unblock_step (d_dbnow d) (failed f) u (w_tasks w) in
      (CcUnblock r u, set_tasks tbl w)
  | CcDone o => (CcDone o, w)
  end.

(** ** The callee's resolve hook *)

(** [validateEnvelopeShape]: the reason for a rejection, if any. *)
Definition validateEnvelopeShape (envelope : option object) (expectedSchema : string) :
    option string :=
  match envelope with
  | None => Some "envelope is not a JSON object"
  | Some m =>
      match m !! "schema" with
      | None => Some "envelope missing required field: schema"
      | Some (JStr s) =>
          if negb (s =?? expectedSchema)
          then Some ("envelope.schema = " ++ s ++ ", caller expected " ++ expectedSchema)
          else match m !! "status" with
               | None => Some "envelope missing required field: status"
               | Some _ => None
               end
      | Some _ => Some "envelope.schema must be a string"
      end
  end.

(** The write a resolution ends in. *)
Inductive Mark : Type :=
| MkFailed (reason : string)
| MkRejected (reason : string)
| MkCompleted (envelope : string).

Definition mark_status (m : Mark) : CrossProjectCallStatus :=
  match m with
  | MkFailed _ => CPCStatusFailed
  | MkRejected _ => CPCStatusRejected
  | MkCompleted _ => CPCStatusCompleted
  end.

Definition mark_message (m : Mark) : string :=
  match m with MkFailed r | MkRejected r => r | MkCompleted _ => "" end.

Definition failure_reason (task : Task) : string :=
  match LastError task with
  | Some e => if e =?? "" then "callee task terminated without success"
              else "callee task failed: " ++ e
  | None => "callee task terminated without success"
  end.

(** The validation of a registered schema, if there is one. *)
Definition schema_error (schema : string) (envelope : option object) : option string :=
  reg ← cfg_schemas cfg; validate ← reg !! schema; validate (default ∅ envelope).

(** What becomes of an envelope. *)
Definition judge_envelope (c : option CrossProjectCall) (envelope : option string) : Mark :=
  match envelope ≫= nullif_empty with
  | None => MkRejected "callee task produced no result envelope"
  | Some e =>
      match unmarshal_envelope e with
      | Err msg => MkRejected ("envelope is not a JSON object: " ++ msg)
      | Ok probe =>
          match c with
          | None => MkCompleted e
          | Some c =>
              if ExpectedSchema c =?? "" then MkCompleted e
              else match validateEnvelopeShape probe (ExpectedSchema c) with
                   | Some reason => MkRejected reason
                   | None =>
                       match schema_error (ExpectedSchema c) probe with
                       | Some msg =>
                           MkRejected ("envelope failed JSON-Schema validation: " ++ msg)
                       | None => MkCompleted e
                       end
                   end
          end
      end
  end.

Inductive ResolvePC : Type :=
| RsGet (succeeded : bool)
| RsEnvelope (c : option CrossProjectCall)
| RsMark (c : option CrossProjectCall) (m : Mark)
| RsAudit (c : CrossProjectCall) (m : Mark)
| RsDone.

(** [resolveCrossProjectCallForTask] at its start. *)
Definition resolve (task : Task) (succeeded : bool) : ResolvePC :=
  if cfg_cpcRepo cfg && is_some (CrossProjectCallID task) then RsGet succeeded else RsDone.

Definition mark_call (now : time) (id : string) (m : Mark) (tbl : CallTable) :
    result RepoError CallTable :=
  match m with
  | MkFailed reason => Ok (MarkFailed now id reason tbl)
  | MkRejected reason => Ok (MarkRejected now id reason tbl)
  | MkCompleted envelope => MarkCompleted now id (Some envelope) tbl
  end.

(** One statement of the hook. *)
Definition resolve_turn (task : Task) (d : Draw) (pc : ResolvePC) (w : World) :
    ResolvePC * World :=
  let f := d_fault d in
  let id := default "" (CrossProjectCallID task) in
  match pc with
  | RsGet succeeded =>
      let c := match read f (GetCall id (w_calls w)) with Ok c => Some c | Err _ => None end in
      (if succeeded then
         match ResultEnvelope task ≫= nullif_empty with
         | Some e => RsMark c (judge_envelope c (Some e))
         | None => RsEnvelope c
         end
       else RsMark c (MkFailed (failure_reason task)), w)
  | RsEnvelope c =>
      let envelope := match read f (GetByTaskID (ID task) (w_execs w)) with
                      | Ok x => x_Result x
                      | Err _ => None
                      end in
      (RsMark c (judge_envelope c envelope), w)
  | RsMark c m =>
      let '(r, tbl) := write f (w_calls w) (mark_call (d_dbnow d) id m (w_calls w)) in
      (match r, c with Ok _, Some c => RsAudit c m | _, _ => RsDone end, set_calls tbl w)
  | RsAudit c m =>
      (RsDone, audit f (mkAudit auditActionCPCResolve (CalleeProject c)
                          (AfterResolve c (mark_status m) (mark_message m))) w)
  | RsDone => (RsDone, w)
  end.

(** ** The timeout scanner *)

Definition cpcTimeoutScannerBatchSize : Z := 100.

(** One tick; [ScClaim] holds the ids of the statement's snapshot, and the rows a
    counter carries are those still to be processed. *)
Inductive ScanPC : Type :=
| ScTick (leader : bool)
| ScClaim (ids : list string)
| ScAudit (c : CrossProjectCall) (rest : list CrossProjectCall)
| ScCaller (c : CrossProjectCall) (rest : list CrossProjectCall)
| ScWake (c : CrossProjectCall) (rest : list CrossProjectCall)
| ScCallee (c : CrossProjectCall) (rest : list CrossProjectCall)
| ScCancel (c : CrossProjectCall) (rest : list CrossProjectCall)
| ScDone.

(** The loop over the claimed rows. *)
Definition next_claimed (rows : list CrossProjectCall) : ScanPC :=
  match rows with [] => ScDone | c :: rest => ScAudit c rest end.

Definition cascades (c : CrossProjectCall) : bool :=
  CancelOnTimeout c && is_some (CalleeTaskID c ≫= nullif_empty).

(** Where [processOne] goes once the caller has been dealt with. *)
Definition after_wake (c : CrossProjectCall) (rest : list CrossProjectCall) : ScanPC :=
  if cascades c then ScCallee c rest else next_claimed rest.

(** The statuses [cascadeCancelCallee] takes for terminal. *)
Definition cascade_done (s : TaskStatus) : bool :=
  bool_decide (s ∈ [TaskStatusCompleted; TaskStatusFailed; TaskStatusCancelled]).

Definition callee_of (c : CrossProjectCall) : string := default "" (CalleeTaskID c).

(** One statement of a tick. *)
Definition scan_turn (d : Draw) (pc : ScanPC) (w : World) : ScanPC * World :=
  let f := d_fault d in
  match pc with
  | ScTick leader =>
      (if leader && negb (refused f)
       then ScClaim (claim_ids (d_now d) cpcTimeoutScannerBatchSize (w_calls w))
       else ScDone, w)
  | ScClaim ids =>
      if refused f then (ScDone, w)
      else
        let '(rows, tbl) := claim_update (d_dbnow d) ids (w_calls w) in
        (if failed f then ScDone else next_claimed rows, set_calls tbl w)
  | ScAudit c rest =>
      (ScCaller c rest,
       audit f (mkAudit auditActionCPCResolve (CalleeProject c)
                  (AfterResolve c CPCStatusTimedOut (default "" (ErrorMessage c)))) w)
  | ScCaller c rest =>
      (match read f (Get (CallerTaskID c) (w_tasks w)) with
       | Ok t => if Status t =?? TaskStatusWaitingForChildren then ScWake c rest
                 else after_wake c rest
       | Err _ => after_wake c rest
       end, w)
  | ScWake c rest =>
      let '(_, tbl) := write f (w_tasks w)
        (UpdateStatus (d_dbnow d) (CallerTaskID c) TaskStatusQueued (w_tasks w)) in
      (after_wake c rest, set_tasks tbl w)
  | ScCallee c rest =>
      (match read f (Get (callee_of c) (w_tasks w)) with
       | Ok t => if cascade_done (Status t) then next_claimed rest else ScCancel c rest
       | Err _ => next_claimed rest
       end, w)
  | ScCancel c rest =>
      let '(_, tbl) := write f (w_tasks w)
        (UpdateStatus (d_dbnow d) (callee_of c) TaskStatusCancelled (w_tasks w)) in
      (next_claimed rest, set_tasks tbl w)
  | ScDone => (ScDone, w)
  end.

(** ** The administrator *)

(** [AdminCPCCancel] of an existing row. *)
Definition AdminCPCCancel (now : time) (id reason : string) (w : World) : World :=
  let reason := if TrimSpace reason =?? "" then "operator-cancelled via admin API"
                else TrimSpace reason in
  match GetCall id (w_calls w) with
  | Err _ => w
  | Ok c =>
      audit NoFault (mkAudit auditActionCPCAdminCancel (CalleeProject c) (AfterCancel c reason))
        (set_calls (AdminCancel now id reason (w_calls w)) w)
  end.

(** ** Goroutines *)

(** A step of a caller; a final handler up to its status write, its resolve hook, and
    its look at the parent; a tick of the scanner. *)
Inductive Go : Type :=
| GoCall (j : CallJob) (pc : CallPC)
| GoFinish (e : Ending) (task : Task) (pc : PC)
| GoResolve (e : Ending) (task : Task) (pc : ResolvePC)
| GoUnblock (u : Unblock)
| GoScan (pc : ScanPC).

Definition ended_well (e : Ending) : bool := match e with EndSuccess => true | _ => false end.

(** The struct of the task after the handler's write. *)
Definition ended_task (e : Ending) (t : Task) : Task :=
  match e with EndFailure msg cls => failed_task msg cls t | _ => t end.

Definition go_turn (d : Draw) (g : Go) (w : World) : Go * World :=
  match g with
  | GoCall j pc => let '(pc, w) := call_turn j d pc w in (GoCall j pc, w)
  | GoFinish e task pc =>
      let '(pc', tbl) := proc_step (d_dbnow d) (failed (d_fault d)) pc (w_tasks w) in
      (match pc, pc' with
       | PcWrite _ _, _ => GoResolve e (ended_task e task) (resolve (ended_task e task) (ended_well e))
       | _, PcWrite _ _ => GoFinish e task pc'
       | _, _ => GoUnblock UbDone
       end, set_tasks tbl w)
  | GoResolve e task RsDone => (GoUnblock (checkParentUnblock task), w)
  | GoResolve e task pc =>
      let '(pc, w) := resolve_turn task d pc w in (GoResolve e task pc, w)
  | GoUnblock u =>
      let '(u, tbl) := unblock_step (d_dbnow d) (failed (d_fault d)) u (w_tasks w) in
      (GoUnblock u, set_tasks tbl w)
  | GoScan pc => let '(pc, w) := scan_turn d pc w in (GoScan pc, w)
  end.

(** What happens in the daemons: a turn, a step or an end of a task as the repository
    returns it, a tick, an administrator, a call of another client of the task
    repository. *)
Inductive CallEvent : Type :=
| EvTurn (i : nat) (d : Draw)
| EvStep (id : string) (j : CallJob)
| EvFinish (id : string) (e : Ending)
| EvTick (leader : bool)
| EvAdmin (now : time) (id reason : string)
| EvRepo (cl : call).

Abbreviation CallSystem := (list Go * World)%type.

Definition call_step (ev : CallEvent) (s : CallSystem) : CallSystem :=
  let '(gos, w) := s in
  match ev with
  | EvTurn i d =>
      match gos !! i with
      | None => s
      | Some g => let '(g, w) := go_turn d g w in (<[i := g]> gos, w)
      end
  | EvStep id j =>
      match Get id (w_tasks w) with
      | Ok t => ((gos ++ [GoCall (j <| cj_task := t |>) CcStart])%list, w)
      | Err _ => s
      end
  | EvFinish id e =>
      match Get id (w_tasks w) with
      | Ok t => ((gos ++ [GoFinish e t (finalize e t)])%list, w)
      | Err _ => s
      end
  | EvTick leader => ((gos ++ [GoScan (ScTick leader)])%list, w)
  | EvAdmin now id reason => (gos, AdminCPCCancel now id reason w)
  | EvRepo cl => (gos, set_tasks (apply_call (w_tasks w) cl) w)
  end.

Definition run_system (evs : list CallEvent) (s : CallSystem) : CallSystem :=
  foldl (fun s ev => call_step ev s) s evs.

End Calls.
