(* ===== verification/CallFacts.v ===== *)
(** * The ledger and its goroutines: a resolved call stays resolved

    Lemmas on the rows of the ledger, what each statement of a goroutine does to
    them, and the finality of a resolution over every interleaving. *)
From S2P Require Import Prelude GoStrings TaskModel TaskRepo TaskRepoFacts TaskRepoSafety Workflow Gates.
From S2P Require Import ExecRepo Delegation CallRepo CallGates Interpolate CallProject.
Open Scope Z_scope.

#[local] Arguments CreateCall : simpl never.
#[local] Arguments write : simpl never.
#[local] Arguments claim_update : simpl never.

(** ** Rows of the ledger *)

Definition call_table_ok (tbl : CallTable) : Prop := NoDup (map cc_ID tbl).

(** The row with the primary key [id]. *)
Definition ledger (tbl : CallTable) (id : string) : option CrossProjectCall :=
  head (select_calls (call_by_id id) tbl).

Lemma ledger_cons c tbl id :
  ledger (c :: tbl) id = if cc_ID c =?? id then Some c else ledger tbl id.
Proof.
  unfold ledger, select_calls, call_by_id. rewrite filter_cons.
  case_decide as H; case_bool_decide as H'; done.
Qed.

Lemma ledger_Some_1 tbl id c : ledger tbl id = Some c -> c ∈ tbl /\ cc_ID c = id.
Proof.
  induction tbl as [|x tbl IH]; [done|]. rewrite ledger_cons. case_bool_decide as E.
  - intros [= ->]. by split; [left|].
  - intros [Hc ?]%IH. by split; [right|].
Qed.

Lemma ledger_Some tbl id c :
  call_table_ok tbl -> ledger tbl id = Some c <-> c ∈ tbl /\ cc_ID c = id.
Proof.
  intros Hok. split; [apply ledger_Some_1|].
  induction tbl as [|x tbl IH]; intros [Hc Hid]; [by apply not_elem_of_nil in Hc|].
  apply NoDup_cons in Hok as [Hx Hok]. rewrite ledger_cons. apply elem_of_cons in Hc as [->|Hc].
  - by rewrite bool_decide_true.
  - case_bool_decide as E; [|by apply IH]. exfalso. apply Hx. rewrite E, <- Hid.
    by apply list_elem_of_fmap_2.
Qed.

Lemma ledger_app tbl c id :
  ledger (tbl ++ [c]) id =
  match ledger tbl id with Some x => Some x | None => if cc_ID c =?? id then Some c else None end.
Proof.
  induction tbl as [|x tbl IH]; simpl; [apply ledger_cons|].
  rewrite !ledger_cons, IH. by destruct (cc_ID x =?? id).
Qed.

Lemma ledger_None tbl id : ledger tbl id = None <-> id ∉ map cc_ID tbl.
Proof.
  induction tbl as [|x tbl IH]; simpl; [split; [intros _ []%not_elem_of_nil|done]|].
  rewrite ledger_cons, not_elem_of_cons, <- IH. case_bool_decide; naive_solver.
Qed.

Lemma GetCall_ledger id tbl :
  GetCall id tbl = match ledger tbl id with Some c => Ok c | None => Err ErrNotFound end.
Proof. unfold GetCall, ledger, scanCall. by destruct (select_calls _ tbl). Qed.

(** *** Updates *)

Lemma elem_of_select_calls p tbl c : c ∈ select_calls p tbl <-> p c = true /\ c ∈ tbl.
Proof. unfold select_calls. by rewrite list_elem_of_filter. Qed.

Section Update.
Context (p : CrossProjectCall -> bool) (f : CrossProjectCall -> CrossProjectCall).
Context (Hf : forall c, cc_ID (f c) = cc_ID c).

Lemma update_calls_ids tbl : map cc_ID (update_calls p f tbl) = map cc_ID tbl.
Proof.
  unfold update_calls. rewrite map_map. apply map_ext. intros c. by destruct (p c); simpl.
Qed.

Lemma update_calls_ok tbl : call_table_ok tbl -> call_table_ok (update_calls p f tbl).
Proof. unfold call_table_ok. by rewrite update_calls_ids. Qed.

Lemma ledger_update tbl id :
  ledger (update_calls p f tbl) id = (fun c => if p c then f c else c) <$> ledger tbl id.
Proof.
  induction tbl as [|c tbl IH]; [done|]. change (update_calls p f (c :: tbl)) with
    ((if p c then f c else c) :: update_calls p f tbl).
  rewrite !ledger_cons, IH. destruct (p c) eqn:E; rewrite ?Hf; case_bool_decide; simpl; by rewrite ?E.
Qed.
End Update.

Lemma unresolved_spec c : unresolved c = true <-> IsTerminal (cc_Status c) = false.
Proof. unfold unresolved. by rewrite negb_true_iff. Qed.

Lemma overdue_unresolved `{pg : Postgres} now c : overdue now c = true -> unresolved c = true.
Proof.
  unfold overdue, unresolved, IsTerminal. by destruct (cc_Status c).
Qed.

(** Who a snapshot claims. *)
Lemma elem_of_claim_ids `{pg : Postgres} now limit tbl id :
  id ∈ claim_ids now limit tbl -> exists c, c ∈ tbl /\ cc_ID c = id /\ overdue now c = true.
Proof.
  unfold claim_ids. intros (c & -> & Hc)%list_elem_of_fmap.
  apply (sublist_elem_of' _ _ _ (sublist_take _ _)) in Hc.
  rewrite elem_of_order_by, elem_of_select_calls in Hc. destruct Hc. by exists c.
Qed.

Lemma claim_ids_open `{pg : Postgres} now limit tbl id c :
  call_table_ok tbl -> ledger tbl id = Some c -> id ∈ claim_ids now limit tbl ->
  unresolved c = true.
Proof.
  intros Hok Hc (c' & Hin & Hid & Ho)%elem_of_claim_ids.
  assert (ledger tbl id = Some c') as E by (by apply ledger_Some).
  rewrite Hc in E. injection E as ->. by eapply overdue_unresolved.
Qed.

(** ** What a statement does to the ledger *)

(** The parts of a row that a resolution fixes. *)
Definition verdict (c : CrossProjectCall) :
    CrossProjectCallStatus * option string * option string * option time :=
  (cc_Status c, cc_ResultEnvelope c, ErrorMessage c, ResolvedAt c).

(** The caller's side of a row, written once. *)
Definition call_origin (c : CrossProjectCall) : string * string * string * string * string * bool :=
  (CallerTaskID c, CallerStepID c, CallerProject c, CalleeProject c, CalleeWorkflow c,
   CancelOnTimeout c).

(** The shape of every statement on the ledger: a new row, or an update that keeps the
    keys and the origin of the rows and, outside the ids [stale], the verdict of a resolved
    row. *)
Inductive ledger_effect (stale : list string) (tbl : CallTable) : CallTable -> Prop :=
| le_same : ledger_effect stale tbl tbl
| le_insert c : ledger tbl (cc_ID c) = None -> ledger_effect stale tbl (tbl ++ [c])
| le_update p f :
    (forall c, cc_ID (f c) = cc_ID c) -> (forall c, call_origin (f c) = call_origin c) ->
    (forall c, p c = true -> unresolved c = true \/ cc_ID c ∈ stale \/ verdict (f c) = verdict c) ->
    ledger_effect stale tbl (update_calls p f tbl).

Section Effects.
Context `{pg : Postgres} {JN : JsonNumbers} {JA : JsonAny} {EC : EnvelopeCodec} {CP : CallPayload}.
Context (cfg : CallConfig).

Lemma ledger_effect_ok stale tbl tbl' :
  ledger_effect stale tbl tbl' -> call_table_ok tbl -> call_table_ok tbl'.
Proof.
  intros [|c Hn|p f Hf _ _] Hok; [done| |by apply update_calls_ok].
  unfold call_table_ok. rewrite map_app, NoDup_app. split_and!; [done| |apply NoDup_singleton].
  intros id Hid ->%list_elem_of_singleton. by apply ledger_None in Hn.
Qed.

(** A resolved row outside [stale] keeps its verdict. *)
Lemma ledger_effect_final stale tbl tbl' id c :
  ledger_effect stale tbl tbl' -> ledger tbl id = Some c -> id ∉ stale ->
  unresolved c = false ->
  exists c', ledger tbl' id = Some c' /\ verdict c' = verdict c /\ unresolved c' = false.
Proof.
  intros [|x Hn|p f Hf _ Hv] Hc Hs Hu; [by exists c|by exists c; rewrite ledger_app, Hc|].
  rewrite ledger_update, Hc by done. simpl. eexists. split; [done|].
  destruct (p c) eqn:E; [|done]. apply ledger_Some_1 in Hc as [_ Hid].
  destruct (Hv c E) as [?|[?|Hvf]]; [congruence|by subst|].
  split; [done|]. injection Hvf as Es _ _ _. unfold unresolved in *. by rewrite Es.
Qed.

Lemma open_call_effect stale tbl id f :
  (forall c, cc_ID (f c) = cc_ID c) -> (forall c, call_origin (f c) = call_origin c) ->
  ledger_effect stale tbl (update_calls (open_call id) f tbl).
Proof. intros. apply le_update; [done|done|]. intros c [_ Hu]%andb_true_iff. by left. Qed.

Lemma CreateCall_effect now newID c tbl r :
  CreateCall now newID c tbl = Ok r -> ledger_effect [] tbl r.2.
Proof.
  unfold CreateCall, with_binds. destruct c as [c|]; [|done]. intros E.
  apply res_bind_ok in E as (tbl' & E & [= <-]). simpl.
  destruct (bind_errors _); [done|]. destruct (is_none _); [done|].
  case_bool_decide as Hid; [done|]. injection E as <-.
  apply le_insert. by apply ledger_None.
Qed.

Lemma SetCalleeTaskID_effect id callee tbl tbl' :
  SetCalleeTaskID id callee tbl = Ok tbl' -> ledger_effect [] tbl tbl'.
Proof.
  unfold SetCalleeTaskID. intros E. repeat case_match; try done. injection E as <-.
  apply le_update; [done|done|]. intros. by right; right.
Qed.

Lemma mark_call_effect now id m tbl tbl' :
  mark_call now id m tbl = Ok tbl' -> ledger_effect [] tbl tbl'.
Proof.
  destruct m; simpl; [intros [= <-]; by apply open_call_effect..|].
  unfold MarkCompleted, with_binds. destruct (bind_errors _); [done|]. intros [= <-].
  by apply open_call_effect.
Qed.

Lemma claim_update_effect dbnow ids tbl : ledger_effect ids tbl (claim_update dbnow ids tbl).2.
Proof. apply le_update; [done|done|]. intros c H%bool_decide_eq_true. by right; left. Qed.

(** [write]: the state is kept, or it is the statement's. *)
Lemma write_cases {A} (f : Fault) (s : A) r :
  (write f s r).2 = s \/ r = Ok (write f s r).2.
Proof. unfold write. destruct (refused f); [by left|]. destruct r; [by right|by left]. Qed.

Lemma write_effect stale f tbl r :
  (forall tbl', r = Ok tbl' -> ledger_effect stale tbl tbl') ->
  ledger_effect stale tbl (write f tbl r).2.
Proof. intros H. destruct (write_cases f tbl r) as [->|E]; [constructor|by apply H]. Qed.

Lemma audit_calls f e w : w_calls (audit f e w) = w_calls w.
Proof. unfold audit. by destruct (refused f). Qed.

(** The ids a goroutine holds from the snapshot of its claim. *)
Definition held (g : Go) : list string :=
  match g with GoScan (ScClaim ids) => ids | _ => [] end.

Lemma call_turn_effect j d pc w : ledger_effect [] (w_calls w) (w_calls (call_turn cfg j d pc w).2).
Proof.
  destruct pc; simpl; try (rewrite ?audit_calls; by constructor).
  - destruct (refused _); [constructor|].
    destruct (CreateCall _ _ _ _) as [[c tbl]|e] eqn:E; [|constructor].
    by apply CreateCall_effect in E.
  - destruct (write _ _ _) as [r tbl]. constructor.
  - pose proof (write_effect [] (d_fault d) (w_calls w)
      (Ok (MarkRejected (d_dbnow d) (cc_ID c)
             ("callee task creation failed: " +:+ cfg_errText cfg e) (w_calls w)))) as H.
    destruct (write _ _ _) as [r tbl]. apply H. intros tbl' [= <-]. by apply open_call_effect.
  - pose proof (write_effect [] (d_fault d) (w_calls w)
      (SetCalleeTaskID (cc_ID c) calleeTaskID (w_calls w))) as H.
    destruct (write _ _ _) as [r tbl]. apply H, SetCalleeTaskID_effect.
  - destruct (write _ _ _) as [res tbl]. constructor.
  - destruct (write _ _ _) as [res tbl]. constructor.
  - destruct (write _ _ _) as [res tbl]. constructor.
  - destruct u; try (destruct (unblock_step _ _ _ _)); constructor.
Qed.

Lemma resolve_turn_effect task d pc w :
  ledger_effect [] (w_calls w) (w_calls (resolve_turn cfg task d pc w).2).
Proof.
  destruct pc; simpl; try (rewrite ?audit_calls; by constructor).
  pose proof (write_effect [] (d_fault d) (w_calls w)
    (mark_call (d_dbnow d) (default "" (CrossProjectCallID task)) m (w_calls w))) as H.
  destruct (write _ _ _) as [r tbl]. apply H, mark_call_effect.
Qed.

Lemma scan_turn_effect d pc w :
  ledger_effect (held (GoScan pc)) (w_calls w) (w_calls (scan_turn d pc w).2).
Proof.
  destruct pc; simpl; try (rewrite ?audit_calls; by constructor).
  - destruct (refused _); [constructor|]. apply claim_update_effect.
  - destruct (write _ _ _). constructor.
  - destruct (write _ _ _). constructor.
Qed.

Lemma go_turn_effect d g w : ledger_effect (held g) (w_calls w) (w_calls (go_turn cfg d g w).2).
Proof.
  destruct g as [j pc|e task pc|e task pc|u|pc]; simpl.
  - pose proof (call_turn_effect j d pc w). by destruct (call_turn _ _ _ _ _).
  - destruct (proc_step _ _ _ _). constructor.
  - destruct pc; try constructor;
      match goal with |- context [resolve_turn _ ?t ?d ?p ?w] =>
        pose proof (resolve_turn_effect t d p w); by destruct (resolve_turn _ _ _ _ _) end.
  - destruct (unblock_step _ _ _ _). constructor.
  - pose proof (scan_turn_effect d pc w). by destruct (scan_turn _ _ _).
Qed.

Lemma next_claimed_held rows : held (GoScan (next_claimed rows)) = [].
Proof. by destruct rows. Qed.

Lemma after_wake_held c rest : held (GoScan (after_wake c rest)) = [].
Proof. unfold after_wake. destruct (cascades c); [done|apply next_claimed_held]. Qed.

Lemma scan_turn_held d pc w :
  held (GoScan (scan_turn d pc w).1) =
  match pc with
  | ScTick leader => if leader && negb (refused (d_fault d))
                     then claim_ids (d_now d) cpcTimeoutScannerBatchSize (w_calls w) else []
  | _ => []
  end.
Proof.
  destruct pc; simpl; try done.
  - by destruct (_ && _).
  - destruct (refused _); [done|]. cbn [fst].
    destruct (failed _); [done|apply next_claimed_held].
  - destruct (read _ _); [|apply after_wake_held].
    case_bool_decide; [done|apply after_wake_held].
  - destruct (write _ _ _). apply after_wake_held.
  - destruct (read _ _); [|apply next_claimed_held].
    destruct (cascade_done _); [apply next_claimed_held|done].
  - destruct (write _ _ _). apply next_claimed_held.
Qed.

(** A turn keeps no snapshot but the one it takes. *)
Lemma go_turn_held d g w id :
  id ∈ held (go_turn cfg d g w).1 ->
  exists now, id ∈ claim_ids now cpcTimeoutScannerBatchSize (w_calls w).
Proof.
  destruct g as [j pc|e task pc|e task pc|u|pc]; simpl.
  - destruct (call_turn _ _ _ _ _). by intros ?%not_elem_of_nil.
  - destruct (proc_step _ _ _ _). destruct pc; repeat case_match; by intros ?%not_elem_of_nil.
  - destruct pc; try (by intros ?%not_elem_of_nil);
      destruct (resolve_turn _ _ _ _ _); by intros ?%not_elem_of_nil.
  - destruct (unblock_step _ _ _ _). by intros ?%not_elem_of_nil.
  - pose proof (scan_turn_held d pc w) as H. destruct (scan_turn d pc w) as [pc' w'].
    simpl in *. rewrite H. destruct pc; try (by intros ?%not_elem_of_nil).
    destruct (_ && _); [eauto|by intros ?%not_elem_of_nil].
Qed.

(** ** Finality *)

(** No claim under way has [id] in its snapshot. *)
Definition unclaimed (id : string) (gos : list Go) : Prop :=
  forall g, g ∈ gos -> id ∉ held g.

Lemma AdminCPCCancel_effect now id reason w :
  ledger_effect [] (w_calls w) (w_calls (AdminCPCCancel now id reason w)).
Proof.
  unfold AdminCPCCancel. destruct (GetCall _ _); [|constructor]. simpl.
  by apply open_call_effect.
Qed.

Lemma call_step_final ev gos w id c gos' w' :
  call_step cfg ev (gos, w) = (gos', w') ->
  call_table_ok (w_calls w) -> ledger (w_calls w) id = Some c -> unresolved c = false ->
  unclaimed id gos ->
  call_table_ok (w_calls w') /\ unclaimed id gos' /\
  exists c', ledger (w_calls w') id = Some c' /\ verdict c' = verdict c /\ unresolved c' = false.
Proof.
  intros Es Hok Hc Hu Hun. enough (H :
    call_table_ok (w_calls (call_step cfg ev (gos, w)).2) /\
    unclaimed id (call_step cfg ev (gos, w)).1 /\
    exists c', ledger (w_calls (call_step cfg ev (gos, w)).2) id = Some c' /\
      verdict c' = verdict c /\ unresolved c' = false) by (by rewrite Es in H).
  clear Es gos' w'. destruct ev as [i d|sid j|fid e|leader|now aid reason|cl]; simpl.
  - destruct (gos !! i) as [g|] eqn:Eg; [|by eauto 10].
    assert (Hg : id ∉ held g) by (apply Hun; by eapply list_elem_of_lookup_2).
    pose proof (go_turn_effect d g w) as He. pose proof (go_turn_held d g w id) as Hh.
    destruct (go_turn cfg d g w) as [g' w']. simpl in *. split_and!.
    + by eapply ledger_effect_ok.
    + intros g1 [j Hj]%list_elem_of_lookup_1.
      apply list_lookup_insert_Some in Hj as [(-> & -> & _)|[_ Hj]].
      * intros [now Hn]%Hh. by rewrite (claim_ids_open _ _ _ _ _ Hok Hc Hn) in Hu.
      * apply Hun. by eapply list_elem_of_lookup_2.
    + by eapply ledger_effect_final.
  - destruct (Get sid _); [|by eauto 10]. simpl. split_and!; [done| |by eauto].
    intros g [Hg| ->%list_elem_of_singleton]%elem_of_app; [by apply Hun|apply not_elem_of_nil].
  - destruct (Get fid _); [|by eauto 10]. simpl. split_and!; [done| |by eauto].
    intros g [Hg| ->%list_elem_of_singleton]%elem_of_app; [by apply Hun|apply not_elem_of_nil].
  - split_and!; [done| |by eauto].
    intros g [Hg| ->%list_elem_of_singleton]%elem_of_app; [by apply Hun|apply not_elem_of_nil].
  - pose proof (AdminCPCCancel_effect now aid reason w) as He.
    split_and!; [by eapply ledger_effect_ok|done|].
    eapply ledger_effect_final; [done|done|apply not_elem_of_nil|done].
  - by eauto 10.
Qed.

End Effects.

(** C21: a resolution is final.  Once a call is resolved - completed, failed, rejected
    or timed out - no interleaving of steps, resolve hooks, ticks of any number of
    scanners, administrators and other clients, with any faults, changes its status,
    envelope, message or resolution time again, provided that no scanner had the row in
    the snapshot of a claim under way when the call was resolved. *)
Theorem resolution_final `{pg : Postgres} {JN : JsonNumbers} {JA : JsonAny} {EC : EnvelopeCodec}
    {CP : CallPayload} cfg evs gos w id c :
  call_table_ok (w_calls w) -> ledger (w_calls w) id = Some c ->
  IsTerminal (cc_Status c) = true -> unclaimed id gos ->
  exists c', ledger (w_calls (run_system cfg evs (gos, w)).2) id = Some c' /\ verdict c' = verdict c.
Proof.
  intros Hok Hc Ht Hun. assert (Hu : unresolved c = false) by (unfold unresolved; by rewrite Ht).
  clear Ht. revert gos w c Hok Hc Hu Hun.
  induction evs as [|ev evs IH]; intros gos w c Hok Hc Hu Hun; [by exists c|].
  change (run_system cfg (ev :: evs) (gos, w)) with (run_system cfg evs (call_step cfg ev (gos, w))).
  destruct (call_step cfg ev (gos, w)) as [gos' w'] eqn:Es.
  destruct (call_step_final cfg ev gos w id c gos' w' Es Hok Hc Hu Hun)
    as (Hok' & Hun' & c' & Hc' & Hv & Hu'). rewrite <- Hv.
  by apply (IH gos' w' c').
Qed.
