(* ===== verification/CallRuns.v ===== *)
(** * Admission of cross-project calls

    A step of a caller runs against a world that every other goroutine may have
    changed between two of its statements: what holds of the calls it makes all the
    same.  The gates are passed, no ancestor's project is called, chains of calls are
    bounded, and no callee ever resolves a call. *)
From S2P Require Import Prelude GoStrings TaskModel TaskRepo TaskRepoFacts TaskRepoSafety Workflow Gates.
From S2P Require Import ExecRepo Delegation CallRepo CallGates Interpolate CallProject CallFacts.
Open Scope list_scope.
Open Scope Z_scope.

#[local] Arguments walk_on : simpl never.
#[local] Arguments walk_get : simpl never.
#[local] Arguments after_walk : simpl never.
#[local] Arguments write : simpl never.
#[local] Arguments CreateCall : simpl never.
#[local] Arguments lineageWalkHardLimit : simpl never.

(** ** Paths of projects *)

(** The number of times the project changes along a path. *)
Fixpoint changes (path : list string) : Z :=
  match path with
  | p :: (q :: _) as rest => (if q =?? p then 0 else 1) + changes rest
  | _ => 0
  end.

Lemma changes_cons p q path : changes (p :: q :: path) = (if q =?? p then 0 else 1) + changes (q :: path).
Proof. done. Qed.

Lemma changes_snoc path p q :
  changes ((path ++ [p]) ++ [q]) = changes (path ++ [p]) + (if q =?? p then 0 else 1).
Proof.
  induction path as [|x path IH]; simpl; [case_bool_decide; lia|].
  destruct path as [|y path]; simpl in *; [|rewrite IH]; repeat case_bool_decide; lia.
Qed.

Lemma changes_nonneg path : 0 <= changes path.
Proof.
  induction path as [|p path IH]; [done|]. destruct path; [done|]. rewrite changes_cons.
  case_bool_decide; lia.
Qed.

(** What the walk reads of a task: its project and its parent. *)
Definition kin (tbl : Table) (id : string) : option (string * option string) :=
  (fun t => (ProjectID t, ParentTaskID t)) <$> row tbl id.

(** The projects of the ancestors, [n] at most, from the parent upwards. *)
Fixpoint projects_above (n : nat) (k : string -> option (string * option string))
    (parent : option string) : list string :=
  match n, parent with
  | S n, Some pid =>
      if pid =?? ""%string then []
      else match k pid with
           | Some (project, up) => project :: projects_above n k up
           | None => []
           end
  | _, _ => []
  end.

(** The projects on the lineage of a task, its own first. *)
Definition lineage_projects (tbl : Table) (t : Task) : list string :=
  ProjectID t :: projects_above lineageWalkHardLimit (kin tbl) (ParentTaskID t).

(** What the walk has found is right so far. *)
Record lineage_ok (info : lineageInfo) (cursor : Task) : Prop := {
  lk_path : exists l, LineagePath info = l ++ [ProjectID cursor];
  lk_set : AncestorProjects info = list_to_set (LineagePath info);
  lk_depth : Depth info = changes (LineagePath info)
}.

Lemma start_lineage_ok t : lineage_ok (start_lineage t) t.
Proof. split; simpl; [by exists []|set_solver|done]. Qed.

Lemma add_ancestor_ok info cursor parent :
  lineage_ok info cursor -> lineage_ok (add_ancestor cursor parent info) parent.
Proof.
  intros [[l El] Hs Hd]. split; simpl.
  - by exists (LineagePath info).
  - rewrite Hs, list_to_set_app_L. set_solver.
  - rewrite Hd, El, changes_snoc. case_bool_decide; lia.
Qed.

Section Step.
Context `{pg : Postgres} {JN : JsonNumbers} {JA : JsonAny} {EC : EnvelopeCodec} {CP : CallPayload}.
Context (cfg : CallConfig).

(** The points a step may reach when the worlds its statements meet satisfy [P]. *)
Definition call_reach (P : World -> Prop) (j : CallJob) : CallPC -> Prop :=
  rtc (fun p q => exists d w, P w /\ q = (call_turn cfg j d p w).1) CcStart.

(** The lineage behind an admitted call. *)
Definition admitted_with (pc : CallPC) : option lineageInfo :=
  match pc with CcCreate info _ | CcInsert info _ _ => Some info | _ => None end.

(** The guards an admitted call has passed. *)
Definition admitted (j : CallJob) (info : lineageInfo) : Prop :=
  gate cfg j = None /\ proposedDepth (cj_task j) info <= depth_cap cfg (cj_task j) /\
  target j ∉ AncestorProjects info.

(** The path found so far, and what is left of the lineage. *)
Definition on_path (tbl : Table) (t : Task) (info : lineageInfo) (rest : list string) : Prop :=
  LineagePath info ++ rest = lineage_projects tbl t.

(** What holds at each point of a step, [k] being the kin relation of the worlds. *)
Definition step_inv (j : CallJob) (k : string -> option (string * option string)) (pc : CallPC) :
    Prop :=
  let whole := ProjectID (cj_task j) ::
               projects_above lineageWalkHardLimit k (ParentTaskID (cj_task j)) in
  match pc with
  | CcStart => True
  | CcWalk cursor hops info =>
      gate cfg j = None /\ lineage_ok info cursor /\
      LineagePath info ++ projects_above hops k (ParentTaskID cursor) = whole
  | CcCreate info payload =>
      admitted j info /\ (exists cursor, lineage_ok info cursor) /\ LineagePath info = whole /\
      marshal_any (interpolateOutputs (JObj (cj_payload j)) (cj_results j)) = Some payload
  | CcInsert info payload _ =>
      admitted j info /\ (exists cursor, lineage_ok info cursor) /\ LineagePath info = whole /\
      marshal_any (interpolateOutputs (JObj (cj_payload j)) (cj_results j)) = Some payload
  | _ => True
  end.

Lemma after_walk_inv j k info cursor :
  gate cfg j = None -> lineage_ok info cursor ->
  LineagePath info = ProjectID (cj_task j) ::
    projects_above lineageWalkHardLimit k (ParentTaskID (cj_task j)) ->
  step_inv j k (after_walk cfg j info).
Proof.
  intros Hg Hl Hp. unfold after_walk.
  destruct (Z.ltb_spec (depth_cap cfg (cj_task j)) (proposedDepth (cj_task j) info)); [done|].
  case_bool_decide; [done|]. destruct (marshal_any _) as [payload|] eqn:Em; [|done].
  simpl. split_and!; try done. by exists cursor.
Qed.

Lemma truncated_ok info cursor : lineage_ok info cursor -> lineage_ok (info <| Truncated := true |>) cursor.
Proof. intros [? ? ?]. by split. Qed.

Lemma walk_on_inv j k cursor hops info :
  gate cfg j = None -> lineage_ok info cursor ->
  LineagePath info ++ projects_above hops k (ParentTaskID cursor) = ProjectID (cj_task j) ::
    projects_above lineageWalkHardLimit k (ParentTaskID (cj_task j)) ->
  step_inv j k (walk_on cfg j cursor hops info).
Proof.
  intros Hg Hl Hp. unfold walk_on, lineage_parent. destruct hops as [|hops].
  - simpl in Hp. rewrite app_nil_r in Hp.
    apply (after_walk_inv _ _ _ cursor); [done|by apply truncated_ok|done].
  - destruct (ParentTaskID cursor) as [pid|] eqn:Ep; simpl in Hp.
    + case_bool_decide as Ee.
      * rewrite app_nil_r in Hp. by apply (after_walk_inv _ _ _ cursor).
      * simpl. split_and!; try done. rewrite Ep. simpl. by rewrite bool_decide_false.
    + rewrite app_nil_r in Hp. by apply (after_walk_inv _ _ _ cursor).
Qed.

Lemma walk_get_inv j k cursor hops info f tbl :
  (forall id, kin tbl id = k id) -> gate cfg j = None -> lineage_ok info cursor ->
  LineagePath info ++ projects_above hops k (ParentTaskID cursor) = ProjectID (cj_task j) ::
    projects_above lineageWalkHardLimit k (ParentTaskID (cj_task j)) ->
  step_inv j k (walk_get cfg j cursor hops info f tbl).
Proof.
  intros Hk Hg Hl Hp. unfold walk_get. destruct hops as [|hops]; [by apply walk_on_inv|].
  destruct (lineage_parent cursor) as [pid|] eqn:Ep; [|by apply walk_on_inv].
  unfold lineage_parent in Ep. destruct (ParentTaskID cursor) as [q|] eqn:Eq; [|done].
  case_bool_decide as Ee; [done|]. injection Ep as ->. simpl in Hp.
  rewrite bool_decide_false in Hp by done. unfold read. destruct (failed f); [done|].
  rewrite Get_row. rewrite <- Hk in Hp. unfold kin in Hp.
  destruct (row tbl pid) as [parent|] eqn:Er; simpl in *.
  - apply walk_on_inv; [done|by apply add_ancestor_ok|]. simpl. rewrite <- app_assoc. simpl. by rewrite <- Hp.
  - rewrite app_nil_r in Hp. by apply (after_walk_inv _ _ _ cursor).
Qed.
Lemma call_turn_inv j k d pc w :
  (forall id, kin (w_tasks w) id = k id) -> step_inv j k pc ->
  step_inv j k (call_turn cfg j d pc w).1.
Proof.
  intros Hk Hi. destruct pc; simpl in *; try done.
  - destruct (gate cfg j) eqn:Eg; [done|].
    apply walk_on_inv; [done|apply start_lineage_ok|done].
  - destruct Hi as (Hg & Hl & Hp). by apply walk_get_inv.
  - destruct (if refused _ then _ else _) as [[c tbl]|e]; [|done]. simpl.
    by destruct (failed _).
  - destruct (write _ _ _) as [[?|?] ?]; done.
  - by destruct (write _ _ _).
  - by destruct (write _ _ _).
  - destruct (write _ _ _) as [[?|?] ?]; done.
  - by destruct (write _ _ _).
  - by destruct (write _ _ _).
  - destruct u; try done; by destruct (unblock_step _ _ _ _).
Qed.

Lemma call_reach_inv P j k pc :
  (forall w, P w -> forall id, kin (w_tasks w) id = k id) -> call_reach P j pc -> step_inv j k pc.
Proof.
  intros HP. apply (rtc_ind_r (step_inv j k)); [done|].
  intros p q _ (d & w & Hw & ->) Hp. apply call_turn_inv; [by apply HP|done].
Qed.

(** Whatever the interference, a call that is made has passed the guards. *)
Lemma admitted_turn j d pc w :
  (forall info, admitted_with pc = Some info -> admitted j info) ->
  (forall cursor hops info, pc = CcWalk cursor hops info -> gate cfg j = None) ->
  (forall info, admitted_with (call_turn cfg j d pc w).1 = Some info -> admitted j info) /\
  (forall cursor hops info, (call_turn cfg j d pc w).1 = CcWalk cursor hops info ->
     gate cfg j = None).
Proof.
  intros Ha Hw.
  assert (Haw : gate cfg j = None -> forall i info,
    admitted_with (after_walk cfg j i) = Some info -> admitted j info).
  { intros Hg i info. unfold after_walk.
    destruct (Z.ltb_spec (depth_cap cfg (cj_task j)) (proposedDepth (cj_task j) i)); [done|].
    case_bool_decide; [done|]. destruct (marshal_any _); [|done]. by intros [= <-]. }
  assert (Hon : gate cfg j = None -> forall cursor hops i info,
    admitted_with (walk_on cfg j cursor hops i) = Some info -> admitted j info).
  { intros Hg cursor hops i info. unfold walk_on.
    destruct hops, (lineage_parent cursor); try done; by apply Haw. }
  assert (Hget : gate cfg j = None -> forall cursor hops i f tbl info,
    admitted_with (walk_get cfg j cursor hops i f tbl) = Some info -> admitted j info).
  { intros Hg cursor hops i f tbl info. unfold walk_get.
    destruct hops as [|hops]; [by apply Hon|]. destruct (lineage_parent cursor); [|by apply Hon].
    destruct (lineage_get _ _ _ _); [by apply Haw|by apply Hon|done]. }
  destruct pc; simpl in *; try (by split; intros; eauto).
  - destruct (gate cfg j) eqn:Eg; [done|]. split; [by apply Hon|done].
  - destruct (if refused _ then _ else _) as [[c tbl]|e]; simpl; [|done].
    destruct (failed _); [done|]. split; [|done]. intros i [= <-]. by apply Ha.
  - destruct (write _ _ _) as [[?|?] ?]; done.
  - by destruct (write _ _ _).
  - by destruct (write _ _ _).
  - destruct (write _ _ _) as [[?|?] ?]; done.
  - by destruct (write _ _ _).
  - by destruct (write _ _ _).
  - destruct u; try done; by destruct (unblock_step _ _ _ _).
Qed.

Lemma call_reach_admitted P j pc info :
  call_reach P j pc -> admitted_with pc = Some info -> admitted j info.
Proof.
  intros H. revert info. apply (rtc_ind_r (fun pc =>
    (forall info, admitted_with pc = Some info -> admitted j info) /\
    (forall cursor hops info, pc = CcWalk cursor hops info -> gate cfg j = None))) in H;
    [by apply H|by split|].
  intros p q _ (d & w & _ & ->) [H1 H2]. by apply admitted_turn.
Qed.

(** The gates, spelled out. *)
Lemma gate_spec j :
  gate cfg j = None ->
  interProjectEnabled (cfg_env cfg) = true /\ cfg_cpcRepo cfg = true /\
  (exists callee, cfg_projects cfg !! target j = Some callee /\
     AcceptsCallsFrom callee (ProjectID (cj_task j)) = true) /\
  (forall p, cfg_projects cfg !! ProjectID (cj_task j) = Some p -> CanCall p (target j) = true).
Proof.
  unfold gate. intros H. destruct (_ && _) eqn:E in H; [|done]. apply andb_true_iff in E as [? ?].
  destruct (cfg_projects cfg !! target j) as [callee|]; [|done].
  destruct (match cfg_projects cfg !! ProjectID (cj_task j) with
            | Some p => negb (CanCall p (target j)) | None => false end) eqn:Ec; [done|].
  destruct (negb (AcceptsCallsFrom callee (ProjectID (cj_task j)))) eqn:Ea; [done|].
  apply negb_false_iff in Ea. split_and!; eauto. intros p Ep. rewrite Ep in Ec.
  by apply negb_false_iff in Ec.
Qed.

End Step.

(** C8: a cross-project call is only made where both sides allow it and never back
    into its own lineage: whatever other goroutines write meanwhile, as long as they
    leave the parents and projects of the tasks alone, when a step reaches the
    insertion of the callee's task the feature is on, the callee's project is
    registered and accepts calls from the caller's, the caller's may call it, no
    ancestor of the task (up to 256) nor the task itself belongs to it, and the number
    of hops between projects, this one included, is within the cap. *)
Theorem call_respects_lineage `{pg : Postgres} {JN : JsonNumbers} {JA : JsonAny}
    {EC : EnvelopeCodec} {CP : CallPayload} cfg j tbl info payload c :
  call_reach cfg (fun w => forall id, kin (w_tasks w) id = kin tbl id) j (CcInsert info payload c) ->
  interProjectEnabled (cfg_env cfg) = true /\
  (exists callee, cfg_projects cfg !! target j = Some callee /\
     AcceptsCallsFrom callee (ProjectID (cj_task j)) = true) /\
  (forall p, cfg_projects cfg !! ProjectID (cj_task j) = Some p -> CanCall p (target j) = true) /\
  (target j ∉ lineage_projects tbl (cj_task j)) /\
  changes (lineage_projects tbl (cj_task j)) + 1 <= depth_cap cfg (cj_task j) /\
  readCarriedCallDepth (cj_task j) + 1 <= depth_cap cfg (cj_task j).
Proof.
  intros H. pose proof (call_reach_inv cfg _ j (kin tbl) _ (fun _ h => h) H) as Hi.
  destruct Hi as ((Hg & Hd & Hn) & (cursor & [_ Hs Hdep]) & Hp & _).
  fold (lineage_projects tbl (cj_task j)) in Hp.
  apply gate_spec in Hg as (? & _ & ? & ?).
  rewrite Hs, elem_of_list_to_set, Hp in Hn. rewrite Hp in Hdep.
  unfold proposedDepth, callerDepth in Hd. rewrite Hdep in Hd.
  split_and!; try done; destruct (Z.ltb_spec (changes (lineage_projects tbl (cj_task j)))
    (readCarriedCallDepth (cj_task j))); lia.
Qed.

(** ** Chains of calls *)

(** A decoder reads the depth the encoder wrote, also after the server has stored
    the text. *)
Class CallPayloadStable `{Postgres, JsonNumbers, !JsonAny, !CallPayload} : Prop :=
  callee_header v raw d : marshal_any v = Some raw -> 0 <= d < 2 ^ 53 ->
    exists s, marshal_callee raw d = Some s /\
      forall x, jsonb_in s = Some x -> x <> ""%string /\ unmarshal_callDepth x = Some d.

(** Tasks each of which was called by the one before, whatever was written between
    the statements of the calls; of the stored row the payload matters. *)
Inductive call_chain `{pg : Postgres} {JN : JsonNumbers} {JA : JsonAny} {EC : EnvelopeCodec}
    {CP : CallPayload} (cfg : CallConfig) : Task -> list Task -> Prop :=
| chain_nil t : call_chain cfg t []
| chain_call j info payload c id now t' x ts :
    call_reach cfg (fun _ => True) j (CcInsert info payload c) ->
    Payload (callee_task j info payload c id now) ≫= jsonb_in = Some x ->
    Payload t' = Some x -> call_chain cfg t' ts ->
    call_chain cfg (cj_task j) (t' :: ts).

Lemma carried_nonneg `{CallPayload} t : 0 <= readCarriedCallDepth t.
Proof.
  unfold readCarriedCallDepth. repeat case_match; btauto_hyps; lia.
Qed.

Lemma carried_below_caller `{CallPayload} t info : readCarriedCallDepth t <= callerDepth t info.
Proof.
  unfold callerDepth. destruct (Z.ltb_spec (Depth info) (readCarriedCallDepth t)); lia.
Qed.

Lemma call_reach_payload `{pg : Postgres} {JN : JsonNumbers} {JA : JsonAny} {EC : EnvelopeCodec}
    {CP : CallPayload} cfg P j info payload c :
  call_reach cfg P j (CcInsert info payload c) -> exists v, marshal_any v = Some payload.
Proof.
  intros H. apply (rtc_ind_r (fun pc => match pc with
    | CcCreate _ payload | CcInsert _ payload _ => exists v, marshal_any v = Some payload
    | _ => True end)) in H; [done|done|].
  assert (Haw : forall i, match after_walk cfg j i with
    | CcCreate _ payload | CcInsert _ payload _ => exists v, marshal_any v = Some payload
    | _ => True end).
  { intros i. unfold after_walk. destruct (_ <? _); [done|]. case_bool_decide; [done|].
    destruct (marshal_any _) eqn:E; [by eexists|done]. }
  assert (Hon : forall cursor hops i, match walk_on cfg j cursor hops i with
    | CcCreate _ payload | CcInsert _ payload _ => exists v, marshal_any v = Some payload
    | _ => True end).
  { intros. unfold walk_on. destruct hops as [|hops]; [apply Haw|].
    destruct (lineage_parent cursor); [done|apply Haw]. }
  intros p q _ (d & w & _ & ->) Hp. destruct p; simpl; try done.
  - destruct (gate cfg j); [done|apply Hon].
  - unfold walk_get. destruct hops as [|hops]; [apply Hon|].
    destruct (lineage_parent cursor); [|apply Hon]. destruct (lineage_get _ _ _ _); [apply Haw|apply Hon|done].
  - destruct (if refused _ then _ else _) as [[c' tbl]|e]; simpl; [|done]. by destruct (failed _).
  - destruct (write _ _ _) as [[?|?] ?]; done.
  - by destruct (write _ _ _).
  - by destruct (write _ _ _).
  - destruct (write _ _ _) as [[?|?] ?]; done.
  - by destruct (write _ _ _).
  - by destruct (write _ _ _).
  - destruct u; try done; by destruct (unblock_step _ _ _ _).
Qed.

(** C15: chains of calls are bounded by the header alone: a chain in which every
    task was called by the one before it is no longer than the largest cap of a
    project, even if ancestors are deleted, moved or rewritten between any two
    statements, so that the walk up the lineage finds nothing. *)
Theorem call_chain_bounded `{pg : Postgres} {JN : JsonNumbers} {JA : JsonAny} {EC : EnvelopeCodec}
    {CP : CallPayload} `{!CallPayloadStable} cfg M t ts :
  (forall t, depth_cap cfg t <= M) -> M < 2 ^ 53 -> call_chain cfg t ts ->
  Z.of_nat (length ts) <= M.
Proof.
  intros HM HM53 Hc. pose proof (HM t) as Ht.
  assert (1 <= depth_cap cfg t) as Hpos.
  { unfold depth_cap, EffectiveMaxCallDepth, DefaultMaxCallDepth. repeat case_match; btauto_hyps; lia. }
  enough (ts = [] \/ readCarriedCallDepth t + Z.of_nat (length ts) <= M) as [->|?]
    by (pose proof (carried_nonneg t); simpl in *; lia).
  clear Ht Hpos. induction Hc as [t|j info payload c id now t' x ts Hr Hx Ht' Hc IH]; [by left|].
  right. pose proof (call_reach_admitted cfg _ j _ info Hr eq_refl) as (_ & Hd & _).
  specialize (HM (cj_task j)). pose proof (carried_below_caller (cj_task j) info) as Hb.
  pose proof (carried_nonneg (cj_task j)) as Hn. unfold proposedDepth in Hd.
  destruct (call_reach_payload _ _ _ _ _ _ Hr) as [v Hv].
  destruct (callee_header v payload (callerDepth (cj_task j) info + 1) Hv) as (s & Es & Hs); [lia|].
  simpl in Hx. unfold buildCalleePayload, proposedDepth in Hx. rewrite Es in Hx. simpl in Hx.
  destruct (Hs x Hx) as [Hne Hu].
  assert (readCarriedCallDepth t' = callerDepth (cj_task j) info + 1) as Hcar.
  { unfold readCarriedCallDepth. rewrite Ht', bool_decide_false, Hu by done.
    destruct (Z.ltb_spec (callerDepth (cj_task j) info + 1) 0); lia. }
  simpl length. destruct IH as [->|IH]; simpl; lia.
Qed.

(** ** Callees *)

(** The two verdicts that only a callee's end should give. *)
Definition outcome (c : CrossProjectCall) : Prop :=
  cc_Status c ∈ [CPCStatusCompleted; CPCStatusFailed].

(** Every outcome in [tbl'] was there in [tbl]. *)
Definition no_new_outcome (tbl tbl' : CallTable) : Prop :=
  forall c', c' ∈ tbl' -> outcome c' ->
  exists c, c ∈ tbl /\ cc_ID c = cc_ID c' /\ verdict c = verdict c'.

#[export] Instance no_new_outcome_preorder : PreOrder no_new_outcome.
Proof.
  split; [by intros tbl c' Hc Ho; exists c'|].
  intros t1 t2 t3 H12 H23 c3 Hc3 Ho. destruct (H23 c3 Hc3 Ho) as (c2 & Hc2 & Hi2 & Hv2).
  destruct (H12 c2 Hc2) as (c1 & Hc1 & Hi1 & Hv1).
  { unfold outcome. injection Hv2 as Es _ _ _. by rewrite Es. }
  exists c1. split_and!; congruence.
Qed.

Lemma update_no_outcome p f tbl :
  (forall c, cc_ID (f c) = cc_ID c) ->
  (forall c, outcome (f c) -> verdict (f c) = verdict c) ->
  no_new_outcome tbl (update_calls p f tbl).
Proof.
  intros Hid Hf c' Hc' Ho. apply list_elem_of_fmap in Hc' as (c & -> & Hc). exists c.
  destruct (p c); [|done]. split_and!; [done|by rewrite Hid|symmetry; by apply Hf].
Qed.

Lemma resolve_set_no_outcome now st reason p tbl :
  st ∉ [CPCStatusCompleted; CPCStatusFailed] ->
  no_new_outcome tbl (update_calls p (resolve_set now st reason) tbl).
Proof. intros H. apply update_no_outcome; [done|]. intros c Hc. by destruct H. Qed.

Lemma write_rel {A} (R : A -> A -> Prop) `{!Reflexive R} f s r :
  (forall s', r = Ok s' -> R s s') -> R s (write f s r).2.
Proof. intros H. destruct (write_cases f s r) as [->|E]; [done|by apply H]. Qed.

Section Callee.
Context `{pg : Postgres} {JN : JsonNumbers} {JA : JsonAny} {EC : EnvelopeCodec} {CP : CallPayload}.
Context (cfg : CallConfig).

(** A goroutine whose task came out of the repository: no query selects the id of
    the call. *)
Definition plain (g : Go) : Prop :=
  match g with
  | GoFinish _ t _ => CrossProjectCallID t = None
  | GoResolve _ _ pc => pc = RsDone
  | _ => True
  end.

Lemma call_turn_no_outcome j d pc w :
  no_new_outcome (w_calls w) (w_calls (call_turn cfg j d pc w).2).
Proof.
  destruct pc; simpl; try (rewrite ?audit_calls; reflexivity).
  - destruct (refused _); [reflexivity|].
    destruct (CreateCall _ _ _ _) as [[c tbl]|e] eqn:E; [|reflexivity]. simpl.
    unfold CreateCall, with_binds in E. apply res_bind_ok in E as (tbl' & E & [= <- <-]).
    destruct (bind_errors _); [done|]. destruct (is_none _); [done|].
    case_bool_decide as Hid; [done|]. injection E as <-.
    intros c' [Hc'|Hc']%elem_of_app Ho; [by exists c'|].
    apply list_elem_of_singleton in Hc' as ->. unfold outcome in Ho. simpl in Ho.
    set_solver.
  - by destruct (write _ _ _).
  - pose proof (write_rel no_new_outcome (d_fault d) (w_calls w)
      (Ok (MarkRejected (d_dbnow d) (cc_ID c)
             ("callee task creation failed: " +:+ cfg_errText cfg e) (w_calls w)))) as H.
    destruct (write _ _ _) as [r tbl]. apply H. intros s' [= <-].
    apply resolve_set_no_outcome. set_solver.
  - pose proof (write_rel no_new_outcome (d_fault d) (w_calls w)
      (SetCalleeTaskID (cc_ID c) calleeTaskID (w_calls w))) as H.
    destruct (write _ _ _) as [r tbl]. apply H. unfold SetCalleeTaskID. intros s' Es.
    repeat case_match; try done. injection Es as <-. by apply update_no_outcome.
  - by destruct (write _ _ _).
  - by destruct (write _ _ _).
  - by destruct (write _ _ _).
  - destruct u; try reflexivity; by destruct (unblock_step _ _ _ _).
Qed.

Lemma scan_turn_no_outcome d pc w :
  no_new_outcome (w_calls w) (w_calls (scan_turn d pc w).2).
Proof.
  destruct pc; simpl; try (rewrite ?audit_calls; reflexivity).
  - destruct (refused _); [reflexivity|]. simpl. apply update_no_outcome; [done|].
    intros c Hc. unfold outcome in Hc. simpl in Hc. set_solver.
  - by destruct (write _ _ _).
  - by destruct (write _ _ _).
Qed.

Lemma go_turn_no_outcome d g w :
  plain g ->
  plain (go_turn cfg d g w).1 /\ no_new_outcome (w_calls w) (w_calls (go_turn cfg d g w).2).
Proof.
  intros Hg. destruct g as [j pc|e task pc|e task pc|u|pc]; simpl in *.
  - pose proof (call_turn_no_outcome j d pc w). by destruct (call_turn _ _ _ _ _).
  - destruct (proc_step _ _ _ _) as [pc' tbl]. simpl. split; [|reflexivity].
    assert (resolve cfg (ended_task e task) (ended_well e) = RsDone) as Hr.
    { unfold resolve. replace (CrossProjectCallID (ended_task e task)) with (@None string)
        by (by destruct e). by rewrite andb_false_r. }
    destruct pc; simpl; rewrite ?Hr; try done; destruct pc'; done.
  - subst. simpl. by split.
  - by destruct (unblock_step _ _ _ _).
  - pose proof (scan_turn_no_outcome d pc w). by destruct (scan_turn _ _ _).
Qed.

Lemma call_step_no_outcome ev gos w gos' w' :
  call_step cfg ev (gos, w) = (gos', w') -> (forall g, g ∈ gos -> plain g) ->
  (forall g, g ∈ gos' -> plain g) /\ no_new_outcome (w_calls w) (w_calls w').
Proof.
  intros Es Hp.
  assert (Hadd : forall g, plain g -> forall g', g' ∈ gos ++ [g] -> plain g').
  { intros g Hg g' [?| ->%list_elem_of_singleton]%elem_of_app; [by apply Hp|done]. }
  destruct ev as [i d|sid j|fid e|leader|now aid reason|cl]; simpl in Es.
  - destruct (gos !! i) as [g|] eqn:Eg; [|by simplify_eq].
    pose proof (go_turn_no_outcome d g w) as H. destruct (go_turn cfg d g w) as [g1 w1].
    injection Es as <- <-. destruct H as [Hg1 Hw1]; [apply Hp; by eapply list_elem_of_lookup_2|].
    split; [|done]. intros g2 [k Hk]%list_elem_of_lookup_1.
    apply list_lookup_insert_Some in Hk as [(_ & <- & _)|[_ Hk]]; [done|].
    apply Hp. by eapply list_elem_of_lookup_2.
  - destruct (Get sid _); simplify_eq; (split; [|reflexivity]); [by apply Hadd|done].
  - destruct (Get fid _) as [t|] eqn:E; simplify_eq; (split; [|reflexivity]); [|done].
    apply Hadd. simpl. rewrite Get_row in E. destruct (row _ _); [|done]. by injection E as <-.
  - simplify_eq. split; [by apply Hadd|reflexivity].
  - simplify_eq. split; [done|]. unfold AdminCPCCancel. destruct (GetCall _ _); [|reflexivity].
    simpl. apply resolve_set_no_outcome. set_solver.
  - simplify_eq. by split.
Qed.

End Callee.

(** No callee ever resolves its call.  The task repository neither writes nor
    selects [cross_project_call_id], so the resolve hook finds nothing to do: over
    every interleaving of steps, final handlers with their resolve hooks, ticks,
    administrators and other clients, no call becomes completed or failed; whatever
    is so in the end was so, with the same envelope, at the beginning. *)
Theorem callee_never_resolves `{pg : Postgres} {JN : JsonNumbers} {JA : JsonAny}
    {EC : EnvelopeCodec} {CP : CallPayload} cfg evs w :
  no_new_outcome (w_calls w) (w_calls (run_system cfg evs ([], w)).2).
Proof.
  assert (H : forall gos, (forall g, g ∈ gos -> plain g) ->
    no_new_outcome (w_calls w) (w_calls (run_system cfg evs (gos, w)).2));
    [|apply H; by intros g ?%not_elem_of_nil].
  revert w. induction evs as [|ev evs IH]; intros w gos Hp; [reflexivity|].
  change (run_system cfg (ev :: evs) (gos, w)) with (run_system cfg evs (call_step cfg ev (gos, w))).
  destruct (call_step cfg ev (gos, w)) as [gos' w'] eqn:Es.
  destruct (call_step_no_outcome cfg ev gos w gos' w' Es Hp) as [Hp' Hn].
  etrans; [exact Hn|by apply IH].
Qed.
