(* ===== verification/CallScan.v ===== *)
(** * The timeout scanner: what a tick does, and that every overdue call is reached

    A tick that runs to its end without faults, and without other writers between its
    statements, is a function of the ledger and the task table; repeated ticks reach
    every overdue call. *)
From S2P Require Import Prelude GoStrings TaskModel TaskRepo TaskRepoFacts FamilyFacts Workflow Gates.
From S2P Require Import ExecRepo Delegation CallRepo CallGates Interpolate CallProject CallFacts.
Open Scope list_scope.
Open Scope Z_scope.

#[local] Arguments UpdateStatus : simpl never.

Section Scan.
Context `{pg : Postgres} {JN : JsonNumbers} {JA : JsonAny} {EC : EnvelopeCodec} {CP : CallPayload}.

(** A scanner on its own. *)
Definition scan_alone (ds : list Draw) (pc : ScanPC) (w : World) : ScanPC * World :=
  foldl (fun '(pc, w) d => scan_turn d pc w) (pc, w) ds.

Definition faultless (d : Draw) : Prop := d_fault d = NoFault.

Lemma scan_alone_cons d ds pc w :
  scan_alone (d :: ds) pc w = scan_alone ds (scan_turn d pc w).1 (scan_turn d pc w).2.
Proof. unfold scan_alone. simpl. by destruct (scan_turn d pc w). Qed.

Lemma scan_alone_done ds w : scan_alone ds ScDone w = (ScDone, w).
Proof. induction ds as [|d ds IH]; [done|]. by rewrite scan_alone_cons. Qed.

(** ** One row *)

(** What the processing of one claimed row makes of the status of the task [id]. *)
Definition timed_out_status (id : string) (s : TaskStatus) (c : CrossProjectCall) : TaskStatus :=
  let s := if (id =?? CallerTaskID c) && (s =?? TaskStatusWaitingForChildren)
           then TaskStatusQueued else s in
  if cascades c && (id =?? callee_of c) && negb (cascade_done s) then TaskStatusCancelled else s.

Definition status_of (tbl : Table) (id : string) : option TaskStatus := Status <$> row tbl id.

(** The audit row of a call that timed out. *)
Definition timeout_audit (c : CrossProjectCall) : AuditEntry :=
  mkAudit auditActionCPCResolve (CalleeProject c)
    (AfterResolve c CPCStatusTimedOut (default "" (ErrorMessage c))).

Lemma write_status now id st tbl :
  table_ok tbl -> enum_task_status st = true ->
  exists r tbl', write NoFault tbl (UpdateStatus now id st tbl) = (r, tbl') /\ table_ok tbl' /\
    forall id', status_of tbl' id' =
      if id' =?? id then (fun _ => st) <$> status_of tbl id' else status_of tbl id'.
Proof.
  intros Hok He. destruct (UpdateStatus_one now id st tbl Hok He) as (tbl' & -> & Hok' & Hr).
  exists (Ok ()), tbl'. split_and!; [done|done|]. intros id'. unfold status_of. rewrite Hr.
  case_bool_decide as E; [subst; by destruct (row tbl id)|done].
Qed.

(** Where the scanner is after its look at the caller, and at the callee. *)
Lemma caller_turns ds c rest w :
  table_ok (w_tasks w) -> Forall faultless ds -> (2 <= length ds)%nat ->
  exists n w', (n <= 2)%nat /\
    scan_alone ds (ScCaller c rest) w = scan_alone (drop n ds) (after_wake c rest) w' /\
    w_calls w' = w_calls w /\ w_audit w' = w_audit w /\ table_ok (w_tasks w') /\
    forall id, status_of (w_tasks w') id =
      (fun s => if (id =?? CallerTaskID c) && (s =?? TaskStatusWaitingForChildren)
                then TaskStatusQueued else s) <$> status_of (w_tasks w) id.
Proof.
  intros Hok Hf Hl. destruct ds as [|d1 [|d2 ds]]; [simpl in Hl; lia..|].
  apply Forall_cons in Hf as [Hf1 [Hf2 _]%Forall_cons]. rewrite scan_alone_cons. simpl.
  rewrite Hf1. unfold read. simpl. rewrite Get_row.
  destruct (row (w_tasks w) (CallerTaskID c)) as [t|] eqn:Er.
  - simpl. case_bool_decide as Es.
    + destruct (write_status (d_dbnow d2) (CallerTaskID c) TaskStatusQueued (w_tasks w) Hok eq_refl)
        as (r & tbl' & Ew & Hok' & Hst).
      exists 2%nat, (set_tasks tbl' w). rewrite scan_alone_cons. simpl. rewrite Hf2, Ew. simpl.
      split_and!; try done; try lia. intros id. rewrite Hst. case_bool_decide as E; [|by destruct (status_of _ _)].
      subst id. unfold status_of. rewrite Er. simpl. by rewrite !bool_decide_true.
    + exists 1%nat, w. split_and!; try done; try lia. intros id.
      destruct (status_of (w_tasks w) id) as [s|] eqn:E; [|done]. simpl.
      case_bool_decide as E1; [|done]. subst id. unfold status_of in E. rewrite Er in E.
      injection E as <-. rewrite bool_decide_false; done.
  - exists 1%nat, w. split_and!; try done; try lia. intros id.
    destruct (status_of (w_tasks w) id) as [s|] eqn:E; [|done]. simpl.
    case_bool_decide as E1; [|done]. subst id. unfold status_of in E. by rewrite Er in E.
Qed.

Lemma callee_turns ds c rest w :
  table_ok (w_tasks w) -> Forall faultless ds -> (2 <= length ds)%nat ->
  exists n w', (n <= 2)%nat /\
    scan_alone ds (after_wake c rest) w = scan_alone (drop n ds) (next_claimed rest) w' /\
    w_calls w' = w_calls w /\ w_audit w' = w_audit w /\ table_ok (w_tasks w') /\
    forall id, status_of (w_tasks w') id =
      (fun s => if cascades c && (id =?? callee_of c) && negb (cascade_done s)
                then TaskStatusCancelled else s) <$> status_of (w_tasks w) id.
Proof.
  intros Hok Hf Hl. unfold after_wake. destruct (cascades c) eqn:Ec; simpl.
  2: { exists 0%nat, w. split_and!; try done; try lia. intros id. by destruct (status_of _ _). }
  destruct ds as [|d1 [|d2 ds]]; [simpl in Hl; lia..|].
  apply Forall_cons in Hf as [Hf1 [Hf2 _]%Forall_cons]. rewrite scan_alone_cons. simpl.
  rewrite Hf1. unfold read. simpl. rewrite Get_row.
  destruct (row (w_tasks w) (callee_of c)) as [t|] eqn:Er.
  - cbn [fst snd]. change (Status (scanTask t)) with (Status t).
    destruct (cascade_done (Status t)) eqn:Ed.
    + exists 1%nat, w. split_and!; try done; try lia. intros id.
      destruct (status_of (w_tasks w) id) as [s|] eqn:E; [|done]. simpl.
      case_bool_decide as E1; [|done]. subst id. unfold status_of in E. rewrite Er in E.
      injection E as <-. by rewrite Ed.
    + destruct (write_status (d_dbnow d2) (callee_of c) TaskStatusCancelled (w_tasks w) Hok eq_refl)
        as (r & tbl' & Ew & Hok' & Hst).
      exists 2%nat, (set_tasks tbl' w). rewrite scan_alone_cons. simpl. rewrite Hf2, Ew. simpl.
      split_and!; try done; try lia. intros id. rewrite Hst. case_bool_decide as E; [|by destruct (status_of _ _)].
      subst id. unfold status_of. rewrite Er. cbn. by rewrite Ed.
  - exists 1%nat, w. split_and!; try done; try lia. intros id.
    destruct (status_of (w_tasks w) id) as [s|] eqn:E; [|done]. simpl.
    case_bool_decide as E1; [|done]. subst id. unfold status_of in E. by rewrite Er in E.
Qed.

(** ** All rows *)

Lemma claimed_turns rows : forall ds w,
  table_ok (w_tasks w) -> Forall faultless ds -> (5 * length rows <= length ds)%nat ->
  exists w', scan_alone ds (next_claimed rows) w = (ScDone, w') /\
    w_calls w' = w_calls w /\ w_audit w' = w_audit w ++ map timeout_audit rows /\
    table_ok (w_tasks w') /\
    forall id, status_of (w_tasks w') id =
      (fun s => foldl (timed_out_status id) s rows) <$> status_of (w_tasks w) id.
Proof.
  induction rows as [|c rest IH]; intros ds w Hok Hf Hl.
  - exists w. simpl. rewrite scan_alone_done, app_nil_r. split_and!; try done.
    intros id. by destruct (status_of _ _).
  - destruct ds as [|d ds]; [simpl in Hl; lia|]. apply Forall_cons in Hf as [Hf1 Hf].
    rewrite scan_alone_cons. simpl. unfold audit. rewrite Hf1. simpl in *.
    set (w1 := mkWorld _ _ _ _).
    destruct (caller_turns ds c rest w1) as (n & w2 & Hn & -> & Hc2 & Ha2 & Hok2 & Hs2); [done|done|lia|].
    assert (Hf2 : Forall faultless (drop n ds)) by (by apply Forall_drop).
    destruct (callee_turns (drop n ds) c rest w2) as (m & w3 & Hm & -> & Hc3 & Ha3 & Hok3 & Hs3);
      [done|done|rewrite length_drop; lia|].
    destruct (IH (drop m (drop n ds)) w3) as (w4 & -> & Hc4 & Ha4 & Hok4 & Hs4);
      [done|by apply Forall_drop|rewrite !length_drop; lia|].
    exists w4. split_and!; try done.
    + by rewrite Hc4, Hc3, Hc2.
    + rewrite Ha4, Ha3, Ha2. unfold w1. simpl. by rewrite <- app_assoc.
    + intros id. rewrite Hs4, Hs3, Hs2. change (w_tasks w1) with (w_tasks w).
      by destruct (status_of (w_tasks w) id).
Qed.

(** ** A tick *)

(** The rows a tick at [now] claims, as the statement returns them. *)
Definition claimed_rows (now dbnow : time) (tbl : CallTable) : list CrossProjectCall :=
  (ClaimTimedOut now dbnow cpcTimeoutScannerBatchSize tbl tbl).1.

Lemma claim_ids_length now limit tbl :
  (length (claim_ids now limit tbl) <= Z.to_nat (claim_limit limit))%nat.
Proof. unfold claim_ids. rewrite length_map, length_take. lia. Qed.

Lemma claimed_rows_length now dbnow tbl :
  call_table_ok tbl -> (length (claimed_rows now dbnow tbl) <= 100)%nat.
Proof.
  intros Hok. unfold claimed_rows, ClaimTimedOut, claim_update. cbn [fst]. rewrite length_map.
  pose proof (claim_ids_length now cpcTimeoutScannerBatchSize tbl) as Hl.
  assert (E : length (select_calls (fun c => bool_decide (cc_ID c ∈ claim_ids now cpcTimeoutScannerBatchSize tbl)) tbl)
    = length (map cc_ID (select_calls (fun c => bool_decide (cc_ID c ∈ claim_ids now cpcTimeoutScannerBatchSize tbl)) tbl)))
    by (by rewrite length_map).
  rewrite E. etrans; [|exact Hl]. apply submseteq_length, NoDup_submseteq.
  - eapply sublist_NoDup; [exact Hok|]. apply fmap_sublist, sublist_filter.
  - intros id (c & -> & Hc)%list_elem_of_fmap. apply elem_of_select_calls in Hc as [Hc _].
    by apply bool_decide_eq_true in Hc.
Qed.

Lemma foldl_not_waiting id rows s :
  s <> TaskStatusWaitingForChildren ->
  foldl (timed_out_status id) s rows <> TaskStatusWaitingForChildren.
Proof.
  revert s. induction rows as [|c rows IH]; intros s Hs; [done|]. simpl. apply IH.
  unfold timed_out_status. rewrite (bool_decide_false (s = _)) by done. rewrite andb_false_r.
  by destruct (_ && negb _).
Qed.

Lemma foldl_caller_freed id rows s c :
  c ∈ rows -> CallerTaskID c = id ->
  foldl (timed_out_status id) s rows <> TaskStatusWaitingForChildren.
Proof.
  revert s. induction rows as [|x rows IH]; intros s Hc Hid; [by apply not_elem_of_nil in Hc|].
  apply elem_of_cons in Hc as [<-|Hc]; simpl; [|by apply IH].
  apply foldl_not_waiting. unfold timed_out_status. rewrite Hid, (bool_decide_true (id = id)) by done.
  simpl. destruct (bool_decide_reflect (s = TaskStatusWaitingForChildren)); by destruct (_ && negb _).
Qed.

(** *** The backlog *)

(** An open call whose deadline is at [dl] or before. *)
Definition ahead (dl : time) (c : CrossProjectCall) : bool :=
  bool_decide (cc_Status c ∈ [CPCStatusPending; CPCStatusRunning]) &&
  match TimeoutAt c with None => false | Some at_ => at_ <=? dl end.

Lemma ahead_overdue now dl c : dl < ts_in now -> ahead dl c = true -> overdue now c = true.
Proof.
  unfold ahead, overdue. intros Hn [-> H]%andb_true_iff. destruct (TimeoutAt c); [|done].
  simpl. apply Z.leb_le in H. apply Z.ltb_lt. lia.
Qed.

Lemma claim_ids_sound now limit tbl id c :
  call_table_ok tbl -> ledger tbl id = Some c -> overdue now c = true ->
  id ∈ claim_ids now limit tbl \/
  exists l, l ⊆ claim_ids now limit tbl /\ NoDup l /\
    length l = Z.to_nat (claim_limit limit) /\
    forall i, i ∈ l -> exists x, ledger tbl i = Some x /\
      exists dl, TimeoutAt c = Some dl /\ ahead dl x = true.
Proof.
  intros Hok Hc Ho. set (n := Z.to_nat (claim_limit limit)).
  set (L := order_by deadline_key (select_calls (overdue now) tbl)).
  assert (Hperm : L ≡ₚ select_calls (overdue now) tbl) by apply order_by_perm.
  assert (Hin : c ∈ select_calls (overdue now) tbl).
  { rewrite elem_of_select_calls. split; [done|]. by apply ledger_Some_1 in Hc as [? _]. }
  destruct (order_by_take deadline_key n _ c Hin) as [Ht|[Hlen Hle]].
  { left. unfold claim_ids. apply list_elem_of_fmap. exists c. split; [|exact Ht].
    by apply ledger_Some_1 in Hc as [_ ->]. }
  right. exists (map cc_ID (take n L)).
  assert (HL : forall x, x ∈ take n L -> x ∈ tbl /\ overdue now x = true).
  { intros x Hx%(sublist_elem_of' _ _ _ (sublist_take _ _)). rewrite Hperm, elem_of_select_calls in Hx.
    by destruct Hx. }
  split_and!.
  - done.
  - assert (Hs : NoDup (map cc_ID L)).
    { rewrite Hperm. eapply sublist_NoDup; [exact Hok|]. apply fmap_sublist, sublist_filter. }
    eapply sublist_NoDup; [exact Hs|]. apply fmap_sublist, sublist_take.
  - by rewrite length_map.
  - intros i (x & -> & Hx)%list_elem_of_fmap. exists x. destruct (HL x Hx) as [Hxt Hxo].
    split; [by apply ledger_Some|].
    specialize (Hle x Hx).
    unfold key_le, deadline_key in Hle. unfold overdue in Ho, Hxo. btauto_hyps.
    destruct (TimeoutAt c) as [dl|]; [|done]. destruct (TimeoutAt x) as [a|] eqn:Ex; [|done].
    exists dl. split; [done|]. unfold ahead. rewrite Ex, bool_decide_true by done.
    apply Z.leb_le. simpl in Hle. lia.
Qed.

Lemma count_if_split {A} (p q : A -> bool) l :
  count_if p l = (count_if (fun x => p x && q x) l + count_if (fun x => p x && negb (q x)) l)%nat.
Proof.
  induction l as [|x l IH]; [done|]. rewrite !count_if_cons, IH. by destruct (p x), (q x); simpl; lia.
Qed.

(** A set of ids of rows that satisfy [p] is no larger than their number. *)
Lemma count_if_ids (p : CrossProjectCall -> bool) tbl (l : list string) :
  NoDup l -> (forall i, i ∈ l -> exists x, ledger tbl i = Some x /\ p x = true) ->
  (length l <= count_if p tbl)%nat.
Proof.
  intros Hnd Hl. unfold count_if. rewrite <- (length_map cc_ID).
  apply submseteq_length, NoDup_submseteq; [done|]. intros i Hi.
  destruct (Hl i Hi) as (x & [Hx <-]%ledger_Some_1 & Hp). apply list_elem_of_fmap_2.
  by apply list_elem_of_filter.
Qed.

(** The ledger after a tick's claim. *)
Definition after_claim (now dbnow : time) (tbl : CallTable) : CallTable :=
  (ClaimTimedOut now dbnow cpcTimeoutScannerBatchSize tbl tbl).2.

Lemma after_claim_ledger now dbnow tbl id :
  ledger (after_claim now dbnow tbl) id =
  (fun c => if bool_decide (cc_ID c ∈ claim_ids now cpcTimeoutScannerBatchSize tbl)
            then timed_out_set dbnow c else c) <$> ledger tbl id.
Proof. unfold after_claim, ClaimTimedOut, claim_update. cbn [snd]. by rewrite ledger_update. Qed.

(** The open calls at or before a deadline drop by a hundred, or the call is reached. *)
Lemma after_claim_ahead now dbnow tbl id c dl :
  call_table_ok tbl -> ledger tbl id = Some c -> ahead dl c = true -> TimeoutAt c = Some dl ->
  dl < ts_in now ->
  (exists c', ledger (after_claim now dbnow tbl) id = Some c' /\ cc_Status c' = CPCStatusTimedOut) \/
  (ledger (after_claim now dbnow tbl) id = Some c /\
   (count_if (ahead dl) (after_claim now dbnow tbl) + 100 <= count_if (ahead dl) tbl)%nat).
Proof.
  intros Hok Hc Ha Hdl Hnow. set (ids := claim_ids now cpcTimeoutScannerBatchSize tbl).
  rewrite after_claim_ledger, Hc. simpl. assert (cc_ID c = id) as Hid by (by apply ledger_Some_1 in Hc as [_ ?]).
  case_bool_decide as Hin; [by left; eexists|]. right. split; [done|].
  destruct (claim_ids_sound now cpcTimeoutScannerBatchSize tbl id c) as [Hin'|(l & Hl & Hnd & Hlen & Hx)];
    [done|done|by eapply ahead_overdue|by rewrite Hid in Hin|].
  unfold after_claim, ClaimTimedOut, claim_update. cbn [snd]. fold ids.
  unfold update_calls. rewrite count_if_map.
  rewrite (count_if_ext _ (fun x => ahead dl x && negb (bool_decide (cc_ID x ∈ ids)))).
  2: { intros x _. destruct (bool_decide (cc_ID x ∈ ids)); simpl; by rewrite ?andb_false_r, ?andb_true_r. }
  rewrite (count_if_split (ahead dl) (fun x => bool_decide (cc_ID x ∈ ids)) tbl).
  enough (100 <= count_if (fun x => ahead dl x && bool_decide (cc_ID x ∈ ids)) tbl)%nat by lia.
  change (Z.to_nat (claim_limit cpcTimeoutScannerBatchSize)) with 100%nat in Hlen. rewrite <- Hlen.
  apply count_if_ids; [done|]. intros i Hi. destruct (Hx i Hi) as (x & Ex & dl' & Edl & Hah).
  rewrite Hdl in Edl. injection Edl as <-. exists x. split; [done|]. rewrite Hah. simpl.
  apply bool_decide_eq_true. apply ledger_Some_1 in Ex as [_ ->]. by apply Hl.
Qed.

(** *** A tick of its own *)

Definition tick (ds : list Draw) (w : World) : World := (scan_alone ds (ScTick true) w).2.

Definition ticks (rounds : list (list Draw)) (w : World) : World :=
  foldl (fun w ds => tick ds w) w rounds.

(** A tick long enough for a full batch, without faults. *)
Definition whole_tick (ds : list Draw) : Prop := Forall faultless ds /\ (502 <= length ds)%nat.

Lemma tick_run ds w :
  whole_tick ds -> table_ok (w_tasks w) -> call_table_ok (w_calls w) ->
  exists d1 d2 rest w', ds = d1 :: d2 :: rest /\
    scan_alone ds (ScTick true) w = (ScDone, w') /\
    w_calls w' = after_claim (d_now d1) (d_dbnow d2) (w_calls w) /\
    table_ok (w_tasks w') /\
    let rows := claimed_rows (d_now d1) (d_dbnow d2) (w_calls w) in
    w_audit w' = w_audit w ++ map timeout_audit rows /\
    forall id, status_of (w_tasks w') id =
      (fun s => foldl (timed_out_status id) s rows) <$> status_of (w_tasks w) id.
Proof.
  intros [Hf Hl] Hok Hcok. destruct ds as [|d1 [|d2 rest]]; [simpl in Hl; lia..|].
  apply Forall_cons in Hf as [Hf1 [Hf2 Hf]%Forall_cons].
  rewrite scan_alone_cons. cbn [scan_turn fst snd]. rewrite Hf1. cbn [andb negb refused].
  rewrite scan_alone_cons. cbn [scan_turn fst snd]. rewrite Hf2. cbn [refused failed].
  set (rows := claimed_rows (d_now d1) (d_dbnow d2) (w_calls w)).
  pose proof (claimed_rows_length (d_now d1) (d_dbnow d2) (w_calls w) Hcok) as Hlen. fold rows in Hlen.
  destruct (claimed_turns rows rest (set_calls (after_claim (d_now d1) (d_dbnow d2) (w_calls w)) w))
    as (w' & E & Ec & Ea & Hok' & Hs); [done|done|simpl in Hl; lia|].
  exists d1, d2, rest, w'. by split_and!.
Qed.
End Scan.

(** What a tick of the leader's timeout scanner does, when no other statement comes
    between its own and none fails: it ends; the hundred most overdue calls are
    timed out and nothing else in the ledger changes; every task has the status
    [timed_out_status] gives it row by row (a caller still waiting for children is
    queued, the live callee of a call that cascades is cancelled, all others are
    as they were), so no claimed caller is left waiting; one audit row is
    written per claimed call. *)
Theorem tick_spec `{pg : Postgres} {JN : JsonNumbers} {JA : JsonAny} {EC : EnvelopeCodec}
    {CP : CallPayload} ds w :
  whole_tick ds -> table_ok (w_tasks w) -> call_table_ok (w_calls w) ->
  exists now dbnow w',
    scan_alone ds (ScTick true) w = (ScDone, w') /\
    w_calls w' = update_calls
      (fun c => bool_decide (cc_ID c ∈ claim_ids now cpcTimeoutScannerBatchSize (w_calls w)))
      (timed_out_set dbnow) (w_calls w) /\
    let rows := claimed_rows now dbnow (w_calls w) in
    (forall id, status_of (w_tasks w') id =
       (fun s => foldl (timed_out_status id) s rows) <$> status_of (w_tasks w) id) /\
    (forall c, c ∈ rows ->
       status_of (w_tasks w') (CallerTaskID c) <> Some TaskStatusWaitingForChildren) /\
    w_audit w' = w_audit w ++ map timeout_audit rows.
Proof.
  intros Hw Hok Hcok.
  destruct (tick_run ds w Hw Hok Hcok) as (d1 & d2 & rest & w' & _ & E & Ec & _ & Ha & Hs).
  exists (d_now d1), (d_dbnow d2), w'. split; [exact E|]. split; [exact Ec|].
  intros rows. split_and!; [done| |done]. intros c Hc. rewrite Hs. destruct (status_of (w_tasks w) (CallerTaskID c)) as [s|]; [|done].
  simpl. intros [= Hx]. by apply (foldl_caller_freed (CallerTaskID c) _ s c) in Hx.
Qed.

(** C36: every overdue call is reached: a call whose deadline has passed is timed out
    after as many undisturbed ticks as there are hundreds of open calls with the same
    or an earlier deadline, whatever calls with later deadlines expire meanwhile. *)
Theorem overdue_call_is_reached `{pg : Postgres} {JN : JsonNumbers} {JA : JsonAny}
    {EC : EnvelopeCodec} {CP : CallPayload} rounds w id c dl :
  table_ok (w_tasks w) -> call_table_ok (w_calls w) ->
  ledger (w_calls w) id = Some c -> ahead dl c = true -> TimeoutAt c = Some dl ->
  Forall (fun ds => whole_tick ds /\ Forall (fun d => dl < ts_in (d_now d)) ds) rounds ->
  (count_if (ahead dl) (w_calls w) <= 100 * length rounds)%nat ->
  exists c', ledger (w_calls (ticks rounds w)) id = Some c' /\ cc_Status c' = CPCStatusTimedOut.
Proof.
  intros Hok Hcok Hc Ha Hdl Hr Hn.
  assert (Hkeep : forall rounds w c, table_ok (w_tasks w) -> call_table_ok (w_calls w) ->
    Forall whole_tick rounds -> ledger (w_calls w) id = Some c -> cc_Status c = CPCStatusTimedOut ->
    exists c', ledger (w_calls (ticks rounds w)) id = Some c' /\ cc_Status c' = CPCStatusTimedOut).
  { clear. induction rounds as [|ds rounds IH]; intros w c Hok Hcok Hr Hc Hs; [by exists c|].
    apply Forall_cons in Hr as [Hd Hr].
    destruct (tick_run ds w Hd Hok Hcok) as (d1 & d2 & rest & w' & _ & E & Ec & Hok' & _).
    change (ticks (ds :: rounds) w) with (ticks rounds (tick ds w)). unfold tick. rewrite E. simpl.
    eapply IH; [done|rewrite Ec; by apply update_calls_ok|done| |].
    - rewrite Ec, after_claim_ledger, Hc. done.
    - by case_bool_decide. }
  revert w c Hok Hcok Hc Ha Hdl Hn. induction rounds as [|ds rounds IH]; intros w c Hok Hcok Hc Ha Hdl Hn.
  - exfalso. enough (0 < count_if (ahead dl) (w_calls w))%nat by (simpl in Hn; lia).
    apply count_if_pos. exists c. by apply ledger_Some_1 in Hc as [? _].
  - apply Forall_cons in Hr as [[Hd Hnow] Hr].
    destruct (tick_run ds w Hd Hok Hcok) as (d1 & d2 & rest & w' & -> & E & Ec & Hok' & _).
    apply Forall_cons in Hnow as [Hnow _].
    change (ticks ((d1 :: d2 :: rest) :: rounds) w) with (ticks rounds (tick (d1 :: d2 :: rest) w)).
    unfold tick. rewrite E. simpl.
    assert (Hcok' : call_table_ok (w_calls w')) by (rewrite Ec; by apply update_calls_ok).
    destruct (after_claim_ahead (d_now d1) (d_dbnow d2) (w_calls w) id c dl Hcok Hc Ha Hdl Hnow)
      as [(c' & Hc' & Hs')|[Hc' Hlt]].
    + eapply (Hkeep rounds w' c'); [done|done| |by rewrite Ec|done].
      eapply Forall_impl; [exact Hr|]. by intros ? [? _].
    + apply (IH Hr w' c); try done; [by rewrite Ec|]. rewrite Ec. simpl in Hn. lia.
Qed.
