(* ===== verification/CallResolve.v ===== *)
(** * The resolve hook

    What [resolveCrossProjectCallForTask] makes of the end of a task that carries the
    id of a call: the exact verdict, and which envelopes are accepted. *)
From S2P Require Import Prelude GoStrings TaskModel TaskRepo TaskRepoFacts Workflow Gates.
From S2P Require Import ExecRepo Delegation CallRepo CallGates Interpolate CallProject CallFacts CallScan.
Open Scope list_scope.
Open Scope Z_scope.

#[local] Arguments GetCall : simpl never.
#[local] Arguments judge_envelope : simpl never.
#[local] Arguments mark_call : simpl never.

Section Resolve.
Context `{pg : Postgres} {JN : JsonNumbers} {JA : JsonAny} {EC : EnvelopeCodec} {CP : CallPayload}.
Context (cfg : CallConfig).

(** The hook on its own. *)
Definition resolve_alone (task : Task) (ds : list Draw) (pc : ResolvePC) (w : World) :
    ResolvePC * World :=
  foldl (fun '(pc, w) d => resolve_turn cfg task d pc w) (pc, w) ds.

Lemma resolve_alone_cons task d ds pc w :
  resolve_alone task (d :: ds) pc w =
  resolve_alone task ds (resolve_turn cfg task d pc w).1 (resolve_turn cfg task d pc w).2.
Proof. unfold resolve_alone. simpl. by destruct (resolve_turn cfg task d pc w). Qed.

Lemma resolve_alone_done task ds w : resolve_alone task ds RsDone w = (RsDone, w).
Proof. induction ds as [|d ds IH]; [done|]. by rewrite resolve_alone_cons. Qed.

(** An envelope in the contract of the call: an object whose [schema] is the expected
    one, with a status, that the registered validator accepts. *)
Definition fulfils (schema : string) (envelope : option object) : Prop :=
  exists m, envelope = Some m /\ m !! "schema"%string = Some (JStr schema) /\
    is_Some (m !! "status"%string) /\ schema_error cfg schema envelope = None.

Lemma validateEnvelopeShape_None envelope schema :
  validateEnvelopeShape envelope schema = None <->
  exists m, envelope = Some m /\ m !! "schema"%string = Some (JStr schema) /\
    is_Some (m !! "status"%string).
Proof.
  unfold validateEnvelopeShape. destruct envelope as [m|]; [|naive_solver]. split.
  - intros H. destruct (m !! "schema"%string) as [[| | |s| |]|] eqn:Es; try done.
    case_bool_decide as E; [|done]. subst s. simpl in H. exists m. split_and!; [done|done|].
    by destruct (m !! "status"%string).
  - intros (m' & [= <-] & -> & [v Hv]). rewrite bool_decide_true by done. simpl. by rewrite Hv.
Qed.

Lemma judge_envelope_completed c envelope e :
  judge_envelope cfg c envelope = MkCompleted e <->
  envelope = Some e /\ e <> ""%string /\
  exists probe, unmarshal_envelope e = Ok probe /\
    forall call, c = Some call -> ExpectedSchema call <> ""%string ->
      fulfils (ExpectedSchema call) probe.
Proof.
  unfold judge_envelope. destruct envelope as [e'|]; simpl; [|by split; [|intros [? _]]].
  unfold nullif_empty. case_bool_decide as Ee; simpl; [by split; [|intros ([= ->] & ? & _)]|].
  destruct (unmarshal_envelope e') as [probe|msg] eqn:Eu.
  2: { split; [done|]. intros ([= ->] & _ & probe & E & _). congruence. }
  assert (Hok : (forall call, c = Some call -> ExpectedSchema call <> ""%string ->
      fulfils (ExpectedSchema call) probe) -> MkCompleted e' = MkCompleted e <->
    Some e' = Some e /\ e <> ""%string /\ exists probe, unmarshal_envelope e = Ok probe /\
      forall call, c = Some call -> ExpectedSchema call <> ""%string ->
        fulfils (ExpectedSchema call) probe).
  { intros H. split; [intros [= <-]|by intros ([= ->] & _)]. split_and!; [done|done|by exists probe]. }
  assert (Hbad : forall r, ~ (forall call, c = Some call -> ExpectedSchema call <> ""%string ->
      fulfils (ExpectedSchema call) probe) -> MkRejected r = MkCompleted e <->
    Some e' = Some e /\ e <> ""%string /\ exists probe, unmarshal_envelope e = Ok probe /\
      forall call, c = Some call -> ExpectedSchema call <> ""%string ->
        fulfils (ExpectedSchema call) probe).
  { intros r H. split; [done|]. intros ([= ->] & _ & probe' & E & H'). exfalso. apply H.
    rewrite Eu in E. injection E as ->. exact H'. }
  destruct c as [call|]; [|by apply Hok].
  case_bool_decide as Es; [by apply Hok; intros ? [= <-]|].
  destruct (validateEnvelopeShape probe (ExpectedSchema call)) as [reason|] eqn:Ev.
  - apply Hbad. intros H. destruct (H call eq_refl Es) as (m & -> & Hs & Hst & _).
    assert (validateEnvelopeShape (Some m) (ExpectedSchema call) = None) as Hn; [|congruence].
    apply validateEnvelopeShape_None. eauto.
  - apply validateEnvelopeShape_None in Ev as (m & -> & Hm & Hst).
    destruct (schema_error cfg (ExpectedSchema call) (Some m)) as [msg|] eqn:Ex.
    + apply Hbad. intros H. destruct (H call eq_refl Es) as (? & _ & _ & _ & Hv). congruence.
    + apply Hok. intros call' [= <-] _. by exists m.
Qed.

(** The envelope of a task that succeeded: the column, or its latest execution's
    result. *)
Definition task_envelope (task : Task) (execs : ExecTable) : option string :=
  match ResultEnvelope task ≫= nullif_empty with
  | Some e => Some e
  | None => match GetByTaskID (ID task) execs with Ok x => x_Result x | Err _ => None end
  end.

(** The verdict on a call. *)
Definition verdict_of (task : Task) (succeeded : bool) (c : CrossProjectCall) (execs : ExecTable) :
    Mark :=
  if succeeded then judge_envelope cfg (Some c) (task_envelope task execs)
  else MkFailed (failure_reason task).

(** The row after its verdict; an envelope that is no JSONB leaves it open. *)
Definition marked (now : time) (m : Mark) (c : CrossProjectCall) : CrossProjectCall :=
  match m with
  | MkFailed r => resolve_set now CPCStatusFailed (nullif_empty r) c
  | MkRejected r => resolve_set now CPCStatusRejected (nullif_empty r) c
  | MkCompleted e =>
      if jsonb_ok (Some e)
      then c <| cc_Status := CPCStatusCompleted |> <| cc_ResultEnvelope := jsonb_stored (Some e) |>
             <| ResolvedAt := Some now |>
      else c
  end.

Lemma open_call_row id c tbl f :
  (forall c, cc_ID (f c) = cc_ID c) -> ledger tbl id = Some c ->
  ledger (update_calls (open_call id) f tbl) id = Some (if unresolved c then f c else c).
Proof.
  intros Hf Hc. rewrite ledger_update, Hc by done. simpl. unfold open_call, call_by_id.
  rewrite bool_decide_true; [by destruct (unresolved c)|]. by apply ledger_Some_1 in Hc as [_ ?].
Qed.

Lemma mark_call_row now id m c tbl :
  ledger tbl id = Some c ->
  ledger (match mark_call now id m tbl with Ok tbl' => tbl' | Err _ => tbl end) id =
  Some (if unresolved c then marked now m c else c).
Proof.
  intros Hc. destruct m as [r|r|e]; unfold mark_call, marked; try by apply open_call_row.
  unfold MarkCompleted, with_binds. simpl. destruct (jsonb_ok (Some e)).
  - simpl. by apply open_call_row.
  - simpl. rewrite Hc. by destruct (unresolved c).
Qed.

Lemma resolve_mark task d1 d2 ds c m w id :
  CrossProjectCallID task = Some id -> faultless d1 -> faultless d2 -> Forall faultless ds ->
  ledger (w_calls w) id = Some c ->
  exists w', resolve_alone task (d1 :: d2 :: ds) (RsMark (Some c) m) w = (RsDone, w') /\
    w_tasks w' = w_tasks w /\ w_execs w' = w_execs w /\
    ledger (w_calls w') id = Some (if unresolved c then marked (d_dbnow d1) m c else c).
Proof.
  intros Hid H1 H2 Hf Hc. rewrite resolve_alone_cons. simpl. rewrite Hid, H1. simpl.
  pose proof (mark_call_row (d_dbnow d1) id m c (w_calls w) Hc) as Hr.
  unfold write. simpl. destruct (mark_call (d_dbnow d1) id m (w_calls w)) as [tbl|e]; simpl.
  - rewrite resolve_alone_cons. simpl. rewrite resolve_alone_done. eexists. split; [done|].
    unfold audit. rewrite H2. by split_and!.
  - rewrite resolve_alone_done. by eexists.
Qed.
End Resolve.

(** The verdict of the resolve hook is exact: run without faults on a task that
    carries the id of an open call, it ends, leaves tasks and executions alone, and marks
    the call failed with the task's error if the task failed, and otherwise completed
    with the stored envelope exactly if the envelope - the task's, or the result of
    its latest execution - is a JSON object in the contract of the call, and rejected
    with the reason if it is not.  A resolved call is left as it is. *)
Theorem resolve_spec `{pg : Postgres} {JN : JsonNumbers} {JA : JsonAny} {EC : EnvelopeCodec}
    {CP : CallPayload} cfg task succeeded ds w id c :
  cfg_cpcRepo cfg = true -> CrossProjectCallID task = Some id ->
  ledger (w_calls w) id = Some c -> Forall faultless ds -> (4 <= length ds)%nat ->
  exists now w',
    resolve_alone cfg task ds (resolve cfg task succeeded) w = (RsDone, w') /\
    w_tasks w' = w_tasks w /\ w_execs w' = w_execs w /\
    ledger (w_calls w') id = Some (if unresolved c
      then marked now (verdict_of cfg task succeeded c (w_execs w)) c else c) /\
    (forall e, verdict_of cfg task succeeded c (w_execs w) = MkCompleted e <->
       succeeded = true /\ task_envelope task (w_execs w) = Some e /\ e <> ""%string /\
       exists probe, unmarshal_envelope e = Ok probe /\
         (ExpectedSchema c <> ""%string -> fulfils cfg (ExpectedSchema c) probe)).
Proof.
  intros Hr Hid Hc Hf Hl.
  assert (Hiff : forall e, verdict_of cfg task succeeded c (w_execs w) = MkCompleted e <->
       succeeded = true /\ task_envelope task (w_execs w) = Some e /\ e <> ""%string /\
       exists probe, unmarshal_envelope e = Ok probe /\
         (ExpectedSchema c <> ""%string -> fulfils cfg (ExpectedSchema c) probe)).
  { intros e. unfold verdict_of. destruct succeeded; [|by split; [|intros [? _]]].
    rewrite judge_envelope_completed. split.
    - intros (? & ? & probe & ? & H). split_and!; try done. exists probe. split; [done|]. by apply H.
    - intros (_ & ? & ? & probe & ? & H). split_and!; try done. exists probe. split; [done|].
      by intros call [= <-]. }
  unfold resolve. rewrite Hr, Hid. simpl.
  destruct ds as [|d1 [|d2 [|d3 [|d4 ds]]]]; [simpl in Hl; lia..|].
  apply Forall_cons in Hf as [Hf1 [Hf2 [Hf3 [Hf4 Hf]%Forall_cons]%Forall_cons]%Forall_cons].
  assert (Hf' : Forall faultless (d4 :: ds)) by (by constructor).
  rewrite resolve_alone_cons. simpl. rewrite Hid, Hf1. unfold read at 1. simpl.
  rewrite GetCall_ledger, Hc. unfold verdict_of, task_envelope in *. destruct succeeded; simpl.
  2: { destruct (resolve_mark cfg task d2 d3 (d4 :: ds) c (MkFailed (failure_reason task)) w id)
         as (w' & E & ? & ? & ?); try done. by exists (d_dbnow d2), w'. }
  destruct (ResultEnvelope task ≫= nullif_empty) as [e|].
  - destruct (resolve_mark cfg task d2 d3 (d4 :: ds) c (judge_envelope cfg (Some c) (Some e)) w id)
      as (w' & E & ? & ? & ?); try done. by exists (d_dbnow d2), w'.
  - rewrite resolve_alone_cons. simpl. rewrite Hf2. unfold read. simpl.
    destruct (resolve_mark cfg task d3 d4 ds c (judge_envelope cfg (Some c)
        match GetByTaskID (ID task) (w_execs w) with Ok x => x_Result x | Err _ => None end) w id)
      as (w' & E & ? & ? & ?); try done. by exists (d_dbnow d3), w'.
Qed.
