(* ===== verification/CallScenarios.v ===== *)
(** * Concrete cross-project calls

    A project [a] that calls [b] and [c]: the hypotheses of the theorems on calls hold
    here, and runs in which a call's deadline is missed in the wrong way. *)
From Stdlib Require Import Ascii.
From S2P Require Import Prelude GoStrings TaskModel TaskRepo TaskRepoFacts TaskRepoSafety Workflow Gates GatesFacts.
From S2P Require Import ExecRepo Delegation CallRepo CallGates Interpolate CallProject.
From S2P Require Import CallFacts CallRuns CallScan CallResolve.
Open Scope string_scope.
Open Scope list_scope.
Open Scope Z_scope.

#[local] Existing Instance pg_example.
#[local] Existing Instance example_numbers.

(** ** Encoders *)

(** The depth of a payload is the number of bars before its semicolon. *)
Fixpoint bars (n : nat) (rest : string) : string :=
  match n with O => String ";" rest | S n => String "|" (bars n rest) end.

Fixpoint count_bars (s : string) : nat :=
  match s with String "|" s => S (count_bars s) | _ => O end.

Definition example_any : JsonAny := {|
  unmarshal_any s := Some (JStr s);
  marshal_any _ := Some "{}"
|}.

Definition example_payload : CallPayload := {|
  marshal_callee raw d := Some (bars (Z.to_nat d) raw);
  unmarshal_callDepth s := Some (Z.of_nat (count_bars s))
|}.

(** The only object is ["ok"]: schema [ack], status [done]. *)
Definition example_envelope : EnvelopeCodec := {|
  unmarshal_envelope s :=
    if s =?? "ok" then Ok (Some {["schema" := JStr "ack"; "status" := JStr "done"]})
    else Err "invalid character"
|}.

#[local] Existing Instance example_any.
#[local] Existing Instance example_payload.
#[local] Existing Instance example_envelope.

Lemma count_bars_bars n rest : count_bars (bars n rest) = n.
Proof. induction n as [|n IH]; [done|]. simpl. by rewrite IH. Qed.

Lemma example_payload_stable : CallPayloadStable.
Proof.
  intros v raw d _ Hd. eexists. split; [reflexivity|]. intros x [= <-]. split.
  - by destruct (Z.to_nat d).
  - simpl. rewrite count_bars_bars. f_equal. lia.
Qed.

(** ** Projects and tasks *)

Definition config_example : CallConfig :=
  mkCallConfig "true" true
    {["a" := mkCallPolicy [] ["b"; "c*"] 0; "b" := mkCallPolicy ["a*"] [] 2;
      "c" := mkCallPolicy ["*"] [] 0]}
    (Some {["ack" := fun _ : object => None]}) (fun _ => "error").

(** The caller is on its last attempt. *)
Definition caller_example : Task :=
  (task_example "t" "a" TaskStatusRunning 50 5 [] None) <| MaxAttempts := 1 |>.

Definition call_step_example (callee : string) : WorkflowStep :=
  mkStep "call_project" "" "next" "failed" [] "" "" callee "main" "ack" "".

Definition job_example (callee : string) (timeout : duration) (cascade : bool) : CallJob :=
  mkCallJob caller_example "x" callee (call_step_example callee) ∅ (Some timeout) cascade ∅ []
    (fun r => CPCId r).

Definition exec_example : ExecRow := {|
  x_ID := "x"; x_TaskID := "t"; x_ProjectID := "a"; x_WorkflowID := "w"; x_WorkflowRevision := "v1";
  x_WorkflowSnapshot := None; x_Status := ExecutionStatusRunning; x_CurrentStepID := Some "call";
  x_CompletedSteps := []; x_StateSnapshot := None; x_Result := None; x_ErrorMessage := None;
  x_ErrorCode := None; x_StartedAt := None; x_CompletedAt := None; x_CreatedAt := 5; x_UpdatedAt := 5;
  x_ParentExecutionID := None; x_ForkedFromStepID := None; x_ForkedPromptOverride := None |}.

Definition world_example : World := mkWorld [caller_example] [] [exec_example] [].

Definition at_ (n : Z) (id : string) : Draw := mkDraw (n * Second) (n * Second) NoFault id.

(** [k] turns of goroutine [i]; the ids it generates are [id] and its number. *)
Definition turns (i : nat) (n : Z) (ids : list string) : list CallEvent :=
  map (fun id => EvTurn i (at_ n id)) ids.

(** The turns of a step, which generates the ids of the call and of the callee's
    task, and those of a callee's end. *)
Definition step_turns (i : nat) (n : Z) (cpc callee : string) : list CallEvent :=
  turns i n [""; cpc; callee; ""; ""; ""; ""; ""; ""; ""; ""].
Definition finish_turns (i : nat) (n : Z) : list CallEvent := turns i n [""; ""; ""; ""; ""; ""].

Abbreviation run_example evs := (run_system config_example evs ([], world_example)).

Definition task_status (s : list Go * World) (id : string) : option TaskStatus :=
  status_of (w_tasks s.2) id.
Definition ledger_status (s : list Go * World) (id : string) : option CrossProjectCallStatus :=
  cc_Status <$> ledger (w_calls s.2) id.
Definition step_of (s : list Go * World) : list (option string) :=
  map x_CurrentStepID (w_execs s.2).

(** ** Runs that go wrong *)

(** Two calls one after the other: [b] is called with a deadline of 60 s and done at
    20 s, which wakes the caller; then [c] is called. *)
Definition two_calls : list CallEvent :=
  EvStep "t" (job_example "b" (60 * Second) false) :: step_turns 0 10 "c1" "tb" ++
  EvFinish "tb" EndSuccess :: finish_turns 1 20 ++
  EvRepo (CallUpdateStatus (30 * Second) "t" TaskStatusRunning) ::
  EvStep "t" (job_example "c" (600 * Second) false) :: step_turns 2 40 "c2" "tc".

(** A finished call's deadline wakes the caller out of its next wait: the callee of
    the first call is done, but its call is still open, and when its deadline passes
    the caller, which waits for the second callee, is queued. *)
Theorem stale_deadline_wakes_next_wait :
  let before := run_example two_calls in
  let after := run_example (two_calls ++ EvTick true :: turns 3 100 [""; ""; ""; ""; ""]) in
  task_status before "tb" = Some TaskStatusCompleted /\
  ledger_status before "c1" = Some CPCStatusPending /\
  task_status before "t" = Some TaskStatusWaitingForChildren /\
  ledger_status after "c1" = Some CPCStatusTimedOut /\
  task_status after "tc" = Some TaskStatusQueued /\
  task_status after "t" = Some TaskStatusQueued.
Proof. vm_compute. by split_and!. Qed.

(** The caller of a call that times out goes on as if it had succeeded: the
    checkpoint of its execution names the step of [on_success]. *)
Theorem timed_out_call_resumes_on_success :
  let s := run_example (EvStep "t" (job_example "b" (60 * Second) false) ::
    step_turns 0 10 "c1" "tb" ++ EvTick true :: turns 1 100 [""; ""; ""; ""; ""]) in
  ledger_status s "c1" = Some CPCStatusTimedOut /\ task_status s "t" = Some TaskStatusQueued /\
  step_of s = [Some "next"].
Proof. vm_compute. by split_and!. Qed.

(** The scanner reads the caller's status and writes it in another statement: if the
    callee fails in between, the caller has been failed for good, and is queued
    again. *)
Definition failing_callee : list CallEvent :=
  EvStep "t" (job_example "b" (60 * Second) false) :: step_turns 0 10 "c1" "tb" ++
  EvRepo (CallTransitionConditional (11 * Second) "tb" [TaskStatusQueued] TaskStatusRunning
            (noTransitionOpts <| opt_Attempt := 3 |>)) ::
  EvTick true :: turns 1 100 [""; ""; ""; ""] ++
  EvFinish "tb" (EndFailure "boom" "UNKNOWN") :: finish_turns 2 100.

Theorem failed_caller_is_queued_again :
  let before := run_example failing_callee in
  let after := run_example (failing_callee ++ turns 1 100 [""]) in
  task_status before "t" = Some TaskStatusFailed /\ task_status after "t" = Some TaskStatusQueued.
Proof. vm_compute. by split_and!. Qed.

(** A claim whose snapshot is older than a resolution overwrites it: the
    administrator's rejection is lost, and two scanners that overlap both process
    the call. *)
Theorem overlapping_claims_overwrite :
  let start := EvStep "t" (job_example "b" (60 * Second) false) :: step_turns 0 10 "c1" "tb" ++
    [EvTick true; EvTick true] ++ turns 1 100 [""] ++ turns 2 100 [""] ++
    [EvAdmin (101 * Second) "c1" "no longer needed"] in
  let finish := turns 1 102 [""; ""] ++ turns 2 103 [""; ""] in
  ledger_status (run_example start) "c1" = Some CPCStatusRejected /\
  ledger_status (run_example (start ++ finish)) "c1" = Some CPCStatusTimedOut /\
  length (filter (fun e => ae_Action e = auditActionCPCResolve)
            (w_audit (run_example (start ++ finish)).2)) = 2%nat.
Proof. vm_compute. by split_and!. Qed.

(** A reply lost at the claim strands the caller: the call is timed out, and no later
    tick looks at it again. *)
Theorem lost_claim_strands_caller :
  let start := EvStep "t" (job_example "b" (60 * Second) false) :: step_turns 0 10 "c1" "tb" ++
    EvTick true :: turns 1 100 [""] ++
    [EvTurn 1 (mkDraw (100 * Second) (100 * Second) ReplyLost "")] in
  let later := run_example (start ++ EvTick true :: turns 2 500 [""; ""; ""; ""; ""]) in
  ledger_status (run_example start) "c1" = Some CPCStatusTimedOut /\
  task_status later "t" = Some TaskStatusWaitingForChildren /\
  go_turn config_example (at_ 600 "") (GoScan ScDone) later.2 = (GoScan ScDone, later.2) /\
  nth 2 later.1 (GoUnblock UbDone) = GoScan ScDone.
Proof. vm_compute. by split_and!. Qed.

(** A cascade cancels a callee that its operator has closed. *)
Theorem cascade_cancels_closed_callee :
  let s := run_example (EvStep "t" (job_example "b" (60 * Second) true) ::
    step_turns 0 10 "c1" "tb" ++
    EvRepo (CallUpdateStatus (20 * Second) "tb" TaskStatusClosed) ::
    EvTick true :: turns 1 100 [""; ""; ""; ""; ""; ""; ""]) in
  task_status s "tb" = Some TaskStatusCancelled.
Proof. vm_compute. done. Qed.

(** ** The hypotheses hold *)

(** A call that [t] made to [b], with a deadline of 60 s, at the status [st]. *)
Definition call_example (id : string) (st : CrossProjectCallStatus) : CrossProjectCall := {|
  cc_ID := id; CallerTaskID := "t"; CallerStepID := "call"; CallerProject := "a";
  CalleeProject := "b"; CalleeWorkflow := "main"; CalleeTaskID := Some "tb";
  cc_Payload := Some "{}"; ExpectedSchema := "ack"; cc_Status := st; cc_ResultEnvelope := None;
  ErrorMessage := None; TimeoutAt := Some (60 * Second); cc_CreatedAt := 10 * Second;
  ResolvedAt := None; CancelOnTimeout := true |}.

Definition callee_example : Task :=
  (task_example "tb" "b" TaskStatusQueued 50 6 [] None) <| ParentTaskID := Some "t" |>.

(** [t] waits for [b], which is queued. *)
Definition waiting_world : World :=
  mkWorld [caller_example <| Status := TaskStatusWaitingForChildren |>; callee_example]
    [call_example "c0" CPCStatusRejected; call_example "c1" CPCStatusPending] [exec_example] [].

Lemma waiting_world_ok : table_ok (w_tasks waiting_world) /\ call_table_ok (w_calls waiting_world).
Proof.
  split; [|by apply (bool_decide_unpack _)]. split.
  - by apply (bool_decide_unpack _).
  - by apply (bool_decide_unpack _).
  - intros t Ht. simpl in Ht. rewrite !elem_of_cons, elem_of_nil in Ht. by destruct_or! Ht; subst.
  - intros t Ht. simpl in Ht. rewrite !elem_of_cons, elem_of_nil in Ht. by destruct_or! Ht; subst.
Qed.

(** A tick after the deadline. *)
Definition tick_draws : list Draw := replicate 502 (at_ 100 "").

Lemma tick_draws_whole : whole_tick tick_draws.
Proof. split; [by apply Forall_replicate|by vm_compute; lia]. Qed.

(** The caller is freed and the callee cancelled. *)
Lemma tick_spec_witness :
  exists w', scan_alone tick_draws (ScTick true) waiting_world = (ScDone, w') /\
    status_of (w_tasks w') "t" = Some TaskStatusQueued /\
    status_of (w_tasks w') "tb" = Some TaskStatusCancelled.
Proof.
  destruct waiting_world_ok as [Ht Hc].
  destruct (tick_spec tick_draws waiting_world tick_draws_whole Ht Hc)
    as (now & dbnow & w' & E & _ & Hs & _).
  exists w'. split; [exact E|].
  assert (E' : scan_alone tick_draws (ScTick true) waiting_world =
    (ScDone, tick tick_draws waiting_world)) by (vm_compute; reflexivity).
  rewrite E in E'. injection E' as ->. by vm_compute.
Defined.

Lemma overdue_call_is_reached_witness :
  exists c', ledger (w_calls (ticks [tick_draws] waiting_world)) "c1" = Some c' /\
    cc_Status c' = CPCStatusTimedOut.
Proof.
  destruct waiting_world_ok as [Ht Hc].
  apply (overdue_call_is_reached [tick_draws] waiting_world "c1"
    (call_example "c1" CPCStatusPending) (60 * Second)); try done.
  - constructor; [|constructor]. split; [apply tick_draws_whole|].
    by apply Forall_replicate.
  - by vm_compute; lia.
Defined.

(** A rejected call stays rejected: a second rejection and a tick do not touch it. *)
Definition later_events : list CallEvent :=
  EvAdmin (50 * Second) "c0" "again" :: EvTick true :: turns 0 100 [""; ""; ""; ""].

Lemma resolution_final_witness :
  exists c', ledger (w_calls (run_system config_example later_events ([], waiting_world)).2) "c0" =
    Some c' /\ verdict c' = verdict (call_example "c0" CPCStatusRejected).
Proof.
  apply (resolution_final config_example later_events [] waiting_world "c0"
    (call_example "c0" CPCStatusRejected)); [apply waiting_world_ok|done|done|].
  by intros g ?%not_elem_of_nil.
Defined.

(** The callee delivers its envelope. *)
Definition delivering_example : Task :=
  callee_example <| CrossProjectCallID := Some "c1" |> <| ResultEnvelope := Some "ok" |>.

Lemma resolve_spec_witness :
  exists now w', resolve_alone config_example delivering_example (replicate 4 (at_ 20 ""))
      (resolve config_example delivering_example true) waiting_world = (RsDone, w') /\
    w_tasks w' = w_tasks waiting_world /\
    ledger (w_calls w') "c1" = Some (marked now (MkCompleted "ok") (call_example "c1" CPCStatusPending)).
Proof.
  destruct (resolve_spec config_example delivering_example true (replicate 4 (at_ 20 "")) waiting_world
    "c1" (call_example "c1" CPCStatusPending)) as (now & w' & E & Ht & _ & Hl & _);
    [done|done|done|by apply Forall_replicate|by simpl; lia|].
  exists now, w'. split_and!; [exact E|exact Ht|]. rewrite Hl. by vm_compute.
Defined.

(** A caller in [a] that a task of [root] delegated. *)
Definition root_example : Task := task_example "r" "root" TaskStatusWaitingForChildren 50 4 [] None.
Definition delegated_example : Task := caller_example <| ParentTaskID := Some "r" |>.
Definition lineage_world : World := mkWorld [root_example; delegated_example] [] [exec_example] [].
Definition delegated_job : CallJob :=
  (job_example "b" (60 * Second) false) <| cj_task := delegated_example |>.

(** The points a step goes through in one world. *)
Lemma call_reach_turns (P : World -> Prop) j ds w :
  P w -> call_reach config_example P j
    (foldl (fun pc d => (call_turn config_example j d pc w).1) CcStart ds).
Proof.
  intros Hw. induction ds as [|d ds IH] using rev_ind; [apply rtc_refl|].
  rewrite foldl_app. eapply rtc_r; [exact IH|]. by exists d, w.
Qed.

Definition admitted_call : CrossProjectCall :=
  (new_call delegated_job "{}" (10 * Second)) <| cc_ID := "c1" |>.

Definition lineage_example : lineageInfo := mkLineage 1 {["root"; "a"]} ["a"; "root"] false.

Lemma admission_run :
  foldl (fun pc d => (call_turn config_example delegated_job d pc lineage_world).1) CcStart
    [at_ 10 ""; at_ 10 ""; at_ 10 "c1"] = CcInsert lineage_example "{}" admitted_call.
Proof. vm_compute. reflexivity. Qed.

Lemma call_respects_lineage_witness :
  AcceptsCallsFrom (mkCallPolicy ["a*"] [] 2) "a" = true /\
  ("b" ∉ ["a"; "root"]) /\ changes ["a"; "root"] + 1 <= 8.
Proof.
  destruct (call_respects_lineage config_example delegated_job (w_tasks lineage_world)
    lineage_example "{}" admitted_call) as (_ & (callee & Ec & Ha) & _ & Hn & Hd & _).
  { rewrite <- admission_run. by apply call_reach_turns. }
  assert (E : lineage_projects (w_tasks lineage_world) (cj_task delegated_job) = ["a"; "root"])
    by (vm_compute; reflexivity).
  rewrite E in Hn, Hd. split_and!; [|exact Hn|exact Hd].
  assert (E' : cfg_projects config_example !! target delegated_job =
    Some (mkCallPolicy ["a*"] [] 2)) by (vm_compute; reflexivity).
  rewrite E' in Ec. injection Ec as <-. exact Ha.
Defined.

Definition chained_example : Task := callee_example <| Payload := Some (bars 2 "{}") |>.

Lemma call_chain_bounded_witness : Z.of_nat (length [chained_example]) <= 8.
Proof.
  eapply (call_chain_bounded (H := example_payload_stable) config_example 8
    delegated_example [chained_example]); [|done|].
  - intros t. unfold depth_cap. destruct (cfg_projects config_example !! ProjectID t) as [p|] eqn:E;
      [|done]. revert E. apply (map_Forall_lookup_1 (fun _ p => EffectiveMaxCallDepth (Some p) <= 8)).
    by apply (bool_decide_unpack _).
  - eapply (chain_call config_example delegated_job lineage_example "{}" admitted_call "tb"
      (10 * Second)); [|reflexivity|reflexivity|constructor].
    rewrite <- admission_run. by apply call_reach_turns.
Defined.
