(* ===== verification/Registry.v ===== *)
(** * Projects, swarms and the registry

    [src/internal/registry]: the part of a project's configuration that task
    admission reads (project.go), the roles of a swarm (swarm.go) and the lookups
    of registry.go.  Money is Go's [float64], computed with the binary64
    operations of the Standard Library's [SpecFloat]. *)
From Stdlib Require Export SpecFloat.
From S2P Require Import Prelude Workflow StepRetry.

Abbreviation float64 := spec_float.

Definition f64_add (a b : float64) : float64 := SFadd 53 1024 a b.
Definition f64_le (a b : float64) : bool := SFleb a b.
Definition f64_lt (a b : float64) : bool := SFltb a b.
Definition f64_eq (a b : float64) : bool := SFeqb a b.
Definition f64_zero : float64 := S754_zero false.
(** The whole number [z], rounded to binary64. *)
Definition f64_of_Z (z : Z) : float64 := binary_normalize 53 1024 z 0 false.

Record ProjectRateLimit : Type := mkProjectRateLimit {
  TasksPerMinute : Z;
  TasksPerHour : Z
}.

Record ProjectBudget : Type := mkProjectBudget {
  DailySoftUSD : float64;
  DailyHardUSD : float64;
  MonthlySoftUSD : float64;
  MonthlyHardUSD : float64;
  Timezone : string;
  ReservationEstimateUSD : float64
}.

Record Project : Type := mkProject {
  p_ID : string;
  p_SwarmID : string;
  p_DefaultWorkflowID : string;
  p_DefaultPriority : Z;
  p_RateLimit : ProjectRateLimit;
  p_Budget : ProjectBudget
}.

Record Swarm : Type := mkSwarm {
  sw_ID : string;
  sw_Roles : list SwarmRole
}.

(** The maps of the registry; [transient] is [nil] until the first
    registration. *)
Record Registry : Type := mkRegistry {
  reg_projects : gmap string Project;
  reg_swarms : gmap string Swarm;
  reg_workflows : gmap string Workflow;
  reg_transient : option (gmap string Workflow)
}.

Definition GetProject (id : string) (r : Registry) : option Project := reg_projects r !! id.
Definition GetSwarm (id : string) (r : Registry) : option Swarm := reg_swarms r !! id.

(** A configured workflow wins over a transient one of the same name. *)
Definition GetWorkflow (id : string) (r : Registry) : option Workflow :=
  match reg_workflows r !! id with
  | Some wf => Some wf
  | None => m ← reg_transient r; m !! id
  end.
