(* ===== verification/AutonomyBacklog.v ===== *)
(** * The backlog file

    [src/internal/autonomy/manager.go]: [consumeNextBacklogItem] with its regular
    expression, which reads the next prompt of a markdown checklist and checks its
    box.  What the file promises is stated on the list of its pending prompts. *)
From Stdlib Require Import Ascii.
From S2P Require Import Prelude GoStrings.
Open Scope string_scope.

(** The class [\s]. *)
Definition re_space (c : ascii) : bool :=
  let n := nat_of_ascii c in
  Nat.eqb n 32 || Nat.eqb n 9 || Nat.eqb n 10 || Nat.eqb n 12 || Nat.eqb n 13.

(** [\s*] as far as it goes: the space and the rest. *)
Fixpoint spaces (s : string) : string * string :=
  match s with
  | String c rest => if re_space c then let '(a, b) := spaces rest in (String c a, b) else ("", s)
  | "" => ("", "")
  end.

Definition bullet (c : ascii) : bool := (c =?? "-"%char) || (c =?? "*"%char).

(** [backlogPendingRE] on one line: the two groups.  After each run of spaces comes a
    byte that is no space, so there is nothing to backtrack to. *)
Definition backlogPendingRE (line : string) : option (string * string) :=
  let '(indent, s1) := spaces line in
  match s1 with
  | String b s2 =>
      if negb (bullet b) then None
      else
        let '(gap, s3) := spaces s2 in
        if gap =?? "" then None
        else
          match s3 with
          | String "[" (String box (String "]" s4)) =>
              if negb (re_space box) then None
              else
                let '(gap', text) := spaces s4 in
                if gap' =?? "" then None
                else Some (indent ++ String b (gap ++ String "[" (String box (String "]" gap'))), text)
          | _ => None
          end
  | "" => None
  end.

(** [strings.Replace] of one occurrence. *)
Definition replace_first (old new s : string) : string :=
  match cut old s with Some (a, b) => a ++ new ++ b | None => s end.

Definition newline : string := String (ascii_of_nat 10) "".

(** The prompt of a line, if it is an unchecked item with a text. *)
Definition pending_prompt (line : string) : option string :=
  match backlogPendingRE line with
  | None => None
  | Some (_, text) => if TrimSpace text =?? "" then None else Some (TrimSpace text)
  end.

(** The loop over the lines: the prompt and the lines with the box checked. *)
Fixpoint consume_lines (lines : list string) : option (string * list string) :=
  match lines with
  | [] => None
  | line :: rest =>
      match pending_prompt line with
      | Some prompt => Some (prompt, replace_first "[ ]" "[x]" line :: rest)
      | None =>
          match consume_lines rest with
          | Some (prompt, rest') => Some (prompt, line :: rest')
          | None => None
          end
      end
  end.

(** [consumeNextBacklogItem]. *)
Definition consumeNextBacklogItem (content : string) : option (string * string) :=
  match consume_lines (split newline content) with
  | Some (prompt, lines) => Some (prompt, String.concat newline lines)
  | None => None
  end.

(** ** The pending prompts of a file *)

Definition pending (content : string) : list string := omap pending_prompt (split newline content).

(** The line with its box checked. *)
Definition checked (line : string) : string := replace_first "[ ]" "[x]" line.

(** Every pending item's box is a plain [[ ]]. *)
Definition plain_box (line : string) : bool :=
  match backlogPendingRE line with
  | None => true
  | Some (prefix, _) => contains prefix "[ ]"
  end.

Definition plain_boxes (content : string) : Prop := Forall (fun l => plain_box l = true) (split newline content).

(** Ticks that each take the next item. *)
Fixpoint consume_all (fuel : nat) (content : string) : list string * string :=
  match fuel with
  | O => ([], content)
  | S fuel =>
      match consumeNextBacklogItem content with
      | None => ([], content)
      | Some (prompt, content') =>
          let '(rest, last) := consume_all fuel content' in (prompt :: rest, last)
      end
  end.

(** ** The regular expression *)

Definition no_open (s : string) : bool := all_bytes (fun c => negb (c =?? "["%char)) s.

Lemma spaces_spec s : s = (spaces s).1 ++ (spaces s).2 /\ all_bytes re_space (spaces s).1 = true.
Proof.
  induction s as [|c s [IH1 IH2]]; [done|]. cbn [spaces].
  destruct (re_space c) eqn:E; [|done]. destruct (spaces s) as [a b]. cbn [fst snd] in *.
  rewrite string_app_cons, <- IH1. split; [done|]. cbn [all_bytes]. by rewrite E.
Qed.

Lemma spaces_app a s : all_bytes re_space a = true -> spaces (a ++ s) = (a ++ (spaces s).1, (spaces s).2).
Proof.
  induction a as [|c a IH]; [intros _; apply surjective_pairing|]. cbn [all_bytes]. rewrite andb_true_iff. intros [Hc Ha].
  rewrite string_app_cons. cbn [spaces]. by rewrite Hc, IH.
Qed.

Lemma spaces_no_open s : all_bytes re_space s = true -> no_open s = true.
Proof.
  apply all_bytes_impl. intros c Hc. apply negb_true_iff, bool_decide_eq_false_2. intros ->. by vm_compute in Hc.
Qed.

(** The shape of a line that matches, given by what may be written in each place. *)
Definition item (indent : string) (b : ascii) (gap : string) (box : ascii) (rest : string) : string :=
  indent ++ String b (gap ++ String "[" (String box (String "]" rest))).

Lemma backlogPendingRE_inv line prefix text :
  backlogPendingRE line = Some (prefix, text) ->
  exists indent b gap box gap',
    line = item indent b gap box (gap' ++ text) /\ prefix = item indent b gap box gap' /\
    bullet b = true /\ re_space box = true /\
    all_bytes re_space indent = true /\ all_bytes re_space gap = true /\ all_bytes re_space gap' = true.
Proof.
  unfold backlogPendingRE. destruct (spaces_spec line) as [H1 H1'].
  destruct (spaces line) as [indent s1]. cbn [fst snd] in *. destruct s1 as [|b s2]; [done|].
  destruct (bullet b) eqn:Hb; [|done]. cbn [negb]. destruct (spaces_spec s2) as [H2 H2'].
  destruct (spaces s2) as [gap s3]. cbn [fst snd] in *. case_bool_decide; [done|].
  destruct s3 as [|c s3]; [done|]. destruct (ascii_dec c "[") as [->|Hc]; [|by repeat case_match; simplify_eq].
  destruct s3 as [|box s3]; [done|]. destruct s3 as [|c s3]; [done|].
  destruct (ascii_dec c "]") as [->|Hc]; [|by repeat case_match; simplify_eq].
  destruct (re_space box) eqn:Hx; [|done]. cbn [negb]. destruct (spaces_spec s3) as [H3 H3'].
  destruct (spaces s3) as [gap' t]. cbn [fst snd] in *. case_bool_decide; [done|]. intros [= <- <-].
  exists indent, b, gap, box, gap'. unfold item. by rewrite <- H3, <- H2, <- H1.
Qed.

Lemma re_space_facts c : re_space c = true -> bullet c = false /\ c <> "["%char.
Proof.
  intros H. split; [|by intros ->]. apply orb_false_iff.
  split; apply bool_decide_eq_false_2; intros ->; by vm_compute in H.
Qed.

(** A byte that is no space is what decides whether a box is unchecked. *)
Lemma backlogPendingRE_checked indent b gap box rest :
  bullet b = true -> re_space box = false ->
  all_bytes re_space indent = true -> all_bytes re_space gap = true ->
  backlogPendingRE (item indent b gap box rest) = None.
Proof.
  intros Hb Hx Hi Hg. unfold backlogPendingRE, item. rewrite spaces_app by done.
  assert (Hsb : re_space b = false).
  { destruct (re_space b) eqn:E; [|done]. apply re_space_facts in E as [E _]. congruence. }
  cbn [spaces]. rewrite Hsb. cbn [fst snd]. rewrite Hb. cbn [negb]. rewrite spaces_app by done.
  cbn [spaces]. change (re_space "[") with false. cbn [fst snd]. rewrite string_app_nil.
  case_bool_decide; [done|]. by rewrite Hx.
Qed.

(** ** The first box *)

Lemma cut_app_no_open a s : no_open a = true ->
  cut "[ ]" (a ++ s) = match cut "[ ]" s with Some (x, y) => Some (a ++ x, y) | None => None end.
Proof.
  induction a as [|c a IH]; [intros _; change ("" ++ s) with s; by destruct (cut _ s) as [[]|]|]. unfold no_open in *. cbn [all_bytes].
  rewrite andb_true_iff. intros [Hc Ha]. btauto_hyps. rewrite string_app_cons. cbn [cut String.prefix].
  destruct (ascii_dec "[" c) as [E|]; [congruence|]. rewrite IH by done. by destruct (cut "[ ]" s) as [[]|].
Qed.

Lemma item_no_open indent b gap box rest : bullet b = true ->
  all_bytes re_space indent = true -> all_bytes re_space gap = true ->
  item indent b gap box rest = (indent ++ String b gap) ++ String "[" (String box (String "]" rest)) /\
  no_open (indent ++ String b gap) = true.
Proof.
  intros Hb Hi Hg. unfold item. rewrite string_app_assoc. split; [done|].
  unfold no_open. rewrite all_bytes_app. cbn [all_bytes]. rewrite !andb_true_iff.
  split_and!; [by apply spaces_no_open| |by apply spaces_no_open].
  apply negb_true_iff, bool_decide_eq_false_2. intros ->. by vm_compute in Hb.
Qed.

Lemma cut_no_open s : no_open s = true -> cut "[ ]" s = None.
Proof. intros H. by rewrite <- (string_app_nil s), cut_app_no_open. Qed.

Lemma cut_open_box a rest : no_open a = true ->
  cut "[ ]" (a ++ String "[" (String " " (String "]" rest))) = Some (a, rest).
Proof.
  intros Ha. rewrite cut_app_no_open by done.
  assert (E : cut "[ ]" (String "[" (String " " (String "]" rest))) = Some ("", rest)).
  { pose proof (prefix_app "[ ]" rest) as Hp. change ("[ ]" ++ rest) with (String "[" (String " " (String "]" rest))) in Hp.
    cbn [cut]. rewrite Hp. cbn [String.length String.substring]. by rewrite substring_all by lia. }
  rewrite E. by rewrite string_app_nil.
Qed.

(** Checking a plain box changes that byte alone, and the line is not pending any more. *)
Lemma checked_item line :
  is_some (pending_prompt line) = true -> plain_box line = true ->
  exists indent b gap rest, line = item indent b gap " " rest /\
    checked line = item indent b gap "x" rest /\ backlogPendingRE (checked line) = None.
Proof.
  unfold pending_prompt at 1, plain_box. destruct (backlogPendingRE line) as [[prefix text]|] eqn:E; [|done].
  intros _ Hp. apply backlogPendingRE_inv in E as (indent & b & gap & box & gap' & El & Ep & Hb & Hx & Hi & Hg & Hg').
  assert (box = " "%char) as ->.
  { destruct (decide (box = " "%char)) as [|Hne]; [done|]. exfalso. subst prefix. revert Hp. unfold contains.
    destruct (item_no_open indent b gap box gap' Hb Hi Hg) as [-> Hn]. rewrite cut_app_no_open by done.
    cbn [cut String.prefix]. destruct (ascii_dec "[" "["); [|done]. destruct (ascii_dec " " box); [congruence|].
    destruct (ascii_dec "[" box) as [<-|]; [by vm_compute in Hx|]. destruct (ascii_dec "[" "]"); [done|].
    by rewrite cut_no_open by (by apply spaces_no_open). }
  assert (Hc : checked line = item indent b gap "x" (gap' ++ text)).
  { unfold checked, replace_first. rewrite El.
    destruct (item_no_open indent b gap " " (gap' ++ text) Hb Hi Hg) as [-> Hn].
    rewrite cut_open_box by done. unfold item. by rewrite !string_app_assoc. }
  exists indent, b, gap, (gap' ++ text). split_and!; [done|done|].
  by rewrite Hc, backlogPendingRE_checked.
Qed.

(** ** Lines *)

Definition free_of (c : ascii) (s : string) : bool := all_bytes (fun d => negb (d =?? c)) s.

Lemma cut_byte_inv c s :
  match cut (String c "") s with
  | Some (a, b) => s = a ++ String c b /\ free_of c a = true
  | None => free_of c s = true
  end.
Proof.
  unfold free_of. induction s as [|d s IH]; [done|]. cbn [cut]. rewrite prefix_byte. case_bool_decide as E.
  - subst d. cbn [String.length String.substring]. by rewrite substring_all by lia.
  - destruct (cut _ s) as [[a b]|]; cbn [all_bytes].
    + destruct IH as [-> IH]. split; [done|]. rewrite IH, andb_true_r. apply negb_true_iff, bool_decide_eq_false_2. congruence.
    + rewrite IH, andb_true_r. apply negb_true_iff, bool_decide_eq_false_2. congruence.
Qed.

Lemma split_fuel_lines c fuel s : (String.length s < fuel)%nat ->
  String.concat (String c "") (split_fuel fuel (String c "") s) = s /\
  split_fuel fuel (String c "") s <> [] /\
  Forall (fun l => free_of c l = true) (split_fuel fuel (String c "") s).
Proof.
  revert s. induction fuel as [|fuel IH]; intros s Hf; [lia|]. cbn [split_fuel].
  pose proof (cut_byte_inv c s) as Hc. destruct (cut _ s) as [[a b]|]; [|by rewrite Forall_singleton].
  destruct Hc as [-> Ha]. rewrite string_length_app in Hf. cbn [String.length] in Hf.
  destruct (IH b ltac:(lia)) as (E & Hne & Hb). split_and!; [|done|by constructor].
  destruct (split_fuel fuel _ b) as [|x l]; [done|].
  change (String.concat (String c "") (a :: x :: l)) with (a ++ String c (String.concat (String c "") (x :: l))).
  by rewrite E.
Qed.

Lemma split_lines c s :
  String.concat (String c "") (split (String c "") s) = s /\ split (String c "") s <> [] /\
  Forall (fun l => free_of c l = true) (split (String c "") s).
Proof. apply split_fuel_lines. lia. Qed.

Lemma free_of_item c indent b gap box rest :
  free_of c (item indent b gap box rest) =
    free_of c indent && negb (b =?? c) && free_of c gap && negb ("["%char =?? c) && negb (box =?? c) &&
    negb ("]"%char =?? c) && free_of c rest.
Proof. unfold item, free_of. rewrite all_bytes_app. cbn [all_bytes]. rewrite all_bytes_app. cbn [all_bytes]. by rewrite !andb_assoc. Qed.

Lemma checked_free line :
  is_some (pending_prompt line) = true -> plain_box line = true ->
  free_of (ascii_of_nat 10) line = true -> free_of (ascii_of_nat 10) (checked line) = true.
Proof.
  intros H1 H2. destruct (checked_item line H1 H2) as (i & b & g & r & -> & -> & _). rewrite !free_of_item.
  intros H. btauto_hyps. repeat (apply andb_true_iff; split); try done; try (by apply negb_true_iff, bool_decide_eq_false_2).
Qed.

(** ** Consuming the items *)

(** A line after all items have been dispatched. *)
Definition ticked (line : string) : string := if is_some (pending_prompt line) then checked line else line.

Definition good_line (l : string) : Prop := plain_box l = true /\ free_of (ascii_of_nat 10) l = true.

Lemma checked_line line : is_some (pending_prompt line) = true -> good_line line ->
  good_line (checked line) /\ pending_prompt (checked line) = None.
Proof.
  intros H [Hp Hf]. destruct (checked_item line H Hp) as (i & b & g & r & _ & _ & E).
  unfold good_line, plain_box, pending_prompt. rewrite E. by rewrite checked_free.
Qed.

(** One item: it is the first pending prompt, the others stay pending, and what the file
    becomes in the end does not change. *)
Lemma consume_lines_spec lines : Forall good_line lines ->
  match consume_lines lines with
  | None => omap pending_prompt lines = []
  | Some (prompt, lines') =>
      omap pending_prompt lines = prompt :: omap pending_prompt lines' /\
      map ticked lines' = map ticked lines /\ Forall good_line lines' /\ lines' <> []
  end.
Proof.
  induction lines as [|l lines IH]; intros H; [done|]. apply Forall_cons in H as [Hl H].
  cbn [consume_lines omap list_omap map]. destruct (pending_prompt l) as [prompt|] eqn:E.
  - destruct (checked_line l) as [Hg Hn]; [by rewrite E|done|]. fold (checked l).
    cbn [omap list_omap map]. rewrite Hn. unfold ticked. rewrite Hn, E. split_and!; [done|done|by constructor|done].
  - specialize (IH H). destruct (consume_lines lines) as [[prompt lines']|]; [|done].
    destruct IH as (Ho & Hm & Hg & _). cbn [omap list_omap map]. rewrite E, Ho, Hm. split_and!; [done|done|by constructor|done].
Qed.

Lemma ticked_done lines : omap pending_prompt lines = [] -> map ticked lines = lines.
Proof.
  induction lines as [|l lines IH]; [done|]. cbn [omap list_omap map]. unfold ticked at 1.
  destruct (pending_prompt l); [done|]. intros H. by rewrite IH.
Qed.

Lemma split_join lines : lines <> [] -> Forall good_line lines -> split newline (String.concat newline lines) = lines.
Proof.
  intros Hne H. apply split_concat; [done|]. intros s Hs. rewrite Forall_forall in H. by apply H in Hs as [_ ?].
Qed.

(** C31: Draining a backlog file dispatches every unchecked item exactly once, in the order
    of the file; at the end the boxes of those items are checked, nothing is pending, and
    every other byte of the file is as the operator left it. *)
Theorem backlog_drained content n :
  plain_boxes content -> (length (pending content) <= n)%nat ->
  exists last, consume_all n content = (pending content, last) /\ pending last = [] /\
    last = String.concat newline (map ticked (split newline content)).
Proof.
  intros Hp Hn. destruct (split_lines (ascii_of_nat 10) content) as (Ej & Hne & Hf). fold newline in *.
  assert (Hg : Forall good_line (split newline content)) by (by apply Forall_and).
  unfold plain_boxes in Hp. clear Hp Hf. unfold pending in *.
  revert content Ej Hne Hg Hn. induction n as [|n IH]; intros content Ej Hne Hg Hn.
  - exists content. assert (E : omap pending_prompt (split newline content) = []) by (apply length_zero_iff_nil; lia).
    rewrite E. cbn [consume_all]. by rewrite ticked_done.
  - cbn [consume_all]. unfold consumeNextBacklogItem.
    pose proof (consume_lines_spec _ Hg) as Hs. destruct (consume_lines _) as [[prompt lines']|].
    + destruct Hs as (Ho & Hm & Hg' & Hne'). rewrite Ho in Hn |- *. cbn [length] in Hn.
      pose proof (split_join lines' Hne' Hg') as Es.
      destruct (IH (String.concat newline lines')) as (last & Ec & Hl & El); rewrite ?Es; try done; [lia|].
      rewrite Es in Ec, El. rewrite Ec. exists last. by rewrite <- Hm.
    + exists content. rewrite Hs. by rewrite ticked_done.
Qed.

Lemma backlog_drained_witness :
  let content := "# Work" ++ newline ++ "- [x] old" ++ newline ++ "  * [ ]  Add [ ] boxes " ++ newline ++ "- [ ] " ++ newline ++ "- [ ] Fix" in
  plain_boxes content /\
  exists last, consume_all 2 content = (["Add [ ] boxes"; "Fix"], last) /\ pending last = [].
Proof.
  cbv zeta. set (content := _ ++ _). assert (Hp : plain_boxes content) by (repeat constructor).
  split; [done|]. destruct (backlog_drained content 2 Hp) as (last & E & Hl & _); [vm_compute; lia|].
  exists last. split; [exact E|exact Hl].
Defined.

(** A box that holds a tab counts as unchecked, but the text [[ ]] it is replaced by is not
    there: the item is dispatched at every tick. *)
Lemma tab_box_never_checked :
  let content := "- [" ++ String (ascii_of_nat 9) "] Ship it" in
  consumeNextBacklogItem content = Some ("Ship it", content).
Proof. done. Qed.

(** With a later [[ ]] in the text, that one is checked instead. *)
Lemma tab_box_checks_the_text :
  consumeNextBacklogItem ("- [" ++ String (ascii_of_nat 9) "] Tick [ ] here") =
    Some ("Tick [ ] here", "- [" ++ String (ascii_of_nat 9) "] Tick [x] here").
Proof. done. Qed.
