(* ===== verification/RateLimit.v ===== *)
(** * Task-creation rate limits

    [src/internal/ratelimit]: the in-process sliding-window limiter
    (ratelimit.go), its key-scoped variant for trading orders (trading.go) and
    the limiter whose counters live in PostgreSQL (postgres.go), followed by the
    interface through which task creation uses either.  The in-process methods
    hold one mutex from start to end and are one function each; a call of the
    PostgreSQL limiter is two statements, each with a fault of its own, and other
    daemons act between them. *)
From Stdlib Require Import Ascii.
From S2P Require Import Prelude TaskRepo Registry.

Record RateDecision : Type := mkRateDecision {
  rl_Blocked : bool;
  rl_Reason : string;
  MinuteCount : Z;
  HourCount : Z;
  RetryAfter : duration
}.

(** [Decision{}]. *)
Definition no_decision : RateDecision := mkRateDecision false "" 0 0 0.

(** [now.Sub]: the difference saturates. *)
Definition time_sub (t u : time) : duration := Z.max minInt64 (Z.min maxInt64 (t - u)).

(** ** The in-process limiter *)

(** The map of the struct; a missing key reads as the empty slice. *)
Abbreviation Limiter := (gmap string (list time)).

Definition log_of (key : string) (l : Limiter) : list time := default [] (l !! key).

Definition after (cutoff t : time) : bool := cutoff <? t.
Definition count_after (cutoff : time) (ts : list time) : Z :=
  Z.of_nat (count_if (after cutoff) ts).

(** The walk to the first timestamp that is not before the cutoff. *)
Fixpoint drop_before (cutoff : time) (ts : list time) : list time :=
  match ts with
  | t :: ts' => if t <? cutoff then drop_before cutoff ts' else ts
  | [] => []
  end.

Definition pruneOlderThan (ts : list time) (cutoff : time) : list time :=
  match ts with
  | [] => ts
  | t :: _ => if negb (t <? cutoff) then ts else drop_before cutoff ts
  end.

(** The tests at the end of [Check], the minute cap first. *)
Definition task_decision (caps : ProjectRateLimit) (minuteCount hourCount : Z) : RateDecision :=
  if (0 <? TasksPerMinute caps) && (TasksPerMinute caps <=? minuteCount) then
    mkRateDecision true "per-minute task rate limit reached" minuteCount hourCount 0
  else if (0 <? TasksPerHour caps) && (TasksPerHour caps <=? hourCount) then
    mkRateDecision true "per-hour task rate limit reached" minuteCount hourCount 0
  else mkRateDecision false "" minuteCount hourCount 0.

Definition no_caps (caps : ProjectRateLimit) : bool :=
  (TasksPerMinute caps =? 0) && (TasksPerHour caps =? 0).

(** [Check]: the pruned log is kept. *)
Definition Check_ (p : option Project) (now : time) (l : Limiter) : RateDecision * Limiter :=
  match p with
  | None => (no_decision, l)
  | Some p =>
      if no_caps (p_RateLimit p) then (no_decision, l)
      else
        let ts := pruneOlderThan (log_of (p_ID p) l) (now - Hour) in
        (task_decision (p_RateLimit p) (count_after (now - Minute) ts) (count_after (now - Hour) ts),
         <[p_ID p := ts]> l)
  end.

Definition Record_ (projectID : string) (now : time) (l : Limiter) : Limiter :=
  if projectID =?? ""%string then l
  else <[projectID := log_of projectID l ++ [now]]> l.

Record ProjectSnapshot : Type := mkSnapshot {
  s_ProjectID : string;
  s_MinuteCount : Z;
  s_HourCount : Z
}.

Definition snapshot_of (now : time) (pid : string) (ts : list time) : ProjectSnapshot :=
  mkSnapshot pid (count_after (now - Minute) ts) (count_after (now - Hour) ts).

(** [Snapshot]: [order] is the order in which Go ranges over the map. *)
Definition Snapshot (now : time) (order : list string) (l : Limiter) : list ProjectSnapshot :=
  filter (fun s => negb ((s_HourCount s =? 0) && (s_MinuteCount s =? 0)) = true)
    (omap (fun pid => ts ← l !! pid; Some (snapshot_of now pid ts)) order).

Definition SnapshotFor (projectID : string) (now : time) (l : Limiter) : option ProjectSnapshot :=
  if projectID =?? ""%string then None
  else ts ← l !! projectID; Some (snapshot_of now projectID ts).

(** ** The key-scoped limiter of the trading surface *)

Record RateLimit : Type := mkRateLimit { PerMinute : Z; PerHour : Z }.

(** The prefix starts with a NUL byte. *)
Definition tradingKeyPrefix : string := String Ascii.zero "trading:".

(** The least timestamp after the cutoff; the zero time stands for none. *)
Definition oldest_after (cutoff : time) (ts : list time) : time :=
  foldl (fun oldest t =>
    if after cutoff t then
      if (oldest =? zeroTime) || (t <? oldest) then t else oldest
    else oldest) zeroTime ts.

Definition retryUntil (t now : time) : duration :=
  let d := time_sub t now in
  if d <=? 0 then Second else d.

Definition CheckKey (key : string) (now : time) (caps : RateLimit) (l : Limiter) :
    RateDecision * Limiter :=
  if key =?? ""%string then (no_decision, l)
  else if (PerMinute caps =? 0) && (PerHour caps =? 0) then (no_decision, l)
  else
    let mk := (tradingKeyPrefix ++ key)%string in
    let ts := pruneOlderThan (log_of mk l) (now - Hour) in
    let minuteCount := count_after (now - Minute) ts in
    let hourCount := count_after (now - Hour) ts in
    (if (0 <? PerMinute caps) && (PerMinute caps <=? minuteCount) then
       mkRateDecision true "per-minute trading rate limit reached" minuteCount hourCount
         (retryUntil (oldest_after (now - Minute) ts + Minute) now)
     else if (0 <? PerHour caps) && (PerHour caps <=? hourCount) then
       mkRateDecision true "per-hour trading rate limit reached" minuteCount hourCount
         (retryUntil (oldest_after (now - Hour) ts + Hour) now)
     else mkRateDecision false "" minuteCount hourCount 0,
     <[mk := ts]> l).

Definition RecordKey (key : string) (now : time) (l : Limiter) : Limiter :=
  if key =?? ""%string then l
  else let mk := (tradingKeyPrefix ++ key)%string in <[mk := log_of mk l ++ [now]]> l.

(** ** The PostgreSQL limiter *)

(** The table [ratelimit_counters] by its primary key. *)
Abbreviation CounterKey := (string * string * time)%type.
Abbreviation Counters := (gmap CounterKey Z).

Definition scopeProject : string := "project".
Definition scopeProjectHour : string := "project:hour".

(** [t.Truncate(d)]: down to a multiple of [d] since the zero time. *)
Definition Truncate (t : time) (d : duration) : time := t - (t - zeroTime) `mod` d.

Section PostgresLimiter.
Context `{pg : Postgres}.

(** [upsertCounterSQL]; the column is a 32-bit integer. *)
Definition upsertCounter (kind key : string) (window : time) (tbl : Counters) :
    result DBError Counters :=
  let k := (kind, key, ts_in window) in
  match tbl !! k with
  | None => Ok (<[k := 1]> tbl)
  | Some n => if int32_fits (n + 1) then Ok (<[k := n + 1]> tbl) else Err (PqError "22003")
  end.

(** [countSumSQL]. *)
Definition in_range (kind key : string) (since : time) (k : CounterKey) : bool :=
  (k.1.1 =?? kind) && (k.1.2 =?? key) && (ts_in since <=? k.2).
Definition sum_counters (p : CounterKey -> bool) (tbl : Counters) : Z :=
  map_fold (fun k n acc => if p k then n + acc else acc) 0 tbl.
Definition countSum (kind key : string) (since : time) (tbl : Counters) : Z :=
  sum_counters (in_range kind key since) tbl.

(** [countWindows]: the table may change between the two queries. *)
Definition countWindows (fault1 fault2 : bool) (projectID : string) (now : time)
    (tbl1 tbl2 : Counters) : option (Z * Z) :=
  if fault1 then None
  else
    let minuteCount := countSum scopeProject projectID (now - Minute) tbl1 in
    if fault2 then None
    else Some (minuteCount, countSum scopeProjectHour projectID (now - Hour) tbl2).

(** [CheckCtx] fails open. *)
Definition CheckCtx (fault1 fault2 : bool) (p : option Project) (now : time)
    (tbl1 tbl2 : Counters) : RateDecision :=
  match p with
  | None => no_decision
  | Some p =>
      if no_caps (p_RateLimit p) then no_decision
      else match countWindows fault1 fault2 (p_ID p) now tbl1 tbl2 with
           | None => no_decision
           | Some (m, h) => task_decision (p_RateLimit p) m h
           end
  end.

(** The two statements of [RecordCtx]; their errors are dropped. *)
Definition record_stmt (fault : bool) (kind projectID : string) (bucket : time)
    (tbl : Counters) : Counters :=
  if fault || (projectID =?? ""%string) then tbl
  else match upsertCounter kind projectID bucket tbl with Ok tbl' => tbl' | Err _ => tbl end.
Definition record_minute (fault : bool) (projectID : string) (now : time) : Counters -> Counters :=
  record_stmt fault scopeProject projectID (Truncate now Minute).
Definition record_hour (fault : bool) (projectID : string) (now : time) : Counters -> Counters :=
  record_stmt fault scopeProjectHour projectID (Truncate now Hour).

Definition RecordCtx (fault1 fault2 : bool) (projectID : string) (now : time) (tbl : Counters) :
    Counters :=
  record_hour fault2 projectID now (record_minute fault1 projectID now tbl).

(** [SweepExpired]: the rows deleted and the rest. *)
Definition SweepExpired (now : time) (retention : duration) (tbl : Counters) : nat * Counters :=
  if retention <=? 0 then (O, tbl)
  else
    let kept := filter (fun kv => negb (kv.1.2 <? ts_in (now - retention)) = true) tbl in
    ((size tbl - size kept)%nat, kept).

End PostgresLimiter.

(** ** The limiter as task creation sees it

    [ProjectLimiter] of ratelimit.go, statement by statement: a check is
    [lim_check1] and then [lim_check2] on what the first observed, a record is
    [lim_record1] and then [lim_record2]; other callers act in between, and each
    statement has a fault of its own.  The methods that hold a mutex do all their
    work in the first statement. *)
Class ProjectLimiter : Type := {
  limiter : Type;
  check_obs : Type;
  lim_check1 : bool -> Project -> time -> limiter -> check_obs * limiter;
  lim_check2 : bool -> Project -> time -> check_obs -> limiter -> RateDecision;
  lim_record1 : bool -> string -> time -> limiter -> limiter;
  lim_record2 : bool -> string -> time -> limiter -> limiter
}.

#[export] Instance in_process_limiter : ProjectLimiter := {|
  limiter := Limiter;
  check_obs := RateDecision;
  lim_check1 _ p now l := Check_ (Some p) now l;
  lim_check2 _ _ _ d _ := d;
  lim_record1 _ pid now l := Record_ pid now l;
  lim_record2 _ _ _ l := l
|}.

(** The first query of a PostgreSQL check: a decision that is already final, or
    the minute count. *)
Definition check_minute `{Postgres} (fault : bool) (p : Project) (now : time) (tbl : Counters) :
    RateDecision + Z :=
  if no_caps (p_RateLimit p) || fault then inl no_decision
  else inr (countSum scopeProject (p_ID p) (now - Minute) tbl).

Definition check_hour `{Postgres} (fault : bool) (p : Project) (now : time)
    (obs : RateDecision + Z) (tbl : Counters) : RateDecision :=
  match obs with
  | inl d => d
  | inr m =>
      if fault then no_decision
      else task_decision (p_RateLimit p) m (countSum scopeProjectHour (p_ID p) (now - Hour) tbl)
  end.

Definition postgres_limiter `{Postgres} : ProjectLimiter := {|
  limiter := Counters;
  check_obs := RateDecision + Z;
  lim_check1 fault p now tbl := (check_minute fault p now tbl, tbl);
  lim_check2 := check_hour;
  lim_record1 := record_minute;
  lim_record2 := record_hour
|}.

(** The two statements make up the method of the source. *)
Lemma check_statements `{Postgres} fault1 fault2 p now tbl1 tbl2 :
  check_hour fault2 p now (check_minute fault1 p now tbl1) tbl2 =
  CheckCtx fault1 fault2 (Some p) now tbl1 tbl2.
Proof.
  unfold check_hour, check_minute, CheckCtx, countWindows.
  by destruct (no_caps _), fault1, fault2.
Qed.
