(* ===== verification/RateLimitFacts.v ===== *)
(** * Facts about the rate limiters

    What both limiters promise to task creation ([ProjectLimiterLaws]), that the
    in-process limiter and the PostgreSQL limiter keep the promise, which window
    the PostgreSQL limiter really counts, and that the retry hint of the trading
    surface is exact. *)
From S2P Require Import Prelude TaskRepo TaskRepoFacts Registry RateLimit.

Inductive Dim : Type := DimMinute | DimHour.

Definition window (d : Dim) : duration :=
  match d with DimMinute => Minute | DimHour => Hour end.
Definition cap_of (d : Dim) (caps : ProjectRateLimit) : Z :=
  match d with DimMinute => TasksPerMinute caps | DimHour => TasksPerHour caps end.

(** What a limiter promises.  [lim_count] is the number it compares with the
    cap; [lim_verified] tells that the first statement of a check has already
    compared it; [lim_writes1] tells which statement of a record counts the event, and [lim_live]
    whether an event recorded at one time is still counted at another. *)
Class ProjectLimiterLaws (L : ProjectLimiter) : Type := {
  lim_ok : limiter -> Prop;
  lim_count : Dim -> string -> time -> limiter -> Z;
  lim_obs_ok : Project -> check_obs -> Prop;
  lim_verified : Project -> Dim -> check_obs -> bool;
  lim_writes1 : Dim -> bool;
  lim_live : Dim -> time -> time -> bool;
  lim_check1_ok fault p now l : lim_ok l -> lim_ok (lim_check1 fault p now l).2;
  lim_check1_obs p now l : lim_obs_ok p (lim_check1 false p now l).1;
  lim_check1_keeps fault p now l d pid now' :
    now <= now' -> lim_count d pid now' (lim_check1 fault p now l).2 = lim_count d pid now' l;
  lim_check1_verified p now l d :
    lim_verified p d (lim_check1 false p now l).1 = true -> 0 < cap_of d (p_RateLimit p) ->
    lim_count d (p_ID p) now l < cap_of d (p_RateLimit p);
  lim_check2_passed p now obs l d :
    lim_obs_ok p obs -> 0 < cap_of d (p_RateLimit p) ->
    rl_Blocked (lim_check2 false p now obs l) = false ->
    lim_verified p d obs = true \/ lim_count d (p_ID p) now l < cap_of d (p_RateLimit p);
  lim_record1_ok fault pid t l : lim_ok l -> lim_ok (lim_record1 fault pid t l);
  lim_record2_ok fault pid t l : lim_ok l -> lim_ok (lim_record2 fault pid t l);
  lim_record1_count fault pid t l d pid' now : lim_ok l ->
    lim_count d pid' now (lim_record1 fault pid t l) <=
    lim_count d pid' now l + Z.b2z (lim_writes1 d && (pid =?? pid'));
  lim_record2_count fault pid t l d pid' now : lim_ok l ->
    lim_count d pid' now (lim_record2 fault pid t l) <=
    lim_count d pid' now l + Z.b2z (negb (lim_writes1 d) && (pid =?? pid'));
  lim_record1_counts pid t l d pid' now :
    lim_ok l -> pid <> ""%string -> lim_count d pid' now l < maxInt32 ->
    lim_count d pid' now l + Z.b2z (lim_writes1 d && (pid =?? pid') && lim_live d t now) <=
    lim_count d pid' now (lim_record1 false pid t l);
  lim_record2_counts pid t l d pid' now :
    lim_ok l -> pid <> ""%string -> lim_count d pid' now l < maxInt32 ->
    lim_count d pid' now l + Z.b2z (negb (lim_writes1 d) && (pid =?? pid') && lim_live d t now) <=
    lim_count d pid' now (lim_record2 false pid t l);
  lim_decays d pid now now' l :
    lim_ok l -> now <= now' -> lim_count d pid now' l <= lim_count d pid now l
}.

(** ** Decisions *)

Lemma task_decision_passed caps m h :
  rl_Blocked (task_decision caps m h) = false <->
  (0 < TasksPerMinute caps -> m < TasksPerMinute caps) /\
  (0 < TasksPerHour caps -> h < TasksPerHour caps).
Proof.
  unfold task_decision.
  destruct (0 <? TasksPerMinute caps) eqn:E1, (TasksPerMinute caps <=? m) eqn:E2,
    (0 <? TasksPerHour caps) eqn:E3, (TasksPerHour caps <=? h) eqn:E4; simpl; btauto_hyps; intuition (done || lia).
Qed.

Lemma task_decision_counts caps m h :
  MinuteCount (task_decision caps m h) = m /\ HourCount (task_decision caps m h) = h.
Proof. unfold task_decision. by repeat case_match. Qed.

Lemma window_le_hour d : window d <= Hour.
Proof. by destruct d. Qed.
Lemma window_pos d : 0 < window d.
Proof. by destruct d. Qed.
#[export] Hint Resolve window_le_hour window_pos : vornik.

(** ** The in-process limiter *)

Lemma count_after_nil cutoff : count_after cutoff [] = 0.
Proof. done. Qed.

Lemma count_after_cons cutoff t ts :
  count_after cutoff (t :: ts) = Z.b2z (after cutoff t) + count_after cutoff ts.
Proof. unfold count_after. rewrite count_if_cons. destruct (after cutoff t); simpl; lia. Qed.

Lemma count_after_app cutoff ts us :
  count_after cutoff (ts ++ us) = count_after cutoff ts + count_after cutoff us.
Proof. unfold count_after. rewrite count_if_app. lia. Qed.

Lemma count_after_nonneg cutoff ts : 0 <= count_after cutoff ts.
Proof. unfold count_after. lia. Qed.

Lemma count_after_mono c c' ts : c <= c' -> count_after c' ts <= count_after c ts.
Proof.
  intros H. apply inj_le, count_if_mono. unfold after. intros t _. rewrite !Z.ltb_lt. lia.
Qed.

Lemma count_drop_before c cutoff ts :
  cutoff <= c -> count_after c (drop_before cutoff ts) = count_after c ts.
Proof.
  intros H. induction ts as [|t ts IH]; [done|]. simpl. rewrite count_after_cons.
  destruct (Z.ltb_spec t cutoff); [|by rewrite count_after_cons].
  rewrite IH. unfold after. rewrite (proj2 (Z.ltb_ge _ _)) by lia. done.
Qed.

(** Pruning never changes a count the code takes later. *)
Lemma count_pruned c cutoff ts :
  cutoff <= c -> count_after c (pruneOlderThan ts cutoff) = count_after c ts.
Proof.
  intros H. unfold pruneOlderThan. destruct ts; [done|].
  case_match; [done|by apply count_drop_before].
Qed.

Lemma log_of_insert k k' ts l :
  log_of k' (<[k := ts]> l) = if k =?? k' then ts else log_of k' l.
Proof.
  unfold log_of. case_bool_decide as E; [by subst; rewrite lookup_insert_eq|by rewrite lookup_insert_ne].
Qed.

Lemma Check_log p now l pid c :
  now - Hour <= c -> count_after c (log_of pid (Check_ p now l).2) = count_after c (log_of pid l).
Proof.
  intros H. unfold Check_. destruct p as [p|]; [|done]. case_match; [done|].
  cbn [snd]. rewrite log_of_insert. case_bool_decide as E; [|done]. subst. by apply count_pruned.
Qed.

Lemma Record_log pid t l pid' c :
  count_after c (log_of pid' (Record_ pid t l)) <=
  count_after c (log_of pid' l) + Z.b2z (pid =?? pid').
Proof.
  unfold Record_. case_bool_decide as E0; [case_bool_decide; simpl; lia|].
  rewrite log_of_insert. case_bool_decide as E; simpl; [|lia]. subst.
  rewrite count_after_app, count_after_cons, count_after_nil. destruct (after _ _); simpl; lia.
Qed.

(** [Check] compares the caps with the events of the trailing minute and hour. *)
Lemma Check_exact p now l :
  no_caps (p_RateLimit p) = false ->
  (Check_ (Some p) now l).1 =
  task_decision (p_RateLimit p) (count_after (now - Minute) (log_of (p_ID p) l))
    (count_after (now - Hour) (log_of (p_ID p) l)).
Proof.
  intros H. simpl. rewrite H. simpl. rewrite !count_pruned; [done|lia|].
  unfold Hour, Minute, Second, Millisecond, Microsecond. lia.
Qed.

Lemma no_caps_spec caps d : no_caps caps = true -> cap_of d caps = 0.
Proof. unfold no_caps. intros H. btauto_hyps. by destruct d. Qed.

(** The fields of an instance are proved one by one below it. *)
#[local] Obligation Tactic := cbn beta; try done.

#[export] Program Instance in_process_laws : ProjectLimiterLaws in_process_limiter := {|
  lim_ok _ := True;
  lim_count d pid now l := count_after (now - window d) (log_of pid l);
  lim_obs_ok _ _ := True;
  lim_verified _ _ obs := negb (rl_Blocked obs);
  lim_writes1 _ := true;
  lim_live d t now := after (now - window d) t
|}.
Next Obligation.
  intros fault p now l d pid now' H. apply (Check_log (Some p)).
  pose proof (window_le_hour d). lia.
Qed.
Next Obligation.
  intros p now l d Hv Hcap. cbn [lim_check1 in_process_limiter] in Hv.
  destruct (no_caps (p_RateLimit p)) eqn:E; [by apply (no_caps_spec _ d) in E; lia|].
  rewrite Check_exact in Hv by done. apply negb_true_iff, task_decision_passed in Hv as [H1 H2].
  destruct d; auto.
Qed.
Next Obligation. intros p now obs l d _ _ H. left. simpl in *. by rewrite H. Qed.
Next Obligation. intros fault pid t l d pid' now _. apply Record_log. Qed.
Next Obligation. intros fault pid t l d pid' now _. simpl. lia. Qed.
Next Obligation.
  intros pid t l d pid' now _ Hpid _. simpl. unfold Record_.
  rewrite (bool_decide_eq_false_2 (pid = ""%string)), log_of_insert by done.
  case_bool_decide; simpl; [|lia]. subst. rewrite count_after_app, count_after_cons, count_after_nil. lia.
Qed.
Next Obligation. intros pid t l d pid' now _ _ _. simpl. lia. Qed.
Next Obligation. intros d pid now now' l _ H. apply count_after_mono. lia. Qed.

(** ** The PostgreSQL limiter *)

Lemma sum_counters_insert_new (p : CounterKey -> bool) (k : CounterKey) (n : Z) (tbl : Counters) :
  tbl !! k = None -> sum_counters p (<[k := n]> tbl) = sum_counters p tbl + (if p k then n else 0).
Proof.
  intros Hk. unfold sum_counters. rewrite map_fold_insert_L; [case_match; lia| |done].
  intros j1 j2 z1 z2 y _ _ _. repeat case_match; lia.
Qed.

Lemma sum_counters_insert (p : CounterKey -> bool) (k : CounterKey) (n : Z) (tbl : Counters) :
  sum_counters p (<[k := n]> tbl) =
  sum_counters p tbl + (if p k then n - default 0 (tbl !! k) else 0).
Proof.
  destruct (tbl !! k) as [m|] eqn:Hk; simpl.
  - rewrite <- (insert_delete_id tbl k m Hk) at 2.
    rewrite <- insert_delete_eq, !sum_counters_insert_new by apply lookup_delete_eq.
    case_match; lia.
  - rewrite sum_counters_insert_new by done. case_match; lia.
Qed.

Lemma sum_counters_empty (p : CounterKey -> bool) : sum_counters p ∅ = 0.
Proof. apply map_fold_empty. Qed.

(** Counters are never negative; then fewer keys give a smaller sum. *)
Definition counters_ok (tbl : Counters) : Prop := map_Forall (fun _ n => 0 <= n) tbl.

Lemma sum_counters_mono (p q : CounterKey -> bool) (tbl : Counters) :
  counters_ok tbl -> (forall k, p k = true -> q k = true) ->
  sum_counters p tbl <= sum_counters q tbl.
Proof.
  unfold counters_ok. induction tbl as [|k n tbl Hk IH] using map_ind; intros Hok Hpq; [done|].
  apply map_Forall_insert in Hok as [Hn Hok]; [|done].
  rewrite !sum_counters_insert_new by done. specialize (IH Hok Hpq).
  destruct (p k) eqn:Ep; [rewrite (Hpq k Ep)|destruct (q k)]; lia.
Qed.

Definition scope_of (d : Dim) : string :=
  match d with DimMinute => scopeProject | DimHour => scopeProjectHour end.

#[export] Instance Dim_eq_dec : EqDecision Dim.
Proof. solve_decision. Defined.

Lemma scope_eq d d' : (scope_of d =?? scope_of d') = bool_decide (d = d').
Proof. by destruct d, d'. Qed.

Section Postgres.
Context `{pg : Postgres}.

Lemma upsert_ok kind key w tbl tbl' :
  counters_ok tbl -> upsertCounter kind key w tbl = Ok tbl' -> counters_ok tbl'.
Proof.
  unfold upsertCounter. intros Hok. destruct (tbl !! _) as [n|] eqn:E; [case_match; [|done]|];
    intros [= <-]; apply map_Forall_insert_2; try done.
  specialize (Hok _ _ E). simpl in Hok. lia.
Qed.

Lemma upsert_sum p kind key w tbl tbl' :
  upsertCounter kind key w tbl = Ok tbl' ->
  sum_counters p tbl' = sum_counters p tbl + Z.b2z (p (kind, key, ts_in w)).
Proof.
  unfold upsertCounter. destruct (tbl !! _) as [n|] eqn:E; [case_match; [|done]|];
    intros [= <-]; rewrite sum_counters_insert, E; simpl; destruct (p _); simpl; lia.
Qed.

Lemma record_stmt_ok fault kind pid w tbl :
  counters_ok tbl -> counters_ok (record_stmt fault kind pid w tbl).
Proof.
  intros Hok. unfold record_stmt. case_match; [done|].
  destruct (upsertCounter _ _ _ _) eqn:E; [|done]. by eapply upsert_ok.
Qed.

Lemma record_stmt_count fault d' pid w tbl d pid' since :
  countSum (scope_of d) pid' since (record_stmt fault (scope_of d') pid w tbl) <=
  countSum (scope_of d) pid' since tbl + Z.b2z (bool_decide (d' = d) && (pid =?? pid')).
Proof.
  unfold record_stmt. case_match; [destruct (_ && _); simpl; lia|].
  destruct (upsertCounter _ _ _ _) eqn:E; [|destruct (_ && _); simpl; lia].
  unfold countSum. rewrite (upsert_sum _ _ _ _ _ _ E). unfold in_range. cbn [fst snd].
  rewrite scope_eq. destruct (bool_decide (d' = d)), (pid =?? pid'), (_ <=? _); simpl; lia.
Qed.

(** A counter in the range is at most the sum, so a small sum has room for one
    more. *)
Lemma sum_counters_lookup (p : CounterKey -> bool) (k : CounterKey) (n : Z) (tbl : Counters) :
  counters_ok tbl -> tbl !! k = Some n -> p k = true -> n <= sum_counters p tbl.
Proof.
  intros Hok Hk Hp. rewrite <- (insert_delete_id tbl k n Hk), <- insert_delete_eq.
  rewrite sum_counters_insert_new, Hp by apply lookup_delete_eq.
  assert (0 <= sum_counters p (delete k (delete k tbl))); [|lia].
  etrans; [|apply (sum_counters_mono (fun _ => false)); [|done]].
  - unfold sum_counters. induction (delete k (delete k tbl)) as [|k' m tbl' Hk' IH] using map_ind; [done|].
    rewrite map_fold_insert_L; [done|done|done].
  - unfold counters_ok. by do 2 apply map_Forall_delete.
Qed.

Lemma record_stmt_counts d d' pid t tbl pid' now :
  counters_ok tbl -> pid <> ""%string -> countSum (scope_of d) pid' (now - window d) tbl < maxInt32 ->
  countSum (scope_of d) pid' (now - window d) tbl +
    Z.b2z (bool_decide (d' = d) && (pid =?? pid') &&
           (ts_in (now - window d) <=? ts_in (Truncate t (window d)))) <=
  countSum (scope_of d) pid' (now - window d)
    (record_stmt false (scope_of d') pid (Truncate t (window d')) tbl).
Proof.
  intros Hok Hpid Hroom. unfold record_stmt.
  rewrite (bool_decide_eq_false_2 (pid = ""%string)) by done. cbn [orb].
  assert (Hkey : in_range (scope_of d) pid' (now - window d)
             (scope_of d', pid, ts_in (Truncate t (window d'))) =
           bool_decide (d' = d) && (pid =?? pid') &&
           (ts_in (now - window d) <=? ts_in (Truncate t (window d)))).
  { unfold in_range. cbn [fst snd]. rewrite scope_eq. by case_bool_decide; [subst|]. }
  destruct (upsertCounter _ _ _ _) as [tbl'|] eqn:E.
  - unfold countSum. rewrite (upsert_sum _ _ _ _ _ _ E), Hkey. lia.
  - rewrite <- Hkey. destruct (in_range _ _ _ _) eqn:Hin; [|simpl; lia]. exfalso.
    unfold upsertCounter in E. destruct (tbl !! _) as [n|] eqn:Hn; [|done].
    pose proof (Hok _ _ Hn). pose proof (sum_counters_lookup _ _ _ _ Hok Hn Hin).
    unfold countSum in Hroom. simpl in *. by rewrite int32_fits_pos in E by lia.
Qed.

Lemma task_decision_count caps m h d :
  rl_Blocked (task_decision caps m h) = false -> 0 < cap_of d caps ->
  match d with DimMinute => m | DimHour => h end < cap_of d caps.
Proof. intros [H1 H2]%task_decision_passed. destruct d; auto. Qed.

(** After the first query the decision is final only for want of caps, and the
    minute count may have been compared. *)
Definition minute_obs_ok (p : Project) (obs : RateDecision + Z) : Prop :=
  match obs with inl _ => no_caps (p_RateLimit p) = true | inr _ => True end.
Definition minute_verified (p : Project) (d : Dim) (obs : RateDecision + Z) : bool :=
  match obs, d with
  | inr m, DimMinute => m <? TasksPerMinute (p_RateLimit p)
  | _, _ => false
  end.

#[export] Program Instance postgres_laws `{!PostgresMonotone pg} :
    ProjectLimiterLaws postgres_limiter := {|
  lim_ok := counters_ok;
  lim_count d pid now tbl := countSum (scope_of d) pid (now - window d) tbl;
  lim_obs_ok := minute_obs_ok;
  lim_verified := minute_verified;
  lim_writes1 d := bool_decide (d = DimMinute);
  lim_live d t now := ts_in (now - window d) <=? ts_in (Truncate t (window d))
|}.
Next Obligation. intros ? p now tbl. simpl. unfold check_minute. by destruct (no_caps _) eqn:E. Qed.
Next Obligation.
  intros ? p now tbl d. simpl. unfold check_minute. case_match; [done|].
  destruct d; [|done]. intros H1%Z.ltb_lt _. exact H1.
Qed.
Next Obligation.
  intros ? p now obs tbl d Hobs Hcap. destruct obs as [|m]; simpl in *.
  { apply (no_caps_spec _ d) in Hobs. lia. }
  intros H. pose proof (task_decision_count _ _ _ d H Hcap) as Hd.
  destruct d; [by left; apply Z.ltb_lt | by right].
Qed.
Next Obligation. intros ? fault pid t tbl. apply record_stmt_ok. Qed.
Next Obligation. intros ? fault pid t tbl. apply record_stmt_ok. Qed.
Next Obligation.
  intros ? fault pid t tbl d pid' now _.
  etrans; [apply (record_stmt_count fault DimMinute)|]. by destruct d.
Qed.
Next Obligation.
  intros ? fault pid t tbl d pid' now _.
  etrans; [apply (record_stmt_count fault DimHour)|]. by destruct d.
Qed.
Next Obligation.
  intros ? pid t tbl d pid' now Hok Hpid Hroom. rewrite (bool_decide_ext (d = DimMinute) (DimMinute = d)) by done.
  by apply (record_stmt_counts d DimMinute).
Qed.
Next Obligation.
  intros ? pid t tbl d pid' now Hok Hpid Hroom.
  etrans; [|by apply (record_stmt_counts d DimHour)]. by destruct d.
Qed.
Next Obligation.
  intros Hm d pid now now' tbl Hok H. apply sum_counters_mono; [done|].
  unfold in_range. intros k Hk. btauto_hyps. rewrite !andb_true_iff, !bool_decide_eq_true, Z.leb_le.
  split; [done|]. etrans; [|done]. apply ts_in_mono. lia.
Qed.
End Postgres.

(** ** Which window the PostgreSQL limiter counts *)

(** A time on a whole microsecond is stored as it is. *)
Class PostgresMicros (pg : Postgres) : Prop :=
  ts_in_micros : forall n, ts_in (n * Microsecond) = n * Microsecond.

(** Accepted events, each recorded by both statements without a fault. *)
Definition record_all `{Postgres} (events : list (string * time)) (tbl : Counters) : Counters :=
  foldl (fun tbl e => RecordCtx false false e.1 e.2 tbl) tbl events.

(** The events of a project in the calendar minute or hour of [now]. *)
Definition calendar_count (d : Dim) (pid : string) (now : time) (events : list (string * time)) : Z :=
  Z.of_nat (count_if (fun e => (e.1 =?? pid) &&
    (Truncate e.2 (window d) =? Truncate now (window d))) events).

Lemma Truncate_div t d : 0 < d -> Truncate t d = zeroTime + d * ((t - zeroTime) / d).
Proof. intros Hd. unfold Truncate. pose proof (Z.div_mod (t - zeroTime) d). lia. Qed.

Lemma Truncate_le t d : 0 < d -> Truncate t d <= t < Truncate t d + d.
Proof. intros Hd. unfold Truncate. pose proof (Z.mod_pos_bound (t - zeroTime) d). lia. Qed.

(** Two multiples are equal or a window apart. *)
Lemma Truncate_mono t u d :
  0 < d -> t <= u -> Truncate t d = Truncate u d \/ Truncate t d + d <= Truncate u d.
Proof.
  intros Hd H. rewrite !Truncate_div by done.
  assert ((t - zeroTime) / d <= (u - zeroTime) / d) by (apply Z.div_le_mono; lia).
  destruct (decide ((t - zeroTime) / d = (u - zeroTime) / d)) as [->|]; [by left|right; nia].
Qed.

Section Calendar.
Context `{pg : Postgres, !PostgresMonotone pg, !PostgresMicros pg}.

Lemma ts_in_Truncate t d : ts_in (Truncate t (window d)) = Truncate t (window d).
Proof.
  assert (exists n, Truncate t (window d) = n * Microsecond) as [n ->]; [|apply ts_in_micros].
  rewrite Truncate_div by apply window_pos.
  assert (exists w, window d = w * Microsecond) as [w ->].
  { destruct d; [by exists (60 * 1000 * 1000) | by exists (3600 * 1000 * 1000)]. }
  exists (- 62135596800 * 1000 * 1000 + w * ((t - zeroTime) / (w * Microsecond))).
  assert (zeroTime = - 62135596800 * 1000 * 1000 * Microsecond) as -> by done. lia.
Qed.

(** A bucket is counted at [now] exactly when it is [now]'s own. *)
Lemma bucket_counted d t now :
  t <= now -> Truncate now (window d) + Microsecond <= now ->
  (ts_in (now - window d) <=? Truncate t (window d)) =
  (Truncate t (window d) =? Truncate now (window d)).
Proof.
  intros Ht Hnow. pose proof (window_pos d) as Hw. pose proof (Truncate_le now _ Hw) as Hb.
  assert (Hlow : ts_in (now - window d) <= Truncate now (window d)).
  { rewrite <- ts_in_Truncate. apply ts_in_mono. lia. }
  assert (Hhigh : Truncate now (window d) - window d < ts_in (now - window d)).
  { assert (exists n, Truncate now (window d) - window d + Microsecond = n * Microsecond) as [n Hn].
    { rewrite Truncate_div by done. destruct d.
      - exists (- 62135596800 * 1000 * 1000 + 60000000 * ((now - zeroTime) / window DimMinute)
                - 60000000 + 1). unfold window, zeroTime, Minute, Second, Millisecond, Microsecond. lia.
      - exists (- 62135596800 * 1000 * 1000 + 3600000000 * ((now - zeroTime) / window DimHour)
                - 3600000000 + 1). unfold window, zeroTime, Hour, Minute, Second, Millisecond, Microsecond. lia. }
    assert (ts_in (n * Microsecond) <= ts_in (now - window d)) by (apply ts_in_mono; lia).
    rewrite ts_in_micros in H. unfold Microsecond in *. lia. }
  destruct (Truncate_mono t now (window d) Hw Ht) as [->|Hlt].
  - by rewrite Z.eqb_refl, (proj2 (Z.leb_le _ _)).
  - rewrite (proj2 (Z.leb_gt _ _)) by lia. symmetry. apply Z.eqb_neq. lia.
Qed.

(** No counter overflows while few events are recorded. *)
Lemma record_stmt_exact p d pid t N tbl :
  map_Forall (fun _ n => 0 <= n <= N) tbl -> 0 <= N < maxInt32 -> pid <> ""%string ->
  let tbl' := record_stmt false (scope_of d) pid (Truncate t (window d)) tbl in
  map_Forall (fun _ n => 0 <= n <= N + 1) tbl' /\
  sum_counters p tbl' = sum_counters p tbl + Z.b2z (p (scope_of d, pid, Truncate t (window d))).
Proof.
  intros Hb HN Hpid tbl'. unfold tbl', record_stmt. rewrite bool_decide_eq_false_2 by done. simpl.
  assert (exists tbl1, upsertCounter (scope_of d) pid (Truncate t (window d)) tbl = Ok tbl1 /\
            map_Forall (fun _ n => 0 <= n <= N + 1) tbl1) as (tbl1 & E & Hb1).
  { unfold upsertCounter.
    assert (Hb' : map_Forall (fun _ n => 0 <= n <= N + 1) tbl)
      by (eapply map_Forall_impl; [exact Hb|]; simpl; lia).
    destruct (tbl !! _) as [n|] eqn:E.
    - specialize (Hb _ _ E). simpl in Hb. rewrite int32_fits_pos by lia. eexists. split; [done|].
      apply map_Forall_insert_2; [lia|done].
    - eexists. split; [done|]. apply map_Forall_insert_2; [|done].
      lia. }
  rewrite E. split; [done|]. by rewrite (upsert_sum _ _ _ _ _ _ E), ts_in_Truncate.
Qed.

(** The matching bucket of one event, whichever statement wrote it. *)
Lemma in_range_bucket d d' pid pid' now t :
  t <= now -> Truncate now (window d) + Microsecond <= now ->
  in_range (scope_of d) pid (now - window d) (scope_of d', pid', Truncate t (window d')) =
  bool_decide (d' = d) && ((pid' =?? pid) && (Truncate t (window d) =? Truncate now (window d))).
Proof.
  intros Ht Hnow. unfold in_range. cbn [fst snd]. rewrite scope_eq.
  case_bool_decide as E; [|done]. subst d'. by rewrite bucket_counted.
Qed.

Lemma record_all_counts d pid now events tbl N :
  Truncate now (window d) + Microsecond <= now ->
  Forall (fun e => e.1 <> ""%string /\ e.2 <= now) events ->
  map_Forall (fun _ n => 0 <= n <= N) tbl -> 0 <= N ->
  N + 2 * Z.of_nat (length events) <= maxInt32 ->
  countSum (scope_of d) pid (now - window d) (record_all events tbl) =
  countSum (scope_of d) pid (now - window d) tbl + calendar_count d pid now events.
Proof.
  intros Hnow. revert tbl N. induction events as [|[p t] events IH]; intros tbl N Hev Hb HN Hlen.
  { unfold calendar_count. rewrite count_if_nil. simpl. lia. }
  apply Forall_cons in Hev as [[Hp Ht] Hev]. cbn [fst snd length] in *.
  set (q := in_range (scope_of d) pid (now - window d)).
  destruct (record_stmt_exact q DimMinute p t N tbl) as [Hb1 Hs1]; [done|lia|done|].
  destruct (record_stmt_exact q DimHour p t (N + 1) _ Hb1) as [Hb2 Hs2]; [lia|done|].
  change (record_all ((p, t) :: events) tbl)
    with (record_all events (RecordCtx false false p t tbl)).
  rewrite (IH _ (N + 1 + 1)); [|done|exact Hb2|lia|lia].
  unfold countSum at 1. fold q. unfold RecordCtx, record_hour, record_minute.
  etrans; [apply (f_equal (fun z => z + _)), Hs2|]. rewrite Hs1. unfold q.
  rewrite !in_range_bucket by done. unfold calendar_count. rewrite count_if_cons. cbn [fst snd].
  unfold countSum. destruct d, (p =?? pid), (_ =? _); simpl; lia.
Qed.

Lemma record_all_empty d pid now events :
  Truncate now (window d) + Microsecond <= now ->
  Forall (fun e => e.1 <> ""%string /\ e.2 <= now) events ->
  2 * Z.of_nat (length events) <= maxInt32 ->
  countSum (scope_of d) pid (now - window d) (record_all events ∅) =
  calendar_count d pid now events.
Proof.
  intros Hnow Hev Hlen. by rewrite (record_all_counts d pid now events ∅ 0).
Qed.
End Calendar.

(** The PostgreSQL limiter counts calendar windows, not trailing ones.  When
    every event was recorded without a fault, on an initially empty table and by
    any number of daemons, a check at least a microsecond into its minute and hour
    compares the caps with the events of the same project in the same calendar
    minute and in the same calendar hour, and nothing else. *)
Theorem postgres_counts_calendar_window `{pg : Postgres, !PostgresMonotone pg, !PostgresMicros pg}
    (p : Project) (now : time) (events : list (string * time)) :
  no_caps (p_RateLimit p) = false ->
  Forall (fun e => e.1 <> ""%string /\ e.2 <= now) events ->
  2 * Z.of_nat (length events) <= maxInt32 ->
  Truncate now Minute + Microsecond <= now ->
  let tbl := record_all events ∅ in
  CheckCtx false false (Some p) now tbl tbl =
  task_decision (p_RateLimit p) (calendar_count DimMinute (p_ID p) now events)
    (calendar_count DimHour (p_ID p) now events).
Proof.
  intros Hc Hev Hlen Hnow tbl. unfold CheckCtx, countWindows. rewrite Hc.
  assert (Hh : Truncate now Hour + Microsecond <= now).
  { etrans; [|exact Hnow]. apply Z.add_le_mono_r. rewrite !Truncate_div by done.
    assert (60 * ((now - zeroTime) / Hour) <= (now - zeroTime) / Minute).
    { apply Z.div_le_lower_bound; [done|]. assert (0 < Hour) as Hpos by done.
      pose proof (Z.mul_div_le (now - zeroTime) Hour Hpos) as Hle.
      change Hour with (Minute * 60) in Hle at 1. lia. }
    assert (0 <= Minute) as HM by done.
    pose proof (Z.mul_le_mono_nonneg_l _ _ _ HM H) as Hle.
    rewrite Z.mul_assoc in Hle. change (Minute * 60) with Hour in Hle. lia. }
  f_equal; [apply (record_all_empty DimMinute)|apply (record_all_empty DimHour)]; done.
Qed.

(** ** The retry hint of the trading surface *)

(** [oldest_after] is the least event after the cutoff, if there is one. *)
Lemma oldest_after_min cutoff ts :
  zeroTime <= cutoff ->
  let o := oldest_after cutoff ts in
  (o = zeroTime /\ forall t, t ∈ ts -> t <= cutoff) \/
  (o ∈ ts /\ cutoff < o /\ forall t, t ∈ ts -> cutoff < t -> o <= t).
Proof.
  intros Hz. induction ts as [|u ts IH] using rev_ind; simpl.
  { left. split; [done|]. by intros t ?%elem_of_nil. }
  unfold oldest_after. rewrite foldl_app. fold (oldest_after cutoff ts). cbn [foldl].
  set (o := oldest_after cutoff ts) in *. unfold after.
  destruct (Z.ltb_spec cutoff u) as [Hu|Hu].
  - right. destruct IH as [[-> Hnone]|(Hin & Hc & Hmin)]; simpl.
    + split_and!; [set_solver|done|]. intros t [Ht| ->%list_elem_of_singleton]%elem_of_app; [|lia].
      specialize (Hnone t Ht). lia.
    + rewrite (proj2 (Z.eqb_neq o zeroTime)) by lia. simpl.
      destruct (Z.ltb_spec u o); (split_and!; [set_solver|lia|]);
        intros t [Ht| ->%list_elem_of_singleton]%elem_of_app Hct; try lia;
        specialize (Hmin t Ht Hct); lia.
  - destruct IH as [[-> Hnone]|(Hin & Hc & Hmin)]; [left|right].
    + split; [done|]. intros t [Ht| ->%list_elem_of_singleton]%elem_of_app; auto.
    + split_and!; [set_solver|done|].
      intros t [Ht| ->%list_elem_of_singleton]%elem_of_app; [auto|lia].
Qed.

(** Until the least counted event leaves its window the count stands; then it
    falls. *)
Lemma count_after_until c c' o ts :
  o ∈ ts -> c < o -> (forall t, t ∈ ts -> c < t -> o <= t) -> c <= c' ->
  (c' < o -> count_after c' ts = count_after c ts) /\
  (o <= c' -> count_after c' ts < count_after c ts).
Proof.
  intros Ho Hco Hmin Hcc. split; intros Hc'.
  - unfold count_after. f_equal. apply count_if_ext. intros t Ht. unfold after.
    specialize (Hmin t Ht). apply eq_true_iff_eq. rewrite !Z.ltb_lt. lia.
  - clear Hmin. apply list_elem_of_split in Ho as (l1 & l2 & ->).
    rewrite !count_after_app, !count_after_cons.
    pose proof (count_after_mono c c' l1 Hcc). pose proof (count_after_mono c c' l2 Hcc).
    unfold after. rewrite (proj2 (Z.ltb_ge c' o)), (proj2 (Z.ltb_lt c o)) by lia. simpl. lia.
Qed.

(** The event the retry hint of a window counts from: the least one in it. *)
Lemma oldest_counted w now ts :
  zeroTime <= now - w -> 0 < count_after (now - w) ts ->
  let o := oldest_after (now - w) ts in
  o ∈ ts /\ now - w < o /\ forall t, t ∈ ts -> now - w < t -> o <= t.
Proof.
  intros Hz Hpos o. destruct (oldest_after_min (now - w) ts Hz) as [[_ Hnone]|H]; [|exact H].
  assert (Hex : (0 < count_if (after (now - w)) ts)%nat) by (unfold count_after in Hpos; lia).
  apply count_if_pos in Hex as (t & Ht & Ha%Z.ltb_lt). specialize (Hnone t Ht). lia.
Qed.

(** The hint is the distance to the moment that event leaves the window. *)
Lemma retryUntil_exact w now o :
  now - w < o -> o + w - now <= maxInt64 -> retryUntil (o + w) now = o + w - now.
Proof.
  intros Ho Hmax. unfold retryUntil, time_sub.
  assert (minInt64 < 0) by done. rewrite Z.min_r, Z.max_r by lia.
  by rewrite (proj2 (Z.leb_gt _ _)) by lia.
Qed.

Definition key_log (key : string) (l : Limiter) : list time :=
  log_of (tradingKeyPrefix ++ key)%string l.

Lemma CheckKey_log key now caps l c :
  now - Hour <= c -> count_after c (key_log key (CheckKey key now caps l).2) =
                     count_after c (key_log key l).
Proof.
  intros H. unfold CheckKey. repeat (case_match; [done|]). cbn [snd]. unfold key_log.
  rewrite log_of_insert, bool_decide_eq_true_2 by done. by apply count_pruned.
Qed.

Definition key_cap (d : Dim) (caps : RateLimit) : Z :=
  match d with DimMinute => PerMinute caps | DimHour => PerHour caps end.
Definition key_count (d : Dim) (key : string) (now : time) (l : Limiter) : Z :=
  count_after (now - window d) (key_log key l).

(** [CheckKey] in terms of the events of the trailing windows. *)
Lemma CheckKey_exact key now caps l :
  key <> ""%string -> (PerMinute caps =? 0) && (PerHour caps =? 0) = false ->
  let ts := pruneOlderThan (key_log key l) (now - Hour) in
  let d := (CheckKey key now caps l).1 in
  MinuteCount d = key_count DimMinute key now l /\ HourCount d = key_count DimHour key now l /\
  (rl_Blocked d = true <->
   exists dim, 0 < key_cap dim caps <= key_count dim key now l) /\
  (rl_Blocked d = true -> exists dim, 0 < key_cap dim caps <= key_count dim key now l /\
     RetryAfter d = retryUntil (oldest_after (now - window dim) ts + window dim) now).
Proof.
  intros Hk Hc ts d.
  assert (Hts : forall dim, key_count dim key now l = count_after (now - window dim) ts).
  { intros dim. symmetry. apply count_pruned. pose proof (window_le_hour dim). lia. }
  unfold d, CheckKey. rewrite bool_decide_eq_false_2, Hc by done. cbn [fst].
  fold (key_log key l). fold ts. setoid_rewrite Hts.
  destruct ((0 <? PerMinute caps) && (PerMinute caps <=? count_after (now - Minute) ts)) eqn:E1;
    [|destruct ((0 <? PerHour caps) && (PerHour caps <=? count_after (now - Hour) ts)) eqn:E2];
    cbn [rl_Blocked MinuteCount HourCount RetryAfter]; split_and!; try done; btauto_hyps.
  - split; [|done]. intros _. by exists DimMinute.
  - intros _. by exists DimMinute.
  - split; [|done]. intros _. by exists DimHour.
  - intros _. by exists DimHour.
  - split; [done|]. intros ([|] & Hd); cbn [key_cap window] in Hd; exfalso.
    + rewrite andb_false_iff, Z.ltb_ge, Z.leb_gt in E1. lia.
    + rewrite andb_false_iff, Z.ltb_ge, Z.leb_gt in E2. lia.
Qed.

Lemma elem_of_pruned t ts cutoff : t ∈ pruneOlderThan ts cutoff -> t ∈ ts.
Proof.
  assert (forall us, t ∈ drop_before cutoff us -> t ∈ us).
  { induction us as [|u us IH]; [done|]. simpl. case_match; [|done]. intros H1. right. auto. }
  unfold pruneOlderThan. destruct ts; [done|]. case_match; auto.
Qed.

Lemma CheckKey_blocked key now caps l :
  rl_Blocked (CheckKey key now caps l).1 = true <->
  key <> ""%string /\ exists dim, 0 < key_cap dim caps <= key_count dim key now l.
Proof.
  destruct (decide (key = ""%string)) as [->|Hk]; [split; [done|naive_solver]|].
  destruct ((PerMinute caps =? 0) && (PerHour caps =? 0)) eqn:Hc.
  - unfold CheckKey. rewrite bool_decide_eq_false_2, Hc by done. split; [done|].
    intros (_ & [|] & H); btauto_hyps; simpl in H; lia.
  - destruct (CheckKey_exact key now caps l Hk Hc) as (_ & _ & H & _). by rewrite H; naive_solver.
Qed.

(** The retry hint of a refused order is exact.  It is positive; as long as
    it has not run out the key stays refused; once it has run out the window that
    refused the order holds fewer events, and if it was just full and no other
    capped window is, the next order is admitted, unless something was recorded in
    between. *)
Theorem retry_after_exact (key : string) (now : time) (caps : RateLimit) (l : Limiter) :
  Hour <= now - zeroTime ->
  Forall (fun t => t + Hour - now <= maxInt64) (key_log key l) ->
  let d := (CheckKey key now caps l).1 in
  let l' := (CheckKey key now caps l).2 in
  rl_Blocked d = true ->
  exists dim, 0 < key_cap dim caps <= key_count dim key now l /\ 0 < RetryAfter d /\
    (forall t, now <= t < now + RetryAfter d -> rl_Blocked (CheckKey key t caps l').1 = true) /\
    (forall t, now + RetryAfter d <= t ->
       key_count dim key t l' < key_count dim key now l /\
       (key_count dim key now l = key_cap dim caps ->
        (forall dim', dim' <> dim -> 0 < key_cap dim' caps ->
           key_count dim' key now l < key_cap dim' caps) ->
        rl_Blocked (CheckKey key t caps l').1 = false)).
Proof.
  intros Hz Hmax d l' Hb.
  assert (Hb' := Hb). apply CheckKey_blocked in Hb' as [Hk _].
  assert (Hc : (PerMinute caps =? 0) && (PerHour caps =? 0) = false).
  { apply not_true_iff_false. intros E. unfold d, CheckKey in Hb.
    rewrite bool_decide_eq_false_2, E in Hb by done. done. }
  destruct (CheckKey_exact key now caps l Hk Hc) as (_ & _ & _ & Hr).
  destruct (Hr Hb) as (dim & Hcap & Hretry). fold d in Hretry. clear Hr.
  set (ts := pruneOlderThan (key_log key l) (now - Hour)) in *.
  assert (Hl' : forall dim t, now <= t -> key_count dim key t l' = count_after (t - window dim) ts).
  { intros dim' t Ht. unfold key_count, l'. pose proof (window_le_hour dim').
    rewrite CheckKey_log by lia. symmetry. apply count_pruned. lia. }
  assert (Hl : forall dim, key_count dim key now l = count_after (now - window dim) ts).
  { intros dim'. symmetry. apply count_pruned. pose proof (window_le_hour dim'). lia. }
  pose proof (window_le_hour dim) as Hw.
  destruct (oldest_counted (window dim) now ts) as (Ho & Hlow & Hmin); [lia|rewrite <- Hl; lia|].
  set (o := oldest_after (now - window dim) ts) in *.
  assert (Hod : RetryAfter d = o + window dim - now).
  { rewrite Hretry. apply retryUntil_exact; [done|].
    rewrite Forall_forall in Hmax. specialize (Hmax o (elem_of_pruned _ _ _ Ho)). lia. }
  exists dim. rewrite Hod. split_and!; [lia|lia|lia| |].
  - intros t Ht. apply CheckKey_blocked. split; [done|]. exists dim.
    rewrite Hl' by lia. rewrite Hl in Hcap.
    destruct (count_after_until (now - window dim) (t - window dim) o ts) as [E _]; [done..|lia|].
    rewrite E by lia. lia.
  - intros t Ht. rewrite Hl', Hl by lia.
    destruct (count_after_until (now - window dim) (t - window dim) o ts) as [_ E]; [done..|lia|].
    specialize (E ltac:(lia)). split; [done|]. intros Hfull Hother. apply not_true_iff_false.
    intros (_ & dim' & Hd')%CheckKey_blocked. rewrite Hl' in Hd' by lia.
    destruct (decide (dim' = dim)) as [->|Hne]; [lia|]. specialize (Hother dim' Hne ltac:(lia)).
    rewrite Hl in Hother.
    pose proof (count_after_mono (now - window dim') (t - window dim') ts). lia.
Qed.

(** ** Concrete runs *)

#[export] Instance pg_example_micros : PostgresMicros pg_example.
Proof. intros n. simpl. by rewrite Z.div_mul. Qed.

Definition budget_none : ProjectBudget :=
  mkProjectBudget f64_zero f64_zero f64_zero f64_zero "" f64_zero.

Definition project_capped (perMinute perHour : Z) : Project := {|
  p_ID := "p"; p_SwarmID := "s"; p_DefaultWorkflowID := "w"; p_DefaultPriority := 0;
  p_RateLimit := mkProjectRateLimit perMinute perHour; p_Budget := budget_none |}.

Lemma postgres_counts_calendar_window_witness :
  let now := 1000 * Hour + Second in
  let events := [("p", 1000 * Hour - Second); ("q", now); ("p", 1000 * Hour + 5)]%string in
  CheckCtx (pg := pg_example) false false (Some (project_capped 1 2)) now
    (record_all (H := pg_example) events ∅) (record_all (H := pg_example) events ∅) =
  mkRateDecision true "per-minute task rate limit reached" 1 1 0.
Proof.
  intros now events.
  pose proof (postgres_counts_calendar_window (pg := pg_example) (project_capped 1 2) now events) as H.
  rewrite H; [by vm_compute|done| |by vm_compute|by vm_compute].
  unfold events. repeat (apply Forall_cons; split; [split; [done|by vm_compute]|]). by apply Forall_nil.
Defined.

(** One caller at a time: a check and, if it passes, a record. *)
Definition serial `{Postgres} (p : Project) (tbl : Counters) (t : time) : Counters :=
  if rl_Blocked (CheckCtx false false (Some p) t tbl tbl) then tbl
  else RecordCtx false false (p_ID p) t tbl.
Definition serial_in_process (p : Project) (l : Limiter) (t : time) : Limiter :=
  let '(d, l) := Check_ (Some p) t l in
  if rl_Blocked d then l else Record_ (p_ID p) t l.

(** Around the turn of a minute the PostgreSQL limiter admits twice the cap within
    a second, one call at a time; the in-process limiter admits the cap. *)
Example calendar_burst :
  let burst := [1; 2; 3; 4; 1001; 1002; 1003; 1004] in
  let times := map (fun ms => 1000 * Hour - Second + ms * Millisecond) burst in
  let p := project_capped 3 0 in
  sum_counters (fun k => k.1.1 =?? scopeProject)
    (foldl (serial (H := pg_example) p) ∅ times) = 6 /\
  length (log_of "p" (foldl (serial_in_process p) ∅ times)) = 3%nat.
Proof. by vm_compute. Qed.

Lemma retry_after_exact_witness :
  let l := foldl (fun l t => RecordKey "k" t l) ∅ [10 * Hour; 10 * Hour + 20 * Second] in
  let d := (CheckKey "k" (10 * Hour + 30 * Second) (mkRateLimit 2 0) l).1 in
  rl_Blocked d = true /\ exists dim, 0 < key_cap dim (mkRateLimit 2 0) /\ 0 < RetryAfter d.
Proof.
  intros l d. assert (Hb : rl_Blocked d = true) by by vm_compute. split; [done|].
  destruct (retry_after_exact "k" (10 * Hour + 30 * Second) (mkRateLimit 2 0) l) as (dim & H1 & H2 & _).
  - by vm_compute.
  - repeat (apply Forall_cons; split; [by vm_compute|]). by apply Forall_nil.
  - exact Hb.
  - exists dim. split; [lia|exact H2].
Defined.

(** The hint of that refusal: thirty seconds. *)
Example retry_after_thirty :
  RetryAfter (CheckKey "k" (10 * Hour + 30 * Second) (mkRateLimit 2 0)
    (foldl (fun l t => RecordKey "k" t l) ∅ [10 * Hour; 10 * Hour + 20 * Second])).1 = 30 * Second.
Proof. by vm_compute. Qed.
