(* ===== verification/Reminder.v ===== *)
(** * Reminders

    [src/internal/persistence/reminder.go], every method of
    [persistence/postgres/reminder_repository.go], the cron functions of
    [reminders/cron.go] and the heartbeat of [reminders/runner.go].  A runner is a
    program counter and a turn is one statement or one message; several daemons run
    one each, and operators write in between.  The cron library is a parameter. *)
From stdpp Require Import pretty.
From S2P Require Import Prelude GoStrings TaskModel TaskRepo.
Open Scope string_scope.
Open Scope list_scope.
Open Scope Z_scope.

(** ** Data *)

Inductive ReminderStatus : Type :=
| ReminderStatusPending
| ReminderStatusFiring
| ReminderStatusFired
| ReminderStatusCancelled
| ReminderStatusExpired
| ReminderStatusOther (s : string).

#[export] Instance ReminderStatus_eq_dec : EqDecision ReminderStatus.
Proof. solve_decision. Defined.

(** [ReminderStatus.IsTerminal]. *)
Definition rm_terminal (s : ReminderStatus) : bool :=
  bool_decide (s ∈ [ReminderStatusFired; ReminderStatusCancelled; ReminderStatusExpired]).

Record Reminder : Type := mkReminder {
  rm_ID : string;
  rm_OperatorID : string;
  rm_Channel : string;
  rm_ChannelRef : string;
  rm_ProjectID : string;
  rm_FireAt : time;
  rm_Content : string;
  rm_Status : ReminderStatus;
  rm_CreatedAt : time;
  rm_FiredAt : option time;
  rm_CancelledAt : option time;
  rm_CreatedVia : string;
  rm_ErrorCount : Z;
  rm_LastError : string;
  rm_CronExpr : string;
  rm_RecurrenceUntil : option time
}.

#[export] Instance Reminder_eq_dec : EqDecision Reminder.
Proof. solve_decision. Defined.

Definition IsRecurring (r : Reminder) : bool := negb (rm_CronExpr r =?? "").

Record ReminderListFilter : Type := mkReminderListFilter {
  rf_OperatorID : string;
  rf_ProjectID : string;
  rf_Status : ReminderStatus;
  rf_FireBefore : time;
  rf_FireAfter : time;
  rf_PageSize : Z
}.

Abbreviation Reminders := (list Reminder).

(** ** The repository *)

Definition update_reminders (p : Reminder -> bool) (f : Reminder -> Reminder) (tbl : Reminders) :
    Reminders :=
  map (fun r => if p r then f r else r) tbl.

Definition rm_by_id (id : string) (r : Reminder) : bool := rm_ID r =?? id.

(** An update of the rows that satisfy the test, which reports that there are none. *)
Definition update_found (p : Reminder -> bool) (f : Reminder -> Reminder) (tbl : Reminders) :
    result RepoError Reminders :=
  if Nat.eqb (count_if p tbl) 0 then Err ErrNotFound else Ok (update_reminders p f tbl).

(** The guard of the two statements that end a delivery. *)
Definition firing (id : string) (r : Reminder) : bool :=
  rm_by_id id r && (rm_Status r =?? ReminderStatusFiring).

Section Repository.
Context `{pg : Postgres}.

(** The struct with its defaults. *)
Definition reminder_defaults (now : time) (newID : string) (r : Reminder) : Reminder :=
  r <| rm_ID := if rm_ID r =?? "" then newID else rm_ID r |>
    <| rm_CreatedAt := if rm_CreatedAt r =? zeroTime then now else rm_CreatedAt r |>
    <| rm_CreatedVia := if rm_CreatedVia r =?? "" then "chat" else rm_CreatedVia r |>
    <| rm_Status := ReminderStatusPending |>.

(** The row: the columns that the INSERT does not list have defaults, and the empty
    project and expression are stored as NULL, which is read back as the empty text. *)
Definition inserted_reminder (r : Reminder) : Reminder :=
  r <| rm_FireAt := ts_in (rm_FireAt r) |> <| rm_CreatedAt := ts_in (rm_CreatedAt r) |>
    <| rm_RecurrenceUntil := ts_in <$> rm_RecurrenceUntil r |>
    <| rm_FiredAt := None |> <| rm_CancelledAt := None |> <| rm_ErrorCount := 0 |>
    <| rm_LastError := "" |>.

Definition InsertReminder (now : time) (newID : string) (r : option Reminder) (tbl : Reminders) :
    result RepoError (Reminder * Reminders) :=
  match r with
  | None => Err (ErrArgument "reminder_repository: nil reminder")
  | Some r =>
      let r := reminder_defaults now newID r in
      if bool_decide (rm_ID r ∈ map rm_ID tbl) then Err (ErrSQL "23505")
      else Ok (r, tbl ++ [inserted_reminder r])
  end.

Definition GetReminder (id : string) (tbl : Reminders) : result RepoError Reminder :=
  match filter (fun r => rm_by_id id r = true) tbl with
  | [] => Err ErrNotFound
  | r :: _ => Ok r
  end.

Definition ListReminders (flt : ReminderListFilter) (tbl : Reminders) : list Reminder :=
  let size := if rf_PageSize flt <=? 0 then 50 else rf_PageSize flt in
  let size := if 500 <? size then 500 else size in
  take (Z.to_nat size) (order_by (fun r => [rm_FireAt r])
    (filter (fun r =>
       ((rf_OperatorID flt =?? "") || (rm_OperatorID r =?? rf_OperatorID flt)) &&
       ((rf_ProjectID flt =?? "") || (rm_ProjectID r =?? rf_ProjectID flt)) &&
       ((rf_Status flt =?? ReminderStatusOther "") || (rm_Status r =?? rf_Status flt)) &&
       ((rf_FireBefore flt =? zeroTime) || (rm_FireAt r <? ts_in (rf_FireBefore flt))) &&
       ((rf_FireAfter flt =? zeroTime) || (ts_in (rf_FireAfter flt) <? rm_FireAt r)) = true) tbl)).

(** The subquery of [LeaseDue]: due rows that no other transaction has locked. *)
Definition due (now : time) (r : Reminder) : bool :=
  (rm_Status r =?? ReminderStatusPending) && (rm_FireAt r <=? ts_in now).

Definition lease_limit (limit : Z) : Z := if limit <=? 0 then 100 else limit.

Definition due_ids (now : time) (limit : Z) (locked : list string) (tbl : Reminders) : list string :=
  map rm_ID (take (Z.to_nat (lease_limit limit)) (order_by (fun r => [rm_FireAt r])
    (filter (fun r => due now r && bool_decide (rm_ID r ∉ locked) = true) tbl))).

Definition leased_set (dbnow : time) (r : Reminder) : Reminder :=
  r <| rm_Status := ReminderStatusFiring |> <| rm_FiredAt := Some dbnow |>.

(** The rows returned, in no particular order, and the new table. *)
Definition LeaseDue (now dbnow : time) (limit : Z) (locked : list string) (tbl : Reminders) :
    list Reminder * Reminders :=
  let ids := due_ids now limit locked tbl in
  let claimed r := bool_decide (rm_ID r ∈ ids) in
  (map (leased_set dbnow) (filter (fun r => claimed r = true) tbl),
   update_reminders claimed (leased_set dbnow) tbl).

Definition MarkFired (dbnow : time) (id : string) (tbl : Reminders) : result RepoError Reminders :=
  update_found (firing id)
    (fun r => r <| rm_Status := ReminderStatusFired |> <| rm_FiredAt := Some dbnow |>) tbl.

Definition Reschedule (id : string) (next : time) (tbl : Reminders) : result RepoError Reminders :=
  update_found (firing id)
    (fun r => r <| rm_Status := ReminderStatusPending |> <| rm_FireAt := ts_in next |>) tbl.

(** [error_count] is an [INT]. *)
Definition MarkErrored (id msg : string) (tbl : Reminders) : result RepoError Reminders :=
  if forallb (fun r => negb (rm_by_id id r) || int32_fits (rm_ErrorCount r + 1)) tbl
  then Ok (update_reminders (rm_by_id id)
             (fun r => r <| rm_LastError := msg |> <| rm_ErrorCount := rm_ErrorCount r + 1 |>) tbl)
  else Err (ErrSQL "22003").

Definition UpdateFields (id : string) (fireAt : time) (content : string) (tbl : Reminders) :
    result RepoError Reminders :=
  update_found (fun r => rm_by_id id r && (rm_Status r =?? ReminderStatusPending))
    (fun r => r <| rm_FireAt := ts_in fireAt |>
                <| rm_Content := if content =?? "" then rm_Content r else content |>) tbl.

Definition CancelReminder (dbnow : time) (id : string) (tbl : Reminders) : Reminders :=
  update_reminders (fun r => rm_by_id id r && negb (rm_terminal (rm_Status r)))
    (fun r => r <| rm_Status := ReminderStatusCancelled |> <| rm_CancelledAt := Some dbnow |>) tbl.

Definition DeleteReminder (id : string) (tbl : Reminders) : result RepoError Reminders :=
  if Nat.eqb (count_if (rm_by_id id) tbl) 0 then Err ErrNotFound
  else Ok (filter (fun r => rm_by_id id r = false) tbl).

Definition CountPendingByOperator (operatorID : string) (tbl : Reminders) : Z :=
  Z.of_nat (count_if (fun r => (rm_OperatorID r =?? operatorID) &&
                               (rm_Status r =?? ReminderStatusPending)) tbl).
End Repository.

(** ** Cron expressions *)

(** The parser of the cron library: an error text, or the schedule, which gives the
    next time after another, if any. *)
Class Cron : Type := { cron_parse : string -> result string (time -> option time) }.

Section CronExpr.
Context `{Cron}.

Inductive CronError : Type :=
| CronEmpty
| CronInvalid (msg : string)
| CronNoFire (expr : string) (after : time).

Definition ValidateCronExpr (expr : string) : result CronError unit :=
  let expr := TrimSpace expr in
  if expr =?? "" then Err CronEmpty
  else match cron_parse expr with Err msg => Err (CronInvalid msg) | Ok _ => Ok () end.

Definition NextFireAt (expr : string) (after : time) : result CronError time :=
  let expr := TrimSpace expr in
  match cron_parse expr with
  | Err msg => Err (CronInvalid msg)
  | Ok schedule =>
      match schedule after with None => Err (CronNoFire expr after) | Some next => Ok next end
  end.
End CronExpr.

(** ** The heartbeat *)

Definition DefaultBatchSize : Z := 100.

(** A message handed to a channel, with the slot it was due at. *)
Record Sent : Type := mkSent {
  sn_ID : string;
  sn_Slot : time;
  sn_Channel : string;
  sn_SessionID : string;
  sn_Text : string
}.

Record FiredAudit : Type := mkFiredAudit {
  fa_Principal : string;
  fa_Target : string;
  fa_Channel : string;
  fa_ContentLength : Z
}.

Record RemWorld : Type := mkRemWorld {
  rw_table : Reminders;
  rw_outbox : list Sent;
  rw_audit : list FiredAudit
}.

(** What a turn draws from outside; [rd_send] is the error of the channel, if any. *)
Record RemDraw : Type := mkRemDraw {
  rd_now : time;
  rd_dbnow : time;
  rd_fault : Fault;
  rd_locked : list string;
  rd_send : option string
}.

(** The configuration of a runner: its channels ([None] without a resolver), its
    batch and whether the audit log is wired. *)
Record RunnerConfig : Type := mkRunnerConfig {
  rc_channels : option (list string);
  rc_batch : Z;
  rc_audit : bool
}.

(** [New]: defaults. *)
Definition batch_of (c : RunnerConfig) : Z :=
  if rc_batch c <=? 0 then DefaultBatchSize else rc_batch c.

Definition reminderBodyWithMarker (r : Reminder) : string := "⏰ Reminder: " +:+ rm_Content r.

Section Runner.
Context `{pg : Postgres} {cron : Cron}.
(** The text of a cron error. *)
Context (cron_text : CronError -> string) (cfg : RunnerConfig).

(** Where a runner is: idle, before the claim, before the delivery of a row, before
    the statement that follows it, before the audit row. *)
Inductive RunnerPC : Type :=
| RnIdle
| RnLease
| RnDeliver (r : Reminder) (rest : list Reminder)
| RnErrored (r : Reminder) (msg : string) (rest : list Reminder)
| RnFinalize (r : Reminder) (rest : list Reminder)
| RnAudit (r : Reminder) (rest : list Reminder).

Definition next_due (rows : list Reminder) : RunnerPC :=
  match rows with [] => RnIdle | r :: rest => RnDeliver r rest end.

(** A statement that writes the table; the caller only learns whether it failed. *)
Definition rem_write (f : Fault) (r : result RepoError Reminders) (w : RemWorld) : RemWorld :=
  if refused f then w
  else match r with Ok tbl => mkRemWorld tbl (rw_outbox w) (rw_audit w) | Err _ => w end.

Definition sent_of (r : Reminder) : Sent :=
  mkSent (rm_ID r) (rm_FireAt r) (rm_Channel r) (rm_ChannelRef r) (reminderBodyWithMarker r).

(** [finalize]: the statement a delivered row ends with. *)
Definition finalize_reminder (now dbnow : time) (r : Reminder) (tbl : Reminders) :
    result RepoError Reminders :=
  if negb (IsRecurring r) then MarkFired dbnow (rm_ID r) tbl
  else match NextFireAt (rm_CronExpr r) now with
       | Err e => MarkErrored (rm_ID r) ("re-arm cron invalid: " +:+ cron_text e) tbl
       | Ok next =>
           match rm_RecurrenceUntil r with
           | Some until =>
               if until <? next then MarkFired dbnow (rm_ID r) tbl
               else Reschedule (rm_ID r) next tbl
           | None => Reschedule (rm_ID r) next tbl
           end
       end.

(** One turn of [tickOnce] and [deliver]. *)
Definition runner_turn (d : RemDraw) (pc : RunnerPC) (w : RemWorld) : RunnerPC * RemWorld :=
  let f := rd_fault d in
  match pc with
  | RnIdle => (RnIdle, w)
  | RnLease =>
      if refused f then (RnIdle, w)
      else
        let '(rows, tbl) := LeaseDue (rd_now d) (rd_dbnow d) (batch_of cfg) (rd_locked d) (rw_table w) in
        (if failed f then RnIdle else next_due rows, mkRemWorld tbl (rw_outbox w) (rw_audit w))
  | RnDeliver r rest =>
      match rc_channels cfg with
      | None => (RnErrored r "no channel resolver wired" rest, w)
      | Some names =>
          if negb (bool_decide (rm_Channel r ∈ names))
          then (RnErrored r ("channel " +:+ rm_Channel r +:+ " not configured") rest, w)
          else
            (match rd_send d with
             | Some msg => RnErrored r msg rest
             | None => RnFinalize r rest
             end, mkRemWorld (rw_table w) (rw_outbox w ++ [sent_of r]) (rw_audit w))
      end
  | RnErrored r msg rest => (next_due rest, rem_write f (MarkErrored (rm_ID r) msg (rw_table w)) w)
  | RnFinalize r rest =>
      (RnAudit r rest, rem_write f (finalize_reminder (rd_now d) (rd_dbnow d) r (rw_table w)) w)
  | RnAudit r rest =>
      (next_due rest,
       if rc_audit cfg && negb (refused f)
       then mkRemWorld (rw_table w) (rw_outbox w)
              (rw_audit w ++ [mkFiredAudit (rm_OperatorID r) (rm_ID r) (rm_Channel r)
                                (Z.of_nat (String.length (rm_Content r)))])
       else w)
  end.

(** *** Several daemons *)

(** A tick (or a kick) of a daemon, which starts a sweep unless one is under way or
    the daemon is not the leader; a turn; a crash; what operators and tools write. *)
Inductive RemEvent : Type :=
| RvTick (i : nat) (leader : bool)
| RvTurn (i : nat) (d : RemDraw)
| RvCrash (i : nat)
| RvInsert (now : time) (newID : string) (r : Reminder)
| RvUpdate (id : string) (fireAt : time) (content : string)
| RvCancel (now : time) (id : string)
| RvDelete (id : string).

Definition rem_step (ev : RemEvent) (s : list RunnerPC * RemWorld) : list RunnerPC * RemWorld :=
  let '(pcs, w) := s in
  match ev with
  | RvTick i leader =>
      match pcs !! i with
      | Some RnIdle => if leader then (<[i := RnLease]> pcs, w) else s
      | _ => s
      end
  | RvTurn i d =>
      match pcs !! i with
      | Some pc => let '(pc, w) := runner_turn d pc w in (<[i := pc]> pcs, w)
      | None => s
      end
  | RvCrash i => (<[i := RnIdle]> pcs, w)
  | RvInsert now newID r =>
      (pcs, rem_write NoFault (let! p := InsertReminder now newID (Some r) (rw_table w) in Ok p.2) w)
  | RvUpdate id fireAt content =>
      (pcs, rem_write NoFault (UpdateFields id fireAt content (rw_table w)) w)
  | RvCancel now id => (pcs, rem_write NoFault (Ok (CancelReminder now id (rw_table w))) w)
  | RvDelete id => (pcs, rem_write NoFault (DeleteReminder id (rw_table w)) w)
  end.

Definition rem_run (evs : list RemEvent) (s : list RunnerPC * RemWorld) : list RunnerPC * RemWorld :=
  foldl (fun s ev => rem_step ev s) s evs.
End Runner.
