(* ===== verification/ReminderFacts.v ===== *)
(** * Reminders are sent once

    Whatever runners, crashes, faults and operators do in between, a claim hands a row
    to one runner, and only the runner that has sent it can arm it again.  The argument
    is made once, for any two-state account of what has been sent; the one-shot and the
    recurring reminder are its instances. *)
From S2P Require Import Prelude GoStrings TaskModel TaskRepo RateLimitFacts Reminder.
Open Scope list_scope.
Open Scope Z_scope.

#[local] Arguments IsRecurring : simpl never.
#[local] Arguments NextFireAt : simpl never.
#[local] Arguments due_ids : simpl never.
#[local] Arguments LeaseDue : simpl never.
#[local] Arguments finalize_reminder : simpl never.
#[local] Arguments MarkErrored : simpl never.
#[local] Arguments InsertReminder : simpl never.
#[local] Arguments leased_set : simpl never.

(** ** Tables *)

Lemma update_reminders_ids p f tbl :
  (forall r, rm_ID (f r) = rm_ID r) -> map rm_ID (update_reminders p f tbl) = map rm_ID tbl.
Proof.
  intros Hf. unfold update_reminders. rewrite map_map. apply map_ext. intros r.
  destruct (p r); [apply Hf|done].
Qed.

Lemma elem_of_update p f tbl r' :
  r' ∈ update_reminders p f tbl -> exists r, r ∈ tbl /\ r' = if p r then f r else r.
Proof. intros (r & -> & Hr)%list_elem_of_fmap. by exists r. Qed.

Lemma reminder_unique tbl r1 r2 :
  NoDup (map rm_ID tbl) -> r1 ∈ tbl -> r2 ∈ tbl -> rm_ID r1 = rm_ID r2 -> r1 = r2.
Proof.
  intros Hnd H1 H2 E. apply list_elem_of_lookup_1 in H1 as [i Hi], H2 as [j Hj].
  assert (i = j) as ->; [|congruence]. eapply NoDup_lookup; [exact Hnd| |];
    rewrite list_lookup_fmap; [by rewrite Hi|by rewrite Hj, E].
Qed.

(** What a row of the new table was before. *)
Definition row_from (tbl tbl' : Reminders) : Prop :=
  forall r', r' ∈ tbl' -> rm_Status r' = ReminderStatusPending ->
  exists r, r ∈ tbl /\ rm_ID r = rm_ID r' /\ rm_Status r = ReminderStatusPending /\
    rm_FireAt r = rm_FireAt r' /\ rm_CronExpr r = rm_CronExpr r'.

Lemma update_row_from p f tbl :
  (forall r, rm_ID (f r) = rm_ID r) ->
  (forall r, rm_Status (f r) = ReminderStatusPending -> rm_Status r = ReminderStatusPending /\
     rm_FireAt (f r) = rm_FireAt r /\ rm_CronExpr (f r) = rm_CronExpr r) ->
  row_from tbl (update_reminders p f tbl).
Proof.
  intros Hid Hf r' (r & Hr & ->)%elem_of_update Hp. exists r. destruct (p r); [|done].
  destruct (Hf r Hp) as (? & ? & ?). by rewrite Hid.
Qed.

Lemma update_found_Ok p f tbl tbl' :
  update_found p f tbl = Ok tbl' -> tbl' = update_reminders p f tbl /\ exists r, r ∈ tbl /\ p r = true.
Proof.
  unfold update_found. destruct (Nat.eqb_spec (count_if p tbl) 0); [done|]. intros [= <-].
  split; [done|]. apply count_if_pos. lia.
Qed.

(** ** Rows in flight *)

(** The rows a runner has still to deliver ([true]), and the one it has delivered and
    not yet finalized ([false]). *)
Definition flight_of (pc : RunnerPC) : list (bool * Reminder) :=
  match pc with
  | RnIdle | RnLease => []
  | RnDeliver r rest => map (pair true) (r :: rest)
  | RnErrored _ _ rest | RnAudit _ rest => map (pair true) rest
  | RnFinalize r rest => (false, r) :: map (pair true) rest
  end.

Definition only (id : string) (l : list (bool * Reminder)) : list (bool * Reminder) :=
  filter (fun t => rm_ID t.2 = id) l.

Definition flight (id : string) (pcs : list RunnerPC) : list (bool * Reminder) :=
  concat (map (fun pc => only id (flight_of pc)) pcs).

Lemma flight_split id pcs i pc :
  pcs !! i = Some pc ->
  exists others, flight id pcs ≡ₚ only id (flight_of pc) ++ others /\
    forall pc', flight id (<[i := pc']> pcs) ≡ₚ only id (flight_of pc') ++ others.
Proof. apply (concat_map_split (fun pc => only id (flight_of pc))). Qed.

Lemma flight_crash id pcs i : flight id (<[i := RnIdle]> pcs) ⊆+ flight id pcs.
Proof.
  destruct (pcs !! i) as [pc|] eqn:Ei.
  - destruct (flight_split id pcs i pc Ei) as (others & -> & H). rewrite H. simpl.
    apply submseteq_inserts_l. done.
  - by rewrite list_insert_ge by (by apply lookup_ge_None).
Qed.

Lemma only_next id rows : only id (flight_of (next_due rows)) = only id (map (pair true) rows).
Proof. by destruct rows. Qed.

(** The slots at which a reminder has been sent. *)
Definition slots (id : string) (outbox : list Sent) : list time :=
  map sn_Slot (filter (fun s => sn_ID s = id) outbox).

Lemma slots_snoc id outbox r :
  slots id (outbox ++ [sent_of r]) =
  slots id outbox ++ (if decide (rm_ID r = id) then [rm_FireAt r] else []).
Proof.
  unfold slots. rewrite filter_app, map_app. f_equal. rewrite filter_cons, filter_nil. simpl.
  by destruct (decide _).
Qed.

(** ** One account for both kinds *)

(** What is known of the slots sent while the row waits for a slot, while it is held,
    and once it has been sent but not finalized; at a clock, from which later clocks
    differ as [later] says. *)
Class Account `{pg : Postgres} `{Cron} : Type := {
  later : time -> time -> Prop;
  waiting : list time -> Reminder -> Prop;
  held : time -> list time -> Reminder -> Prop;
  sent : time -> list time -> Reminder -> Prop;
  total : list time -> Prop;
  later_held : forall c c' S r, later c c' -> held c S r -> held c' S r;
  later_sent : forall c c' S r, later c c' -> sent c S r -> sent c' S r;
  waiting_ext : forall S r r', rm_FireAt r = rm_FireAt r' -> rm_CronExpr r = rm_CronExpr r' ->
    waiting S r -> waiting S r';
  waiting_claim : forall now dbnow S r, due now r = true -> waiting S r ->
    held now S (leased_set dbnow r);
  held_sent : forall c S r, total S -> held c S r ->
    sent c (S ++ [rm_FireAt r]) r /\ total (S ++ [rm_FireAt r]);
  sent_again : forall c now S r next r', later c now -> sent c S r -> IsRecurring r = true ->
    NextFireAt (rm_CronExpr r) now = Ok next -> rm_FireAt r' = ts_in next -> waiting S r'
}.

Section Once.
Context `{pg : Postgres} {cron : Cron} {acct : Account}.
Context (cron_text : CronError -> string) (cfg : RunnerConfig) (id : string).

(** The rows of [id] in flight, the table and the slots sent agree. *)
Record accounted (c : time) (l : list (bool * Reminder)) (tbl : Reminders) (S : list time) : Prop := {
  ac_ids : NoDup (map rm_ID tbl);
  ac_one : (length l <= 1)%nat;
  ac_waits : forall r, r ∈ tbl -> rm_ID r = id -> rm_Status r = ReminderStatusPending ->
    l = [] /\ waiting S r;
  ac_held : forall r, (true, r) ∈ l -> held c S r;
  ac_sent : forall r, (false, r) ∈ l -> sent c S r;
  ac_total : total S
}.

Lemma accounted_less c l l' tbl S : accounted c l tbl S -> l' ⊆+ l -> accounted c l' tbl S.
Proof.
  intros [H1 H2 H3 H4 H5 H6] Hl. pose proof (submseteq_length _ _ Hl).
  assert (Hin : forall t, t ∈ l' -> t ∈ l) by (intros t Ht; by eapply elem_of_submseteq). split.
  - done.
  - lia.
  - intros r Hr Hi Hp. destruct (H3 r Hr Hi Hp) as [-> ?]. split; [|done].
    by apply submseteq_nil_r in Hl.
  - eauto.
  - eauto.
  - done.
Qed.

Lemma accounted_perm c l l' tbl S : l ≡ₚ l' -> accounted c l tbl S -> accounted c l' tbl S.
Proof. intros Hp H. apply (accounted_less _ l); [done|]. by rewrite Hp. Qed.

Lemma accounted_table c l tbl tbl' S :
  accounted c l tbl S -> NoDup (map rm_ID tbl') -> row_from tbl tbl' -> accounted c l tbl' S.
Proof.
  intros [H1 H2 H3 H4 H5 H6] Hnd Hrow. split; try done. intros r' Hr' Hi Hp.
  destruct (Hrow r' Hr' Hp) as (r & Hr & Ei & Hs & Hf & Hc). rewrite Hi in Ei.
  destruct (H3 r Hr Ei Hs) as [-> ?]. split; [done|]. by apply (waiting_ext _ r).
Qed.

Lemma accounted_later c c' l tbl S : later c c' -> accounted c l tbl S -> accounted c' l tbl S.
Proof. intros Hl [H1 H2 H3 H4 H5 H6]. split; eauto using later_held, later_sent. Qed.

(** *** The statements *)

Lemma MarkErrored_row_from i msg tbl tbl' :
  MarkErrored i msg tbl = Ok tbl' -> map rm_ID tbl' = map rm_ID tbl /\ row_from tbl tbl'.
Proof.
  unfold MarkErrored. destruct (forallb _ _); [|done]. intros [= <-].
  split; [by apply update_reminders_ids|]. by apply update_row_from.
Qed.

Lemma MarkFired_row_from dbnow i tbl tbl' :
  MarkFired dbnow i tbl = Ok tbl' -> map rm_ID tbl' = map rm_ID tbl /\ row_from tbl tbl'.
Proof.
  intros [-> _]%update_found_Ok. split; [by apply update_reminders_ids|]. by apply update_row_from.
Qed.

(** The finalization of a row sent in flight. *)
Lemma finalize_accounted c now dbnow r tbl tbl' S others :
  later c now -> rm_ID r = id ->
  accounted c ((false, r) :: others) tbl S ->
  finalize_reminder cron_text now dbnow r tbl = Ok tbl' ->
  accounted now others tbl' S.
Proof.
  intros Hl Hid Ha. pose proof (ac_one _ _ _ _ Ha) as Hone. simpl in Hone.
  destruct others as [|? ?]; [|simpl in Hone; lia].
  assert (Hkeep : map rm_ID tbl' = map rm_ID tbl -> row_from tbl tbl' -> accounted now [] tbl' S).
  { intros Ei Hrow. apply (accounted_table _ _ tbl); [|by rewrite Ei; apply Ha|done].
    apply (accounted_later c); [done|]. apply (accounted_less _ [(false, r)]); [done|].
    apply submseteq_nil_l. }
  unfold finalize_reminder. destruct (IsRecurring r) eqn:Er; simpl.
  2: { intros E. apply Hkeep; by eapply MarkFired_row_from. }
  destruct (NextFireAt (rm_CronExpr r) now) as [next|e] eqn:En.
  2: { intros E. apply Hkeep; by eapply MarkErrored_row_from. }
  assert (Hre : Reschedule (rm_ID r) next tbl = Ok tbl' -> accounted now [] tbl' S).
  { intros [-> _]%update_found_Ok. destruct Ha as [H1 _ H3 _ H5 H6]. split; try done.
    - by rewrite update_reminders_ids.
    - simpl. lia.
    - intros r' (r0 & Hr0 & ->)%elem_of_update Hi Hp. split; [done|].
      destruct (firing (rm_ID r) r0) eqn:Ef.
      + eapply sent_again; [exact Hl| |exact Er|exact En|done]. apply H5. by apply list_elem_of_singleton.
      + by destruct (H3 r0 Hr0 Hi Hp). 
    - intros r0 Hr0. by apply not_elem_of_nil in Hr0.
    - intros r0 Hr0. by apply not_elem_of_nil in Hr0. }
  destruct (rm_RecurrenceUntil r) as [until|]; [|done].
  destruct (until <? next); [|done]. intros E. apply Hkeep; by eapply MarkFired_row_from.
Qed.

(** A row of another id. *)
Lemma finalize_other now dbnow r tbl tbl' c l S :
  rm_ID r <> id -> accounted c l tbl S ->
  finalize_reminder cron_text now dbnow r tbl = Ok tbl' -> accounted c l tbl' S.
Proof.
  intros Hid Ha.
  assert (Hkeep : map rm_ID tbl' = map rm_ID tbl -> row_from tbl tbl' -> accounted c l tbl' S).
  { intros Ei Hrow. apply (accounted_table _ _ tbl); [done|by rewrite Ei; apply Ha|done]. }
  unfold finalize_reminder. destruct (IsRecurring r) eqn:Er; simpl.
  2: { intros E. apply Hkeep; by eapply MarkFired_row_from. }
  destruct (NextFireAt (rm_CronExpr r) now) as [next|e] eqn:En.
  2: { intros E. apply Hkeep; by eapply MarkErrored_row_from. }
  assert (Hre : Reschedule (rm_ID r) next tbl = Ok tbl' -> accounted c l tbl' S).
  { intros [-> _]%update_found_Ok. destruct Ha as [H1 H2 H3 H4 H5 H6]. split; try done.
    - by rewrite update_reminders_ids.
    - intros r' (r0 & Hr0 & ->)%elem_of_update Hi Hp.
      destruct (firing (rm_ID r) r0) eqn:Ef; [|by apply H3].
      exfalso. apply Hid. rewrite <- Hi. unfold firing, rm_by_id in Ef.
      apply andb_true_iff in Ef as [Ef _]. by apply bool_decide_eq_true in Ef. }
  destruct (rm_RecurrenceUntil r) as [until|]; [|done].
  destruct (until <? next); [|done]. intros E. apply Hkeep; by eapply MarkFired_row_from.
Qed.

(** *** The claim *)

Lemma due_ids_due now limit locked tbl i :
  NoDup (map rm_ID tbl) -> i ∈ due_ids now limit locked tbl ->
  forall r, r ∈ tbl -> rm_ID r = i -> due now r = true.
Proof.
  intros Hnd Hi r Hr Er. unfold due_ids in Hi.
  apply list_elem_of_fmap in Hi as (r' & -> & Hr').
  assert (Hin : r' ∈ filter (fun r => due now r && bool_decide (rm_ID r ∉ locked) = true) tbl).
  { eapply elem_of_order_by, sublist_elem_of', Hr'. apply sublist_take. }
  apply list_elem_of_filter in Hin as [[Hd _]%andb_true_iff Hin].
  by rewrite (reminder_unique tbl r r' Hnd Hr Hin Er).
Qed.

Lemma only_claimed dbnow (p : Reminder -> bool) tbl :
  NoDup (map rm_ID tbl) ->
  only id (map (pair true) (map (leased_set dbnow) (filter (fun r => p r = true) tbl))) = [] \/
  exists r, r ∈ tbl /\ rm_ID r = id /\ p r = true /\
    only id (map (pair true) (map (leased_set dbnow) (filter (fun r => p r = true) tbl))) =
      [(true, leased_set dbnow r)].
Proof.
  induction tbl as [|r tbl IH]; [by left|]. simpl. intros [Hn Hnd]%NoDup_cons.
  rewrite filter_cons. specialize (IH Hnd). destruct (decide (p r = true)) as [Hp|Hp].
  2: { destruct IH as [?|(r0 & ? & ?)]; [by left|right; exists r0; split; [by right|done]]. }
  simpl. unfold only in *. rewrite filter_cons. simpl.
  destruct (decide (rm_ID r = id)) as [Hi|Hi];
    [rewrite decide_True by (by destruct r)|rewrite decide_False by (by destruct r)].
  - right. exists r. split_and!; [by left|done|done|]. f_equal.
    destruct IH as [?|(r0 & Hr0 & Hi0 & _)]; [done|]. exfalso. apply Hn. rewrite Hi, <- Hi0.
    by apply list_elem_of_fmap_2.
  - destruct IH as [?|(r0 & ? & ?)]; [by left|right; exists r0; split; [by right|done]].
Qed.

Lemma lease_accounted c now dbnow locked l tbl S rows tbl' :
  later c now -> accounted c l tbl S ->
  LeaseDue now dbnow (batch_of cfg) locked tbl = (rows, tbl') ->
  accounted now (only id (map (pair true) rows) ++ l) tbl' S.
Proof.
  intros Hl Ha E. unfold LeaseDue in E. injection E as <- <-.
  set (ids := due_ids now (batch_of cfg) locked tbl).
  set (p := fun r => bool_decide (rm_ID r ∈ ids)).
  change (accounted now (only id (map (pair true) (map (leased_set dbnow)
    (filter (fun r => p r = true) tbl))) ++ l) (update_reminders p (leased_set dbnow) tbl) S).
  assert (Hnd : NoDup (map rm_ID tbl)) by apply Ha.
  assert (Ha' : accounted now l (update_reminders p (leased_set dbnow) tbl) S).
  { apply (accounted_table _ _ tbl); [by apply (accounted_later c)|by rewrite update_reminders_ids|].
    by apply update_row_from. }
  destruct (only_claimed dbnow p tbl Hnd) as [->|(r & Hr & Hi & Hp & ->)]; [done|].
  pose proof Hp as Hp'. unfold p in Hp'. apply bool_decide_eq_true in Hp'.
  pose proof (due_ids_due _ _ _ _ _ Hnd Hp' r Hr eq_refl) as Hd.
  assert (rm_Status r = ReminderStatusPending) as Hs.
  { unfold due in Hd. apply andb_true_iff in Hd as [Hd _]. by apply bool_decide_eq_true in Hd. }
  destruct (ac_waits _ _ _ _ Ha r Hr Hi Hs) as [-> Hw]. rewrite app_nil_r.
  destruct Ha' as [H1 _ H3 _ _ H6]. split.
  - done.
  - done.
  - intros r' Hr' Hi' Hp1. exfalso. apply elem_of_update in Hr' as (r0 & Hr0 & ->).
    destruct (p r0) eqn:Ep; [done|]. rewrite (reminder_unique tbl r0 r Hnd Hr0 Hr) in Ep by congruence.
    congruence.
  - intros r' [= ->]%list_elem_of_singleton. by apply waiting_claim.
  - intros r' [=]%list_elem_of_singleton.
  - done.
Qed.
(** *** Turns and events *)

Lemma only_cons t l : only id (t :: l) = if decide (rm_ID t.2 = id) then t :: only id l else only id l.
Proof. unfold only. by rewrite filter_cons. Qed.

Lemma rem_write_cases f r w :
  rem_write f r w = w \/ exists tbl, r = Ok tbl /\ rem_write f r w = mkRemWorld tbl (rw_outbox w) (rw_audit w).
Proof. unfold rem_write. destruct (refused f); [by left|]. destruct r; [right; eauto|by left]. Qed.

Lemma deliver_accounted c r rest others tbl outbox :
  accounted c (only id ((true, r) :: map (pair true) rest) ++ others) tbl (slots id outbox) ->
  accounted c (only id ((false, r) :: map (pair true) rest) ++ others) tbl
    (slots id (outbox ++ [sent_of r])).
Proof.
  rewrite slots_snoc, !only_cons. simpl. destruct (decide (rm_ID r = id)) as [Hi|Hi];
    [|by rewrite app_nil_r].
  intros [H1 H2 H3 H4 H5 H6]. simpl in *.
  destruct (only id (map (pair true) rest) ++ others) as [|? ?]; [|simpl in H2; lia].
  destruct (held_sent c (slots id outbox) r H6) as [Hs Ht]; [apply H4; by left|]. split.
  - done.
  - done.
  - intros r' Hr' Hi' Hp'. by destruct (H3 r' Hr' Hi' Hp') as [[=] _].
  - intros r' [=]%list_elem_of_singleton.
  - by intros r' [= ->]%list_elem_of_singleton.
  - done.
Qed.

Lemma turn_accounted c d pc w others :
  later c (rd_now d) ->
  accounted c (only id (flight_of pc) ++ others) (rw_table w) (slots id (rw_outbox w)) ->
  let '(pc', w') := runner_turn cron_text cfg d pc w in
  accounted (rd_now d) (only id (flight_of pc') ++ others) (rw_table w') (slots id (rw_outbox w')).
Proof.
  intros Hl Ha. pose proof (accounted_later _ _ _ _ _ Hl Ha) as Hn.
  destruct pc as [| |r rest|r msg rest|r rest|r rest]; cbn [runner_turn].
  - done.
  - destruct (refused _); [done|].
    destruct (LeaseDue _ _ _ _ _) as [rows tbl] eqn:E. pose proof E as E'.
    eapply lease_accounted in E'; [|exact Hl|exact Ha]. simpl in E'.
    destruct (failed _); simpl.
    + eapply accounted_less; [exact E'|]. apply submseteq_inserts_l. done.
    + by rewrite only_next.
  - assert (Hless : accounted (rd_now d) (only id (map (pair true) rest) ++ others) (rw_table w)
      (slots id (rw_outbox w))).
    { eapply accounted_less; [exact Hn|]. simpl. rewrite only_cons.
      case_decide; [by apply submseteq_cons|done]. }
    destruct (rc_channels cfg) as [names|]; [|done]. destruct (negb _); [done|].
    apply deliver_accounted in Hn. destruct (rd_send d) as [msg|]; simpl; [|done].
    eapply accounted_less; [exact Hn|]. rewrite only_cons. case_decide; [by apply submseteq_cons|done].
  - rewrite only_next. destruct (rem_write_cases (rd_fault d) (MarkErrored (rm_ID r) msg (rw_table w)) w)
      as [->|(tbl & E & ->)]; [done|]. apply MarkErrored_row_from in E as [Ei Er]. simpl.
    eapply accounted_table; [exact Hn|rewrite Ei; apply Hn|exact Er].
  - simpl in Ha, Hn. rewrite only_cons in Ha, Hn. simpl in Ha, Hn.
    destruct (rem_write_cases (rd_fault d)
      (finalize_reminder cron_text (rd_now d) (rd_dbnow d) r (rw_table w)) w) as [->|(tbl & E & ->)].
    + eapply accounted_less; [exact Hn|]. case_decide; [by apply submseteq_cons|done].
    + simpl. destruct (decide (rm_ID r = id)) as [Hi|Hi].
      * by eapply finalize_accounted.
      * by eapply finalize_other.
  - rewrite only_next. by destruct (_ && _).
Qed.

(** What operators may do: not delete the row, and not move it unless the account
    survives that. *)
Definition harmless (ev : RemEvent) : Prop :=
  match ev with
  | RvDelete i => i <> id
  | RvUpdate i _ _ => i <> id \/
      (forall S r r', rm_CronExpr r = rm_CronExpr r' -> waiting S r -> waiting S r')
  | _ => True
  end.

Fixpoint clocked (c : time) (evs : list RemEvent) : Prop :=
  match evs with
  | [] => True
  | RvTurn _ d :: evs => later c (rd_now d) /\ clocked (rd_now d) evs
  | _ :: evs => clocked c evs
  end.

Lemma update_accounted c l tbl tbl' S i fireAt content :
  harmless (RvUpdate i fireAt content) -> accounted c l tbl S ->
  UpdateFields i fireAt content tbl = Ok tbl' -> accounted c l tbl' S.
Proof.
  intros Hh Ha [-> _]%update_found_Ok. pose proof Ha as [H1 H2 H3 H4 H5 H6]. split; try done.
  - by rewrite update_reminders_ids.
  - intros r' (r & Hr & ->)%elem_of_update Hi Hp.
    destruct (rm_by_id i r && (rm_Status r =?? ReminderStatusPending)) eqn:E; [|by apply H3].
    apply andb_true_iff in E as [Ei Es]. apply bool_decide_eq_true in Ei, Es.
    assert (rm_ID r = id) as Hi' by (by destruct r). destruct (H3 r Hr Hi' Es) as [-> Hw]. split; [done|].
    destruct Hh as [Hh|Hh]; [congruence|]. by apply (Hh _ r).
Qed.

Lemma insert_accounted c l tbl S now newID r p :
  id ∈ map rm_ID tbl -> accounted c l tbl S -> InsertReminder now newID (Some r) tbl = Ok p ->
  accounted c l p.2 S /\ id ∈ map rm_ID p.2.
Proof.
  intros Hin Ha. unfold InsertReminder. case_bool_decide as Hd; [done|]. intros [= <-]. cbn [snd].
  set (r0 := reminder_defaults now newID r) in *.
  assert (E : map rm_ID (tbl ++ [inserted_reminder r0]) = map rm_ID tbl ++ [rm_ID r0]) by
    (by rewrite map_app).
  rewrite E. split; [|by apply elem_of_app; left]. destruct Ha as [H1 H2 H3 H4 H5 H6]. split; try done.
  - rewrite E. apply NoDup_app. split_and!; [done| |by apply NoDup_singleton].
    by intros i Hi ->%list_elem_of_singleton.
  - intros r' [Hr'| ->%list_elem_of_singleton]%elem_of_app Hi; [by apply H3|].
    exfalso. apply Hd. change (rm_ID r0 = id) in Hi. by rewrite Hi.
Qed.

Lemma delete_row_from i tbl tbl' :
  DeleteReminder i tbl = Ok tbl' ->
  tbl' = filter (fun r => rm_by_id i r = false) tbl /\ row_from tbl tbl'.
Proof.
  unfold DeleteReminder. destruct (Nat.eqb _ _); [done|]. intros [= <-]. split; [done|].
  intros r' [_ Hr']%list_elem_of_filter ?. by exists r'.
Qed.

Lemma filter_ids_NoDup (p : Reminder -> bool) tbl :
  NoDup (map rm_ID tbl) -> NoDup (map rm_ID (filter (fun r => p r = false) tbl)).
Proof. intros H. eapply sublist_NoDup; [exact H|]. apply (fmap_sublist rm_ID), sublist_filter. Qed.

Lemma turn_ids d pc w :
  map rm_ID (rw_table (runner_turn cron_text cfg d pc w).2) = map rm_ID (rw_table w).
Proof.
  assert (Hw : forall r, (forall tbl, r = Ok tbl -> map rm_ID tbl = map rm_ID (rw_table w)) ->
    map rm_ID (rw_table (rem_write (rd_fault d) r w)) = map rm_ID (rw_table w)).
  { intros r Hr. destruct (rem_write_cases (rd_fault d) r w) as [->|(tbl & E & ->)]; [done|by apply Hr]. }
  assert (Hu : forall p f tbl, (forall r, rm_ID (f r) = rm_ID r) ->
    update_found p f (rw_table w) = Ok tbl -> map rm_ID tbl = map rm_ID (rw_table w)).
  { intros p f tbl Hf [-> _]%update_found_Ok. by apply update_reminders_ids. }
  assert (He : forall i msg tbl, MarkErrored i msg (rw_table w) = Ok tbl ->
    map rm_ID tbl = map rm_ID (rw_table w)) by (intros i msg tbl [? _]%MarkErrored_row_from; done).
  destruct pc as [| |r rest|r msg rest|r rest|r rest]; cbn [runner_turn snd].
  - done.
  - destruct (refused _); [done|]. unfold LeaseDue. simpl. by apply update_reminders_ids.
  - destruct (rc_channels cfg); [|done]. by destruct (negb _).
  - apply Hw. intros tbl. apply He.
  - apply Hw. intros tbl. unfold finalize_reminder.
    destruct (negb _); [by apply Hu|]. destruct (NextFireAt _ _); [|by apply He].
    destruct (rm_RecurrenceUntil r); [destruct (_ <? _)|]; by apply Hu.
  - by destruct (_ && _).
Qed.

Lemma step_accounted c ev pcs w pcs' w' :
  clocked c [ev] -> harmless ev -> id ∈ map rm_ID (rw_table w) ->
  accounted c (flight id pcs) (rw_table w) (slots id (rw_outbox w)) ->
  rem_step cron_text cfg ev (pcs, w) = (pcs', w') ->
  id ∈ map rm_ID (rw_table w') /\
  accounted (match ev with RvTurn _ d => rd_now d | _ => c end) (flight id pcs')
    (rw_table w') (slots id (rw_outbox w')).
Proof.
  intros Hc Hh Hin Ha E. destruct ev as [i leader|i d|i|now newID r|i fireAt content|now i|i];
    cbn [rem_step] in E.
  - destruct (pcs !! i) as [[| | | | |]|] eqn:Ei; destruct leader; injection E as <- <-; try done.
    split; [done|]. destruct (flight_split id pcs i RnIdle Ei) as (others & H1 & H2).
    eapply accounted_perm; [|exact Ha]. by rewrite H1, H2.
  - destruct Hc as [Hl _]. destruct (pcs !! i) as [pc|] eqn:Ei.
    2: { injection E as <- <-. split; [done|]. by apply (accounted_later c). }
    destruct (flight_split id pcs i pc Ei) as (others & H1 & H2).
    apply (accounted_perm _ _ _ _ _ H1) in Ha. pose proof (turn_accounted c d pc w others Hl Ha) as Ht.
    pose proof (turn_ids d pc w) as Hids.
    destruct (runner_turn cron_text cfg d pc w) as [pc' w1]. injection E as <- <-. simpl in Hids. split.
    + by rewrite Hids.
    + eapply accounted_perm; [symmetry; apply H2|exact Ht].
  - injection E as <- <-. split; [done|]. eapply accounted_less; [exact Ha|]. apply flight_crash.
  - injection E as <- <-. unfold rem_write. simpl.
    destruct (InsertReminder now newID (Some r) (rw_table w)) as [p|e] eqn:Ep; [|done]. simpl.
    by apply and_comm, (insert_accounted _ _ _ _ _ _ _ _ Hin Ha Ep).
  - injection E as <- <-. unfold rem_write. cbn [refused].
    destruct (UpdateFields i fireAt content (rw_table w)) as [tbl|e] eqn:Eu; [|done]. simpl.
    split; [|by eapply update_accounted]. apply update_found_Ok in Eu as [-> _].
    by rewrite update_reminders_ids.
  - injection E as <- <-. simpl. unfold CancelReminder. rewrite update_reminders_ids by done.
    split; [done|]. eapply accounted_table; [exact Ha|by rewrite update_reminders_ids; try apply Ha|].
    by apply update_row_from.
  - injection E as <- <-. unfold rem_write. cbn [refused].
    destruct (DeleteReminder i (rw_table w)) as [tbl|e] eqn:Ed; [|done]. simpl.
    apply delete_row_from in Ed as [-> Hrow]. split.
    + apply list_elem_of_fmap in Hin as (r & Er & Hr). rewrite Er. apply list_elem_of_fmap_2.
      apply list_elem_of_filter. split; [|done]. unfold rm_by_id. apply bool_decide_eq_false.
      simpl in Hh. congruence.
    + eapply accounted_table; [exact Ha|apply filter_ids_NoDup, Ha|exact Hrow].
Qed.

Lemma run_accounted evs : forall c pcs w,
  clocked c evs -> Forall harmless evs -> id ∈ map rm_ID (rw_table w) ->
  accounted c (flight id pcs) (rw_table w) (slots id (rw_outbox w)) ->
  total (slots id (rw_outbox (rem_run cron_text cfg evs (pcs, w)).2)).
Proof.
  induction evs as [|ev evs IH]; intros c pcs w Hc Hh Hin Ha; [apply Ha|].
  apply Forall_cons in Hh as [Hh Hhs].
  change (rem_run cron_text cfg (ev :: evs) (pcs, w)) with
    (rem_run cron_text cfg evs (rem_step cron_text cfg ev (pcs, w))).
  destruct (rem_step cron_text cfg ev (pcs, w)) as [pcs' w'] eqn:E.
  eapply step_accounted in E as [Hin' Ha']; [|destruct ev; try done; split; [apply Hc|done]|done|done|done].
  eapply IH; [|done|exact Hin'|exact Ha']. destruct ev; try exact Hc. by destruct Hc.
Qed.

(** A row that nobody holds. *)
Lemma start_accounted c n r tbl :
  NoDup (map rm_ID tbl) -> r ∈ tbl -> rm_ID r = id -> waiting [] r -> total [] ->
  accounted c (flight id (replicate n RnIdle)) tbl [].
Proof.
  intros Hnd Hr Hi Hw Ht.
  assert (flight id (replicate n RnIdle) = []) as -> by (unfold flight; by induction n).
  split; try done.
  - simpl. lia.
  - intros r' Hr' Hi' _. split; [done|]. by rewrite (reminder_unique tbl r' r Hnd Hr' Hr) by congruence.
  - by intros r' ?%not_elem_of_nil.
  - by intros r' ?%not_elem_of_nil.
Qed.
End Once.

(** ** One-shot, recurring and lost reminders

    Three instances of the account of [ReminderFacts]: a one-shot reminder is sent at
    most once, a recurring one at most once for each slot, and one that was claimed but
    not finalized never again. *)
Open Scope list_scope.
Open Scope Z_scope.

(** What the documentation of the cron library says of a schedule: the next time is
    after the reference and a whole second. *)
Class CronNext (cron : Cron) : Prop :=
  cron_next expr schedule t u : cron_parse expr = Ok schedule -> schedule t = Some u ->
    t < u /\ exists n, u = n * Second.

Lemma NextFireAt_after `{cron : Cron} `{!CronNext cron} expr now next :
  NextFireAt expr now = Ok next -> now < next /\ exists n, next = n * Microsecond.
Proof.
  unfold NextFireAt. destruct (cron_parse _) as [schedule|] eqn:Ep; [|done].
  destruct (schedule now) as [u|] eqn:Es; [|done]. intros [= <-].
  destruct (cron_next _ _ _ _ Ep Es) as [Hlt [n ->]]. split; [done|].
  exists (n * 1000000). unfold Second, Millisecond, Microsecond. lia.
Qed.

Section Accounts.
Context `{pg : Postgres} {cron : Cron}.

(** ** One-shot reminders *)

Definition one_shot : Account.
Proof.
  refine {|
    later _ _ := True;
    waiting S r := S = [] /\ IsRecurring r = false;
    held _ S r := S = [] /\ IsRecurring r = false;
    sent _ S r := IsRecurring r = false;
    total S := (length S <= 1)%nat
  |}.
  - done.
  - done.
  - intros S r r' _ Hc. unfold IsRecurring. by rewrite Hc.
  - by intros now dbnow S r _.
  - intros c S r _ [-> ?]. split; [done|]. simpl. lia.
  - intros c now S r next r' _ Hs Hr. simpl in Hs. congruence.
Defined.

(** ** Slots of a recurring reminder *)

Definition increasing (S : list time) : Prop := StronglySorted Z.lt S.

Lemma increasing_snoc S t : increasing S -> (forall s, s ∈ S -> s < t) -> increasing (S ++ [t]).
Proof.
  unfold increasing. induction S as [|s S IH]; intros Hs Ht; simpl; [by repeat constructor|].
  apply StronglySorted_inv in Hs as [Hs Hall]. constructor.
  - apply IH; [done|]. intros x Hx. apply Ht. by right.
  - apply Forall_app. split; [done|]. apply Forall_singleton. apply Ht. by left.
Qed.

(** A stored instant is less than a microsecond later. *)
Lemma ts_in_near `{!PostgresMonotone pg} `{!PostgresMicros pg} t : ts_in t < t + Microsecond.
Proof.
  set (n := (t + Microsecond - 1) / Microsecond).
  assert (H : t <= n * Microsecond < t + Microsecond).
  { unfold n. pose proof (Z.div_mod (t + Microsecond - 1) Microsecond) as H1.
    pose proof (Z.mod_pos_bound (t + Microsecond - 1) Microsecond) as H2.
    unfold Microsecond in *. lia. }
  pose proof (ts_in_mono t (n * Microsecond)) as H1. rewrite ts_in_micros in H1. lia.
Qed.

Definition each_slot `{!PostgresMonotone pg} `{!PostgresMicros pg} `{!CronNext cron} : Account.
Proof.
  refine {|
    later c c' := c + Microsecond <= c';
    waiting S r := increasing S /\ forall s, s ∈ S -> s < rm_FireAt r;
    held c S r := increasing S /\ (forall s, s ∈ S -> s < rm_FireAt r) /\ rm_FireAt r < c + Microsecond;
    sent c S r := increasing S /\ forall s, s ∈ S -> s < c + Microsecond;
    total S := increasing S
  |}.
  - intros c c' S r Hl (? & ? & ?). split_and!; [done|done|]. unfold Microsecond in *. lia.
  - intros c c' S r Hl (? & H). split; [done|]. intros s Hs%H. unfold Microsecond in *. lia.
  - intros S r r' -> _. done.
  - intros now dbnow S r [_ Hd]%andb_true_iff [? ?]. split_and!; [done|done|].
    apply Z.leb_le in Hd. change (rm_FireAt r < now + Microsecond). pose proof (ts_in_near now). lia.
  - intros c S r _ (Hi & Hs & Hc). assert (increasing (S ++ [rm_FireAt r])) by (by apply increasing_snoc).
    split_and!; [done| |done]. intros s [?%Hs| ->%list_elem_of_singleton]%elem_of_app; lia.
  - intros c now S r next r' Hl [Hi Hs] _ [Hn [n Hk]]%NextFireAt_after Hr'. split; [done|].
    intros s H%Hs. rewrite Hr', Hk, ts_in_micros. lia.
Defined.

(** ** Reminders nobody will deliver *)

Definition given_up (S0 : list time) : Account.
Proof.
  refine {|
    later _ _ := True;
    waiting _ _ := False; held _ _ _ := False; sent _ _ _ := False;
    total S := S = S0
  |}; done.
Defined.
End Accounts.

Lemma clocked_all `{acct : Account} c evs : (forall c c', later c c') -> clocked c evs.
Proof.
  intros Hl. revert c. induction evs as [|ev evs IH]; intros c; [done|]. destruct ev; simpl; auto.
Qed.

(** An operator or a tool that leaves the row's schedule and existence alone. *)
Definition spares (id : string) (ev : RemEvent) : Prop :=
  match ev with RvDelete i | RvUpdate i _ _ => i <> id | _ => True end.

Definition keeps (id : string) (ev : RemEvent) : Prop :=
  match ev with RvDelete i => i <> id | _ => True end.

(** The clocks of successive turns, of all daemons, are a microsecond apart. *)
Fixpoint clocks_apart (c : time) (evs : list RemEvent) : Prop :=
  match evs with
  | [] => True
  | RvTurn _ d :: evs => c + Microsecond <= rd_now d /\ clocks_apart (rd_now d) evs
  | _ :: evs => clocks_apart c evs
  end.

(** C24: a one-shot reminder is sent at most once: over every interleaving of any number
    of daemons with any faults and crashes, with operators inserting, moving,
    rewriting and cancelling reminders, and whatever the channels answer, it is handed
    to its channel no more than once, as long as nobody deletes its row. *)
Theorem one_shot_sent_once `{pg : Postgres} {cron : Cron} cron_text cfg evs n r w :
  NoDup (map rm_ID (rw_table w)) -> r ∈ rw_table w -> IsRecurring r = false ->
  slots (rm_ID r) (rw_outbox w) = [] -> Forall (keeps (rm_ID r)) evs ->
  (length (slots (rm_ID r)
     (rw_outbox (rem_run cron_text cfg evs (replicate n RnIdle, w)).2)) <= 1)%nat.
Proof.
  intros Hnd Hr Ho Hs Hk.
  apply (run_accounted (acct := one_shot) cron_text cfg (rm_ID r) evs 0 (replicate n RnIdle) w).
  - by apply clocked_all.
  - eapply Forall_impl; [exact Hk|]. intros [] H; try done. right. simpl.
    intros S x y Hc [-> Hx]. split; [done|]. revert Hx. unfold IsRecurring. by rewrite Hc.
  - by apply list_elem_of_fmap_2.
  - rewrite Hs. apply (start_accounted _ _ _ r); try done. simpl. lia.
Qed.

(** C25: a recurring reminder is sent at most once for each slot: over every
    interleaving of daemons, faults, crashes and operators that do not move or delete
    it, the slots at which it is handed to its channel strictly increase, if the cron
    library names a whole second after the time it is given and the clocks of
    successive turns are at least the precision of a stored timestamp apart. *)
Theorem recurring_slot_sent_once `{pg : Postgres} {cron : Cron} `{!PostgresMonotone pg}
    `{!PostgresMicros pg} `{!CronNext cron} cron_text cfg evs n r w c :
  NoDup (map rm_ID (rw_table w)) -> r ∈ rw_table w -> slots (rm_ID r) (rw_outbox w) = [] ->
  Forall (spares (rm_ID r)) evs -> clocks_apart c evs ->
  StronglySorted Z.lt (slots (rm_ID r)
    (rw_outbox (rem_run cron_text cfg evs (replicate n RnIdle, w)).2)).
Proof.
  intros Hnd Hr Hs Hk Hc.
  apply (run_accounted (acct := each_slot) cron_text cfg (rm_ID r) evs c (replicate n RnIdle) w).
  - clear -Hc. revert c Hc. induction evs as [|ev evs IH]; intros c Hc; [done|].
    destruct ev; simpl in *; auto; by destruct Hc; auto.
  - eapply Forall_impl; [exact Hk|]. intros [] H; try done. by left.
  - by apply list_elem_of_fmap_2.
  - rewrite Hs. apply (start_accounted _ _ _ r); try done; [split; [constructor|]|constructor].
    by intros s ?%not_elem_of_nil.
Qed.

(** A claimed reminder that its daemon did not finalize is lost: once a row is no
    longer pending and no daemon holds it - its channel refused the message, the reply
    to the claim was lost, or the daemon crashed - no tick of any daemon ever sends it
    again, recurring or not; nothing but deleting its row and inserting it anew would. *)
Theorem unfinished_reminder_is_lost `{pg : Postgres} {cron : Cron} cron_text cfg evs n r w :
  NoDup (map rm_ID (rw_table w)) -> r ∈ rw_table w -> rm_Status r <> ReminderStatusPending ->
  Forall (keeps (rm_ID r)) evs ->
  slots (rm_ID r) (rw_outbox (rem_run cron_text cfg evs (replicate n RnIdle, w)).2) =
  slots (rm_ID r) (rw_outbox w).
Proof.
  intros Hnd Hr Hs Hk.
  apply (run_accounted (acct := given_up (slots (rm_ID r) (rw_outbox w))) cron_text cfg (rm_ID r)
    evs 0 (replicate n RnIdle) w).
  - by apply clocked_all.
  - eapply Forall_impl; [exact Hk|]. intros [] H; try done. by right.
  - by apply list_elem_of_fmap_2.
  - assert (flight (rm_ID r) (replicate n RnIdle) = []) as -> by (unfold flight; by induction n).
    split; try done.
    + simpl. lia.
    + intros r' Hr' Hi Hp. exfalso. apply Hs. by rewrite <- (reminder_unique _ _ _ Hnd Hr' Hr Hi).
    + by intros r' ?%not_elem_of_nil.
    + by intros r' ?%not_elem_of_nil.
Qed.
