(* ===== verification/ReminderSweep.v ===== *)
(** * An undisturbed sweep

    A sweep without faults and without other writers between its statements is a
    function of the table: every claimed row is handed to its channel and left as the
    outcome of its delivery says. *)
From S2P Require Import Prelude GoStrings TaskModel TaskRepo Reminder ReminderFacts.
Open Scope string_scope.
Open Scope list_scope.
Open Scope Z_scope.

#[local] Arguments finalize_reminder : simpl never.
#[local] Arguments MarkErrored : simpl never.

Section Sweep.
Context `{pg : Postgres} {cron : Cron}.
Context (cron_text : CronError -> string) (cfg : RunnerConfig).

(** A runner on its own. *)
Definition sweep (ds : list RemDraw) (pc : RunnerPC) (w : RemWorld) : RunnerPC * RemWorld :=
  foldl (fun '(pc, w) d => runner_turn cron_text cfg d pc w) (pc, w) ds.

Definition calm (d : RemDraw) : Prop := rd_fault d = NoFault /\ rd_locked d = [].

Lemma sweep_cons d ds pc w :
  sweep (d :: ds) pc w =
  sweep ds (runner_turn cron_text cfg d pc w).1 (runner_turn cron_text cfg d pc w).2.
Proof. unfold sweep. simpl. by destruct (runner_turn cron_text cfg d pc w). Qed.

Lemma sweep_idle ds w : sweep ds RnIdle w = (RnIdle, w).
Proof. induction ds as [|d ds IH]; [done|]. by rewrite sweep_cons. Qed.

(** ** The outcome of one delivery *)

(** Why a row is not handed to its channel. *)
Definition unreachable (r : Reminder) : option string :=
  match rc_channels cfg with
  | None => Some "no channel resolver wired"
  | Some names => if negb (bool_decide (rm_Channel r ∈ names))
                  then Some ("channel " +:+ rm_Channel r +:+ " not configured") else None
  end.

Definition errored_row (msg : string) (r : Reminder) : Reminder :=
  if int32_fits (rm_ErrorCount r + 1)
  then r <| rm_LastError := msg |> <| rm_ErrorCount := rm_ErrorCount r + 1 |> else r.

Definition fired_row (dbnow : time) (r : Reminder) : Reminder :=
  r <| rm_Status := ReminderStatusFired |> <| rm_FiredAt := Some dbnow |>.

(** A delivered row: fired for good, or waiting for its next slot. *)
Definition finalized_row (now dbnow : time) (r : Reminder) : Reminder :=
  if negb (IsRecurring r) then fired_row dbnow r
  else match NextFireAt (rm_CronExpr r) now with
       | Err e => errored_row ("re-arm cron invalid: " +:+ cron_text e) r
       | Ok next =>
           if (match rm_RecurrenceUntil r with Some until => until <? next | None => false end)
           then fired_row dbnow r
           else r <| rm_Status := ReminderStatusPending |> <| rm_FireAt := ts_in next |>
       end.

(** The row after its delivery, given what the channel answered and the clocks of the
    last statement. *)
Definition outcome_row (answer : option string) (now dbnow : time) (r : Reminder) : Reminder :=
  match unreachable r, answer with
  | Some msg, _ | None, Some msg => errored_row msg r
  | None, None => finalized_row now dbnow r
  end.

Definition handed (r : Reminder) : list Sent :=
  match unreachable r with Some _ => [] | None => [sent_of r] end.

(** ** One row *)

(** The row [r] replaced. *)
Definition put (r' : Reminder) (tbl : Reminders) : Reminders :=
  map (fun x => if rm_ID x =?? rm_ID r' then r' else x) tbl.

Lemma put_ids r' tbl : map rm_ID (put r' tbl) = map rm_ID tbl.
Proof.
  unfold put. rewrite map_map. apply map_ext. intros x. by case_bool_decide.
Qed.

Lemma update_put (p : Reminder -> bool) f tbl r :
  NoDup (map rm_ID tbl) -> r ∈ tbl -> p r = true -> (forall x, p x = true -> rm_ID x = rm_ID r) ->
  rm_ID (f r) = rm_ID r -> update_reminders p f tbl = put (f r) tbl.
Proof.
  intros Hnd Hr Hp Hid Hf. unfold update_reminders, put. apply list_fmap_ext. intros i x Hx.
  apply list_elem_of_lookup_2 in Hx. rewrite Hf. case_bool_decide as E.
  - by rewrite (reminder_unique tbl x r Hnd Hx Hr E), Hp.
  - destruct (p x) eqn:Ex; [by apply Hid in Ex|done].
Qed.

Lemma put_same tbl r : NoDup (map rm_ID tbl) -> r ∈ tbl -> put r tbl = tbl.
Proof.
  intros Hnd Hr. unfold put. rewrite <- (list_fmap_id tbl) at 2. apply list_fmap_ext. intros i x Hx.
  apply list_elem_of_lookup_2 in Hx. case_bool_decide as E; [|done].
  by rewrite (reminder_unique tbl x r Hnd Hx Hr E).
Qed.

Lemma update_found_put f tbl r :
  NoDup (map rm_ID tbl) -> r ∈ tbl -> rm_Status r = ReminderStatusFiring ->
  rm_ID (f r) = rm_ID r -> update_found (firing (rm_ID r)) f tbl = Ok (put (f r) tbl).
Proof.
  intros Hnd Hr Hs Hf. assert (Hp : firing (rm_ID r) r = true).
  { unfold firing, rm_by_id. by rewrite !bool_decide_true. }
  unfold update_found. destruct (Nat.eqb_spec (count_if (firing (rm_ID r)) tbl) 0) as [E|_].
  { assert (0 < count_if (firing (rm_ID r)) tbl)%nat by (apply count_if_pos; eauto). lia. }
  f_equal. apply update_put; try done. intros x Hx. unfold firing, rm_by_id in Hx.
  apply andb_true_iff in Hx as [Hx _]. by apply bool_decide_eq_true in Hx.
Qed.

Lemma MarkErrored_put msg tbl r w :
  NoDup (map rm_ID tbl) -> r ∈ tbl -> rw_table w = tbl ->
  rem_write NoFault (MarkErrored (rm_ID r) msg tbl) w =
  mkRemWorld (put (errored_row msg r) tbl) (rw_outbox w) (rw_audit w).
Proof.
  intros Hnd Hr Hw. unfold MarkErrored, errored_row.
  assert (Hb : forallb (fun x => negb (rm_by_id (rm_ID r) x) || int32_fits (rm_ErrorCount x + 1)) tbl
    = int32_fits (rm_ErrorCount r + 1)).
  { destruct (int32_fits (rm_ErrorCount r + 1)) eqn:E.
    - apply forallb_elem. intros x Hx. unfold rm_by_id. case_bool_decide as Ei; [|done].
      by rewrite (reminder_unique tbl x r Hnd Hx Hr Ei).
    - apply forallb_elem_false. exists r. split; [done|]. unfold rm_by_id.
      by rewrite bool_decide_true, E. }
  rewrite Hb. destruct (int32_fits _).
  - unfold rem_write. cbn [refused]. f_equal. rewrite (update_put _ _ tbl r); try done.
    + unfold rm_by_id. by rewrite bool_decide_true.
    + intros x Hx. unfold rm_by_id in Hx. by apply bool_decide_eq_true in Hx.
  - rewrite put_same by done. subst tbl. by destruct w.
Qed.

Lemma finalize_put now dbnow tbl r w :
  NoDup (map rm_ID tbl) -> r ∈ tbl -> rw_table w = tbl -> rm_Status r = ReminderStatusFiring ->
  rem_write NoFault (finalize_reminder cron_text now dbnow r tbl) w =
  mkRemWorld (put (finalized_row now dbnow r) tbl) (rw_outbox w) (rw_audit w).
Proof.
  intros Hnd Hr Hw Hs. unfold finalize_reminder, finalized_row, MarkFired, Reschedule.
  destruct (negb (IsRecurring r)); [by rewrite update_found_put|].
  destruct (NextFireAt (rm_CronExpr r) now) as [next|e]; [|by apply MarkErrored_put].
  destruct (rm_RecurrenceUntil r) as [until|]; [|by rewrite update_found_put].
  by destruct (until <? next); rewrite update_found_put.
Qed.

(** ** All rows *)

Lemma put_keeps r' x tbl : x ∈ tbl -> rm_ID x <> rm_ID r' -> x ∈ put r' tbl.
Proof.
  intros Hx Hn. unfold put. apply list_elem_of_fmap. exists x. by rewrite bool_decide_false.
Qed.

Lemma outcome_row_id answer now dbnow r : rm_ID (outcome_row answer now dbnow r) = rm_ID r.
Proof.
  assert (He : forall msg, rm_ID (errored_row msg r) = rm_ID r).
  { intros msg. unfold errored_row. by destruct (int32_fits _). }
  unfold outcome_row, finalized_row. destruct (unreachable r); [done|]. destruct answer; [done|].
  destruct (negb _); [done|]. destruct (NextFireAt _ _) as [next|]; [|done].
  destruct (rm_RecurrenceUntil r) as [until|]; [by destruct (until <? next)|done].
Qed.

(** Three turns at most take a sweep to its next row. *)
Lemma deliver_turns ds r rest w :
  NoDup (map rm_ID (rw_table w)) -> r ∈ rw_table w -> rm_Status r = ReminderStatusFiring ->
  Forall calm ds -> (3 <= length ds)%nat ->
  exists k d1 d2 w', (k <= 3)%nat /\ d1 ∈ ds /\ d2 ∈ ds /\
    sweep ds (RnDeliver r rest) w = sweep (drop k ds) (next_due rest) w' /\
    rw_table w' = put (outcome_row (rd_send d1) (rd_now d2) (rd_dbnow d2) r) (rw_table w) /\
    rw_outbox w' = rw_outbox w ++ handed r.
Proof.
  intros Hnd Hr Hs Hc Hl. destruct ds as [|d1 [|d2 [|d3 ds]]]; [simpl in Hl; lia..|].
  apply Forall_cons in Hc as [_ [[Hc2 _] [[Hc3 _] _]%Forall_cons]%Forall_cons].
  assert (Herr : forall msg w', rw_table w' = rw_table w -> unreachable r = Some msg \/
      (unreachable r = None /\ rd_send d1 = Some msg) ->
    sweep (d2 :: d3 :: ds) (RnErrored r msg rest) w' = sweep (d3 :: ds) (next_due rest)
      (mkRemWorld (put (outcome_row (rd_send d1) (rd_now d2) (rd_dbnow d2) r) (rw_table w))
         (rw_outbox w') (rw_audit w'))).
  { intros msg w' Ew Hu. rewrite sweep_cons. cbn [runner_turn fst snd]. rewrite Hc2, Ew.
    rewrite MarkErrored_put by done. unfold outcome_row. by destruct Hu as [-> |[-> ->]]. }
  rewrite sweep_cons. cbn [runner_turn]. unfold handed, unreachable in *.
  destruct (rc_channels cfg) as [names|] eqn:En.
  2: { exists 2%nat, d1, d2, (mkRemWorld (put (outcome_row (rd_send d1) (rd_now d2) (rd_dbnow d2) r)
         (rw_table w)) (rw_outbox w) (rw_audit w)). cbn [fst snd rw_table rw_outbox].
       rewrite app_nil_r. split_and!; try done; [lia|set_solver|set_solver|].
       by rewrite (Herr "no channel resolver wired" w) by eauto. }
  destruct (negb (bool_decide (rm_Channel r ∈ names))) eqn:Eb.
  { exists 2%nat, d1, d2, (mkRemWorld (put (outcome_row (rd_send d1) (rd_now d2) (rd_dbnow d2) r)
      (rw_table w)) (rw_outbox w) (rw_audit w)). cbn [fst snd rw_table rw_outbox].
    rewrite app_nil_r. split_and!; try done; [lia|set_solver|set_solver|].
    by rewrite (Herr _ w (eq_refl _) (or_introl (eq_refl _))). }
  cbn [fst snd]. destruct (rd_send d1) as [msg|] eqn:Es.
  - eexists 2%nat, d1, d2, _. split_and!; [lia|set_solver|set_solver| | |].
    + rewrite (Herr msg) by eauto. reflexivity.
    + by rewrite Es.
    + done.
  - rewrite sweep_cons. cbn [runner_turn fst snd]. rewrite Hc2. cbn [rw_table].
    rewrite (finalize_put _ _ (rw_table w)) by done. rewrite sweep_cons. cbn [runner_turn fst snd].
    rewrite Hc3. eexists 3%nat, d1, d2, _. split_and!; [lia|set_solver|set_solver|reflexivity| |].
    + unfold outcome_row, unreachable. rewrite Es, En, Eb. by destruct (_ && _).
    + by destruct (_ && _).
Qed.

(** The outcome of a row under some draws of the sweep. *)
Definition outcome_of (ds : list RemDraw) (r r' : Reminder) : Prop :=
  exists d1 d2, d1 ∈ ds /\ d2 ∈ ds /\ r' = outcome_row (rd_send d1) (rd_now d2) (rd_dbnow d2) r.

Lemma rows_turns rows : forall ds w,
  NoDup (map rm_ID (rw_table w)) -> NoDup (map rm_ID rows) ->
  (forall r, r ∈ rows -> r ∈ rw_table w /\ rm_Status r = ReminderStatusFiring) ->
  Forall calm ds -> (3 * length rows <= length ds)%nat ->
  exists w', sweep ds (next_due rows) w = (RnIdle, w') /\
    Forall2 (fun x x' => if bool_decide (rm_ID x ∈ map rm_ID rows) then outcome_of ds x x' else x' = x)
      (rw_table w) (rw_table w') /\
    rw_outbox w' = rw_outbox w ++ concat (map handed rows).
Proof.
  induction rows as [|r rows IH]; intros ds w Hnd Hrows Hin Hc Hl.
  { exists w. cbn [next_due]. rewrite sweep_idle. split_and!; [done| |by rewrite app_nil_r].
    apply Forall_Forall2_diag, Forall_forall. intros x Hx. by rewrite bool_decide_false by apply not_elem_of_nil. }
  simpl in Hrows, Hl. apply NoDup_cons in Hrows as [Hnot Hrows].
  destruct (Hin r) as [Hr Hs]; [by left|].
  destruct (deliver_turns ds r rows w) as (k & d1 & d2 & w1 & Hk & Hd1 & Hd2 & E & Et & Eo);
    [done|done|done|done|lia|].
  destruct (IH (drop k ds) w1) as (w' & E' & Ht & Ho).
  - by rewrite Et, put_ids.
  - done.
  - intros x Hx. destruct (Hin x) as [Hx1 Hx2]; [by right|]. split; [|done]. rewrite Et.
    apply put_keeps; [done|]. rewrite outcome_row_id. intros Ex. apply Hnot. rewrite <- Ex.
    by apply list_elem_of_fmap_2.
  - by apply Forall_drop.
  - rewrite length_drop. lia.
  - exists w'. cbn [next_due]. rewrite E, E'. split_and!; [done| |].
    2: { rewrite Ho, Eo. simpl. by rewrite <- app_assoc. }
    rewrite Et in Ht. rewrite Forall2_lookup in Ht |- *. intros i. specialize (Ht i).
    unfold put in Ht. rewrite list_lookup_fmap in Ht.
    destruct (rw_table w !! i) as [x|] eqn:Ex; simpl in Ht;
      inversion Ht as [y x' Hx'|]; subst; constructor.
    apply list_elem_of_lookup_2 in Ex. rewrite outcome_row_id in Hx'.
    destruct (decide (rm_ID x = rm_ID r)) as [Ei|Ei].
    + rewrite (bool_decide_true (rm_ID x = rm_ID r)) in Hx' by done. rewrite (reminder_unique _ x r Hnd Ex Hr Ei).
      rewrite outcome_row_id, bool_decide_false in Hx' by done. subst x'.
      rewrite bool_decide_true by (by left). by exists d1, d2.
    + rewrite (bool_decide_false (rm_ID x = rm_ID r)) in Hx' by done.
      rewrite (bool_decide_ext (rm_ID x ∈ map rm_ID (r :: rows)) (rm_ID x ∈ map rm_ID rows))
        by (simpl; rewrite elem_of_cons; naive_solver).
      case_bool_decide; [|done]. destruct Hx' as (e1 & e2 & H1 & H2 & ->). exists e1, e2.
      split_and!; [| |done]; (eapply sublist_elem_of'; [apply sublist_drop|done]).
Qed.


(** The claim hands over rows that are firing in the table. *)
Lemma LeaseDue_rows now dbnow limit tbl rows tbl' :
  NoDup (map rm_ID tbl) -> LeaseDue now dbnow limit [] tbl = (rows, tbl') ->
  NoDup (map rm_ID tbl') /\ NoDup (map rm_ID rows) /\
  (forall r, r ∈ rows -> r ∈ tbl' /\ rm_Status r = ReminderStatusFiring) /\
  map rm_ID rows ≡ₚ due_ids now limit [] tbl /\
  tbl' = map (fun r => if bool_decide (rm_ID r ∈ due_ids now limit [] tbl)
                       then leased_set dbnow r else r) tbl.
Proof.
  intros Hnd E. unfold LeaseDue in E. set (ids := due_ids now limit [] tbl) in *.
  set (p := fun r => bool_decide (rm_ID r ∈ ids)). injection E as E1 E2.
  change (map (leased_set dbnow) (filter (fun r => p r = true) tbl) = rows) in E1.
  change (update_reminders p (leased_set dbnow) tbl = tbl') in E2. subst rows tbl'.
  assert (Ei : map rm_ID (map (leased_set dbnow) (filter (fun r => p r = true) tbl)) =
    map rm_ID (filter (fun r => p r = true) tbl)) by (rewrite map_map; by apply map_ext).
  assert (Hndp : NoDup (map rm_ID (filter (fun r => p r = true) tbl))).
  { eapply sublist_NoDup; [exact Hnd|]. apply (fmap_sublist rm_ID), sublist_filter. }
  split_and!.
  - by rewrite update_reminders_ids.
  - by rewrite Ei.
  - intros r (r0 & -> & [Hp Hr0]%list_elem_of_filter)%list_elem_of_fmap. split; [|done].
    apply list_elem_of_fmap. exists r0. by rewrite Hp.
  - rewrite Ei. apply NoDup_Permutation; [done| |].
    + unfold ids, due_ids. eapply sublist_NoDup.
      2: { apply (fmap_sublist rm_ID), sublist_take. }
      rewrite order_by_perm. eapply sublist_NoDup; [exact Hnd|].
      apply (fmap_sublist rm_ID), sublist_filter.
    + intros i. rewrite list_elem_of_fmap. split.
      * intros (r & -> & [Hp _]%list_elem_of_filter). unfold p in Hp. by apply bool_decide_eq_true in Hp.
      * intros Hi. pose proof Hi as Hi'. unfold ids, due_ids in Hi'.
        apply list_elem_of_fmap in Hi' as (r & -> & Hr). exists r. split; [done|].
        apply list_elem_of_filter. split; [unfold p; by apply bool_decide_eq_true|].
        apply (sublist_elem_of' _ _ _ (sublist_take _ _)), elem_of_order_by in Hr.
        by apply list_elem_of_filter in Hr as [_ ?].
  - done.
Qed.
End Sweep.

(** C29: an undisturbed sweep delivers exactly the due batch: it ends, and it has
    handled the rows it claims at the clock of its first turn - due and pending, at most
    a batch, none later than a due row it left - and no other.  Each claimed row ends as
    its delivery says: fired if it is not recurring or its next slot is past its bound,
    pending at the next slot otherwise, with the error recorded and still firing if its
    channel is missing or refused the message or its expression names no next slot; and
    the outbox gets one message for each claimed row with a channel. *)
Theorem heartbeat_spec `{pg : Postgres} {cron : Cron} cron_text cfg d ds w :
  NoDup (map rm_ID (rw_table w)) -> Forall calm (d :: ds) -> 3 * batch_of cfg <= Z.of_nat (length ds) ->
  exists w',
    sweep cron_text cfg (d :: ds) RnLease w = (RnIdle, w') /\
    let ids := due_ids (rd_now d) (batch_of cfg) [] (rw_table w) in
    Forall2 (fun x x' => if bool_decide (rm_ID x ∈ ids)
                         then outcome_of cron_text cfg ds (leased_set (rd_dbnow d) x) x' else x' = x)
      (rw_table w) (rw_table w') /\
    (exists sent, rw_outbox w' = rw_outbox w ++ sent /\
       sent ≡ₚ concat (map (handed cfg) (map (leased_set (rd_dbnow d))
                 (filter (fun r => rm_ID r ∈ ids) (rw_table w))))) /\
    (forall x, x ∈ rw_table w -> due (rd_now d) x = true -> rm_ID x ∈ ids \/
       Z.of_nat (length ids) = batch_of cfg /\
       forall y, y ∈ rw_table w -> rm_ID y ∈ ids -> rm_FireAt y <= rm_FireAt x).
Proof.
  intros Hnd Hc Hl. assert (0 < batch_of cfg) as Hb.
  { unfold batch_of, DefaultBatchSize. destruct (Z.leb_spec (rc_batch cfg) 0); lia. }
  apply Forall_cons in Hc as [[Hf Hk] Hc].
  destruct (LeaseDue (rd_now d) (rd_dbnow d) (batch_of cfg) [] (rw_table w)) as [rows tbl] eqn:E.
  destruct (LeaseDue_rows _ _ _ _ _ _ Hnd E) as (Hnd' & Hrows & Hin & Hids & Et).
  set (ids := due_ids (rd_now d) (batch_of cfg) [] (rw_table w)) in *.
  assert (Hlen : (length rows <= Z.to_nat (batch_of cfg))%nat).
  { rewrite <- (length_map rm_ID), Hids. unfold ids, due_ids, lease_limit. rewrite length_map.
    destruct (Z.leb_spec (batch_of cfg) 0); [lia|]. apply firstn_le_length. }
  destruct (rows_turns cron_text cfg rows ds (mkRemWorld tbl (rw_outbox w) (rw_audit w)))
    as (w' & Es & Ht & Ho); [done|done|done|done|lia|].
  exists w'. split.
  { rewrite sweep_cons. cbn [runner_turn]. rewrite Hf, Hk. cbn [refused]. by rewrite E. }
  cbv zeta. fold ids. split_and!.
  - simpl in Ht. rewrite Et in Ht. rewrite Forall2_fmap_l in Ht. eapply Forall2_impl; [exact Ht|].
    intros x x'. simpl.
    assert (Hx : bool_decide (rm_ID x ∈ map rm_ID rows) = bool_decide (rm_ID x ∈ ids))
      by (apply bool_decide_ext; by rewrite Hids).
    destruct (bool_decide (rm_ID x ∈ ids)) eqn:Ex.
    + change (rm_ID (leased_set (rd_dbnow d) x)) with (rm_ID x). rewrite Hx.
      done.
    + by rewrite Hx.
  - eexists. split; [exact Ho|]. unfold LeaseDue in E. fold ids in E. injection E as <- _.
    rewrite (list_filter_iff (fun r => bool_decide (rm_ID r ∈ ids) = true) (fun r => rm_ID r ∈ ids));
      [done|]. intros r. apply bool_decide_eq_true.
  - intros x Hx Hd.
    assert (Hx' : x ∈ filter (fun r => due (rd_now d) r && bool_decide (rm_ID r ∉ []) = true) (rw_table w)).
    { apply list_elem_of_filter. split; [|done]. rewrite Hd. by apply bool_decide_eq_true, not_elem_of_nil. }
    destruct (order_by_take (fun r => [rm_FireAt r]) (Z.to_nat (lease_limit (batch_of cfg))) _ x Hx')
      as [Hin'|[Hn Hle]].
    + left. unfold ids, due_ids. apply list_elem_of_fmap. by exists x.
    + right. split.
      * unfold ids, due_ids. rewrite length_map, Hn. unfold lease_limit.
        destruct (Z.leb_spec (batch_of cfg) 0); lia.
      * intros y Hy Hi. unfold ids, due_ids in Hi. apply list_elem_of_fmap in Hi as (y' & Ey & Hy').
        pose proof (Hle y' Hy') as Hk'.
        assert (y = y') as ->; [|unfold key_le in Hk'; simpl in Hk'; lia].
        apply (reminder_unique (rw_table w)); [done|done| |done].
        apply (sublist_elem_of' _ _ _ (sublist_take _ _)), elem_of_order_by in Hy'.
        by apply list_elem_of_filter in Hy' as [_ ?].
Qed.
