(* ===== verification/ReminderScenarios.v ===== *)
(** * Concrete reminders

    The hypotheses of the theorems on reminders hold here; and runs in which a
    reminder is never delivered. *)
From S2P Require Import Prelude GoStrings TaskModel TaskRepo TaskRepoFacts RateLimitFacts.
From S2P Require Import Reminder ReminderFacts ReminderSweep.
Open Scope string_scope.
Open Scope list_scope.
Open Scope Z_scope.

#[local] Existing Instance pg_example.

(** Every minute, and nothing else. *)
Definition cron_example : Cron := {|
  cron_parse e := if e =?? "* * * * *" then Ok (fun t => Some ((t / Minute + 1) * Minute))
                  else Err "expected exactly 5 fields"
|}.
#[local] Existing Instance cron_example.

#[local] Instance cron_example_next : CronNext cron_example.
Proof.
  intros expr schedule t u. simpl. case_bool_decide; [|done]. intros [= <-] [= <-]. split.
  - pose proof (Z.div_mod t Minute) as H1. pose proof (Z.mod_pos_bound t Minute) as H2.
    unfold Minute, Second, Millisecond, Microsecond in *. lia.
  - exists ((t / Minute + 1) * 60). unfold Minute. lia.
Qed.

Definition cron_text_example (e : CronError) : string := "bad cron".
Definition runner_example : RunnerConfig := mkRunnerConfig (Some ["telegram"]) 0 true.

Definition reminder_example (id channel cron : string) (fireAt : time) : Reminder := {|
  rm_ID := id; rm_OperatorID := "telegram:7"; rm_Channel := channel; rm_ChannelRef := "7";
  rm_ProjectID := ""; rm_FireAt := fireAt; rm_Content := "stand up"; rm_Status := ReminderStatusPending;
  rm_CreatedAt := 0; rm_FiredAt := None; rm_CancelledAt := None; rm_CreatedVia := "chat";
  rm_ErrorCount := 0; rm_LastError := ""; rm_CronExpr := cron; rm_RecurrenceUntil := None |}.

Definition once_example : Reminder := reminder_example "once" "telegram" "" (10 * Second).
Definition every_example : Reminder := reminder_example "every" "telegram" "* * * * *" (60 * Second).
Definition mute_example : Reminder := reminder_example "mute" "fax" "" (20 * Second).

Definition rem_world_example : RemWorld :=
  mkRemWorld [once_example; every_example; mute_example] [] [].

Lemma rem_world_ids : NoDup (map rm_ID (rw_table rem_world_example)).
Proof. by apply (bool_decide_unpack _). Qed.

(** A turn at [n] ms, with an answer of the channel. *)
Definition rem_at (n : Z) (f : Fault) (answer : option string) : RemDraw :=
  mkRemDraw (n * Millisecond) (n * Millisecond) f [] answer.

(** Turns of daemon [i] from [n] ms on, a millisecond apart. *)
Definition rem_turns (i : nat) (n : Z) (k : nat) : list RemEvent :=
  map (fun j => RvTurn i (rem_at (n + Z.of_nat j) NoFault None)) (seq 0 k).

(** Two daemons tick at the same time, and again two minutes later. *)
Definition two_daemons : list RemEvent :=
  [RvTick 0 true; RvTick 1 true] ++ rem_turns 0 70000 4 ++ rem_turns 1 71000 9 ++ rem_turns 0 72000 9 ++
  [RvTick 0 true; RvTick 1 true] ++ rem_turns 1 190000 9 ++ rem_turns 0 191000 9.

Abbreviation rem_run_example evs w :=
  (rem_run cron_text_example runner_example evs (replicate 2 RnIdle, w)).

Definition rem_status (s : list RunnerPC * RemWorld) (id : string) : option ReminderStatus :=
  match GetReminder id (rw_table s.2) with Ok r => Some (rm_Status r) | Err _ => None end.

Lemma one_shot_sent_once_witness :
  slots "once" (rw_outbox (rem_run_example two_daemons rem_world_example).2) = [10 * Second] /\
  (length (slots "once" (rw_outbox (rem_run_example two_daemons rem_world_example).2)) <= 1)%nat.
Proof.
  split; [vm_compute; reflexivity|].
  apply (one_shot_sent_once cron_text_example runner_example two_daemons 2 once_example rem_world_example).
  - apply rem_world_ids.
  - by left.
  - done.
  - done.
  - vm_compute. repeat constructor.
Defined.

Lemma recurring_slot_sent_once_witness :
  slots "every" (rw_outbox (rem_run_example two_daemons rem_world_example).2) =
    [60 * Second; 120 * Second] /\
  StronglySorted Z.lt (slots "every" (rw_outbox (rem_run_example two_daemons rem_world_example).2)).
Proof.
  split; [vm_compute; reflexivity|].
  apply (recurring_slot_sent_once cron_text_example runner_example two_daemons 2 every_example
    rem_world_example 0).
  - apply rem_world_ids.
  - by right; left.
  - done.
  - vm_compute. repeat constructor.
  - vm_compute. repeat split; discriminate.
Defined.

(** A channel that refuses one message ends a recurring reminder: its row stays firing. *)
Definition refused_once : list RemEvent :=
  RvTick 0 true :: RvTurn 0 (rem_at 70000 NoFault None) ::
  flat_map (fun n => [RvTurn 0 (rem_at n NoFault (Some "timeout"))]) [70001; 70002; 70003; 70004; 70005; 70006].

Definition later_ticks : list RemEvent :=
  RvTick 0 true :: rem_turns 0 200000 9 ++ RvTick 1 true :: rem_turns 1 400000 9.

Lemma unfinished_reminder_is_lost_witness :
  let w := (rem_run_example refused_once rem_world_example).2 in
  rem_status ([], w) "every" = Some ReminderStatusFiring /\
  slots "every" (rw_outbox (rem_run_example later_ticks w).2) = [60 * Second].
Proof.
  intros w. split; [vm_compute; reflexivity|].
  assert (E : exists r, GetReminder "every" (rw_table w) = Ok r /\ rm_ID r = "every" /\
    rm_Status r <> ReminderStatusPending /\ r ∈ rw_table w).
  { eexists. split; [vm_compute; reflexivity|]. split; [done|]. split; [done|].
    vm_compute. right. left. }
  destruct E as (r & _ & Ei & Es & Hr).
  pose proof (unfinished_reminder_is_lost cron_text_example runner_example later_ticks 2 r w) as H.
  rewrite Ei in H. rewrite H; [vm_compute; reflexivity| |exact Hr|exact Es|].
  - assert (Eids : map rm_ID (rw_table w) = ["once"; "every"; "mute"]) by (vm_compute; reflexivity).
    rewrite Eids. by apply (bool_decide_unpack _).
  - vm_compute. repeat constructor.
Defined.

(** A sweep of three rows. *)
Definition sweep_draws : list RemDraw := replicate 300 (rem_at 70000 NoFault None).

Lemma heartbeat_spec_witness :
  exists w', sweep cron_text_example runner_example (rem_at 70000 NoFault None :: sweep_draws) RnLease rem_world_example = (RnIdle, w') /\
    map (fun r => (rm_Status r, rm_LastError r)) (rw_table w') =
      [(ReminderStatusFired, ""); (ReminderStatusPending, "");
       (ReminderStatusFiring, "channel fax not configured")].
Proof.
  destruct (heartbeat_spec cron_text_example runner_example (rem_at 70000 NoFault None) sweep_draws
    rem_world_example) as (w' & E & _).
  - apply rem_world_ids.
  - by apply (Forall_replicate _ 301).
  - by vm_compute.
  - exists w'. split; [exact E|].
    assert (E' : w' = (sweep cron_text_example runner_example (rem_at 70000 NoFault None :: sweep_draws) RnLease rem_world_example).2)
      by (by rewrite E).
    rewrite E'. vm_compute. reflexivity.
Defined.

(** ** Runs that go wrong *)

(** A daemon that loses the reply of its claim, or crashes after it, delivers
    nothing, and leaves no error behind. *)
Theorem crash_loses_batch :
  let s := rem_run_example (RvTick 0 true :: RvTurn 0 (rem_at 70000 NoFault None) :: RvCrash 0 ::
    later_ticks) rem_world_example in
  rw_outbox s.2 = [] /\ map rm_LastError (rw_table s.2) = [""; ""; ""] /\
  map rm_Status (rw_table s.2) = replicate 3 ReminderStatusFiring.
Proof. vm_compute. by split_and!. Qed.

(** A reminder cancelled while it is being delivered is delivered all the same. *)
Theorem cancelled_reminder_is_sent :
  let s := rem_run_example (RvTick 0 true :: RvTurn 0 (rem_at 70000 NoFault None) ::
    RvCancel (70 * Second) "once" :: rem_turns 0 70001 9) rem_world_example in
  rem_status s "once" = Some ReminderStatusCancelled /\
  slots "once" (rw_outbox s.2) = [10 * Second] /\
  map fa_Target (rw_audit s.2) = ["once"; "every"].
Proof. vm_compute. by split_and!. Qed.
