(* ===== verification/ReminderTools.v ===== *)
(** * Setting reminders

    The reading of a language model's answer ([reminders/parser.go]) and the tools with
    which a chat sets, moves and cancels a reminder
    ([dispatcher/tool_set_reminder.go], [tool_reminder_change.go]).  A tool reads the
    clock several times and each of its statements is a turn.  The decoder of the
    answer and the parser of RFC 3339 timestamps are parameters. *)
From Stdlib Require Import SpecFloat.
From stdpp Require Import pretty.
From S2P Require Import Prelude GoStrings TaskModel TaskRepo TaskRepoFacts Registry Reminder ReminderFacts.
Open Scope string_scope.
Open Scope Z_scope.

(** ** The parser's answer *)

Record ParsedReply : Type := mkParsedReply {
  pr_Kind : string;
  pr_FireAtUTC : string;
  pr_CronExpr : string;
  pr_RecurrenceUntilUTC : string;
  pr_Content : string;
  pr_Confidence : float64;
  pr_Reasoning : string
}.

Class ReminderText : Type := {
  unmarshal_reply : string -> result string ParsedReply;
  parse_rfc3339 : string -> option time
}.

Inductive IntentKind : Type := IntentKindOneShot | IntentKindRecurring.

Record ReminderIntent : Type := mkIntent {
  in_Kind : IntentKind;
  in_FireAt : time;
  in_Content : string;
  in_CronExpr : string;
  in_RecurrenceUntil : option time;
  in_Confidence : float64;
  in_Reasoning : string
}.

(** Why an answer is not an intent. *)
Inductive Unparseable : Type :=
| UnJson (msg : string)
| UnDeclared (reasoning : string)
| UnKind (kind : string)
| UnConfidence
| UnNoCron
| UnCron (e : CronError)
| UnUntil (text : string)
| UnUntilFirst
| UnFireAt (text : string).

Inductive ParseError : Type :=
| ErrUnparseable (why : Unparseable)
| ErrFireAtInPast (intent : ReminderIntent).

(** 0.6 as a binary64 number. *)
Definition ParseConfidenceThreshold : float64 := S754_finite false 5404319552844595 (-53).

Definition TrimPrefix (s p : string) : string :=
  if String.prefix p s then String.substring (String.length p) (String.length s - String.length p) s
  else s.

Definition TrimSuffix (s p : string) : string :=
  string_rev (TrimPrefix (string_rev s) (string_rev p)).

Definition stripJSONFences (s : string) : string :=
  let s := TrimSpace s in
  let s := TrimPrefix s "```json" in
  let s := TrimPrefix s "```JSON" in
  let s := TrimPrefix s "```" in
  TrimSpace (TrimSuffix s "```").

Section Tools.
Context `{pg : Postgres} {cron : Cron} {RT : ReminderText}.

Definition decode_recurring (doc : ParsedReply) (content : string) (now : time) :
    result ParseError ReminderIntent :=
  let expr := TrimSpace (pr_CronExpr doc) in
  if expr =?? "" then Err (ErrUnparseable UnNoCron)
  else
    match ValidateCronExpr expr with
    | Err e => Err (ErrUnparseable (UnCron e))
    | Ok _ =>
        match (if TrimSpace (pr_RecurrenceUntilUTC doc) =?? "" then Ok None
               else match parse_rfc3339 (pr_RecurrenceUntilUTC doc) with
                    | None => Err (ErrUnparseable (UnUntil (pr_RecurrenceUntilUTC doc)))
                    | Some t => Ok (Some t)
                    end) with
        | Err e => Err e
        | Ok until =>
            match NextFireAt expr now with
            | Err e => Err (ErrUnparseable (UnCron e))
            | Ok next =>
                if match until with Some u => u <? next | None => false end
                then Err (ErrUnparseable UnUntilFirst)
                else Ok (mkIntent IntentKindRecurring next content expr until
                           (pr_Confidence doc) (pr_Reasoning doc))
            end
        end
    end.

Definition decode_one_shot (doc : ParsedReply) (content : string) (now : time) :
    result ParseError ReminderIntent :=
  match parse_rfc3339 (pr_FireAtUTC doc) with
  | None => Err (ErrUnparseable (UnFireAt (pr_FireAtUTC doc)))
  | Some fireAt =>
      let intent := mkIntent IntentKindOneShot fireAt content "" None
                      (pr_Confidence doc) (pr_Reasoning doc) in
      if now <? fireAt then Ok intent else Err (ErrFireAtInPast intent)
  end.

Definition decodeParserResponse (raw : string) (now : time) : result ParseError ReminderIntent :=
  match unmarshal_reply (stripJSONFences raw) with
  | Err msg => Err (ErrUnparseable (UnJson msg))
  | Ok doc =>
      if pr_Kind doc =?? "unparseable" then Err (ErrUnparseable (UnDeclared (pr_Reasoning doc)))
      else if negb (bool_decide (pr_Kind doc ∈ ["one_shot"; "recurring"]))
      then Err (ErrUnparseable (UnKind (pr_Kind doc)))
      else if SFltb (pr_Confidence doc) ParseConfidenceThreshold
      then Err (ErrUnparseable UnConfidence)
      else
        let content := TrimSpace (pr_Content doc) in
        let content := if content =?? "" then "Reminder" else content in
        if pr_Kind doc =?? "recurring" then decode_recurring doc content now
        else decode_one_shot doc content now
  end.

(** ** The chat's tools *)

Definition reminderMaxPendingPerOperator : Z := 50.
Definition reminderMaxFutureWindow : duration := 365 * 24 * Hour.

(** The decoded arguments; an [int64] is a number in its range. *)
Record setReminderArgs : Type := mkSetArgs {
  sa_FireAtRFC3339 : string;
  sa_FireInSeconds : Z;
  sa_Content : string
}.

(** The offset is a product of machine integers. *)
Definition seconds_offset (s : Z) : duration := wrap64 (s * Second).

Definition resolveReminderFireAt (args : setReminderArgs) (now : time) : result string time :=
  if negb (sa_FireAtRFC3339 args =?? "") then
    match parse_rfc3339 (sa_FireAtRFC3339 args) with
    | None => Err "fire_at must be RFC3339"
    | Some t => Ok t
    end
  else if 0 <? sa_FireInSeconds args then Ok (now + seconds_offset (sa_FireInSeconds args))
  else Err "supply either `fire_at` (RFC3339) or `fire_in_seconds` (positive integer)".

(** The answers of [set_reminder]. *)
Inductive SetReply : Type :=
| SetNotTelegram
| SetNoContent
| SetTooLong
| SetBadTime (msg : string)
| SetPast
| SetTooFar
| SetCountFailed
| SetFull (pending : Z)
| SetInsertFailed
| SetDone (id : string) (fireAt : time).

Definition telegram_operator (chatID : Z) : string := "telegram:" +:+ pretty chatID.

(** The reminder [set_reminder] asks for: the clock is read once for the offset and
    once for each bound. *)
Definition set_request (args : setReminderArgs) (chatID : Z) (activeProject : string)
    (now1 now2 now3 : time) : result SetReply Reminder :=
  let content := TrimSpace (sa_Content args) in
  if chatID =? 0 then Err SetNotTelegram
  else if content =?? "" then Err SetNoContent
  else if 2000 <? Z.of_nat (String.length content) then Err SetTooLong
  else
    match resolveReminderFireAt args now1 with
    | Err msg => Err (SetBadTime msg)
    | Ok fireAt =>
        if fireAt <? now2 - Minute then Err SetPast
        else if now3 + reminderMaxFutureWindow <? fireAt then Err SetTooFar
        else Ok {| rm_ID := ""; rm_OperatorID := telegram_operator chatID; rm_Channel := "telegram";
                   rm_ChannelRef := pretty chatID; rm_ProjectID := activeProject;
                   rm_FireAt := fireAt; rm_Content := content; rm_Status := ReminderStatusOther "";
                   rm_CreatedAt := zeroTime; rm_FiredAt := None; rm_CancelledAt := None;
                   rm_CreatedVia := "chat"; rm_ErrorCount := 0; rm_LastError := "";
                   rm_CronExpr := ""; rm_RecurrenceUntil := None |}
    end.

(** The two statements of [set_reminder]. *)
Inductive SetPC : Type :=
| StCount (r : Reminder)
| StInsert (r : Reminder)
| StDone (reply : SetReply).

Definition set_start (args : setReminderArgs) (chatID : Z) (activeProject : string)
    (now1 now2 now3 : time) : SetPC :=
  match set_request args chatID activeProject now1 now2 now3 with
  | Err reply => StDone reply
  | Ok r => StCount r
  end.

Definition set_turn (now : time) (newID : string) (f : Fault) (pc : SetPC) (tbl : Reminders) :
    SetPC * Reminders :=
  match pc with
  | StCount r =>
      let n := CountPendingByOperator (rm_OperatorID r) tbl in
      (if failed f then StDone SetCountFailed
       else if reminderMaxPendingPerOperator <=? n then StDone (SetFull n) else StInsert r, tbl)
  | StInsert r =>
      match (if refused f then Err (ErrSQL "57P01") else InsertReminder now newID (Some r) tbl) with
      | Err _ => (StDone SetInsertFailed, tbl)
      | Ok (r, tbl) => (StDone (if failed f then SetInsertFailed else SetDone (rm_ID r) (rm_FireAt r)), tbl)
      end
  | StDone reply => (StDone reply, tbl)
  end.

(** [reminderBelongsToCaller]; the operator of the context, if any. *)
Definition reminderBelongsToCaller (r : Reminder) (chatID : Z) (operator : option string) : bool :=
  (negb (chatID =? 0) && (rm_ChannelRef r =?? pretty chatID)) ||
  match operator with
  | Some op => negb (op =?? "") && (rm_OperatorID r =?? op)
  | None => false
  end.

Inductive ChangeReply : Type :=
| ChNoID
| ChNotFound
| ChNotYours
| ChNotPending (s : ReminderStatus)
| ChBadTime
| ChPast
| ChFailed
| ChDone.

Record updateReminderArgs : Type := mkUpdateArgs {
  ua_ReminderID : string;
  ua_FireAtRFC3339 : string;
  ua_FireInSeconds : Z;
  ua_Content : string
}.

(** The new time of [update_reminder], or the reply. *)
Definition update_time (args : updateReminderArgs) (r : Reminder) (now : time) :
    result ChangeReply time :=
  if negb (TrimSpace (ua_FireAtRFC3339 args) =?? "") then
    match parse_rfc3339 (ua_FireAtRFC3339 args) with None => Err ChBadTime | Some t => Ok t end
  else if 0 <? ua_FireInSeconds args then Ok (now + seconds_offset (ua_FireInSeconds args))
  else Ok (rm_FireAt r).

(** [update_reminder] on the table it reads and the table it writes. *)
Definition updateReminderTool (args : updateReminderArgs) (chatID : Z) (operator : option string)
    (now1 now2 : time) (tbl1 tbl2 : Reminders) : ChangeReply * Reminders :=
  if TrimSpace (ua_ReminderID args) =?? "" then (ChNoID, tbl2)
  else match GetReminder (ua_ReminderID args) tbl1 with
       | Err _ => (ChNotFound, tbl2)
       | Ok r =>
           if negb (reminderBelongsToCaller r chatID operator) then (ChNotYours, tbl2)
           else if negb (rm_Status r =?? ReminderStatusPending) then (ChNotPending (rm_Status r), tbl2)
           else match update_time args r now1 with
                | Err reply => (reply, tbl2)
                | Ok fireAt =>
                    if fireAt <=? now2 then (ChPast, tbl2)
                    else match UpdateFields (ua_ReminderID args) fireAt
                                 (TrimSpace (ua_Content args)) tbl2 with
                         | Err _ => (ChFailed, tbl2)
                         | Ok tbl => (ChDone, tbl)
                         end
                end
       end.

Definition cancelReminderTool (id : string) (chatID : Z) (operator : option string) (dbnow : time)
    (tbl1 tbl2 : Reminders) : ChangeReply * Reminders :=
  if TrimSpace id =?? "" then (ChNoID, tbl2)
  else match GetReminder id tbl1 with
       | Err _ => (ChNotFound, tbl2)
       | Ok r =>
           if negb (reminderBelongsToCaller r chatID operator) then (ChNotYours, tbl2)
           else (ChDone, CancelReminder dbnow id tbl2)
       end.
End Tools.

(** ** Properties *)

(** What is true of every intent the parser's answer is read as. *)
Record intent_ok `{Cron} (now : time) (i : ReminderIntent) : Prop := {
  io_content : in_Content i <> "";
  io_future : now < in_FireAt i;
  io_confident : SFltb (in_Confidence i) ParseConfidenceThreshold = false;
  io_kind : match in_Kind i with
            | IntentKindOneShot => in_CronExpr i = "" /\ in_RecurrenceUntil i = None
            | IntentKindRecurring =>
                ValidateCronExpr (in_CronExpr i) = Ok () /\
                NextFireAt (in_CronExpr i) now = Ok (in_FireAt i) /\
                forall until, in_RecurrenceUntil i = Some until -> in_FireAt i <= until
            end
}.

Lemma nonempty_default s : (if s =?? "" then "Reminder" else s) <> "".
Proof. by case_bool_decide. Qed.

Lemma parser_accepts `{pg : Postgres} {cron : Cron} {RT : ReminderText} `{!CronNext cron} raw now i :
  decodeParserResponse raw now = Ok i -> intent_ok now i.
Proof.
  unfold decodeParserResponse. destruct (unmarshal_reply _) as [doc|]; [|done].
  case_bool_decide; [done|]. destruct (negb _); [done|]. destruct (SFltb _ _) eqn:Ec; [done|].
  set (content := if _ =?? "" then _ else _).
  assert (Hcontent : content <> "") by apply nonempty_default. clearbody content.
  case_bool_decide.
  - unfold decode_recurring. case_bool_decide as Ee; [done|].
    destruct (ValidateCronExpr _) as [[]|] eqn:Ev; [|done].
    destruct (if _ =?? "" then _ else _) as [until|]; [|done].
    destruct (NextFireAt _ now) as [next|] eqn:En; [|done].
    destruct (match until with Some _ => _ | None => _ end) eqn:Eu; [done|]. intros [= <-].
    split; simpl; [done| |done|].
    + by apply NextFireAt_after in En as [? _].
    + split_and!; [done|done|]. intros u ->. apply Z.ltb_ge in Eu. done.
  - unfold decode_one_shot. destruct (parse_rfc3339 _) as [fireAt|]; [|done].
    destruct (Z.ltb_spec now fireAt); [|done]. intros [= <-]. by split.
Qed.

(** The window of [set_reminder], and where it leaks.  An accepted reminder fires
    no earlier than a minute before now and no later than a year from now; an offset of
    at most [maxInt64] nanoseconds is honoured to the nanosecond; but the product of
    the offset and a second is not checked for overflow, so that an offset of 584 years
    passes both bounds and fires within a third of a second. *)
Theorem set_reminder_window `{RT : ReminderText} args chatID project now1 now2 now3 :
  (forall r, set_request args chatID project now1 now2 now3 = Ok r ->
     now2 - Minute <= rm_FireAt r <= now3 + reminderMaxFutureWindow /\
     (sa_FireAtRFC3339 args = "" -> sa_FireInSeconds args * Second <= maxInt64 ->
        rm_FireAt r = now1 + sa_FireInSeconds args * Second /\ now1 < rm_FireAt r)) /\
  (sa_FireAtRFC3339 args = "" -> sa_FireInSeconds args = 18446744074 ->
   TrimSpace (sa_Content args) <> "" -> (String.length (TrimSpace (sa_Content args)) <= 2000)%nat ->
   chatID <> 0 -> now1 = now2 -> now2 = now3 ->
   exists r, set_request args chatID project now1 now2 now3 = Ok r /\
     rm_FireAt r = now1 + 290448384).
Proof.
  split.
  - intros r. unfold set_request. destruct (chatID =? 0); [done|]. case_bool_decide; [done|].
    destruct (2000 <? _); [done|]. destruct (resolveReminderFireAt args now1) as [fireAt|] eqn:E; [|done].
    destruct (Z.ltb_spec fireAt (now2 - Minute)); [done|].
    destruct (Z.ltb_spec (now3 + reminderMaxFutureWindow) fireAt); [done|]. intros [= <-]. simpl.
    split; [lia|]. intros Hr Hs. unfold resolveReminderFireAt in E. rewrite Hr in E. simpl in E.
    destruct (Z.ltb_spec 0 (sa_FireInSeconds args)); [|done]. injection E as <-.
    unfold seconds_offset. rewrite wrap64_id; unfold int64_range, minInt64, maxInt64, Second,
      Millisecond, Microsecond in *; lia.
  - intros Hr Hs Hc Hl Hchat -> ->. unfold set_request, resolveReminderFireAt.
    rewrite (proj2 (Z.eqb_neq _ _) Hchat), bool_decide_false by done.
    destruct (Z.ltb_spec 2000 (Z.of_nat (String.length (TrimSpace (sa_Content args))))); [lia|].
    rewrite Hr, Hs. simpl. change (seconds_offset 18446744074) with 290448384.
    unfold Minute, reminderMaxFutureWindow, Hour, Minute, Second, Millisecond, Microsecond.
    destruct (Z.ltb_spec (now3 + 290448384) (now3 - 60 * (1000 * (1000 * 1000)))); [lia|].
    destruct (Z.ltb_spec (now3 + 365 * 24 * (60 * (60 * (1000 * (1000 * 1000))))) (now3 + 290448384)); [lia|].
    by eexists.
Qed.

(** ** Examples *)

#[local] Existing Instance pg_example.

(** The only timestamp is the epoch; the only answer asks for it. *)
Definition reminder_text_example : ReminderText := {|
  unmarshal_reply s := Err "unexpected end of JSON input";
  parse_rfc3339 s := if s =?? "1970-01-01T00:00:00Z" then Some 0 else None
|}.
#[local] Existing Instance reminder_text_example.

Example fences : stripJSONFences " ```json{}``` " = "{}".
Proof. vm_compute. reflexivity. Qed.

(** Ten minutes, and 584 years. *)
Lemma set_reminder_window_witness :
  (exists r, set_request (mkSetArgs "" 600 " tea ") 7 "p" 1000 1000 1000 = Ok r /\
     rm_FireAt r = 1000 + 600 * Second) /\
  exists r, set_request (mkSetArgs "" 18446744074 " tea ") 7 "p" 1000 1000 1000 = Ok r /\
    rm_FireAt r = 1000 + 290448384.
Proof.
  split.
  - eexists. split; [vm_compute; reflexivity|].
    apply (proj1 (set_reminder_window (mkSetArgs "" 600 " tea ") 7 "p" 1000 1000 1000));
      [vm_compute; reflexivity|done|by vm_compute].
  - apply (proj2 (set_reminder_window (mkSetArgs "" 18446744074 " tea ") 7 "p" 1000 1000 1000));
      try done. vm_compute. lia.
Defined.

(** [k] pending reminders of one chat. *)
Definition pending_example (k : nat) : Reminders :=
  map (fun i => {|
    rm_ID := "rem_" +:+ pretty (Z.of_nat i); rm_OperatorID := telegram_operator 7; rm_Channel := "telegram";
    rm_ChannelRef := "7"; rm_ProjectID := ""; rm_FireAt := 0; rm_Content := "x";
    rm_Status := ReminderStatusPending; rm_CreatedAt := 0; rm_FiredAt := None;
    rm_CancelledAt := None; rm_CreatedVia := "chat"; rm_ErrorCount := 0; rm_LastError := "";
    rm_CronExpr := ""; rm_RecurrenceUntil := None |}) (seq 0 k).

(** Two calls of [set_reminder] that count before either inserts exceed the cap. *)
Theorem pending_cap_overrun :
  let start := set_start (mkSetArgs "" 600 "tea") 7 "p" 1000 1000 1000 in
  let turn id pc tbl := set_turn 1000 id NoFault pc tbl in
  let '(pc1, t1) := turn "" start (pending_example 49) in
  let '(pc2, t2) := turn "" start t1 in
  let '(pc1, t3) := turn "a" pc1 t2 in
  let '(pc2, t4) := turn "b" pc2 t3 in
  CountPendingByOperator (telegram_operator 7) t4 = 51 /\
  pc1 = StDone (SetDone "a" (1000 + 600 * Second)) /\ pc2 = StDone (SetDone "b" (1000 + 600 * Second)).
Proof. vm_compute. by split_and!. Qed.
