(* ===== verification/CircuitBreaker.v ===== *)
(** * The circuit breaker of autonomy

    [src/internal/executor/circuit_breaker.go] and the switch it throws
    ([registry/patch.go], in memory).  A call of [Trip] is a program counter: its look at
    the cooldown, its query, its second look with the mark, the switch, the alert;
    calls for the same project interleave. *)
From S2P Require Import Prelude TaskModel TaskRepo TaskRepoFacts.
Open Scope list_scope.
Open Scope Z_scope.

(** ** The model *)

(** A breaker that is in service: [newCircuitBreaker] returns nil otherwise. *)
Record BreakerConfig : Type := mkBreakerConfig {
  bk_threshold : Z;
  bk_window : duration;
  bk_skipClasses : list string
}.

Definition newCircuitBreaker (threshold : Z) (window : duration) (skipClasses : list string) :
    option BreakerConfig :=
  if (threshold <=? 0) || (window <=? 0) then None
  else Some (mkBreakerConfig threshold window skipClasses).

(** What the calls share: the marks, the switches of the registered projects, the task
    table; and the alerts sent, each with the mark of its call. *)
Record BreakerWorld : Type := mkBreakerWorld {
  bk_tripped : gmap string time;
  bk_autonomy : gmap string bool;
  bk_tasks : Table;
  bk_alerts : list (string * time * Z)
}.

(** A turn's two readings of the clock, and whether its query fails. *)
Record BreakerDraw : Type := mkBreakerDraw { bd_now : time; bd_stamp : time; bd_failed : bool }.

Section Breaker.
Context `{pg : Postgres} (b : BreakerConfig).

Definition recentlyTripped (projectID : string) (now : time) (w : BreakerWorld) : bool :=
  match bk_tripped w !! projectID with None => false | Some last => now - last <? bk_window b end.

(** [SetProjectAutonomyEnabled]: an unknown project is an error, which is logged. *)
Definition SetProjectAutonomyEnabled (projectID : string) (enabled : bool) (w : BreakerWorld) :
    BreakerWorld :=
  match bk_autonomy w !! projectID with
  | None => w
  | Some _ => mkBreakerWorld (bk_tripped w) (<[projectID := enabled]> (bk_autonomy w)) (bk_tasks w)
                (bk_alerts w)
  end.

Inductive TripPC : Type :=
| TpStart
| TpCount
| TpMark (count : Z)
| TpDisable (count : Z) (stamp : time)
| TpAlert (count : Z) (stamp : time)
| TpDone.

(** One turn of [Trip] for a failed task of a project. *)
Definition trip_turn (projectID errorClass : string) (d : BreakerDraw) (pc : TripPC) (w : BreakerWorld) :
    TripPC * BreakerWorld :=
  match pc with
  | TpStart =>
      (if (projectID =?? ""%string) || bool_decide (errorClass ∈ bk_skipClasses b) ||
          recentlyTripped projectID (bd_now d) w
       then TpDone else TpCount, w)
  | TpCount =>
      (match (if bd_failed d then Err ErrNotFound
              else CountRecentFailures projectID [] (bd_now d - bk_window b) (bk_tasks w)) with
       | Err _ => TpDone
       | Ok count => if count <? bk_threshold b then TpDone else TpMark count
       end, w)
  | TpMark count =>
      if recentlyTripped projectID (bd_now d) w then (TpDone, w)
      else (TpDisable count (bd_stamp d),
            mkBreakerWorld (<[projectID := bd_stamp d]> (bk_tripped w)) (bk_autonomy w) (bk_tasks w)
              (bk_alerts w))
  | TpDisable count stamp => (TpAlert count stamp, SetProjectAutonomyEnabled projectID false w)
  | TpAlert count stamp =>
      (TpDone, mkBreakerWorld (bk_tripped w) (bk_autonomy w) (bk_tasks w)
                 (bk_alerts w ++ [(projectID, stamp, count)]))
  | TpDone => (TpDone, w)
  end.

(** A call under way. *)
Record TripCall : Type := mkTripCall { tc_project : string; tc_class : string; tc_pc : TripPC }.

(** A call for a failed task, a turn, an operator's switch, a call of another client of
    the task repository. *)
Inductive BreakerEvent : Type :=
| BkTrip (projectID errorClass : string)
| BkTurn (i : nat) (d : BreakerDraw)
| BkSwitch (projectID : string) (enabled : bool)
| BkTasks (tbl : Table).

Definition breaker_step (ev : BreakerEvent) (s : list TripCall * BreakerWorld) :
    list TripCall * BreakerWorld :=
  let '(calls, w) := s in
  match ev with
  | BkTrip p c => (calls ++ [mkTripCall p c TpStart], w)
  | BkTurn i d =>
      match calls !! i with
      | None => s
      | Some t =>
          let '(pc, w) := trip_turn (tc_project t) (tc_class t) d (tc_pc t) w in
          (<[i := mkTripCall (tc_project t) (tc_class t) pc]> calls, w)
      end
  | BkSwitch p e => (calls, SetProjectAutonomyEnabled p e w)
  | BkTasks tbl => (calls, mkBreakerWorld (bk_tripped w) (bk_autonomy w) tbl (bk_alerts w))
  end.

Definition breaker_run (evs : list BreakerEvent) (s : list TripCall * BreakerWorld) :
    list TripCall * BreakerWorld :=
  foldl (fun s ev => breaker_step ev s) s evs.

(** ** Alerts are a window apart *)

(** The stamps of the calls that have marked a project: of alerts to come and alerts
    sent. *)
Definition stamp_of (p : string) (t : TripCall) : list time :=
  match tc_pc t with
  | TpDisable _ stamp | TpAlert _ stamp => if tc_project t =?? p then [stamp] else []
  | _ => []
  end.

Definition alerts_of (p : string) (w : BreakerWorld) : list time :=
  omap (fun a => if a.1.1 =?? p then Some a.1.2 else None) (bk_alerts w).

Definition stamps (p : string) (calls : list TripCall) (w : BreakerWorld) : list time :=
  concat (map (stamp_of p) calls) ++ alerts_of p w.

(** Any two are at least a window apart. *)
Definition far (x y : time) : Prop := bk_window b <= Z.abs (x - y).
Definition apart (l : list time) : Prop := ForallOrdPairs far l.

Lemma apart_cons x l : apart (x :: l) <-> Forall (far x) l /\ apart l.
Proof. split; [by inversion 1|intros [? ?]; by constructor]. Qed.

Lemma apart_perm l k : l ≡ₚ k -> apart l -> apart k.
Proof.
  induction 1 as [|x l k Hp IH|x y l|l k m _ IH1 _ IH2]; try done.
  - rewrite !apart_cons. intros [Hx Hl]. split; [by rewrite <- Hp|by apply IH].
  - rewrite !apart_cons, !Forall_cons. intros [[Hf Hy] [Hx Hl]]. split_and!; try done.
    unfold far in *. lia.
  - auto.
Qed.

(** The stamps of a project are apart, and none is after its mark. *)
Definition marked_apart (p : string) (l : list time) (w : BreakerWorld) : Prop :=
  apart l /\ forall x, x ∈ l -> exists last, bk_tripped w !! p = Some last /\ x <= last.

Lemma marked_apart_perm p l k w : l ≡ₚ k -> marked_apart p l w -> marked_apart p k w.
Proof.
  intros Hp [Ha Hl]. split; [by apply (apart_perm l)|]. intros x Hx. apply Hl. by rewrite Hp.
Qed.

Lemma marked_apart_less p l k w : marked_apart p (l ++ k) w -> marked_apart p k w.
Proof.
  intros [Ha Hl]. split; [|intros x Hx; apply Hl, elem_of_app; by right].
  induction l as [|x l IH]; [done|]. simpl in *. apply apart_cons in Ha as [_ Ha]. apply IH; [done|].
  intros y Hy. apply Hl. by right.
Qed.

(** A mark of the project, or of another one. *)
Lemma mark_apart p q l w w' d :
  bd_now d <= bd_stamp d -> 0 < bk_window b -> recentlyTripped q (bd_now d) w = false ->
  bk_tripped w' = <[q := bd_stamp d]> (bk_tripped w) -> marked_apart p l w ->
  marked_apart p ((if q =?? p then [bd_stamp d] else []) ++ l) w'.
Proof.
  intros Hd Hw Hr Ew [Ha Hl]. unfold marked_apart. rewrite Ew. case_bool_decide as E.
  - subst q. unfold recentlyTripped in Hr. simpl. split.
    + apply apart_cons. split; [|done]. apply Forall_forall. intros x Hx.
      destruct (Hl x Hx) as (last & El & ?). rewrite El in Hr. apply Z.ltb_ge in Hr. unfold far. lia.
    + intros x Hx. exists (bd_stamp d). rewrite lookup_insert_eq. split; [done|].
      apply elem_of_cons in Hx as [->|Hx]; [lia|]. destruct (Hl x Hx) as (last & El & ?).
      rewrite El in Hr. apply Z.ltb_ge in Hr. lia.
  - simpl. split; [done|]. intros x Hx. destruct (Hl x Hx) as (last & El & ?). exists last.
    by rewrite lookup_insert_ne.
Qed.

Lemma switch_same p e w :
  bk_tripped (SetProjectAutonomyEnabled p e w) = bk_tripped w /\
  bk_alerts (SetProjectAutonomyEnabled p e w) = bk_alerts w.
Proof. unfold SetProjectAutonomyEnabled. by destruct (bk_autonomy w !! p). Qed.

Lemma trip_turn_apart p t d w others :
  bd_now d <= bd_stamp d -> 0 < bk_window b ->
  marked_apart p ((stamp_of p t ++ others) ++ alerts_of p w) w ->
  let '(pc, w') := trip_turn (tc_project t) (tc_class t) d (tc_pc t) w in
  marked_apart p ((stamp_of p (mkTripCall (tc_project t) (tc_class t) pc) ++ others) ++ alerts_of p w') w'.
Proof.
  intros Hd Hw H. destruct t as [q c pc]. unfold stamp_of in *. simpl in *.
  destruct pc as [| |count|count stamp|count stamp|]; simpl in *.
  - by destruct (_ || _).
  - destruct (if bd_failed d then _ else _) as [n|]; [|done]. by destruct (n <? _).
  - destruct (recentlyTripped q (bd_now d) w) eqn:Er; [done|]. simpl.
    rewrite <- app_assoc. by eapply mark_apart.
  - destruct (switch_same q false w) as [E1 E2]. unfold marked_apart, alerts_of in *. by rewrite E1, E2.
  - unfold alerts_of. simpl. rewrite omap_app. simpl. fold (alerts_of p w).
    eapply marked_apart_perm; [|exact H]. destruct (q =?? p); [|by rewrite app_nil_r].
    rewrite <- app_assoc. simpl. rewrite app_assoc. apply Permutation_cons_append.
  - done.
Qed.

(** The two readings of the clock in one turn are in order. *)
Definition clock_ordered (ev : BreakerEvent) : Prop :=
  match ev with BkTurn _ d => bd_now d <= bd_stamp d | _ => True end.

Lemma breaker_step_apart p ev calls w calls' w' :
  0 < bk_window b -> clock_ordered ev ->
  marked_apart p (stamps p calls w) w -> breaker_step ev (calls, w) = (calls', w') ->
  marked_apart p (stamps p calls' w') w'.
Proof.
  intros Hw Hc H E. destruct ev as [q c|i d|q e|tbl]; cbn [breaker_step] in E.
  - injection E as <- <-. unfold stamps in *. rewrite map_app, concat_app. simpl. by rewrite !app_nil_r.
  - destruct (calls !! i) as [t|] eqn:Ei; [|by injection E as <- <-].
    destruct (concat_map_split (stamp_of p) calls i t Ei) as (others & H1 & H2).
    unfold stamps in H. eapply marked_apart_perm in H; [|by rewrite H1].
    pose proof (trip_turn_apart p t d w others Hc Hw H) as Ht.
    destruct (trip_turn (tc_project t) (tc_class t) d (tc_pc t) w) as [pc w1]. injection E as <- <-.
    unfold stamps. eapply marked_apart_perm; [|exact Ht]. by rewrite H2.
  - injection E as <- <-. destruct (switch_same q e w) as [E1 E2].
    unfold marked_apart, stamps, alerts_of in *. by rewrite E1, E2.
  - by injection E as <- <-.
Qed.
End Breaker.

(** C32: the alerts of a project are at least a window apart: over every interleaving of
    calls of [Trip], operators and task writes, from a breaker that has not tripped,
    any two alerts of one project carry marks that differ by the window or more, so
    however many failures come at once, one alert is sent for them. *)
Theorem alerts_window_apart `{pg : Postgres} b evs w p :
  0 < bk_window b -> bk_alerts w = [] -> Forall clock_ordered evs ->
  apart b (alerts_of p (breaker_run b evs ([], w)).2).
Proof.
  intros Hw Ha Hc.
  assert (H : forall calls w, marked_apart b p (stamps p calls w) w ->
    marked_apart b p (alerts_of p (breaker_run b evs (calls, w)).2) (breaker_run b evs (calls, w)).2).
  { clear Ha w. induction evs as [|ev evs IH]; intros calls w H; [by apply marked_apart_less in H|].
    apply Forall_cons in Hc as [Hc Hcs].
    change (breaker_run b (ev :: evs) (calls, w)) with (breaker_run b evs (breaker_step b ev (calls, w))).
    destruct (breaker_step b ev (calls, w)) as [calls' w'] eqn:E.
    apply IH; [done|]. by eapply breaker_step_apart. }
  apply H. unfold stamps, alerts_of. rewrite Ha. split; [constructor|]. by intros x ?%not_elem_of_nil.
Qed.

(** ** One call, alone *)

(** The five turns of a call, no other call of the project between them. *)
Definition Trip `{pg : Postgres} (b : BreakerConfig) (projectID errorClass : string) (ds : list BreakerDraw)
    (w : BreakerWorld) : TripPC * BreakerWorld :=
  foldl (fun s d => trip_turn b projectID errorClass d s.1 s.2) (TpStart, w) ds.

(** When it fires: the failures of every class, in the window up to its query. *)
Definition trips `{pg : Postgres} (b : BreakerConfig) (projectID errorClass : string)
    (d1 d2 d3 : BreakerDraw) (w : BreakerWorld) : bool :=
  negb (projectID =?? ""%string) && negb (bool_decide (errorClass ∈ bk_skipClasses b)) &&
  negb (recentlyTripped b projectID (bd_now d1) w) && negb (recentlyTripped b projectID (bd_now d3) w) &&
  negb (bd_failed d2) &&
  (bk_threshold b <=? Z.of_nat (count_if (fun t => (ProjectID t =?? projectID) &&
     (Status t =?? TaskStatusFailed) && (ts_in (bd_now d2 - bk_window b) <=? UpdatedAt t)) (bk_tasks w))).

(** What one call of [Trip] does. It fires for a named project, a class that is not
    skipped, outside the cooldown at both of its looks, when its query succeeds and finds
    as many failed tasks in the window, of whatever class, as the threshold. Then the
    project is marked, its autonomy is off whatever it was, and one alert goes out;
    otherwise nothing is changed. *)
Theorem trip_spec `{pg : Postgres} b p c d1 d2 d3 d4 d5 w :
  exists w', Trip b p c [d1; d2; d3; d4; d5] w = (TpDone, w') /\
    bk_tasks w' = bk_tasks w /\
    if trips b p c d1 d2 d3 w then
      bk_tripped w' = <[p := bd_stamp d3]> (bk_tripped w) /\
      bk_autonomy w' !! p = (fun _ => false) <$> (bk_autonomy w !! p) /\
      (forall q, q <> p -> bk_autonomy w' !! q = bk_autonomy w !! q) /\
      exists n, bk_threshold b <= n /\ bk_alerts w' = bk_alerts w ++ [(p, bd_stamp d3, n)]
    else w' = w.
Proof.
  unfold Trip, trips. cbn [foldl fst snd trip_turn].
  destruct (p =?? ""%string) eqn:Ep; [by exists w|]. cbn [orb negb andb].
  destruct (bool_decide (c ∈ bk_skipClasses b)); [by exists w|]. cbn [orb negb andb].
  destruct (recentlyTripped b p (bd_now d1) w); [by exists w|]. cbn [orb andb negb fst snd trip_turn].
  unfold CountRecentFailures. rewrite Ep.
  destruct (bd_failed d2); [by exists w; rewrite andb_false_r|]. cbn [andb negb].
  erewrite count_if_ext; [|intros t _; rewrite andb_true_r; reflexivity]. rewrite Z.leb_antisym.
  set (n := Z.of_nat _). destruct (n <? bk_threshold b) eqn:Et; [by exists w; rewrite andb_false_r|].
  apply Z.ltb_ge in Et. cbn [fst snd trip_turn].
  destruct (recentlyTripped b p (bd_now d3) w); [by exists w|]. cbn [fst snd trip_turn negb andb].
  unfold SetProjectAutonomyEnabled. cbn [bk_autonomy bk_tripped bk_tasks bk_alerts].
  destruct (bk_autonomy w !! p) as [e|] eqn:Ea; cbn [bk_autonomy bk_tripped bk_tasks bk_alerts];
    (eexists; split; [reflexivity|]; split; [done|]; split; [done|]; cbn [bk_autonomy bk_alerts]).
  - rewrite lookup_insert_eq. split; [done|]. split; [by intros q Hq; rewrite lookup_insert_ne|].
    by exists n.
  - rewrite Ea. split; [done|]. split; [done|]. by exists n.
Qed.

(** ** Examples *)

#[local] Existing Instance pg_example.

Definition breaker_example : BreakerConfig := mkBreakerConfig 3 Hour ["CANCELLED"%string].

Definition failure_example (id c : string) : Task :=
  (task_example id "p" TaskStatusFailed 50 0 [] None) <| LastErrorClass := Some c |> <| UpdatedAt := 0 |>.

Definition breaker_world_example : BreakerWorld :=
  mkBreakerWorld ∅ {["p"%string := true]}
    [failure_example "a" "TIMEOUT"; failure_example "b" "CANCELLED"; failure_example "c" "CANCELLED"] [].

Definition bk_at (now : time) : BreakerDraw := mkBreakerDraw now now false.

(** Two failures at once, an operator who switches autonomy on again, a third failure in
    the cooldown, a fourth when it is over. *)
Definition breaker_events_example : list BreakerEvent :=
  [BkTrip "p" "TIMEOUT"; BkTrip "p" "PANIC"] ++
  concat (replicate 5 [BkTurn 0 (bk_at 10); BkTurn 1 (bk_at 20)]) ++
  [BkSwitch "p" true; BkTrip "p" "TIMEOUT"] ++ replicate 5 (BkTurn 2 (bk_at 30)) ++
  [BkTrip "p" "TIMEOUT"] ++ replicate 5 (BkTurn 3 (bk_at (10 + Hour))).

Lemma alerts_window_apart_witness :
  apart breaker_example
    (alerts_of "p" (breaker_run breaker_example breaker_events_example ([], breaker_world_example)).2) /\
  alerts_of "p" (breaker_run breaker_example breaker_events_example ([], breaker_world_example)).2
    = [10; 10 + Hour].
Proof.
  split; [|by vm_compute]. apply alerts_window_apart; [done|done|].
  repeat constructor; by vm_compute.
Defined.

(** A class that is skipped triggers nothing, but its tasks are counted: one failure and
    two cancelled tasks trip a threshold of three. *)
Theorem skipped_classes_are_counted :
  trips breaker_example "p" "CANCELLED" (bk_at 10) (bk_at 10) (bk_at 10) breaker_world_example = false /\
  trips breaker_example "p" "TIMEOUT" (bk_at 10) (bk_at 10) (bk_at 10) breaker_world_example = true /\
  count_if (fun t => negb (bool_decide (LastErrorClass t ∈ map Some (bk_skipClasses breaker_example))))
    (bk_tasks breaker_world_example) = 1%nat.
Proof. by vm_compute. Qed.

(** An operator who switches autonomy on inside the window is not covered: the breaker
    stays silent until the window has passed, whatever fails. *)
Theorem reenabled_project_is_unguarded :
  let w := (Trip breaker_example "p" "TIMEOUT" (replicate 5 (bk_at 10)) breaker_world_example).2 in
  let w' := SetProjectAutonomyEnabled "p" true w in
  trips breaker_example "p" "TIMEOUT" (bk_at (9 + Hour)) (bk_at (9 + Hour)) (bk_at (9 + Hour)) w' = false /\
  (Trip breaker_example "p" "TIMEOUT" (replicate 5 (bk_at (9 + Hour))) w').2 = w' /\
  bk_autonomy w' !! "p"%string = Some true.
Proof. by vm_compute. Qed.
