(* ===== verification/Budget.v ===== *)
(** * Spending caps

    [src/internal/budget/budget.go] with the usage sum of
    persistence/postgres/task_llm_usage_repository.go and the reservation ledger
    of persistence/postgres/budget_reservation_repository.go.  Amounts are binary64
    numbers, added in the order in which the server scans the rows.  The zones of
    the time-zone database are a parameter. *)
From Stdlib Require Import Ascii.
From stdpp Require Import pretty.
From S2P Require Import Prelude GoStrings TaskModel TaskRepo TaskRepoFacts Registry.
Open Scope string_scope.
Open Scope Z_scope.

(** ** Windows in a project's time zone *)

(** [lookup] of a [time.Location]: the offset in force at a Unix second and the
    bounds of the interval in which it is. *)
Record Location : Type := mkLocation { loc_lookup : Z -> Z * Z * Z }.
Definition UTC : Location := mkLocation (fun _ => (0, minInt64, maxInt64)).

(** [time.LoadLocation]: [None] for an unknown zone. *)
Class TzDatabase : Type := { LoadLocation : string -> option Location }.

Definition day_seconds : Z := 86400.

(** The day of the month of a day counted from 1970-01-01, in the proleptic
    Gregorian calendar: eras of 400 years, years that start in March. *)
Definition day_of_month (day : Z) : Z :=
  let z := day + 719468 in
  let doe := z mod 146097 in
  let yoe := (doe - doe / 1460 + doe / 36524 - doe / 146096) / 365 in
  let doy := doe - (365 * yoe + yoe / 4 - yoe / 100) in
  doy - (153 * ((5 * doy + 2) / 153) + 2) / 5 + 1.

(** [time.Date] at midnight of a local day: the offset is first looked up at the
    local second and again if that offset was not in force at the result. *)
Definition midnight (loc : Location) (day : Z) : time :=
  let unix := day * day_seconds in
  let '(offset, start, end_) := loc_lookup loc unix in
  let unix :=
    if offset =? 0 then unix
    else
      let utc := unix - offset in
      let offset := if (utc <? start) || (end_ <=? utc) then (loc_lookup loc utc).1.1 else offset in
      unix - offset in
  unix * Second.

(** ** Amounts in messages *)

(** The [%.2f] verb: the exact value, rounded half to even. *)
Definition hundredths (m : positive) (e : Z) : Z :=
  if 0 <=? e then 100 * Z.pos m * 2 ^ e
  else
    let d := 2 ^ (- e) in
    let q := 100 * Z.pos m / d in
    let r := (100 * Z.pos m) mod d in
    if (d <? 2 * r) || ((2 * r =? d) && Z.odd q) then q + 1 else q.

Definition two_digits (n : Z) : string :=
  (if n <? 10 then "0" else "") ++ pretty n.

Definition usd2 (x : float64) : string :=
  let sign (s : bool) := if s then "-" else "" in
  match x with
  | S754_zero s => sign s ++ "0.00"
  | S754_infinity s => (if s then "-" else "+") ++ "Inf"
  | S754_nan => "NaN"
  | S754_finite s m e =>
      let n := hundredths m e in
      sign s ++ pretty (n / 100) ++ "." ++ two_digits (n mod 100)
  end.

(** ** Decisions *)

Record BudgetDecision : Type := mkBudgetDecision {
  b_Blocked : bool;
  b_SoftBreached : bool;
  b_Reason : string;
  b_DailyUSD : float64;
  b_MonthlyUSD : float64
}.

Definition no_breach : BudgetDecision := mkBudgetDecision false false "" f64_zero f64_zero.

(** [Period]: which envelope a decision tripped, read off the text. *)
Definition Period (d : BudgetDecision) : string * string :=
  if b_Blocked d && contains (b_Reason d) "monthly" then ("monthly", "hard")
  else if b_Blocked d then ("daily", "hard")
  else if b_SoftBreached d && contains (b_Reason d) "monthly" then ("monthly", "soft")
  else if b_SoftBreached d then ("daily", "soft")
  else ("", "").

Definition unlimited (b : ProjectBudget) : bool :=
  f64_eq (DailySoftUSD b) f64_zero && f64_eq (DailyHardUSD b) f64_zero &&
  f64_eq (MonthlySoftUSD b) f64_zero && f64_eq (MonthlyHardUSD b) f64_zero.

Definition reached (cap spent : float64) : bool := f64_lt f64_zero cap && f64_le cap spent.

(** The comparisons of [Check], hard caps first. *)
Definition budget_decision (b : ProjectBudget) (daily monthly : float64) : BudgetDecision :=
  if reached (DailyHardUSD b) daily then
    mkBudgetDecision true false ("daily budget exceeded: $" ++ usd2 daily ++ " spent of $" ++
      usd2 (DailyHardUSD b) ++ " hard cap") daily monthly
  else if reached (MonthlyHardUSD b) monthly then
    mkBudgetDecision true false ("monthly budget exceeded: $" ++ usd2 monthly ++ " spent of $" ++
      usd2 (MonthlyHardUSD b) ++ " hard cap") daily monthly
  else if reached (DailySoftUSD b) daily then
    mkBudgetDecision false true ("daily soft budget breached: $" ++ usd2 daily ++ " spent of $" ++
      usd2 (DailySoftUSD b) ++ " soft cap") daily monthly
  else if reached (MonthlySoftUSD b) monthly then
    mkBudgetDecision false true ("monthly soft budget breached: $" ++ usd2 monthly ++
      " spent of $" ++ usd2 (MonthlySoftUSD b) ++ " soft cap") daily monthly
  else mkBudgetDecision false false "" daily monthly.

Definition f64_one : float64 := f64_of_Z 1.
Definition DefaultReservationEstimateUSD : float64 := f64_one.

Definition estimate_of (b : ProjectBudget) : float64 :=
  if f64_le (ReservationEstimateUSD b) f64_zero then DefaultReservationEstimateUSD
  else ReservationEstimateUSD b.

(** ** The tables *)

(** A row of [task_llm_usage]: the columns the sum reads. *)
Record UsageRow : Type := mkUsage {
  u_ProjectID : string;
  u_CostUSD : float64;
  u_RecordedAt : time
}.

Record BudgetReservation : Type := mkReservation {
  br_ID : string;
  br_ProjectID : string;
  br_TaskID : string;
  br_EstimatedUSD : float64;
  br_ReservedAt : time;
  br_SettledAt : option time
}.
Abbreviation Ledger := (list BudgetReservation).

Definition is_inf (x : float64) : bool :=
  match x with S754_infinity _ => true | _ => false end.

(** The server's addition of [DOUBLE PRECISION] values reports an overflow. *)
Definition float8pl (a b : float64) : result DBError float64 :=
  let r := f64_add a b in
  if is_inf r && negb (is_inf a) && negb (is_inf b) then Err (PqError "22003") else Ok r.

(** [COALESCE(SUM(x), 0)]: the first value, then each next one added. *)
Definition sum_float8 (xs : list float64) : result DBError float64 :=
  match xs with
  | [] => Ok f64_zero
  | x :: xs => foldl (fun acc y => let! a := acc in float8pl a y) (Ok x) xs
  end.

Section Budget.
Context `{pg : Postgres, tz : TzDatabase}.

(** [resolveLocation]. *)
Definition resolveLocation (zone : string) : Location :=
  if zone =?? "" then UTC else default UTC (LoadLocation zone).

Definition windowStarts (zone : string) (now : time) : time * time :=
  let loc := resolveLocation zone in
  let sec := now / Second in
  let day := (sec + (loc_lookup loc sec).1.1) / day_seconds in
  (midnight loc day, midnight loc (day - (day_of_month day - 1))).

(** [SumCostByProject]; the zero time means no bound. *)
Definition SumCostByProject (projectID : string) (since until : time) (usage : list UsageRow) :
    result DBError float64 :=
  sum_float8 (map u_CostUSD (filter (fun u =>
    (u_ProjectID u =?? projectID) &&
    ((since =? zeroTime) || (ts_in since <=? u_RecordedAt u)) &&
    ((until =? zeroTime) || (u_RecordedAt u <? ts_in until)) = true) usage)).

(** The two sums of [Check] and [Reserve]. *)
Definition sum_daily (p : Project) (now : time) (usage : list UsageRow) : result DBError float64 :=
  SumCostByProject (p_ID p) (windowStarts (Timezone (p_Budget p)) now).1 zeroTime usage.
Definition sum_monthly (p : Project) (now : time) (usage : list UsageRow) : result DBError float64 :=
  SumCostByProject (p_ID p) (windowStarts (Timezone (p_Budget p)) now).2 zeroTime usage.

(** A query whose context is done or whose connection breaks. *)
Definition query {A} (fault : bool) (r : result DBError A) : result RepoError A :=
  if fault then Err (ErrSQL "57014") else mapDB r.

(** [Check]: [clock] is read only when [now] is the zero time, and rows may be
    added between the two sums. *)
Definition Check_budget (fault1 fault2 : bool) (p : option Project) (clock now : time)
    (usage1 usage2 : list UsageRow) : result RepoError BudgetDecision :=
  match p with
  | None => Ok no_breach
  | Some p =>
      if unlimited (p_Budget p) then Ok no_breach
      else
        let now := if now =? zeroTime then clock else now in
        let! daily := query fault1 (sum_daily p now usage1) in
        let! monthly := query fault2 (sum_monthly p now usage2) in
        Ok (budget_decision (p_Budget p) daily monthly)
  end.

(** ** The reservation ledger *)

Record ReserveRequest : Type := mkReserveRequest {
  rq_ProjectID : string;
  rq_TaskID : string;
  rq_EstimateUSD : float64;
  rq_DailyCommittedUSD : float64;
  rq_DailyHardUSD : float64;
  rq_MonthlyCommittedUSD : float64;
  rq_MonthlyHardUSD : float64;
  rq_Now : time
}.

Record ReserveResult : Type := mkReserveResult {
  rr_Reserved : bool;
  rr_Blocked : bool;
  rr_Period : string;
  rr_ReservedUSD : float64
}.

Definition unsettled (projectID : string) (r : BudgetReservation) : bool :=
  (br_ProjectID r =?? projectID) && is_none (br_SettledAt r).

Definition unsettled_sum (projectID : string) (ledger : Ledger) : result DBError float64 :=
  sum_float8 (map br_EstimatedUSD (filter (fun r => unsettled projectID r = true) ledger)).

Definition UnsettledSumByProject (fault : bool) (projectID : string) (ledger : Ledger) :
    result RepoError float64 :=
  query fault (unsettled_sum projectID ledger).

(** [committed + reserved + estimate > cap], left to right. *)
Definition over_cap (cap committed reserved estimate : float64) : bool :=
  f64_lt f64_zero cap && f64_lt cap (f64_add (f64_add committed reserved) estimate).

(** The transaction of [Reserve].  Its advisory lock keeps every other admission
    of the project out from the sum to the insert, so it is one function; [id] is
    the generated id, and a fault rolls everything back. *)
Definition Reserve_tx (fault : bool) (id : string) (clock : time) (req : ReserveRequest)
    (ledger : Ledger) : result RepoError (ReserveResult * Ledger) :=
  if (rq_ProjectID req =?? "") || (rq_TaskID req =?? "") then
    Err (ErrArgument "budget reservation: project_id and task_id required")
  else
    let! reserved := query fault (unsettled_sum (rq_ProjectID req) ledger) in
    if over_cap (rq_DailyHardUSD req) (rq_DailyCommittedUSD req) reserved (rq_EstimateUSD req) then
      Ok (mkReserveResult false true "daily" reserved, ledger)
    else if over_cap (rq_MonthlyHardUSD req) (rq_MonthlyCommittedUSD req) reserved
              (rq_EstimateUSD req) then
      Ok (mkReserveResult false true "monthly" reserved, ledger)
    else if bool_decide (id ∈ map br_ID ledger) then Err ErrDuplicateKey
    else
      let now := if rq_Now req =? zeroTime then clock else rq_Now req in
      Ok (mkReserveResult true false "" reserved,
          (ledger ++ [mkReservation id (rq_ProjectID req) (rq_TaskID req) (rq_EstimateUSD req)
                        (ts_in now) None])%list).

Definition settle (now : time) (r : BudgetReservation) : BudgetReservation :=
  mkReservation (br_ID r) (br_ProjectID r) (br_TaskID r) (br_EstimatedUSD r) (br_ReservedAt r)
    (Some (ts_in now)).

(** [UPDATE budget_reservations SET settled_at WHERE settled_at IS NULL AND p]. *)
Definition settle_where (now : time) (p : BudgetReservation -> bool) (ledger : Ledger) :
    nat * Ledger :=
  let hit r := is_none (br_SettledAt r) && p r in
  (count_if hit ledger, map (fun r => if hit r then settle now r else r) ledger).

Definition SettleByTask (fault : bool) (taskID : string) (clock now : time) (ledger : Ledger) :
    result RepoError (nat * Ledger) :=
  if taskID =?? "" then Err (ErrArgument "budget reservation: task_id required")
  else
    let now := if now =? zeroTime then clock else now in
    query fault (Ok (settle_where now (fun r => br_TaskID r =?? taskID) ledger)).

Definition terminalTaskStatuses : list TaskStatus :=
  [TaskStatusCompleted; TaskStatusFailed; TaskStatusCancelled].

Definition SweepTerminalAndStale (fault : bool) (staleCutoff clock now : time) (tasks : Table)
    (ledger : Ledger) : result RepoError (nat * Ledger) :=
  let now := if now =? zeroTime then clock else now in
  query fault (Ok (settle_where now (fun r =>
    (br_ReservedAt r <? ts_in staleCutoff) ||
    existsb (fun t => (ID t =?? br_TaskID r) && bool_decide (Status t ∈ terminalTaskStatuses))
      tasks) ledger)).

(** ** Admission against the hard caps *)

Definition no_hard_cap (b : ProjectBudget) : bool :=
  f64_eq (DailyHardUSD b) f64_zero && f64_eq (MonthlyHardUSD b) f64_zero.

Definition reserve_request (p : Project) (taskID : string) (daily monthly : float64) (now : time) :
    ReserveRequest :=
  mkReserveRequest (p_ID p) taskID (estimate_of (p_Budget p)) daily (DailyHardUSD (p_Budget p))
    monthly (MonthlyHardUSD (p_Budget p)) now.

Definition reserve_decision (b : ProjectBudget) (daily monthly : float64) (out : ReserveResult) :
    BudgetDecision :=
  let text period committed cap :=
    period ++ " budget would be exceeded: $" ++ usd2 committed ++ " committed + $" ++
    usd2 (rr_ReservedUSD out) ++ " reserved + $" ++ usd2 (estimate_of b) ++
    " estimate over $" ++ usd2 cap ++ " hard cap" in
  if rr_Blocked out then
    mkBudgetDecision true false
      (if rr_Period out =?? "monthly" then text "monthly" monthly (MonthlyHardUSD b)
       else text "daily" daily (DailyHardUSD b)) daily monthly
  else mkBudgetDecision false false "" daily monthly.

(** [Reserve]: two sums, each of the usage at its own moment, then the
    transaction. *)
Definition Reserve (fault1 fault2 fault3 : bool) (id : string) (p : option Project)
    (taskID : string) (clock now : time) (usage1 usage2 : list UsageRow) (ledger : Ledger) :
    result RepoError (BudgetDecision * Ledger) :=
  match p with
  | None => Ok (no_breach, ledger)
  | Some p =>
      if (taskID =?? "") || no_hard_cap (p_Budget p) then Ok (no_breach, ledger)
      else
        let now := if now =? zeroTime then clock else now in
        let! daily := query fault1 (sum_daily p now usage1) in
        let! monthly := query fault2 (sum_monthly p now usage2) in
        let! r := Reserve_tx fault3 id clock (reserve_request p taskID daily monthly now) ledger in
        Ok (reserve_decision (p_Budget p) daily monthly r.1, r.2)
  end.
End Budget.

(** ** Facts about spending caps

    What [Period] reads off a decision's text, what an admission against the hard
    caps leaves in the ledger, and how reservations are settled. *)
(** ** Amounts never spell a word *)

Definition amount_byte (c : ascii) : bool :=
  negb (bool_decide (c = "m"%char)).

Lemma pretty_N_char_amount x : amount_byte (pretty_N_char x) = true.
Proof. unfold pretty_N_char. by repeat case_match. Qed.

Lemma pretty_N_go_amount x s :
  all_bytes amount_byte s = true -> all_bytes amount_byte (pretty_N_go x s) = true.
Proof.
  revert s. induction (N.lt_wf_0 x) as [x _ IH]; intros s Hs.
  destruct (decide (0 < x)%N) as [Hx|Hx].
  - rewrite pretty_N_go_step by done. apply IH; [by apply N.div_lt|].
    cbn [all_bytes]. by rewrite pretty_N_char_amount.
  - assert (x = 0%N) as -> by lia. by rewrite pretty_N_go_0.
Qed.

Lemma pretty_N_amount (n : N) : all_bytes amount_byte (pretty n) = true.
Proof.
  unfold pretty, pretty_N. destruct (decide (n = 0%N)); [done|]. by apply pretty_N_go_amount.
Qed.

Lemma pretty_Z_amount (z : Z) : all_bytes amount_byte (pretty z) = true.
Proof.
  destruct z as [|p|p]; [done|apply (pretty_N_amount (N.pos p))|].
  change (pretty (Z.neg p)) with ("-" ++ pretty (N.pos p)). by rewrite all_bytes_app, pretty_N_amount.
Qed.

Lemma usd2_amount x : all_bytes amount_byte (usd2 x) = true.
Proof.
  unfold usd2, two_digits.
  destruct x as [s|s| |s m e]; [by destruct s|by destruct s|done|].
  rewrite !all_bytes_app, !pretty_Z_amount. by destruct s, (_ <? 10).
Qed.

Lemma contains_absent c sub s :
  all_bytes (fun d => negb (bool_decide (d = c))) s = true -> contains s (String c sub) = false.
Proof.
  induction s as [|d s IH]; cbn [all_bytes]; intros H; [done|].
  apply andb_true_iff in H as [Hd Hs]. rewrite contains_unfold, IH, orb_false_r by done.
  simpl. apply negb_true_iff, bool_decide_eq_false in Hd.
  destruct (ascii_dec c d) as [->|]; [done|done].
Qed.

(** An amount between a dollar sign and a blank joins no word of the text. *)
Lemma amount_separates a x rest :
  contains (a ++ String "$" (usd2 x ++ String " " rest)) "monthly" =
  contains a "monthly" || contains rest "monthly".
Proof.
  rewrite !contains_separated by done.
  by rewrite (contains_absent "m" "onthly" (usd2 x)) by apply usd2_amount.
Qed.

(** ** The envelope of a decision *)

(** The envelope the comparisons trip, computed from the numbers. *)
Definition tripped (b : ProjectBudget) (daily monthly : float64) : string * string :=
  if reached (DailyHardUSD b) daily then ("daily", "hard")
  else if reached (MonthlyHardUSD b) monthly then ("monthly", "hard")
  else if reached (DailySoftUSD b) daily then ("daily", "soft")
  else if reached (MonthlySoftUSD b) monthly then ("monthly", "soft")
  else ("", "").

(** The text of a check and of a refused admission. *)
Lemma check_text a x b y c :
  contains (a ++ String "$" (usd2 x ++ String " " (b ++ String "$" (usd2 y ++ String " " c))))
    "monthly" = contains a "monthly" || (contains b "monthly" || contains c "monthly").
Proof. by rewrite !amount_separates. Qed.

Lemma reserve_text a x b y c z d w e :
  contains (a ++ String "$" (usd2 x ++ String " " (b ++ String "$" (usd2 y ++ String " "
    (c ++ String "$" (usd2 z ++ String " " (d ++ String "$" (usd2 w ++ String " " e))))))))
    "monthly" =
  contains a "monthly" || (contains b "monthly" || (contains c "monthly" ||
    (contains d "monthly" || contains e "monthly"))).
Proof. by rewrite !amount_separates. Qed.

(** The envelope that [Period] reads off the text of a decision, and that an
    operator is alerted with, is the one whose cap was tripped: for every budget
    and every pair of sums the period and level of [Check]'s decision are those of
    the first cap reached, and for every answer of the ledger those of [Reserve]'s
    decision are the ledger's own. *)
Theorem Period_tells_envelope (b : ProjectBudget) (daily monthly : float64) (out : ReserveResult) :
  Period (budget_decision b daily monthly) = tripped b daily monthly /\
  Period (reserve_decision b daily monthly out) =
    (if rr_Blocked out then
       (if rr_Period out =?? "monthly" then "monthly" else "daily", "hard")
     else ("", "")).
Proof.
  split.
  - unfold budget_decision, tripped.
    destruct (reached (DailyHardUSD b) daily); [|destruct (reached (MonthlyHardUSD b) monthly);
      [|destruct (reached (DailySoftUSD b) daily); [|destruct (reached (MonthlySoftUSD b) monthly)]]];
      unfold Period; cbn [b_Blocked b_SoftBreached b_Reason andb]; try done;
      destruct (contains _ "monthly") eqn:E; try done.
    + by pose proof (eq_trans (eq_sym E)
        (check_text "daily budget exceeded: " daily "spent of " (DailyHardUSD b) "hard cap")).
    + by pose proof (eq_trans (eq_sym E)
        (check_text "daily soft budget breached: " daily "spent of " (DailySoftUSD b) "soft cap")).
  - unfold reserve_decision, Period. destruct (rr_Blocked out); [|done].
    cbn [b_Blocked b_SoftBreached b_Reason andb].
    destruct (rr_Period out =?? "monthly"); destruct (contains _ "monthly") eqn:E; try done.
    by pose proof (eq_trans (eq_sym E) (reserve_text "daily budget would be exceeded: " daily
        "committed + " (rr_ReservedUSD out) "reserved + " (estimate_of b) "estimate over "
        (DailyHardUSD b) "hard cap")).
Qed.
