(* ===== verification/Watchdog.v ===== *)
(** * The watchdog

    [src/internal/watchdog/watchdog.go]: the periodic scan that fails executions
    without a recent checkpoint, finalizes orphans, expires approvals and settles
    leaked reservations.  It calls the execution, task and reservation repositories;
    each statement is a turn, and a daemon runs one watchdog.  The rendering of its
    error message is a parameter; metrics are the lists of what they count. *)
From S2P Require Import Prelude TaskModel TaskRepo ExecRepo Budget.
Open Scope string_scope.
Open Scope list_scope.
Open Scope Z_scope.

(** ** Configuration *)

Inductive Action : Type :=
| ActionWarn
| ActionFail
| ActionOther (s : string).

#[export] Instance Action_eq_dec : EqDecision Action.
Proof. solve_decision. Defined.

Definition IsValid (a : Action) : bool := (a =?? ActionWarn) || (a =?? ActionFail).

(** The last two say which optional repositories are wired. *)
Record WatchdogConfig : Type := mkWatchdogConfig {
  wc_Enabled : bool;
  wc_Interval : duration;
  wc_StuckThreshold : duration;
  wc_Action : Action;
  wc_ApprovalTimeout : duration;
  wc_ReservationStaleAfter : duration;
  wc_taskRepo : bool;
  wc_sweeper : bool
}.

Definition default_interval : duration := 60 * Second.
Definition default_threshold : duration := 30 * Minute.
Definition default_action : Action := ActionFail.

(** [New]: the configuration in effect. *)
Definition new_watchdog (c : WatchdogConfig) : WatchdogConfig := {|
  wc_Enabled := wc_Enabled c;
  wc_Interval := if wc_Interval c <=? 0 then default_interval else wc_Interval c;
  wc_StuckThreshold :=
    if wc_StuckThreshold c <=? 0 then default_threshold else wc_StuckThreshold c;
  wc_Action := if IsValid (wc_Action c) then wc_Action c else default_action;
  wc_ApprovalTimeout := wc_ApprovalTimeout c;
  wc_ReservationStaleAfter := wc_ReservationStaleAfter c;
  wc_taskRepo := wc_taskRepo c;
  wc_sweeper := wc_sweeper c |}.

Definition scan_page : Z := 500.
Definition defaultReservationStaleAfter : duration := 6 * Hour.

Definition stale_after (c : WatchdogConfig) : duration :=
  if wc_ReservationStaleAfter c <=? 0 then defaultReservationStaleAfter
  else wc_ReservationStaleAfter c.

(** ** The scan *)

(** The tables the watchdog shares with the daemons. *)
Record WdWorld : Type := mkWdWorld {
  ww_execs : ExecTable;
  ww_tasks : Table;
  ww_ledger : Ledger
}.

(** What a turn draws from outside. *)
Record WdDraw : Type := mkWdDraw { wd_now : time; wd_fault : Fault }.

(** Where a scan is: before the listing; in the loop over its rows, with the clock of
    the scan, the ids of the page and the rows left; before each statement of
    [markFailed]; before the orphans, the listing of approvals, the cancellation of
    one, and the reservations. *)
Inductive WdPC : Type :=
| WdIdle
| WdList
| WdRows (now : time) (page : list string) (rest : list ExecRow)
| WdFail (now : time) (page : list string) (x : ExecRow) (rest : list ExecRow)
| WdGet (now : time) (page : list string) (x : ExecRow) (rest : list ExecRow)
| WdUpdate (now : time) (page : list string) (x : ExecRow) (t : Task) (rest : list ExecRow)
| WdOrphans
| WdApprovals
| WdCancel (cutoff : time) (rest : list Task)
| WdSettle.

(** A watchdog: its scan, its table of reported rows, and what its two counters
    count: the rows reported and the rows failed. *)
Record Watchdog : Type := mkWatchdog {
  wg_pc : WdPC;
  wg_seen : gmap string time;
  wg_detected : list (string * time);
  wg_failed : list string
}.

Section Scan.
Context `{pg : Postgres}.
(** The text of the error: the age of the checkpoint and its time. *)
Context (stuck_text : duration -> time -> string) (cfg : WatchdogConfig).

Definition hasSeen (id : string) (updatedAt : time) (g : Watchdog) : bool :=
  wg_seen g !! id =?? Some updatedAt.

Definition markSeen (id : string) (updatedAt : time) (g : Watchdog) : Watchdog :=
  mkWatchdog (wg_pc g) (<[id := updatedAt]> (wg_seen g)) (wg_detected g) (wg_failed g).

Definition clearSeen (id : string) (g : Watchdog) : Watchdog :=
  mkWatchdog (wg_pc g) (delete id (wg_seen g)) (wg_detected g) (wg_failed g).

Definition pruneSeen (running : list string) (g : Watchdog) : Watchdog :=
  mkWatchdog (wg_pc g) (filter (fun kv : string * time => kv.1 ∈ running) (wg_seen g)) (wg_detected g) (wg_failed g).

Definition go (pc : WdPC) (g : Watchdog) : Watchdog :=
  mkWatchdog pc (wg_seen g) (wg_detected g) (wg_failed g).

(** A row reported: the mark, the counter and the log. *)
Definition report (x : ExecRow) (g : Watchdog) : Watchdog :=
  let g := markSeen (x_ID x) (x_UpdatedAt x) g in
  mkWatchdog (wg_pc g) (wg_seen g) (wg_detected g ++ [(x_ID x, x_UpdatedAt x)]) (wg_failed g).

Definition report_failed (x : ExecRow) (g : Watchdog) : Watchdog :=
  let g := report x g in
  mkWatchdog (wg_pc g) (wg_seen g) (wg_detected g) (wg_failed g ++ [x_ID x]).

Definition running_filter : ExecutionFilter :=
  mkExecutionFilter None None (Some ExecutionStatusRunning) scan_page 0.

Definition approval_filter : TaskFilter :=
  mkTaskFilter None (Some TaskStatusAwaitingApproval) None scan_page 0.

Definition stuck_message (now : time) (x : ExecRow) : string :=
  stuck_text (now - x_UpdatedAt x) (x_UpdatedAt x).

(** The statuses a task is not taken out of. *)
Definition ended_statuses : list TaskStatus :=
  [TaskStatusCompleted; TaskStatusFailed; TaskStatusCancelled].

(** The struct written back. *)
Definition stuck_task (msg : string) (t : Task) : Task :=
  t <| Status := TaskStatusFailed |> <| LastError := Some msg |>
    <| LastErrorClass := Some TaskFailureClassStuckExecution |>.

(** One row of the loop: fresh, silenced, to be failed, or reported. *)
Definition row_turn (now : time) (page : list string) (x : ExecRow) (rest : list ExecRow)
    (g : Watchdog) : Watchdog :=
  if negb (x_UpdatedAt x <? now - wc_StuckThreshold cfg)
  then go (WdRows now page rest) (clearSeen (x_ID x) g)
  else if hasSeen (x_ID x) (x_UpdatedAt x) g then go (WdRows now page rest) g
  else if wc_Action cfg =?? ActionFail then go (WdFail now page x rest) g
  else go (WdRows now page rest) (report x g).

(** The next approval that is older than the timeout. *)
Definition next_approval (cutoff : time) (rest : list Task) : WdPC :=
  match filter (fun t => (UpdatedAt t <? cutoff) = true) rest with
  | [] => WdSettle
  | l => WdCancel cutoff l
  end.

(** A statement that may fail before or after it took effect. *)
Definition attempt {A} (f : Fault) (r : result RepoError A) : option A :=
  if refused f then None else match r with Ok a => Some a | Err _ => None end.

(** One turn of [scanOnce]. *)
Definition wd_turn (d : WdDraw) (g : Watchdog) (w : WdWorld) : Watchdog * WdWorld :=
  let f := wd_fault d in
  match wg_pc g with
  | WdIdle => (g, w)
  | WdList =>
      match (if failed f then Err ErrNotFound else ListExecutions running_filter (ww_execs w)) with
      | Err _ => (go WdIdle g, w)
      | Ok rows => (go (WdRows (wd_now d) (map x_ID rows) rows) g, w)
      end
  | WdRows now page (x :: rest) => (row_turn now page x rest g, w)
  | WdRows now page [] => (go WdOrphans (pruneSeen page g), w)
  | WdFail now page x rest =>
      let execs := attempt f (RecordFailure (wd_now d) (x_ID x) (stuck_message now x)
                                TaskFailureClassStuckExecution (ww_execs w)) in
      let w := mkWdWorld (default (ww_execs w) execs) (ww_tasks w) (ww_ledger w) in
      if failed f || is_none execs then (go (WdRows now page rest) g, w)
      else if negb (wc_taskRepo cfg) || (x_TaskID x =?? "")
      then (go (WdRows now page rest) (report_failed x g), w)
      else (go (WdGet now page x rest) g, w)
  | WdGet now page x rest =>
      match (if failed f then Err ErrNotFound else Get (x_TaskID x) (ww_tasks w)) with
      | Err _ => (go (WdRows now page rest) g, w)
      | Ok t =>
          if bool_decide (Status t ∈ ended_statuses)
          then (go (WdRows now page rest) (report_failed x g), w)
          else (go (WdUpdate now page x (stuck_task (stuck_message now x) t) rest) g, w)
      end
  | WdUpdate now page x t rest =>
      let r := attempt f (Update (wd_now d) (Some t) (ww_tasks w)) in
      let w := mkWdWorld (ww_execs w) (match r with Some p => p.2 | None => ww_tasks w end)
                 (ww_ledger w) in
      if failed f || is_none r then (go (WdRows now page rest) g, w)
      else (go (WdRows now page rest) (report_failed x g), w)
  | WdOrphans =>
      let pc := if (wc_ApprovalTimeout cfg <=? 0) || negb (wc_taskRepo cfg)
                then WdSettle else WdApprovals in
      (go pc g,
       if refused f then w
       else mkWdWorld (SupersedeOrphanPausedExecutions (wd_now d) (ww_tasks w) (ww_execs w)).2
              (ww_tasks w) (ww_ledger w))
  | WdApprovals =>
      match (if failed f then Err ErrNotFound else List approval_filter (ww_tasks w)) with
      | Err _ => (go WdSettle g, w)
      | Ok tasks => (go (next_approval (wd_now d - wc_ApprovalTimeout cfg) tasks) g, w)
      end
  | WdCancel cutoff [] => (go WdSettle g, w)
  | WdCancel cutoff (t :: rest) =>
      let r := attempt f (UpdateStatus (wd_now d) (ID t) TaskStatusCancelled (ww_tasks w)) in
      (go (next_approval cutoff rest) g,
       mkWdWorld (ww_execs w) (default (ww_tasks w) r) (ww_ledger w))
  | WdSettle =>
      (go WdIdle g,
       if wc_sweeper cfg then
         match attempt f (SweepTerminalAndStale false (wd_now d - stale_after cfg) (wd_now d)
                            (wd_now d) (ww_tasks w) (ww_ledger w)) with
         | Some r => mkWdWorld (ww_execs w) (ww_tasks w) r.2
         | None => w
         end
       else w)
  end.

(** ** Several daemons *)

(** A daemon starts, and its watchdog scans at once; a tick of a loop, which scans if
    it is idle and its daemon leads; a turn; and what everyone else writes.  A daemon
    that crashes takes no more turns; the one that replaces it is a new one. *)
Inductive WdEvent : Type :=
| WvStart
| WvTick (i : nat) (leader : bool)
| WvTurn (i : nat) (d : WdDraw)
| WvExecs (tbl : ExecTable)
| WvTasks (tbl : Table)
| WvLedger (l : Ledger).

Definition fresh_watchdog : Watchdog := mkWatchdog WdIdle ∅ [] [].

Definition wd_step (ev : WdEvent) (s : list Watchdog * WdWorld) : list Watchdog * WdWorld :=
  let '(gs, w) := s in
  match ev with
  | WvStart => (gs ++ [go (if wc_Enabled cfg then WdList else WdIdle) fresh_watchdog], w)
  | WvTick i leader =>
      match gs !! i with
      | Some g =>
          match wg_pc g with
          | WdIdle => if wc_Enabled cfg && leader then (<[i := go WdList g]> gs, w) else s
          | _ => s
          end
      | None => s
      end
  | WvTurn i d =>
      match gs !! i with
      | Some g => let '(g, w) := wd_turn d g w in (<[i := g]> gs, w)
      | None => s
      end
  | WvExecs tbl => (gs, mkWdWorld tbl (ww_tasks w) (ww_ledger w))
  | WvTasks tbl => (gs, mkWdWorld (ww_execs w) tbl (ww_ledger w))
  | WvLedger l => (gs, mkWdWorld (ww_execs w) (ww_tasks w) l)
  end.

Definition wd_run (evs : list WdEvent) (s : list Watchdog * WdWorld) : list Watchdog * WdWorld :=
  foldl (fun s ev => wd_step ev s) s evs.

End Scan.
