(* ===== verification/WatchdogScan.v ===== *)
(** * An undisturbed scan of the watchdog

    Without faults and other writers a scan is a function of the tables: which
    executions it fails, which tasks, which orphans, approvals and reservations it
    ends. *)
From S2P Require Import Prelude TaskModel TaskRepo TaskRepoFacts TaskRepoSafety TaskRepoTypes ExecRepo Budget DelegationFacts FamilyFacts Watchdog.
Open Scope string_scope.
Open Scope list_scope.
Open Scope Z_scope.

Section Scan.
Context `{pg : Postgres} `{!PostgresStable pg}.
Context (stuck_text : duration -> time -> string) (cfg : WatchdogConfig).

(** A watchdog on its own. *)
Definition scan (ds : list WdDraw) (s : Watchdog * WdWorld) : Watchdog * WdWorld :=
  foldl (fun s d => wd_turn stuck_text cfg d s.1 s.2) s ds.

(** No statement fails, and the clocks are between two times. *)
Context (lo hi : time).
Definition calm (d : WdDraw) : Prop := wd_fault d = NoFault /\ lo <= wd_now d <= hi.

(** Some number of calm turns, [n] at most, establishes [Q]. *)
Definition reaches (n : nat) (s : Watchdog * WdWorld) (Q : Watchdog * WdWorld -> Prop) : Prop :=
  forall ds, Forall calm ds -> (n <= length ds)%nat -> exists k, (k <= n)%nat /\ Q (scan (take k ds) s).

Lemma reaches_now n s (Q : _ -> Prop) : Q s -> reaches n s Q.
Proof. intros HQ ds _ _. exists 0%nat. split; [lia|done]. Qed.

Lemma reaches_step n s (Q : _ -> Prop) :
  (forall d, calm d -> reaches n (wd_turn stuck_text cfg d s.1 s.2) Q) -> reaches (S n) s Q.
Proof.
  intros H [|d ds] Hc Hl; [simpl in Hl; lia|]. apply Forall_cons in Hc as [Hd Hc].
  destruct (H d Hd ds Hc ltac:(simpl in Hl; lia)) as (k & Hk & HQ). exists (S k). split; [lia|done].
Qed.

Lemma reaches_then n m s (Q R : _ -> Prop) :
  reaches n s Q -> (forall s', Q s' -> reaches m s' R) -> reaches (n + m) s R.
Proof.
  intros HQ HR ds Hc Hl. destruct (HQ ds Hc ltac:(lia)) as (k & Hk & H).
  destruct (HR _ H (drop k ds)) as (j & Hj & H'); [by apply Forall_drop|rewrite length_drop; lia|].
  exists (k + j)%nat. split; [lia|]. unfold scan in *. rewrite <- foldl_app in H'.
  replace (take (k + j) ds) with (take k ds ++ take j (drop k ds)); [done|].
  by rewrite take_take_drop.
Qed.

Lemma reaches_le n m s (Q : _ -> Prop) : reaches n s Q -> (n <= m)%nat -> reaches m s Q.
Proof.
  intros H Hnm ds Hc Hl. destruct (H ds Hc ltac:(lia)) as (k & Hk & HQ). exists k. split; [lia|done].
Qed.

Lemma reaches_mono n s (Q R : _ -> Prop) : reaches n s Q -> (forall s', Q s' -> R s') -> reaches n s R.
Proof. intros H HQR ds Hc Hl. destruct (H ds Hc Hl) as (k & Hk & HQ). eauto. Qed.

Lemma scan_split k ds s : scan ds s = scan (drop k ds) (scan (take k ds) s).
Proof. unfold scan. rewrite <- foldl_app. by rewrite take_drop. Qed.

Lemma scan_idle ds g w : wg_pc g = WdIdle -> scan ds (g, w) = (g, w).
Proof.
  intros Hg. induction ds as [|d ds IH]; [done|]. unfold scan in *. cbn [foldl fst snd].
  unfold wd_turn at 2. by rewrite Hg.
Qed.

(** ** What one row does *)

(** The rows of the page that the loop acts on. *)
Definition stuck (now : time) (seen : gmap string time) (x : ExecRow) : bool :=
  (x_UpdatedAt x <? now - wc_StuckThreshold cfg) && negb (seen !! x_ID x =?? Some (x_UpdatedAt x)).

(** The row a failed execution becomes. *)
Definition failed_exec (at_ : time) (msg : string) (x : ExecRow) : ExecRow :=
  x <| x_Status := ExecutionStatusFailed |> <| x_ErrorMessage := nullif_empty msg |>
    <| x_ErrorCode := Some TaskFailureClassStuckExecution |>
    <| x_CompletedAt := Some at_ |> <| x_UpdatedAt := at_ |>.

(** The executions of [l] are failed, the others kept. *)
Definition exec_outcome (now : time) (l : list ExecRow) (x x' : ExecRow) : Prop :=
  if bool_decide (x_ID x ∈ map x_ID l)
  then exists at_ y, y ∈ l /\ x_ID y = x_ID x /\ x' = failed_exec at_ (stuck_message stuck_text now y) x
  else x' = x.

(** A task that an execution of [l] takes along. *)
Definition taken (l : list ExecRow) (t : Task) : bool :=
  negb (ID t =?? "") && negb (bool_decide (Status t ∈ ended_statuses)) &&
  bool_decide (ID t ∈ map x_TaskID l).

Definition task_outcome (now : time) (l : list ExecRow) (t t' : Task) : Prop :=
  if taken l t
  then exists at_ y, y ∈ l /\ x_TaskID y = ID t /\
    t' = updated_row ((stuck_task (stuck_message stuck_text now y) (scanTask t)) <| UpdatedAt := at_ |>) t
  else t' = t.

Lemma exec_outcome_cons now x l a b c :
  x_ID x ∉ map x_ID l -> exec_outcome now [x] a b -> exec_outcome now l b c -> exec_outcome now (x :: l) a c.
Proof.
  intros Hx H1 H2. unfold exec_outcome in *. cbn [map] in *.
  destruct (decide (x_ID a = x_ID x)) as [E|E].
  - rewrite bool_decide_true in H1 by (rewrite E; by left). destruct H1 as (at_ & y & ->%list_elem_of_singleton & E' & ->).
    rewrite bool_decide_false in H2 by (change (x_ID a ∉ map x_ID l); by rewrite E).
    rewrite bool_decide_true by (rewrite E; by left). exists at_, x. split_and!; [by left|done|done].
  - rewrite bool_decide_false in H1 by (by intros ?%list_elem_of_singleton). subst b.
    rewrite (bool_decide_ext _ (x_ID a ∈ map x_ID l)) by (rewrite elem_of_cons; naive_solver).
    case_bool_decide; [|done]. destruct H2 as (at_ & y & Hy & ? & ->). exists at_, y.
    split_and!; [by right|done|done].
Qed.

Lemma taken_cons x l t : taken (x :: l) t = taken [x] t || taken l t.
Proof.
  unfold taken. cbn [map].
  destruct (negb (ID t =?? "") && negb (bool_decide (Status t ∈ ended_statuses))); [|done]. cbn [andb].
  rewrite (bool_decide_ext _ (ID t ∈ [x_TaskID x] \/ ID t ∈ map x_TaskID l))
    by (rewrite elem_of_cons, list_elem_of_singleton; naive_solver).
  by rewrite bool_decide_or.
Qed.

Lemma task_outcome_cons now x l a b c :
  task_outcome now [x] a b -> task_outcome now l b c -> task_outcome now (x :: l) a c.
Proof.
  intros H1 H2. unfold task_outcome in *. rewrite taken_cons. destruct (taken [x] a) eqn:E.
  - destruct H1 as (at_ & y & ->%list_elem_of_singleton & E' & ->). unfold taken in H2. cbn [updated_row Status] in H2.
    rewrite (bool_decide_true (TaskStatusFailed ∈ ended_statuses)), andb_false_r in H2
      by (unfold ended_statuses; set_solver).
    exists at_, x. split_and!; [by left|done|done].
  - subst b. cbn [orb]. destruct (taken l a); [|done]. destruct H2 as (at_ & y & Hy & ? & ->).
    exists at_, y. split_and!; [by right|done|done].
Qed.

Lemma Forall2_map_self {A} (R : A -> A -> Prop) (f : A -> A) l :
  (forall x, x ∈ l -> R x (f x)) -> Forall2 R l (map f l).
Proof. intros H. apply Forall2_fmap_r, Forall_Forall2_diag, Forall_forall. exact H. Qed.

Lemma Forall2_chain {A} (P Q R : A -> A -> Prop) l m n :
  (forall a b c, P a b -> Q b c -> R a c) -> Forall2 P l m -> Forall2 Q m n -> Forall2 R l n.
Proof.
  intros H HP. revert n. induction HP as [|a b l m Hab _ IH]; intros n HQ; inversion HQ; subst; constructor; eauto.
Qed.

Lemma exec_outcome_nil now l : Forall2 (exec_outcome now []) l l.
Proof. apply Forall_Forall2_diag, Forall_forall. intros x _. unfold exec_outcome. by rewrite bool_decide_false by (by apply not_elem_of_nil). Qed.

Lemma task_outcome_nil now l : Forall2 (task_outcome now []) l l.
Proof.
  apply Forall_Forall2_diag, Forall_forall. intros t _. unfold task_outcome, taken.
  by rewrite (bool_decide_false (ID t ∈ map _ _)), andb_false_r by (by apply not_elem_of_nil).
Qed.

(** The statement that fails a task. *)
Lemma same_task tbl t u : table_ok tbl -> t ∈ tbl -> u ∈ tbl -> ID t = ID u -> t = u.
Proof.
  intros Hok Ht Hu E. apply (f_equal (row tbl)) in E.
  rewrite (proj2 (row_Some tbl (ID t) t (ok_ids _ Hok))) in E by done.
  rewrite (proj2 (row_Some tbl (ID u) u (ok_ids _ Hok))) in E by done. by injection E.
Qed.

Lemma stuck_writable msg tbl t :
  well_typed tbl -> t ∈ tbl -> writable (stuck_task msg (scanTask t)) t.
Proof.
  intros Ht Hin. pose proof (wt_columns _ Ht t Hin) as Hc. unfold columns_ok in Hc. btauto_hyps.
  split; try done; [|exact (ok_checks _ (wt_table _ Ht) t Hin)].
  apply bind_errors_None. unfold task_binds. repeat (apply Forall_cons; split); try done.
  unfold sql_enum. cbn [fst]. unfold json_ok. change (Payload (stuck_task msg (scanTask t))) with (Payload t).
  destruct (Payload t) as [v|] eqn:E; [|done].
  destruct (wt_payload _ Ht t Hin v E) as (s & Hs). by rewrite (jsonb_in_stable _ _ Hs).
Qed.

Lemma Update_rows now t tbl t' tbl' :
  Update now (Some t) tbl = Ok (t', tbl') ->
  tbl' = update_rows (fun x => ID x =?? ID t) (updated_row (t <| UpdatedAt := now |>)) tbl.
Proof.
  cbn [Update]. intros E. apply res_bind_ok in E as (r & E & [= _ <-]).
  apply with_binds_Ok in E as [_ E]. unfold exec_update in E.
  destruct (constraint_error _ _); [done|]. by injection E as <-.
Qed.

Lemma fail_task_reaches now page x rest g w t :
  well_typed (ww_tasks w) -> t ∈ ww_tasks w -> ID t = x_TaskID x -> Status t ∉ ended_statuses -> ID t <> "" ->
  wg_pc g = WdUpdate now page x (stuck_task (stuck_message stuck_text now x) (scanTask t)) rest ->
  reaches 1 (g, w) (fun s' => s'.1 = go (WdRows now page rest) (report_failed x g) /\
    ww_execs s'.2 = ww_execs w /\ ww_ledger s'.2 = ww_ledger w /\ well_typed (ww_tasks s'.2) /\
    Forall2 (task_outcome now [x]) (ww_tasks w) (ww_tasks s'.2)).
Proof.
  intros Ht Hin Hid Hst Hne Hpc. apply reaches_step. intros d [Hd _]. apply reaches_now.
  unfold wd_turn. cbn [fst snd]. rewrite Hpc, Hd. cbn [failed refused attempt].
  pose proof (stuck_writable (stuck_message stuck_text now x) _ t Ht Hin) as Hw.
  set (t1 := stuck_task _ _) in *.
  destruct (Update_one (wd_now d) t1 t (ww_tasks w)) as (t2 & tbl' & E & _);
    [apply Ht|by apply row_Some; [apply Ht|]|done|].
  rewrite E. cbn [is_none orb ww_tasks ww_execs ww_ledger snd fst].
  split_and!; [done..|by eapply update_typed|]. rewrite (Update_rows _ _ _ _ _ E).
  apply Forall2_map_self. intros y Hy. unfold task_outcome.
  change (ID t1) with (ID t). case_bool_decide as Ey.
  - assert (y = t) as -> by (eapply same_task; eauto using wt_table).
    unfold taken. rewrite !bool_decide_false by done.
    rewrite bool_decide_true by (rewrite Hid; by left). cbn [negb andb].
    exists (wd_now d), x. split_and!; [by left|done|done].
  - unfold taken. cbn [map]. rewrite (bool_decide_false (ID y ∈ [x_TaskID x])), andb_false_r; [done|].
    rewrite list_elem_of_singleton. congruence.
Qed.

Lemma stuck_scan now seen x : stuck now seen (scanExecution x) = stuck now seen x.
Proof. done. Qed.

(** What the loop has done when it comes to the rest of its rows. *)
Definition rows_done (now : time) (page : list string) (l rest : list ExecRow)
    (g : Watchdog) (w : WdWorld) (s' : Watchdog * WdWorld) : Prop :=
  wg_pc s'.1 = WdRows now page rest /\
  (forall id, id ∉ map x_ID l -> wg_seen s'.1 !! id = wg_seen g !! id) /\
  well_typed (ww_tasks s'.2) /\ ww_ledger s'.2 = ww_ledger w /\
  let acted := filter (fun x => stuck now (wg_seen g) x = true) l in
  Forall2 (exec_outcome now acted) (ww_execs w) (ww_execs s'.2) /\
  Forall2 (task_outcome now acted) (ww_tasks w) (ww_tasks s'.2).

Lemma acted_one (p : ExecRow -> bool) x :
  filter (fun x => p x = true) [x] = (if p x then [x] else []).
Proof. rewrite filter_cons. by destruct (p x). Qed.

(** The statement that fails an execution. *)
Lemma record_failure_outcome now at_ x tbl execs :
  RecordFailure at_ (x_ID x) (stuck_message stuck_text now x) TaskFailureClassStuckExecution tbl = Ok execs ->
  Forall2 (exec_outcome now [x]) tbl execs.
Proof.
  intros [= <-]. apply Forall2_map_self. intros y _. unfold exec_outcome, by_id. cbn [map].
  rewrite (bool_decide_ext (x_ID y ∈ [x_ID x]) (x_ID y = x_ID x)) by apply list_elem_of_singleton.
  case_bool_decide as E; [|done]. exists at_, x. by split_and!; [left| |].
Qed.

Lemma row_reaches now page x rest g w :
  wc_Action cfg = ActionFail -> wc_taskRepo cfg = true ->
  wg_pc g = WdRows now page (x :: rest) -> well_typed (ww_tasks w) ->
  reaches 4 (g, w) (rows_done now page [x] rest g w).
Proof.
  intros Ha Hr Hpc Ht. unfold rows_done. rewrite acted_one. unfold stuck.
  apply reaches_step. intros d _. unfold wd_turn. cbn [fst snd]. rewrite Hpc. unfold row_turn.
  destruct (x_UpdatedAt x <? now - wc_StuckThreshold cfg); cbn [negb andb].
  2: { apply reaches_now. split_and!; try done; [|apply exec_outcome_nil|apply task_outcome_nil].
       intros id Hid. cbn. apply lookup_delete_ne. intros E. apply Hid. rewrite <- E. by left. }
  unfold hasSeen. destruct (wg_seen g !! x_ID x =?? Some (x_UpdatedAt x)); cbn [negb].
  { apply reaches_now. split_and!; try done; [apply exec_outcome_nil|apply task_outcome_nil]. }
  rewrite Ha, bool_decide_true by done.
  (* RecordFailure *)
  apply reaches_step. intros d1 [Hd1 _]. unfold wd_turn. cbn [fst snd go wg_pc]. rewrite Hd1, Hr.
  cbn [failed refused attempt negb orb]. destruct (RecordFailure _ _ _ _ _) as [execs|] eqn:Ex; [|done].
  cbn [is_none orb default ww_tasks ww_ledger]. pose proof (record_failure_outcome _ _ _ _ _ Ex) as He.
  assert (Hkeep : forall id, id ∉ map x_ID [x] ->
    wg_seen (report_failed x (go (WdRows now page rest) g)) !! id = wg_seen g !! id).
  { intros id Hid. cbn. apply lookup_insert_ne. intros E. apply Hid. rewrite <- E. by left. }
  assert (Hnone : (forall t, t ∈ ww_tasks w -> taken [x] t = false) ->
    Forall2 (task_outcome now [x]) (ww_tasks w) (ww_tasks w)).
  { intros H. apply Forall_Forall2_diag, Forall_forall. intros t Hin. unfold task_outcome. by rewrite H. }
  case_bool_decide as Et; [apply reaches_now; split_and!; try done|].
  { apply Hnone. intros t _. unfold taken. cbn [map]. rewrite Et.
    destruct (decide (ID t = "")) as [->|]; [done|].
    rewrite (bool_decide_false (ID t ∈ [""])), andb_false_r; [done|]. by rewrite list_elem_of_singleton. }
  (* Get *)
  apply reaches_step. intros d2 [Hd2 _]. unfold wd_turn. cbn [fst snd go wg_pc]. rewrite Hd2.
  cbn [failed ww_tasks]. rewrite Get_row.
  destruct (row (ww_tasks w) (x_TaskID x)) as [t|] eqn:Er.
  2: { apply row_None in Er. apply reaches_now. split_and!; try done. apply Hnone. intros t Hin.
       unfold taken. cbn [map]. rewrite (bool_decide_false (ID t ∈ _)), andb_false_r; [done|].
       rewrite list_elem_of_singleton. intros E. apply Er. rewrite <- E. by apply list_elem_of_fmap_2. }
  apply row_Some_1 in Er as [Hin Hid]. change (Status (scanTask t)) with (Status t).
  case_bool_decide as Es.
  { apply reaches_now. split_and!; try done. apply Hnone. intros t' Hin'. unfold taken. cbn [map].
    destruct (decide (ID t' = x_TaskID x)) as [E|E].
    - assert (t' = t) as -> by (eapply same_task; eauto using wt_table; congruence).
      by rewrite (bool_decide_true _ Es), andb_false_r.
    - rewrite (bool_decide_false (ID t' ∈ _)), andb_false_r; [done|]. by rewrite list_elem_of_singleton. }
  (* Update *)
  eapply reaches_mono; [eapply (fail_task_reaches now page x rest _ (mkWdWorld execs _ _) t); [done..|congruence|done]|].
  intros [g' w'] (Hg & Hw1 & Hw2 & Hw3 & Hw4). cbn [fst snd ww_execs ww_ledger ww_tasks] in *. subst g'.
  split_and!; try done. by rewrite Hw1.
Qed.

Lemma filter_same {A} (p q : A -> bool) (l : list A) :
  (forall x, x ∈ l -> p x = q x) -> filter (fun x => p x = true) l = filter (fun x => q x = true) l.
Proof.
  induction l as [|x l IH]; [done|]. intros H. rewrite !filter_cons, (H x) by left.
  by rewrite IH by (intros y Hy; apply H; by right).
Qed.

Lemma rows_reaches now page rows : forall g w,
  wc_Action cfg = ActionFail -> wc_taskRepo cfg = true -> NoDup (map x_ID rows) ->
  wg_pc g = WdRows now page rows -> well_typed (ww_tasks w) ->
  reaches (4 * length rows) (g, w) (rows_done now page rows [] g w).
Proof.
  induction rows as [|x rows IH]; intros g w Ha Hr Hnd Hpc Ht.
  { apply reaches_now. unfold rows_done. split_and!; try done; [apply exec_outcome_nil|apply task_outcome_nil]. }
  cbn [map] in Hnd. apply NoDup_cons in Hnd as [Hx Hnd].
  apply (reaches_le (4 + 4 * length rows)); [|simpl; lia].
  eapply reaches_then; [by eapply row_reaches|].
  intros [g1 w1] (Hpc1 & Hs1 & Ht1 & Hl1 & He1 & Htk1). cbn [fst snd] in *.
  eapply reaches_mono; [by eapply IH|].
  intros [g2 w2] (Hpc2 & Hs2 & Ht2 & Hl2 & He2 & Htk2). cbn [fst snd] in *.
  set (acted1 := filter _ [x]) in *. set (acted2 := filter _ rows) in *.
  assert (E2 : acted2 = filter (fun x => stuck now (wg_seen g) x = true) rows).
  { apply filter_same. intros y Hy. unfold stuck. rewrite Hs1; [done|].
    intros E%list_elem_of_singleton. apply Hx. rewrite <- E. by apply list_elem_of_fmap_2. }
  assert (E : filter (fun x => stuck now (wg_seen g) x = true) (x :: rows) = acted1 ++ acted2).
  { rewrite E2. unfold acted1. rewrite <- filter_app. done. }
  assert (Hx2 : x_ID x ∉ map x_ID acted2).
  { rewrite E2. intros (y & Ey & [_ Hy]%list_elem_of_filter)%list_elem_of_fmap. apply Hx. rewrite Ey.
    by apply list_elem_of_fmap_2. }
  unfold rows_done. rewrite E. split_and!; [done| |done|exact (eq_trans Hl2 Hl1)| |]; cbn [fst snd].
  - intros id Hid. cbn [map] in Hid. rewrite Hs2, Hs1; [done|..]; set_solver.
  - eapply Forall2_chain; [|exact He1|exact He2]. intros a b c Hab Hbc. unfold acted1 in *.
    rewrite acted_one in *. destruct (stuck now (wg_seen g) x); [by eapply exec_outcome_cons|].
    unfold exec_outcome in Hab. rewrite bool_decide_false in Hab by (by apply not_elem_of_nil). by subst b.
  - eapply Forall2_chain; [|exact Htk1|exact Htk2]. intros a b c Hab Hbc. unfold acted1 in *.
    rewrite acted_one in *. destruct (stuck now (wg_seen g) x); [by eapply task_outcome_cons|].
    unfold task_outcome, taken in Hab. cbn [map] in Hab.
    rewrite (bool_decide_false (ID a ∈ [])), andb_false_r in Hab by (by apply not_elem_of_nil). by subst b.
Qed.

(** ** The sweeps after the loop *)

Definition old_approval (cutoff : time) (t : Task) : bool := UpdatedAt t <? cutoff.

(** The approvals of [l] that are old are cancelled, other tasks kept. *)
Definition approval_outcome (cutoff : time) (l : list Task) (t t' : Task) : Prop :=
  if bool_decide (ID t ∈ map ID (filter (fun t => old_approval cutoff t = true) l))
  then exists at_, t' = t <| Status := TaskStatusCancelled |> <| UpdatedAt := at_ |>
  else t' = t.

Lemma UpdateStatus_rows now id status tbl tbl' :
  UpdateStatus now id status tbl = Ok tbl' ->
  tbl' = update_rows (fun t => ID t =?? id) (fun t => t <| Status := status |> <| UpdatedAt := now |>) tbl.
Proof.
  unfold UpdateStatus. intros E. apply res_bind_ok in E as (r & E & [= <-]).
  apply with_binds_Ok in E as [_ E]. unfold exec_update in E.
  destruct (constraint_error _ _); [done|]. by injection E as <-.
Qed.

Lemma next_approval_again cutoff l :
  next_approval cutoff (filter (fun t => old_approval cutoff t = true) l) = next_approval cutoff l.
Proof.
  unfold next_approval. change (fun t => (UpdatedAt t <? cutoff) = true)
    with (fun t => old_approval cutoff t = true).
  by rewrite (filter_all (old_approval cutoff)) by (by intros t [? _]%list_elem_of_filter).
Qed.

Lemma cancel_reaches cutoff l : forall g w,
  wg_pc g = next_approval cutoff l -> table_ok (ww_tasks w) ->
  reaches (length l) (g, w) (fun s' => wg_pc s'.1 = WdSettle /\ wg_seen s'.1 = wg_seen g /\
    ww_execs s'.2 = ww_execs w /\ ww_ledger s'.2 = ww_ledger w /\
    Forall2 (approval_outcome cutoff l) (ww_tasks w) (ww_tasks s'.2)).
Proof.
  induction l as [|t l IH]; intros g w Hpc Hok.
  { apply reaches_now. split_and!; try done. apply Forall_Forall2_diag, Forall_forall. intros x _.
    unfold approval_outcome. by rewrite bool_decide_false by (by apply not_elem_of_nil). }
  assert (Hp : wg_pc g = if old_approval cutoff t
    then WdCancel cutoff (t :: filter (fun t => old_approval cutoff t = true) l) else next_approval cutoff l).
  { rewrite Hpc. unfold next_approval, old_approval. rewrite filter_cons. by destruct (UpdatedAt t <? cutoff). }
  assert (Hf : map ID (filter (fun t => old_approval cutoff t = true) (t :: l)) =
    (if old_approval cutoff t then [ID t] else []) ++ map ID (filter (fun t => old_approval cutoff t = true) l)).
  { rewrite filter_cons. by destruct (old_approval cutoff t). }
  clear Hpc. unfold approval_outcome. rewrite Hf. clear Hf. destruct (old_approval cutoff t).
  2: { eapply reaches_le; [by apply IH|simpl; lia]. }
  apply reaches_step. intros d [Hd _]. unfold wd_turn. cbn [fst snd]. rewrite Hp, Hd. cbn [refused attempt].
  destruct (UpdateStatus_one (wd_now d) (ID t) TaskStatusCancelled (ww_tasks w) Hok ltac:(done))
    as (tbl' & E & Hok' & _). rewrite E. cbn [default]. rewrite next_approval_again.
  eapply reaches_mono; [by apply (IH _ (mkWdWorld (ww_execs w) tbl' (ww_ledger w)))|].
  intros [g2 w2] (H1 & H2 & H3 & H4 & H5). split_and!; try done. cbn [snd fst ww_tasks] in *.
  rewrite (UpdateStatus_rows _ _ _ _ _ E) in H5.
  eapply (Forall2_chain (fun a b => b = if ID a =?? ID t
    then (a <| Status := TaskStatusCancelled |> <| UpdatedAt := wd_now d |>) else a));
    [|by apply Forall2_map_self|exact H5].
  intros a b c -> Hbc. unfold approval_outcome in Hbc. cbn [app].
  rewrite (bool_decide_ext _ (ID a = ID t \/ ID a ∈ map ID (filter (fun t => old_approval cutoff t = true) l)))
    by apply elem_of_cons.
  destruct (decide (ID a = ID t)) as [Ea|Ea].
  - rewrite (bool_decide_true (ID a = ID t)) in Hbc by done. rewrite bool_decide_true by (by left).
    case_bool_decide; [|by exists (wd_now d)]. destruct Hbc as (at_ & ->). by exists at_.
  - rewrite (bool_decide_false (ID a = ID t)) in Hbc by done.
    rewrite (bool_decide_ext _ (ID a ∈ map ID (filter (fun t => old_approval cutoff t = true) l)))
      by naive_solver. done.
Qed.

(** ** The whole scan *)

Definition running_page (execs : ExecTable) : list ExecRow :=
  map scanExecution (take 500 (latest_first (select_execs (fun x => x_Status x =?? ExecutionStatusRunning) execs))).

(** The rows the loop fails. *)
Definition stuck_page (now : time) (seen : gmap string time) (execs : ExecTable) : list ExecRow :=
  filter (fun x => stuck now seen x = true) (running_page execs).

(** A paused execution whose task has ended, perhaps because the scan failed it. *)
Definition orphaned (l : list ExecRow) (tasks : Table) (x : ExecRow) : bool :=
  (x_Status x =?? ExecutionStatusPaused) &&
  existsb (fun t => (ID t =?? x_TaskID x) &&
    (bool_decide (Status t ∈ TaskStatusClosed :: ended_statuses) || taken l t)) tasks.

Definition exec_final (now : time) (l : list ExecRow) (tasks : Table) (x x' : ExecRow) : Prop :=
  if orphaned l tasks x
  then exists at_, x' = superseded at_ "superseded_orphan_paused"
                          "orphan PAUSED execution finalized: parent task already terminal" x
  else exec_outcome now l x x'.

Definition awaiting (t : Task) : bool := Status t =?? TaskStatusAwaitingApproval.

(** A task that the stuck executions do not take along is cancelled if its approval is
    older than the timeout; some of them may be left when they exceed a page. *)
Definition task_final (now cutoff : time) (l : list ExecRow) (tasks : Table) (t t' : Task) : Prop :=
  if taken l t then task_outcome now l t t'
  else if (0 <? wc_ApprovalTimeout cfg) && awaiting t && old_approval cutoff t
  then (exists at_, t' = t <| Status := TaskStatusCancelled |> <| UpdatedAt := at_ |>) \/
       (500 < count_if awaiting tasks)%nat /\ t' = t
  else t' = t.

Lemma running_page_ids execs : NoDup (map x_ID execs) -> NoDup (map x_ID (running_page execs)).
Proof.
  intros H. unfold running_page. rewrite map_map. change (fun x => x_ID (scanExecution x)) with x_ID.
  eapply sublist_NoDup; [|apply (fmap_sublist x_ID), sublist_take]. unfold latest_first.
  change (NoDup (x_ID <$> order_by (fun x => [- x_CreatedAt x])
    (select_execs (fun x => x_Status x =?? ExecutionStatusRunning) execs))).
  rewrite order_by_perm. eapply sublist_NoDup; [exact H|]. apply (fmap_sublist x_ID), sublist_filter.
Qed.

Lemma stuck_page_running now seen execs x :
  NoDup (map x_ID execs) -> x ∈ execs -> x_ID x ∈ map x_ID (stuck_page now seen execs) ->
  x_Status x = ExecutionStatusRunning.
Proof.
  intros Hnd Hx (y & E & [_ Hy]%list_elem_of_filter)%list_elem_of_fmap.
  apply list_elem_of_fmap in Hy as (z & -> & Hz). change (x_ID (scanExecution z)) with (x_ID z) in E.
  apply (sublist_elem_of' _ _ _ (sublist_take _ _)), elem_of_order_by in Hz.
  apply list_elem_of_filter in Hz as [Hz Hin]. apply bool_decide_eq_true in Hz.
  assert (x = z) as ->; [|done]. apply list_elem_of_lookup in Hx as [i Hi], Hin as [j Hj].
  assert (i = j) as ->; [|congruence].
  eapply (NoDup_lookup (map x_ID execs)); [done|..]; rewrite list_lookup_fmap; [by rewrite Hi|by rewrite Hj, E].
Qed.

(** The orphan statement sees the tasks that the loop has left. *)
Lemma orphan_paused_after now l tasks tasks1 x :
  Forall2 (task_outcome now l) tasks tasks1 -> orphan_paused tasks1 x = orphaned l tasks x.
Proof.
  intros H. unfold orphan_paused, orphaned. f_equal.
  induction H as [|t t1 tasks tasks1 Ht _ IH]; [done|]. cbn [existsb]. rewrite IH. f_equal.
  unfold task_outcome in Ht. destruct (taken l t).
  - destruct Ht as (at_ & y & _ & _ & ->). cbn [updated_row ID Status]. by rewrite orb_true_r.
  - subst t1. rewrite orb_false_r. f_equal. apply bool_decide_ext. unfold ended_statuses. set_solver.
Qed.

Lemma exec_final_of now seen execs execs1 execs2 tasks tasks1 at_ :
  NoDup (map x_ID execs) ->
  let l := stuck_page now seen execs in
  Forall2 (exec_outcome now l) execs execs1 -> Forall2 (task_outcome now l) tasks tasks1 ->
  execs2 = (SupersedeOrphanPausedExecutions at_ tasks1 execs1).2 ->
  Forall2 (exec_final now l tasks) execs execs2.
Proof.
  intros Hnd l He Ht ->. unfold SupersedeOrphanPausedExecutions. cbn [snd].
  pose proof (stuck_page_running now seen execs) as Hrun. fold l in Hrun.
  assert (Hin : forall x, x ∈ execs -> x_ID x ∈ map x_ID l -> x_Status x = ExecutionStatusRunning) by eauto.
  clear Hrun Hnd. clearbody l.
  induction He as [|x x1 execs execs1 Hx _ IH]; [constructor|]. cbn [update_execs map]. constructor.
  2: { apply IH. intros y Hy. apply Hin. by right. }
  specialize (Hin x ltac:(by left)). rewrite (orphan_paused_after now l tasks) by done.
  unfold exec_final. unfold exec_outcome in *. case_bool_decide as Ei.
  - destruct Hx as (a & y & Hy & Ey & ->). unfold orphaned. rewrite Hin by done.
    rewrite !(bool_decide_false (_ = ExecutionStatusPaused)) by done. cbn [andb]. eauto.
  - subst x1. destruct (orphaned l tasks x); eauto.
Qed.

(** The page of approvals. *)
Lemma approval_page tasks :
  exists l, List approval_filter tasks = Ok l /\ (length l <= 500)%nat /\
    (forall u, u ∈ l -> exists t, t ∈ tasks /\ awaiting t = true /\ u = scanTask t) /\
    ((count_if awaiting tasks <= 500)%nat ->
     forall t, t ∈ tasks -> awaiting t = true -> scanTask t ∈ l).
Proof.
  assert (E : select_rows (fun t => filter_where approval_filter t &&
      opt_filter (flt_UpdatedBefore approval_filter) (fun u => UpdatedAt t <? ts_in u)) tasks =
    filter (fun t => awaiting t = true) tasks).
  { apply filter_same. intros t _. unfold filter_where, awaiting. cbn. by rewrite andb_true_r. }
  eexists. split; [reflexivity|]. rewrite E. clear E. unfold limit_offset. cbn [approval_filter flt_Offset flt_PageSize].
  change (0 <? 0) with false. change (0 <? scan_page) with true. cbv iota.
  change (Z.to_nat scan_page) with 500%nat. split_and!.
  - rewrite length_map. apply firstn_le_length.
  - intros u (t & -> & Ht)%list_elem_of_fmap. exists t.
    apply (sublist_elem_of' _ _ _ (sublist_take _ _)), elem_of_order_by in Ht.
    by apply list_elem_of_filter in Ht as [? ?].
  - intros Hn t Ht Ha. apply list_elem_of_fmap_2. rewrite take_ge.
    + apply elem_of_order_by, list_elem_of_filter. done.
    + by rewrite (Permutation_length (order_by_perm _ _)).
Qed.

Lemma Forall2_in_l {A} (R : A -> A -> Prop) (l k : list A) : Forall2 R l k -> Forall2 (fun a b => a ∈ l /\ R a b) l k.
Proof.
  intros H. assert (G : forall m : list A, (forall a, a ∈ l -> a ∈ m) -> Forall2 (fun a b => a ∈ m /\ R a b) l k).
  { induction H as [|a b l k Hab _ IH]; intros m Hm; constructor; [split; [apply Hm; left|done]|].
    apply IH. intros x Hx. apply Hm. by right. }
  by apply G.
Qed.

Lemma taken_status now l t t' : taken l t = true -> task_outcome now l t t' ->
  Status t' = TaskStatusFailed /\ ID t' = ID t.
Proof. intros Ht. unfold task_outcome. rewrite Ht. by intros (a & y & _ & _ & ->). Qed.

Lemma awaiting_after now l tasks tasks1 :
  Forall2 (task_outcome now l) tasks tasks1 -> (count_if awaiting tasks1 <= count_if awaiting tasks)%nat.
Proof.
  induction 1 as [|t t1 tasks tasks1 Ht _ IH]; [done|]. rewrite !count_if_cons.
  destruct (taken l t) eqn:E.
  - destruct (taken_status _ _ _ _ E Ht) as [Es _]. 
    assert (awaiting t1 = false) as -> by (unfold awaiting; by rewrite Es). lia.
  - unfold task_outcome in Ht. rewrite E in Ht. subst t1. lia.
Qed.

Lemma task_final_of now cutoff l l2 tasks tasks1 tasks2 :
  table_ok tasks1 -> 0 < wc_ApprovalTimeout cfg -> List approval_filter tasks1 = Ok l2 ->
  Forall2 (task_outcome now l) tasks tasks1 -> Forall2 (approval_outcome cutoff l2) tasks1 tasks2 ->
  Forall2 (task_final now cutoff l tasks) tasks tasks2.
Proof.
  intros Hok Hto El H1 H2. destruct (approval_page tasks1) as (l' & El' & _ & Hsub & Hall).
  rewrite El in El'. injection El' as <-. pose proof (awaiting_after _ _ _ _ H1) as Hn.
  eapply Forall2_chain; [|exact H1|exact (Forall2_in_l _ _ _ H2)].
  intros t t1 t2 Ht [Hin Ha]. unfold task_final.
  assert (Hpage : ID t1 ∈ map ID (filter (fun t => old_approval cutoff t = true) l2) ->
    awaiting t1 = true /\ old_approval cutoff t1 = true).
  { intros (u & Eu & [Ho Hu]%list_elem_of_filter)%list_elem_of_fmap.
    destruct (Hsub u Hu) as (u0 & Hu0 & Hw & ->).
    by rewrite (same_task tasks1 t1 u0 Hok Hin Hu0 Eu). }
  unfold approval_outcome in Ha. destruct (taken l t) eqn:E.
  - destruct (taken_status _ _ _ _ E Ht) as [Es _]. rewrite bool_decide_false in Ha; [by subst t2|].
    intros [Hw _]%Hpage. unfold awaiting in Hw. by rewrite Es in Hw.
  - unfold task_outcome in Ht. rewrite E in Ht. subst t1. apply Z.ltb_lt in Hto. rewrite Hto. cbn [andb].
    case_bool_decide as Ei.
    + destruct (Hpage Ei) as [-> ->]. by left.
    + subst t2. destruct (awaiting t && old_approval cutoff t) eqn:Eo; [|done]. right. split; [|done].
      apply andb_true_iff in Eo as [Hw Ho]. apply Nat.nle_gt. intros Hc. apply Ei.
      apply list_elem_of_fmap. exists (scanTask t). split; [done|]. apply list_elem_of_filter.
      split; [exact Ho|]. apply Hall; [lia|done|done].
Qed.

(** What a scan has done between two times. *)
Record scanned (g : Watchdog) (w : WdWorld) (now cutoff at_ : time) (w' : WdWorld) : Prop := {
  sc_now : lo <= now <= hi;
  sc_cutoff : lo <= cutoff + wc_ApprovalTimeout cfg <= hi;
  sc_at : lo <= at_ <= hi;
  sc_execs : Forall2 (exec_final now (stuck_page now (wg_seen g) (ww_execs w)) (ww_tasks w))
               (ww_execs w) (ww_execs w');
  sc_tasks : Forall2 (task_final now cutoff (stuck_page now (wg_seen g) (ww_execs w)) (ww_tasks w))
               (ww_tasks w) (ww_tasks w');
  sc_ledger : ww_ledger w' =
    if wc_sweeper cfg
    then (settle_where at_ (fun r => (br_ReservedAt r <? ts_in (at_ - stale_after cfg)) ||
            existsb (fun t => (ID t =?? br_TaskID r) && bool_decide (Status t ∈ terminalTaskStatuses))
              (ww_tasks w')) (ww_ledger w)).2
    else ww_ledger w
}.

(** The turn that settles reservations. *)
Lemma settle_reaches g w :
  wg_pc g = WdSettle ->
  reaches 1 (g, w) (fun s' => wg_pc s'.1 = WdIdle /\ exists at_, lo <= at_ <= hi /\
    ww_execs s'.2 = ww_execs w /\ ww_tasks s'.2 = ww_tasks w /\
    ww_ledger s'.2 = if wc_sweeper cfg
      then (settle_where at_ (fun r => (br_ReservedAt r <? ts_in (at_ - stale_after cfg)) ||
            existsb (fun t => (ID t =?? br_TaskID r) && bool_decide (Status t ∈ terminalTaskStatuses))
              (ww_tasks w)) (ww_ledger w)).2
      else ww_ledger w).
Proof.
  intros Hpc. apply reaches_step. intros d [Hd Hn]. apply reaches_now. unfold wd_turn. cbn [fst snd].
  rewrite Hpc, Hd. split; [done|]. exists (wd_now d). split; [done|].
  destruct (wc_sweeper cfg); [|done]. unfold SweepTerminalAndStale, query. cbn [attempt refused mapDB].
  by destruct (wd_now d =? zeroTime).
Qed.

(** The orphans, and the approvals if they expire. *)
Lemma sweeps_reach now l tasks g w :
  wc_taskRepo cfg = true -> wg_pc g = WdOrphans -> table_ok (ww_tasks w) ->
  Forall2 (task_outcome now l) tasks (ww_tasks w) ->
  reaches 502 (g, w) (fun s' => wg_pc s'.1 = WdSettle /\ ww_ledger s'.2 = ww_ledger w /\
    (exists at_, ww_execs s'.2 = (SupersedeOrphanPausedExecutions at_ (ww_tasks w) (ww_execs w)).2) /\
    exists cutoff, lo <= cutoff + wc_ApprovalTimeout cfg <= hi /\
      Forall2 (task_final now cutoff l tasks) tasks (ww_tasks s'.2)).
Proof.
  intros Hr Hpc Hok Ht. apply reaches_step. intros d [Hd Hn]. unfold wd_turn. cbn [fst snd].
  rewrite Hpc, Hd, Hr. cbn [refused negb]. rewrite orb_false_r.
  destruct (Z.leb_spec (wc_ApprovalTimeout cfg) 0) as [Hto|Hto].
  { apply reaches_now. split_and!; [done|done|by eexists|]. exists (wd_now d - wc_ApprovalTimeout cfg).
    split; [lia|]. eapply Forall2_impl; [exact Ht|]. intros t t' Ho. unfold task_final.
    destruct (taken l t) eqn:E; [done|]. unfold task_outcome in Ho. rewrite E in Ho. subst t'.
    by destruct (Z.ltb_spec 0 (wc_ApprovalTimeout cfg)); [lia|]. }
  apply (reaches_step 500). intros d2 [Hd2 Hn2]. unfold wd_turn. cbn [fst snd go wg_pc]. rewrite Hd2.
  cbn [failed ww_tasks]. destruct (approval_page (ww_tasks w)) as (l2 & El & Hlen & _). rewrite El.
  eapply reaches_mono; [eapply (reaches_le (length l2)); [|done];
    apply (cancel_reaches (wd_now d2 - wc_ApprovalTimeout cfg) l2); done|].
  intros [g' w'] (H1 & _ & H3 & H4 & H5). split_and!; [done|done|by eexists|].
  exists (wd_now d2 - wc_ApprovalTimeout cfg). split; [lia|]. by eapply task_final_of.
Qed.

Lemma scan_reaches g w :
  wc_Action cfg = ActionFail -> wc_taskRepo cfg = true ->
  NoDup (map x_ID (ww_execs w)) -> well_typed (ww_tasks w) ->
  reaches 2505 (go WdList g, w) (fun s' => wg_pc s'.1 = WdIdle /\
    exists now cutoff at_, scanned g w now cutoff at_ s'.2).
Proof.
  intros Ha Hr Hnd Ht. apply (reaches_step 2504). intros d [Hd Hn]. unfold wd_turn. cbn [fst snd go wg_pc].
  rewrite Hd. cbn [failed].
  change (ListExecutions running_filter (ww_execs w)) with (Ok (E := RepoError) (running_page (ww_execs w))).
  set (now := wd_now d) in *. set (rows := running_page (ww_execs w)).
  assert (Hlen : (length rows <= 500)%nat).
  { unfold rows, running_page. rewrite length_map. apply firstn_le_length. }
  apply (reaches_le (4 * length rows + (1 + (502 + 1)))); [|lia].
  eapply reaches_then; [apply rows_reaches; [done|done|by apply running_page_ids|done|done]|].
  intros [g1 w1] (Hpc1 & _ & Ht1 & Hl1 & He1 & Htk1). cbn [fst snd go wg_seen] in *.
  change (filter _ rows) with (stuck_page now (wg_seen g) (ww_execs w)) in *.
  apply reaches_step. intros d1 _. unfold wd_turn. cbn [fst snd]. rewrite Hpc1.
  eapply reaches_then; [apply (sweeps_reach now (stuck_page now (wg_seen g) (ww_execs w)) (ww_tasks w));
    [done|done|apply Ht1|done]|].
  intros [g2 w2] (Hpc2 & Hl2 & (at1 & He2) & cutoff & Hcut & Htk2). cbn [fst snd] in *.
  eapply reaches_mono; [by apply settle_reaches|].
  intros [g3 w3] (Hpc3 & at_ & Hat & He3 & Htk3 & Hl3). cbn [fst snd] in *. split; [done|].
  exists now, cutoff, at_. split; [done|done|done| | |].
  - rewrite He3. by eapply exec_final_of.
  - by rewrite Htk3.
  - by rewrite Hl3, Hl2, Hl1, Htk3.
Qed.
End Scan.

(** C27: an undisturbed scan of the watchdog does exactly its job.  It ends within 2505
    turns.  With clocks between two times, for a clock of the scan between them: every
    execution it lists that is RUNNING, has no checkpoint within the threshold and is
    not silenced is FAILED as STUCK_EXECUTION; the task it names is FAILED with it
    unless it has ended; a PAUSED execution whose task has ended, that way or before,
    is CANCELLED; a task that has awaited its approval past the timeout is CANCELLED,
    all of them when they fit a page; the unsettled reservations that are stale or
    whose task has ended are settled; and no other row is changed. *)
Theorem scan_spec `{pg : Postgres} `{!PostgresStable pg} stuck_text cfg lo hi ds g w :
  Forall (calm lo hi) ds -> 2505 <= Z.of_nat (length ds) ->
  wc_Action cfg = ActionFail -> wc_taskRepo cfg = true ->
  NoDup (map x_ID (ww_execs w)) -> well_typed (ww_tasks w) ->
  exists g' w' now cutoff at_, scan stuck_text cfg ds (go WdList g, w) = (g', w') /\
    wg_pc g' = WdIdle /\ scanned stuck_text cfg lo hi g w now cutoff at_ w'.
Proof.
  intros Hc Hl Ha Hr Hnd Ht.
  destruct (scan_reaches stuck_text cfg lo hi g w Ha Hr Hnd Ht ds Hc ltac:(lia))
    as (k & _ & Hpc & now & cutoff & at_ & H).
  rewrite (scan_split _ _ k ds). destruct (scan stuck_text cfg (take k ds) (go WdList g, w)) as [g' w'].
  exists g', w', now, cutoff, at_. by rewrite scan_idle.
Qed.
