(* ===== verification/WatchdogRuns.v ===== *)
(** * Runs of the watchdogs

    Over every interleaving of scans, faults and other writers: an execution that
    checkpoints in time is left alone, and a stuck one is reported once.  Concrete
    runs show what the scan gets wrong. *)
From S2P Require Import Prelude TaskModel TaskRepo TaskRepoFacts TaskRepoSafety TaskRepoTypes ExecRepo Budget Watchdog WatchdogScan.
Open Scope string_scope.
Open Scope list_scope.
Open Scope Z_scope.

(** The rows that a scan still has to look at, and its clock. *)
Definition pending_rows (pc : WdPC) : list ExecRow :=
  match pc with
  | WdRows _ _ rest | WdFail _ _ _ rest | WdGet _ _ _ rest | WdUpdate _ _ _ _ rest => rest
  | _ => []
  end.

(** The row it is failing. *)
Definition in_hand (pc : WdPC) : option ExecRow :=
  match pc with
  | WdFail _ _ x _ | WdGet _ _ x _ | WdUpdate _ _ x _ _ => Some x
  | _ => None
  end.

Definition clock_of (pc : WdPC) : option time :=
  match pc with
  | WdRows now _ _ | WdFail now _ _ _ | WdGet now _ _ _ | WdUpdate now _ _ _ _ => Some now
  | _ => None
  end.

Definition page_of (pc : WdPC) : option (list string) :=
  match pc with
  | WdRows _ page _ | WdFail _ page _ _ | WdGet _ page _ _ | WdUpdate _ page _ _ _ => Some page
  | _ => None
  end.

Section Runs.
Context `{pg : Postgres} (stuck_text : duration -> time -> string) (cfg : WatchdogConfig).

Definition fresh_at (now : time) (x : ExecRow) : Prop := now - wc_StuckThreshold cfg <= x_UpdatedAt x.

(** A listing that takes place in a turn. *)
Definition lists (d : WdDraw) (g : Watchdog) : bool :=
  match wg_pc g with WdList => negb (failed (wd_fault d)) | _ => false end.

(** ** A healthy execution *)

(** Whenever a scan lists the running executions, [e] has a checkpoint within the
    threshold. *)
Fixpoint healthy (e : string) (evs : list WdEvent) (s : list Watchdog * WdWorld) : Prop :=
  match evs with
  | [] => True
  | ev :: evs =>
      match ev with
      | WvTurn i d => forall g, s.1 !! i = Some g -> lists d g = true ->
          forall x, x ∈ running_page (ww_execs s.2) -> x_ID x = e -> fresh_at (wd_now d) x
      | _ => True
      end /\ healthy e evs (wd_step stuck_text cfg ev s)
  end.

(** A scan that will not fail [e]. *)
Definition harmless (e : string) (pc : WdPC) : Prop :=
  (forall x, in_hand pc = Some x -> x_ID x <> e) /\
  forall now x, clock_of pc = Some now -> x ∈ pending_rows pc -> x_ID x = e -> fresh_at now x.

Lemma harmless_later e pc : in_hand pc = None -> pending_rows pc = [] -> harmless e pc.
Proof.
  intros Hh Hp. split; [by rewrite Hh|]. intros now x _. rewrite Hp. by intros ?%not_elem_of_nil.
Qed.

(** The next row, and the statements for a row in hand. *)
Lemma row_turn_harmless e now page x rest g :
  harmless e (WdRows now page (x :: rest)) -> harmless e (wg_pc (row_turn cfg now page x rest g)).
Proof.
  intros [_ Hp]. cbn [clock_of pending_rows] in Hp.
  assert (Hrest : forall x', x' ∈ rest -> x_ID x' = e -> fresh_at now x')
    by (intros x' Hx'; apply Hp; [done|by right]).
  assert (H : harmless e (WdRows now page rest)) by (split; [done|]; intros ? ? [= <-]; apply Hrest).
  unfold row_turn. destruct (x_UpdatedAt x <? now - wc_StuckThreshold cfg) eqn:Ef; cbn [negb]; [|done].
  destruct (hasSeen _ _ _); [done|]. destruct (wc_Action cfg =?? ActionFail); [|done].
  split; cbn; [|intros ? ? [= <-]; apply Hrest]. intros ? [= <-] Ei.
  specialize (Hp now x eq_refl ltac:(by left) Ei). unfold fresh_at in Hp. apply Z.ltb_lt in Ef. lia.
Qed.

Lemma wd_turn_harmless e d g w :
  (lists d g = true -> forall x, x ∈ running_page (ww_execs w) -> x_ID x = e -> fresh_at (wd_now d) x) ->
  harmless e (wg_pc g) -> harmless e (wg_pc (wd_turn stuck_text cfg d g w).1).
Proof.
  intros Hl Hg. unfold lists in Hl. unfold wd_turn. destruct (wg_pc g) as [| |now page rest|now page x rest
    |now page x rest|now page x t rest| | |cutoff rest|] eqn:E.
  - by cbn [fst]; rewrite E.
  - destruct (failed (wd_fault d)); [by apply harmless_later|].
    change (ListExecutions running_filter (ww_execs w)) with (Ok (E := RepoError) (running_page (ww_execs w))).
    split; cbn; [done|]. intros now x [= <-]. by apply Hl.
  - destruct rest as [|x rest]; [by apply harmless_later|]. by apply row_turn_harmless.
  - assert (H : harmless e (WdRows now page rest)) by (destruct Hg; by split).
    cbv zeta. destruct (_ || _); [exact H|]. by destruct (_ || _).
  - assert (H : harmless e (WdRows now page rest)) by (destruct Hg; by split).
    destruct (if failed _ then _ else _) as [t|]; [|exact H]. by destruct (bool_decide _).
  - assert (H : harmless e (WdRows now page rest)) by (destruct Hg; by split).
    cbv zeta. by destruct (_ || _).
  - apply harmless_later; cbn; by destruct (_ || _).
  - destruct (if failed _ then _ else _); [|by apply harmless_later].
    apply harmless_later; cbn; unfold next_approval; by destruct (filter _ _).
  - destruct rest; [by apply harmless_later|]. apply harmless_later; cbn; unfold next_approval;
      by destruct (filter _ _).
  - by apply harmless_later.
Qed.

Lemma wd_step_harmless e ev gs w gs' w' :
  healthy e [ev] (gs, w) -> Forall (fun g => harmless e (wg_pc g)) gs ->
  wd_step stuck_text cfg ev (gs, w) = (gs', w') -> Forall (fun g => harmless e (wg_pc g)) gs'.
Proof.
  intros [Hev _] H E. destruct ev as [|i leader|i d|tbl|tbl|l]; cbn [wd_step] in E; try by injection E as <- _.
  - injection E as <- _. apply Forall_app. split; [done|]. apply Forall_singleton.
    apply harmless_later; cbn; by destruct (wc_Enabled cfg).
  - destruct (gs !! i) as [g|] eqn:Ei; [|by injection E as <- _].
    destruct (wg_pc g); try by injection E as <- _.
    destruct (_ && _); [|by injection E as <- _]. injection E as <- _.
    apply Forall_insert; [done|by apply harmless_later].
  - destruct (gs !! i) as [g|] eqn:Ei; [|by injection E as <- _].
    destruct (wd_turn stuck_text cfg d g w) as [g1 w1] eqn:Et. injection E as <- _.
    apply Forall_insert; [done|]. change g1 with (g1, w1).1. rewrite <- Et.
    apply wd_turn_harmless; [by apply Hev|]. by eapply Forall_lookup_1 in H.
Qed.

(** What a turn does to a row that it does not fail. *)
Definition kept_or_orphan (tasks : Table) (x x' : ExecRow) : Prop :=
  x' = x \/ orphan_paused tasks x = true /\ x_Status x' = ExecutionStatusCancelled.

Lemma harmless_turn_keeps e d g w :
  harmless e (wg_pc g) ->
  Forall2 (fun x x' => x_ID x = e -> kept_or_orphan (ww_tasks w) x x')
    (ww_execs w) (ww_execs (wd_turn stuck_text cfg d g w).2).
Proof.
  intros [Hh _]. assert (Hsame : forall l : ExecTable,
    Forall2 (fun x x' => x_ID x = e -> kept_or_orphan (ww_tasks w) x x') l l).
  { intros l. apply Forall_Forall2_diag, Forall_forall. intros x _ _. by left. }
  unfold wd_turn. destruct (wg_pc g) as [| |now page rest|now page x rest
    |now page x rest|now page x t rest| | |cutoff rest|]; cbn [in_hand] in Hh.
  - done.
  - by destruct (if failed _ then _ else _).
  - by destruct rest.
  - assert (Hx : Forall2 (fun y y' => x_ID y = e -> kept_or_orphan (ww_tasks w) y y') (ww_execs w)
      (default (ww_execs w) (attempt (wd_fault d) (RecordFailure (wd_now d) (x_ID x)
         (stuck_message stuck_text now x) TaskFailureClassStuckExecution (ww_execs w))))).
    { unfold attempt. destruct (refused _); [apply Hsame|]. cbn [default RecordFailure].
      apply Forall2_map_self. intros y _ Ey. left. unfold by_id.
      rewrite bool_decide_false; [done|]. rewrite Ey. intros ->. by apply (Hh x). }
    cbv zeta. destruct (_ || _); [exact Hx|]. by destruct (_ || _).
  - destruct (if failed _ then _ else _) as [t|]; [|apply Hsame]. by destruct (bool_decide _).
  - cbv zeta. by destruct (_ || _).
  - cbn [snd]. destruct (refused _); [apply Hsame|]. apply Forall2_map_self. intros y _ _.
    destruct (orphan_paused (ww_tasks w) y) eqn:Ey; [by right|by left].
  - by destruct (if failed _ then _ else _).
  - by destruct rest.
  - cbn [snd]. destruct (wc_sweeper cfg); [|apply Hsame]. by destruct (attempt _ _).
Qed.
End Runs.

(** C22: an execution that checkpoints in time is never failed.  Over every interleaving
    of the scans of any number of daemons, with faults, overlapping scans and any
    writes of others: if [e] has a checkpoint within the threshold whenever a scan
    lists the running executions, then no turn of any watchdog writes its row, except
    that a PAUSED execution of a task that has ended is cancelled. *)
Theorem healthy_execution_untouched `{pg : Postgres} stuck_text cfg e evs i d w :
  healthy stuck_text cfg e (evs ++ [WvTurn i d]) ([], w) ->
  let s := wd_run stuck_text cfg evs ([], w) in
  Forall2 (fun x x' => x_ID x = e -> kept_or_orphan (ww_tasks s.2) x x')
    (ww_execs s.2) (ww_execs (wd_step stuck_text cfg (WvTurn i d) s).2).
Proof.
  intros Hh. cut (forall gs w, healthy stuck_text cfg e (evs ++ [WvTurn i d]) (gs, w) ->
    Forall (fun g => harmless cfg e (wg_pc g)) gs ->
    let s := wd_run stuck_text cfg evs (gs, w) in
    Forall2 (fun x x' => x_ID x = e -> kept_or_orphan (ww_tasks s.2) x x')
      (ww_execs s.2) (ww_execs (wd_step stuck_text cfg (WvTurn i d) s).2)).
  { intros H. by apply H. }
  clear w Hh. induction evs as [|ev evs IH]; intros gs w Hh Hg.
  - cbn. destruct (gs !! i) as [g|] eqn:Ei.
    + pose proof (harmless_turn_keeps stuck_text cfg e d g w (Forall_lookup_1 _ _ _ _ Hg Ei)) as H.
      by destruct (wd_turn stuck_text cfg d g w).
    + apply Forall_Forall2_diag, Forall_forall. intros x _ _. by left.
  - destruct Hh as [Hev Hh].
    change (wd_run stuck_text cfg (ev :: evs) (gs, w)) with (wd_run stuck_text cfg evs (wd_step stuck_text cfg ev (gs, w))).
    destruct (wd_step stuck_text cfg ev (gs, w)) as [gs' w'] eqn:E. apply IH; [done|].
    eapply wd_step_harmless; [split; [exact Hev|done]|exact Hg|exact E].
Qed.

(** ** Once per checkpoint *)

Section Once.
Context `{pg : Postgres} (stuck_text : duration -> time -> string) (cfg : WatchdogConfig).
Context (i : nat) (e : string) (u : time).

(** Whenever daemon [i] lists the running executions, [e] is on the page with the
    checkpoint [u], and the clocks of its scans do not go back. *)
Fixpoint stays (c : time) (evs : list WdEvent) (s : list Watchdog * WdWorld) : Prop :=
  match evs with
  | [] => True
  | ev :: evs =>
      let s' := wd_step stuck_text cfg ev s in
      match ev with
      | WvTurn j d =>
          if bool_decide (j = i) && match s.1 !! i with Some g => lists d g | None => false end
          then c <= wd_now d /\ e ∈ map x_ID (running_page (ww_execs s.2)) /\
               (forall x, x ∈ running_page (ww_execs s.2) -> x_ID x = e -> x_UpdatedAt x = u) /\
               stays (wd_now d) evs s'
          else stays c evs s'
      | _ => stays c evs s'
      end
  end.

Definition tally (g : Watchdog) : nat := count_if (fun r => bool_decide (r = (e, u))) (wg_detected g).

(** Not reported, or reported once and silenced. *)
Definition settled (c : time) (g : Watchdog) : Prop :=
  tally g = 0%nat \/
  (tally g = 1%nat /\ wg_seen g !! e = Some u /\ u < c - wc_StuckThreshold cfg).

Record once (c : time) (g : Watchdog) : Prop := {
  on_clock : forall now, clock_of (wg_pc g) = Some now -> now = c;
  on_page : forall page, page_of (wg_pc g) = Some page -> e ∈ page;
  on_rows : forall x, x ∈ pending_rows (wg_pc g) -> x_ID x = e -> x_UpdatedAt x = u;
  on_hand : forall x, in_hand (wg_pc g) = Some x -> x_ID x = e ->
    x_UpdatedAt x = u /\ tally g = 0%nat /\ u < c - wc_StuckThreshold cfg;
  on_settled : (forall x, in_hand (wg_pc g) = Some x -> x_ID x <> e) -> settled c g
}.

Lemma once_tally c g : once c g -> (tally g <= 1)%nat.
Proof.
  intros H. destruct (in_hand (wg_pc g)) as [x|] eqn:Ex.
  - destruct (decide (x_ID x = e)) as [E|E]; [by destruct (on_hand _ _ H x Ex E) as (_ & -> & _); lia|].
    destruct (on_settled _ _ H) as [?|[? _]]; [|lia..]. intros y [= ->]%(eq_trans (eq_sym Ex)). done.
  - destruct (on_settled _ _ H) as [?|[? _]]; [|lia..]. by rewrite Ex.
Qed.

Lemma once_intro c g :
  in_hand (wg_pc g) = None -> clock_of (wg_pc g) = None -> page_of (wg_pc g) = None ->
  pending_rows (wg_pc g) = [] -> settled c g -> once c g.
Proof.
  intros H1 H2 H3 H4 H5. split; [by rewrite H2|by rewrite H3|rewrite H4; by intros x ?%not_elem_of_nil|by rewrite H1|done].
Qed.

Lemma settled_same c g g' :
  wg_seen g' !! e = wg_seen g !! e -> wg_detected g' = wg_detected g -> settled c g -> settled c g'.
Proof. unfold settled, tally. by intros -> ->. Qed.

(** The report of another row, or of this one. *)
Lemma report_settled c x g :
  (x_ID x <> e /\ settled c g) \/
  (x_ID x = e /\ x_UpdatedAt x = u /\ tally g = 0%nat /\ u < c - wc_StuckThreshold cfg) ->
  settled c (report x g).
Proof.
  assert (Ht : tally (report x g) =
    (tally g + if bool_decide ((x_ID x, x_UpdatedAt x) = (e, u)) then 1 else 0)%nat).
  { unfold tally. change (wg_detected (report x g)) with (wg_detected g ++ [(x_ID x, x_UpdatedAt x)]).
    rewrite count_if_app, count_if_cons, count_if_nil. lia. }
  unfold settled. rewrite Ht. change (wg_seen (report x g)) with (<[x_ID x := x_UpdatedAt x]> (wg_seen g)).
  intros [[Hx H]|(Hx & Hu & Hn & Hc)].
  - rewrite bool_decide_false by congruence. rewrite lookup_insert_ne by done. by rewrite !Nat.add_0_r.
  - right. rewrite bool_decide_true by congruence. rewrite Hx, Hu, lookup_insert_eq. split; [lia|done].
Qed.

(** Back to the loop. *)
Lemma once_rows c page rest g :
  e ∈ page -> (forall x, x ∈ rest -> x_ID x = e -> x_UpdatedAt x = u) -> settled c g ->
  once c (go (WdRows c page rest) g).
Proof. intros Hp Hr Hs. split; cbn; [by intros ? [= <-]|by intros ? [= <-]|done|done|by intros _]. Qed.

Lemma row_turn_once c page x rest g :
  once c g -> wg_pc g = WdRows c page (x :: rest) -> once c (row_turn cfg c page x rest g).
Proof.
  intros [_ Hp Hr _ Hs] E. rewrite E in *. cbn in *. specialize (Hp page eq_refl).
  specialize (Hs ltac:(done)). pose proof (Hr x ltac:(by left)) as Hx.
  assert (Hrest : forall y, y ∈ rest -> x_ID y = e -> x_UpdatedAt y = u) by (intros y Hy; apply Hr; by right).
  unfold row_turn. destruct (x_UpdatedAt x <? c - wc_StuckThreshold cfg) eqn:Ef; cbn [negb].
  2: { apply once_rows; [done|done|]. destruct (decide (x_ID x = e)) as [Ei|Ei].
       - left. apply Z.ltb_ge in Ef. rewrite (Hx Ei) in Ef. destruct Hs as [?|(_ & _ & ?)]; [done|lia].
       - apply (settled_same c g); [|done|exact Hs]. cbn. by apply lookup_delete_ne. }
  unfold hasSeen. case_bool_decide as Hseen; [by apply once_rows|].
  assert (Hn : x_ID x = e -> x_UpdatedAt x = u /\ tally g = 0%nat /\ u < c - wc_StuckThreshold cfg).
  { intros Ei. apply Z.ltb_lt in Ef. rewrite (Hx Ei) in *. split; [done|]. split; [|done].
    destruct Hs as [?|(_ & ? & _)]; [done|]. by rewrite Ei in Hseen. }
  destruct (wc_Action cfg =?? ActionFail).
  - split; cbn; [by intros ? [= <-]|by intros ? [= <-]|done|by intros ? [= <-]|by intros _].
  - apply once_rows; [done|done|]. apply report_settled. destruct (decide (x_ID x = e)) as [Ei|Ei]; naive_solver.
Qed.

(** The row in hand is reported, or dropped. *)
Lemma once_reported c page x rest g :
  once c g -> in_hand (wg_pc g) = Some x -> clock_of (wg_pc g) = Some c ->
  page_of (wg_pc g) = Some page -> pending_rows (wg_pc g) = rest ->
  once c (go (WdRows c page rest) (report_failed x g)) /\ once c (go (WdRows c page rest) g).
Proof.
  intros [_ Hp Hr Hh Hs] E1 E2 E3 E4. rewrite E1, E4 in *. specialize (Hp page E3). specialize (Hh x eq_refl).
  assert (Hd : x_ID x <> e -> settled c g) by (intros Hx; apply Hs; by intros ? [= <-]).
  split; apply once_rows; try done.
  - apply (settled_same c (report x g)); [done|done|]. apply report_settled.
    destruct (decide (x_ID x = e)) as [Ei|Ei]; [right|left]; naive_solver.
  - destruct (decide (x_ID x = e)) as [Ei|Ei]; [|by apply Hd]. left. by apply Hh.
Qed.

(** From one statement for the row in hand to the next. *)
Lemma once_next c g pc :
  once c g -> in_hand pc = in_hand (wg_pc g) -> clock_of pc = clock_of (wg_pc g) ->
  page_of pc = page_of (wg_pc g) -> pending_rows pc = pending_rows (wg_pc g) -> once c (go pc g).
Proof.
  intros [H1 H2 H3 H4 H5] E1 E2 E3 E4.
  split; cbn [go wg_pc]; rewrite ?E1, ?E2, ?E3, ?E4; done.
Qed.

Lemma settled_later c c' g : c <= c' -> settled c g -> settled c' g.
Proof. intros Hc [?|(? & ? & ?)]; [by left|right; split_and!; [done|done|lia]]. Qed.

Lemma wd_turn_once c d g w :
  once c g -> lists d g = false -> once c (wd_turn stuck_text cfg d g w).1.
Proof.
  intros H Hl. pose proof (on_clock _ _ H) as Hc. pose proof (on_settled _ _ H) as Hs.
  unfold lists in Hl. unfold wd_turn. destruct (wg_pc g) as [| |now page rest|now page x rest
    |now page x rest|now page x t rest| | |cutoff rest|] eqn:E; cbn [clock_of in_hand] in Hc, Hs;
    try (specialize (Hc now eq_refl); subst now); try specialize (Hs ltac:(done)).
  - exact H.
  - apply negb_false_iff in Hl. rewrite Hl. by apply once_intro.
  - destruct rest as [|x rest]; [|by apply row_turn_once]. cbn [fst]. apply once_intro; try done.
    destruct Hs as [?|(? & Hse & ?)]; [by left|right; split_and!; [done| |done]]. cbn.
    rewrite map_lookup_filter, Hse. cbn. by rewrite option_guard_True by (apply (on_page _ _ H); by rewrite E).
  - destruct (once_reported c page x rest g H) as [Ha Hb]; [by rewrite E..|]. cbv zeta.
    destruct (_ || _); [exact Hb|]. destruct (_ || _); [exact Ha|]. apply once_next; by rewrite ?E.
  - destruct (once_reported c page x rest g H) as [Ha Hb]; [by rewrite E..|].
    destruct (if failed _ then _ else _) as [t|]; [|exact Hb]. destruct (bool_decide _); [exact Ha|].
    apply once_next; by rewrite ?E.
  - destruct (once_reported c page x rest g H) as [Ha Hb]; [by rewrite E..|]. cbv zeta.
    by destruct (_ || _).
  - apply once_intro; try done; cbn; by destruct (_ || _).
  - destruct (if failed _ then _ else _); [|by apply once_intro].
    apply once_intro; try done; cbn; unfold next_approval; by destruct (filter _ _).
  - destruct rest; [by apply once_intro|]. apply once_intro; try done; cbn; unfold next_approval;
      by destruct (filter _ _).
  - by apply once_intro.
Qed.

(** The listing starts the loop with a new clock. *)
Lemma list_once c d g w :
  once c g -> lists d g = true -> c <= wd_now d -> e ∈ map x_ID (running_page (ww_execs w)) ->
  (forall x, x ∈ running_page (ww_execs w) -> x_ID x = e -> x_UpdatedAt x = u) ->
  once (wd_now d) (wd_turn stuck_text cfg d g w).1.
Proof.
  intros H Hl Hc He Hu. pose proof (on_settled _ _ H) as Hs. unfold lists in Hl. unfold wd_turn.
  destruct (wg_pc g) eqn:E; try done. apply negb_true_iff in Hl. rewrite Hl.
  change (ListExecutions running_filter (ww_execs w)) with (Ok (E := RepoError) (running_page (ww_execs w))).
  apply once_rows; [done|done|]. eapply settled_later; [exact Hc|]. by apply Hs.
Qed.

Lemma wd_run_once evs : forall c gs w g,
  stays c evs (gs, w) -> gs !! i = Some g -> once c g ->
  exists c' g', (wd_run stuck_text cfg evs (gs, w)).1 !! i = Some g' /\ once c' g'.
Proof.
  induction evs as [|ev evs IH]; intros c gs w g Hs Hi Ho; [by exists c, g|].
  change (wd_run stuck_text cfg (ev :: evs) (gs, w)) with (wd_run stuck_text cfg evs (wd_step stuck_text cfg ev (gs, w))).
  cbn [stays] in Hs. destruct ev as [|j leader|j d|tbl|tbl|l]; cbn [wd_step] in *; try by eapply IH.
  - eapply IH; [exact Hs| |exact Ho]. by apply lookup_app_l_Some.
  - destruct (gs !! j) as [gj|] eqn:Ej; [|by eapply IH].
    destruct (wg_pc gj) eqn:E; try by eapply IH. destruct (wc_Enabled cfg && leader); [|by eapply IH].
    destruct (decide (j = i)) as [->|Hn].
    + assert (gj = g) as -> by congruence. eapply IH; [exact Hs|by apply list_lookup_insert_eq, (lookup_lt_Some _ _ _ Hi)|].
      apply once_intro; try done. apply (settled_same c g); try done. apply (on_settled _ _ Ho). by rewrite E.
    + eapply IH; [exact Hs| |exact Ho]. by rewrite list_lookup_insert_ne.
  - destruct (decide (j = i)) as [->|Hn].
    + rewrite bool_decide_true in Hs by done. cbn [fst snd andb] in Hs. rewrite Hi in *.
      destruct (wd_turn stuck_text cfg d g w) as [g1 w1] eqn:Et.
      assert (E1 : g1 = (wd_turn stuck_text cfg d g w).1) by (by rewrite Et).
      pose proof (list_lookup_insert_eq gs i g1 (lookup_lt_Some _ _ _ Hi)) as Hi1.
      destruct (lists d g) eqn:El.
      * destruct Hs as (Hc & He & Hu & Hs). eapply IH; [exact Hs|exact Hi1|]. rewrite E1. by eapply list_once.
      * eapply IH; [exact Hs|exact Hi1|]. rewrite E1. by apply wd_turn_once.
    + rewrite bool_decide_false in Hs by done. cbn [andb] in Hs.
      destruct (gs !! j) as [gj|] eqn:Ej; [|by eapply IH].
      destruct (wd_turn stuck_text cfg d gj w) as [g1 w1].
      eapply IH; [exact Hs| |exact Ho]. by rewrite list_lookup_insert_ne.
Qed.
End Once.

(** A stuck execution is reported once for each checkpoint.  Over every
    interleaving, with either action: as long as [e] is on the page of running
    executions, with the checkpoint [u], whenever daemon [i] lists them, and the clocks
    of its scans do not go back, the daemon reports [e] at [u] at most once, however
    many scans pass. *)
Theorem stuck_reported_once `{pg : Postgres} stuck_text cfg i e u c evs gs w :
  gs !! i = Some (go WdList fresh_watchdog) -> stays stuck_text cfg i e u c evs (gs, w) ->
  exists g, (wd_run stuck_text cfg evs (gs, w)).1 !! i = Some g /\
    (count_if (fun r => bool_decide (r = (e, u))) (wg_detected g) <= 1)%nat.
Proof.
  intros Hi Hs. destruct (wd_run_once stuck_text cfg i e u evs c gs w _ Hs Hi) as (c' & g & Eg & Ho).
  - apply once_intro; try done. by left.
  - exists g. split; [done|]. by eapply once_tally.
Qed.
