(* ===== verification/WatchdogScenarios.v ===== *)
(** * Concrete runs of the watchdog

    The theorems of [WatchdogScan] and [WatchdogRuns] at work on a small system, and
    runs in which the scan does harm. *)
From S2P Require Import Prelude TaskModel TaskRepo TaskRepoFacts TaskRepoTypes ExecRepo Registry Budget Watchdog WatchdogScan WatchdogRuns.
Open Scope string_scope.
Open Scope list_scope.
Open Scope Z_scope.

#[local] Existing Instance pg_example.

Definition stuck_text_example (age : duration) (at_ : time) : string := "stuck".

Definition watchdog_example : WatchdogConfig :=
  new_watchdog (mkWatchdogConfig true 0 0 ActionFail (96 * Hour) 0 true true).

Definition running_example (id task : string) (updated : time) : ExecRow := {|
  x_ID := id; x_TaskID := task; x_ProjectID := "p"; x_WorkflowID := "w"; x_WorkflowRevision := "v1";
  x_WorkflowSnapshot := None; x_Status := ExecutionStatusRunning; x_CurrentStepID := None;
  x_CompletedSteps := []; x_StateSnapshot := None; x_Result := None; x_ErrorMessage := None;
  x_ErrorCode := None; x_StartedAt := None; x_CompletedAt := None; x_CreatedAt := updated;
  x_UpdatedAt := updated; x_ParentExecutionID := None; x_ForkedFromStepID := None;
  x_ForkedPromptOverride := None |}.

Definition with_status (s : ExecutionStatus) (x : ExecRow) : ExecRow := x <| x_Status := s |>.

(** A stuck task with a paused execution besides, a healthy one, one that has awaited
    its approval for 100 hours; a leaked reservation, a live one, one of the stuck
    task. *)
Definition noon : time := 101 * Hour.

Definition wd_world_example : WdWorld := mkWdWorld
  [running_example "x1" "t1" (noon - Hour); running_example "x2" "t2" (noon - Minute);
   with_status ExecutionStatusPaused (running_example "x3" "t1" Hour)]
  [task_example "t1" "p" TaskStatusRunning 50 1 [] None; task_example "t2" "p" TaskStatusRunning 50 2 [] None;
   (task_example "t4" "p" TaskStatusAwaitingApproval 50 3 [] None) <| UpdatedAt := Hour |>]
  [mkReservation "r1" "p" "gone" f64_zero Hour None; mkReservation "r2" "p" "t2" f64_zero (noon - Hour) None;
   mkReservation "r3" "p" "t1" f64_zero (noon - Hour) None].

Definition calm_at (now : time) : WdDraw := mkWdDraw now NoFault.

Ltac typed_table :=
  split; [split|..];
  [by apply (bool_decide_unpack _)|by apply (bool_decide_unpack _)
  |intros ? Ht; repeat (apply elem_of_cons in Ht as [->|Ht]; [by vm_compute|]); by apply elem_of_nil in Ht
  |intros ? Ht; repeat (apply elem_of_cons in Ht as [->|Ht]; [by vm_compute|]); by apply elem_of_nil in Ht
  |intros ? Ht; repeat (apply elem_of_cons in Ht as [->|Ht]; [by vm_compute|]); by apply elem_of_nil in Ht
  |intros ? _ v _; by exists v].

Lemma wd_world_typed : well_typed (ww_tasks wd_world_example).
Proof. typed_table. Qed.

(** The scan at noon. *)
Definition noon_draws : list WdDraw := replicate 2505 (calm_at noon).

Lemma scan_spec_witness :
  exists g' w' now cutoff at_,
    scan stuck_text_example watchdog_example noon_draws (go WdList fresh_watchdog, wd_world_example) = (g', w') /\
    scanned stuck_text_example watchdog_example noon noon fresh_watchdog wd_world_example now cutoff at_ w' /\
    map x_Status (ww_execs w') = [ExecutionStatusFailed; ExecutionStatusRunning; ExecutionStatusCancelled] /\
    map Status (ww_tasks w') = [TaskStatusFailed; TaskStatusRunning; TaskStatusCancelled] /\
    map (fun r => is_none (br_SettledAt r)) (ww_ledger w') = [false; true; false] /\
    wg_detected g' = [("x1", noon - Hour)].
Proof.
  destruct (scan_spec stuck_text_example watchdog_example noon noon noon_draws fresh_watchdog wd_world_example)
    as (g' & w' & now & cutoff & at_ & E & _ & H).
  - apply Forall_replicate. split; [done|]. cbn [wd_now calm_at]. lia.
  - by vm_compute.
  - by vm_compute.
  - by vm_compute.
  - by apply (bool_decide_unpack _).
  - exact wd_world_typed.
  - exists g', w', now, cutoff, at_. split; [exact E|]. split; [exact H|].
    set (r := scan _ _ _ _) in E. assert (Ew : w' = r.2) by (by rewrite E).
    assert (Eg : g' = r.1) by (by rewrite E). rewrite Ew, Eg. clear. by vm_compute.
Defined.

(** ** Runs *)

(** The conditions of the two theorems on runs, as tests. *)
Fixpoint healthyb (e : string) (evs : list WdEvent) (s : list Watchdog * WdWorld) : bool :=
  match evs with
  | [] => true
  | ev :: evs =>
      match ev with
      | WvTurn i d => match s.1 !! i with
          | Some g => negb (lists d g) || forallb (fun x => negb (x_ID x =?? e) ||
              (wd_now d - wc_StuckThreshold watchdog_example <=? x_UpdatedAt x)) (running_page (ww_execs s.2))
          | None => true
          end
      | _ => true
      end && healthyb e evs (wd_step stuck_text_example watchdog_example ev s)
  end.

Lemma healthyb_spec e evs : forall s, healthyb e evs s = true ->
  healthy stuck_text_example watchdog_example e evs s.
Proof.
  induction evs as [|ev evs IH]; intros s H; [done|]. cbn [healthyb healthy] in *.
  apply andb_true_iff in H as [H1 H2]. split; [|by apply IH]. destruct ev as [| |i d| | |]; try done.
  intros g Eg El x Hx Ex. rewrite Eg, El in H1. cbn [negb orb] in H1.
  rewrite forallb_elem in H1. specialize (H1 x Hx). rewrite bool_decide_true in H1 by done.
  by apply Z.leb_le in H1.
Qed.

Fixpoint staysb (cfg : WatchdogConfig) (i : nat) (e : string) (u c : time) (evs : list WdEvent)
    (s : list Watchdog * WdWorld) : bool :=
  match evs with
  | [] => true
  | ev :: evs =>
      let s' := wd_step stuck_text_example cfg ev s in
      match ev with
      | WvTurn j d =>
          if bool_decide (j = i) && match s.1 !! i with Some g => lists d g | None => false end
          then (c <=? wd_now d) && bool_decide (e ∈ map x_ID (running_page (ww_execs s.2))) &&
               forallb (fun x => negb (x_ID x =?? e) || (x_UpdatedAt x =? u)) (running_page (ww_execs s.2)) &&
               staysb cfg i e u (wd_now d) evs s'
          else staysb cfg i e u c evs s'
      | _ => staysb cfg i e u c evs s'
      end
  end.

Lemma staysb_spec cfg i e u evs : forall c s, staysb cfg i e u c evs s = true ->
  stays stuck_text_example cfg i e u c evs s.
Proof.
  induction evs as [|ev evs IH]; intros c s H; [done|]. cbn [staysb stays] in *.
  destruct ev as [| |j d| | |]; try by apply IH.
  destruct (bool_decide (j = i) && _); [|by apply IH].
  rewrite !andb_true_iff in H. destruct H as [[[H1 H2] H3] H4]. split; [by apply Z.leb_le|].
  split; [by apply bool_decide_eq_true in H2|]. split; [|by apply IH].
  intros x Hx Ex. rewrite forallb_elem in H3. specialize (H3 x Hx).
  rewrite bool_decide_true in H3 by done. by apply Z.eqb_eq in H3.
Qed.

Definition turns (i : nat) (now : time) (n : nat) : list WdEvent := replicate n (WvTurn i (calm_at now)).

(** Two daemons start, and the second, which does not lead, scans as well. *)
Definition two_daemons : list WdEvent :=
  [WvStart; WvStart] ++ turns 1 noon 12 ++ turns 0 (noon + Minute) 12 ++
  [WvTick 0 true; WvTick 1 false] ++ turns 0 (noon + 2 * Minute) 12.

Definition wd_run_example (evs : list WdEvent) (w : WdWorld) : list Watchdog * WdWorld :=
  wd_run stuck_text_example watchdog_example evs ([], w).

Lemma healthy_execution_untouched_witness :
  let s := wd_run_example two_daemons wd_world_example in
  Forall2 (fun x x' => x_ID x = "x2" -> kept_or_orphan (ww_tasks s.2) x x') (ww_execs s.2)
    (ww_execs (wd_step stuck_text_example watchdog_example (WvTurn 0 (calm_at noon)) s).2) /\
  map x_Status (ww_execs s.2) = [ExecutionStatusFailed; ExecutionStatusRunning; ExecutionStatusCancelled].
Proof.
  split; [|by vm_compute].
  apply (healthy_execution_untouched stuck_text_example watchdog_example "x2" two_daemons 0 (calm_at noon)
    wd_world_example).
  apply healthyb_spec. by vm_compute.
Defined.

(** A watchdog that only warns reports the stuck execution in the first of two scans. *)
Definition warn_example : WatchdogConfig :=
  mkWatchdogConfig true Minute (30 * Minute) ActionWarn 0 0 true false.

Definition two_scans : list WdEvent := turns 0 noon 12 ++ WvTick 0 true :: turns 0 (noon + Minute) 12.

Lemma stuck_reported_once_witness :
  exists g, (wd_run stuck_text_example warn_example two_scans
    ([go WdList fresh_watchdog], wd_world_example)).1 !! 0%nat = Some g /\
    (count_if (fun r => bool_decide (r = ("x1", noon - Hour)%Z)) (wg_detected g) <= 1)%nat /\
    wg_detected (default fresh_watchdog ((wd_run stuck_text_example warn_example two_scans
      ([go WdList fresh_watchdog], wd_world_example)).1 !! 0%nat)) = [("x1", noon - Hour)].
Proof.
  destruct (stuck_reported_once stuck_text_example warn_example 0 "x1" (noon - Hour) 0 two_scans
    [go WdList fresh_watchdog] wd_world_example) as (g & Eg & Hg).
  - done.
  - apply staysb_spec. by vm_compute.
  - exists g. split; [exact Eg|]. split; [exact Hg|]. clear. by vm_compute.
Defined.

(** ** Scans that do harm *)

(** A row that an earlier attempt left RUNNING: its task is FAILED although the task's
    present execution is healthy and keeps running. *)
Theorem ghost_execution_fails_live_task :
  let w := mkWdWorld [running_example "ghost" "t" (noon - Hour); running_example "live" "t" (noon - Minute)]
             [(task_example "t" "p" TaskStatusRunning 50 1 [] (Some "lease")) <| Attempt := 2 |>] [] in
  let s := wd_run_example (WvStart :: turns 0 noon 12) w in
  map x_Status (ww_execs s.2) = [ExecutionStatusFailed; ExecutionStatusRunning] /\
  map (fun t => (Status t, LastErrorClass t, LeaseID t, Attempt t, MaxAttempts t)) (ww_tasks s.2) =
    [(TaskStatusFailed, Some TaskFailureClassStuckExecution, Some "lease", 2, 3)].
Proof. by vm_compute. Qed.

(** An execution that completes between the listing and the statement is overwritten. *)
Theorem completed_execution_is_overwritten :
  let w := mkWdWorld [running_example "x" "t" (noon - Hour)] [] [] in
  let s := wd_run_example ([WvStart] ++ turns 0 noon 1 ++
    [WvExecs (default [] (match RecordCompletion noon "x" (Some "{}") (ww_execs w) with
                          | Ok tbl => Some tbl | Err _ => None end))] ++ turns 0 noon 12) w in
  map (fun x => (x_Status x, x_Result x)) (ww_execs s.2) = [(ExecutionStatusFailed, Some "{}")].
Proof. by vm_compute. Qed.

(** When the statement after [RecordFailure] fails, the execution is no longer RUNNING,
    so no later scan comes back to the task, which stays RUNNING. *)
Theorem half_failed_task_is_forgotten :
  let w := mkWdWorld [running_example "x" "t" (noon - Hour)]
             [task_example "t" "p" TaskStatusRunning 50 1 [] (Some "lease")] [] in
  let s := wd_run_example ([WvStart] ++ turns 0 noon 3 ++ [WvTurn 0 (mkWdDraw noon Refused)] ++
    turns 0 noon 12 ++ [WvTick 0 true] ++ turns 0 (noon + Minute) 12) w in
  map x_Status (ww_execs s.2) = [ExecutionStatusFailed] /\
  map Status (ww_tasks s.2) = [TaskStatusRunning] /\ map wg_detected s.1 = [[]].
Proof. by vm_compute. Qed.

(** An approval granted between the listing and the statement is cancelled. *)
Theorem granted_approval_is_cancelled :
  let t := (task_example "t" "p" TaskStatusAwaitingApproval 50 1 [] None) <| UpdatedAt := Hour |> in
  let s := wd_run_example ([WvStart] ++ turns 0 noon 4 ++ [WvTasks [t <| Status := TaskStatusQueued |>]] ++
    turns 0 noon 12) (mkWdWorld [] [t] []) in
  map Status (ww_tasks s.2) = [TaskStatusCancelled].
Proof. by vm_compute. Qed.

(** A CLOSED task is not among the statuses that are kept. *)
Theorem closed_task_becomes_failed :
  let s := wd_run_example (WvStart :: turns 0 noon 12)
    (mkWdWorld [running_example "x" "t" (noon - Hour)] [task_example "t" "p" TaskStatusClosed 50 1 [] None] []) in
  map Status (ww_tasks s.2) = [TaskStatusFailed].
Proof. by vm_compute. Qed.

(** A parent is not woken by the child that the scan fails, and it is not by the next
    scans either. *)
Theorem failed_child_leaves_parent_waiting :
  let w := mkWdWorld [running_example "x" "child" (noon - Hour)]
             [task_example "parent" "p" TaskStatusWaitingForChildren 50 1 [] None;
              (task_example "child" "p" TaskStatusRunning 50 1 [] None) <| ParentTaskID := Some "parent" |>] [] in
  let s := wd_run_example ([WvStart] ++ turns 0 noon 12 ++ [WvTick 0 true] ++ turns 0 (noon + Minute) 12) w in
  map Status (ww_tasks s.2) = [TaskStatusWaitingForChildren; TaskStatusFailed].
Proof. by vm_compute. Qed.

(** A misspelt action fails executions. *)
Theorem unknown_action_fails c s :
  wc_Action c = ActionOther s -> wc_Action (new_watchdog c) = ActionFail.
Proof. intros E. unfold new_watchdog, IsValid. cbn [wc_Action]. by rewrite E. Qed.
