(* ===== verification/TaskCreate.v ===== *)
(** * Task creation

    [src/internal/taskcreate/creator.go]: [Create], through which the REST API,
    the web form and the webhooks admit a task, as a program counter per call.
    A turn runs one statement on what calls share: the task table, the rate
    limiter, the usage rows, the reservation ledger and the queue metrics.  The
    limiter is any [ProjectLimiter]. *)
From stdpp Require Import pretty.
From S2P Require Import Prelude GoStrings TaskModel TaskRepo Store Queue.
From S2P Require Import Workflow StepRetry Registry RateLimit Budget TaskRepoSafety.
Open Scope string_scope.
Open Scope Z_scope.

(** ** Errors and parameters *)

Inductive Reason : Type :=
| ReasonValidation
| ReasonProjectNotFound
| ReasonWorkflowNotFound
| ReasonWorkflowIncompat
| ReasonRateLimited
| ReasonBudgetExceeded
| ReasonInternal.

Inductive Cause : Type := CauseRepo (e : RepoError) | CauseMarshal.

Record CreateError : Type := mkCreateError {
  ce_Reason : Reason;
  ce_Message : string;
  ce_Cause : option Cause
}.

(** A value of the payload's top-level map; [any] is what [encoding/json] can
    be given. *)
Inductive PayloadValue (any : Type) : Type :=
| PvString (s : string)
| PvInt (z : Z)
| PvRaw (bytes : string)
| PvObject (m : gmap string (any + string)).
Arguments PvString {any} s.
Arguments PvInt {any} z.
Arguments PvRaw {any} bytes.
Arguments PvObject {any} m.

(** [json.Marshal] of such a map: [None] when a value cannot be encoded. *)
Class JsonMarshal : Type := {
  json_any : Type;
  json_marshal : gmap string (PayloadValue json_any) -> option string
}.

Definition ptrIfNonEmpty (s : string) : option string := if s =?? "" then None else Some s.

(** [missingRoles]: [order] is the order in which Go ranges over the steps. *)
Definition missingRoles (order : list string) (wf : option Workflow) (swarm : option Swarm) :
    list string :=
  match wf, swarm with
  | Some wf, Some swarm =>
      let have := map r_Name (sw_Roles swarm) in
      foldl (fun missing id =>
        match wf_Steps wf !! id with
        | None => missing
        | Some step =>
            if negb ((Type_ step =?? "agent") || (Type_ step =?? "plan")) then missing
            else if (Role step =?? "") || bool_decide (Role step ∈ have) ||
                    bool_decide (Role step ∈ missing) then missing
            else (missing ++ [Role step])%list
        end) [] order
  | _, _ => []
  end.

Section Create.
Context {JM : JsonMarshal} {L : ProjectLimiter} `{pg : Postgres, tz : TzDatabase}.

Record Params : Type := mkParams {
  ProjectIDOf : string;
  TaskType : string;
  Prompt : string;
  PriorityOf : Z;
  WorkflowIDOf : string;
  IdempotencyKeyOf : string;
  CreationSourceOf : TaskCreationSource;
  ExtraContext : gmap string json_any;
  RawContext : string
}.

(** The fields of a [Creator] that may be nil. *)
Record Creator : Type := mkCreator {
  c_taskRepo : bool;
  c_queue : bool;
  c_rateLimiter : bool;
  c_registry : option Registry;
  c_llmUsageRepo : bool;
  c_reservRepo : bool;
  c_budgetNotifier : bool
}.

(** What the calls share; an alert is project, level, period and decision. *)
Record World : Type := mkWorld {
  w_tasks : Table;
  w_limiter : limiter;
  w_usage : list UsageRow;
  w_ledger : Ledger;
  w_metrics : option QueueMetrics;
  w_alerts : list (string * string * string * BudgetDecision)
}.

Definition with_tasks (tbl : Table) (w : World) : World :=
  mkWorld tbl (w_limiter w) (w_usage w) (w_ledger w) (w_metrics w) (w_alerts w).
Definition with_limiter (l : limiter) (w : World) : World :=
  mkWorld (w_tasks w) l (w_usage w) (w_ledger w) (w_metrics w) (w_alerts w).
Definition with_ledger (l : Ledger) (w : World) : World :=
  mkWorld (w_tasks w) (w_limiter w) (w_usage w) l (w_metrics w) (w_alerts w).
Definition with_metrics (m : option QueueMetrics) (w : World) : World :=
  mkWorld (w_tasks w) (w_limiter w) (w_usage w) (w_ledger w) m (w_alerts w).

(** [buildPayload]. *)
Definition buildPayload (p : Params) : option string :=
  let out : gmap string (PayloadValue json_any) := {["taskType" := PvString (TaskType p)]} in
  let out := if PriorityOf p =? 0 then out else <["priority" := PvInt (PriorityOf p)]> out in
  let out := if WorkflowIDOf p =?? "" then out
             else <["workflowId" := PvString (WorkflowIDOf p)]> out in
  let out := if IdempotencyKeyOf p =?? "" then out
             else <["idempotencyKey" := PvString (IdempotencyKeyOf p)]> out in
  let out :=
    if negb (RawContext p =?? "") then <["context" := PvRaw (RawContext p)]> out
    else if negb (Prompt p =?? "") || negb (bool_decide (ExtraContext p = ∅)) then
      let block : gmap string (json_any + string) := inl <$> ExtraContext p in
      let block := if Prompt p =?? "" then block else <["prompt" := inr (Prompt p)]> block in
      <["context" := PvObject block]> out
    else out in
  json_marshal out.

(** ** A call *)

(** What the validation at the start of [Create] has established. *)
Record Job : Type := mkJob {
  j_params : Params;
  j_project : option Project;
  j_workflowID : string;
  j_priority : Z
}.

(** How a call ends: with a row of its own, with an earlier call's row, or with
    an error. *)
Inductive Outcome : Type :=
| Created (t : Task)
| Existing (t : Task)
| Failed (e : CreateError).

Definition answer (o : Outcome) : result CreateError Task :=
  match o with Created t | Existing t => Ok t | Failed e => Err e end.

(** The next statement of a call.  [now] is its one reading of the clock. *)
Inductive PC : Type :=
| PcStart (p : Params)
| PcLookup (j : Job)
| PcCheck1 (j : Job)
| PcCheck2 (j : Job) (now : time) (obs : check_obs)
| PcDaily (j : Job) (now : time)
| PcMonthly (j : Job) (now : time) (daily : float64)
| PcReserveDaily (j : Job) (now : time) (t : Task)
| PcReserveMonthly (j : Job) (now : time) (t : Task) (daily : float64)
| PcReserveTx (j : Job) (now : time) (t : Task) (daily monthly : float64)
| PcInsert (j : Job) (now : time) (t : Task)
| PcRelookup (j : Job) (e : RepoError)
| PcEnqueue (j : Job) (now : time) (t : Task)
| PcRecord1 (j : Job) (now : time) (t : Task)
| PcRecord2 (j : Job) (now : time) (t : Task)
| PcDone (o : Outcome).

Definition fail_ (r : Reason) (msg : string) : PC := PcDone (Failed (mkCreateError r msg None)).
Definition fail_repo (msg : string) (e : RepoError) : PC :=
  PcDone (Failed (mkCreateError ReasonInternal msg (Some (CauseRepo e)))).

Context (c : Creator).

(** The tests before the first statement. *)
Definition validate (order : list string) (p : Params) : result CreateError Job :=
  if negb (c_taskRepo c) then
    Err (mkCreateError ReasonInternal "task repository not configured" None)
  else if ProjectIDOf p =?? "" then
    Err (mkCreateError ReasonValidation "projectId is required" None)
  else if TaskType p =?? "" then
    Err (mkCreateError ReasonValidation "taskType is required" None)
  else
    let! project :=
      match c_registry c with
      | None => Ok None
      | Some reg =>
          match GetProject (ProjectIDOf p) reg with
          | None => Err (mkCreateError ReasonProjectNotFound
                           ("project not found: " ++ ProjectIDOf p) None)
          | Some proj => Ok (Some proj)
          end
      end in
    let workflowID :=
      match project with
      | Some proj => if WorkflowIDOf p =?? "" then p_DefaultWorkflowID proj else WorkflowIDOf p
      | None => WorkflowIDOf p
      end in
    let! _ :=
      match c_registry c with
      | None => Ok tt
      | Some reg =>
          if workflowID =?? "" then Ok tt
          else
            match GetWorkflow workflowID reg with
            | None => Err (mkCreateError ReasonWorkflowNotFound
                             ("workflow not found: " ++ workflowID) None)
            | Some wf =>
                match project with
                | None => Ok tt
                | Some proj =>
                    match missingRoles order (Some wf) (GetSwarm (p_SwarmID proj) reg) with
                    | [] => Ok tt
                    | missing => Err (mkCreateError ReasonWorkflowIncompat
                        ("workflow " ++ quote_go workflowID ++ " cannot run on swarm " ++
                         quote_go (p_SwarmID proj) ++ " (missing role(s): [" ++
                         String.concat " " missing ++ "])") None)
                    end
                end
            end
      end in
    let priority :=
      match project with
      | Some proj => if PriorityOf p =? 0 then p_DefaultPriority proj else PriorityOf p
      | None => PriorityOf p
      end in
    Ok (mkJob p project workflowID (if priority =? 0 then 50 else priority)).

(** The task of an admitted call; [id] is the generated id. *)
Definition new_task (j : Job) (id payload : string) (now : time) : Task :=
  (zeroTask id)
    <| ProjectID := ProjectIDOf (j_params j) |>
    <| WorkflowID := ptrIfNonEmpty (j_workflowID j) |>
    <| IdempotencyKey := ptrIfNonEmpty (IdempotencyKeyOf (j_params j)) |>
    <| CreationSource := if CreationSourceOf (j_params j) =?? TaskCreationSourceOther ""
                         then TaskCreationSourceUser else CreationSourceOf (j_params j) |>
    <| Status := TaskStatusQueued |>
    <| Priority := j_priority j |>
    <| Payload := Some payload |>
    <| Attempt := 1 |>
    <| MaxAttempts := 3 |>
    <| CreatedAt := now |>
    <| UpdatedAt := now |>.

(** Where a call goes after its budget check: the payload is built, the reservation is
    attempted if there is anything to reserve against. *)
Definition build (j : Job) (id : string) (now : time) : PC :=
  match buildPayload (j_params j) with
  | None => PcDone (Failed (mkCreateError ReasonInternal "failed to marshal task payload"
                              (Some CauseMarshal)))
  | Some payload =>
      let t := new_task j id payload now in
      match j_project j with
      | Some proj =>
          if c_reservRepo c && c_llmUsageRepo c &&
             negb ((id =?? "") || no_hard_cap (p_Budget proj))
          then PcReserveDaily j now t else PcInsert j now t
      | None => PcInsert j now t
      end
  end.

(** Where a call goes once the rate limiter lets it through. *)
Definition gate_budget (j : Job) (id : string) (now : time) : PC :=
  match j_project j with
  | Some proj =>
      if c_llmUsageRepo c && negb (unlimited (p_Budget proj)) then PcDaily j now
      else build j id now
  | None => build j id now
  end.

(** A statement that only reads. *)
Definition read {A} (f : Fault) (r : result RepoError A) : result RepoError A :=
  if failed f then Err (ErrSQL "57014") else r.

(** [NotifyBudgetBreach], when a notifier is wired. *)
Definition alert (pid : string) (d : BudgetDecision) (w : World) : World :=
  if c_budgetNotifier c then
    let '(period, level) := Period d in
    mkWorld (w_tasks w) (w_limiter w) (w_usage w) (w_ledger w) (w_metrics w)
      (w_alerts w ++ [(pid, level, period, d)])%list
  else w.

(** The arguments of one turn: the fault, the clock, the id the call generates
    for its task or its reservation, and the order of a map. *)
Record Turn : Type := mkTurn {
  tn_fault : Fault;
  tn_clock : time;
  tn_id : string;
  tn_order : list string
}.

Definition pid_of (j : Job) : string := ProjectIDOf (j_params j).
Definition key_of (j : Job) : string := IdempotencyKeyOf (j_params j).

(** A fault of the idempotency lookup or of the insert fails the call; the limiter's
    statements and the budget gates fail open.  [c.now] never returns the zero time,
    so the budget functions use the call's [now]. *)
Definition turn (tn : Turn) (pc : PC) (w : World) : PC * World :=
  let f := tn_fault tn in
  match pc with
  | PcStart p =>
      (match validate (tn_order tn) p with
       | Err e => PcDone (Failed e)
       | Ok j => if key_of j =?? "" then PcCheck1 j else PcLookup j
       end, w)
  | PcLookup j =>
      (match read f (GetByIdempotencyKey (pid_of j) (key_of j) (w_tasks w)) with
       | Ok existing => PcDone (Existing existing)
       | Err ErrNotFound => PcCheck1 j
       | Err e => fail_repo "idempotency lookup failed" e
       end, w)
  | PcCheck1 j =>
      let now := tn_clock tn in
      match j_project j with
      | Some proj =>
          if c_rateLimiter c then
            let '(obs, l) := lim_check1 (failed f) proj now (w_limiter w) in
            (PcCheck2 j now obs, with_limiter l w)
          else (gate_budget j (tn_id tn) now, w)
      | None => (gate_budget j (tn_id tn) now, w)
      end
  | PcCheck2 j now obs =>
      (match j_project j with
       | None => gate_budget j (tn_id tn) now
       | Some proj =>
           let d := lim_check2 (failed f) proj now obs (w_limiter w) in
           if rl_Blocked d then fail_ ReasonRateLimited (rl_Reason d)
           else gate_budget j (tn_id tn) now
       end, w)
  | PcDaily j now =>
      (match j_project j with
       | None => build j (tn_id tn) now
       | Some proj =>
           match read f (mapDB (sum_daily proj now (w_usage w))) with
           | Err _ => build j (tn_id tn) now
           | Ok daily => PcMonthly j now daily
           end
       end, w)
  | PcMonthly j now daily =>
      match j_project j with
      | None => (build j (tn_id tn) now, w)
      | Some proj =>
          match read f (mapDB (sum_monthly proj now (w_usage w))) with
          | Err _ => (build j (tn_id tn) now, w)
          | Ok monthly =>
              let d := budget_decision (p_Budget proj) daily monthly in
              if b_Blocked d then
                (fail_ ReasonBudgetExceeded (b_Reason d), alert (pid_of j) d w)
              else if b_SoftBreached d then (build j (tn_id tn) now, alert (pid_of j) d w)
              else (build j (tn_id tn) now, w)
          end
      end
  | PcReserveDaily j now t =>
      (match j_project j with
       | None => PcInsert j now t
       | Some proj =>
           match read f (mapDB (sum_daily proj now (w_usage w))) with
           | Err _ => PcInsert j now t
           | Ok daily => PcReserveMonthly j now t daily
           end
       end, w)
  | PcReserveMonthly j now t daily =>
      (match j_project j with
       | None => PcInsert j now t
       | Some proj =>
           match read f (mapDB (sum_monthly proj now (w_usage w))) with
           | Err _ => PcInsert j now t
           | Ok monthly => PcReserveTx j now t daily monthly
           end
       end, w)
  | PcReserveTx j now t daily monthly =>
      match j_project j with
      | None => (PcInsert j now t, w)
      | Some proj =>
          let req := reserve_request proj (ID t) daily monthly now in
          match Reserve_tx (refused f) (tn_id tn) (tn_clock tn) req (w_ledger w) with
          | Err _ => (PcInsert j now t, w)
          | Ok (out, ledger) =>
              let d := reserve_decision (p_Budget proj) daily monthly out in
              if failed f then (PcInsert j now t, with_ledger ledger w)
              else if b_Blocked d then
                (fail_ ReasonBudgetExceeded (b_Reason d), alert (pid_of j) d (with_ledger ledger w))
              else (PcInsert j now t, with_ledger ledger w)
          end
      end
  | PcInsert j now t =>
      match (if refused f then Err (ErrSQL "57014")
             else Create (tn_clock tn) (Some t) (w_tasks w)) with
      | Ok (t', tbl) =>
          (if failed f then fail_repo "failed to persist task" (ErrSQL "57014")
           else if c_queue c then PcEnqueue j now t'
           else if c_rateLimiter c then PcRecord1 j now t' else PcDone (Created t'),
           with_tasks tbl w)
      | Err e =>
          (if failed f then fail_repo "failed to persist task" (ErrSQL "57014")
           else match e with
                | ErrDuplicateKey =>
                    if key_of j =?? "" then fail_repo "failed to persist task" e
                    else PcRelookup j e
                | _ => fail_repo "failed to persist task" e
                end, w)
      end
  | PcRelookup j e =>
      (match read f (GetByIdempotencyKey (pid_of j) (key_of j) (w_tasks w)) with
       | Ok existing => PcDone (Existing existing)
       | Err _ => fail_repo "failed to persist task" e
       end, w)
  | PcEnqueue j now t =>
      let q := Enqueue (ID t) (pid_of j) (j_priority j)
                 (mkQueue (Some (w_tasks w : store)) (w_metrics w)) in
      (if c_rateLimiter c then PcRecord1 j now t else PcDone (Created t),
       with_metrics (q_metrics q) w)
  | PcRecord1 j now t =>
      (PcRecord2 j now t, with_limiter (lim_record1 (failed f) (pid_of j) now (w_limiter w)) w)
  | PcRecord2 j now t =>
      (PcDone (Created t), with_limiter (lim_record2 (failed f) (pid_of j) now (w_limiter w)) w)
  | PcDone o => (PcDone o, w)
  end.

(** ** Calls side by side *)

(** What happens in the daemons: a turn of a call, a call of another client of the task
    repository, usage being recorded, and the two ways in which reservations are
    settled. *)
Inductive Event : Type :=
| EvTurn (i : nat) (tn : Turn)
| EvRepo (cl : call)
| EvUsage (rows : list UsageRow)
| EvSettle (taskID : string) (now : time)
| EvSweep (staleCutoff now : time).

Definition with_usage (u : list UsageRow) (w : World) : World :=
  mkWorld (w_tasks w) (w_limiter w) u (w_ledger w) (w_metrics w) (w_alerts w).

Definition ledger_or (l : Ledger) (r : result RepoError (nat * Ledger)) : Ledger :=
  match r with Ok (_, l') => l' | Err _ => l end.

Abbreviation System := (list PC * World)%type.

Definition step (ev : Event) (s : System) : System :=
  let '(pcs, w) := s in
  match ev with
  | EvTurn i tn =>
      match pcs !! i with
      | None => s
      | Some pc => let '(pc', w') := turn tn pc w in (<[i := pc']> pcs, w')
      end
  | EvRepo cl => (pcs, with_tasks (apply_call (w_tasks w) cl) w)
  | EvUsage rows => (pcs, with_usage (w_usage w ++ rows)%list w)
  | EvSettle taskID now =>
      (pcs, with_ledger (ledger_or (w_ledger w)
              (SettleByTask false taskID now now (w_ledger w))) w)
  | EvSweep cutoff now =>
      (pcs, with_ledger (ledger_or (w_ledger w)
              (SweepTerminalAndStale false cutoff now now (w_tasks w) (w_ledger w))) w)
  end.

Definition run (evs : list Event) (s : System) : System := foldl (fun s ev => step ev s) s evs.

(** One call on its own. *)
Definition run_alone (tns : list Turn) (pc : PC) (w : World) : PC * World :=
  foldl (fun '(pc, w) tn => turn tn pc w) (pc, w) tns.
End Create.
