(* ===== verification/TaskCreateFacts.v ===== *)
(** * Facts about task creation

    What a call is about at each of its statements, that a call ends, and what it has
    written when it does. *)
From S2P Require Import Prelude GoStrings TaskModel TaskRepo TaskRepoFacts Store Queue.
From S2P Require Import Workflow Registry RateLimit Budget TaskRepoSafety TaskRepoTypes TaskCreate.
Open Scope list_scope.
Open Scope Z_scope.

Section Facts.
Context {JM : JsonMarshal} {L : ProjectLimiter} `{pg : Postgres, tz : TzDatabase}.
Context (c : Creator).

(** ** What a call is about *)

Definition job_of (p : Params) (j : Job) : Prop := exists order, validate c order p = Ok j.

(** The task a call builds, and the struct it has after [taskRepo.Create]. *)
Definition built (j : Job) (now : time) (t : Task) : Prop :=
  exists id payload, buildPayload (j_params j) = Some payload /\ t = new_task j id payload now.
Definition stored (j : Job) (now : time) (t : Task) : Prop :=
  exists t0 clock, built j now t0 /\ t = create_defaults clock t0.

Definition pc_ok (p : Params) (pc : PC) : Prop :=
  match pc with
  | PcStart q => q = p
  | PcLookup j => job_of p j /\ key_of j <> ""%string
  | PcCheck1 j | PcCheck2 j _ _ | PcDaily j _ | PcMonthly j _ _ | PcRelookup j _ => job_of p j
  | PcReserveDaily j now t | PcReserveMonthly j now t _ | PcReserveTx j now t _ _
  | PcInsert j now t => job_of p j /\ built j now t
  | PcEnqueue j now t | PcRecord1 j now t | PcRecord2 j now t => job_of p j /\ stored j now t
  | PcDone (Created t) => exists j now, job_of p j /\ stored j now t
  | PcDone _ => True
  end.

Lemma validate_params order p j : validate c order p = Ok j -> j_params j = p.
Proof.
  unfold validate. intros H. repeat (case_match; [done|]).
  apply res_bind_ok in H as (proj & _ & H). apply res_bind_ok in H as (_ & _ & H).
  by injection H as <-.
Qed.

Lemma job_of_params p j : job_of p j -> j_params j = p.
Proof. intros [order H]. by eapply validate_params. Qed.

Lemma build_ok p j id now : job_of p j -> pc_ok p (build c j id now).
Proof.
  intros Hj. unfold build. destruct (buildPayload (j_params j)) as [payload|] eqn:E; [|done].
  assert (Hb : built j now (new_task j id payload now)) by (exists id, payload; done).
  destruct (j_project j); [case_match|]; done.
Qed.

Lemma gate_budget_ok p j id now : job_of p j -> pc_ok p (gate_budget c j id now).
Proof.
  intros Hj. unfold gate_budget. destruct (j_project j); [case_match; [done|]|]; by apply build_ok.
Qed.

Hint Resolve build_ok gate_budget_ok : vornik.

(** A read that fails is a failure, one that succeeds was not faulted. *)
Lemma read_Ok {A} f (r : result RepoError A) v : read f r = Ok v -> f = NoFault /\ r = Ok v.
Proof. by destruct f. Qed.

Lemma turn_ok p tn pc w : pc_ok p pc -> pc_ok p (turn c tn pc w).1.
Proof.
  destruct pc; intros Hpc; cbn [turn fst pc_ok] in *.
  - subst p0. destruct (validate c (tn_order tn) p) as [j|e] eqn:E; [|done].
    assert (job_of p j) by (by exists (tn_order tn)). case_bool_decide; done.
  - destruct Hpc as [Hj Hk]. destruct (read _ _) as [|[]]; done.
  - destruct (j_project j); [case_match|]; cbn [fst]; auto with vornik.
    by destruct (lim_check1 _ _ _ _).
  - destruct (j_project j); [case_match|]; cbn [fst]; auto with vornik. done.
  - destruct (j_project j); [destruct (read _ _)|]; cbn [fst]; auto with vornik.
  - destruct (j_project j); [destruct (read _ _); [|by apply build_ok]|by apply build_ok].
    case_match; [done|]. case_match; by apply build_ok.
  - destruct (j_project j); [destruct (read _ _)|]; done.
  - destruct (j_project j); [destruct (read _ _)|]; done.
  - destruct (j_project j); [|done]. destruct (Reserve_tx _ _ _ _ _) as [[out l]|]; [|done].
    destruct (failed _); [done|]. by case_match.
  - destruct Hpc as [Hj Hb]. destruct (refused _).
    { by destruct (failed _). }
    destruct (Create _ _ _) as [[t' tbl]|e] eqn:E.
    + destruct (failed _); [done|]. cbn [fst]. apply res_bind_ok in E as (? & _ & [= <- _]).
      assert (stored j now (create_defaults (tn_clock tn) t)) by (by exists t, (tn_clock tn)).
      repeat case_match; cbn [pc_ok]; eauto.
    + destruct (failed _); [done|]. destruct e; try done. by case_match.
  - by destruct (read _ _).
  - destruct Hpc as [Hj Hs]. cbn [fst]. case_match; cbn [pc_ok]; eauto.
  - done.
  - destruct Hpc as [Hj Hs]. eauto.
  - done.
Qed.

(** ** A call ends *)

(** The turns a call still takes at most. *)
Definition rank (pc : PC) : nat :=
  match pc with
  | PcStart _ => 13 | PcLookup _ => 12 | PcCheck1 _ => 11 | PcCheck2 _ _ _ => 10
  | PcDaily _ _ => 9 | PcMonthly _ _ _ => 8 | PcReserveDaily _ _ _ => 7
  | PcReserveMonthly _ _ _ _ => 6 | PcReserveTx _ _ _ _ _ => 5 | PcInsert _ _ _ => 4
  | PcRelookup _ _ => 1 | PcEnqueue _ _ _ => 3 | PcRecord1 _ _ _ => 2 | PcRecord2 _ _ _ => 1
  | PcDone _ => 0
  end.

Lemma build_rank j id now : (rank (build c j id now) <= 7)%nat.
Proof. unfold build. repeat case_match; simpl; lia. Qed.

Lemma gate_budget_rank j id now : (rank (gate_budget c j id now) <= 9)%nat.
Proof. unfold gate_budget. pose proof (build_rank j id now). repeat case_match; simpl; lia. Qed.

Lemma turn_rank tn pc w : (rank (turn c tn pc w).1 <= rank pc - 1)%nat.
Proof.
  pose proof build_rank. pose proof gate_budget_rank.
  destruct pc; cbn [turn]; repeat case_match; cbn [fst rank fail_ fail_repo]; try lia;
    try (etrans; [eauto|lia]).
Qed.

Lemma run_alone_snoc tns tn pc w :
  run_alone c (tns ++ [tn]) pc w = turn c tn (run_alone c tns pc w).1 (run_alone c tns pc w).2.
Proof. unfold run_alone. rewrite foldl_app. simpl. by destruct (foldl _ _ _). Qed.

Lemma run_alone_ends tns pc w :
  (rank pc <= length tns)%nat -> exists o, (run_alone c tns pc w).1 = PcDone o.
Proof.
  assert (H : (rank (run_alone c tns pc w).1 <= rank pc - length tns)%nat).
  { induction tns as [|tn tns IH] using rev_ind; [simpl; lia|].
    rewrite run_alone_snoc, length_app. simpl.
    pose proof (turn_rank tn (run_alone c tns pc w).1 (run_alone c tns pc w).2). lia. }
  intros Hlen. destruct (run_alone c tns pc w).1; simpl in H; try lia. eauto.
Qed.

(** ** What a call alone has written *)

Definition reservation_of (j : Job) (t : Task) (rs : list BudgetReservation) : Prop :=
  rs = [] \/ exists r proj, rs = [r] /\ j_project j = Some proj /\ br_ProjectID r = p_ID proj /\
    br_TaskID r = ID t /\ br_EstimatedUSD r = estimate_of (p_Budget proj) /\ br_SettledAt r = None.

(** A check leaves at most pruned logs behind. *)
Definition checked (l l' : limiter) : Prop :=
  l' = l \/ exists f proj now, l' = (lim_check1 f proj now l).2.

(** The writes outside the task table and the limiter: reservations, at most [n]
    alerts, the metrics. *)
Record footprint (n : nat) (w w' : World) (rs : list BudgetReservation)
    (m : option QueueMetrics) : Prop := {
  fp_usage : w_usage w' = w_usage w;
  fp_ledger : w_ledger w' = w_ledger w ++ rs;
  fp_alerts : exists al, w_alerts w' = w_alerts w ++ al /\ (length al <= n)%nat;
  fp_metrics : w_metrics w' = m
}.

(** The insert of the call's task into the table it found. *)
Definition inserted (j : Job) (now : time) (t : Task) (w w' : World) : Prop :=
  exists t0 clock, built j now t0 /\ Create clock (Some t0) (w_tasks w) = Ok (t, w_tasks w').

Definition key_free (p : Params) (w : World) : Prop :=
  IdempotencyKeyOf p <> ""%string ->
  GetByIdempotencyKey (ProjectIDOf p) (IdempotencyKeyOf p) (w_tasks w) = Err ErrNotFound.

(** The metrics after [queue.Enqueue]. *)
Definition enqueued (j : Job) (t : Task) (w w' : World) : option QueueMetrics :=
  if c_queue c then
    q_metrics (Enqueue (ID t) (pid_of j) (j_priority j)
      (mkQueue (Some (w_tasks w' : store)) (w_metrics w)))
  else w_metrics w.

Definition recorded (pid : string) (l l' : limiter) : Prop :=
  if c_rateLimiter c then
    exists l1 f1 f2 now, checked l l1 /\ l' = lim_record2 f2 pid now (lim_record1 f1 pid now l1)
  else checked l l'.

(** What a finished call has done to the world it started in. *)
Definition outcome_effect (p : Params) (w : World) (o : Outcome) (w' : World) : Prop :=
  match o with
  | Failed e => exists rs, (length rs <= 1)%nat /\ footprint 2 w w' rs (w_metrics w) /\
      checked (w_limiter w) (w_limiter w') /\
      (ce_Reason e = ReasonInternal \/ w_tasks w' = w_tasks w /\ rs = []) /\
      (w_tasks w' = w_tasks w \/ exists j now t, job_of p j /\ inserted j now t w w')
  | Existing t => w' = w /\
      GetByIdempotencyKey (ProjectIDOf p) (IdempotencyKeyOf p) (w_tasks w) = Ok t
  | Created t => exists j now rs, job_of p j /\ inserted j now t w w' /\ key_free p w /\
      reservation_of j t rs /\ footprint 2 w w' rs (enqueued j t w w') /\
      recorded (ProjectIDOf p) (w_limiter w) (w_limiter w')
  end.

(** *** The writes so far, statement by statement *)

Definition quiet (n : nat) (rs : list BudgetReservation) (w w' : World) : Prop :=
  w_tasks w' = w_tasks w /\ footprint n w w' rs (w_metrics w) /\
  checked (w_limiter w) (w_limiter w').

Definition written (p : Params) (w : World) (pc : PC) (w' : World) : Prop :=
  match pc with
  | PcStart _ | PcLookup _ => w' = w
  | PcCheck1 _ => w' = w /\ key_free p w
  | PcCheck2 _ _ _ | PcDaily _ _ | PcMonthly _ _ _ => quiet 0 [] w w' /\ key_free p w
  | PcReserveDaily _ _ _ | PcReserveMonthly _ _ _ _ | PcReserveTx _ _ _ _ _ =>
      quiet 1 [] w w' /\ key_free p w
  | PcInsert j _ t => exists rs, quiet 1 rs w w' /\ key_free p w /\ reservation_of j t rs
  | PcRelookup j _ => (exists rs, quiet 1 rs w w' /\ (length rs <= 1)%nat) /\ key_free p w /\ key_of j <> ""%string
  | PcEnqueue j now t => exists rs, inserted j now t w w' /\ key_free p w /\
      reservation_of j t rs /\ footprint 1 w w' rs (w_metrics w) /\
      checked (w_limiter w) (w_limiter w') /\ c_queue c = true
  | PcRecord1 j now t => exists rs, inserted j now t w w' /\ key_free p w /\
      reservation_of j t rs /\ footprint 1 w w' rs (enqueued j t w w') /\
      checked (w_limiter w) (w_limiter w') /\ c_rateLimiter c = true
  | PcRecord2 j now t => exists rs l f, inserted j now t w w' /\ key_free p w /\
      reservation_of j t rs /\ footprint 1 w w' rs (enqueued j t w w') /\
      checked (w_limiter w) l /\ w_limiter w' = lim_record1 f (pid_of j) now l /\
      c_rateLimiter c = true
  | PcDone o => outcome_effect p w o w'
  end.

Lemma reservation_of_length j t rs : reservation_of j t rs -> (length rs <= 1)%nat.
Proof. intros [->|(r & proj & -> & _)]; simpl; lia. Qed.

Lemma footprint_weaken n n' w w' rs m :
  (n <= n')%nat -> footprint n w w' rs m -> footprint n' w w' rs m.
Proof.
  intros Hn [H1 H2 (al & H3 & H4) H5]. split; [done..| |done]. exists al. split; [done|lia].
Qed.

Lemma quiet_weaken n n' rs w w' : (n <= n')%nat -> quiet n rs w w' -> quiet n' rs w w'.
Proof. intros Hn (H1 & H2 & H3). split_and!; [done|by eapply footprint_weaken|done]. Qed.

Lemma footprint_refl w : footprint 0 w w [] (w_metrics w).
Proof. split; [done|by rewrite app_nil_r| |done]. exists []. by rewrite app_nil_r. Qed.

Lemma quiet_refl w : quiet 0 [] w w.
Proof. split_and!; [done|apply footprint_refl|by left]. Qed.

Lemma footprint_alert n w w' rs m pid d :
  footprint n w w' rs m -> footprint (S n) w (alert c pid d w') rs m.
Proof.
  intros Hf. unfold alert. case_match; [|eapply footprint_weaken; [|done]; lia].
  destruct Hf as [H1 H2 (al & H3 & H4) H5]. destruct (Period d) as [period level].
  split; cbn [w_usage w_ledger w_alerts w_metrics]; [done|done| |done].
  exists (al ++ [(pid, level, period, d)]). rewrite H3, app_assoc, length_app. simpl. split; [done|lia].
Qed.

Lemma alert_frame pid d w :
  w_tasks (alert c pid d w) = w_tasks w /\ w_limiter (alert c pid d w) = w_limiter w.
Proof. unfold alert. case_match; [|done]. by destruct (Period d). Qed.

Lemma quiet_alert n rs w w' pid d : quiet n rs w w' -> quiet (S n) rs w (alert c pid d w').
Proof.
  intros (H1 & H2 & H3). destruct (alert_frame pid d w') as [E1 E2].
  split_and!; [by rewrite E1|by apply footprint_alert|by rewrite E2].
Qed.

(** A call that fails before its insert. *)
Lemma quiet_failed p w w' e rs :
  quiet 2 rs w w' -> (length rs <= 1)%nat -> ce_Reason e = ReasonInternal \/ rs = [] ->
  outcome_effect p w (Failed e) w'.
Proof.
  intros (H1 & H2 & H3) Hlen Hr. exists rs. split_and!; [done|done|done| |by left].
  destruct Hr as [?|?]; [by left|by right].
Qed.

Lemma written_build p j id now w w' :
  quiet 1 [] w w' -> key_free p w -> written p w (build c j id now) w'.
Proof.
  intros Hq Hk. unfold build. destruct (buildPayload _); [|apply (quiet_failed _ _ _ _ []);
    [by apply (quiet_weaken 1); [lia|]|simpl; lia|by left]].
  destruct (j_project j); [case_match; [done|]|]; (exists []; split_and!; [done|done|by left]).
Qed.

(** The statement of [PcReserveTx] claims at most one reservation. *)
Lemma Reserve_tx_effect f id clock proj t daily monthly now ledger out ledger' :
  Reserve_tx f id clock (reserve_request proj t daily monthly now) ledger = Ok (out, ledger') ->
  (rr_Blocked out = true /\ rr_Reserved out = false /\ ledger' = ledger) \/
  (rr_Blocked out = false /\ rr_Reserved out = true /\ exists r, ledger' = ledger ++ [r] /\
   br_ProjectID r = p_ID proj /\ br_TaskID r = t /\
   br_EstimatedUSD r = estimate_of (p_Budget proj) /\ br_SettledAt r = None).
Proof.
  unfold Reserve_tx. case_match; [done|]. intros E. apply res_bind_ok in E as (res & _ & E).
  destruct (over_cap _ _ _ _); [injection E as <- <-; by left|].
  destruct (over_cap _ _ _ _); [injection E as <- <-; by left|].
  case_match; [done|]. injection E as <- <-. right. split_and!; [done|done|]. by eexists.
Qed.

Lemma reserve_decision_blocked b daily monthly out :
  b_Blocked (reserve_decision b daily monthly out) = rr_Blocked out.
Proof. unfold reserve_decision. by destruct (rr_Blocked out). Qed.

Lemma written_reserve p tn j now t daily monthly w w' :
  written p w (PcReserveTx j now t daily monthly) w' ->
  written p w (turn c tn (PcReserveTx j now t daily monthly) w').1
              (turn c tn (PcReserveTx j now t daily monthly) w').2.
Proof.
  intros [Hq Hk]. cbn [turn].
  assert (Hskip : written p w (PcInsert j now t) w') by (exists []; split_and!; [done|done|by left]).
  destruct (j_project j) as [proj|] eqn:Ej; [|done].
  destruct (Reserve_tx _ _ _ _ _) as [[out l]|] eqn:E; [|done].
  rewrite reserve_decision_blocked.
  apply Reserve_tx_effect in E as [(Hb & _ & ->)|(Hb & _ & r & -> & H1 & H2 & H3 & H4)]; rewrite Hb.
  - destruct (failed _); cbn [fst snd]; destruct w'; [exact Hskip|].
    by apply (quiet_failed _ _ _ _ []); [apply quiet_alert|simpl; lia|right].
  - assert (Ef : forall (b : bool) (A : Type) (x : A), (if b then x else x) = x) by (by intros []).
    rewrite Ef. cbn [fst snd written]. exists [r]. destruct Hq as (Ht & [F1 F2 F3 F4] & Hc).
    rewrite app_nil_r in F2. split; [|split; [done|]].
    + split; [done|split; [|done]]. split; cbn; [done|by rewrite F2|done|done].
    + right. exists r, proj. by split_and!.
Qed.

Lemma written_gate p j id now w w' :
  quiet 0 [] w w' -> key_free p w -> written p w (gate_budget c j id now) w'.
Proof.
  intros Hq Hk. assert (quiet 1 [] w w') by (by apply (quiet_weaken 0); [lia|]).
  unfold gate_budget. destruct (j_project j); [case_match; [done|]|]; by apply written_build.
Qed.

Lemma written_insert p tn j now t w w' :
  pc_ok p (PcInsert j now t) -> written p w (PcInsert j now t) w' ->
  written p w (turn c tn (PcInsert j now t) w').1 (turn c tn (PcInsert j now t) w').2.
Proof.
  intros [Hj Hb] (rs & Hq & Hk & Hr). cbn [turn].
  assert (Hq2 : quiet 2 rs w w') by (by apply (quiet_weaken 1); [lia|]).
  assert (Hfail : forall msg e, written p w (fail_repo msg e) w').
  { intros msg e. apply (quiet_failed _ _ _ _ rs); [done|by eapply reservation_of_length|by left]. }
  destruct (refused _); [destruct (failed _); apply Hfail|].
  destruct Hq as (Ht & Hf & Hc).
  destruct (Create _ _ _) as [[t' tbl]|e] eqn:E.
  - assert (Hins : inserted j now t' w (with_tasks tbl w')) by (exists t, (tn_clock tn); by rewrite <- Ht).
    assert (Hr' : reservation_of j t' rs).
    { apply res_bind_ok in E as (? & _ & [= <- _]). exact Hr. }
    assert (Hf' : forall n, (1 <= n)%nat -> footprint n w (with_tasks tbl w') rs (w_metrics w)).
    { intros n Hn. apply (footprint_weaken 1); [done|]. by destruct Hf. }
    destruct (failed _).
    + exists rs. split_and!; [by eapply reservation_of_length|apply Hf'; lia|done|by left|right; by exists j, now, t'].
    + destruct (c_queue c) eqn:Eq; [exists rs; split_and!; auto|].
      assert (Hm : enqueued j t' w (with_tasks tbl w') = w_metrics w) by (unfold enqueued; by rewrite Eq).
      destruct (c_rateLimiter c) eqn:El; cbn [fst snd written].
      * exists rs. rewrite Hm. split_and!; auto.
      * exists j, now, rs. rewrite Hm. unfold recorded. rewrite El. split_and!; auto.
  - destruct (failed _); [apply Hfail|].
    destruct e; try apply Hfail. case_bool_decide; [apply Hfail|].
    split; [|done]. exists rs. split; [by split_and!|by eapply reservation_of_length].
Qed.

Lemma read_NotFound {A} f (r : result RepoError A) :
  read f r = Err ErrNotFound -> r = Err ErrNotFound.
Proof. by destruct f. Qed.

Lemma turn_written p tn pc w w' :
  pc_ok p pc -> written p w pc w' ->
  written p w (turn c tn pc w').1 (turn c tn pc w').2.
Proof.
  intros Hok Hw.
  assert (Hearly : forall n e, quiet n [] w w' -> (n <= 2)%nat -> outcome_effect p w (Failed e) w').
  { intros n e Hq Hn. apply (quiet_failed _ _ _ _ []); [by eapply quiet_weaken|simpl; lia|by right]. }
  destruct pc; try (by apply written_insert); try (by apply written_reserve);
    cbn [turn pc_ok written] in Hok, Hw |- *.
  - subst p0 w'. destruct (validate c _ p) as [j|e] eqn:E; cbn [fst snd].
    + assert (Hp : j_params j = p) by (by eapply validate_params).
      unfold key_of. rewrite Hp. case_bool_decide; [|done]. split; [done|]. by intros Hk.
    + apply (Hearly 0%nat); [apply quiet_refl|lia].
  - destruct Hok as [Hj Hk]. subst w'. pose proof (job_of_params p j Hj) as Hp.
    destruct (read _ _) as [t|e] eqn:E; cbn [fst snd].
    + apply read_Ok in E as [_ E]. unfold pid_of, key_of in E. by rewrite Hp in E.
    + destruct e; try (apply (Hearly 0%nat); [apply quiet_refl|lia]).
      apply read_NotFound in E. split; [done|]. intros _. unfold pid_of, key_of in E.
      by rewrite Hp in E.
  - destruct Hw as [-> Hk]. pose proof (quiet_refl w).
    destruct (j_project j) as [proj|]; [|by apply written_gate].
    destruct (c_rateLimiter c); [|by apply written_gate].
    destruct (lim_check1 _ _ _ _) as [obs l] eqn:E. cbn [fst snd]. split; [|done].
    destruct (quiet_refl w) as (H1 & [F1 F2 F3 F4] & _). split; [done|split; [done|]].
    right. exists (failed (tn_fault tn)), proj, (tn_clock tn). by rewrite E.
  - destruct Hw as [Hq Hk]. cbn [fst snd].
    destruct (j_project j); [|by apply written_gate]. case_match; [|by apply written_gate].
    apply (Hearly 0%nat); [done|lia].
  - destruct Hw as [Hq Hk]. assert (quiet 1 [] w w') by (by apply (quiet_weaken 0); [lia|]).
    cbn [fst snd]. destruct (j_project j); [destruct (read _ _); [done|]|]; by apply written_build.
  - destruct Hw as [Hq Hk]. assert (quiet 1 [] w w') by (by apply (quiet_weaken 0); [lia|]).
    destruct (j_project j); [destruct (read _ _)|]; try (by apply written_build).
    case_match; cbn [fst snd].
    + apply (quiet_failed _ _ _ _ []); [|simpl; lia|by right]. by apply (quiet_weaken 1); [lia|apply quiet_alert].
    + case_match; [|by apply written_build]. by apply written_build; [apply quiet_alert|].
  - destruct Hw as [Hq Hk]. cbn [fst snd]. destruct (j_project j); [destruct (read _ _); [done|]|];
      (exists []; split_and!; [done|done|by left]).
  - destruct Hw as [Hq Hk]. cbn [fst snd]. destruct (j_project j); [destruct (read _ _); [done|]|];
      (exists []; split_and!; [done|done|by left]).
  - destruct Hw as ((rs & Hq & Hlen) & Hk & Hne). assert (Hq2 : quiet 2 rs w w') by (by apply (quiet_weaken 1); [lia|]).
    cbn [fst snd]. destruct (read _ _) eqn:E.
    + exfalso. apply read_Ok in E as [_ E]. destruct Hq as (Ht & _). rewrite Ht in E.
      unfold pid_of, key_of in *. rewrite (job_of_params p j Hok) in *. by rewrite (Hk Hne) in E.
    + apply (quiet_failed _ _ _ _ rs); [done|done|by left].
  - destruct Hok as [Hj Hs]. destruct Hw as (rs & Hi & Hk & Hr & [F1 F2 F3 F4] & Hc & Hq).
    assert (Hf : footprint 1 w (with_metrics (q_metrics (Enqueue (ID t) (pid_of j) (j_priority j)
      (mkQueue (Some (w_tasks w' : store)) (w_metrics w')))) w') rs (enqueued j t w w')).
    { split; [done..|]. unfold enqueued. by rewrite Hq, F4. }
    cbn [fst snd]. destruct (c_rateLimiter c) eqn:El; [exists rs; split_and!; done|].
    exists j, now, rs. unfold recorded. rewrite El. split_and!; try done.
    by apply (footprint_weaken 1); [lia|].
  - destruct Hw as (rs & Hi & Hk & Hr & [F1 F2 F3 F4] & Hc & El). cbn [fst snd].
    exists rs, (w_limiter w'), (failed (tn_fault tn)). by split_and!.
  - destruct Hok as [Hj Hs]. destruct Hw as (rs & l & f & Hi & Hk & Hr & [F1 F2 F3 F4] & Hc & Hl & El).
    cbn [fst snd]. exists j, now, rs. unfold recorded. rewrite El. split_and!; try done.
    + apply (footprint_weaken 1); [lia|by split].
    + exists l, f, (failed (tn_fault tn)), now. split; [done|]. cbn [with_limiter w_limiter].
      rewrite Hl. unfold pid_of. by rewrite (job_of_params p j Hj).
  - done.
Qed.

Lemma run_alone_written p tns w :
  pc_ok p (run_alone c tns (PcStart p) w).1 /\
  written p w (run_alone c tns (PcStart p) w).1 (run_alone c tns (PcStart p) w).2.
Proof.
  induction tns as [|tn tns [Hok Hw]] using rev_ind; [done|]. rewrite run_alone_snoc.
  split; [by apply turn_ok|by apply turn_written].
Qed.

End Facts.
