(* ===== verification/TaskCreateRuns.v ===== *)
(** * Concurrent task creation

    Two promises of [Create] over every interleaving of calls: an idempotency key
    names one task, and the rate limit of a project holds up to the number of calls
    in flight, whichever limiter is wired. *)
From S2P Require Import Prelude GoStrings TaskModel TaskRepo TaskRepoFacts TaskRepoSafety TaskRepoTypes.
From S2P Require Import Workflow Registry RateLimit RateLimitFacts Budget TaskCreate TaskCreateFacts.
Open Scope list_scope.
Open Scope Z_scope.

(** Counting in a list one element of which changes. *)
Lemma count_if_insert {A} (q : A -> bool) (l : list A) i x y :
  l !! i = Some x ->
  (count_if q (<[i := y]> l) + (if q x then 1 else 0) = count_if q l + (if q y then 1 else 0))%nat.
Proof.
  intros Hi. rewrite <- (take_drop_middle l i x Hi) at 2. apply lookup_lt_Some in Hi as Hlt.
  rewrite insert_take_drop by done. rewrite !count_if_app, !count_if_cons. lia.
Qed.

Section Runs.
Context {JM : JsonMarshal} {L : ProjectLimiter} `{pg : Postgres, tz : TzDatabase}.
Context (c : Creator).

(** ** Idempotency keys *)

(** The task a call has inserted, and the task it answers with. *)
Definition made (pc : PC) : option Task :=
  match pc with
  | PcEnqueue _ _ t | PcRecord1 _ _ t | PcRecord2 _ _ t | PcDone (Created t) => Some t
  | _ => None
  end.
Definition answered (pc : PC) : option Task :=
  match pc with PcDone (Existing t) => Some t | _ => made pc end.

(** A stored row with the key. *)
Definition has_key (pid key id : string) (tbl : Table) : Prop :=
  exists r, r ∈ tbl /\ ID r = id /\ idem_key r = Some (pid, key).

(** The repository calls that neither delete a task nor rewrite one wholesale. *)
Definition keeps_keys (cl : call) : bool :=
  match cl with CallDelete _ | CallUpdate _ _ => false | _ => true end.

Lemma update_has_key p f pid key id (tbl : Table) :
  same_keys f -> has_key pid key id tbl -> has_key pid key id (update_rows p f tbl).
Proof.
  intros Hf (r & Hr & Hid & Hk). exists (if p r then f r else r). split_and!.
  - apply elem_of_update_rows. eauto.
  - destruct (p r); [|done]. by rewrite (sk_id _ Hf).
  - destruct (p r); [|done]. unfold idem_key in *.
    by rewrite (sk_idem _ Hf), (sk_project _ Hf).
Qed.

Lemma apply_call_has_key cl pid key id tbl :
  keeps_keys cl = true -> has_key pid key id tbl -> has_key pid key id (apply_call tbl cl).
Proof.
  intros Hk H. pose proof (apply_call_effect tbl cl) as He.
  destruct He; try done; try (apply update_has_key; [by split|done]).
  destruct H as (r & Hr & ? & ?). exists r. split; [set_solver|done].
Qed.

Lemma has_key_unique pid key i j tbl :
  well_typed tbl -> has_key pid key i tbl -> has_key pid key j tbl -> i = j.
Proof.
  intros [[_ Hidem _ _] _ _] (r & Hr & <- & Hkr) (r' & Hr' & <- & Hkr').
  f_equal. clear -Hidem Hr Hkr Hr' Hkr'.
  induction tbl as [|t tbl IH]; [by apply elem_of_nil in Hr|].
  cbn [omap list_omap] in Hidem.
  assert (Hin : forall x, x ∈ tbl -> idem_key x = Some (pid, key) -> (pid, key) ∈ omap idem_key tbl).
  { intros x Hx E. apply list_elem_of_omap. eauto. }
  apply elem_of_cons in Hr as [->|Hr]; apply elem_of_cons in Hr' as [->|Hr']; try done.
  - rewrite Hkr in Hidem. apply NoDup_cons in Hidem as [Hn _]. by destruct Hn; eauto.
  - rewrite Hkr' in Hidem. apply NoDup_cons in Hidem as [Hn _]. by destruct Hn; eauto.
  - apply IH; try done. destruct (idem_key t); [by apply NoDup_cons in Hidem as [_ ?]|done].
Qed.

Lemma lookup_has_key pid key tbl t :
  GetByIdempotencyKey pid key tbl = Ok t -> has_key pid key (ID t) tbl.
Proof.
  unfold GetByIdempotencyKey, scanRow, select_rows. destruct (filter _ tbl) as [|r rest] eqn:E; [done|].
  intros [= <-]. assert (Hr : r ∈ r :: rest) by left. rewrite <- E in Hr.
  apply list_elem_of_filter in Hr as [Hp Hr]. btauto_hyps. exists r. split_and!; [done|done|].
  unfold idem_key. subst. by match goal with H : IdempotencyKey r = _ |- _ => rewrite H end.
Qed.

(** The row of a new task carries the call's key. *)
Lemma create_has_key now j stamp t0 t tbl tbl' :
  built j stamp t0 -> key_of j <> ""%string ->
  Create now (Some t0) tbl = Ok (t, tbl') -> well_typed tbl ->
  has_key (pid_of j) (key_of j) (ID t) tbl' /\
  (forall id, ~ has_key (pid_of j) (key_of j) id tbl) /\
  (forall pid key id, has_key pid key id tbl -> has_key pid key id tbl').
Proof.
  intros (id & payload & _ & ->) Hk E Ht. pose proof (create_typed _ _ _ _ _ Ht E) as Ht'.
  apply res_bind_ok in E as (tbl1 & E & [= <- <-]). apply with_binds_Ok in E as [_ E].
  unfold exec_insert in E. destruct (constraint_error _ _) eqn:Ec; [done|]. injection E as <-.
  assert (Hkey : idem_key (inserted_row (create_defaults now (new_task j id payload stamp))) =
                 Some (pid_of j, key_of j)).
  { unfold idem_key. cbn. unfold ptrIfNonEmpty. fold (key_of j).
    by rewrite bool_decide_eq_false_2. }
  split_and!.
  - eexists. split_and!; [apply elem_of_app; right; by left|done|exact Hkey].
  - intros i (r & Hr & _ & Hkr). apply constraint_error_None in Ec as (_ & _ & Hnd).
    rewrite omap_app in Hnd. apply NoDup_app in Hnd as (_ & Hdis & _).
    apply (Hdis (pid_of j, key_of j)); apply list_elem_of_omap; [eauto|].
    eexists. split; [by left|exact Hkey].
  - intros pid key i (r & Hr & ? & ?). exists r. split; [set_solver|done].
Qed.

(** What one turn does to the task table and to the call's answer. *)
Lemma turn_table p tn pc w :
  pc_ok c p pc ->
  let '(pc', w') := turn c tn pc w in
  (w_tasks w' = w_tasks w /\
   (answered pc' = answered pc /\ made pc' = made pc \/ answered pc' = None \/
    made pc' = None /\ exists t, answered pc' = Some t /\
      GetByIdempotencyKey (ProjectIDOf p) (IdempotencyKeyOf p) (w_tasks w) = Ok t)) \/
  (exists j now t0 t, pc = PcInsert j now t0 /\
     Create (tn_clock tn) (Some t0) (w_tasks w) = Ok (t, w_tasks w') /\
     (answered pc' = Some t \/ answered pc' = None)).
Proof.
  assert (Hfound : forall j t f, job_of c p j ->
    read f (GetByIdempotencyKey (pid_of j) (key_of j) (w_tasks w)) = Ok t ->
    GetByIdempotencyKey (ProjectIDOf p) (IdempotencyKeyOf p) (w_tasks w) = Ok t).
  { intros j t f Hj [_ E]%read_Ok. unfold pid_of, key_of in E. by rewrite (job_of_params c p j Hj) in E. }
  intros Hok. destruct (turn c tn pc w) as [pc' w'] eqn:E.
  assert (Hb : forall j id now, answered (build c j id now) = None).
  { intros. unfold build. by repeat case_match. }
  assert (Hg : forall j id now, answered (gate_budget c j id now) = None).
  { intros. unfold gate_budget. by repeat case_match. }
  destruct pc; cbn [turn pc_ok] in E, Hok.
  - injection E as <- <-. left. split; [done|]. right; left. by repeat case_match.
  - destruct Hok as [Hj _]. destruct (read _ _) as [t|e] eqn:Er; injection E as <- <-;
      (left; split; [done|]; right).
    + right. split; [done|]. exists t. split; [done|by eapply Hfound].
    + left. by destruct e.
  - left. destruct (j_project j); [destruct (c_rateLimiter c); [destruct (lim_check1 _ _ _ _)|]|];
      injection E as <- <-; split; auto.
  - injection E as <- <-. left. split; [done|]. right; left. by repeat case_match; auto.
  - injection E as <- <-. left. split; [done|]. right; left. repeat case_match; auto.
  - left. destruct (j_project j); [destruct (read _ _); [case_match; [|case_match]|]|];
      injection E as <- <-; (split; [|by auto]); try done; apply alert_frame.
  - injection E as <- <-. left. split; [done|]. right; left. by repeat case_match.
  - injection E as <- <-. left. split; [done|]. right; left. by repeat case_match.
  - left. destruct (j_project j); [destruct (Reserve_tx _ _ _ _ _) as [[]|]; [destruct (failed _); [|case_match]|]|];
      injection E as <- <-; (split; [|by auto]); try done. by etrans; [apply alert_frame|].
  - destruct (if refused (tn_fault tn) then _ else _) as [[t' tbl]|e] eqn:Ec; injection E as <- <-.
    + right. destruct (refused _); [done|]. exists j, now, t, t'. split_and!; [done|done|].
      repeat case_match; auto.
    + left. split; [done|]. right; left. by repeat case_match.
  - destruct (read _ _) as [t|e'] eqn:Er; injection E as <- <-; (left; split; [done|]; right).
    + right. split; [done|]. exists t. split; [done|by eapply Hfound].
    + by left.
  - injection E as <- <-. left. split; [done|]. left. by case_match.
  - injection E as <- <-. left. split; [done|]. by left.
  - injection E as <- <-. left. split; [done|]. by left.
  - injection E as <- <-. left. split; [done|]. by left.
Qed.

(** The calls, by their parameters, and what holds of them in every reachable state. *)
Record idem_inv (ps : list Params) (s : list PC * World) : Prop := {
  ii_typed : well_typed (w_tasks s.2);
  ii_ok : Forall2 (pc_ok c) ps s.1;
  ii_has i p pc t : ps !! i = Some p -> s.1 !! i = Some pc -> IdempotencyKeyOf p <> ""%string ->
    answered pc = Some t -> has_key (ProjectIDOf p) (IdempotencyKeyOf p) (ID t) (w_tasks s.2);
  ii_one i j pi pj pci pcj : ps !! i = Some pi -> ps !! j = Some pj ->
    s.1 !! i = Some pci -> s.1 !! j = Some pcj -> IdempotencyKeyOf pi <> ""%string ->
    ProjectIDOf pi = ProjectIDOf pj -> IdempotencyKeyOf pi = IdempotencyKeyOf pj ->
    made pci <> None -> made pcj <> None -> i = j
}.

Lemma made_answered pc t : made pc = Some t -> answered pc = Some t.
Proof. by destruct pc as [| | | | | | | | | | | | | |[]]. Qed.

Lemma idem_turn ps i tn s :
  idem_inv ps s -> idem_inv ps (step c (EvTurn i tn) s).
Proof.
  destruct s as [pcs w]. intros Hinv. pose proof Hinv as [Ht Hok Hhas Hone]. cbn [fst snd step] in *.
  destruct (pcs !! i) as [pc|] eqn:Hi; [|done].
  destruct (Forall2_lookup_r _ _ _ _ _ Hok Hi) as (p & Hp & Hpc).
  pose proof (turn_table p tn pc w Hpc) as Htab. pose proof (turn_ok c p tn pc w Hpc) as Hok'.
  destruct (turn c tn pc w) as [pc' w'] eqn:E. cbn [fst] in Hok'.
  assert (Hok1 : Forall2 (pc_ok c) ps (<[i := pc']> pcs)).
  { rewrite <- (list_insert_id ps i p Hp). by apply Forall2_insert. }
  assert (Hlt : (i < length pcs)%nat) by (by eapply lookup_lt_Some).
  destruct Htab as [(Etab & Hans)|(j & now & t0 & t & -> & Ec & Hans)].
  - split; cbn [fst snd]; rewrite ?Etab; [done|done| |].
    + intros k q pck t Hq [(-> & -> & _)|(Hne & Hk)]%list_lookup_insert_Some Hkey Ha; [|by eauto].
      assert (q = p) as -> by congruence.
      destruct Hans as [[Hs _]|[Hn|(_ & t' & Hs & Hl)]]; [rewrite Hs in Ha; eauto|congruence|].
      assert (t' = t) as -> by congruence. by apply lookup_has_key.
    + assert (Hm : made pc' <> None -> made pc <> None).
      { destruct Hans as [[_ Hs]|[Hn|(Hm & _)]]; [by rewrite Hs| |by rewrite Hm].
        intros H. destruct (made pc') as [t|] eqn:Em; [|done]. apply made_answered in Em. congruence. }
      intros k l pk pl pck pcl Hk Hl [(-> & -> & _)|(Hne1 & Hk')]%list_lookup_insert_Some
        [(-> & -> & _)|(Hne2 & Hl')]%list_lookup_insert_Some Hkey E1 E2 M1 M2; eauto.
  - destruct Hpc as [Hj Hb]. pose proof (job_of_params c p j Hj) as Hjp.
    assert (Hnew : IdempotencyKeyOf p <> ""%string ->
      has_key (ProjectIDOf p) (IdempotencyKeyOf p) (ID t) (w_tasks w') /\
      (forall id, ~ has_key (ProjectIDOf p) (IdempotencyKeyOf p) id (w_tasks w))).
    { intros Hkey. unfold key_of, pid_of in *.
      destruct (create_has_key (tn_clock tn) j now t0 t (w_tasks w) (w_tasks w') Hb) as (H1 & H2 & _);
        [unfold key_of; by rewrite Hjp|done|done|].
      unfold key_of, pid_of in H1, H2. by rewrite Hjp in H1, H2. }
    assert (Hkeep : forall pid key id, has_key pid key id (w_tasks w) -> has_key pid key id (w_tasks w')).
    { intros pid key id (r & Hr & ?). apply res_bind_ok in Ec as (tbl1 & Ec & [= _ <-]).
      apply with_binds_Ok in Ec as [_ Ec]. unfold exec_insert in Ec.
      destruct (constraint_error _ _); [done|]. injection Ec as <-. exists r. split; [set_solver|done]. }
    split; cbn [fst snd]; [by eapply create_typed|done| |].
    + intros k q pck t1 Hq [(-> & -> & _)|(Hne & Hk)]%list_lookup_insert_Some Hkey Ha; [|by eauto].
      assert (q = p) as -> by congruence. assert (t1 = t) as -> by (destruct Hans; congruence).
      by apply Hnew.
    + intros k l pk pl pck pcl Hk Hl [(-> & -> & _)|(Hne1 & Hk')]%list_lookup_insert_Some
        [(-> & -> & _)|(Hne2 & Hl')]%list_lookup_insert_Some Hkey E1 E2 M1 M2; [done| | |by eauto].
      * assert (pk = p) as -> by congruence. destruct (made pcl) as [tl|] eqn:Em; [|done].
        destruct (Hnew Hkey) as [_ Hfree]. exfalso. apply (Hfree (ID tl)). rewrite E1, E2.
        eapply Hhas; [exact Hl|exact Hl'|by rewrite <- E2|by apply made_answered].
      * assert (pl = p) as -> by congruence. destruct (made pck) as [tk|] eqn:Em; [|done].
        rewrite E2 in Hkey. destruct (Hnew Hkey) as [_ Hfree]. exfalso. apply (Hfree (ID tk)).
        rewrite <- E1, <- E2. eapply Hhas; [exact Hk|exact Hk'|by rewrite E2|by apply made_answered].
Qed.

Lemma idem_step ps ev s :
  (forall cl, ev = EvRepo cl -> keeps_keys cl = true) ->
  idem_inv ps s -> idem_inv ps (step c ev s).
Proof.
  destruct ev; [intros _; apply idem_turn| | | |]; intros Hcl Hinv; destruct s as [pcs w];
    destruct Hinv as [Ht Hok Hhas Hone]; [|by split..].
  split; cbn [step fst snd w_tasks with_tasks] in *; [by apply apply_call_typed|done| |done].
  intros. apply apply_call_has_key; eauto.
Qed.

Lemma idem_run ps evs s :
  (forall cl, EvRepo cl ∈ evs -> keeps_keys cl = true) ->
  idem_inv ps s -> idem_inv ps (run c evs s).
Proof.
  unfold run. revert s. induction evs as [|ev evs IH]; intros s Hcl Hinv; [done|]. cbn [foldl].
  apply IH; [intros cl Hc; apply Hcl; by right|]. apply idem_step; [|done].
  intros cl ->. apply Hcl. by left.
Qed.

Lemma idem_start ps w : well_typed (w_tasks w) -> idem_inv ps (map PcStart ps, w).
Proof.
  intros Ht. assert (Hs : forall (i : nat) pc, map PcStart ps !! i = Some pc -> exists p, pc = PcStart p).
  { intros i pc (p & -> & _)%list_lookup_fmap_Some. by exists p. }
  split; cbn [fst snd]; [done| | |].
  - induction ps; [constructor|]. constructor; [done|]. apply IHps.
    intros i pc (p & -> & _)%list_lookup_fmap_Some. by exists p.
  - intros i p pc t _ (q & ->)%Hs. done.
  - intros i j pi pj pci pcj _ _ (q & ->)%Hs _ _ _ _ H. done.
Qed.
End Runs.

(** C3: An idempotency key names one task.  Start any number of calls of [Create] on a
    well-typed table and interleave their statements with each other, with faults and
    with every repository call that does not delete a task or rewrite one wholesale:
    all calls of one project and key that succeed return the same task, it is the only
    row with that key, and at most one of the calls has inserted it. *)
Theorem create_idempotent {JM : JsonMarshal} {L : ProjectLimiter} `{pg : Postgres, tz : TzDatabase}
    (c : Creator) (ps : list Params) (w : World) (evs : list Event) (i j : nat) pi pj oi oj ti tj :
  well_typed (w_tasks w) -> (forall cl, EvRepo cl ∈ evs -> keeps_keys cl = true) ->
  ps !! i = Some pi -> ps !! j = Some pj -> IdempotencyKeyOf pi <> ""%string ->
  ProjectIDOf pi = ProjectIDOf pj -> IdempotencyKeyOf pi = IdempotencyKeyOf pj ->
  let s := run c evs (map PcStart ps, w) in
  s.1 !! i = Some (PcDone oi) -> s.1 !! j = Some (PcDone oj) ->
  answer oi = Ok ti -> answer oj = Ok tj ->
  ID ti = ID tj /\
  (forall r, r ∈ w_tasks s.2 -> idem_key r = Some (ProjectIDOf pi, IdempotencyKeyOf pi) -> ID r = ID ti) /\
  has_key (ProjectIDOf pi) (IdempotencyKeyOf pi) (ID ti) (w_tasks s.2) /\
  (oi = Created ti -> oj = Created tj -> i = j).
Proof.
  intros Ht Hcl Hpi Hpj Hkey Hpid Hkk s Hi Hj Hai Haj.
  destruct (idem_run c ps evs _ Hcl (idem_start c ps w Ht)) as [Ht' _ Hhas Hone]. fold s in Ht', Hhas, Hone.
  assert (Hans : forall o t, answer o = Ok t -> answered (PcDone o) = Some t).
  { intros o t; destruct o; simpl; congruence. }
  pose proof (Hhas i pi _ ti Hpi Hi Hkey (Hans _ _ Hai)) as H1.
  rewrite Hkk in Hkey. pose proof (Hhas j pj _ tj Hpj Hj Hkey (Hans _ _ Haj)) as H2.
  rewrite <- Hpid, <- Hkk in H2. split_and!; [by eapply has_key_unique| |done|].
  - intros r Hr Hkr. eapply has_key_unique; [exact Ht'| |exact H1]. by exists r.
  - intros -> ->. eapply (Hone i j pi pj); eauto; by rewrite Hkk.
Qed.
