(* ===== verification/TaskCreateRate.v ===== *)
(** * The rate limit of a project holds

    Over every interleaving of fault-free calls of [Create] under a clock that does not
    go back, the tasks of a project that its limiter still counts never exceed the cap
    by more than the calls in flight. *)
From S2P Require Import Prelude TaskModel TaskRepo TaskRepoFacts TaskRepoSafety TaskRepoTypes.
From S2P Require Import Workflow Registry RateLimit RateLimitFacts Budget.
From S2P Require Import TaskCreate TaskCreateFacts TaskCreateRuns.
Open Scope list_scope.
Open Scope Z_scope.

Section Rate.
Context {JM : JsonMarshal} {L : ProjectLimiter} `{pg : Postgres, tz : TzDatabase}.
Context {LL : ProjectLimiterLaws L}.
Context (c : Creator) (reg : Registry) (pid : string) (proj : Project) (d : Dim).

Definition cap : Z := cap_of d (p_RateLimit proj).

(** The creator checks a limiter and the project has a cap. *)
Record limited : Prop := {
  li_limiter : c_rateLimiter c = true;
  li_registry : c_registry c = Some reg;
  li_project : GetProject pid reg = Some proj;
  li_id : p_ID proj = pid;
  li_ids q p : GetProject q reg = Some p -> p_ID p = q;
  li_cap : 0 < cap
}.

Definition on (j : Job) : bool := pid_of j =?? pid.

(** A call of the project between its check and its last statement. *)
Definition in_flight (pc : PC) : bool :=
  match pc with
  | PcCheck2 j _ _ | PcDaily j _ | PcMonthly j _ _ | PcReserveDaily j _ _
  | PcReserveMonthly j _ _ _ | PcReserveTx j _ _ _ _ | PcInsert j _ _ | PcRelookup j _
  | PcEnqueue j _ _ | PcRecord1 j _ _ | PcRecord2 j _ _ => on j
  | _ => false
  end.

(** A call of the project whose count has been compared with the cap and whose event
    the limiter does not count yet. *)
Definition pending (pc : PC) : bool :=
  match pc with
  | PcCheck2 j _ obs => on j && lim_verified proj d obs
  | PcDaily j _ | PcMonthly j _ _ | PcReserveDaily j _ _ | PcReserveMonthly j _ _ _
  | PcReserveTx j _ _ _ _ | PcInsert j _ _ | PcRelookup j _ | PcEnqueue j _ _
  | PcRecord1 j _ _ => on j
  | PcRecord2 j _ _ => on j && negb (lim_writes1 d)
  | _ => false
  end.

Definition live (now : time) (t : Task) : bool :=
  (ProjectID t =?? pid) && lim_live d (CreatedAt t) now.

(** A task whose event the limiter has counted and still counts at [now]. *)
Definition counted (now : time) (pc : PC) : bool :=
  match pc with
  | PcRecord2 _ _ t => live now t && lim_writes1 d
  | PcDone (Created t) => live now t
  | _ => false
  end.

(** A task the calls have inserted, recorded or not, that counts at [now]. *)
Definition made_live (now : time) (pc : PC) : bool :=
  match made pc with Some t => live now t | None => false end.

(** The call's reading of the clock. *)
Definition stamp (pc : PC) : option time :=
  match pc with
  | PcCheck2 _ now _ | PcDaily _ now | PcMonthly _ now _ | PcReserveDaily _ now _
  | PcReserveMonthly _ now _ _ | PcReserveTx _ now _ _ _ | PcInsert _ now _
  | PcEnqueue _ now _ | PcRecord1 _ now _ | PcRecord2 _ now _ => Some now
  | _ => None
  end.

(** The clock readings of a fault-free schedule that starts at [T], and the last one. *)
Fixpoint clocked (T : time) (evs : list Event) : Prop :=
  match evs with
  | [] => True
  | EvTurn _ tn :: evs => T <= tn_clock tn /\ tn_fault tn = NoFault /\ clocked (tn_clock tn) evs
  | _ :: evs => clocked T evs
  end.
Fixpoint last_clock (T : time) (evs : list Event) : time :=
  match evs with
  | [] => T
  | EvTurn _ tn :: evs => last_clock (tn_clock tn) evs
  | _ :: evs => last_clock T evs
  end.

(** At most [K] calls of the project are ever in flight together. *)
Fixpoint crowd (K : nat) (evs : list Event) (s : list PC * World) : Prop :=
  (count_if in_flight s.1 <= K)%nat /\
  match evs with [] => True | ev :: evs => crowd K evs (step c ev s) end.

(** ** The project of a call *)

Lemma validate_project order p j :
  limited -> validate c order p = Ok j ->
  exists q, j_project j = Some q /\ GetProject (pid_of j) reg = Some q /\ pid_of j <> ""%string.
Proof.
  intros Hl H. pose proof (validate_params c order p j H) as Hp. unfold pid_of. rewrite Hp.
  unfold validate in H. rewrite (li_registry Hl) in H.
  destruct (negb _); [done|]. case_bool_decide as E1; [done|]. case_bool_decide; [done|].
  apply res_bind_ok in H as (o & Ho & H). apply res_bind_ok in H as (_ & _ & H). injection H as <-.
  destruct (GetProject _ _) as [q|] eqn:Eq; [|done]. injection Ho as <-. by exists q.
Qed.

Lemma job_project p j :
  limited -> job_of c p j ->
  exists q, j_project j = Some q /\ p_ID q = pid_of j /\ pid_of j <> ""%string /\
    (on j = true -> q = proj).
Proof.
  intros Hl [order H]. destruct (validate_project _ _ _ Hl H) as (q & H1 & H2 & H3).
  exists q. split_and!; [done|by apply (li_ids Hl)|done|]. unfold on. intros E. btauto_hyps.
  pose proof (li_project Hl). congruence.
Qed.

(** A call past its check and before its insert, or failed, is or was pending. *)
Lemma build_pending j id now :
  (pending (build c j id now) = true -> on j = true) /\
  (forall n, counted n (build c j id now) = false) /\ made (build c j id now) = None.
Proof. unfold build. by repeat case_match. Qed.

Lemma gate_pending j id now :
  (pending (gate_budget c j id now) = true -> on j = true) /\
  (forall n, counted n (gate_budget c j id now) = false) /\ made (gate_budget c j id now) = None.
Proof. unfold gate_budget. pose proof (build_pending j id now). by repeat case_match. Qed.

(** ** One turn *)

Definition obs_ok (pc : PC) : Prop :=
  match pc with
  | PcCheck2 j _ obs => forall q, j_project j = Some q -> lim_obs_ok q obs
  | _ => True
  end.
Definition stamped (T : time) (pc : PC) : Prop :=
  forall now, stamp pc = Some now -> zeroTime < now <= T.

(** What a turn at clock [T] that takes [pc] and [l] to [pc'] and [l'] may do: the
    limiter's count and the pending calls grow only by an admission, which found the
    count below the cap, and the counted tasks grow only with the limiter's count. *)
Record rate_turn (T : time) (pc pc' : PC) (l l' : limiter) : Prop := {
  rt_obs : obs_ok pc';
  rt_stamp : stamped T pc';
  rt_lim : lim_ok l';
  rt_bound :
    lim_count d pid T l' + Z.b2z (pending pc') <= lim_count d pid T l + Z.b2z (pending pc) \/
    lim_count d pid T l' < cap;
  rt_counted now : T <= now -> lim_count d pid now l < maxInt32 ->
    lim_count d pid now l + Z.b2z (counted now pc') <= lim_count d pid now l' + Z.b2z (counted now pc)
}.

(** A turn that leaves the limiter alone. *)
Lemma rate_turn_same T pc pc' l :
  lim_ok l -> obs_ok pc' -> stamped T pc' -> (pending pc' = true -> pending pc = true) ->
  (forall now, counted now pc' = true -> counted now pc = true) -> rate_turn T pc pc' l l.
Proof.
  intros Hl Ho Hs Hp Hc. split; [done..|left|].
  - destruct (pending pc'); [rewrite Hp by done|destruct (pending pc)]; simpl; lia.
  - intros now _ _. specialize (Hc now). destruct (counted now pc'); [rewrite Hc by done; lia|].
    destruct (counted now pc); simpl; lia.
Qed.

Lemma stamped_none T pc : stamp pc = None -> stamped T pc.
Proof. intros H now. by rewrite H. Qed.

Lemma build_frame T j id now :
  zeroTime < now <= T -> stamped T (build c j id now) /\ obs_ok (build c j id now).
Proof.
  intros H. unfold build.
  repeat case_match; (split; [|done]); try (by apply stamped_none); intros n [= <-]; done.
Qed.

Lemma gate_frame T j id now :
  zeroTime < now <= T -> stamped T (gate_budget c j id now) /\ obs_ok (gate_budget c j id now).
Proof.
  intros H. unfold gate_budget. pose proof (build_frame T j id now H).
  repeat case_match; try done. split; [|done]. by intros n [= <-].
Qed.

Lemma stored_live T j now t :
  stored j now t -> zeroTime < now <= T -> ProjectID t = pid_of j /\ CreatedAt t = now.
Proof.
  intros (t0 & clock & (id & payload & _ & ->) & ->) Hn. split; [done|]. cbn.
  by rewrite (proj2 (Z.eqb_neq now zeroTime)) by lia.
Qed.

Section Turn.
Context (Hlim : limited) (T : time) (HT : zeroTime < T).

Lemma rate_check1 p tn j w :
  tn_fault tn = NoFault -> tn_clock tn = T -> job_of c p j -> lim_ok (w_limiter w) ->
  rate_turn T (PcCheck1 j) (turn c tn (PcCheck1 j) w).1 (w_limiter w)
    (w_limiter (turn c tn (PcCheck1 j) w).2).
Proof.
  intros Hf HTn Hj Hl. cbn [turn]. destruct (job_project p j Hlim Hj) as (q & Eq & Hid & _ & Hon).
  rewrite Eq, (li_limiter Hlim), Hf, HTn. cbn [failed].
  pose proof (lim_check1_ok false q T (w_limiter w) Hl) as Hl'.
  pose proof (lim_check1_obs q T (w_limiter w)) as Ho.
  pose proof (fun now => lim_check1_keeps false q T (w_limiter w) d pid now) as Hk.
  pose proof (lim_check1_verified q T (w_limiter w) d) as Hv.
  destruct (lim_check1 false q T (w_limiter w)) as [obs l]. cbn [fst snd with_limiter w_limiter] in *.
  split; cbn [obs_ok stamped stamp pending counted].
  - intros q' Hq'. congruence.
  - intros n [= <-]. lia.
  - done.
  - rewrite (Hk T) by lia. destruct (on j) eqn:Eon; simpl; [|left; lia].
    specialize (Hon eq_refl). subst q. destruct (lim_verified proj d obs); simpl; [right|left; lia].
    rewrite <- (li_id Hlim). by apply Hv; [|apply (li_cap Hlim)].
  - intros now Hn _. rewrite (Hk now) by lia. simpl. lia.
Qed.

Lemma rate_check2 p tn j now obs w :
  tn_fault tn = NoFault -> job_of c p j -> lim_ok (w_limiter w) ->
  obs_ok (PcCheck2 j now obs) -> stamped T (PcCheck2 j now obs) ->
  rate_turn T (PcCheck2 j now obs) (turn c tn (PcCheck2 j now obs) w).1 (w_limiter w)
    (w_limiter (turn c tn (PcCheck2 j now obs) w).2).
Proof.
  intros Hf Hj Hl Ho Hs. cbn [turn fst snd]. specialize (Hs now eq_refl) as Hnow.
  destruct (job_project p j Hlim Hj) as (q & Eq & Hid & _ & Hon). specialize (Ho q Eq).
  rewrite Eq, Hf. cbn [failed].
  destruct (rl_Blocked _) eqn:Eb; [by apply rate_turn_same; try done; apply stamped_none|].
  destruct (gate_frame T j (tn_id tn) now Hnow) as [Hs' Ho'].
  destruct (gate_pending j (tn_id tn) now) as (Hp & Hc & _).
  split; [done..| |intros n _ _; rewrite Hc; simpl; lia].
  destruct (pending (gate_budget _ _ _ _)) eqn:Ep;
    [|left; destruct (pending (PcCheck2 j now obs)); simpl; lia].
  specialize (Hp eq_refl). specialize (Hon Hp). subst q. cbn [pending]. rewrite Hp. cbn [andb].
  destruct (lim_verified proj d obs) eqn:Ev; [left; simpl; lia|right].
  destruct (lim_check2_passed _ _ _ _ d Ho (li_cap Hlim) Eb) as [H|H]; [congruence|].
  rewrite (li_id Hlim) in H. pose proof (lim_decays d pid now T (w_limiter w) Hl).
  unfold cap. lia.
Qed.

Lemma rate_record1 p tn j now t w :
  tn_fault tn = NoFault -> job_of c p j -> stored j now t -> lim_ok (w_limiter w) ->
  stamped T (PcRecord1 j now t) ->
  rate_turn T (PcRecord1 j now t) (PcRecord2 j now t) (w_limiter w)
    (lim_record1 (failed (tn_fault tn)) (pid_of j) now (w_limiter w)).
Proof.
  intros Hf Hj Hst Hl Hs. rewrite Hf. cbn [failed]. specialize (Hs now eq_refl) as Hnow.
  destruct (job_project p j Hlim Hj) as (q & Eq & Hid & Hne & Hon).
  destruct (stored_live T j now t Hst Hnow) as [E1 E2].
  split; [done|by intros n [= <-]|by apply lim_record1_ok| |].
  - left. pose proof (lim_record1_count false (pid_of j) now (w_limiter w) d pid T Hl) as H.
    cbn [pending]. unfold on in *. destruct (lim_writes1 d), (pid_of j =?? pid); simpl in *; lia.
  - intros n Hn Hroom. pose proof (lim_record1_counts (pid_of j) now (w_limiter w) d pid n Hl Hne Hroom) as H.
    cbn [counted]. unfold live. rewrite E1, E2.
    destruct (lim_writes1 d), (pid_of j =?? pid), (lim_live d now n); simpl in *; lia.
Qed.

Lemma rate_record2 p tn j now t w :
  tn_fault tn = NoFault -> job_of c p j -> stored j now t -> lim_ok (w_limiter w) ->
  stamped T (PcRecord2 j now t) ->
  rate_turn T (PcRecord2 j now t) (PcDone (Created t)) (w_limiter w)
    (lim_record2 (failed (tn_fault tn)) (pid_of j) now (w_limiter w)).
Proof.
  intros Hf Hj Hst Hl Hs. rewrite Hf. cbn [failed]. specialize (Hs now eq_refl) as Hnow.
  destruct (job_project p j Hlim Hj) as (q & Eq & Hid & Hne & Hon).
  destruct (stored_live T j now t Hst Hnow) as [E1 E2].
  split; [done|by apply stamped_none|by apply lim_record2_ok| |].
  - left. pose proof (lim_record2_count false (pid_of j) now (w_limiter w) d pid T Hl) as H.
    cbn [pending]. unfold on in *. destruct (lim_writes1 d), (pid_of j =?? pid); simpl in *; lia.
  - intros n Hn Hroom. pose proof (lim_record2_counts (pid_of j) now (w_limiter w) d pid n Hl Hne Hroom) as H.
    cbn [counted]. unfold live. rewrite E1, E2.
    destruct (lim_writes1 d), (pid_of j =?? pid), (lim_live d now n); simpl in *; lia.
Qed.

Lemma alert_limiter q x w : w_limiter (alert c q x w) = w_limiter w.
Proof. apply alert_frame. Qed.

Lemma rate_turn_ok p tn pc w :
  tn_fault tn = NoFault -> tn_clock tn = T -> pc_ok c p pc -> lim_ok (w_limiter w) ->
  obs_ok pc -> stamped T pc ->
  rate_turn T pc (turn c tn pc w).1 (w_limiter w) (w_limiter (turn c tn pc w).2).
Proof.
  intros Hf HTn Hok Hl Ho Hs.
  assert (Hb : forall j now, zeroTime < now <= T -> forall pc0, (on j = true -> pending pc0 = true) ->
    rate_turn T pc0 (build c j (tn_id tn) now) (w_limiter w) (w_limiter w)).
  { intros j now Hn pc0 Hp. destruct (build_frame T j (tn_id tn) now Hn).
    destruct (build_pending j (tn_id tn) now) as (H1 & H2 & _).
    apply rate_turn_same; auto. intros n. by rewrite H2. }
  assert (Hsame : forall pc0 pc', stamped T pc' -> obs_ok pc' -> (pending pc' = true -> pending pc0 = true) ->
    (forall n, counted n pc' = false) -> rate_turn T pc0 pc' (w_limiter w) (w_limiter w)).
  { intros pc0 pc' H1 H2 H3 H4. apply rate_turn_same; auto. intros n. by rewrite H4. }
  assert (Hnone : forall pc0 pc', stamp pc' = None -> pending pc' = false ->
    (forall n, counted n pc' = false) -> rate_turn T pc0 pc' (w_limiter w) (w_limiter w)).
  { intros pc0 pc' H1 H2 H3. apply Hsame; [by apply stamped_none| |by rewrite H2|done].
    by destruct pc'. }
  destruct pc; cbn [pc_ok] in Hok.
  - cbn [turn fst snd]. by apply Hnone; repeat case_match.
  - cbn [turn fst snd]. by apply Hnone; repeat case_match.
  - by eapply rate_check1.
  - by eapply rate_check2.
  - specialize (Hs now eq_refl) as Hn. cbn [turn fst snd].
    destruct (j_project j); [destruct (read _ _)|]; auto.
  - specialize (Hs now eq_refl) as Hn. cbn [turn].
    destruct (j_project j); [destruct (read _ _); [case_match; [|case_match]|]|]; cbn [fst snd];
      rewrite ?alert_limiter; auto.
  - cbn [turn fst snd]. by apply Hsame; repeat case_match.
  - cbn [turn fst snd]. by apply Hsame; repeat case_match.
  - cbn [turn]. destruct (j_project j); [destruct (Reserve_tx _ _ _ _ _) as [[]|]; [destruct (failed _); [|case_match]|]|];
      cbn [fst snd]; rewrite ?alert_limiter; try (by apply Hsame).
  - cbn [turn]. rewrite Hf. cbn [refused failed].
    destruct (Create _ _ _) as [[t' tbl]|e]; cbn [fst snd with_tasks w_limiter].
    + rewrite (li_limiter Hlim). by apply Hsame; case_match.
    + destruct e; try (by apply Hnone). case_match; [by apply Hnone|]. apply Hsame; try done.
  - cbn [turn fst snd]. by apply Hnone; case_match.
  - cbn [turn fst snd with_metrics w_limiter]. rewrite (li_limiter Hlim). by apply Hsame.
  - destruct Hok. cbn [turn fst snd with_limiter w_limiter]. by eapply rate_record1.
  - destruct Hok. cbn [turn fst snd with_limiter w_limiter]. by eapply rate_record2.
  - cbn [turn fst snd]. by apply rate_turn_same; try done.
Qed.
End Turn.

(** ** All calls *)

Record rate_inv (ps : list Params) (K : Z) (T : time) (s : list PC * World) : Prop := {
  ri_ok : Forall2 (pc_ok c) ps s.1;
  ri_frame pc : pc ∈ s.1 -> obs_ok pc /\ stamped T pc;
  ri_lim : lim_ok (w_limiter s.2);
  ri_bound : lim_count d pid T (w_limiter s.2) + Z.of_nat (count_if pending s.1) <= cap + K - 1;
  ri_counted now : T <= now ->
    Z.of_nat (count_if (counted now) s.1) <= lim_count d pid now (w_limiter s.2)
}.

Lemma rate_inv_later ps K T T' s : T <= T' -> rate_inv ps K T s -> rate_inv ps K T' s.
Proof.
  intros HT [H1 H2 H3 H4 H5]. split; [done| |done| |].
  - intros pc Hpc. destruct (H2 pc Hpc) as [Ho Hs]. split; [done|].
    intros now Hn. specialize (Hs now Hn). lia.
  - pose proof (lim_decays d pid T T' (w_limiter s.2) H3). lia.
  - intros now Hn. apply H5. lia.
Qed.

Lemma pending_in_flight pc : pending pc = true -> in_flight pc = true.
Proof. destruct pc; simpl; try done; by intros [? _]%andb_true_iff. Qed.

Lemma rate_step_turn ps K T i tn s :
  limited -> zeroTime < T -> cap + K <= maxInt32 -> tn_fault tn = NoFault -> tn_clock tn = T ->
  Z.of_nat (count_if in_flight (step c (EvTurn i tn) s).1) <= K ->
  rate_inv ps K T s -> rate_inv ps K T (step c (EvTurn i tn) s).
Proof.
  intros Hlim HT Hroom Hf HTn. destruct s as [pcs w]. cbn [step].
  destruct (pcs !! i) as [pc|] eqn:Hi; [|done]. intros HK Hinv. pose proof Hinv as [H1 H2 H3 H4 H5].
  cbn [fst snd] in *. destruct (Forall2_lookup_r _ _ _ _ _ H1 Hi) as (p & Hp & Hpc).
  destruct (H2 pc ltac:(by eapply list_elem_of_lookup_2)) as [Ho Hs].
  pose proof (rate_turn_ok Hlim T HT p tn pc w Hf HTn Hpc H3 Ho Hs) as [R1 R2 R3 R4 R5].
  pose proof (turn_ok c p tn pc w Hpc) as Hpc'.
  destruct (turn c tn pc w) as [pc' w']. cbn [fst snd] in *.
  pose proof (count_if_insert pending pcs i pc pc' Hi) as Cp.
  split; cbn [fst snd].
  - rewrite <- (list_insert_id ps i p Hp). by apply Forall2_insert.
  - intros pc1 Hin. apply list_elem_of_lookup in Hin as [k Hk].
    apply list_lookup_insert_Some in Hk as [(_ & -> & _)|[_ Hk]]; [done|].
    apply H2. by eapply list_elem_of_lookup_2.
  - done.
  - destruct R4 as [R4|R4].
    + destruct (pending pc), (pending pc'); simpl in *; lia.
    + assert (count_if pending (<[i:=pc']> pcs) <= count_if in_flight (<[i:=pc']> pcs))%nat.
      { apply count_if_mono. intros x _. apply pending_in_flight. }
      lia.
  - intros now Hn. pose proof (count_if_insert (counted now) pcs i pc pc' Hi) as Cc.
    specialize (H5 now Hn). pose proof (lim_decays d pid T now _ H3 Hn).
    specialize (R5 now Hn ltac:(lia)).
    destruct (counted now pc), (counted now pc'); simpl in *; lia.
Qed.

Lemma rate_run ps K T evs s :
  limited -> zeroTime < T -> cap + Z.of_nat K <= maxInt32 -> clocked T evs -> crowd K evs s ->
  rate_inv ps (Z.of_nat K) T s -> rate_inv ps (Z.of_nat K) (last_clock T evs) (run c evs s).
Proof.
  intros Hlim HT Hroom. unfold run. revert T HT s.
  induction evs as [|ev evs IH]; intros T HT s Hc Hcr Hinv; [done|]. cbn [foldl].
  destruct Hcr as [_ Hcr].
  assert (Hother : (forall i tn, ev <> EvTurn i tn) -> clocked T evs /\
            last_clock T (ev :: evs) = last_clock T evs /\ rate_inv ps (Z.of_nat K) T (step c ev s)).
  { intros Hne. destruct s as [pcs w]. destruct Hinv as [H1 H2 H3 H4 H5].
    destruct ev; [by destruct (Hne i tn)|..]; (split; [exact Hc|split; [done|by split]]). }
  destruct ev as [i tn| | | |]; [|by destruct Hother as (H1 & -> & H3); [done|]; apply IH..].
  cbn [clocked last_clock] in *. destruct Hc as (HTn & Hf & Hc).
  apply IH; [lia|done|done|].
  apply rate_step_turn; [done|lia|done|done|done| |by apply (rate_inv_later _ _ T)].
  destruct evs; cbn [crowd] in Hcr; destruct Hcr as [Hcr _]; lia.
Qed.

(** Every task of the project that still counts is pending or counted. *)
Lemma made_live_split ps K T s now :
  limited -> zeroTime < T -> T <= now -> rate_inv ps K T s ->
  (count_if (made_live now) s.1 <= count_if (counted now) s.1 + count_if pending s.1)%nat.
Proof.
  intros Hlim HT Hn Hinv.
  assert (H : forall pc, pc ∈ s.1 -> made_live now pc = true -> counted now pc = true \/ pending pc = true).
  { intros pc Hpc. destruct (ri_frame _ _ _ _ Hinv pc Hpc) as [_ Hs].
    apply list_elem_of_lookup in Hpc as [k Hk].
    destruct (Forall2_lookup_r _ _ _ _ _ (ri_ok _ _ _ _ Hinv) Hk) as (p & _ & Hok).
    unfold made_live. destruct pc; cbn [made]; try done; cbn [counted pending]; unfold on.
    - destruct Hok as [Hj Hst]. destruct (stored_live T _ _ _ Hst (Hs _ eq_refl)) as [E _].
      unfold live. rewrite E. intros. btauto_hyps. right. by apply bool_decide_eq_true.
    - destruct Hok as [Hj Hst]. destruct (stored_live T _ _ _ Hst (Hs _ eq_refl)) as [E _].
      unfold live. rewrite E. intros. btauto_hyps. right. by apply bool_decide_eq_true.
    - destruct Hok as [Hj Hst]. destruct (stored_live T _ _ _ Hst (Hs _ eq_refl)) as [E _].
      unfold live. rewrite E. destruct (lim_writes1 d), (pid_of j =?? pid); simpl; rewrite ?andb_true_r; auto.
    - destruct o; auto; done. }
  clear Hinv. induction s.1 as [|pc pcs IH]; [done|]. rewrite !count_if_cons.
  assert (IH' := IH ltac:(intros x Hx; apply H; by right)).
  destruct (made_live now pc) eqn:E; [|lia].
  destruct (H pc ltac:(by left) E) as [->| ->]; lia.
Qed.
End Rate.

(** C5: Whichever limiter is wired, the rate limit of a project holds up to the calls in
    flight.  From a fresh limiter, over every interleaving of fault-free calls of
    [Create] (with each other, with other repository calls, usage and settlements) under
    a clock that does not go back, if at most [K] calls of the project are in flight
    together, then at any later moment at most [cap + K - 1] of the tasks these calls
    have inserted still count against its minute cap, and likewise for its hour cap; one
    call at a time keeps the cap exactly. *)
Theorem created_within_rate {JM : JsonMarshal} {L : ProjectLimiter} `{pg : Postgres, tz : TzDatabase}
    {LL : ProjectLimiterLaws L} (c : Creator) (reg : Registry) (pid : string) (proj : Project)
    (d : Dim) (ps : list Params) (w : World) (evs : list Event) (T now : time) (K : nat) :
  limited c reg pid proj d -> zeroTime < T -> cap proj d + Z.of_nat K <= maxInt32 ->
  lim_ok (w_limiter w) -> (forall t, lim_count d pid t (w_limiter w) = 0) ->
  clocked T evs -> crowd c pid K evs (map PcStart ps, w) -> last_clock T evs <= now ->
  Z.of_nat (count_if (made_live pid d now) (run c evs (map PcStart ps, w)).1) <=
    cap proj d + Z.of_nat K - 1.
Proof.
  intros Hlim HT Hroom Hok Hfresh Hc Hcr Hnow.
  assert (Hcount : forall q : PC -> bool, (forall p, q (PcStart p) = false) ->
            count_if q (map PcStart ps) = 0%nat).
  { intros q Hq. apply count_if_zero. intros x (p & -> & _)%list_elem_of_fmap. apply Hq. }
  assert (Hinv : rate_inv c pid proj d ps (Z.of_nat K) T (map PcStart ps, w)).
  { pose proof (li_cap _ _ _ _ _ Hlim). split; cbn [fst snd]; [|..|done| |].
    - clear. induction ps; constructor; done.
    - intros pc (p & -> & _)%list_elem_of_fmap. split; [done|by apply stamped_none].
    - rewrite Hfresh, Hcount by done. lia.
    - intros n _. rewrite Hfresh, Hcount by done. lia. }
  pose proof (rate_run c reg pid proj d ps K T evs _ Hlim HT Hroom Hc Hcr Hinv) as Hend.
  assert (HT' : T <= last_clock T evs).
  { clear -Hc. revert T Hc. induction evs as [|[] evs IH]; intros T Hc; simpl in *; [lia|..]; auto.
    destruct Hc as (? & _ & Hc). specialize (IH _ Hc). lia. }
  pose proof (rate_inv_later c pid proj d _ _ _ now _ Hnow Hend) as Hn.
  pose proof (made_live_split c reg pid proj d _ _ now _ now Hlim ltac:(lia) ltac:(lia) Hn).
  pose proof (ri_bound _ _ _ _ _ _ _ _ Hn). pose proof (ri_counted _ _ _ _ _ _ _ _ Hn now ltac:(lia)).
  lia.
Qed.
