(* ===== verification/TaskCreateScenarios.v ===== *)
(** * Concrete runs of task creation

    A server, a registry and creators on which the theorems are instantiated, and the
    runs behind two observations: a call that loses the race for an idempotency key
    leaves its reservation behind, and an admission can be late. *)
From S2P Require Import Prelude TaskModel TaskRepo TaskRepoFacts TaskRepoSafety TaskRepoTypes.
From S2P Require Import Workflow StepRetry Registry RateLimit RateLimitFacts Budget Queue.
From S2P Require Import TaskCreate TaskCreateFacts TaskCreateRuns TaskCreateRate.
Open Scope list_scope.
Open Scope Z_scope.

#[export] Instance tz_example : TzDatabase := {| LoadLocation _ := None |}.

(** A JSON encoder for payloads without extra context. *)
Definition encode_value (v : PayloadValue Empty_set) : string :=
  match v with
  | PvString s => GoStrings.quote_go s
  | PvInt z => pretty.pretty z
  | PvRaw b => b
  | PvObject m =>
      match m !! "prompt"%string with
      | Some (inr s) => "{" ++ GoStrings.quote_go "prompt" ++ ":" ++ GoStrings.quote_go s ++ "}"
      | _ => "{}"
      end%string
  end.
#[export] Instance json_example : JsonMarshal := {|
  json_any := Empty_set;
  json_marshal m := Some ("{" ++ String.concat "," (omap (fun k =>
      v ← m !! k; Some (GoStrings.quote_go k ++ ":" ++ encode_value v)%string)
    ["context"; "idempotencyKey"; "priority"; "taskType"; "workflowId"]%string) ++ "}")%string
|}.

(** The project "p": one agent step, one task a minute, two dollars a day. *)
Definition step_example : WorkflowStep :=
  mkStep "agent" "coder" "done" "" [] "" "" "" "" "" "".
Definition workflow_example : Workflow :=
  mkWorkflow "w" "" "code" {["code" := step_example]}%string ∅ false 0 0 false.
Definition usd (n : Z) : float64 := f64_of_Z n.
Definition project_example : Project := {|
  p_ID := "p"; p_SwarmID := "s"; p_DefaultWorkflowID := "w"; p_DefaultPriority := 7;
  p_RateLimit := mkProjectRateLimit 1 0;
  p_Budget := mkProjectBudget f64_zero (usd 2) f64_zero f64_zero "" f64_zero |}.
Definition registry_example : Registry := {|
  reg_projects := {["p" := project_example]}%string;
  reg_swarms := {["s" := mkSwarm "s" [mkRole "coder" "" "" None]]}%string;
  reg_workflows := {["w" := workflow_example]}%string;
  reg_transient := None |}.
Definition creator_example (limiter ledger : bool) : Creator :=
  mkCreator true true limiter (Some registry_example) true ledger true.

Definition params_example (key : string) : Params := {|
  ProjectIDOf := "p"; TaskType := "feature"; Prompt := "say hi"; PriorityOf := 0;
  WorkflowIDOf := ""; IdempotencyKeyOf := key;
  CreationSourceOf := TaskCreationSourceOther ""; ExtraContext := ∅; RawContext := "" |}.

Definition world_example : World (L := in_process_limiter) := {|
  w_tasks := []; w_limiter := ∅; w_usage := []; w_ledger := [];
  w_metrics := Some (mkQueueMetrics ∅ ∅); w_alerts := [] |}.

(** A fault-free turn. *)
Definition ok_turn (clock : time) (id : string) : Turn := mkTurn NoFault clock id ["code"]%string.
Definition noon : time := 12 * Hour.

(** ** A call on its own *)


(** ** Two calls with one key *)

(** The turns of calls [0] and [1] in turn. *)
Definition alternate (clock : time) (n : nat) : list Event :=
  concat (repeat [EvTurn 0 (ok_turn clock "t0"); EvTurn 1 (ok_turn clock "t1")] n).

Abbreviation race :=
  (run (pg := pg_example) (creator_example false true) (alternate noon 13)
    (map PcStart [params_example "k"; params_example "k"], world_example)).

Lemma empty_typed : well_typed (pg := pg_example) [].
Proof. split; [split|..]; try (by intros t ?%elem_of_nil); apply NoDup_nil_2. Qed.

Lemma alternate_keeps cl : EvRepo cl ∈ alternate noon 13 -> keeps_keys cl = true.
Proof.
  unfold alternate. intros Hcl. simpl in Hcl.
  repeat (apply elem_of_cons in Hcl as [Hcl|Hcl]; [discriminate Hcl|]). by apply elem_of_nil in Hcl.
Qed.

Lemma create_idempotent_witness :
  exists o0 o1 t0 t1, race.1 !! 0%nat = Some (PcDone o0) /\ race.1 !! 1%nat = Some (PcDone o1) /\
    answer o0 = Ok t0 /\ answer o1 = Ok t1 /\ ID t0 = ID t1.
Proof.
  assert (H : match race.1 with
              | [PcDone (Created _); PcDone (Existing _)] => true
              | _ => false
              end = true) by by vm_compute.
  destruct race.1 as [|[| | | | | | | | | | | | | |[t0| |]] [|[| | | | | | | | | | | | | |[|t1|]] [|]]] eqn:E;
    try discriminate H.
  exists (Created t0), (Existing t1), t0, t1. split_and!; [done..|].
  apply (create_idempotent (pg := pg_example) (creator_example false true)
    [params_example "k"; params_example "k"] world_example (alternate noon 13) 0 1
    (params_example "k") (params_example "k") (Created t0) (Existing t1) t0 t1);
    [exact empty_typed| |done|done|done|done|done| | |done|done].
  - exact alternate_keeps.
  - rewrite E. reflexivity.
  - rewrite E. reflexivity.
Defined.

(** The call that loses the race for the key has a reservation of its own, for a task
    that will never exist: it counts against the cap until the stale sweep. *)
Example lost_race_leaks_reservation :
  map br_TaskID (w_ledger race.2) = ["t0"; "t1"]%string /\ map ID (w_tasks race.2) = ["t0"]%string /\
  unsettled_sum "p" (w_ledger race.2) = Ok (usd 2).
Proof. by vm_compute. Qed.

(** ** The rate limit with two calls in flight *)

Definition no_key_calls : list Params := [params_example ""; params_example ""].

Abbreviation crowded :=
  (run (pg := pg_example) (creator_example true false) (alternate noon 13)
    (map PcStart no_key_calls, world_example)).

Lemma limited_example :
  limited (creator_example true false) registry_example "p" project_example DimMinute.
Proof.
  split; try reflexivity. intros q p. unfold GetProject, registry_example. cbn [reg_projects].
  intros H. apply lookup_singleton_Some in H as [<- <-]. reflexivity.
Qed.

Lemma alternate_clocked : clocked noon (alternate noon 13).
Proof.
  unfold alternate. simpl. repeat (split; [apply Z.le_refl|split; [reflexivity|]]). exact I.
Qed.

Fixpoint crowdb (K : nat) (evs : list Event) (s : list PC * World (L := in_process_limiter)) : bool :=
  Nat.leb (count_if (in_flight "p") s.1) K &&
  match evs with
  | [] => true
  | ev :: evs => crowdb K evs (step (pg := pg_example) (creator_example true false) ev s)
  end.

Lemma crowdb_crowd K evs s :
  crowdb K evs s = true -> crowd (pg := pg_example) (creator_example true false) "p" K evs s.
Proof.
  revert s. induction evs as [|ev evs IH]; intros s; cbn [crowdb crowd];
    intros [H1%Nat.leb_le H2]%andb_true_iff; auto.
Qed.

(** Both calls check before either records: the bound [cap + K - 1] is reached. *)
Lemma created_within_rate_witness :
  count_if (made_live "p" DimMinute noon) crowded.1 = 2%nat /\
  Z.of_nat (count_if (made_live "p" DimMinute noon) crowded.1) <=
    cap project_example DimMinute + Z.of_nat 2 - 1.
Proof.
  assert (Hcrowd : crowd (pg := pg_example) (creator_example true false) "p" 2 (alternate noon 13)
            (map PcStart no_key_calls, world_example)) by (apply crowdb_crowd; by vm_compute).
  assert (Hroom : cap project_example DimMinute + Z.of_nat 2 <= maxInt32)
    by (vm_compute; discriminate).
  split; [by vm_compute|].
  exact (created_within_rate (pg := pg_example) (creator_example true false) registry_example "p"
    project_example DimMinute no_key_calls world_example (alternate noon 13) noon noon 2
    limited_example eq_refl Hroom I (fun _ => eq_refl) alternate_clocked Hcrowd (Z.le_refl noon)).
Defined.

(** ** A late admission

    A running task holds one dollar of a cap of two.  A second call reads the committed
    sums; then the first task's cost of one and a half dollars is recorded and its
    reservation settled; then the second call's transaction sees neither. *)
Definition running_task_world : World (L := in_process_limiter) := {|
  w_tasks := []; w_limiter := ∅; w_usage := [];
  w_ledger := [mkReservation "r0" "p" "t0" (usd 1) noon None];
  w_metrics := None; w_alerts := [] |}.

Definition one_and_a_half : float64 := SFdiv 53 1024 (usd 3) (usd 2).

Definition late_events : list Event :=
  let call := EvTurn 0 (ok_turn (noon + Hour) "t1") in
  repeat call 6 ++ [EvUsage [mkUsage "p" one_and_a_half (noon + Hour)]; EvSettle "t0" (noon + Hour)] ++
  repeat call 6.

(** The task is admitted although the cost that has landed and its estimate exceed the
    cap; a call that reads the sums afterwards is refused. *)
Example committed_read_can_be_late :
  let c := creator_example false true in
  let s := run (pg := pg_example) c late_events (map PcStart [params_example ""], running_task_world) in
  map ID (w_tasks s.2) = ["t1"]%string /\
  (let! spent := sum_daily (pg := pg_example) project_example (noon + Hour) (w_usage s.2) in
   let! reserved := unsettled_sum "p" (w_ledger s.2) in
   Ok (f64_lt (usd 2) (f64_add spent reserved))) = Ok true /\
  match (run (pg := pg_example) c (repeat (EvTurn 0 (ok_turn (noon + Hour) "t2")) 13)
           (map PcStart [params_example ""], s.2)).1 with
  | [PcDone (Failed e)] => ce_Reason e = ReasonBudgetExceeded
  | _ => False
  end.
Proof. by vm_compute. Qed.
