(* ===== verification/AutonomyGates.v ===== *)
(** * Which autonomous task to suppress

    [src/internal/autonomy/manager.go]: the decisions that [createAutonomousTask] takes
    from the newest tasks of a project (duplicate, failure cooldown, circuit), with the
    normal form and the similarity of prompts, the completion window and the
    idempotency key.  The JSON codec of the payload and SHA-256 are parameters. *)
From Stdlib Require Import Ascii.
From stdpp Require Import pretty.
From S2P Require Import Prelude GoStrings TaskModel TaskRepo Registry RateLimit Budget.
Open Scope string_scope.
Open Scope Z_scope.

(** ** Durations as text

    [time.ParseDuration] of Go's standard library, which reads the durations of a
    project's configuration.  The sum is a [uint64]; a fraction is multiplied out in
    binary64. *)

Definition f64_mul (a b : float64) : float64 := SFmul 53 1024 a b.
Definition f64_div (a b : float64) : float64 := SFdiv 53 1024 a b.

(** [uint64(x)] of a non-negative number below 2^64: the fraction is dropped. *)
Definition f64_trunc (x : float64) : Z :=
  match x with
  | S754_finite false m e => if 0 <=? e then Z.pos m * 2 ^ e else Z.pos m / 2 ^ (- e)
  | _ => 0
  end.

Definition digit (c : ascii) : option Z :=
  let n := Z.of_nat (nat_of_ascii c) in
  if (48 <=? n) && (n <=? 57) then Some (n - 48) else None.

Definition number_byte (c : ascii) : bool := (c =?? "."%char) || is_some (digit c).

(** [leadingInt]: [None] on overflow. *)
Fixpoint leadingInt (x : Z) (s : string) : option (Z * string) :=
  match s with
  | String c rest =>
      match digit c with
      | None => Some (x, s)
      | Some d =>
          if 2 ^ 63 / 10 <? x then None
          else if 2 ^ 63 <? x * 10 + d then None
          else leadingInt (x * 10 + d) rest
      end
  | "" => Some (x, s)
  end.

(** [leadingFraction]: digits past the overflow are read and ignored. *)
Fixpoint leadingFraction (x : Z) (scale : float64) (overflow : bool) (s : string) :
    Z * float64 * string :=
  match s with
  | String c rest =>
      match digit c with
      | None => (x, scale, s)
      | Some d =>
          if overflow || ((2 ^ 63 - 1) / 10 <? x) || (2 ^ 63 <? x * 10 + d)
          then leadingFraction x scale true rest
          else leadingFraction (x * 10 + d) (f64_mul scale (f64_of_Z 10)) false rest
      end
  | "" => (x, scale, s)
  end.

(** The unit, up to the next digit or dot. *)
Fixpoint take_unit (s : string) : string * string :=
  match s with
  | String c rest =>
      if number_byte c then ("", s)
      else let '(u, rest) := take_unit rest in (String c u, rest)
  | "" => ("", "")
  end.

(** The micro sign and the Greek mu, in UTF-8. *)
Definition bytes_of (codes : list nat) : string :=
  foldr (fun n s => String (ascii_of_nat n) s) "" codes.

Definition unitMap (u : string) : option Z :=
  if u =?? "ns" then Some Nanosecond
  else if (u =?? "us") || (u =?? bytes_of [194; 181; 115]%nat) || (u =?? bytes_of [206; 188; 115]%nat)
  then Some Microsecond
  else if u =?? "ms" then Some Millisecond
  else if u =?? "s" then Some Second
  else if u =?? "m" then Some Minute
  else if u =?? "h" then Some Hour
  else None.

(** One number with its unit: its value and the rest of the text. *)
Definition parse_term (s : string) : option (Z * string) :=
  match s with
  | "" => None
  | String c _ =>
      if negb (number_byte c) then None
      else
        match leadingInt 0 s with
        | None => None
        | Some (v, s1) =>
            let pre := negb (Nat.eqb (String.length s) (String.length s1)) in
            let '(f, scale, s2, post) :=
              match s1 with
              | String "." s1' =>
                  let '(f, scale, s2) := leadingFraction 0 (f64_of_Z 1) false s1' in
                  (f, scale, s2, negb (Nat.eqb (String.length s1') (String.length s2)))
              | _ => (0, f64_of_Z 1, s1, false)
              end in
            if negb pre && negb post then None
            else
              let '(u, s3) := take_unit s2 in
              if u =?? "" then None
              else
                match unitMap u with
                | None => None
                | Some unit_ =>
                    if 2 ^ 63 / unit_ <? v then None
                    else
                      let v := v * unit_ in
                      if 0 <? f then
                        let v := v + f64_trunc (f64_mul (f64_of_Z f) (f64_div (f64_of_Z unit_) scale)) in
                        if 2 ^ 63 <? v then None else Some (v, s3)
                      else Some (v, s3)
                end
        end
  end.

(** The loop; every term shortens the text, so its length is enough fuel. *)
Fixpoint parse_terms (fuel : nat) (d : Z) (s : string) : option Z :=
  match fuel, s with
  | _, "" => Some d
  | O, _ => None
  | S fuel, _ =>
      match parse_term s with
      | None => None
      | Some (v, rest) =>
          let d := (d + v) mod 2 ^ 64 in
          if 2 ^ 63 <? d then None else parse_terms fuel d rest
      end
  end.

(** [time.ParseDuration]. *)
Definition ParseDuration (s : string) : option duration :=
  let '(neg, s) :=
    match s with
    | String "-" s' => (true, s')
    | String "+" s' => (false, s')
    | _ => (false, s)
    end in
  if s =?? "0" then Some 0
  else if s =?? "" then None
  else
    match parse_terms (String.length s) 0 s with
    | None => None
    | Some d => if neg then Some (- d) else if 2 ^ 63 - 1 <? d then None else Some d
    end.

Lemma leadingInt_shorter s x v rest :
  leadingInt x s = Some (v, rest) -> (String.length rest <= String.length s)%nat.
Proof.
  revert x. induction s as [|c s IH]; intros x; cbn [leadingInt String.length]; [by intros [= _ <-]|].
  destruct (digit c); [|intros [= _ <-]; cbn [String.length]; lia].
  destruct (_ <? x); [done|]. destruct (_ <? _); [done|]. intros H%IH. lia.
Qed.

Lemma leadingFraction_shorter s x scale o f scale' rest :
  leadingFraction x scale o s = (f, scale', rest) -> (String.length rest <= String.length s)%nat.
Proof.
  revert x scale o. induction s as [|c s IH]; intros x scale o; cbn [leadingFraction String.length];
    [by intros [= _ _ <-]|].
  destruct (digit c); [|intros [= _ _ <-]; cbn [String.length]; lia].
  case_match; intros E%IH; lia.
Qed.

Lemma take_unit_length s : String.length s = (String.length (take_unit s).1 + String.length (take_unit s).2)%nat.
Proof.
  induction s as [|c s IH]; [done|]. cbn [take_unit]. destruct (number_byte c); [done|].
  destruct (take_unit s) as [u rest]. cbn [fst snd String.length] in *. lia.
Qed.

Lemma parse_term_shorter s v rest : parse_term s = Some (v, rest) -> (String.length rest < String.length s)%nat.
Proof.
  destruct s as [|c s]; [done|]. unfold parse_term. destruct (negb (number_byte c)); [done|].
  destruct (leadingInt 0 (String c s)) as [[n s1]|] eqn:E1; [|done]. apply leadingInt_shorter in E1. cbv zeta.
  set (q := match s1 with String "." s1' => _ | _ => _ end).
  assert (Hq : (String.length q.1.2 <= String.length s1)%nat).
  { subst q. clear E1. repeat case_match; subst; cbn [fst snd String.length]; try lia.
    match goal with H : leadingFraction _ _ _ _ = _ |- _ => apply leadingFraction_shorter in H end. lia. }
  destruct q as [[[f scale] s2] post]. cbn [fst snd] in Hq.
  destruct (negb _ && negb post); [done|]. pose proof (take_unit_length s2) as Hu.
  destruct (take_unit s2) as [u s3]. cbn [fst snd] in Hu.
  destruct u as [|c' u]; [by rewrite bool_decide_eq_true_2|]. case_bool_decide; [done|].
  cbn [String.length] in Hu. destruct (unitMap _); [|done]. destruct (_ <? n); [done|].
  destruct (0 <? f); [destruct (_ <? _); [done|]|]; intros [= _ <-]; lia.
Qed.

(** The fuel is enough: more of it changes nothing. *)
Lemma parse_terms_fuel n m d s :
  (String.length s <= n)%nat -> (String.length s <= m)%nat -> parse_terms n d s = parse_terms m d s.
Proof.
  revert m d s. induction n as [|n IH]; intros [|m] d [|c s] Hn Hm; cbn [String.length] in *; try lia; try done.
  cbn [parse_terms]. destruct (parse_term _) as [[v rest]|] eqn:E; [|done].
  apply parse_term_shorter in E. cbn [String.length] in E. case_match; [done|]. apply IH; lia.
Qed.

(** The result is a [time.Duration]: it fits in 64 bits. *)
Lemma ParseDuration_range s d : ParseDuration s = Some d -> int64_range d.
Proof.
  unfold ParseDuration. intros H.
  assert (Ht : forall n x t v, 0 <= x <= 2 ^ 63 -> parse_terms n x t = Some v -> 0 <= v <= 2 ^ 63).
  { induction n as [|n IH]; intros x t v Hx E; destruct t; cbn [parse_terms] in E; try (injection E as <-; lia); try done.
    destruct (parse_term _) as [[w rest]|]; [|done]. case_match; [done|]. eapply IH; [|exact E].
    pose proof (Z.mod_pos_bound (x + w) (2 ^ 64)). lia. }
  unfold int64_range, minInt64, maxInt64.
  set (p := match s with String "-" s' => (true, s') | String "+" s' => (false, s') | _ => (false, s) end) in H.
  destruct p as [neg t]. case_bool_decide; [injection H as <-; lia|]. case_bool_decide; [done|].
  destruct (parse_terms _ 0 t) as [v|] eqn:E; [|done]. apply Ht in E; [|lia].
  destruct neg; [injection H as <-; lia|]. destruct (Z.ltb_spec (2 ^ 63 - 1) v); [done|]. injection H as <-. lia.
Qed.

(** ** Configuration *)

(** The fields of [registry.ProjectAutonomy] that a tick reads. *)
Record ProjectAutonomy : Type := mkAutonomy {
  Enabled : bool;
  Goal : string;
  MaxTasksPerHour : Z;
  AllowedTaskTypes : list string;
  RequireApproval : bool;
  PollInterval : string;
  DuplicateWindow : string;
  Mode : string;
  CronTaskType : string
}.

(** A project with its autonomy settings. *)
Record AutoProject : Type := mkAutoProject {
  ap_Project : Project;
  ap_Autonomy : ProjectAutonomy
}.
Definition ap_ID (p : AutoProject) : string := p_ID (ap_Project p).

Inductive AutonomyMode : Type := AutonomyModeLLM | AutonomyModeCron | AutonomyModeBacklog.

Definition NormalizedAutonomyMode (p : AutoProject) : AutonomyMode :=
  let m := ToLower (TrimSpace (Mode (ap_Autonomy p))) in
  if m =?? "cron" then AutonomyModeCron
  else if m =?? "backlog" then AutonomyModeBacklog
  else AutonomyModeLLM.

(** The first non-blank entry. *)
Fixpoint first_type (l : list string) : option string :=
  match l with
  | [] => None
  | t :: l => if TrimSpace t =?? "" then first_type l else Some (TrimSpace t)
  end.

Definition ResolveCronTaskType (p : AutoProject) : string :=
  let v := TrimSpace (CronTaskType (ap_Autonomy p)) in
  if negb (v =?? "") then v else default "task" (first_type (AllowedTaskTypes (ap_Autonomy p))).

(** [projectLoop]'s interval. *)
Definition poll_interval (p : AutoProject) : duration :=
  let dflt := 5 * Minute in
  if PollInterval (ap_Autonomy p) =?? "" then dflt
  else match ParseDuration (PollInterval (ap_Autonomy p)) with
       | None => dflt
       | Some d => if d <=? 0 then dflt else d
       end.

Definition autonomyDuplicateWindow (p : option AutoProject) : duration :=
  match p with
  | None => 24 * Hour
  | Some p =>
      if TrimSpace (DuplicateWindow (ap_Autonomy p)) =?? "" then 24 * Hour
      else match ParseDuration (DuplicateWindow (ap_Autonomy p)) with
           | None => 24 * Hour
           | Some d => if d <? 0 then 24 * Hour else d
           end
  end.

(** [isNoActionSentinel]. *)
Definition isNoActionSentinel (s : string) : bool := contains (ToUpper (TrimSpace s)) "NO_ACTION".

(** ** Prompts *)

(** [strings.Fields]: the word that is being read and the words after it. *)
Definition push_word (w : string) (ws : list string) : list string := if w =?? "" then ws else w :: ws.

Fixpoint fields_from (s : string) : string * list string :=
  match s with
  | "" => ("", [])
  | String c s =>
      let '(w, ws) := fields_from s in
      if is_space c then ("", push_word w ws) else (String c w, ws)
  end.
Definition Fields (s : string) : list string := let '(w, ws) := fields_from s in push_word w ws.

Definition normalizeAutonomyPrompt (prompt : string) : string :=
  String.concat " " (Fields (ToLower (TrimSpace prompt))).

(** [strings.Trim] of a set of ASCII characters. *)
Fixpoint in_cutset (c : ascii) (cutset : string) : bool :=
  match cutset with "" => false | String d rest => (c =?? d) || in_cutset c rest end.
Fixpoint trim_left_set (cutset s : string) : string :=
  match s with
  | String c s' => if in_cutset c cutset then trim_left_set cutset s' else s
  | "" => ""
  end.
Definition Trim (s cutset : string) : string :=
  string_rev (trim_left_set cutset (string_rev (trim_left_set cutset s))).

Definition token_cutset : string := ".,;:!?" ++ bytes_of [34; 39; 96]%nat ++ "()[]{}".

Definition autonomyPromptStopWords : gset string := list_to_set
  [ "the"; "and"; "for"; "with"; "from"; "this";
    "that"; "into"; "when"; "what"; "which"; "where";
    "have"; "will"; "must"; "should"; "can"; "are";
    "its"; "was"; "were"; "been"; "being";
    "all"; "any"; "each"; "some"; "one"; "two";
    "per"; "via"; "use"; "uses"; "used"; "using";
    "implement"; "complete"; "completion"; "task";
    "project"; "commit"; "commits"; "committed";
    "file"; "files"; "modify"; "modifies"; "update";
    "updates"; "add"; "adds"; "added"; "create";
    "creates"; "created"; "read"; "write"; "writes";
    "run"; "runs"; "test"; "tests"; "testing";
    "acceptance"; "criteria"; "current"; "context";
    "meaningful"; "message"; "relevant"; "code";
    "changes"; "change"; "command"; "exists"; "exist";
    "only"; "once"; "stop"; "analysis"; "planning" ].

Definition autonomyPromptTitle (prompt : string) : string :=
  let s := TrimSpace prompt in
  match cut ":" s with
  | Some (a, _) =>
      if Nat.leb (String.length a) 120 then a
      else if Nat.ltb 120 (String.length s) then take_bytes 120 s else s
  | None => if Nat.ltb 120 (String.length s) then take_bytes 120 s else s
  end.

Definition autonomyPromptTokens (prompt : string) : gset string :=
  foldl (fun out w =>
    let w := Trim w token_cutset in
    if Nat.ltb (String.length w) 3 then out
    else if bool_decide (w ∈ autonomyPromptStopWords) then out
    else out ∪ {[w]}) ∅ (Fields (normalizeAutonomyPrompt prompt)).

Definition autonomyPromptSimilarity (a b : string) : float64 :=
  let left_ := autonomyPromptTokens (autonomyPromptTitle a) in
  let right_ := autonomyPromptTokens (autonomyPromptTitle b) in
  if (Z.of_nat (size left_) =? 0) || (Z.of_nat (size right_) =? 0) then f64_zero
  else
    let intersect := Z.of_nat (size (left_ ∩ right_)) in
    let union_ := Z.of_nat (size left_) + Z.of_nat (size right_) - intersect in
    if union_ =? 0 then f64_zero else f64_div (f64_of_Z intersect) (f64_of_Z union_).

(** The binary64 number nearest to 0.30. *)
Definition autonomyFailureSimilarityThreshold : float64 := S754_finite false 5404319552844595 (-54).

(** ** Tasks as the gates see them *)

(** The arguments of [create_task] are its prompt, type and workflow; a payload holds a
    type and a prompt.  [None]: the text does not decode. *)
Class AutonomyJson : Type := {
  unmarshal_args : string -> option (string * string * string);
  marshal_args : string -> string -> string -> string;
  marshal_payload : string -> string -> string;
  unmarshal_payload : string -> option (string * string)
}.

(** The first eight bytes of SHA-256, in hexadecimal. *)
Class AutonomyDigest : Type := { sha256_prefix : string -> string }.

Record autonomyTaskSummary : Type := mkSummary {
  s_id : string;
  s_taskType : string;
  s_workflow : string;
  s_prompt : string;
  s_status : TaskStatus;
  s_source : TaskCreationSource;
  s_createdAt : time;
  s_updatedAt : time
}.

Section Gates.
Context {AJ : AutonomyJson}.

(** [summarizeAutonomyTask]; the last error, which nothing reads, is left out. *)
Definition summarizeAutonomyTask (task : Task) : autonomyTaskSummary :=
  let '(taskType, prompt) :=
    match Payload task with
    | None => ("", "")
    | Some raw => if raw =?? "" then ("", "") else default ("", "") (unmarshal_payload raw)
    end in
  mkSummary (ID task) taskType (default "" (WorkflowID task)) prompt (Status task)
    (CreationSource task) (CreatedAt task) (UpdatedAt task).

(** Same type, workflow and normalized prompt. *)
Definition same_request (taskType workflowID prompt : string) (s : autonomyTaskSummary) : bool :=
  (normalizeAutonomyPrompt (s_prompt s) =?? normalizeAutonomyPrompt prompt) &&
  (s_taskType s =?? taskType) && (s_workflow s =?? workflowID).

(** The statuses that count as active. *)
Definition active_statuses : list TaskStatus :=
  [TaskStatusQueued; TaskStatusPending; TaskStatusAwaitingApproval; TaskStatusLeased;
   TaskStatusRunning; TaskStatusWaitingForChildren].

(** [findAutonomyDuplicate]; [now] is the clock of [time.Since]. *)
Definition duplicate_of (now : time) (taskType workflowID prompt : string) (window : duration)
    (task : Task) : bool :=
  let s := summarizeAutonomyTask task in
  same_request taskType workflowID prompt s &&
  (bool_decide (s_status s ∈ active_statuses) ||
   ((s_status s =?? TaskStatusCompleted) && (0 <? window) &&
    (time_sub now (s_updatedAt s) <? window))).

Definition findAutonomyDuplicate (now : time) (tasks : list Task)
    (taskType workflowID prompt : string) (window : duration) : bool :=
  existsb (duplicate_of now taskType workflowID prompt window) tasks.

(** [autonomyFailureCooldown]. *)
Definition similar_failure (now : time) (taskType workflowID prompt : string) (task : Task) : bool :=
  let s := summarizeAutonomyTask task in
  (s_status s =?? TaskStatusFailed) &&
  negb (3 * Hour <? time_sub now (s_createdAt s)) &&
  ((s_taskType s =?? taskType) && (s_workflow s =?? workflowID)) &&
  ((normalizeAutonomyPrompt (s_prompt s) =?? normalizeAutonomyPrompt prompt) ||
   f64_le autonomyFailureSimilarityThreshold (autonomyPromptSimilarity prompt (s_prompt s))).

Definition autonomyFailureCooldown (now : time) (tasks : list Task)
    (taskType workflowID prompt : string) : bool :=
  (2 <=? Z.of_nat (count_if (similar_failure now taskType workflowID prompt) tasks)).

(** [autonomyCircuitOpen]: the twelve newest autonomous tasks that have ended.  The page
    comes sorted, so [sort.Slice] has nothing to move. *)
Definition ended_autonomous (task : Task) : bool :=
  (CreationSource task =?? TaskCreationSourceAutonomous) &&
  bool_decide (Status task ∈ [TaskStatusCompleted; TaskStatusFailed; TaskStatusCancelled]).

Definition autonomyCircuitOpen (tasks : list Task) : bool :=
  let terminal := filter (fun t => ended_autonomous t = true) tasks in
  if Nat.ltb (length terminal) 8 then false
  else
    let terminal := take 12 (order_by (fun t => [- CreatedAt t]) terminal) in
    let completed := Z.of_nat (count_if (fun t => Status t =?? TaskStatusCompleted) terminal) in
    let failures := Z.of_nat (count_if (fun t => bool_decide
                      (Status t ∈ [TaskStatusFailed; TaskStatusCancelled])) terminal) in
    Nat.leb 8 (length terminal) && (6 <=? failures) && (completed * 2 <? failures).
End Gates.

(** ** The idempotency key *)

(** Year, month and day of a day counted from 1970-01-01. *)
Definition civil (day : Z) : Z * Z * Z :=
  let z := day + 719468 in
  let era := z / 146097 in
  let doe := z mod 146097 in
  let yoe := (doe - doe / 1460 + doe / 36524 - doe / 146096) / 365 in
  let doy := doe - (365 * yoe + yoe / 4 - yoe / 100) in
  let mp := (5 * doy + 2) / 153 in
  let month := if mp <? 10 then mp + 3 else mp - 9 in
  (yoe + era * 400 + (if month <=? 2 then 1 else 0), month, day_of_month day).

(** [now.UTC().Format("2006010215")], for years of four digits. *)
Definition hour_bucket (now : time) : string :=
  let sec := now / Second in
  let '(year, month, day) := civil (sec / day_seconds) in
  pretty year ++ two_digits month ++ two_digits day ++ two_digits (sec mod day_seconds / 3600).

Definition buildAutonomyIdempotencyKey `{AutonomyDigest}
    (projectID taskType workflowID prompt : string) (now : time) : string :=
  let base := projectID ++ "|" ++ taskType ++ "|" ++ workflowID ++ "|" ++ normalizeAutonomyPrompt prompt in
  "auto:" ++ hour_bucket now ++ ":" ++ sha256_prefix base.

(** ** Examples *)

Example bucket_example : hour_bucket (1780000000 * Second) = "2026052820".
Proof. vm_compute. reflexivity. Qed.
