(* ===== verification/Autonomy.v ===== *)
(** * The autonomy manager

    [src/internal/autonomy/manager.go]: a tick of a project's loop ([evaluate]) in its
    three modes, and [createAutonomousTask], one statement per turn.  The turns work on
    what the ticks of one daemon share: the task table, the limiter, the usage rows, the
    reservation ledger, the leader locks, the backlog files, and the manager's own hourly
    counts behind its mutex.  The language model's answer, the pre-check's verdict and
    the number of the cost forecast are arguments of a turn, and so is the result of
    resolving the backlog's path. *)
From Stdlib Require Import Ascii.
From S2P Require LeaderElection TaskCreate.
From S2P Require Import Prelude GoStrings TaskModel TaskRepo TaskRepoSafety Workflow StepRetry Registry RateLimit Budget.
From S2P Require Import AutonomyBacklog AutonomyGates.
Open Scope string_scope.
Open Scope Z_scope.

(** ** The audit trail *)

Inductive AutonomyOutcome : Type :=
| AutonomyOutcomeCreated
| AutonomyOutcomeNoAction
| AutonomyOutcomeRateLimited
| AutonomyOutcomeBudgetBlocked
| AutonomyOutcomeActiveTasks
| AutonomyOutcomeLLMError
| AutonomyOutcomeParseError
| AutonomyOutcomeWorkflowInvalid
| AutonomyOutcomeTypeRejected
| AutonomyOutcomeCircuitOpen
| AutonomyOutcomeDuplicate
| AutonomyOutcomeCooldown
| AutonomyOutcomeIdempotencyHit
| AutonomyOutcomeDBError
| AutonomyOutcomePreCheckSkipped
| AutonomyOutcomeAborted.

#[export] Instance AutonomyOutcome_eq_dec : EqDecision AutonomyOutcome.
Proof. solve_decision. Defined.

(** A row of [autonomy_evaluations], without its id, reason, duration and time. *)
Record AutonomyEvaluation : Type := mkEvaluation {
  ae_ProjectID : string;
  ae_Outcome : AutonomyOutcome;
  ae_TaskID : option string;
  ae_TaskType : string;
  ae_WorkflowID : string;
  ae_PromptHash : string
}.

(** A row of the tool audit: task, input, output. *)
Record ToolAuditEntry : Type := mkToolAudit {
  ta_TaskID : string;
  ta_ToolInput : string;
  ta_ToolOutput : string
}.

(** ** The language model's answer *)

(** An error, cancellation or not; no choices; a text with tool calls (name and
    arguments). *)
Inductive Answer : Type :=
| AnswerError (canceled : bool)
| AnswerNoChoices
| AnswerMessage (content : string) (calls : list (string * string)).

(** The text from its first opening brace to the last closing one after it. *)
Fixpoint from_brace (s : string) : option string :=
  match s with
  | "" => None
  | String c rest => if c =?? "{"%char then Some s else from_brace rest
  end.
Fixpoint to_last_brace (s : string) : option string :=
  match s with
  | "" => None
  | String c rest =>
      match to_last_brace rest with
      | Some r => Some (String c r)
      | None => if c =?? "}"%char then Some (String c "") else None
      end
  end.
Definition embedded_json (content : string) : option string := from_brace content ≫= to_last_brace.

(** The arguments of the [create_task] calls. *)
Definition create_calls (calls : list (string * string)) : list string :=
  omap (fun c => if c.1 =?? "create_task" then Some c.2 else None) calls.

(** [CheckForecast]: does the forecast reach a hard cap? *)
Definition CheckForecast (b : ProjectBudget) (forecast daily monthly : float64) : bool :=
  (f64_lt f64_zero (DailyHardUSD b) && f64_le (DailyHardUSD b) (f64_add daily forecast)) ||
  (f64_lt f64_zero (MonthlyHardUSD b) && f64_le (MonthlyHardUSD b) (f64_add monthly forecast)).

Section Autonomy.
Context {L : ProjectLimiter} {AJ : AutonomyJson} {AD : AutonomyDigest} `{pg : Postgres, tz : TzDatabase}.

(** The fields of a [Manager] that may be nil, and whether it has a workspace. *)
Record Manager : Type := mkManager {
  m_client : bool;
  m_registry : option Registry;
  m_llmUsageRepo : bool;
  m_reservRepo : bool;
  m_rateLimiter : bool;
  m_evalRepo : bool;
  m_auditRepo : bool;
  m_budgetNotifier : bool;
  m_steering : bool;
  m_workspacePath : bool
}.

(** What the ticks share.  [aw_holder] is the goroutine that holds the mutex. *)
Record AWorld : Type := mkAWorld {
  aw_tasks : Table;
  aw_limiter : limiter;
  aw_usage : list UsageRow;
  aw_ledger : Ledger;
  aw_gate : LeaderElection.Gate;
  aw_locks : LeaderElection.LockTable;
  aw_files : gmap string string;
  aw_taskCounts : gmap string Z;
  aw_hourReset : gmap string time;
  aw_holder : option nat;
  aw_evals : list AutonomyEvaluation;
  aw_audit : list ToolAuditEntry;
  aw_alerts : list (string * string * string * BudgetDecision);
  aw_steered : list string
}.

(** ** A tick *)

(** What is left to do when a call of [createAutonomousTask] returns: further tool calls,
    or the backlog file to write. *)
Record Cont : Type := mkCont {
  k_rest : list string;
  k_file : option (string * string)
}.

(** A call whose arguments have been accepted. *)
Record AJob : Type := mkAJob {
  aj_project : AutoProject;
  aj_raw : string;
  aj_type : string;
  aj_workflowID : string;
  aj_prompt : string;
  aj_effective : string;
  aj_cont : Cont
}.
Definition aj_pid (j : AJob) : string := ap_ID (aj_project j).

(** The next statement of a goroutine. *)
Inductive APC : Type :=
| ApIdle
| ApRate (p : AutoProject)
| ApCheck1 (p : AutoProject)
| ApCheck2 (p : AutoProject) (now : time) (obs : check_obs)
| ApDaily (p : AutoProject)
| ApMonthly (p : AutoProject) (now : time) (daily : float64)
| ApPre (p : AutoProject)
| ApState (p : AutoProject)
| ApAsk (p : AutoProject)
| ApBacklog (p : AutoProject)
| ApCreate (p : AutoProject) (k : Cont) (raw : string)
| ApForeDaily (j : AJob)
| ApForeMonthly (j : AJob) (now : time) (daily : float64)
| ApLock (j : AJob)
| ApList (j : AJob)
| ApIdem (j : AJob)
| ApFence (j : AJob) (key : string)
| ApResDaily (j : AJob) (t : Task)
| ApResMonthly (j : AJob) (t : Task) (now : time) (daily : float64)
| ApResTx (j : AJob) (t : Task) (now : time) (daily monthly : float64)
| ApInsert (j : AJob) (t : Task)
| ApRecord1 (j : AJob) (t : Task)
| ApRecord2 (j : AJob) (t : Task) (now : time)
| ApWrite (path content : string).

(** The arguments of one turn.  [at_skip] is the verdict of the pre-check, [at_forecast]
    the number of [ForecastTask], [at_path] the backlog's path. *)
Record ATurn : Type := mkATurn {
  at_fault : Fault;
  at_clock : time;
  at_id : string;
  at_answer : Answer;
  at_skip : bool;
  at_forecast : option float64;
  at_path : option string;
  at_eval_lost : bool;
  at_audit_lost : bool
}.

Context (m : Manager).

(** [hashPrompt]. *)
Definition hashPrompt (s : string) : string :=
  if TrimSpace s =?? "" then "" else sha256_prefix (TrimSpace s).

(** [recordEvaluation]: a lost write is only logged. *)
Definition record_eval (tn : ATurn) (e : AutonomyEvaluation) (w : AWorld) : AWorld :=
  if m_evalRepo m && negb (at_eval_lost tn) then w <| aw_evals := (aw_evals w ++ [e])%list |> else w.

Definition eval_tick (tn : ATurn) (p : AutoProject) (o : AutonomyOutcome) : AWorld -> AWorld :=
  record_eval tn (mkEvaluation (ap_ID p) o None "" "" "").
Definition eval_job (tn : ATurn) (j : AJob) (o : AutonomyOutcome) (task : option string) : AWorld -> AWorld :=
  record_eval tn (mkEvaluation (aj_pid j) o task (aj_type j) (aj_effective j) (hashPrompt (aj_prompt j))).

Definition alert_budget (pid : string) (d : BudgetDecision) (w : AWorld) : AWorld :=
  if m_budgetNotifier m then
    let '(period, level) := Period d in
    w <| aw_alerts := (aw_alerts w ++ [(pid, level, period, d)])%list |>
  else w.

Definition page_of (n : Z) (pid : string) (f : Fault) (tbl : Table) : result RepoError (list Task) :=
  TaskCreate.read f (List (mkTaskFilter (Some pid) None None n 0) tbl).

(** ** The gates of a tick *)

(** [countAutonomousTasksLastHour]. *)
Definition recent_autonomous (cutoff : time) (t : Task) : bool :=
  (CreationSource t =?? TaskCreationSourceAutonomous) && negb (CreatedAt t <? cutoff).
Definition countAutonomousTasksLastHour (pid : string) (now : time) (f : Fault) (tbl : Table) :
    result RepoError Z :=
  let! tasks := page_of 100 pid f tbl in
  Ok (Z.of_nat (count_if (recent_autonomous (now - Hour)) tasks)).

Definition cacheTTL : duration := 5 * Minute.

(** [checkRateLimitLocked]: the counts are refreshed from the database when they are
    older than the cache allows. *)
Definition checkRateLimitLocked (p : AutoProject) (now : time) (f : Fault) (w : AWorld) : bool * AWorld :=
  let pid := ap_ID p in
  let stale := match aw_hourReset w !! pid with
               | None => true
               | Some reset => cacheTTL <=? time_sub now reset
               end in
  let w :=
    if stale then
      match countAutonomousTasksLastHour pid now f (aw_tasks w) with
      | Err _ => w
      | Ok n => w <| aw_taskCounts := <[pid := n]> (aw_taskCounts w) |>
      end <| aw_hourReset := <[pid := now]> (aw_hourReset w) |>
    else w in
  (default 0 (aw_taskCounts w !! pid) <? MaxTasksPerHour (ap_Autonomy p), w).

(** Where a tick goes after the limiter: the budget is checked if there is one. *)
Definition gate_tick (p : AutoProject) : APC :=
  if m_llmUsageRepo m && negb (unlimited (p_Budget (ap_Project p))) then ApDaily p else ApPre p.
Definition gate_limiter (p : AutoProject) : APC := if m_rateLimiter m then ApCheck1 p else gate_tick p.

(** [hasActive] of [buildStateContext]. *)
Definition hasActive (tasks : list Task) : bool :=
  existsb (fun t => bool_decide (Status t ∈ active_statuses)) tasks.

(** ** [createAutonomousTask] before its first statement *)

(** Every agent step's role is in the swarm. *)
Definition roles_present (wf : Workflow) (sw : Swarm) : bool :=
  forallb (fun st => negb ((Type_ st =?? "agent") && negb (Role st =?? "")) ||
                     bool_decide (Role st ∈ map r_Name (sw_Roles sw)))
    (map snd (map_to_list (wf_Steps wf))).

(** The call ends here with an outcome and whether it returns an error, or goes on. *)
Inductive Validated : Type :=
| VEnd (e : AutonomyEvaluation) (err : bool)
| VGo (j : AJob) (forecast : bool).

Definition validate_args (p : AutoProject) (k : Cont) (raw : string) : Validated :=
  let pid := ap_ID p in
  match unmarshal_args raw with
  | None => VEnd (mkEvaluation pid AutonomyOutcomeParseError None "" "" "") true
  | Some (prompt, type_, workflowID) =>
      if prompt =?? "" then VEnd (mkEvaluation pid AutonomyOutcomeParseError None type_ "" "") true
      else
        let prompt := TrimSpace prompt in
        let allowed := AllowedTaskTypes (ap_Autonomy p) in
        if isNoActionSentinel prompt
        then VEnd (mkEvaluation pid AutonomyOutcomeNoAction None type_ "" "") false
        else if negb (bool_decide (allowed = [])) && (TrimSpace type_ =?? "")
        then VEnd (mkEvaluation pid AutonomyOutcomeTypeRejected None "" "" "") true
        else if negb (bool_decide (allowed = [])) && negb (bool_decide (type_ ∈ allowed))
        then VEnd (mkEvaluation pid AutonomyOutcomeTypeRejected None type_ workflowID (hashPrompt prompt)) true
        else
          let effective := if workflowID =?? "" then p_DefaultWorkflowID (ap_Project p) else workflowID in
          let j := mkAJob p raw type_ workflowID prompt effective k in
          let invalid :=
            VEnd (mkEvaluation pid AutonomyOutcomeWorkflowInvalid None type_ effective (hashPrompt prompt)) true in
          match m_registry m with
          | None => VGo j false
          | Some reg =>
              if effective =?? "" then VGo j false
              else
                match GetWorkflow effective reg with
                | None => invalid
                | Some wf =>
                    match GetSwarm (p_SwarmID (ap_Project p)) reg with
                    | None => VGo j false
                    | Some sw =>
                        if roles_present wf sw then
                          VGo j (m_llmUsageRepo m &&
                                 (f64_lt f64_zero (DailyHardUSD (p_Budget (ap_Project p))) ||
                                  f64_lt f64_zero (MonthlyHardUSD (p_Budget (ap_Project p)))))
                        else invalid
                    end
                end
          end
  end.

(** ** The task *)

Definition window_of (j : AJob) : duration := autonomyDuplicateWindow (Some (aj_project j)).

Definition autonomous_task (j : AJob) (key id : string) (now : time) : Task :=
  (zeroTask id)
    <| ProjectID := aj_pid j |>
    <| CreationSource := TaskCreationSourceAutonomous |>
    <| Status := if RequireApproval (ap_Autonomy (aj_project j)) then TaskStatusAwaitingApproval
                 else TaskStatusQueued |>
    <| Priority := p_DefaultPriority (ap_Project (aj_project j)) |>
    <| Payload := Some (marshal_payload (aj_type j) (aj_prompt j)) |>
    <| Attempt := 1 |>
    <| MaxAttempts := 3 |>
    <| CreatedAt := now |>
    <| UpdatedAt := now |>
    <| IdempotencyKey := if key =?? "" then None else Some key |>
    <| WorkflowID := if aj_workflowID j =?? "" then None else Some (aj_workflowID j) |>.

(** Where the tick goes when a call returns. *)
Definition next_call (p : AutoProject) (k : Cont) (err : bool) : APC :=
  match k_file k with
  | Some (path, content) => if err then ApIdle else ApWrite path content
  | None => match k_rest k with [] => ApIdle | raw :: rest => ApCreate p (mkCont rest None) raw end
  end.

(** A return with the mutex held. *)
Definition return_call (j : AJob) (err : bool) (w : AWorld) : APC * AWorld :=
  (next_call (aj_project j) (aj_cont j) err, w <| aw_holder := None |>).

(** The last statements of a call that created [t]. *)
Definition created (tn : ATurn) (j : AJob) (t : Task) (w : AWorld) : APC * AWorld :=
  let w := eval_job tn j AutonomyOutcomeCreated (Some (ID t)) w in
  let w := if m_auditRepo m && negb (at_audit_lost tn)
           then w <| aw_audit := (aw_audit w ++ [mkToolAudit (ID t) (aj_raw j) (ID t)])%list |> else w in
  return_call j false w.

(** [recordTaskCreatedLocked]. *)
Definition count_created (pid : string) (w : AWorld) : AWorld :=
  w <| aw_taskCounts := <[pid := default 0 (aw_taskCounts w !! pid) + 1]> (aw_taskCounts w) |>.

(** After the fence: is there a ledger, and a hard cap, to reserve against? *)
Definition gate_reserve (j : AJob) (t : Task) : APC :=
  if m_reservRepo m && m_llmUsageRepo m &&
     negb ((ID t =?? "") || no_hard_cap (p_Budget (ap_Project (aj_project j))))
  then ApResDaily j t else ApInsert j t.

(** ** One turn *)

(** The call after it has read the newest fifty tasks. *)
Definition gate_recent (tn : ATurn) (j : AJob) (recent : list Task) (w : AWorld) : APC * AWorld :=
  let now := at_clock tn in
  let stop o := return_call j false (eval_job tn j o None w) in
  if autonomyCircuitOpen recent then stop AutonomyOutcomeCircuitOpen
  else if findAutonomyDuplicate now recent (aj_type j) (aj_workflowID j) (aj_prompt j) (window_of j)
  then stop AutonomyOutcomeDuplicate
  else if autonomyFailureCooldown now recent (aj_type j) (aj_workflowID j) (aj_prompt j)
  then stop AutonomyOutcomeCooldown
  else if window_of j =? 0 then (ApFence j "", w)
  else (ApIdem j, w).

(** The answer of the language model. *)
Definition gate_answer (tn : ATurn) (p : AutoProject) (a : Answer) (w : AWorld) : APC * AWorld :=
  let stop o := (ApIdle, eval_tick tn p o w) in
  match a with
  | AnswerError true => stop AutonomyOutcomeAborted
  | AnswerError false | AnswerNoChoices => stop AutonomyOutcomeLLMError
  | AnswerMessage content [] =>
      let content := TrimSpace content in
      if isNoActionSentinel content then stop AutonomyOutcomeNoAction
      else
        match embedded_json content with
        | None => stop AutonomyOutcomeParseError
        | Some raw =>
            match unmarshal_args raw with
            | None => stop AutonomyOutcomeParseError
            | Some (prompt, _, _) =>
                if prompt =?? "" then stop AutonomyOutcomeParseError
                else if isNoActionSentinel prompt then stop AutonomyOutcomeNoAction
                else (ApCreate p (mkCont [] None) raw, w)
            end
        end
  | AnswerMessage _ calls => (next_call p (mkCont (create_calls calls) None) false, w)
  end.

(** [tickCron]: the goal is the prompt. *)
Definition tick_cron (tn : ATurn) (p : AutoProject) (w : AWorld) : APC * AWorld :=
  let prompt := TrimSpace (Goal (ap_Autonomy p)) in
  if prompt =?? "" then (ApIdle, eval_tick tn p AutonomyOutcomeParseError w)
  else (ApCreate p (mkCont [] None) (marshal_args prompt (ResolveCronTaskType p) ""), w).

(** [tickBacklog] up to the call of [createAutonomousTask]: the read of the file. *)
Definition tick_backlog (tn : ATurn) (p : AutoProject) (w : AWorld) : APC * AWorld :=
  if negb (m_workspacePath m) then (ApIdle, eval_tick tn p AutonomyOutcomeDBError w)
  else
    match at_path tn with
    | None => (ApIdle, eval_tick tn p AutonomyOutcomeParseError w)
    | Some path =>
        if failed (at_fault tn) then (ApIdle, eval_tick tn p AutonomyOutcomeDBError w)
        else
          match aw_files w !! path with
          | None => (ApIdle, eval_tick tn p AutonomyOutcomeNoAction w)
          | Some content =>
              match consumeNextBacklogItem content with
              | None => (ApIdle, eval_tick tn p AutonomyOutcomeNoAction w)
              | Some (prompt, content') =>
                  (ApCreate p (mkCont [] (Some (path, content')))
                     (marshal_args prompt (ResolveCronTaskType p) ""), w)
              end
          end
    end.

(** A DB error recorded without the workflow. *)
Definition eval_dberror (tn : ATurn) (j : AJob) : AWorld -> AWorld :=
  record_eval tn (mkEvaluation (aj_pid j) AutonomyOutcomeDBError None (aj_type j) "" (hashPrompt (aj_prompt j))).

(** One statement of [evaluate], up to the calls of [createAutonomousTask]; a turn that
    waits for the mutex changes nothing. *)
Definition eval_turn (tn : ATurn) (pc : APC) (w : AWorld) : APC * AWorld :=
  let f := at_fault tn in
  let now := at_clock tn in
  match pc with
  | ApRate p =>
      if MaxTasksPerHour (ap_Autonomy p) <=? 0 then (gate_limiter p, w)
      else if is_some (aw_holder w) then (pc, w)
      else
        let '(ok, w) := checkRateLimitLocked p now f w in
        if ok then (gate_limiter p, w) else (ApIdle, eval_tick tn p AutonomyOutcomeRateLimited w)
  | ApCheck1 p =>
      let '(obs, l) := lim_check1 (failed f) (ap_Project p) now (aw_limiter w) in
      (ApCheck2 p now obs, w <| aw_limiter := l |>)
  | ApCheck2 p now obs =>
      if rl_Blocked (lim_check2 (failed f) (ap_Project p) now obs (aw_limiter w))
      then (ApIdle, eval_tick tn p AutonomyOutcomeRateLimited w) else (gate_tick p, w)
  | ApDaily p =>
      (match TaskCreate.read f (mapDB (sum_daily (ap_Project p) now (aw_usage w))) with
       | Err _ => ApPre p
       | Ok daily => ApMonthly p now daily
       end, w)
  | ApMonthly p now daily =>
      match TaskCreate.read f (mapDB (sum_monthly (ap_Project p) now (aw_usage w))) with
      | Err _ => (ApPre p, w)
      | Ok monthly =>
          let d := budget_decision (p_Budget (ap_Project p)) daily monthly in
          if b_Blocked d then
            (ApIdle, eval_tick tn p AutonomyOutcomeBudgetBlocked (alert_budget (ap_ID p) d w))
          else if b_SoftBreached d then (ApPre p, alert_budget (ap_ID p) d w)
          else (ApPre p, w)
      end
  | ApPre p =>
      if at_skip tn then (ApIdle, eval_tick tn p AutonomyOutcomePreCheckSkipped w) else (ApState p, w)
  | ApState p =>
      match page_of 50 (ap_ID p) f (aw_tasks w) with
      | Err _ => (ApIdle, eval_tick tn p AutonomyOutcomeDBError w)
      | Ok tasks =>
          if hasActive tasks then (ApIdle, eval_tick tn p AutonomyOutcomeActiveTasks w)
          else
            match NormalizedAutonomyMode p with
            | AutonomyModeCron => tick_cron tn p w
            | AutonomyModeBacklog => (ApBacklog p, w)
            | AutonomyModeLLM => (ApAsk p, w)
            end
      end
  | ApAsk p => if m_client m then gate_answer tn p (at_answer tn) w else (ApIdle, w)
  | ApBacklog p =>
      tick_backlog tn p w
  | _ => (pc, w)
  end.

(** One statement of [createAutonomousTask] in goroutine [i]. *)
Definition create_turn (i : nat) (tn : ATurn) (pc : APC) (w : AWorld) : APC * AWorld :=
  let f := at_fault tn in
  let now := at_clock tn in
  match pc with
  | ApCreate p k raw =>
      match validate_args p k raw with
      | VEnd e err => (next_call p k err, record_eval tn e w)
      | VGo j forecast => (if forecast then ApForeDaily j else ApLock j, w)
      end
  | ApForeDaily j =>
      (match TaskCreate.read f (mapDB (sum_daily (ap_Project (aj_project j)) now (aw_usage w))) with
       | Err _ => ApLock j
       | Ok daily => ApForeMonthly j now daily
       end, w)
  | ApForeMonthly j now daily =>
      match TaskCreate.read f (mapDB (sum_monthly (ap_Project (aj_project j)) now (aw_usage w))) with
      | Err _ => (ApLock j, w)
      | Ok monthly =>
          match at_forecast tn with
          | Some usd =>
              if CheckForecast (p_Budget (ap_Project (aj_project j))) usd daily monthly
              then (next_call (aj_project j) (aj_cont j) true,
                    eval_job tn j AutonomyOutcomeBudgetBlocked None w)
              else (ApLock j, w)
          | None => (ApLock j, w)
          end
      end
  | ApLock j =>
      if is_some (aw_holder w) then (pc, w) else (ApList j, w <| aw_holder := Some i |>)
  | ApList j =>
      match page_of 50 (aj_pid j) f (aw_tasks w) with
      | Err _ => return_call j true (eval_dberror tn j w)
      | Ok recent => gate_recent tn j recent w
      end
  | ApIdem j =>
      let key := buildAutonomyIdempotencyKey (aj_pid j) (aj_type j) (aj_workflowID j) (aj_prompt j) now in
      match TaskCreate.read f (GetByIdempotencyKey (aj_pid j) key (aw_tasks w)) with
      | Ok existing => return_call j false (eval_job tn j AutonomyOutcomeIdempotencyHit (Some (ID existing)) w)
      | Err ErrNotFound => (ApFence j key, w)
      | Err _ => return_call j true (eval_dberror tn j w)
      end
  | ApFence j key =>
      let t := autonomous_task j key (at_id tn) now in
      let fault := if failed f then Some (LeaderElection.ErrLockDB "") else None in
      if (LeaderElection.DangerousWriteAllowed fault (aw_gate w) (aw_locks w)).1
      then (gate_reserve j t, w)
      else return_call j false (eval_job tn j AutonomyOutcomeNoAction None w)
  | ApResDaily j t =>
      (match TaskCreate.read f (mapDB (sum_daily (ap_Project (aj_project j)) now (aw_usage w))) with
       | Err _ => ApInsert j t
       | Ok daily => ApResMonthly j t now daily
       end, w)
  | ApResMonthly j t now daily =>
      (match TaskCreate.read f (mapDB (sum_monthly (ap_Project (aj_project j)) now (aw_usage w))) with
       | Err _ => ApInsert j t
       | Ok monthly => ApResTx j t now daily monthly
       end, w)
  | ApResTx j t now daily monthly =>
      let proj := ap_Project (aj_project j) in
      match Reserve_tx (refused f) (at_id tn) (at_clock tn) (reserve_request proj (ID t) daily monthly now)
              (aw_ledger w) with
      | Err _ => (ApInsert j t, w)
      | Ok (out, ledger) =>
          let w := w <| aw_ledger := ledger |> in
          let d := reserve_decision (p_Budget proj) daily monthly out in
          if failed f then (ApInsert j t, w)
          else if b_Blocked d then
            return_call j false (eval_job tn j AutonomyOutcomeBudgetBlocked None (alert_budget (aj_pid j) d w))
          else (ApInsert j t, w)
      end
  | ApInsert j t =>
      match (if refused f then Err (ErrSQL "57014") else Create now (Some t) (aw_tasks w)) with
      | Ok (t', tbl) =>
          let w := w <| aw_tasks := tbl |> in
          if failed f then return_call j true (eval_job tn j AutonomyOutcomeDBError None w)
          else
            let w := count_created (aj_pid j) w in
            let w := if (Status t' =?? TaskStatusAwaitingApproval) && m_steering m
                     then w <| aw_steered := (aw_steered w ++ [ID t'])%list |> else w in
            if m_rateLimiter m then (ApRecord1 j t', w) else created tn j t' w
      | Err _ => return_call j true (eval_job tn j AutonomyOutcomeDBError None w)
      end
  | ApRecord1 j t =>
      (ApRecord2 j t now, w <| aw_limiter := lim_record1 (failed f) (aj_pid j) now (aw_limiter w) |>)
  | ApRecord2 j t now =>
      created tn j t (w <| aw_limiter := lim_record2 (failed f) (aj_pid j) now (aw_limiter w) |>)
  | _ => (pc, w)
  end.

(** One statement of goroutine [i]. *)
Definition aturn (i : nat) (tn : ATurn) (pc : APC) (w : AWorld) : APC * AWorld :=
  match pc with
  | ApIdle => (ApIdle, w)
  | ApRate _ | ApCheck1 _ | ApCheck2 _ _ _ | ApDaily _ | ApMonthly _ _ _ | ApPre _ | ApState _
  | ApAsk _ | ApBacklog _ => eval_turn tn pc w
  | ApWrite path content =>
      (ApIdle, if failed (at_fault tn) then w else w <| aw_files := <[path := content]> (aw_files w) |>)
  | _ => create_turn i tn pc w
  end.

(** ** The daemon *)

(** A tick of a loop ([initial]: the first of a loop, which does not look at the leader
    bit), a turn of a tick, a call of another client of the task repository, usage and
    reservations settled, the leadership changing, somebody writing or removing a backlog
    file, and [Reload] dropping the counts. *)
Inductive AEvent : Type :=
| AevTick (i : nat) (p : AutoProject) (initial : bool)
| AevTurn (i : nat) (tn : ATurn)
| AevRepo (cl : call)
| AevUsage (rows : list UsageRow)
| AevSettle (taskID : string) (now : time)
| AevLeader (g : LeaderElection.Gate) (locks : LeaderElection.LockTable)
| AevFile (path : string) (content : option string)
| AevReload.

Definition is_leader (g : LeaderElection.Gate) : bool :=
  match g with
  | LeaderElection.GatePlain => true
  | LeaderElection.GateElector e => LeaderElection.e_leader e
  end.

Abbreviation ASystem := (list APC * AWorld)%type.

Definition astep (ev : AEvent) (s : ASystem) : ASystem :=
  let '(pcs, w) := s in
  match ev with
  | AevTick i p initial =>
      match pcs !! i with
      | Some ApIdle => if initial || is_leader (aw_gate w) then (<[i := ApRate p]> pcs, w) else s
      | _ => s
      end
  | AevTurn i tn =>
      match pcs !! i with
      | None => s
      | Some pc => let '(pc', w') := aturn i tn pc w in (<[i := pc']> pcs, w')
      end
  | AevRepo cl => (pcs, w <| aw_tasks := apply_call (aw_tasks w) cl |>)
  | AevUsage rows => (pcs, w <| aw_usage := (aw_usage w ++ rows)%list |>)
  | AevSettle id now =>
      (pcs, w <| aw_ledger := TaskCreate.ledger_or (aw_ledger w) (SettleByTask false id now now (aw_ledger w)) |>)
  | AevLeader g locks => (pcs, w <| aw_gate := g |> <| aw_locks := locks |>)
  | AevFile path content => (pcs, w <| aw_files := partial_alter (fun _ => content) path (aw_files w) |>)
  | AevReload =>
      if is_some (aw_holder w) then s
      else (pcs, w <| aw_taskCounts := ∅ |> <| aw_hourReset := ∅ |>)
  end.

Definition arun (evs : list AEvent) (s : ASystem) : ASystem := foldl (fun s ev => astep ev s) s evs.
End Autonomy.
