(* ===== verification/AutonomyFacts.v ===== *)
(** * Lemmas on the autonomy manager

    What the newest fifty or hundred tasks show, what a turn does to the task table, to
    the counts and to the mutex, and where the job of a statement comes from. *)
From S2P Require LeaderElection TaskCreate TaskCreateFacts.
From S2P Require Import Prelude GoStrings TaskModel TaskRepo TaskRepoFacts TaskRepoSafety TaskRepoTypes Workflow StepRetry Registry RateLimit Budget.
From S2P Require Import AutonomyBacklog AutonomyGates Autonomy.
Open Scope list_scope.
Open Scope Z_scope.

(** ** The similarity of prompts *)

Lemma similarity_symmetric a b : autonomyPromptSimilarity a b = autonomyPromptSimilarity b a.
Proof.
  unfold autonomyPromptSimilarity. set (x := autonomyPromptTokens (autonomyPromptTitle a)).
  set (y := autonomyPromptTokens (autonomyPromptTitle b)). rewrite (orb_comm (Z.of_nat (size y) =? 0)).
  rewrite (intersection_comm_L y x). by rewrite (Z.add_comm (Z.of_nat (size y))).
Qed.

(** ** Pages *)

Definition newest (n : nat) (pid : string) (tbl : Table) : list Task :=
  take n (order_by (fun t => [- CreatedAt t]) (select_rows (fun t => ProjectID t =?? pid) tbl)).

Section Facts.
Context {L : ProjectLimiter} {AJ : AutonomyJson} {AD : AutonomyDigest} `{pg : Postgres, tz : TzDatabase}.

Lemma page_of_newest n pid f tbl : 0 < n ->
  page_of n pid f tbl = TaskCreate.read f (Ok (map scanTask (newest (Z.to_nat n) pid tbl))).
Proof.
  intros Hn. unfold page_of, List, newest. cbn. unfold limit_offset. cbn.
  destruct (Z.ltb_spec 0 n); [|lia]. do 5 f_equal. unfold select_rows. apply list_filter_iff.
  intros t. unfold filter_where. cbn. by rewrite !andb_true_r.
Qed.

Lemma count_if_all {A} (q : A -> bool) l : (forall x, x ∈ l -> q x = true) -> count_if q l = length l.
Proof.
  intros H. rewrite (count_if_ext q (fun _ => true) l H). induction l as [|x l IH]; [done|].
  rewrite count_if_cons, IH; [done|]. intros y Hy. apply H. by right.
Qed.

(** A page that is long enough for the recent rows leaves none of them out. *)
Lemma newest_rest (n : nat) pid cut (tbl : Table) t :
  Z.of_nat (count_if (fun t => (ProjectID t =?? pid) && negb (CreatedAt t <? cut)) tbl) <= Z.of_nat n ->
  t ∈ drop n (order_by (fun t => [- CreatedAt t]) (select_rows (fun t => ProjectID t =?? pid) tbl)) ->
  CreatedAt t < cut.
Proof.
  intros Hc Hd. set (k := fun t : Task => [- CreatedAt t]) in *. set (rows := select_rows _ tbl) in *.
  set (q := fun t : Task => negb (CreatedAt t <? cut)).
  assert (Hq : (count_if q (order_by k rows) <= n)%nat).
  { rewrite (order_by_perm k rows). subst rows. unfold select_rows. rewrite count_if_filter. unfold q. lia. }
  destruct (Z.lt_ge_cases (CreatedAt t) cut) as [|Ht]; [done|exfalso].
  assert (Hqt : q t = true) by (unfold q; apply negb_true_iff, Z.ltb_ge; lia).
  pose proof (order_by_sorted k rows) as Hs. rewrite <- (take_drop n (order_by k rows)) in Hs, Hq.
  apply StronglySorted_app in Hs as (Hs & _). rewrite count_if_app in Hq.
  assert (Hl : length (take n (order_by k rows)) = n).
  { apply length_take_le. destruct (Nat.le_gt_cases n (length (order_by k rows))); [done|].
    rewrite drop_ge in Hd by lia. by apply not_elem_of_nil in Hd. }
  rewrite count_if_all, Hl in Hq.
  - assert (0 < count_if q (drop n (order_by k rows)))%nat by (apply count_if_pos; eauto). lia.
  - intros y Hy. specialize (Hs y t Hy Hd). unfold key_le, k, lex_le in Hs. unfold q in *.
    apply negb_true_iff, Z.ltb_ge in Hqt. apply negb_true_iff, Z.ltb_ge. lia.
Qed.

(** So the page counts all of them. *)
Lemma newest_count (n : nat) pid cut (q : Task -> bool) (tbl : Table) :
  Z.of_nat (count_if (fun t => (ProjectID t =?? pid) && negb (CreatedAt t <? cut)) tbl) <= Z.of_nat n ->
  (forall t, q t = true -> cut <= CreatedAt t) ->
  count_if q (newest n pid tbl) = count_if (fun t => (ProjectID t =?? pid) && q t) tbl.
Proof.
  intros Hc Hq. unfold newest. rewrite <- (count_if_filter q). fold (select_rows (fun t => ProjectID t =?? pid) tbl).
  rewrite <- (order_by_perm (fun t => [- CreatedAt t]) (select_rows _ tbl)) at 2.
  rewrite <- (take_drop n (order_by _ _)) at 2. rewrite count_if_app.
  assert (count_if q (drop n (order_by (fun t => [- CreatedAt t]) (select_rows (fun t => ProjectID t =?? pid) tbl))) = 0%nat)
    as ->; [|lia].
  apply count_if_zero. intros t Ht. apply (newest_rest n pid cut) in Ht; [|done].
  apply not_true_iff_false. intros Hqt%Hq. lia.
Qed.

(** A project of at most [n] tasks is all on the page. *)
Lemma newest_small (n : nat) pid (tbl : Table) t :
  (length (select_rows (fun t => ProjectID t =?? pid) tbl) <= n)%nat ->
  t ∈ tbl -> ProjectID t = pid -> t ∈ newest n pid tbl.
Proof.
  intros Hn Ht Hp. unfold newest. rewrite take_ge.
  - apply elem_of_order_by, elem_of_select_rows. by rewrite bool_decide_eq_true_2.
  - by rewrite (Permutation_length (order_by_perm _ _)).
Qed.

(** ** Where the job of a statement comes from *)

Definition job_of (pc : APC) : option AJob :=
  match pc with
  | ApForeDaily j | ApForeMonthly j _ _ | ApLock j | ApList j | ApIdem j | ApFence j _
  | ApResDaily j _ | ApResMonthly j _ _ _ | ApResTx j _ _ _ _ | ApInsert j _
  | ApRecord1 j _ | ApRecord2 j _ _ => Some j
  | _ => None
  end.

(** The task that has been built and not yet inserted. *)
Definition task_of (pc : APC) : option Task :=
  match pc with
  | ApResDaily _ t | ApResMonthly _ t _ _ | ApResTx _ t _ _ _ | ApInsert _ t => Some t
  | _ => None
  end.

Definition project_of (pc : APC) : option AutoProject :=
  match pc with
  | ApRate p | ApCheck1 p | ApCheck2 p _ _ | ApDaily p | ApMonthly p _ _ | ApPre p | ApState p
  | ApAsk p | ApBacklog p | ApCreate p _ _ => Some p
  | _ => aj_project <$> job_of pc
  end.

(** The statements that run with the mutex held. *)
Definition locked (pc : APC) : bool :=
  match pc with
  | ApList _ | ApIdem _ | ApFence _ _ | ApResDaily _ _ | ApResMonthly _ _ _ _ | ApResTx _ _ _ _ _
  | ApInsert _ _ | ApRecord1 _ _ | ApRecord2 _ _ _ => true
  | _ => false
  end.

(** The arguments of a job were decoded, its prompt trimmed. *)
Definition job_ok (j : AJob) : Prop :=
  exists prompt, unmarshal_args (aj_raw j) = Some (prompt, aj_type j, aj_workflowID j) /\
    aj_prompt j = TrimSpace prompt.
Definition built (j : AJob) (t : Task) : Prop := exists key id now, t = autonomous_task j key id now.

Definition apc_ok (pc : APC) : Prop :=
  (forall j, job_of pc = Some j -> job_ok j) /\
  (forall j t, job_of pc = Some j -> task_of pc = Some t -> built j t).

Context (m : Manager).

Lemma validate_args_job p k raw j b : validate_args m p k raw = VGo j b ->
  job_ok j /\ aj_project j = p /\ aj_cont j = k.
Proof.
  unfold validate_args. destruct (unmarshal_args raw) as [[[prompt ty] wf]|] eqn:E; [|done].
  intros H. repeat case_match; simplify_eq; (split; [|done]); by exists prompt.
Qed.

Lemma next_call_no_job p k err : job_of (next_call p k err) = None.
Proof. unfold next_call. by repeat case_match. Qed.

Lemma next_call_project p k err p' : project_of (next_call p k err) = Some p' -> p' = p.
Proof. unfold next_call. repeat case_match; by intros [= <-]. Qed.

Lemma no_job_ok pc : job_of pc = None -> apc_ok pc.
Proof. intros H. split; intros j; rewrite H; done. Qed.

Lemma gate_limiter_no_job p : job_of (gate_limiter m p) = None.
Proof. unfold gate_limiter, gate_tick. by repeat case_match. Qed.
Lemma gate_tick_no_job p : job_of (gate_tick m p) = None.
Proof. unfold gate_tick. by repeat case_match. Qed.

Lemma gate_reserve_spec j t :
  job_of (gate_reserve m j t) = Some j /\ task_of (gate_reserve m j t) = Some t /\
  locked (gate_reserve m j t) = true.
Proof. unfold gate_reserve. by destruct (_ && _). Qed.

(** A job stays the same from one statement to the next; a new one comes from a call. *)
Lemma aturn_job i tn pc w :
  let pc' := (aturn m i tn pc w).1 in
  (job_of pc' = None) \/
  (job_of pc' = job_of pc /\
    (task_of pc' = None \/ task_of pc' = task_of pc \/
     exists j key, pc = ApFence j key /\ task_of pc' = Some (autonomous_task j key (at_id tn) (at_clock tn)))) \/
  (exists p k raw j b, pc = ApCreate p k raw /\ validate_args m p k raw = VGo j b /\
     job_of pc' = Some j /\ task_of pc' = None).
Proof.
  destruct pc; cbn [aturn eval_turn create_turn fst]; unfold tick_cron, tick_backlog.
  - by left.
  - case_match; [left; apply gate_limiter_no_job|]. case_match; [by left|].
    destruct (checkRateLimitLocked _ _ _ _) as [[] ?]; left; [apply gate_limiter_no_job|done].
  - destruct (lim_check1 _ _ _ _). by left.
  - case_match; left; [done|apply gate_tick_no_job].
  - case_match; by left.
  - case_match; [|by left]. case_match; [by left|]. case_match; by left.
  - case_match; by left.
  - case_match; [|by left]. case_match; [by left|]. case_match; [by left| |by left].
    case_match; by left.
  - case_match; [|by left]. left. unfold gate_answer. repeat case_match; try done. apply next_call_no_job.
  - case_match; [by left|]. repeat case_match; by left.
  - destruct (validate_args _ _ _ _) as [e err|j b] eqn:E; [left; apply next_call_no_job|].
    right; right. exists p, k, raw, j, b. destruct b; done.
  - case_match; right; left; auto.
  - case_match; [|right; left; by auto]. case_match; [|right; left; by auto].
    case_match; [left; apply next_call_no_job|right; left; by auto].
  - case_match; right; left; auto.
  - case_match; [|left; apply next_call_no_job].
    unfold gate_recent, return_call. repeat case_match; cbn [fst]; try (left; apply next_call_no_job); right; left; auto.
  - case_match; [left; apply next_call_no_job|]. case_match; try (left; apply next_call_no_job). right; left; auto.
  - case_match; [|left; apply next_call_no_job]. right; left.
    destruct (gate_reserve_spec j (autonomous_task j key (at_id tn) (at_clock tn))) as (E1 & E2 & _).
    cbn [fst]. rewrite E1, E2. split; [done|]. right; right. eauto.
  - case_match; right; left; auto.
  - case_match; right; left; auto.
  - destruct (Reserve_tx _ _ _ _ _) as [[out l]|]; [|right; left; by auto]. cbv zeta.
    destruct (failed _); [right; left; by auto|].
    destruct (b_Blocked _); [left; apply next_call_no_job|right; left; by auto].
  - destruct (if refused _ then _ else _) as [[t' tbl]|]; [|left; apply next_call_no_job]. cbv zeta.
    destruct (failed _); [left; apply next_call_no_job|].
    destruct (m_rateLimiter m); [right; left; by auto|]. left. apply next_call_no_job.
  - right; left; auto.
  - left. apply next_call_no_job.
  - by left.
Qed.

Lemma aturn_apc_ok i tn pc w : apc_ok pc -> apc_ok (aturn m i tn pc w).1.
Proof.
  intros [Hj Ht]. destruct (aturn_job i tn pc w) as [H|[(Ej & Et)|(p & k & raw & j & b & -> & E & Ej & Et)]].
  - by apply no_job_ok.
  - split; intros j; rewrite Ej; [by apply Hj|]. intros t Hjob Ht'. destruct Et as [E|[E|(j' & key & -> & E)]].
    + congruence.
    + apply Ht; [done|congruence].
    + cbn in Hjob. injection Hjob as <-. rewrite E in Ht'. injection Ht' as <-. by eexists _, _, _.
  - apply validate_args_job in E as (E & _ & _). split; intros j'; rewrite Ej; [by intros [= <-]|].
    intros t _ Ht'. congruence.
Qed.

(** ** What a turn writes *)

(** Evaluations and alerts are all that these three write. *)
Record same_core (w w' : AWorld) : Prop := mkSameCore {
  sc_tasks : aw_tasks w' = aw_tasks w;
  sc_counts : aw_taskCounts w' = aw_taskCounts w;
  sc_reset : aw_hourReset w' = aw_hourReset w;
  sc_holder : aw_holder w' = aw_holder w
}.

Lemma record_eval_core tn e w : same_core w (record_eval m tn e w).
Proof. unfold record_eval. by case_match. Qed.
Lemma alert_core pid d w : same_core w (alert_budget m pid d w).
Proof. unfold alert_budget. case_match; [|done]. by case_match. Qed.
Lemma same_core_trans w1 w2 w3 : same_core w1 w2 -> same_core w2 w3 -> same_core w1 w3.
Proof. intros [] []. split; congruence. Qed.
Lemma same_core_refl w : same_core w w.
Proof. done. Qed.

(** The same but for the mutex, which is released. *)
Record released (w w' : AWorld) : Prop := mkReleased {
  rl_tasks : aw_tasks w' = aw_tasks w;
  rl_counts : aw_taskCounts w' = aw_taskCounts w;
  rl_reset : aw_hourReset w' = aw_hourReset w;
  rl_holder : aw_holder w' = None
}.

Lemma return_released j err w w' : same_core w w' -> released w (return_call j err w').2.
Proof. intros []. by split. Qed.

Lemma created_released tn j t w w' : same_core w w' -> released w (created m tn j t w').2.
Proof.
  intros H. unfold created. cbv zeta. apply return_released. eapply same_core_trans; [exact H|].
  eapply same_core_trans; [apply record_eval_core|]. unfold eval_job. by case_match.
Qed.

Lemma gate_recent_effect tn j recent w :
  same_core w (gate_recent m tn j recent w).2 /\ locked (gate_recent m tn j recent w).1 = true \/
  released w (gate_recent m tn j recent w).2 /\ locked (gate_recent m tn j recent w).1 = false.
Proof.
  assert (Hn : forall p k err, locked (next_call p k err) = false) by (intros; unfold next_call; by repeat case_match).
  unfold gate_recent. cbv zeta.
  destruct (autonomyCircuitOpen _); [right; split; [apply return_released, record_eval_core|apply Hn]|].
  destruct (findAutonomyDuplicate _ _ _ _ _ _); [right; split; [apply return_released, record_eval_core|apply Hn]|].
  destruct (autonomyFailureCooldown _ _ _ _ _); [right; split; [apply return_released, record_eval_core|apply Hn]|].
  destruct (_ =? _); by left.
Qed.

Lemma gate_answer_core tn p a w : same_core w (gate_answer m tn p a w).2.
Proof.
  unfold gate_answer, eval_tick. cbv zeta.
  repeat case_match; try done; apply record_eval_core.
Qed.

Lemma check_frame p now f w ok w1 : checkRateLimitLocked p now f w = (ok, w1) ->
  aw_tasks w1 = aw_tasks w /\ aw_holder w1 = aw_holder w.
Proof.
  unfold checkRateLimitLocked. cbv zeta. intros [= _ <-].
  destruct (match aw_hourReset w !! ap_ID p with Some _ => _ | None => _ end); [|done].
  by destruct (countAutonomousTasksLastHour _ _ _ _).
Qed.

(** What one turn of goroutine [i] does. *)
Inductive aeffect (i : nat) (tn : ATurn) (w : AWorld) : APC -> APC -> AWorld -> Prop :=
| ae_same pc pc' w' :
    same_core w w' -> locked pc' = locked pc -> aeffect i tn w pc pc' w'
| ae_release pc pc' w' :
    released w w' -> locked pc = true -> locked pc' = false -> aeffect i tn w pc pc' w'
| ae_lock j w' :
    aw_holder w = None -> w' = w <| aw_holder := Some i |> -> aeffect i tn w (ApLock j) (ApList j) w'
| ae_rate p pc' w1 w' ok :
    0 < MaxTasksPerHour (ap_Autonomy p) -> aw_holder w = None ->
    checkRateLimitLocked p (at_clock tn) (at_fault tn) w = (ok, w1) -> same_core w1 w' ->
    pc' = (if ok then gate_limiter m p else ApIdle) -> aeffect i tn w (ApRate p) pc' w'
| ae_insert j t t' tbl pc' w1 w' :
    refused (at_fault tn) = false -> Create (at_clock tn) (Some t) (aw_tasks w) = Ok (t', tbl) ->
    w1 = (if failed (at_fault tn) then w <| aw_tasks := tbl |>
          else count_created (aj_pid j) (w <| aw_tasks := tbl |>)) ->
    (same_core w1 w' /\ pc' = ApRecord1 j t' \/
     released w1 w' /\ exists err, pc' = next_call (aj_project j) (aj_cont j) err) ->
    aeffect i tn w (ApInsert j t) pc' w'.

Lemma next_call_unlocked p k err : locked (next_call p k err) = false.
Proof. unfold next_call. by repeat case_match. Qed.
Lemma gate_tick_unlocked p : locked (gate_tick m p) = false.
Proof. unfold gate_tick. by repeat case_match. Qed.
Lemma gate_limiter_unlocked p : locked (gate_limiter m p) = false.
Proof. unfold gate_limiter. case_match; [done|apply gate_tick_unlocked]. Qed.
Lemma gate_answer_unlocked tn p a w : locked (gate_answer m tn p a w).1 = false.
Proof. unfold gate_answer. cbv zeta. repeat case_match; try done. apply next_call_unlocked. Qed.

Lemma aturn_effect i tn pc w : aeffect i tn w pc (aturn m i tn pc w).1 (aturn m i tn pc w).2.
Proof.
  destruct pc; cbn [aturn eval_turn create_turn]; unfold tick_cron, tick_backlog; cbv zeta.
  - by apply ae_same.
  - destruct (Z.leb_spec (MaxTasksPerHour (ap_Autonomy p)) 0).
    { by apply ae_same; [|apply gate_limiter_unlocked]. }
    destruct (aw_holder w) eqn:Eh; [by apply ae_same|]. cbn [is_some].
    destruct (checkRateLimitLocked _ _ _ _) as [ok w1] eqn:E. apply (ae_rate i tn w p _ w1 _ ok); try done.
    + destruct ok; [done|apply record_eval_core].
    + by destruct ok.
  - destruct (lim_check1 _ _ _ _). by apply ae_same.
  - case_match; apply ae_same; try done; [apply record_eval_core|apply gate_tick_unlocked].
  - by apply ae_same; [|case_match].
  - destruct (TaskCreate.read _ _); [|by apply ae_same]. destruct (b_Blocked _).
    { apply ae_same; [|done]. eapply same_core_trans; [apply alert_core|apply record_eval_core]. }
    destruct (b_SoftBreached _); apply ae_same; try done. apply alert_core.
  - case_match; apply ae_same; try done. apply record_eval_core.
  - destruct (page_of _ _ _ _); [|by apply ae_same; [apply record_eval_core|]].
    destruct (hasActive _); [by apply ae_same; [apply record_eval_core|]|].
    case_match; [by apply ae_same| |by apply ae_same]. case_match; apply ae_same; try done. apply record_eval_core.
  - case_match; apply ae_same; try done; [apply gate_answer_core|apply gate_answer_unlocked].
  - repeat case_match; apply ae_same; try done; apply record_eval_core.
  - destruct (validate_args _ _ _ _) as [e err|j []]; apply ae_same; try done;
      [apply record_eval_core|apply next_call_unlocked].
  - apply ae_same; [done|by case_match].
  - destruct (TaskCreate.read _ _); [|by apply ae_same]. destruct (at_forecast tn); [|by apply ae_same].
    destruct (CheckForecast _ _ _ _); apply ae_same; try done; [apply record_eval_core|apply next_call_unlocked].
  - destruct (aw_holder w) eqn:E; [by apply ae_same|]. by apply ae_lock.
  - destruct (page_of _ _ _ _) as [recent|].
    + destruct (gate_recent_effect tn j recent w) as [[H1 H2]|[H1 H2]]; [by apply ae_same|by apply ae_release].
    + apply ae_release; [apply return_released, record_eval_core|done|apply next_call_unlocked].
  - destruct (TaskCreate.read _ _) as [v|e].
    + apply ae_release; [apply return_released, record_eval_core|done|apply next_call_unlocked].
    + destruct e; try (apply ae_release; [apply return_released, record_eval_core|done|apply next_call_unlocked]).
      by apply ae_same.
  - destruct (LeaderElection.DangerousWriteAllowed _ _ _).1.
    + apply ae_same; [done|]. exact (proj2 (proj2 (gate_reserve_spec j _))).
    + apply ae_release; [apply return_released, record_eval_core|done|apply next_call_unlocked].
  - apply ae_same; [done|by case_match].
  - apply ae_same; [done|by case_match].
  - destruct (Reserve_tx _ _ _ _ _) as [[out l]|]; [|by apply ae_same].
    destruct (failed _); [by apply ae_same|]. destruct (b_Blocked _); [|by apply ae_same].
    apply ae_release; [|done|apply next_call_unlocked]. apply return_released.
    eapply same_core_trans; [|apply record_eval_core]. by eapply same_core_trans; [|apply alert_core].
  - destruct (refused (at_fault tn)) eqn:Er.
    { apply ae_release; [apply return_released, record_eval_core|done|apply next_call_unlocked]. }
    destruct (Create _ _ _) as [[t' tbl]|] eqn:E.
    + eapply ae_insert; [done|exact E|done|]. destruct (failed _).
      { right. split; [apply return_released, record_eval_core|eauto]. }
      destruct (m_rateLimiter m); [left|right]; (split; [|eauto]).
      * by case_match.
      * apply created_released. by case_match.
    + apply ae_release; [apply return_released, record_eval_core|done|apply next_call_unlocked].
  - by apply ae_same.
  - apply ae_release; [by apply created_released|done|apply next_call_unlocked].
  - apply ae_same; [by case_match|done].
Qed.

(** The row a call inserts is one of its project. *)
Lemma create_row now j t t' tbl tbl' : built j t -> Create now (Some t) tbl = Ok (t', tbl') ->
  exists r, tbl' = tbl ++ [r] /\ ProjectID r = aj_pid j /\ CreationSource r = TaskCreationSourceAutonomous.
Proof.
  intros (key & id & at_ & ->) E. apply res_bind_ok in E as (tbl1 & E & [= _ <-]).
  apply with_binds_Ok in E as [_ E]. unfold exec_insert in E. destruct (constraint_error _ _); [done|].
  injection E as <-. by eexists.
Qed.

(** ** How many tasks a tick may still create *)

Definition pend (K : nat) (pc : APC) : nat :=
  match pc with
  | ApIdle | ApRate _ | ApWrite _ _ => 0
  | ApCheck1 _ | ApCheck2 _ _ _ | ApDaily _ | ApMonthly _ _ _ | ApPre _ | ApState _ | ApAsk _ | ApBacklog _ => K
  | ApCreate _ k _ => S (length (k_rest k))
  | ApForeDaily j | ApForeMonthly j _ _ | ApLock j | ApList j | ApIdem j | ApFence j _
  | ApResDaily j _ | ApResMonthly j _ _ _ | ApResTx j _ _ _ _ | ApInsert j _ => S (length (k_rest (aj_cont j)))
  | ApRecord1 j _ | ApRecord2 j _ _ => length (k_rest (aj_cont j))
  end.

(** The answer of a turn asks for [K] tasks at most. *)
Definition answer_within (K : nat) (a : Answer) : Prop :=
  match a with AnswerMessage _ calls => (length (create_calls calls) <= K)%nat | _ => True end.

Lemma next_call_pend K p k err : (pend K (next_call p k err) <= length (k_rest k))%nat.
Proof. unfold next_call. repeat case_match; simpl; lia. Qed.
Lemma gate_tick_pend K p : (pend K (gate_tick m p) <= K)%nat.
Proof. unfold gate_tick. by destruct (_ && _). Qed.
Lemma gate_limiter_pend K p : (pend K (gate_limiter m p) <= K)%nat.
Proof. unfold gate_limiter. case_match; [done|apply gate_tick_pend]. Qed.
Lemma gate_reserve_pend K j t : pend K (gate_reserve m j t) = S (length (k_rest (aj_cont j))).
Proof. unfold gate_reserve. by destruct (_ && _). Qed.

(** A turn works for the project its goroutine works for; unless it starts a tick or reads
    the model's answer, it leaves no more to create than before. *)
Lemma aturn_project i tn pc w p : project_of (aturn m i tn pc w).1 = Some p -> project_of pc = Some p.
Proof.
  assert (Hn : forall q k err, project_of (next_call q k err) = Some p -> Some q = Some p).
  { intros q k err H. by apply next_call_project in H as ->. }
  assert (Hg : forall q, project_of (gate_tick m q) = Some p -> Some q = Some p).
  { intros q. unfold gate_tick. by destruct (_ && _). }
  assert (Hl : forall q, project_of (gate_limiter m q) = Some p -> Some q = Some p).
  { intros q. unfold gate_limiter. case_match; [done|apply Hg]. }
  assert (Hr : forall j t, project_of (gate_reserve m j t) = Some p -> Some (aj_project j) = Some p).
  { intros j t. unfold gate_reserve. by destruct (_ && _). }
  destruct pc; cbn [aturn eval_turn create_turn]; unfold tick_cron, tick_backlog; cbv zeta; cbn [project_of fmap option_fmap option_map job_of].
  - done.
  - destruct (_ <=? 0); [apply Hl|]. destruct (is_some _); [done|].
    destruct (checkRateLimitLocked _ _ _ _) as [[] ?]; [apply Hl|done].
  - by destruct (lim_check1 _ _ _ _).
  - case_match; [done|apply Hg].
  - by case_match.
  - repeat case_match; done.
  - by case_match.
  - repeat case_match; done.
  - case_match; [|done]. unfold gate_answer. repeat case_match; try done; apply Hn.
  - repeat case_match; done.
  - destruct (validate_args _ _ _ _) as [e err|j b] eqn:E; [apply Hn|].
    apply validate_args_job in E as (_ & <- & _). by destruct b.
  - by case_match.
  - repeat case_match; try done; apply Hn.
  - by case_match.
  - destruct (page_of _ _ _ _); [|apply Hn]. unfold gate_recent, return_call. cbv zeta.
    repeat case_match; try done; apply Hn.
  - repeat case_match; try done; apply Hn.
  - destruct (LeaderElection.DangerousWriteAllowed _ _ _).1; [apply Hr|apply Hn].
  - by case_match.
  - by case_match.
  - destruct (Reserve_tx _ _ _ _ _) as [[out l]|]; [|done]. destruct (failed _); [done|].
    destruct (b_Blocked _); [apply Hn|done].
  - destruct (if refused _ then _ else _) as [[t' tbl]|]; [|apply Hn].
    destruct (failed _); [apply Hn|]. destruct (m_rateLimiter m); [done|apply Hn].
  - done.
  - apply Hn.
  - done.
Qed.

Lemma aturn_pend K i tn pc w : (1 <= K)%nat -> (forall p, pc <> ApRate p) ->
  (forall p, pc = ApAsk p -> answer_within K (at_answer tn)) ->
  (pend K (aturn m i tn pc w).1 <= pend K pc)%nat.
Proof.
  intros HK Hrate Hask. pose proof (next_call_pend K) as Hn.
  destruct pc; cbn [aturn eval_turn create_turn]; unfold tick_cron, tick_backlog; cbv zeta; cbn [pend].
  - done.
  - by destruct (Hrate p).
  - by destruct (lim_check1 _ _ _ _).
  - case_match; [simpl; lia|apply gate_tick_pend].
  - by case_match.
  - repeat case_match; simpl; lia.
  - case_match; simpl; lia.
  - repeat case_match; simpl; lia.
  - case_match; [|simpl; lia]. specialize (Hask p eq_refl). unfold gate_answer, answer_within in *.
    destruct (at_answer tn) as [[]| |content calls]; try (simpl; lia). destruct calls as [|c calls].
    + repeat case_match; simpl; lia.
    + cbn [fst]. etrans; [apply Hn|]. exact Hask.
  - repeat case_match; simpl; lia.
  - destruct (validate_args _ _ _ _) as [e err|j b] eqn:E; [cbn [fst]; specialize (Hn p k err); lia|].
    apply validate_args_job in E as (_ & _ & <-). by destruct b.
  - by case_match.
  - repeat case_match; simpl; try lia. specialize (Hn (aj_project j) (aj_cont j) true). lia.
  - by case_match.
  - destruct (page_of _ _ _ _); [|cbn [fst return_call]; specialize (Hn (aj_project j) (aj_cont j) true); lia].
    unfold gate_recent, return_call. cbv zeta. specialize (Hn (aj_project j) (aj_cont j) false).
    repeat case_match; cbn [fst pend]; lia.
  - pose proof (Hn (aj_project j) (aj_cont j) true). pose proof (Hn (aj_project j) (aj_cont j) false).
    repeat case_match; cbn [fst pend return_call]; lia.
  - destruct (LeaderElection.DangerousWriteAllowed _ _ _).1; cbn [fst return_call].
    + by rewrite gate_reserve_pend.
    + specialize (Hn (aj_project j) (aj_cont j) false). lia.
  - by case_match.
  - by case_match.
  - specialize (Hn (aj_project j) (aj_cont j) false). destruct (Reserve_tx _ _ _ _ _) as [[out l]|]; [|done].
    destruct (failed _); [done|]. destruct (b_Blocked _); [cbn [fst return_call]; lia|done].
  - pose proof (Hn (aj_project j) (aj_cont j) true). pose proof (Hn (aj_project j) (aj_cont j) false).
    destruct (if refused _ then _ else _) as [[t' tbl]|]; [|cbn [fst return_call]; lia].
    destruct (failed _); [cbn [fst return_call]; lia|]. destruct (m_rateLimiter m); cbn [fst return_call created pend]; lia.
  - done.
  - specialize (Hn (aj_project j) (aj_cont j) false). unfold created, return_call. cbn [fst]. lia.
  - done.
Qed.
End Facts.
