(* ===== verification/AutonomyRuns.v ===== *)
(** * Runs of the autonomy manager

    Over every interleaving of a daemon's ticks with other clients of the task table, a
    project never has two active autonomous tasks of one type, workflow and normalized
    prompt: the mutex keeps the look at the newest tasks and the insert of every call
    together.  The second part is about the hourly cap. *)
From S2P Require LeaderElection TaskCreate TaskCreateFacts.
From S2P Require Import Prelude GoStrings TaskModel TaskRepo TaskRepoFacts TaskRepoSafety TaskRepoTypes Registry RateLimit Budget.
From S2P Require Import AutonomyBacklog AutonomyGates Autonomy AutonomyFacts.
Open Scope list_scope.
Open Scope Z_scope.

(** Of the arguments of a call, what the payload is made from is what the payload of the
    stored row decodes to. *)
Class AutonomyJsonStable `{AJ : AutonomyJson, pg : Postgres} : Prop :=
  payload_stable raw prompt ty wf x :
    unmarshal_args raw = Some (prompt, ty, wf) -> jsonb_in (marshal_payload ty (TrimSpace prompt)) = Some x ->
    x <> ""%string /\ unmarshal_payload x = Some (ty, TrimSpace prompt).

Section Runs.
Context {L : ProjectLimiter} {AJ : AutonomyJson} {AD : AutonomyDigest} `{pg : Postgres, tz : TzDatabase}.
Context (m : Manager) (pid : string).

(** An active autonomous task of the project, and what it is about. *)
Definition live (t : Task) : Prop :=
  ProjectID t = pid /\ CreationSource t = TaskCreationSourceAutonomous /\ Status t ∈ active_statuses.
Definition request (t : Task) : string * string * string :=
  let s := summarizeAutonomyTask t in (s_taskType s, s_workflow s, normalizeAutonomyPrompt (s_prompt s)).
Definition job_request (j : AJob) : string * string * string :=
  (aj_type j, aj_workflowID j, normalizeAutonomyPrompt (aj_prompt j)).

Definition single (tbl : Table) : Prop :=
  forall t u, t ∈ tbl -> u ∈ tbl -> live t -> live u -> request t = request u -> ID t = ID u.

(** Another client neither creates nor revives an autonomous task of the project. *)
Definition keeps_live (tbl tbl' : Table) : Prop :=
  forall t', t' ∈ tbl' -> live t' -> exists t, t ∈ tbl /\ ID t = ID t' /\ live t /\ request t = request t'.

(** The active ones are among the fifty newest tasks of the project. *)
Definition visible (tbl : Table) : Prop := forall t, t ∈ tbl -> live t -> t ∈ newest 50 pid tbl.

Definition sound_event (ev : AEvent) (s : list APC * AWorld) : Prop :=
  match ev with
  | AevRepo cl => keeps_live (aw_tasks s.2) (apply_call (aw_tasks s.2) cl)
  | AevTurn i tn => forall j, s.1 !! i = Some (ApList j) -> aj_pid j = pid -> visible (aw_tasks s.2)
  | _ => True
  end.
Fixpoint sound_run (evs : list AEvent) (s : list APC * AWorld) : Prop :=
  match evs with
  | [] => True
  | ev :: evs => sound_event ev s /\ sound_run evs (astep m ev s)
  end.

(** ** What a call has seen *)

(** No active autonomous task makes the job's request. *)
Definition clear (j : AJob) (tbl : Table) : Prop := forall t, t ∈ tbl -> live t -> request t <> job_request j.

(** The statements between the look at the newest tasks and the insert. *)
Definition looked (pc : APC) : option AJob :=
  match pc with
  | ApIdem j | ApFence j _ | ApResDaily j _ | ApResMonthly j _ _ _ | ApResTx j _ _ _ _ | ApInsert j _ => Some j
  | _ => None
  end.

Lemma keeps_single tbl tbl' : keeps_live tbl tbl' -> single tbl -> single tbl'.
Proof.
  intros Hk Hs t u Ht Hu Lt Lu E. destruct (Hk t Ht Lt) as (t0 & ? & <- & ? & E1).
  destruct (Hk u Hu Lu) as (u0 & ? & <- & ? & E2). apply Hs; try done. congruence.
Qed.

Lemma keeps_clear j tbl tbl' : keeps_live tbl tbl' -> clear j tbl -> clear j tbl'.
Proof. intros Hk Hc t Ht Lt. destruct (Hk t Ht Lt) as (t0 & ? & _ & ? & <-). by apply Hc. Qed.

Lemma request_scan t : request (scanTask t) = request t.
Proof. done. Qed.

(** A call that goes on after its look has seen every active task. *)
Lemma gate_recent_clear tn j w : aj_pid j = pid -> visible (aw_tasks w) ->
  looked (gate_recent m tn j (map scanTask (newest 50 pid (aw_tasks w))) w).1 <> None ->
  clear j (aw_tasks w).
Proof.
  intros Hj Hv. unfold gate_recent. cbv zeta.
  assert (Hn : forall err w', looked (return_call j err w').1 = None) by (intros; unfold return_call, next_call; by repeat case_match).
  destruct (autonomyCircuitOpen _); [by rewrite Hn|].
  destruct (findAutonomyDuplicate _ _ _ _ _ _) eqn:E; [by rewrite Hn|]. intros _ t Ht Lt Hr.
  apply not_true_iff_false in E. apply E. apply existsb_elem. exists (scanTask t).
  split; [apply list_elem_of_fmap; eauto|]. unfold request, job_request in Hr. injection Hr as H1 H2 H3.
  destruct Lt as (_ & _ & Ha). unfold duplicate_of, same_request.
  change (summarizeAutonomyTask (scanTask t)) with (summarizeAutonomyTask t).
  assert (s_status (summarizeAutonomyTask t) = Status t) as ->.
  { unfold summarizeAutonomyTask. by repeat case_match. }
  by rewrite (bool_decide_eq_true_2 _ Ha), (bool_decide_eq_true_2 _ H1), (bool_decide_eq_true_2 _ H2), (bool_decide_eq_true_2 _ H3).
Qed.

(** A turn that is past its look was there before, unless it is the look. *)
Lemma aturn_looked i tn pc w j :
  looked (aturn m i tn pc w).1 = Some j -> looked pc = Some j \/ pc = ApList j.
Proof.
  intros H. pose proof (aturn_job m i tn pc w) as Hj. cbv zeta in Hj.
  assert (Hl : job_of (aturn m i tn pc w).1 = Some j) by (by destruct (aturn m i tn pc w).1; simplify_eq/=).
  destruct Hj as [E|[(E & _)|(p & k & raw & j' & b & -> & Ev & _)]]; [congruence| |].
  - rewrite E in Hl. destruct pc; cbn in Hl; simplify_eq; try (by left); try (by right); exfalso; revert H; cbn [aturn eval_turn create_turn];
      repeat case_match; try done; unfold created, return_call, next_call; by repeat case_match.
  - cbn [aturn eval_turn create_turn] in H. rewrite Ev in H. by destruct b.
Qed.

(** The row a call inserts makes its request. *)
Lemma inserted_request `{!AutonomyJsonStable} now j t t' tbl tbl' :
  job_ok j -> built j t -> Create now (Some t) tbl = Ok (t', tbl') ->
  exists r, tbl' = tbl ++ [r] /\ request r = job_request j /\ ProjectID r = aj_pid j /\
    CreatedAt r = ts_in (CreatedAt t').
Proof.
  intros (prompt & Ea & Ep) (key & id & at_ & ->) E.
  apply res_bind_ok in E as (tbl1 & E & [= <- <-]). apply with_binds_Ok in E as [Hb E].
  unfold exec_insert in E. destruct (constraint_error _ _); [done|]. injection E as <-.
  eexists. split; [done|]. split; [|done].
  do 4 (apply Forall_cons in Hb as [_ Hb]). apply Forall_cons in Hb as [Hj _]. cbn in Hj.
  destruct (jsonb_in (marshal_payload (aj_type j) (aj_prompt j))) as [x|] eqn:Ex; [|done].
  rewrite Ep in Ex. destruct (payload_stable _ _ _ _ _ Ea Ex) as [Hne Hu].
  unfold request, job_request, summarizeAutonomyTask. cbn. rewrite Ep, Ex. cbn.
  rewrite bool_decide_eq_false_2 by done. rewrite Hu. cbn. f_equal. f_equal.
  by case_bool_decide as Ew; [rewrite Ew|].
Qed.

(** ** The invariant *)

Definition seen (w : AWorld) (pc : APC) : Prop :=
  forall j, looked pc = Some j -> aj_pid j = pid -> clear j (aw_tasks w).

Record run_inv (s : list APC * AWorld) : Prop := mkRunInv {
  ri_ok : forall i pc, s.1 !! i = Some pc -> apc_ok pc;
  ri_mutex : forall i pc, s.1 !! i = Some pc -> locked pc = true -> aw_holder s.2 = Some i;
  ri_seen : forall i pc, s.1 !! i = Some pc -> seen s.2 pc;
  ri_single : single (aw_tasks s.2)
}.

Lemma looked_locked pc j : looked pc = Some j -> locked pc = true.
Proof. by destruct pc. Qed.
Lemma seen_unlocked w pc : locked pc = false -> seen w pc.
Proof. intros H j Hj. apply looked_locked in Hj. congruence. Qed.

(** A turn that leaves the task table alone. *)
Lemma seen_quiet i tn pc w : seen w pc ->
  (forall j, pc = ApList j -> aj_pid j = pid -> visible (aw_tasks w)) ->
  aw_tasks (aturn m i tn pc w).2 = aw_tasks w -> seen (aturn m i tn pc w).2 (aturn m i tn pc w).1.
Proof.
  intros Hs Hv Et j Hj Hp. rewrite Et. destruct (aturn_looked i tn pc w j Hj) as [H| ->]; [by apply (Hs j)|].
  cbn [aturn eval_turn create_turn] in Hj. rewrite page_of_newest in Hj by done. specialize (Hv j eq_refl Hp).
  destruct (TaskCreate.read _ _) as [l|] eqn:E.
  - apply TaskCreateFacts.read_Ok in E as [_ [= <-]]. rewrite Hp in Hj.
    eapply gate_recent_clear; [done|done|]. intros E. rewrite E in Hj. done.
  - exfalso. revert Hj. unfold return_call, next_call. by repeat case_match.
Qed.

Lemma mutex_step i (pcs : list APC) pc' w w' :
  (forall k pc, pcs !! k = Some pc -> locked pc = true -> aw_holder w = Some k) ->
  (locked pc' = true -> aw_holder w' = Some i) ->
  (forall k, k <> i -> aw_holder w = Some k -> aw_holder w' = Some k) ->
  forall k pc, <[i := pc']> pcs !! k = Some pc -> locked pc = true -> aw_holder w' = Some k.
Proof.
  intros Hm Hi Hk k pc Hl Hlock. destruct (decide (k = i)) as [->|Hne].
  - destruct (decide (i < length pcs)%nat) as [Hlt|Hge].
    + rewrite list_lookup_insert_eq in Hl by done. injection Hl as <-. by apply Hi.
    + rewrite list_insert_ge in Hl by lia. apply lookup_lt_Some in Hl. lia.
  - rewrite list_lookup_insert_ne in Hl by done. eauto.
Qed.

(** What the effect of a turn means for the mutex. *)
Lemma effect_mutex i tn w pc pc' w' :
  aeffect m i tn w pc pc' w' -> (locked pc = true -> aw_holder w = Some i) ->
  (locked pc' = true -> aw_holder w' = Some i) /\
  (forall k, k <> i -> aw_holder w = Some k -> aw_holder w' = Some k).
Proof.
  intros He Hl. destruct He as [pc pc' w' Hc El|pc pc' w' Hr Hp Hp'|j w' Eh ->|p pc' w1 w' ok Hm Eh Ec Hc ->|j t t' tbl pc' w1 w' Hf Ec -> Hd].
  - rewrite El, (sc_holder _ _ Hc). auto.
  - split; [congruence|]. intros k Hk E. rewrite Hl in E by done. congruence.
  - split; [done|]. intros k _ E. congruence.
  - apply check_frame in Ec as [_ Ec]. split; [|congruence]. destruct ok; [rewrite gate_limiter_unlocked|]; done.
  - specialize (Hl eq_refl). destruct Hd as [[Hc ->]|[Hr [err ->]]].
    + assert (aw_holder w' = Some i) as ->; [|split; [done|congruence]].
      rewrite (sc_holder _ _ Hc). by destruct (failed _).
    + rewrite next_call_unlocked. split; [done|congruence].
Qed.

(** The table changes only by the insert of a call. *)
Lemma effect_tasks i tn w pc pc' w' :
  aeffect m i tn w pc pc' w' ->
  aw_tasks w' = aw_tasks w \/
  exists j t t' tbl, pc = ApInsert j t /\ Create (at_clock tn) (Some t) (aw_tasks w) = Ok (t', tbl) /\
    aw_tasks w' = tbl /\ looked pc' = None.
Proof.
  intros He. destruct He as [pc pc' w' Hc El|pc pc' w' Hr Hp Hp'|j w' Eh ->|p pc' w1 w' ok Hm Eh Ec Hc ->|j t t' tbl pc' w1 w' Hf Ec -> Hd].
  - left. apply Hc.
  - left. apply Hr.
  - by left.
  - left. rewrite (sc_tasks _ _ Hc). by apply check_frame in Ec as [-> _].
  - right. exists j, t, t', tbl. split_and!; [done|done| |].
    + destruct Hd as [[[-> _ _ _] _]|[[-> _ _ _] _]]; by destruct (failed _).
    + destruct Hd as [[_ ->]|[_ [err ->]]]; [done|]. unfold next_call. by repeat case_match.
Qed.

Lemma insert_elem (i : nat) (pcs : list APC) pc' k pc :
  <[i := pc']> pcs !! k = Some pc -> k = i /\ pc = pc' \/ k <> i /\ pcs !! k = Some pc.
Proof.
  intros H. destruct (decide (k = i)) as [->|]; [|rewrite list_lookup_insert_ne in H by done; auto].
  apply list_lookup_insert_Some in H. naive_solver.
Qed.

Lemma turn_inv `{!AutonomyJsonStable} i tn pcs w pc :
  pcs !! i = Some pc -> run_inv (pcs, w) ->
  (forall j, pc = ApList j -> aj_pid j = pid -> visible (aw_tasks w)) ->
  run_inv (<[i := (aturn m i tn pc w).1]> pcs, (aturn m i tn pc w).2).
Proof.
  intros Hi [Hok Hm Hs Hsingle] Hv. cbn [fst snd] in *.
  pose proof (aturn_effect m i tn pc w) as He. pose proof (effect_mutex _ _ _ _ _ _ He (Hm i pc Hi)) as [Hl Hother].
  pose proof (seen_quiet i tn pc w (Hs i pc Hi) Hv) as Hquiet. pose proof (aturn_apc_ok m i tn pc w (Hok i pc Hi)) as Hapc.
  destruct (aturn m i tn pc w) as [pc' w']. cbn [fst snd] in *.
  apply effect_tasks in He as [Et|(j & t & t' & tbl & -> & Ec & Et & Hn)].
  - split; cbn [fst snd].
    + intros k q [[-> ->]|[_ Hk]]%insert_elem; eauto.
    + by eapply mutex_step.
    + intros k q [[-> ->]|[_ Hk]]%insert_elem; [by apply Hquiet|]. unfold seen. rewrite Et. exact (Hs k q Hk).
    + by rewrite Et.
  - destruct (Hok i _ Hi) as [Hj Hb]. specialize (Hj j eq_refl). specialize (Hb j t eq_refl eq_refl).
    destruct (inserted_request _ _ _ _ _ _ Hj Hb Ec) as (r & -> & Er & Ep & _).
    split; cbn [fst snd].
    + intros k q [[-> ->]|[_ Hk]]%insert_elem; eauto.
    + by eapply mutex_step.
    + intros k q [[-> ->]|[Hne Hk]]%insert_elem; [intros j' Hj'; congruence|]. apply seen_unlocked.
      destruct (locked q) eqn:E; [|done]. pose proof (Hm k q Hk E). pose proof (Hm i _ Hi eq_refl). congruence.
    + rewrite Et. intros x y Hx Hy Lx Ly Exy. apply elem_of_app in Hx, Hy. rewrite !list_elem_of_singleton in *.
      destruct Hx as [Hx| ->], Hy as [Hy| ->]; [by apply Hsingle| | |done]; exfalso.
      * apply (Hs i _ Hi j eq_refl (ltac:(destruct Ly; congruence)) x Hx Lx). congruence.
      * apply (Hs i _ Hi j eq_refl (ltac:(destruct Lx; congruence)) y Hy Ly). congruence.
Qed.

Lemma step_inv `{!AutonomyJsonStable} ev s : run_inv s -> sound_event ev s -> run_inv (astep m ev s).
Proof.
  destruct s as [pcs w]. intros Hinv Hsound.
  destruct ev as [i p initial|i tn|cl|rows|id now|g locks|path content|]; cbn [astep sound_event fst snd] in *.
  - destruct (pcs !! i) as [[]|] eqn:Hi; try done. destruct (initial || _); [|done].
    destruct Hinv as [Hok Hm Hs Hsingle]. split; cbn [fst snd] in *; [| | |done];
      intros k q [[-> ->]|[_ Hk]]%insert_elem; eauto; [by apply no_job_ok|done].
  - destruct (pcs !! i) as [pc|] eqn:Hi; [|done]. pose proof (turn_inv i tn pcs w pc Hi Hinv) as Hturn.
    destruct (aturn m i tn pc w). apply Hturn. intros j ->. by apply Hsound.
  - destruct Hinv as [Hok Hm Hs Hsingle]. split; cbn [fst snd] in *; [done|done| |by eapply keeps_single].
    intros i pc Hi j Hj Hp. eapply keeps_clear; [done|by eapply Hs].
  - by destruct Hinv.
  - by destruct Hinv.
  - by destruct Hinv.
  - by destruct Hinv.
  - destruct (is_some _); [done|]. by destruct Hinv.
Qed.

(** C23: In every interleaving of the ticks of one daemon with each other and with clients
    that neither create nor revive autonomous tasks of the project, the project never has
    two active autonomous tasks with the same type, workflow and normalized prompt, as long
    as its active ones are among its fifty newest tasks whenever a call looks. *)
Theorem one_active_task `{!AutonomyJsonStable} n w evs :
  aw_holder w = None -> single (aw_tasks w) -> sound_run evs (replicate n ApIdle, w) ->
  single (aw_tasks (arun m evs (replicate n ApIdle, w)).2).
Proof.
  intros Hh Hs Hr. assert (Hinv : run_inv (replicate n ApIdle, w)).
  { split; cbn [fst snd]; [| | |done]; intros i pc [-> _]%lookup_replicate; [by apply no_job_ok|done|done]. }
  clear Hh Hs. revert Hinv Hr. generalize (replicate n ApIdle, w).
  induction evs as [|ev evs IH]; intros s Hinv Hr; [apply Hinv|].
  destruct Hr as [Hev Hr]. cbn [arun foldl]. apply (IH _); [by apply step_inv|done].
Qed.
End Runs.

(** ** The hourly cap of autonomous tasks

    [maxTasksPerHour] over every interleaving of a daemon's ticks: the cached count never
    falls below the number of rows of the last hour, so the cap is exceeded at most by the
    further tool calls of one answer. *)
(** The autonomous rows of a project since a moment. *)
Definition made_since (pid : string) (cut : time) (tbl : Table) : Z :=
  Z.of_nat (count_if (fun t => (ProjectID t =?? pid) && recent_autonomous cut t) tbl).

Lemma made_since_antitone pid cut cut' tbl : cut <= cut' -> made_since pid cut' tbl <= made_since pid cut tbl.
Proof.
  intros H. apply Nat2Z.inj_le, count_if_mono. intros t _. unfold recent_autonomous.
  rewrite !andb_true_iff, !negb_true_iff, !Z.ltb_ge. intros (? & ? & ?). split_and!; try done. lia.
Qed.

Lemma made_since_nonneg pid cut tbl : 0 <= made_since pid cut tbl.
Proof. apply Nat2Z.is_nonneg. Qed.

Lemma made_since_app pid cut tbl r :
  made_since pid cut (tbl ++ [r]) <= made_since pid cut tbl + 1 /\
  (ProjectID r <> pid -> made_since pid cut (tbl ++ [r]) = made_since pid cut tbl).
Proof.
  unfold made_since. rewrite count_if_app, count_if_cons, count_if_nil. split.
  - case_match; lia.
  - intros H. rewrite bool_decide_eq_false_2 by done. cbn [andb]. lia.
Qed.

Section Rate.
Context {L : ProjectLimiter} {AJ : AutonomyJson} {AD : AutonomyDigest} `{pg : Postgres, tz : TzDatabase}.
Context (m : Manager) (pid : string).
(** The goroutine of the project, its cap, and the number of tool calls of one answer. *)
Context (i0 : nat) (N : Z) (K : nat).

(** What is asked of a turn for the project: the count is read, from a page that holds the
    project's tasks of the last hour; an answer asks for [K] tasks at most; the reply of an
    insert is not lost. *)
Definition turn_within (tn : ATurn) (pc : APC) (tbl : Table) : Prop :=
  match pc with
  | ApRate p => ap_ID p = pid -> at_fault tn = NoFault /\
      Z.of_nat (count_if (fun t => (ProjectID t =?? pid) && negb (CreatedAt t <? at_clock tn - Hour)) tbl) <= 100
  | ApAsk p => ap_ID p = pid -> answer_within K (at_answer tn)
  | ApInsert j _ => aj_pid j = pid -> at_fault tn <> ReplyLost
  | _ => True
  end.

(** The daemon's clock does not go back; the project has one goroutine and one cap; other
    clients add no autonomous tasks to it. *)
Definition event_within (T : time) (ev : AEvent) (s : list APC * AWorld) : Prop :=
  match ev with
  | AevTick i p _ => ap_ID p = pid -> i = i0 /\ MaxTasksPerHour (ap_Autonomy p) = N
  | AevTurn i tn => T <= at_clock tn /\ forall pc, s.1 !! i = Some pc -> turn_within tn pc (aw_tasks s.2)
  | AevRepo cl => forall cut, made_since pid cut (apply_call (aw_tasks s.2) cl) <= made_since pid cut (aw_tasks s.2)
  | _ => True
  end.

Definition clock_after (T : time) (ev : AEvent) : time :=
  match ev with AevTurn _ tn => at_clock tn | _ => T end.

Fixpoint run_within (T : time) (evs : list AEvent) (s : list APC * AWorld) : Prop :=
  match evs with
  | [] => True
  | ev :: evs => event_within T ev s /\ run_within (clock_after T ev) evs (astep m ev s)
  end.
Definition last_clock (T : time) (evs : list AEvent) : time := foldl clock_after T evs.

(** ** The invariant *)

Definition allowance : Z := N + Z.of_nat K - 1.

(** A goroutine: its tick is one of the project's goroutine, and what it may still create
    fits under the allowance. *)
Definition pc_within (T : time) (tbl : Table) (i : nat) (pc : APC) : Prop :=
  apc_ok pc /\
  forall p, project_of pc = Some p -> ap_ID p = pid ->
    i = i0 /\ MaxTasksPerHour (ap_Autonomy p) = N /\
    made_since pid (T - Hour) tbl + Z.of_nat (pend K pc) <= allowance.

Record within (T : time) (s : list APC * AWorld) : Prop := mkWithin {
  wi_made : made_since pid (T - Hour) (aw_tasks s.2) <= allowance;
  wi_count : forall r, aw_hourReset s.2 !! pid = Some r ->
    r <= T /\ made_since pid (r - Hour) (aw_tasks s.2) <= default 0 (aw_taskCounts s.2 !! pid);
  wi_pcs : forall i pc, s.1 !! i = Some pc -> pc_within T (aw_tasks s.2) i pc
}.

Lemma pc_within_mono T T' tbl tbl' i pc :
  made_since pid (T' - Hour) tbl' <= made_since pid (T - Hour) tbl ->
  pc_within T tbl i pc -> pc_within T' tbl' i pc.
Proof. intros H [Hok Hp]. split; [done|]. intros p E Ep. destruct (Hp p E Ep) as (? & ? & ?). split_and!; try done. lia. Qed.

(** Time passes and other clients act. *)
Lemma within_mono T T' pcs w w' :
  T <= T' -> (forall cut, made_since pid cut (aw_tasks w') <= made_since pid cut (aw_tasks w)) ->
  aw_taskCounts w' = aw_taskCounts w -> aw_hourReset w' = aw_hourReset w ->
  within T (pcs, w) -> within T' (pcs, w').
Proof.
  intros HT Hm Hc Hr [H1 H2 H3]. cbn [fst snd] in *.
  assert (Hle : made_since pid (T' - Hour) (aw_tasks w') <= made_since pid (T - Hour) (aw_tasks w)).
  { etrans; [apply Hm|]. apply made_since_antitone. lia. }
  split; cbn [fst snd].
  - lia.
  - rewrite Hc, Hr. intros r Er. destruct (H2 r Er) as [? ?]. split; [lia|]. etrans; [apply Hm|done].
  - intros i pc Hi. eapply pc_within_mono; [exact Hle|eauto].
Qed.

(** The check of the project's own tick. *)
Lemma check_admits p tn w ok w1 T :
  ap_ID p = pid -> MaxTasksPerHour (ap_Autonomy p) = N -> T <= at_clock tn ->
  turn_within tn (ApRate p) (aw_tasks w) ->
  (forall r, aw_hourReset w !! pid = Some r ->
     r <= T /\ made_since pid (r - Hour) (aw_tasks w) <= default 0 (aw_taskCounts w !! pid)) ->
  checkRateLimitLocked p (at_clock tn) (at_fault tn) w = (ok, w1) ->
  (forall r, aw_hourReset w1 !! pid = Some r ->
     r <= at_clock tn /\ made_since pid (r - Hour) (aw_tasks w1) <= default 0 (aw_taskCounts w1 !! pid)) /\
  (ok = true -> made_since pid (at_clock tn - Hour) (aw_tasks w1) <= N - 1).
Proof.
  intros Hp HN HT Hw Hc E. destruct (check_frame _ _ _ _ _ _ E) as [Et _]. destruct (Hw Hp) as [Hf Hpage].
  unfold checkRateLimitLocked in E. cbv zeta in E. rewrite Hp, Hf in E.
  assert (Hn : countAutonomousTasksLastHour pid (at_clock tn) NoFault (aw_tasks w) =
               Ok (made_since pid (at_clock tn - Hour) (aw_tasks w))).
  { unfold countAutonomousTasksLastHour. rewrite page_of_newest by done. cbn [TaskCreate.read failed res_bind].
    unfold made_since. do 2 f_equal. rewrite count_if_map.
    rewrite <- (newest_count (Z.to_nat 100) pid (at_clock tn - Hour) (recent_autonomous (at_clock tn - Hour)));
      [done|exact Hpage|].
    intros t Ht. unfold recent_autonomous in Ht. btauto_hyps. lia. }
  rewrite Hn in E.
  destruct (match aw_hourReset w !! pid with Some _ => _ | None => _ end) eqn:Es; injection E as <- <-; cbn.
  - rewrite !lookup_insert_eq. split; [intros r [= <-]; split; [lia|done]|].
    intros Hok%Z.ltb_lt. cbn in Hok. enough (made_since pid (at_clock tn - Hour) (aw_tasks w) <= N - 1) by done. lia.
  - destruct (aw_hourReset w !! pid) as [r|] eqn:Er; [|done]. destruct (Hc r eq_refl) as [Hr Hmade]. split.
    + intros r' [= <-]. split; [lia|done].
    + intros Hok%Z.ltb_lt. pose proof (made_since_antitone pid (r - Hour) (at_clock tn - Hour) (aw_tasks w)). lia.
Qed.

(** The check of another project's tick. *)
Lemma check_other p tn w ok w1 : ap_ID p <> pid ->
  checkRateLimitLocked p (at_clock tn) (at_fault tn) w = (ok, w1) ->
  aw_hourReset w1 !! pid = aw_hourReset w !! pid /\ aw_taskCounts w1 !! pid = aw_taskCounts w !! pid.
Proof.
  intros Hp E. unfold checkRateLimitLocked in E. cbv zeta in E. injection E as _ <-.
  destruct (match aw_hourReset w !! ap_ID p with Some _ => _ | None => _ end); [|done].
  destruct (countAutonomousTasksLastHour _ _ _ _); cbn; by rewrite ?lookup_insert_ne by done.
Qed.

(** ** One turn *)

Lemma within_set T i (pcs : list APC) pc' w' :
  made_since pid (T - Hour) (aw_tasks w') <= allowance ->
  (forall r, aw_hourReset w' !! pid = Some r ->
     r <= T /\ made_since pid (r - Hour) (aw_tasks w') <= default 0 (aw_taskCounts w' !! pid)) ->
  (forall k pc, k <> i -> pcs !! k = Some pc -> pc_within T (aw_tasks w') k pc) ->
  pc_within T (aw_tasks w') i pc' -> within T (<[i := pc']> pcs, w').
Proof.
  intros H1 H2 H3 H4. split; cbn [fst snd]; [done|done|].
  intros k q [[-> ->]|[Hne Hk]]%insert_elem; eauto.
Qed.

(** The project's counts and its rows are as before. *)
Lemma within_same T i pcs pc pc' w w' :
  within T (pcs, w) -> pcs !! i = Some pc -> apc_ok pc' ->
  aw_hourReset w' !! pid = aw_hourReset w !! pid -> aw_taskCounts w' !! pid = aw_taskCounts w !! pid ->
  (forall cut, made_since pid cut (aw_tasks w') = made_since pid cut (aw_tasks w)) ->
  (forall p, project_of pc' = Some p -> ap_ID p = pid -> project_of pc = Some p /\ (pend K pc' <= pend K pc)%nat) ->
  within T (<[i := pc']> pcs, w').
Proof.
  intros [H1 H2 H3] Hi Hok Hr Hc Hm Hp. cbn [fst snd] in *. apply within_set.
  - by rewrite Hm.
  - rewrite Hr, Hc. intros r Er. rewrite Hm. auto.
  - intros k q _ Hk. eapply pc_within_mono; [|by apply H3]. by rewrite Hm.
  - destruct (H3 i pc Hi) as [_ Hpc]. split; [done|]. intros p Ep Eid.
    destruct (Hp p Ep Eid) as [Eq Hle]. destruct (Hpc p Eq Eid) as (? & ? & ?). rewrite Hm. split_and!; try done. lia.
Qed.

(** The turn that checks the cap. *)
Lemma rate_turn_inv T i tn pcs w p : 0 < N ->
  pcs !! i = Some (ApRate p) -> T <= at_clock tn -> turn_within tn (ApRate p) (aw_tasks w) ->
  within T (pcs, w) -> within (at_clock tn) (pcs, w) ->
  within (at_clock tn) (<[i := (aturn m i tn (ApRate p) w).1]> pcs, (aturn m i tn (ApRate p) w).2).
Proof.
  intros HN Hi HT Hw [_ Hc0 _] Hin. cbn [fst snd] in Hc0.
  pose proof (aturn_apc_ok m i tn (ApRate p) w (proj1 (wi_pcs _ _ Hin i _ Hi))) as Hok'.
  pose proof (fun q => aturn_project m i tn (ApRate p) w q) as Hproj. revert Hok' Hproj. cbn [aturn eval_turn create_turn].
  destruct (decide (ap_ID p = pid)) as [Hp|Hp].
  - destruct (proj2 (wi_pcs _ _ Hin i _ Hi) p eq_refl Hp) as (Ei & EN & _).
    destruct (Z.leb_spec (MaxTasksPerHour (ap_Autonomy p)) 0); [lia|].
    destruct (is_some (aw_holder w)); [intros _ _; by rewrite list_insert_id|].
    destruct (checkRateLimitLocked _ _ _ _) as [ok w1] eqn:E.
    destruct (check_admits p tn w ok w1 T Hp EN HT Hw Hc0 E) as [Hcount Hadm].
    destruct (check_frame _ _ _ _ _ _ E) as [Et _]. intros Hok' Hproj.
    assert (Hcore : same_core w1 (if ok then (gate_limiter m p, w1) else (ApIdle, eval_tick m tn p AutonomyOutcomeRateLimited w1)).2).
    { destruct ok; [done|apply record_eval_core]. }
    destruct (if ok then _ else _) as [pc' w'] eqn:Eok. cbn [fst snd] in *. destruct Hcore as [Ht Hcn Hrs _].
    destruct Hin as [H1 _ H3]. cbn [fst snd] in *. apply within_set; rewrite ?Ht, ?Hcn, ?Hrs, ?Et.
    + done.
    + by rewrite <- Et.
    + intros k q _ Hk. by apply H3.
    + split; [done|]. intros q Eq Eid. apply Hproj in Eq. cbn in Eq. injection Eq as <-. split_and!; [done|done|].
      destruct ok; injection Eok as <- <-; [|cbn [pend]; lia].
      specialize (Hadm eq_refl). rewrite Et in Hadm. pose proof (gate_limiter_pend m K p). unfold allowance. lia.
  - match goal with |- context [within _ (<[i := ?x.1]> pcs, _)] => set (s' := x) end. intros Hok' Hproj.
    assert (H : aw_tasks s'.2 = aw_tasks w /\ aw_hourReset s'.2 !! pid = aw_hourReset w !! pid /\
                aw_taskCounts s'.2 !! pid = aw_taskCounts w !! pid).
    { subst s'. clear -Hp. destruct (_ <=? 0); [done|]. destruct (is_some _); [done|].
      destruct (checkRateLimitLocked _ _ _ _) as [ok w1] eqn:E. destruct (check_other _ _ _ _ _ Hp E) as [Er Ec].
      destruct (check_frame _ _ _ _ _ _ E) as [Et _]. destruct ok; [done|]. cbn [snd].
      destruct (record_eval_core m tn (mkEvaluation (ap_ID p) AutonomyOutcomeRateLimited None "" "" "") w1) as [E1 E2 E3 _].
      unfold eval_tick. by rewrite E1, E2, E3. }
    destruct H as (Et & Er & Ec). eapply within_same; try done; [by rewrite Et|].
    intros q Eq Eid. apply Hproj in Eq. cbn in Eq. injection Eq as <-. done.
Qed.

(** The insert. *)
Lemma insert_turn_inv T i tn pcs w j t t' tbl pc' w1 w' :
  pcs !! i = Some (ApInsert j t) -> turn_within tn (ApInsert j t) (aw_tasks w) -> within T (pcs, w) ->
  apc_ok pc' -> (forall p, project_of pc' = Some p -> project_of (ApInsert j t) = Some p) ->
  refused (at_fault tn) = false -> Create (at_clock tn) (Some t) (aw_tasks w) = Ok (t', tbl) ->
  w1 = (if failed (at_fault tn) then w <| aw_tasks := tbl |>
        else count_created (aj_pid j) (w <| aw_tasks := tbl |>)) ->
  aw_tasks w' = aw_tasks w1 -> aw_taskCounts w' = aw_taskCounts w1 -> aw_hourReset w' = aw_hourReset w1 ->
  (pend K pc' <= length (k_rest (aj_cont j)))%nat ->
  within T (<[i := pc']> pcs, w').
Proof.
  intros Hi Hw Hin Hok' Hproj Hf Ec Ew Et Ecn Ers Hpd.
  destruct (wi_pcs _ _ Hin i _ Hi) as [[_ Hb] Hpc]. specialize (Hb j t eq_refl eq_refl).
  destruct (create_row _ _ _ _ _ _ Hb Ec) as (r & -> & Ep & _).
  destruct (decide (aj_pid j = pid)) as [Hp|Hp].
  - destruct (at_fault tn) eqn:Efa; cbn [failed refused] in *; [|done|by destruct (Hw Hp)].
    destruct (Hpc (aj_project j) eq_refl Hp) as (Ei & EN & Hroom). cbn [pend] in Hroom.
    destruct Hin as [H1 H2 H3]. cbn [fst snd] in *. subst w1.
    change (aw_tasks w' = aw_tasks w ++ [r]) in Et. change (aw_hourReset w' = aw_hourReset w) in Ers.
    change (aw_taskCounts w' = <[aj_pid j := default 0 (aw_taskCounts w !! aj_pid j) + 1]> (aw_taskCounts w)) in Ecn.
    apply within_set; rewrite ?Et, ?Ecn, ?Ers.
    + destruct (made_since_app pid (T - Hour) (aw_tasks w) r) as [Hle _]. lia.
    + intros rr Er. destruct (H2 rr Er) as [? Hm]. split; [done|].
      destruct (made_since_app pid (rr - Hour) (aw_tasks w) r) as [Hle _]. rewrite Hp, lookup_insert_eq.
      change (default 0 (Some ?x)) with x. lia.
    + intros k q Hne Hk. destruct (H3 k q Hk) as [Hq Hqp]. split; [done|]. intros p Eq Eid.
      destruct (Hqp p Eq Eid) as (-> & _). congruence.
    + split; [done|]. intros p Eq Eid. apply Hproj in Eq. cbn in Eq. injection Eq as <-.
      destruct (made_since_app pid (T - Hour) (aw_tasks w) r) as [Hle _]. split_and!; [done|done|lia].
  - assert (Hrow : forall cut, made_since pid cut (aw_tasks w ++ [r]) = made_since pid cut (aw_tasks w)).
    { intros cut. apply made_since_app. congruence. }
    eapply within_same; try done.
    + rewrite Ers. subst w1. by destruct (failed _).
    + rewrite Ecn. subst w1. destruct (failed _); [done|]. cbn. by rewrite lookup_insert_ne by done.
    + intros cut. rewrite Et. subst w1. destruct (failed _); apply Hrow.
    + intros p Eq Eid. apply Hproj in Eq. cbn in Eq. injection Eq as <-. done.
Qed.

Lemma turn_within_inv T i tn pcs w pc :
  0 < N -> (1 <= K)%nat -> pcs !! i = Some pc -> T <= at_clock tn -> turn_within tn pc (aw_tasks w) ->
  within T (pcs, w) ->
  within (at_clock tn) (<[i := (aturn m i tn pc w).1]> pcs, (aturn m i tn pc w).2).
Proof.
  intros HN HK Hi HT Hw Hin.
  assert (Hin' : within (at_clock tn) (pcs, w)) by (by apply (within_mono T _ pcs w w)).
  destruct (match pc with ApRate p => Some p | _ => None end) as [p|] eqn:Epc.
  { destruct pc; simplify_eq. by apply (rate_turn_inv T). }
  pose proof (aturn_apc_ok m i tn pc w (proj1 (wi_pcs _ _ Hin i _ Hi))) as Hok'.
  pose proof (aturn_project m i tn pc w) as Hproj. pose proof (aturn_effect m i tn pc w) as He.
  assert (Hpend : forall p, project_of (aturn m i tn pc w).1 = Some p -> ap_ID p = pid ->
            project_of pc = Some p /\ (pend K (aturn m i tn pc w).1 <= pend K pc)%nat).
  { intros p Ep Eid. split; [auto|]. apply aturn_pend; [done|by intros q ->|]. intros q ->.
    apply Hproj in Ep. cbn in Ep. injection Ep as ->. by apply Hw. }
  destruct (aturn m i tn pc w) as [pc' w']. cbn [fst snd] in *.
  destruct He as [pc pc' w' [Et Ec Er _] El|pc pc' w' [Et Ec Er _] Hl Hl'|j w' Eh ->|p pc' w1 w' ok Hm Eh Ec Hc ->|j t t' tbl pc' w1 w' Hf Ec Ew Hd].
  - eapply within_same; try done; [by rewrite Er|by rewrite Ec|intros cut; by rewrite Et].
  - eapply within_same; try done; [by rewrite Er|by rewrite Ec|intros cut; by rewrite Et].
  - by eapply within_same.
  - done.
  - destruct Hd as [[[Et Ecn Ers _] ->]|[[Et Ecn Ers _] [err ->]]]; eapply insert_turn_inv; try done.
    apply next_call_pend.
Qed.

(** ** The theorem *)

Lemma step_within T ev s : 0 < N -> (1 <= K)%nat ->
  event_within T ev s -> within T s -> within (clock_after T ev) (astep m ev s).
Proof.
  destruct s as [pcs w]. intros HN HK He Hin.
  destruct ev as [i p initial|i tn|cl|rows|id now|g locks|path content|]; cbn [astep event_within clock_after fst snd] in *.
  - destruct (pcs !! i) as [[]|] eqn:Hi; try done. destruct (initial || _); [|done].
    destruct Hin as [H1 H2 H3]. cbn [fst snd] in *. apply within_set; try done; [eauto|].
    split; [by apply no_job_ok|]. intros q [= <-] Eid. destruct (He Eid) as [-> ->]. split_and!; [done|done|]. cbn [pend]. lia.
  - destruct He as [HT Hw]. destruct (pcs !! i) as [pc|] eqn:Hi; [|by apply (within_mono T _ pcs w w)].
    pose proof (turn_within_inv T i tn pcs w pc HN HK Hi HT (Hw pc eq_refl) Hin) as Hturn.
    by destruct (aturn m i tn pc w).
  - by apply (within_mono T T pcs w).
  - by apply (within_mono T T pcs w).
  - by apply (within_mono T T pcs w).
  - by apply (within_mono T T pcs w).
  - by apply (within_mono T T pcs w).
  - destruct (is_some _); [done|]. by destruct Hin as [H1 H2 H3].
Qed.

End Rate.
