(* ===== verification/AutonomyScenarios.v ===== *)
(** * Concrete runs of the autonomy manager

    A codec, a project in each mode and runs of its ticks: the theorems applied, and the
    runs behind the observations on suppressed backlog items, concurrent edits of the
    backlog, waiting tasks, several tool calls of one answer, crowded pages and the first
    tick of a loop. *)
From Stdlib Require Import Ascii.
From S2P Require LeaderElection.
From S2P Require Import Prelude GoStrings TaskModel TaskRepo TaskRepoFacts TaskRepoSafety Workflow Registry RateLimit Budget TaskCreateScenarios.
From S2P Require Import AutonomyBacklog AutonomyGates Autonomy AutonomyFacts AutonomyRuns.
Open Scope string_scope.
Open Scope list_scope.
Open Scope Z_scope.

(** ** A codec *)

Definition bar : ascii := ascii_of_nat 124.
Definition bar_text : string := String bar "".

#[export] Instance autonomy_json : AutonomyJson := {|
  unmarshal_args raw := match split bar_text raw with [p; t; w] => Some (p, t, w) | _ => None end;
  marshal_args p t w := String.concat bar_text [p; t; w];
  marshal_payload t p := (t ++ String bar p)%string;
  unmarshal_payload raw := cut bar_text raw
|}.
#[export] Instance autonomy_digest : AutonomyDigest := {| sha256_prefix s := s |}.

#[export] Instance autonomy_json_stable : AutonomyJsonStable (pg := pg_example).
Proof.
  intros raw prompt ty wf x E Ex. injection Ex as <-.
  change (match split bar_text raw with [p; t; w] => Some (p, t, w) | _ => None end = Some (prompt, ty, wf)) in E.
  unfold bar_text in E.
  destruct (split_lines bar raw) as (_ & _ & Hf).
  destruct (split (String bar "") raw) as [|a [|b [|c [|]]]]; try discriminate E. injection E as -> -> ->.
  apply Forall_cons in Hf as [_ [Hty _]%Forall_cons].
  split; [by destruct ty|]. by apply cut_byte_app.
Qed.

(** ** A daemon *)

Definition quiet_project : Project := {|
  p_ID := "p"; p_SwarmID := "s"; p_DefaultWorkflowID := "w"; p_DefaultPriority := 5;
  p_RateLimit := mkProjectRateLimit 0 0;
  p_Budget := mkProjectBudget f64_zero f64_zero f64_zero f64_zero "" f64_zero |}.
Definition auto_project (mode goal window : string) (cap : Z) : AutoProject :=
  mkAutoProject quiet_project (mkAutonomy true goal cap [] false "" window mode "chore").
Definition cron_project : AutoProject := auto_project "cron" "Check the feeds" "" 3.
Definition backlog_project : AutoProject := auto_project "backlog" "" "" 0.

Definition manager_example : Manager :=
  mkManager true (Some registry_example) false false false true true false false true.
Definition start_world (tbl : Table) (files : gmap string string) : AWorld (L := in_process_limiter) :=
  mkAWorld (L := in_process_limiter) tbl ∅ [] [] LeaderElection.GatePlain ∅ files ∅ ∅ None [] [] [] [].

Definition t0 : time := 1780000000 * Second.
Definition backlog_path : string := "/ws/p/BACKLOG.md".
Definition calm_turn (clock : time) (id : string) : ATurn :=
  mkATurn NoFault clock id AnswerNoChoices false None (Some backlog_path) false false.
Definition answer_turn (clock : time) (id : string) (calls : list (string * string)) : ATurn :=
  mkATurn NoFault clock id (AnswerMessage "" calls) false None None false false.

Abbreviation go := (arun (L := in_process_limiter) (pg := pg_example) manager_example).

(** A tick of goroutine [i] on its own. *)
Definition tick (i : nat) (p : AutoProject) (clock : time) (id : string) : list AEvent :=
  AevTick i p false :: repeat (AevTurn i (calm_turn clock id)) 12.

Definition summary (s : list (APC (L := in_process_limiter)) * AWorld (L := in_process_limiter)) :
    list (string * TaskStatus) * list AutonomyOutcome :=
  (map (fun t => (ID t, Status t)) (aw_tasks s.2), map ae_Outcome (aw_evals s.2)).

(** A cron tick creates a task; the next one finds it active. *)
Example cron_ticks :
  summary (go (tick 0 cron_project t0 "a" ++ tick 0 cron_project (t0 + 5 * Minute) "b") ([ApIdle], start_world [] ∅)) =
    ([("a", TaskStatusQueued)], [AutonomyOutcomeCreated; AutonomyOutcomeActiveTasks]).
Proof. vm_compute. reflexivity. Qed.

(** Two items of a backlog, an hour apart; the first task has been closed in between. *)
Definition two_items : string := ("- [ ] one" ++ newline ++ "- [ ] two")%string.
Example backlog_ticks :
  let s := go (tick 0 backlog_project t0 "a" ++
               [AevRepo (CallUpdateStatus t0 "a" TaskStatusCompleted)] ++
               tick 0 backlog_project (t0 + Hour) "b") ([ApIdle], start_world [] {[backlog_path := two_items]}) in
  summary s = ([("a", TaskStatusCompleted); ("b", TaskStatusQueued)], [AutonomyOutcomeCreated; AutonomyOutcomeCreated]) /\
  map Payload (aw_tasks s.2) = [Some "chore|one"; Some "chore|two"] /\
  aw_files s.2 !! backlog_path = Some ("- [x] one" ++ newline ++ "- [x] two")%string.
Proof. vm_compute. done. Qed.

(** ** Checking the hypotheses of a run *)

#[export] Instance live_dec pid t : Decision (live pid t).
Proof. unfold live. apply _. Defined.

Definition keeps_live_b (pid : string) (tbl tbl' : Table) : bool :=
  forallb (fun t' => negb (bool_decide (live pid t')) ||
    existsb (fun t => (ID t =?? ID t') && bool_decide (live pid t) && (request t =?? request t')) tbl) tbl'.

Definition sound_b (pid : string) (ev : AEvent) (w : AWorld (L := in_process_limiter)) : bool :=
  match ev with
  | AevRepo cl => keeps_live_b pid (aw_tasks w) (apply_call (pg := pg_example) (aw_tasks w) cl)
  | AevTurn _ _ => Nat.leb (length (aw_tasks w)) 50
  | _ => true
  end.
Fixpoint sound_run_b (pid : string) (evs : list AEvent) (s : list (APC (L := in_process_limiter)) * AWorld) : bool :=
  match evs with
  | [] => true
  | ev :: evs => sound_b pid ev s.2 && sound_run_b pid evs (astep (L := in_process_limiter) (pg := pg_example) manager_example ev s)
  end.

Lemma sound_run_check pid evs s : sound_run_b pid evs s = true ->
  sound_run (L := in_process_limiter) (pg := pg_example) manager_example pid evs s.
Proof.
  revert s. induction evs as [|ev evs IH]; intros s; [done|]. cbn [sound_run_b sound_run].
  intros [Hev Hr]%andb_true_iff. split; [|by apply IH].
  destruct ev; cbn [sound_event sound_b] in *; try done.
  - intros j _ _ t Ht [Hp _]. apply newest_small; try done. apply Nat.leb_le in Hev.
    etrans; [apply length_filter|done].
  - intros t' Ht' Lt'. unfold keeps_live_b in Hev. rewrite forallb_elem in Hev. specialize (Hev t' Ht').
    rewrite bool_decide_eq_true_2 in Hev by done. apply existsb_elem in Hev as (t & Ht & Hb). btauto_hyps. eauto.
Qed.

(** Two goroutines of the project tick at the same time, the task of one is leased, and
    both tick again. *)
Definition both (clock : time) (a b : string) : list AEvent :=
  [AevTick 0 cron_project false; AevTick 1 cron_project false] ++
  concat (repeat [AevTurn 0 (calm_turn clock a); AevTurn 1 (calm_turn clock b)] 24).
Definition twin_run : list AEvent :=
  both t0 "a" "b" ++ [AevRepo (CallLeaseTask (t0 + Minute) "l" ∅ lease_opts_example)] ++ both (t0 + 10 * Minute) "c" "d".

Lemma one_active_task_witness :
  let s := go twin_run (replicate 2 ApIdle, start_world [] ∅) in
  summary s = ([("a", TaskStatusLeased)],
    [AutonomyOutcomeCreated; AutonomyOutcomeDuplicate; AutonomyOutcomeActiveTasks; AutonomyOutcomeActiveTasks]) /\
  single "p" (aw_tasks s.2).
Proof.
  intros s. split; [by vm_compute|].
  apply (one_active_task (L := in_process_limiter) (pg := pg_example) manager_example "p" 2 (start_world [] ∅) twin_run).
  - done.
  - intros t u Ht. by apply elem_of_nil in Ht.
  - apply sound_run_check. clear. by vm_compute.
Defined.

Definition turn_within_b (pid : string) (K : nat) (tn : ATurn) (pc : APC (L := in_process_limiter)) (tbl : Table) : bool :=
  match pc with
  | ApRate p => negb (ap_ID p =?? pid) || (negb (failed (at_fault tn)) && Nat.leb (length tbl) 100)
  | ApAsk p => negb (ap_ID p =?? pid) ||
      match at_answer tn with AnswerMessage _ calls => Nat.leb (length (create_calls calls)) K | _ => true end
  | ApInsert _ _ => negb (failed (at_fault tn))
  | _ => true
  end.
Definition event_within_b (pid : string) (i0 : nat) (N : Z) (K : nat) (T : time) (ev : AEvent)
    (s : list (APC (L := in_process_limiter)) * AWorld) : bool :=
  match ev with
  | AevTick i p _ => negb (ap_ID p =?? pid) || (Nat.eqb i i0 && (MaxTasksPerHour (ap_Autonomy p) =? N))
  | AevTurn i tn => (T <=? at_clock tn) &&
      match s.1 !! i with Some pc => turn_within_b pid K tn pc (aw_tasks s.2) | None => true end
  | AevRepo (CallUpdateStatus _ _ _) => true
  | AevRepo _ => false
  | _ => true
  end.
Fixpoint run_within_b (pid : string) (i0 : nat) (N : Z) (K : nat) (T : time) (evs : list AEvent)
    (s : list (APC (L := in_process_limiter)) * AWorld) : bool :=
  match evs with
  | [] => true
  | ev :: evs => event_within_b pid i0 N K T ev s &&
      run_within_b pid i0 N K (clock_after T ev) evs (astep (L := in_process_limiter) (pg := pg_example) manager_example ev s)
  end.

Lemma status_keeps_made pid cut now id st tbl :
  made_since pid cut (apply_call (pg := pg_example) tbl (CallUpdateStatus now id st)) = made_since pid cut tbl.
Proof.
  pose proof (apply_call_effect (pg := pg_example) tbl (CallUpdateStatus now id st)) as He.
  revert He. generalize (apply_call (pg := pg_example) tbl (CallUpdateStatus now id st)). intros tbl' He.
  inversion He; subst; [done|]. unfold made_since, update_rows. rewrite count_if_map. f_equal.
  apply count_if_ext. intros t _. by destruct (ID t =?? id).
Qed.

Lemma run_within_check pid i0 N K T evs s : run_within_b pid i0 N K T evs s = true ->
  run_within (L := in_process_limiter) (pg := pg_example) manager_example pid i0 N K T evs s.
Proof.
  revert T s. induction evs as [|ev evs IH]; intros T s; [done|]. cbn [run_within_b run_within].
  intros [Hev Hr]%andb_true_iff. split; [|by apply IH].
  destruct ev; cbn [event_within event_within_b] in *; try done.
  - intros Hp. rewrite bool_decide_eq_true_2 in Hev by done. cbn in Hev.
    apply andb_true_iff in Hev as [E1%Nat.eqb_eq E2%Z.eqb_eq]. done.
  - apply andb_true_iff in Hev as [HT%Z.leb_le Hw]. split; [done|]. intros pc Hpc. rewrite Hpc in Hw.
    destruct pc; cbn [turn_within turn_within_b] in *; try done.
    + intros Hp. rewrite bool_decide_eq_true_2 in Hw by done. cbn in Hw.
      apply andb_true_iff in Hw as [Hf Hl%Nat.leb_le]. split; [by destruct (at_fault tn)|].
      etrans; [apply Nat2Z.inj_le, count_if_le_length|lia].
    + intros Hp. rewrite bool_decide_eq_true_2 in Hw by done. cbn in Hw. unfold answer_within.
      destruct (at_answer tn); try done. by apply Nat.leb_le.
    + intros _. by destruct (at_fault tn).
  - destruct cl; try done. intros cut. rewrite status_keeps_made. done.
Qed.

(** A model that asks for two tasks at once, with a cap of one an hour, then a tick that
    finds them done. *)
Definition eager_project : AutoProject := auto_project "llm" "Write" "" 1.
Definition eager_tick (i : nat) (clock : time) (a b : string) (x y : string) : list AEvent :=
  AevTick i eager_project false ::
  repeat (AevTurn i (answer_turn clock a
    [("create_task", marshal_args x "chore" ""); ("log", ""); ("create_task", marshal_args y "chore" "")])) 10 ++
  repeat (AevTurn i (calm_turn clock b)) 8.
Definition eager_run : list AEvent :=
  eager_tick 0 t0 "a" "b" "one" "two" ++
  [AevRepo (CallUpdateStatus t0 "a" TaskStatusCompleted); AevRepo (CallUpdateStatus t0 "b" TaskStatusCompleted)] ++
  eager_tick 0 (t0 + 10 * Minute) "c" "d" "three" "four".


(** ** Observations *)

(** An item whose task is suppressed as a duplicate is checked all the same: nothing runs. *)
Lemma suppressed_item_is_checked :
  let s := go (tick 0 backlog_project t0 "a" ++
               [AevRepo (CallUpdateStatus t0 "a" TaskStatusCompleted);
                AevFile backlog_path (Some "- [ ] one")] ++
               tick 0 backlog_project (t0 + 2 * Hour) "b")
             ([ApIdle], start_world [] {[backlog_path := "- [ ] one"]}) in
  summary s = ([("a", TaskStatusCompleted)], [AutonomyOutcomeCreated; AutonomyOutcomeDuplicate]) /\
  aw_files s.2 !! backlog_path = Some "- [x] one".
Proof. vm_compute. done. Qed.

(** The file is written from what was read before the task was created: an edit in
    between is lost. *)
Lemma backlog_edit_is_lost :
  let s := go (AevTick 0 backlog_project false :: repeat (AevTurn 0 (calm_turn t0 "a")) 8 ++
               [AevFile backlog_path (Some ("- [ ] one" ++ newline ++ "- [ ] urgent")%string)] ++
               repeat (AevTurn 0 (calm_turn t0 "a")) 4)
             ([ApIdle], start_world [] {[backlog_path := "- [ ] one"]}) in
  summary s = ([("a", TaskStatusQueued)], [AutonomyOutcomeCreated]) /\
  aw_files s.2 !! backlog_path = Some "- [x] one".
Proof. vm_compute. done. Qed.

(** A task that waits for an answer counts neither as active nor as a duplicate: the next
    tick creates it again. *)
Lemma waiting_task_is_repeated :
  summary (go (tick 0 cron_project t0 "a" ++
               [AevRepo (CallUpdateStatus t0 "a" TaskStatusAwaitingInput)] ++
               tick 0 cron_project (t0 + Hour) "b") ([ApIdle], start_world [] ∅)) =
    ([("a", TaskStatusAwaitingInput); ("b", TaskStatusQueued)], [AutonomyOutcomeCreated; AutonomyOutcomeCreated]).
Proof. vm_compute. reflexivity. Qed.

(** One answer creates two tasks under a cap of one an hour. *)
Lemma answer_exceeds_cap :
  MaxTasksPerHour (ap_Autonomy eager_project) = 1 /\
  summary (go (eager_tick 0 t0 "a" "b" "one" "two") ([ApIdle], start_world [] ∅)) =
    ([("a", TaskStatusQueued); ("b", TaskStatusQueued)], [AutonomyOutcomeCreated; AutonomyOutcomeCreated]).
Proof. vm_compute. done. Qed.

(** A hundred newer tasks of users hide an autonomous one from the count. *)
Definition user_task (n : nat) : Task :=
  (zeroTask (pretty.pretty (Z.of_nat n)))
    <| ProjectID := "p" |> <| CreationSource := TaskCreationSourceUser |>
    <| Status := TaskStatusCompleted |> <| CreatedAt := t0 |>.
Definition crowded_table : Table :=
  ((zeroTask "a") <| ProjectID := "p" |> <| CreationSource := TaskCreationSourceAutonomous |>
     <| CreatedAt := t0 - Minute |>) :: map user_task (seq 0 100).

Lemma crowded_page_hides_tasks :
  countAutonomousTasksLastHour (pg := pg_example) "p" t0 NoFault crowded_table = Ok 0 /\
  made_since "p" (t0 - Hour) crowded_table = 1.
Proof. vm_compute. done. Qed.

(** The first tick of a loop starts on a daemon that is not the leader; a later one does
    not. *)
Definition follower_world : AWorld (L := in_process_limiter) :=
  (start_world [] ∅) <| aw_gate := LeaderElection.GateElector
    (LeaderElection.mkElector "autonomy_manager" "b" (60 * Second) false None 1) |>.

Lemma first_tick_ignores_leadership :
  (go [AevTick 0 cron_project true] ([ApIdle], follower_world)).1 = [ApRate cron_project] /\
  (go [AevTick 0 cron_project false] ([ApIdle], follower_world)).1 = [ApIdle].
Proof. done. Qed.
